(* ===== verification/_CoqProject ===== *)
-Q . S2P
Prelude.v
AsmBase.v
TwoPass.v
AsmBaseSpec.v
Keeps.v
Machine.v
Rv32Isa.v
AsmRv32Opcodes.v
Emission.v
Program.v
PyMisc.v
AsmRv32.v
AsmRv32Decode.v
AsmRv32Imm.v
AsmRv32Jump.v
AsmRv32Mem.v
AsmRv32Frame.v
AsmRv32Zcmp.v
AsmRv32Pass.v
AsmRv32Spec.v
AsmRv32Program.v
X86Isa.v
X86Encode.v
X86Effect.v
X86Stack.v
X86Arith.v
X86Jump.v
AsmX64.v
AsmX64Pass.v
AsmX64Instr.v
AsmX64Frame.v
AsmX64Jump.v
AsmX64Spec.v
AsmX86.v
AsmX86Pass.v
AsmX86Instr.v
AsmX86Frame.v
AsmX86Jump.v
AsmX86Call.v
AsmX86Spec.v
ArmIsa.v
ArmEffect.v
AsmArm.v
AsmArmInstr.v
AsmArmPass.v
AsmArmJump.v
AsmArmFrame.v
AsmArmMem.v
AsmArmSpec.v
AsmThumb.v
AsmThumbPass.v
AsmThumbInstr.v
AsmThumbImm.v
AsmThumbMem.v
AsmThumbIndex.v
AsmThumbJump.v
AsmThumbFrame.v
AsmThumbSpec.v
AsmXtensa.v
AsmXtensaPass.v
XtensaIsa.v
AsmXtensaInstr.v
AsmXtensaImm.v
AsmXtensaTable.v
AsmXtensaMem.v
AsmXtensaJump.v
AsmXtensaFrame.v
AsmXtensaWin.v
AsmXtensaSpec.v
Confinement.v
