(* ===== verification/Prelude.v ===== *)
(** * The MicroPython assembler library (bank/uPython-ASM), modelled and verified

    ** The program

    bank/uPython-ASM is the code generator of MicroPython's native emitter: a
    state that all targets share (asmbase.c), and six back ends that turn
    abstract operations into machine code: asmrv32, asmx64, asmx86, asmarm,
    asmthumb and asmxtensa.  The emitter runs the same operations in several
    passes.  Compute passes write nothing; they measure the code and record
    where each label is.  Then [mp_asm_base_start_pass] allocates a region of
    the measured size and the emit pass writes the code into it, the labels'
    offsets being known.  What makes this correct, and what the theorems are
    about:
    - the passes must agree: an operation whose size depended on something only
      the last pass knows would move every label after it;
    - nothing may be written outside the region;
    - the bytes must be the instructions meant, in each of several encodings
      chosen by operand ranges;
    - running them must have the effect the operation promises: a frame that
      is restored, a jump that arrives, a value at the address named.

    ** Reading the development

    The C code is translated function by function, with the C names.  Integers
    are [Z] with every wrap-around written out ([u8], [s32], ...).  A function
    that may fail an assertion, raise an exception or write out of bounds is a
    command of the state monad [M] below, whose outcome is [Ok] or a [Fault].

    Shared state (asmbase):
    - AsmBase: [mp_asm_base_t], every operation of asmbase.c and asmbase.h;
      the class [HasBase], by which a back end's state contains it; the class
      [SizeT], the width of [size_t]; the class [PlatAllocExec], the port's
      allocator of executable memory.
    - AsmBaseSpec: its operations on every branch, and the passes over data.
    - TwoPass: [steady], the rules by which an operation writes as many bytes
      in each pass; [twin] states and sequences of operations.
    - Keeps: invariants of the shared state carried through any operation.
    - Confinement: those invariants for five back ends: memory safety and the
      alignment of instructions.

    Target machines:
    - Machine: registers, memory, code, runs.  Emission: [emits], [assembles],
      [implements] and [performs], from emitted bytes to what running them
      does.  Program: the same in the finished image of a whole function.
    - Rv32Isa, X86Isa, ArmIsa and XtensaIsa: decoders and executors for the
      part of the instruction sets that is emitted, after bank/QEMU-Targets and
      bank/DECAF-QEMU.

    Back ends, each with its model and its proofs:
    - RV32: AsmRv32Opcodes (asmrv32.h), AsmRv32 (asmrv32.c), PyMisc (the macros
      of py/misc.h, parameters); AsmRv32Decode (opcodes), AsmRv32Imm
      (constants), AsmRv32Jump, AsmRv32Mem, AsmRv32Frame and AsmRv32Zcmp (entry
      and exit), AsmRv32Pass (agreement), AsmRv32Spec and AsmRv32Program (the
      theorems).
    - x86-64 and x86: AsmX64, AsmX86 (the models); X86Encode, X86Effect,
      X86Stack, X86Arith, X86Jump (what the two share); AsmX64Instr, -Frame,
      -Jump, -Pass, -Spec and AsmX86Instr, -Frame, -Jump, -Call, -Pass, -Spec.
    - ARM: AsmArm (the model); ArmEffect (instructions, shared with Thumb);
      AsmArmInstr, -Jump, -Frame, -Mem, -Pass, -Spec.
    - Thumb, with and without ARMv7-M: AsmThumb (the model); AsmThumbPass
      (agreement); AsmThumbInstr, -Imm (constants), -Mem and -Index (loads,
      stores and locals), -Jump, -Frame, -Spec.
    - Xtensa, with and without register windows: AsmXtensa (the model);
      AsmXtensaPass (agreement); AsmXtensaInstr, -Imm and -Table (constants),
      -Mem (loads, stores and locals), -Jump, -Frame and -Win (entry and exit
      in either calling convention), -Spec.

    Prelude (this file) has the words, the bytes, the monad and [bitsolve], a
    reflective procedure that proves two word expressions equal bit by bit.

    ** How the parts meet

    A back end's operation [op] is proved [steady], so that it may be used in
    all passes; it is proved to [implements] a relation on target machines,
    whatever bytes surround it; [Program] and AsmRv32Program join the two: in
    the image that the emit pass leaves, running from the operation's place
    relates the machines as promised.  The back ends see the shared state only
    through [HasBase] and the lemmas of AsmBase about [put_bytes].

    ** The theorems

    - Agreement of the passes: [base_passes_agree], [rv32_passes_agree],
      [x64_passes_agree], [x86_passes_agree], [arm_passes_agree],
      [thumb_passes_agree], [xtensa_passes_agree].  A measured function is
      emitted without a failing assertion or an exception, at the measured size
      and with every label at the offset recorded.
    - Safety: [memory_safety], [instructions_aligned], [base_data_label_spec].
    - Whole functions: [rv32_image_runs], [rv32_jump_reaches_label],
      [x64_jump_reaches_label].
    - Frames: [rv32_function_frame], [x64_function_frame],
      [x86_function_frame], [arm_function_frame], [thumb_function_frame],
      [xtensa_function_frame] and its [xtensa_frame_bounds]; calls:
      [rv32_jumps], [x64_jumps], [x86_calls_pass_arguments], [arm_jumps],
      [thumb_jumps], [xtensa_jumps].
    - Jumps, memory, arithmetic, constants and comparisons of all six back
      ends ([rv32_loads_stores], [x64_arithmetic], [xtensa_values] and the
      others); [rv32_opcodes_roundtrip], the decoder reading every opcode back.
    - [thumb_adjust_sp_loop_ends], the one loop that is not over a list or a
      count.
    - Within [rv32_opcodes_roundtrip], [rv32_loads_stores], [x64_loads_stores],
      [x86_loads_stores], [arm_loads_stores], [thumb_function_frame],
      [thumb_jumps], [thumb_loads_stores], [xtensa_frame_bounds],
      [xtensa_jumps] and [xtensa_values], and in [arm_local_overflow]: where
      the code does not do what it means to, proved.

    ** Bounds and fuel

    The code's offset and its labels are below a limit that keeps a
    displacement in its type and in reach of the long jumps: 2^31 - 1 for
    RV32, x86-64 and x86, 2^31 - 16 for Thumb, 2^25 - 16 for ARM (the reach of
    a branch, beyond which asm_arm_bcc_label emits nothing) and 2^17 - 16 for
    Xtensa (the reach of J).  [base_limit] is one less than the offset that
    marks a label not yet placed.
    The only fuel is that of [adjust_sp_loop], the number of words to adjust
    by, which [thumb_adjust_sp_loop_ends] shows to be enough.  [runs] is a
    number of steps, existentially quantified.

    ** Not modelled

    - MP_PLAT_ALLOC_EXEC, the emitter's table of arguments [mp_f_n_args] and
      py/misc.h are not in the repository: parameters.
    - The Xtensa register file is unbounded: the handlers that spill a window
      when the file is full, and load it back, are not in the repository.
    - An Xtensa constant that is read from the table is required to be there
      in the target's memory; [xtensa_values] shows that the finished code has
      it.
    - ARM and Thumb code that loads a constant from itself is run where it can
      be read ([readable], [reads_code]); what a store into the code would do
      is not modelled.
    - The Xtensa constant table is filled through a plain pointer that only
      the agreement of the passes keeps in bounds; it is not in
      [memory_safety].
    - Printing of the generated code under a debug switch and functions under
      [#if 0] are not compiled.
    - The rest of the repository is a catalogue: instruction tables and
      machine descriptions cut out of other projects, which do not build by
      themselves, and Python scripts that extract lists from them. *)

(** ** Prelude

    What the components share: fixed-width unsigned and signed words over [Z]
    with their wrap-around written out, C's bit operators in a scope of their
    own, little-endian bytes, the outcome monad of code that may fail an
    assertion or raise an exception, in-place updates of a byte buffer, and
    [bitsolve]. *)

From Stdlib Require Export ZArith Lia.
From stdpp Require Export base tactics option list numbers strings gmap relations.

#[global] Open Scope Z_scope.
Set Default Goal Selector "!".

(** ** C operators, with C's precedences among themselves *)

Declare Scope c_scope.
Delimit Scope c_scope with c.
Notation "a << n" := (Z.shiftl a n) (at level 51, left associativity) : c_scope.
Notation "a >> n" := (Z.shiftr a n) (at level 51, left associativity) : c_scope.
Notation "a .& b" := (Z.land a b) (at level 52, left associativity) : c_scope.
Notation "a .^ b" := (Z.lxor a b) (at level 53, left associativity) : c_scope.
Notation "a .| b" := (Z.lor a b) (at level 54, left associativity) : c_scope.
#[global] Open Scope c_scope.

(** ** Words *)

(** The unsigned and the signed reading of a [w]-bit word. *)
Definition uw (w z : Z) : Z := z mod 2 ^ w.
Definition sw (w z : Z) : Z := (z + 2 ^ (w - 1)) mod 2 ^ w - 2 ^ (w - 1).

Abbreviation u8 := (uw 8).
Abbreviation u16 := (uw 16).
Abbreviation u32 := (uw 32).
Abbreviation u64 := (uw 64).
Abbreviation s8 := (sw 8).
Abbreviation s16 := (sw 16).
Abbreviation s32 := (sw 32).
Abbreviation s64 := (sw 64).

(** [bits w lo n]: the [n]-bit field of [w] that starts at bit [lo]. *)
Definition bits (w lo n : Z) : Z := uw n (w >> lo).

(** C's [bool] in an integer context. *)
Definition b2z (b : bool) : Z := if b then 1 else 0.

Section Words.
Context (w : Z) (w_pos : 0 < w).

Lemma pow2_pos : 0 < 2 ^ w.
Proof using w_pos. apply Z.pow_pos_nonneg; lia. Qed.

Lemma pow2_half : 2 ^ w = 2 * 2 ^ (w - 1).
Proof using w_pos. rewrite <- Z.pow_succ_r by lia. f_equal; lia. Qed.

Lemma uw_range z : 0 <= uw w z < 2 ^ w.
Proof using w_pos. apply Z.mod_pos_bound, pow2_pos. Qed.

Lemma uw_small z : 0 <= z < 2 ^ w -> uw w z = z.
Proof using. apply Z.mod_small. Qed.

Lemma uw_uw z : uw w (uw w z) = uw w z.
Proof using w_pos. apply uw_small, uw_range. Qed.

Lemma sw_range z : - 2 ^ (w - 1) <= sw w z < 2 ^ (w - 1).
Proof using w_pos.
  pose proof pow2_half as Hh. pose proof pow2_pos as Hp. unfold sw.
  pose proof (Z.mod_pos_bound (z + 2 ^ (w - 1)) (2 ^ w) Hp). lia.
Qed.

Lemma sw_small z : - 2 ^ (w - 1) <= z < 2 ^ (w - 1) -> sw w z = z.
Proof using w_pos.
  pose proof pow2_half. intros. unfold sw. rewrite Z.mod_small; lia.
Qed.

(** Equal words have equal signed and unsigned readings. *)
Lemma uw_eq_iff x y : uw w x = uw w y <-> exists k, x = y + k * 2 ^ w.
Proof using w_pos.
  pose proof pow2_pos as Hp. unfold uw. split.
  - intros E. exists (x / 2 ^ w - y / 2 ^ w).
    pose proof (Z.div_mod x (2 ^ w)). pose proof (Z.div_mod y (2 ^ w)). nia.
  - intros [k ->]. rewrite Z.mod_add by lia. done.
Qed.

Lemma sw_uw z : sw w (uw w z) = sw w z.
Proof using w_pos.
  unfold sw, uw. rewrite Z.add_mod_idemp_l; [done | pose proof pow2_pos; lia].
Qed.

Lemma sw_wrap k x y : x = y + k * 2 ^ w -> - 2 ^ (w - 1) <= y < 2 ^ (w - 1) -> sw w x = y.
Proof using w_pos.
  intros Hx Hy. rewrite <- (sw_uw x), (proj2 (uw_eq_iff x y)), sw_uw by eauto. by apply sw_small.
Qed.

Lemma uw_sw z : uw w (sw w z) = uw w z.
Proof using w_pos.
  apply uw_eq_iff. pose proof pow2_pos.
  exists (- ((z + 2 ^ (w - 1)) / 2 ^ w)). unfold sw.
  pose proof (Z.div_mod (z + 2 ^ (w - 1)) (2 ^ w)). lia.
Qed.

Lemma uw_add_l x y : uw w (uw w x + y) = uw w (x + y).
Proof using w_pos. unfold uw. apply Z.add_mod_idemp_l. pose proof pow2_pos; lia. Qed.
Lemma uw_add_r x y : uw w (x + uw w y) = uw w (x + y).
Proof using w_pos. unfold uw. apply Z.add_mod_idemp_r. pose proof pow2_pos; lia. Qed.
Lemma uw_sub_l x y : uw w (uw w x - y) = uw w (x - y).
Proof using w_pos. unfold uw. apply Zminus_mod_idemp_l. Qed.
Lemma uw_sub_r x y : uw w (x - uw w y) = uw w (x - y).
Proof using w_pos. unfold uw. apply Zminus_mod_idemp_r. Qed.
Lemma uw_mul_l x y : uw w (uw w x * y) = uw w (x * y).
Proof using w_pos. unfold uw. apply Z.mul_mod_idemp_l. pose proof pow2_pos; lia. Qed.
Lemma uw_mul_r x y : uw w (x * uw w y) = uw w (x * y).
Proof using w_pos. unfold uw. apply Z.mul_mod_idemp_r. pose proof pow2_pos; lia. Qed.
(** Two words are equal if their difference is zero. *)
Lemma uw_sub_eqb a b : (uw w (uw w a - uw w b) =? 0) = (uw w b =? uw w a).
Proof using w_pos.
  pose proof (uw_range a) as Ha. pose proof (uw_range b) as Hb. pose proof pow2_pos.
  apply eq_bool_prop_intro. rewrite !Is_true_true, !Z.eqb_eq. split; [|intros ->; rewrite Z.sub_diag; by apply uw_small; lia].
  intros E. apply Z.mod_divide in E as [k Hk]; [|lia].
  assert (k = 0) as -> by nia. lia.
Qed.
End Words.

(** ** Tests by masking: does a word fit fewer bits? *)

Section Fits.
Context (n k : Z) (Hk : 0 <= k < n).

Lemma land_high_mask x : x .& (2 ^ n - 2 ^ k) = uw n x - uw k x.
Proof using Hk.
  pose proof (Z.pow_pos_nonneg 2 k ltac:(lia) ltac:(lia)) as Hpk.
  assert (2 ^ n - 2 ^ k = Z.ldiff (Z.ones n) (Z.ones k)) as ->.
  { rewrite Z.ldiff_ones_r, Z.shiftl_mul_pow2, Z.shiftr_div_pow2, Z.ones_equiv by lia.
    replace n with ((n - k) + k) by lia. rewrite Z.pow_add_r by lia.
    assert (Z.pred (2 ^ (n - k) * 2 ^ k) / 2 ^ k = 2 ^ (n - k) - 1) as ->; [|lia].
    symmetry. apply (Z.div_unique_pos _ _ _ (2 ^ k - 1)); lia. }
  assert (x .& Z.ldiff (Z.ones n) (Z.ones k) = Z.ldiff (uw n x) (Z.ones k)) as ->.
  { unfold uw. rewrite <- Z.land_ones by lia. apply Z.bits_inj'. intros i _.
    rewrite !Z.land_spec, !Z.ldiff_spec, Z.land_spec. by destruct (Z.testbit x i). }
  rewrite Z.ldiff_ones_r, Z.shiftl_mul_pow2, Z.shiftr_div_pow2 by lia.
  assert (uw k x = uw n x mod 2 ^ k) as ->.
  { unfold uw. symmetry. apply Z.mod_mod_divide. exists (2 ^ (n - k)).
    rewrite <- Z.pow_add_r by lia. f_equal. lia. }
  pose proof (Z.div_mod (uw n x) (2 ^ k)). lia.
Qed.

Lemma uw_narrow x : uw k x <= uw n x /\ (uw k x = uw n x <-> uw n x < 2 ^ k).
Proof using Hk.
  pose proof (Z.pow_pos_nonneg 2 k ltac:(lia) ltac:(lia)) as Hpk.
  assert (0 < n) as Hn by lia. pose proof (uw_range n Hn x) as Hr.
  assert (uw k x = uw n x mod 2 ^ k) as ->.
  { unfold uw. symmetry. apply Z.mod_mod_divide. exists (2 ^ (n - k)).
    rewrite <- Z.pow_add_r by lia. f_equal. lia. }
  pose proof (Z.mod_le (uw n x) (2 ^ k)). pose proof (Z.mod_pos_bound (uw n x) (2 ^ k)).
  split; [lia|]. split; [lia|]. intros. apply Z.mod_small. lia.
Qed.

Lemma fit_unsigned x : (x .& (2 ^ n - 2 ^ k) =? 0) = (uw n x <? 2 ^ k).
Proof using Hk.
  rewrite land_high_mask. destruct (uw_narrow x) as [Hle Hiff].
  destruct (Z.ltb_spec (uw n x) (2 ^ k)); [apply Z.eqb_eq|apply Z.eqb_neq]; lia.
Qed.

Lemma fit_signed x :
  (x .& (2 ^ n - 2 ^ k) =? 0) || (x .& (2 ^ n - 2 ^ k) =? 2 ^ n - 2 ^ k)
  = (- 2 ^ k <=? sw n x) && (sw n x <? 2 ^ k).
Proof using Hk.
  rewrite fit_unsigned, land_high_mask. destruct (uw_narrow x) as [Hle Hiff].
  assert (0 < n) as Hn by lia. pose proof (uw_range n Hn x) as Hr.
  pose proof (Z.mod_pos_bound x (2 ^ k) ltac:(lia)) as Hrk. fold (uw k x) in Hrk.
  assert (2 ^ k <= 2 ^ (n - 1)) as Hpn by (apply Z.pow_le_mono_r; lia).
  pose proof (pow2_half n Hn) as Hh.
  assert (exists q, uw n x = uw k x + q * 2 ^ k) as [q Hq].
  { exists (uw n x / 2 ^ k). assert (uw k x = uw n x mod 2 ^ k) as ->.
    { unfold uw. symmetry. apply Z.mod_mod_divide. exists (2 ^ (n - k)).
      rewrite <- Z.pow_add_r by lia. f_equal. lia. }
    pose proof (Z.div_mod (uw n x) (2 ^ k)). lia. }
  assert (2 ^ n = 2 ^ (n - k) * 2 ^ k) as Hn' by (rewrite <- Z.pow_add_r by lia; f_equal; lia).
  assert (sw n x = if uw n x <? 2 ^ (n - 1) then uw n x else uw n x - 2 ^ n) as ->.
  { rewrite <- (sw_uw n Hn x). destruct (Z.ltb_spec (uw n x) (2 ^ (n - 1))).
    - apply sw_small; lia.
    - apply (sw_wrap n Hn 1); lia. }
  apply eq_bool_prop_intro. rewrite orb_True, andb_True, !Is_true_true, !Z.ltb_lt, !Z.leb_le, Z.eqb_eq.
  destruct (Z.ltb_spec (uw n x) (2 ^ (n - 1))); split; intros Hx.
  - destruct Hx; lia.
  - left. lia.
  - destruct Hx; lia.
  - right. assert (q = 2 ^ (n - k) - 1) as ->; nia.
Qed.
End Fits.

Create Rewrite HintDb word.
Create Rewrite HintDb machine.
#[export] Hint Rewrite uw_uw sw_uw uw_sw uw_add_l uw_add_r uw_sub_l uw_sub_r
  uw_mul_l uw_mul_r using lia : word.

(** Divisibility by a power of two survives the wrap-around. *)
Lemma uw_divide n k x : 0 <= k <= n -> (2 ^ k | x) -> (2 ^ k | uw n x).
Proof.
  intros Hk Hx. unfold uw. rewrite Z.mod_eq by (apply Z.pow_nonzero; lia).
  apply Z.divide_sub_r; [done|]. apply Z.divide_mul_l.
  exists (2 ^ (n - k)). rewrite <- Z.pow_add_r by lia. f_equal; lia.
Qed.

Lemma sw_divide n k x : 0 <= k < n -> (2 ^ k | x) -> (2 ^ k | sw n x).
Proof.
  intros Hk Hx. unfold sw. assert (2 ^ k | 2 ^ (n - 1)) as Hh.
  { exists (2 ^ (n - 1 - k)). rewrite <- Z.pow_add_r by lia. f_equal; lia. }
  apply Z.divide_sub_r; [|done]. apply (uw_divide n); [lia|]. by apply Z.divide_add_r.
Qed.

(** Constant powers of two as numerals. *)
Ltac fold_pow2 :=
  repeat match goal with
  | |- context [2 ^ ?n] => let v := eval vm_compute in (2 ^ n) in change (2 ^ n) with v
  | H : context [2 ^ ?n] |- _ => let v := eval vm_compute in (2 ^ n) in change (2 ^ n) with v in H
  end.

(** Linear arithmetic with the wrap-arounds of a constant width. *)
Ltac word_lia :=
  unfold uw, sw in *; fold_pow2; Z.to_euclidean_division_equations; lia.

(** Linear arithmetic with constant powers of two. *)
Ltac pow_lia := fold_pow2; lia.

(** Case analysis on a small number. *)
Lemma in_range n x : 0 <= x < Z.of_nat n -> In x (Z.of_nat <$> seq 0 n).
Proof. intros. apply in_map_iff. exists (Z.to_nat x). split; [lia|]. apply in_seq. lia. Qed.
Ltac enumerate n r :=
  let E := fresh in pose proof (in_range n r ltac:(lia)) as E; vm_compute in E;
  repeat destruct E as [<- | E]; [..|done].

(** ** [bitsolve]: word expressions compared bit by bit

    A word expression over atoms is reified as a [bexp]; [bit_at] computes any
    of its bits symbolically, each bit being a constant, a bit of an atom, or a
    boolean combination of those, normalised as it is built.  An atom comes
    with a width when the context bounds it, and its higher bits are then
    zero.  [bexp_eqb] compares two expressions on the bits either may have. *)

Module Bitwise.

Inductive bexp :=
| EAtom (i : nat)
| EConst (z : Z)
| EOr (a b : bexp)
| EAnd (a b : bexp)
| EXor (a b : bexp)
| EShl (a : bexp) (n : Z)
| EShr (a : bexp) (n : Z)
| EMod (a : bexp) (n : Z).

Inductive sbit :=
| SConst (b : bool)
| SAtom (i : nat) (k : Z)
| SOr (a b : sbit)
| SAnd (a b : sbit)
| SXor (a b : sbit).

Definition sor (a b : sbit) : sbit :=
  match a, b with
  | SConst true, _ | _, SConst true => SConst true
  | SConst false, x | x, SConst false => x
  | _, _ => SOr a b
  end.
Definition sand (a b : sbit) : sbit :=
  match a, b with
  | SConst false, _ | _, SConst false => SConst false
  | SConst true, x | x, SConst true => x
  | _, _ => SAnd a b
  end.
Definition sxor (a b : sbit) : sbit :=
  match a, b with
  | SConst x, SConst y => SConst (xorb x y)
  | SConst false, x | x, SConst false => x
  | _, _ => SXor a b
  end.

(** [ws !! i] is the width of atom [i], [-1] when it is not known. *)
Definition atom_width (ws : list Z) (i : nat) : Z := List.nth i ws (-1).
Definition atom_val (env : list Z) (i : nat) : Z := List.nth i env 0.

Fixpoint eval (env : list Z) (e : bexp) : Z :=
  match e with
  | EAtom i => atom_val env i
  | EConst z => z
  | EOr a b => Z.lor (eval env a) (eval env b)
  | EAnd a b => Z.land (eval env a) (eval env b)
  | EXor a b => Z.lxor (eval env a) (eval env b)
  | EShl a n => Z.shiftl (eval env a) n
  | EShr a n => Z.shiftr (eval env a) n
  | EMod a n => uw n (eval env a)
  end.

Fixpoint seval (env : list Z) (s : sbit) : bool :=
  match s with
  | SConst b => b
  | SAtom i k => Z.testbit (atom_val env i) k
  | SOr a b => seval env a || seval env b
  | SAnd a b => seval env a && seval env b
  | SXor a b => xorb (seval env a) (seval env b)
  end.

Fixpoint bit_at (ws : list Z) (e : bexp) (k : Z) : sbit :=
  if k <? 0 then SConst false else
  match e with
  | EAtom i =>
      let w := atom_width ws i in
      if (0 <=? w) && (w <=? k) then SConst false else SAtom i k
  | EConst z => SConst (Z.testbit z k)
  | EOr a b => sor (bit_at ws a k) (bit_at ws b k)
  | EAnd a b => sand (bit_at ws a k) (bit_at ws b k)
  | EXor a b => sxor (bit_at ws a k) (bit_at ws b k)
  | EShl a n => bit_at ws a (k - n)
  | EShr a n => bit_at ws a (k + n)
  | EMod a n => if (k <? n) || (n <? 0) then bit_at ws a k else SConst false
  end.

(** The bits from [width] on are zero; [-1] when no such bound is known. *)
Fixpoint width (ws : list Z) (e : bexp) : Z :=
  match e with
  | EAtom i => atom_width ws i
  | EConst z => if 0 <=? z then Z.log2 z + 1 else -1
  | EOr a b | EXor a b =>
      let x := width ws a in let y := width ws b in
      if (0 <=? x) && (0 <=? y) then Z.max x y else -1
  | EAnd a b =>
      let x := width ws a in let y := width ws b in
      if 0 <=? x then (if 0 <=? y then Z.min x y else x) else y
  | EShl a n => let x := width ws a in if 0 <=? x then Z.max 0 (x + n) else -1
  | EShr a n => let x := width ws a in if 0 <=? x then Z.max 0 (x - n) else -1
  | EMod _ n => if 0 <=? n then n else -1
  end.

Fixpoint sbit_eqb (a b : sbit) : bool :=
  match a, b with
  | SConst x, SConst y => Bool.eqb x y
  | SAtom i k, SAtom j l => Nat.eqb i j && (k =? l)
  | SOr a1 a2, SOr b1 b2 | SAnd a1 a2, SAnd b1 b2 | SXor a1 a2, SXor b1 b2 =>
      sbit_eqb a1 b1 && sbit_eqb a2 b2
  | _, _ => false
  end.

Definition bexp_eqb (ws : list Z) (a b : bexp) : bool :=
  let x := width ws a in let y := width ws b in
  (0 <=? x) && (0 <=? y) &&
  forallb (fun k => sbit_eqb (bit_at ws a (Z.of_nat k)) (bit_at ws b (Z.of_nat k)))
          (seq 0 (Z.to_nat (Z.max x y))).

(** The value of an expression none of whose bits depends on an atom. *)
Fixpoint const_bits (ws : list Z) (e : bexp) (k : Z) (n : nat) : option Z :=
  match n with
  | O => Some 0
  | S n =>
      match bit_at ws e k, const_bits ws e (k + 1) n with
      | SConst b, Some z => Some (b2z b + 2 * z)
      | _, _ => None
      end
  end.
Definition const_value (ws : list Z) (e : bexp) : option Z :=
  if 0 <=? width ws e then const_bits ws e 0 (Z.to_nat (width ws e)) else None.

(** Every atom whose width is given lies below that power of two. *)
Definition env_ok (ws env : list Z) : Prop :=
  Forall2 (fun w v => 0 <= w -> 0 <= v < 2 ^ w) ws env.

Section Soundness.
Context (ws env : list Z) (Hok : env_ok ws env).

Lemma atom_high i k : 0 <= atom_width ws i -> atom_width ws i <= k ->
  Z.testbit (atom_val env i) k = false.
Proof using Hok.
  unfold atom_width, atom_val, env_ok in *. revert i.
  induction Hok as [|w v ws' env' Hwv Htl IH]; intros [|i] Hw Hk; simpl in *;
    [lia | lia | | by apply (IH Htl)].
  destruct (Hwv Hw) as [H0 H1].
  destruct (decide (v = 0)) as [->|Hnz]; [apply Z.testbit_0_l|].
  apply Z.bits_above_log2; [lia|].
  assert (Z.log2 v < w) by (apply Z.log2_lt_pow2; lia). lia.
Qed.

Lemma seval_sor a b : seval env (sor a b) = seval env a || seval env b.
Proof using. destruct a as [[]| | | |], b as [[]| | | |]; simpl; rewrite ?orb_true_r, ?orb_false_r; done. Qed.
Lemma seval_sand a b : seval env (sand a b) = seval env a && seval env b.
Proof using. destruct a as [[]| | | |], b as [[]| | | |]; simpl; rewrite ?andb_true_r, ?andb_false_r; done. Qed.
Lemma seval_sxor a b : seval env (sxor a b) = xorb (seval env a) (seval env b).
Proof using.
  destruct a as [[]| | | |], b as [[]| | | |]; simpl; rewrite ?xorb_false_r, ?xorb_false_l; done.
Qed.

Lemma bit_at_neg e k : k < 0 -> bit_at ws e k = SConst false.
Proof using. intros Hk. destruct e; simpl; destruct (Z.ltb_spec k 0); done || lia. Qed.

Lemma bit_at_spec e k : seval env (bit_at ws e k) = Z.testbit (eval env e) k.
Proof using Hok.
  revert k. induction e; intros k; (destruct (decide (k < 0)) as [Hk|Hk];
    [rewrite bit_at_neg, Z.testbit_neg_r by lia; done|]); simpl;
    (destruct (Z.ltb_spec k 0) as [Hc|_]; [lia|]).
  - destruct (0 <=? _) eqn:E1; simpl; [|done].
    destruct (_ <=? k) eqn:E2; simpl; [|done].
    symmetry. apply atom_high; lia.
  - done.
  - rewrite seval_sor, IHe1, IHe2, Z.lor_spec; done.
  - rewrite seval_sand, IHe1, IHe2, Z.land_spec; done.
  - rewrite seval_sxor, IHe1, IHe2, Z.lxor_spec; done.
  - rewrite Z.shiftl_spec by lia. auto.
  - rewrite Z.shiftr_spec by lia. auto.
  - unfold uw. destruct (Z.ltb_spec n 0).
    + rewrite orb_true_r, Z.pow_neg_r, Z.mod_0_r by lia. auto.
    + rewrite orb_false_r. destruct (Z.ltb_spec k n); simpl.
      * rewrite Z.mod_pow2_bits_low by lia. auto.
      * rewrite Z.mod_pow2_bits_high by lia. done.
Qed.

Lemma width_spec e k : 0 <= width ws e -> width ws e <= k ->
  Z.testbit (eval env e) k = false.
Proof using Hok.
  revert k. induction e; simpl; intros k Hw Hk.
  - by apply atom_high.
  - destruct (Z.leb_spec 0 z); [|lia].
    apply Z.bits_above_log2; lia.
  - rewrite Z.lor_spec. destruct (0 <=? width ws e1) eqn:E1, (0 <=? width ws e2) eqn:E2;
      simpl in *; try lia. rewrite IHe1, IHe2; [done| lia..].
  - rewrite Z.land_spec. destruct (0 <=? width ws e1) eqn:E1, (0 <=? width ws e2) eqn:E2;
      simpl in *; try lia.
    + destruct (decide (width ws e1 <= k)); [rewrite IHe1 by lia; done|].
      rewrite IHe2 by lia. apply andb_false_r.
    + rewrite IHe1 by lia. done.
    + rewrite IHe2 by lia. apply andb_false_r.
  - rewrite Z.lxor_spec. destruct (0 <=? width ws e1) eqn:E1, (0 <=? width ws e2) eqn:E2;
      simpl in *; try lia. rewrite IHe1, IHe2; [done| lia..].
  - destruct (0 <=? width ws e) eqn:E1; [|lia].
    rewrite Z.shiftl_spec by lia. apply IHe; lia.
  - destruct (0 <=? width ws e) eqn:E1; [|lia].
    rewrite Z.shiftr_spec by lia. apply IHe; lia.
  - destruct (0 <=? n) eqn:E1; [|lia]. unfold uw. apply Z.mod_pow2_bits_high. lia.
Qed.

Lemma sbit_eqb_sound a b : sbit_eqb a b = true -> seval env a = seval env b.
Proof using.
  revert b. induction a; intros [] Heq; simpl in *; try done;
    try (apply andb_prop in Heq as [H1 H2]).
  - by apply Bool.eqb_prop.
  - apply Nat.eqb_eq in H1. apply Z.eqb_eq in H2. by subst.
  - erewrite IHa1, IHa2 by eassumption; done.
  - erewrite IHa1, IHa2 by eassumption; done.
  - erewrite IHa1, IHa2 by eassumption; done.
Qed.

Lemma bexp_eqb_sound a b : bexp_eqb ws a b = true -> eval env a = eval env b.
Proof using Hok.
  unfold bexp_eqb. rewrite !andb_true_iff, forallb_forall, !Z.leb_le.
  intros [[Ha Hb] Hall]. apply Z.bits_inj'. intros k Hk.
  destruct (decide (k < Z.max (width ws a) (width ws b))) as [Hlt|Hge].
  - rewrite <- !bit_at_spec. apply sbit_eqb_sound.
    specialize (Hall (Z.to_nat k)). rewrite in_seq, Z2Nat.id in Hall by lia.
    apply Hall. lia.
  - rewrite !width_spec by lia. done.
Qed.
End Soundness.

(** Reification. *)
Ltac find_atom v env :=
  lazymatch env with
  | cons v _ => constr:(O)
  | cons _ ?rest => let i := find_atom v rest in constr:(S i)
  end.
Ltac add_atom v env :=
  match env with
  | _ => let _ := find_atom v env in env
  | _ => let rec snoc e :=
           lazymatch e with
           | nil => constr:(cons v (@nil Z))
           | cons ?h ?t => let t' := snoc t in constr:(cons h t')
           end in snoc env
  end.
Ltac is_const z :=
  lazymatch z with
  | Z0 => idtac
  | Zpos ?p => is_pos p
  | Zneg ?p => is_pos p
  end
with is_pos p :=
  lazymatch p with xH => idtac | xO ?q => is_pos q | xI ?q => is_pos q end.
Ltac atoms e env :=
  match e with
  | _ => let _ := match goal with _ => is_const e end in env
  | Z.lor ?a ?b => let env := atoms a env in atoms b env
  | Z.land ?a ?b => let env := atoms a env in atoms b env
  | Z.lxor ?a ?b => let env := atoms a env in atoms b env
  | Z.shiftl ?a ?n => let _ := match goal with _ => is_const n end in atoms a env
  | Z.shiftr ?a ?n => let _ := match goal with _ => is_const n end in atoms a env
  | uw ?n ?a => let _ := match goal with _ => is_const n end in atoms a env
  | _ => add_atom e env
  end.
Ltac reify e env :=
  match e with
  | _ => let _ := match goal with _ => is_const e end in constr:(EConst e)
  | Z.lor ?a ?b => let a := reify a env in let b := reify b env in constr:(EOr a b)
  | Z.land ?a ?b => let a := reify a env in let b := reify b env in constr:(EAnd a b)
  | Z.lxor ?a ?b => let a := reify a env in let b := reify b env in constr:(EXor a b)
  | Z.shiftl ?a ?n => let _ := match goal with _ => is_const n end in
      let a := reify a env in constr:(EShl a n)
  | Z.shiftr ?a ?n => let _ := match goal with _ => is_const n end in
      let a := reify a env in constr:(EShr a n)
  | uw ?n ?a => let _ := match goal with _ => is_const n end in
      let a := reify a env in constr:(EMod a n)
  | _ => let i := find_atom e env in constr:(EAtom i)
  end.
Ltac width_of v :=
  match goal with
  | H : 0 <= v < ?b |- _ => let w := eval vm_compute in (Z.log2_up b) in w
  | _ => constr:(-1)
  end.
Ltac widths env :=
  lazymatch env with
  | nil => constr:(@nil Z)
  | cons ?v ?rest =>
      let w := width_of v in let ws := widths rest in constr:(cons w ws)
  end.
End Bitwise.

(** Conversion is to compute the evaluator, never C's operators. *)
#[global] Strategy 1000 [Z.lor Z.land Z.lxor Z.shiftl Z.shiftr uw].
#[global] Strategy expand [Bitwise.eval Bitwise.atom_val List.nth].

(** Proves [a = b] for word expressions; the widths of the atoms are read from
    hypotheses of the form [0 <= v < bound]. *)
Ltac bitsolve :=
  unfold bits;
  lazymatch goal with
  | |- ?a = ?b =>
      let env := Bitwise.atoms a (@nil Z) in
      let env := Bitwise.atoms b env in
      let ea := Bitwise.reify a env in
      let eb := Bitwise.reify b env in
      let ws := Bitwise.widths env in
      change (Bitwise.eval env ea = Bitwise.eval env eb);
      apply (Bitwise.bexp_eqb_sound ws env);
      [ repeat (apply Forall2_cons; split; [lia|]); apply Forall2_nil_2
      | vm_compute; reflexivity ]
  end.

(** A single bit as a field. *)
Lemma bits_testbit z k : 0 <= k -> bits z k 1 = b2z (Z.testbit z k).
Proof.
  intros Hk. unfold bits, uw. change (2 ^ 1) with 2.
  rewrite Z.shiftr_div_pow2, <- Z.testbit_spec' by done. by destruct (Z.testbit z k).
Qed.
Lemma testbit_field x y i j : 0 <= i -> 0 <= j -> bits x i 1 = bits y j 1 ->
  Z.testbit x i = Z.testbit y j.
Proof.
  intros Hi Hj. rewrite !bits_testbit by done. by destruct (Z.testbit x i), (Z.testbit y j).
Qed.

(** Replaces the fields [bits e lo n] of the goal that do not depend on an
    atom by their values. *)
Ltac field_value e :=
  let env := Bitwise.atoms e (@nil Z) in
  let r := Bitwise.reify e env in
  let ws := Bitwise.widths env in
  let z := eval vm_compute in (Bitwise.const_value ws r) in
  lazymatch z with Some ?z => z end.

Ltac fold_field :=
  match goal with
  | |- context [bits ?e ?lo ?n] =>
      let u := eval cbv beta delta [bits] in (bits e lo n) in
      let z := field_value u in
      replace (bits e lo n) with z by (symmetry; bitsolve)
  end.

(** The same for the field of [n] bits from [lo] on, where the decoder looks
    at it. *)
Ltac field lo n :=
  match goal with
  | |- context [bits ?e lo n] =>
      let u := eval cbv beta delta [bits] in (bits e lo n) in
      let z := field_value u in
      replace (bits e lo n) with z by (symmetry; bitsolve)
  end; cbv beta iota zeta delta [Z.eqb Pos.eqb].

Example bitsolve_example rd imm : 0 <= rd < 32 ->
  bits (0x13 .| (rd << 7) .| (imm .& 0xFFF) << 20) 7 5 = rd.
Proof. intros. bitsolve. Qed.

(** ** Little-endian bytes *)

Fixpoint le_bytes (n : nat) (z : Z) : list Z :=
  match n with
  | O => []
  | S n => u8 z :: le_bytes n (z >> 8)
  end.

Fixpoint le_word (bs : list Z) : Z :=
  match bs with
  | [] => 0
  | b :: bs => b .| (le_word bs << 8)
  end.

Definition is_byte (b : Z) : Prop := 0 <= b < 2 ^ 8.

Lemma length_le_bytes n z : length (le_bytes n z) = n.
Proof. revert z. induction n; intros; simpl; auto. Qed.

Lemma is_byte_u8 z : is_byte (u8 z).
Proof. by apply uw_range. Qed.
Lemma is_byte_land z : is_byte (z .& 0xff).
Proof. unfold is_byte. change 0xff with (Z.ones 8). rewrite Z.land_ones by done. by apply Z.mod_pos_bound. Qed.
Lemma le_bytes_is_byte n z : Forall is_byte (le_bytes n z).
Proof. revert z. induction n; intros; simpl; constructor; auto. apply uw_range; lia. Qed.
Ltac bytes_tac :=
  lazymatch goal with
  | |- Forall is_byte (le_bytes _ _) => apply le_bytes_is_byte
  | |- _ => repeat first [apply List.Forall_nil | apply List.Forall_cons];
            first [apply is_byte_u8 | apply is_byte_land]
  end.

Lemma le_word_le_bytes n z : le_word (le_bytes n z) = uw (8 * Z.of_nat n) z.
Proof.
  revert z. induction n as [|n IH]; intros z; simpl le_bytes; simpl le_word.
  - unfold uw. rewrite Z.mod_1_r. done.
  - rewrite IH. apply Z.bits_inj'. intros k Hk. unfold uw.
    rewrite Z.lor_spec, Z.shiftl_spec by lia.
    destruct (decide (k < 8)).
    + rewrite !Z.mod_pow2_bits_low by lia.
      rewrite (Z.testbit_neg_r _ (k - 8)) by lia. by rewrite orb_false_r.
    + rewrite (Z.mod_pow2_bits_high z 8) by lia. simpl.
      destruct (decide (k < 8 * Z.of_nat (S n))).
      * rewrite !Z.mod_pow2_bits_low, Z.shiftr_spec by lia. f_equal; lia.
      * rewrite !Z.mod_pow2_bits_high by lia. done.
Qed.

(** ** Outcomes: code that may fail an assertion or raise an exception *)

Inductive fault :=
| Assertion (what : string)
| Exception (what : string)
| OutOfBounds.

Inductive outcome (A : Type) :=
| Ok (a : A)
| Fault (f : fault).
Arguments Ok {A} a.
Arguments Fault {A} f.

(** State-passing code over a state [S]. *)
Definition M (S A : Type) : Type := S -> outcome (A * S).

#[export] Instance M_ret {S} : MRet (M S) := fun A a s => Ok (a, s).
#[export] Instance M_bind {S} : MBind (M S) := fun A B k m s =>
  match m s with
  | Ok (a, s') => k a s'
  | Fault f => Fault f
  end.

Section Commands.
Context {S : Type}.

Definition gets {A} (f : S -> A) : M S A := fun s => Ok (f s, s).
Definition modify (f : S -> S) : M S unit := fun s => Ok (tt, f s).
Definition fail_with {A} (e : fault) : M S A := fun _ => Fault e.
(** C's [assert]: a false condition stops the program. *)
Definition assert_ (c : bool) (what : string) : M S unit :=
  if c then mret tt else fail_with (Assertion what).
(** A MicroPython exception leaves the assembler through a long jump. *)
Definition raise {A} (what : string) : M S A := fail_with (Exception what).
(** Output on the console does not touch the state. *)
Definition printf (what : string) : M S unit := mret tt.

Lemma bind_Ok {A B} (m : M S A) (k : A -> M S B) s a s' :
  m s = Ok (a, s') -> (m ≫= k) s = k a s'.
Proof using. intros H. unfold mbind, M_bind. by rewrite H. Qed.
Lemma bind_Fault {A B} (m : M S A) (k : A -> M S B) s f :
  m s = Fault f -> (m ≫= k) s = Fault f.
Proof using. intros H. unfold mbind, M_bind. by rewrite H. Qed.
Lemma bind_assoc {A B C} (m : M S A) (k : A -> M S B) (l : B -> M S C) s :
  ((m ≫= k) ≫= l) s = (m ≫= (fun a => k a ≫= l)) s.
Proof using. unfold mbind, M_bind. by destruct (m s) as [[a s']|]. Qed.
Lemma bind_ret_unit (m : M S unit) s : (m;; mret tt) s = m s.
Proof using. unfold mbind, M_bind. by destruct (m s) as [[[] s']|]. Qed.
Lemma bind_ext {A B} (m : M S A) (k l : A -> M S B) s :
  (forall a t, k a t = l a t) -> (m ≫= k) s = (m ≫= l) s.
Proof using. intros E. unfold mbind, M_bind. by destruct (m s) as [[a t]|]. Qed.
Lemma ret_bind {A B} (a : A) (k : A -> M S B) s : (mret a ≫= k) s = k a s.
Proof using. done. Qed.
Lemma gets_bind {A B} (f : S -> A) (k : A -> M S B) s : (gets f ≫= k) s = k (f s) s.
Proof using. done. Qed.
Lemma modify_bind {B} (f : S -> S) (k : unit -> M S B) s : (modify f ≫= k) s = k tt (f s).
Proof using. done. Qed.
Lemma assert_true {B} (c : bool) w (k : unit -> M S B) s :
  c = true -> (assert_ c w ≫= k) s = k tt s.
Proof using. by intros ->. Qed.
Lemma bind_inv {A B} (m : M S A) (k : A -> M S B) s r :
  (m ≫= k) s = Ok r -> exists a s', m s = Ok (a, s') /\ k a s' = Ok r.
Proof using.
  unfold mbind, M_bind. destruct (m s) as [[a s']|]; [|done]. intros. by exists a, s'.
Qed.
Lemma assert_inv c w s (r : unit * S) : assert_ c w s = Ok r -> c = true /\ r = (tt, s).
Proof using. destruct c; simpl; [|done]. intros [= <-]. done. Qed.
End Commands.

(** [(a;; b;; c);; d] is [a;; b;; c;; d]. *)
Ltac seq_assoc := repeat (rewrite ?bind_assoc; apply bind_ext; intros ? ?); reflexivity.

(** Symbolic execution of a command: unfolds the monad and reduces. *)
Ltac run_cmd :=
  unfold mbind, M_bind, mret, M_ret, gets, modify, assert_, raise, printf, fail_with in *;
  cbn beta iota match zeta in *; simpl fst in *; simpl snd in *.

Lemma leb_true x y : x <= y -> (x <=? y) = true.
Proof. apply Z.leb_le. Qed.
Lemma ltb_true x y : x < y -> (x <? y) = true.
Proof. apply Z.ltb_lt. Qed.
Lemma ltb_false x y : y <= x -> (x <? y) = false.
Proof. apply Z.ltb_ge. Qed.
