(* ===== verification/AsmBase.v ===== *)
(** * AsmBase: the state every back end shares (bank/uPython-ASM/asmbase.{h,c})

    [mp_asm_base_t] with its pass state machine, label table and code region,
    every operation of asmbase.c, and what the rest of the development builds
    on: [put_bytes], the abstract effect of writing bytes through
    [mp_asm_base_get_cur_to_write_bytes], and the interface [HasBase] through
    which a back end's larger state gives access to the shared one. *)

From S2P Require Import Prelude.

Set Default Goal Selector "!".

Definition MP_ASM_PASS_COMPUTE : Z := 1.
Definition MP_ASM_PASS_EMIT : Z := 2.

(** [code_base] is the address of the executable region ([0] is [NULL]) and
    [code_mem] its bytes; a pointer into the region is an index of [code_mem]. *)
Record mp_asm_base_t := mk_asm_base {
  pass : Z;
  suppress : bool;
  code_offset : Z;
  code_size : Z;
  code_base : Z;
  code_mem : list Z;
  max_num_labels : Z;
  label_offsets : list Z;
}.

Definition set_pass (x : Z) (b : mp_asm_base_t) : mp_asm_base_t :=
  mk_asm_base x (suppress b) (code_offset b) (code_size b) (code_base b) (code_mem b)
    (max_num_labels b) (label_offsets b).
Definition set_suppress (x : bool) (b : mp_asm_base_t) : mp_asm_base_t :=
  mk_asm_base (pass b) x (code_offset b) (code_size b) (code_base b) (code_mem b)
    (max_num_labels b) (label_offsets b).
Definition set_code_offset (x : Z) (b : mp_asm_base_t) : mp_asm_base_t :=
  mk_asm_base (pass b) (suppress b) x (code_size b) (code_base b) (code_mem b)
    (max_num_labels b) (label_offsets b).
Definition set_code (addr : Z) (mem : list Z) (b : mp_asm_base_t) : mp_asm_base_t :=
  mk_asm_base (pass b) (suppress b) (code_offset b) (Z.of_nat (length mem)) addr mem
    (max_num_labels b) (label_offsets b).
Definition set_code_mem (mem : list Z) (b : mp_asm_base_t) : mp_asm_base_t :=
  mk_asm_base (pass b) (suppress b) (code_offset b) (code_size b) (code_base b) mem
    (max_num_labels b) (label_offsets b).
Definition set_labels (n : Z) (l : list Z) (b : mp_asm_base_t) : mp_asm_base_t :=
  mk_asm_base (pass b) (suppress b) (code_offset b) (code_size b) (code_base b) (code_mem b)
    n l.

(** The width of [size_t] on the machine that runs the assembler. *)
Class SizeT := { size_bits : Z; size_bits_ge : 32 <= size_bits }.

Definition SizeT_32 : SizeT := {| size_bits := 32; size_bits_ge := Z.le_refl 32 |}.
Definition SizeT_64 : SizeT :=
  {| size_bits := 64; size_bits_ge := ltac:(apply Z.leb_le; reflexivity) |}.

(** MP_PLAT_ALLOC_EXEC, supplied by the port: the address and the bytes of a
    fresh executable region for a minimum size.  The documented contract is a
    non-null region at least as large as asked. *)
Class PlatAllocExec `{SizeT} := {
  plat_alloc_exec : Z -> Z * list Z;
  plat_alloc_exec_size n : n <= Z.of_nat (length (plat_alloc_exec n).2);
  plat_alloc_exec_fits n : n < 2 ^ size_bits ->
    Z.of_nat (length (plat_alloc_exec n).2) < 2 ^ size_bits;
  plat_alloc_exec_nonnull n : (plat_alloc_exec n).1 <> 0;
  plat_alloc_exec_bytes n : Forall is_byte (plat_alloc_exec n).2;
}.

Section Operations.
Context `{PlatAllocExec}.

(** [(size_t)x], and the offset of a label that has not been assigned,
    [(size_t)-1]. *)
Definition usize (z : Z) : Z := uw size_bits z.
Definition unassigned : Z := usize (-1).

Abbreviation B := (M mp_asm_base_t).

(** [new_labels] is the uninitialised array [m_new(size_t, n)] returns. *)
Definition mp_asm_base_init (n : Z) (new_labels : list Z) : B unit :=
  modify (set_labels n new_labels).

(** What deinit hands back to the allocators. *)
Inductive dealloc :=
| PLAT_FREE_EXEC (ptr size : Z)
| M_DEL_SIZE_T (l : list Z) (n : Z).

Definition mp_asm_base_deinit (free_code : bool) : B (list dealloc) :=
  b ← gets id;
  mret ((if free_code then [PLAT_FREE_EXEC (code_base b) (code_size b)] else [])
        ++ [M_DEL_SIZE_T (label_offsets b) (max_num_labels b)]).

Definition mp_asm_base_start_pass (p : Z) : B unit :=
  (if p <? MP_ASM_PASS_EMIT then
     modify (fun b => set_labels (max_num_labels b)
                        (replicate (Z.to_nat (max_num_labels b)) unassigned) b)
   else
     modify (fun b => let '(addr, mem) := plat_alloc_exec (code_offset b) in
                      set_code addr mem b);;
     b ← gets id;
     assert_ ((code_size b =? 0) || negb (code_base b =? 0))
       "as->code_size == 0 || as->code_base != NULL");;
  modify (fun b => set_code_offset 0 (set_suppress false (set_pass (u8 p) b))).

(** The result is [None] for [NULL], or where the caller may write. *)
Definition mp_asm_base_get_cur_to_write_bytes (n : Z) : B (option Z) :=
  b ← gets id;
  if suppress b then mret None else
  c ← (if pass b =? MP_ASM_PASS_EMIT then
         assert_ (usize (code_offset b + n) <=? code_size b)
           "as->code_offset + num_bytes_to_write <= as->code_size";;
         mret (Some (code_offset b))
       else mret None);
  modify (fun b => set_code_offset (usize (code_offset b + n)) b);;
  mret c.

(** [*c = v], for [c] inside the code region. *)
Definition store_byte (c v : Z) : B unit := fun b =>
  if (0 <=? c) && (c <? Z.of_nat (length (code_mem b))) then
    Ok (tt, set_code_mem (<[Z.to_nat c := u8 v]> (code_mem b)) b)
  else Fault OutOfBounds.

(** [c[0] = v0; c[1] = v1; ...]. *)
Fixpoint store_bytes (c : Z) (vs : list Z) : B unit :=
  match vs with
  | [] => mret tt
  | v :: vs => store_byte c v;; store_bytes (c + 1) vs
  end.

Definition mp_asm_base_label_assign (label : Z) : B unit :=
  b ← gets id;
  assert_ (label <? max_num_labels b) "label < as->max_num_labels";;
  modify (set_suppress false);;
  match label_offsets b !! Z.to_nat label with
  | None => fail_with OutOfBounds
  | Some off =>
      if pass b <? MP_ASM_PASS_EMIT then
        assert_ (off =? unassigned) "as->label_offsets[label] == (size_t)-1";;
        modify (fun b => set_labels (max_num_labels b)
                           (<[Z.to_nat label := code_offset b]> (label_offsets b)) b)
      else
        assert_ (off =? code_offset b) "as->label_offsets[label] == as->code_offset"
  end.

(** [align] is an [unsigned int]. *)
Definition mp_asm_base_align (align : Z) : B unit :=
  modify (fun b => set_code_offset
    (usize (usize (code_offset b + align - 1) .& Z.lnot (u32 (align - 1)))) b).

(** The loop of mp_asm_base_data, [*c++ = val; val >>= 8]. *)
Fixpoint data_loop (n : nat) (c v : Z) : B unit :=
  match n with
  | O => mret tt
  | S n => store_byte c v;; data_loop n (c + 1) (v >> 8)
  end.

Definition mp_asm_base_data (bytesize v : Z) : B unit :=
  c ← mp_asm_base_get_cur_to_write_bytes bytesize;
  match c with
  | None => mret tt
  | Some c => data_loop (Z.to_nat bytesize) c v
  end.

Definition mp_asm_base_suppress_code : B unit := modify (set_suppress true).
Definition mp_asm_base_get_code_pos : B Z := gets code_offset.
Definition mp_asm_base_get_code_size : B Z := gets code_size.

(** The static [get_label_dest] of the back ends: the recorded offset of a
    label, [unassigned] as long as it has none. *)
Definition label_dest (label : Z) : B Z :=
  b ← gets id;
  assert_ (label <? max_num_labels b) "label < as->base.max_num_labels";;
  match label_offsets b !! Z.to_nat label with
  | Some off => mret off
  | None => fail_with OutOfBounds
  end.

(** MP_PLAT_COMMIT_EXEC is optional: a port may relocate the code. *)
Definition mp_asm_base_get_code (commit_exec : option (Z -> Z -> Z)) : B Z :=
  b ← gets id;
  mret match commit_exec with
       | Some commit => commit (code_base b) (code_size b)
       | None => code_base b
       end.
End Operations.
Arguments store_bytes : simpl never.

(** ** The abstract effect of emission *)

Section Emission.
Context `{SizeT}.

(** Well-formed states: the region holds bytes and is as large as recorded,
    the label table has as many entries as recorded, and offsets are
    [size_t] values. *)
Record base_wf (b : mp_asm_base_t) : Prop := {
  wf_code_size : code_size b = Z.of_nat (length (code_mem b));
  wf_code_size_fits : code_size b < 2 ^ size_bits;
  wf_code_mem : Forall is_byte (code_mem b);
  wf_code_offset : 0 <= code_offset b < 2 ^ size_bits;
  wf_labels : max_num_labels b = Z.of_nat (length (label_offsets b));
  wf_label_offsets : Forall (fun x => 0 <= x < 2 ^ size_bits) (label_offsets b);
}.

(** There is room for [n] more bytes: no [size_t] overflow, and during the
    emit pass the allocated region is large enough. *)
Definition can_put (n : Z) (b : mp_asm_base_t) : Prop :=
  suppress b = true \/
  (code_offset b + n < 2 ^ size_bits /\
   (pass b = MP_ASM_PASS_EMIT -> code_offset b + n <= code_size b)).

(** Writing [bs] at the current position. *)
Definition put_bytes (bs : list Z) (b : mp_asm_base_t) : mp_asm_base_t :=
  if suppress b then b
  else set_code_offset (code_offset b + Z.of_nat (length bs))
         (if pass b =? MP_ASM_PASS_EMIT
          then set_code_mem (list_inserts (Z.to_nat (code_offset b)) bs (code_mem b)) b
          else b).

(** [get_cur_to_write_bytes] followed by the stores of the caller. *)
Definition write (vs : list Z) : M mp_asm_base_t unit :=
  c ← mp_asm_base_get_cur_to_write_bytes (Z.of_nat (length vs));
  match c with
  | None => mret tt
  | Some c => store_bytes c vs
  end.

Lemma usize_small z : 0 <= z < 2 ^ size_bits -> usize z = z.
Proof using. apply uw_small. Qed.

Lemma pow2_size_ge : 2 ^ 32 <= 2 ^ size_bits.
Proof using. apply Z.pow_le_mono_r; [lia | apply size_bits_ge]. Qed.

Lemma unassigned_eq : unassigned = 2 ^ size_bits - 1.
Proof using.
  unfold unassigned, usize. pose proof pow2_size_ge. pose proof size_bits_ge.
  rewrite <- (uw_small size_bits (2 ^ size_bits - 1)) by lia.
  apply uw_eq_iff; [lia|]. exists (-1). lia.
Qed.

Lemma set_code_mem_twice m m' b : set_code_mem m (set_code_mem m' b) = set_code_mem m b.
Proof using. done. Qed.

Lemma set_code_mem_id b : set_code_mem (code_mem b) b = b.
Proof using. by destruct b. Qed.

Lemma store_bytes_ok vs : forall c b,
  0 <= c -> c + Z.of_nat (length vs) <= Z.of_nat (length (code_mem b)) ->
  Forall is_byte vs ->
  store_bytes c vs b
  = Ok (tt, set_code_mem (list_inserts (Z.to_nat c) vs (code_mem b)) b).
Proof using.
  induction vs as [|v vs IH]; intros c b Hc Hlen Hv; unfold store_bytes; fold store_bytes.
  - simpl. by rewrite set_code_mem_id.
  - simpl length in Hlen. apply Forall_cons in Hv as [Hv Hvs].
    unfold store_byte at 1.
    assert ((0 <=? c) && (c <? Z.of_nat (length (code_mem b))) = true) as Hin.
    { rewrite andb_true_iff. lia. }
    unfold mbind, M_bind. rewrite Hin. fold @mbind.
    rewrite IH; simpl; rewrite ?length_insert; [|lia|lia|done].
    rewrite uw_small by done. rewrite set_code_mem_twice.
    replace (Z.to_nat (c + 1)) with (S (Z.to_nat c)) by lia.
    do 3 f_equal. clear. revert c. intros c.
    generalize (Z.to_nat c) as i, (code_mem b) as l. intros i l.
    rewrite list_insert_inserts_lt; [done | lia].
Qed.

(** The writer's contract: with room left it succeeds and has exactly the
    effect of [put_bytes]. *)
Lemma write_ok bs b : base_wf b -> Forall is_byte bs ->
  can_put (Z.of_nat (length bs)) b -> write bs b = Ok (tt, put_bytes bs b).
Proof using.
  intros Hwf Hbs Hput. unfold write, put_bytes, mp_asm_base_get_cur_to_write_bytes.
  run_cmd. unfold id. destruct (suppress b) eqn:Hs; [done|].
  destruct Hput as [|[Hfit Hroom]]; [congruence|].
  pose proof (wf_code_offset b Hwf).
  destruct (Z.eqb_spec (pass b) MP_ASM_PASS_EMIT) as [Hp|Hp];
    rewrite !usize_small by lia; [|done].
  specialize (Hroom Hp). pose proof (wf_code_size b Hwf).
  rewrite leb_true by lia. simpl.
  rewrite store_bytes_ok; simpl; [|lia..|done]. by rewrite usize_small by lia.
Qed.
End Emission.

(** The displacement a 32-bit back end computes for an unassigned label. *)
Lemma s32_unassigned o x : 0 <= o -> - 2 ^ 31 <= -1 - o + x < 2 ^ 31 ->
  s32 (unassigned (H := SizeT_32) - o + x) = -1 - o + x.
Proof.
  intros Ho Hx. rewrite unassigned_eq. apply (sw_wrap 32 eq_refl 1); [simpl; lia|done].
Qed.

(** ** Facts about [put_bytes] *)

(** The [n] bytes at offset [off]. *)
Definition region (off : Z) (n : nat) (mem : list Z) : list Z :=
  take n (drop (Z.to_nat off) mem).

Lemma list_inserts_split {A} (i : nat) (k l : list A) :
  (i + length k <= length l)%nat ->
  list_inserts i k l = take i l ++ k ++ drop (i + length k) l.
Proof.
  intros Hlen. rewrite <- (take_drop i l) at 1.
  assert (length (take i l) = i) as Ht by (rewrite length_take; lia).
  pose proof (list_inserts_app_r k (take i l) (drop i l) 0) as E.
  rewrite Ht, Nat.add_0_r in E. rewrite E. f_equal.
  rewrite <- (take_drop (length k) (drop i l)) at 1.
  rewrite list_inserts_0_r by (rewrite length_take, length_drop; lia).
  by rewrite drop_drop.
Qed.

Lemma Forall_list_inserts {A} (P : A -> Prop) i k l :
  Forall P k -> Forall P l -> Forall P (list_inserts i k l).
Proof.
  revert i. induction k as [|x k IH]; intros i Hk Hl; simpl; [done|].
  inversion Hk; subst. apply Forall_insert; auto.
Qed.

Section PutBytes.
Context `{SizeT}.
Implicit Types (b : mp_asm_base_t) (bs : list Z).

Lemma put_bytes_wf bs b : base_wf b -> Forall is_byte bs ->
  can_put (Z.of_nat (length bs)) b -> base_wf (put_bytes bs b).
Proof using.
  intros [] Hbs Hput. unfold put_bytes. destruct (suppress b) eqn:Hs; [done|].
  destruct Hput as [|[Hfit _]]; [congruence|].
  destruct (_ =? _); constructor; simpl; rewrite ?length_inserts; try done; try lia.
  by apply Forall_list_inserts.
Qed.

Lemma put_bytes_pass bs b : pass (put_bytes bs b) = pass b.
Proof using. unfold put_bytes. destruct (suppress b); [done|]. by destruct (_ =? _). Qed.
Lemma put_bytes_suppress bs b : suppress (put_bytes bs b) = suppress b.
Proof using. unfold put_bytes. destruct (suppress b) eqn:E; [done|]. by destruct (_ =? _). Qed.
Lemma put_bytes_labels bs b : label_offsets (put_bytes bs b) = label_offsets b.
Proof using. unfold put_bytes. destruct (suppress b); [done|]. by destruct (_ =? _). Qed.
Lemma put_bytes_max bs b : max_num_labels (put_bytes bs b) = max_num_labels b.
Proof using. unfold put_bytes. destruct (suppress b); [done|]. by destruct (_ =? _). Qed.
Lemma put_bytes_size bs b : code_size (put_bytes bs b) = code_size b.
Proof using. unfold put_bytes. destruct (suppress b); [done|]. by destruct (_ =? _). Qed.
Lemma put_bytes_base bs b : code_base (put_bytes bs b) = code_base b.
Proof using. unfold put_bytes. destruct (suppress b); [done|]. by destruct (_ =? _). Qed.
Lemma put_bytes_offset bs b :
  code_offset (put_bytes bs b)
  = if suppress b then code_offset b else code_offset b + Z.of_nat (length bs).
Proof using. unfold put_bytes. by destruct (suppress b). Qed.

Lemma put_bytes_nil b : put_bytes [] b = b.
Proof using.
  unfold put_bytes. destruct (suppress b); [done|]. destruct b, (_ =? _);
    unfold set_code_offset; simpl; f_equal; lia.
Qed.

Lemma can_put_app n m b bs : 0 <= m -> Z.of_nat (length bs) = n ->
  can_put (n + m) b -> can_put n b /\ can_put m (put_bytes bs b).
Proof using.
  unfold can_put. rewrite put_bytes_suppress, put_bytes_pass, put_bytes_size, put_bytes_offset.
  intros ? Hl [Hs|[Hfit Hroom]]; [auto|]. destruct (suppress b); [auto|].
  split; right; (split; [lia|]); intros Hp; specialize (Hroom Hp); lia.
Qed.

Lemma can_put_le n m b : m <= n -> can_put n b -> can_put m b.
Proof using.
  unfold can_put. intros ? [|[? Hr]]; [auto|]. right. split; [lia|].
  intros Hp. specialize (Hr Hp). lia.
Qed.

Lemma put_bytes_app bs cs b : base_wf b ->
  put_bytes cs (put_bytes bs b) = put_bytes (bs ++ cs) b.
Proof using.
  intros Hwf. pose proof (wf_code_offset b Hwf).
  unfold put_bytes at 1 3. rewrite put_bytes_suppress, put_bytes_pass, put_bytes_offset.
  unfold put_bytes. destruct (suppress b) eqn:Hs; rewrite ?Hs; [done|].
  rewrite length_app, Nat2Z.inj_add, Z.add_assoc.
  destruct (pass b =? MP_ASM_PASS_EMIT) eqn:Hp; [|done].
  unfold set_code_offset, set_code_mem; simpl. f_equal.
  rewrite list_inserts_app_l. f_equal. lia.
Qed.

(** During the emit pass the bytes are in the region afterwards, and every
    byte outside them is as it was. *)
Lemma put_bytes_read bs b : base_wf b -> pass b = MP_ASM_PASS_EMIT ->
  suppress b = false -> can_put (Z.of_nat (length bs)) b ->
  region (code_offset b) (length bs) (code_mem (put_bytes bs b)) = bs.
Proof using.
  intros [] Hp Hs [|[Hfit Hroom]]; [congruence|]. specialize (Hroom Hp).
  unfold put_bytes, region. rewrite Hs, Hp. simpl.
  rewrite list_inserts_split by lia.
  rewrite drop_app_length' by (rewrite length_take; lia).
  by rewrite take_app_length.
Qed.

Lemma put_bytes_other bs b i : base_wf b ->
  can_put (Z.of_nat (length bs)) b ->
  (Z.of_nat i < code_offset b \/ code_offset b + Z.of_nat (length bs) <= Z.of_nat i) ->
  code_mem (put_bytes bs b) !! i = code_mem b !! i.
Proof using.
  intros [] Hput Hi. unfold put_bytes. destruct (suppress b) eqn:Hs; [done|].
  destruct Hput as [|[Hfit Hroom]]; [congruence|].
  destruct (Z.eqb_spec (pass b) MP_ASM_PASS_EMIT) as [Hp|]; [|done].
  simpl. specialize (Hroom Hp).
  rewrite list_inserts_split by lia. destruct Hi.
  - rewrite lookup_app_l by (rewrite length_take; lia). apply lookup_take_lt. lia.
  - rewrite lookup_app_r by (rewrite length_take; lia).
    rewrite lookup_app_r by (rewrite length_take; lia).
    rewrite lookup_drop, length_take. f_equal. lia.
Qed.
End PutBytes.

(** ** The interface between the shared state and a back end's state *)

Class HasBase (S : Type) := {
  base_of : S -> mp_asm_base_t;
  with_base : mp_asm_base_t -> S -> S;
  base_of_with b s : base_of (with_base b s) = b;
  with_base_of s : with_base (base_of s) s = s;
  with_base_with b b' s : with_base b (with_base b' s) = with_base b s;
}.
Create Rewrite HintDb has_base.
#[export] Hint Rewrite @base_of_with @with_base_of @with_base_with : has_base.

#[export, refine] Instance HasBase_self : HasBase mp_asm_base_t :=
  {| base_of b := b; with_base b _ := b |}.
Proof. all: done. Defined.

Section HasBase.
Context `{SizeT} {S : Type} `{!HasBase S}.
Implicit Types (s : S) (m : M S unit) (bs : list Z).

(** A call [mp_asm_base_f(&as->base, ...)]. *)
Definition on_base {A} (m : M mp_asm_base_t A) : M S A := fun s =>
  match m (base_of s) with
  | Ok (a, b) => Ok (a, with_base b s)
  | Fault f => Fault f
  end.

(** [byte *c = get(as, n); if (c != NULL) { c[0] = v0; c[1] = v1; ... }],
    [get] being the back end's way to [mp_asm_base_get_cur_to_write_bytes]. *)
Definition put_array (get : Z -> M S (option Z)) (vs : list Z) : M S unit :=
  c ← get (Z.of_nat (length vs));
  match c with
  | None => mret tt
  | Some c => on_base (store_bytes c vs)
  end.
Definition cur_to_write_bytes (n : Z) : M S (option Z) :=
  on_base (mp_asm_base_get_cur_to_write_bytes n).

Lemma put_array_write vs s : put_array cur_to_write_bytes vs s = on_base (write vs) s.
Proof using.
  unfold put_array, cur_to_write_bytes, on_base, write, mbind, M_bind.
  destruct (mp_asm_base_get_cur_to_write_bytes _ (base_of s)) as [[[c|] b]|]; [|done|done].
  rewrite base_of_with. destruct (store_bytes c vs b) as [[[] b']|]; [|done].
  by rewrite with_base_with.
Qed.

Definition puts bs s : S := with_base (put_bytes bs (base_of s)) s.
Definition ready (n : Z) s : Prop := base_wf (base_of s) /\ can_put n (base_of s).

(** From [s], [m] writes exactly [bs] at the current position and ends in [s']
    but for what is written; it does so if there is room and only then. *)
Definition emits_to s s' m bs : Prop :=
  Forall is_byte bs
  /\ (ready (Z.of_nat (length bs)) s -> m s = Ok (tt, puts bs s'))
  /\ (ready 0 s -> pass (base_of s) = MP_ASM_PASS_EMIT ->
      forall r, m s = Ok r -> can_put (Z.of_nat (length bs)) (base_of s)).
Definition emits s m bs : Prop := emits_to s s m bs.

Lemma base_of_puts bs s : base_of (puts bs s) = put_bytes bs (base_of s).
Proof using. apply base_of_with. Qed.

Lemma puts_app bs cs s : base_wf (base_of s) -> puts cs (puts bs s) = puts (bs ++ cs) s.
Proof using.
  intros. unfold puts. rewrite base_of_with, with_base_with. by rewrite put_bytes_app.
Qed.
Lemma puts_nil s : puts [] s = s.
Proof using. unfold puts. by rewrite put_bytes_nil, with_base_of. Qed.

Lemma ready_app bs n s : Forall is_byte bs -> 0 <= n ->
  ready (Z.of_nat (length bs) + n) s ->
  ready (Z.of_nat (length bs)) s /\ ready n (puts bs s).
Proof using.
  intros Hbs Hn [Hwf Hput]. unfold ready. rewrite base_of_puts.
  destruct (can_put_app _ n (base_of s) bs Hn eq_refl Hput). auto using put_bytes_wf.
Qed.

Lemma ready_nil n s : 0 <= n -> ready n s -> ready 0 s.
Proof using. intros ? []. split; [done|]. by eapply can_put_le. Qed.

Lemma store_bytes_inv vs : forall c b r, store_bytes c vs b = Ok r ->
  vs = [] \/ 0 <= c /\ c + Z.of_nat (length vs) <= Z.of_nat (length (code_mem b)).
Proof using.
  induction vs as [|v vs IH]; intros c b r E; [by left|right].
  unfold store_bytes in E. fold store_bytes in E. apply bind_inv in E as ([] & b1 & E1 & E2).
  unfold store_byte in E1. destruct ((0 <=? c) && _) eqn:Hc; [|done].
  apply andb_prop in Hc as [H0 H1]. injection E1 as <-.
  apply IH in E2 as [-> | [_ E2]]; simpl in *; rewrite ?length_insert in *; lia.
Qed.

Lemma write_room bs b r : base_wf b -> can_put 0 b -> pass b = MP_ASM_PASS_EMIT ->
  write bs b = Ok r -> can_put (Z.of_nat (length bs)) b.
Proof using.
  intros Hwf Hput Hp. unfold write, mp_asm_base_get_cur_to_write_bytes. run_cmd. unfold id.
  destruct (suppress b) eqn:Hs; [by left|]. rewrite Hp. simpl.
  destruct (_ <=? _); run_cmd; [|done]. intros [-> | [_ Hlen]]%store_bytes_inv; [done|].
  right. simpl in Hlen. pose proof (wf_code_size b Hwf). pose proof (wf_code_size_fits b Hwf). lia.
Qed.

Lemma emits_write bs s : Forall is_byte bs -> emits s (on_base (write bs)) bs.
Proof using.
  intros Hbs. split; [done|]. split.
  - intros [Hwf Hput]. unfold on_base. by rewrite write_ok.
  - intros [Hwf Hput] Hp r. unfold on_base. destruct (write bs (base_of s)) as [r'|] eqn:E; [|done].
    intros _. by eapply write_room.
Qed.

Lemma emits_ret s : emits s (mret tt) [].
Proof using. split; [done|]. split; [intros _; by rewrite puts_nil|]. by intros [_ ?]. Qed.

Lemma can_put_join (n m : Z) b bs : Z.of_nat (length bs) = n -> 0 <= m ->
  can_put n b -> can_put m (put_bytes bs b) -> can_put (n + m) b.
Proof using.
  unfold can_put. rewrite put_bytes_suppress, put_bytes_pass, put_bytes_size, put_bytes_offset.
  intros <- ? [Hs|_]; [by left|]. intros [Hs|[Hf Hr]]; [by left|].
  destruct (suppress b); [by left|]. right. split; [lia|]. intros Hp. specialize (Hr Hp). lia.
Qed.

(** A table elsewhere in the region may have been filled in. *)
Definition refilled (b b' : mp_asm_base_t) : Prop := exists mem,
  b' = set_code_mem mem b /\ length mem = length (code_mem b)
  /\ (Forall is_byte (code_mem b) -> Forall is_byte mem).
Lemma refilled_refl b : refilled b b.
Proof using. exists (code_mem b). by rewrite set_code_mem_id. Qed.
Lemma refilled_trans b b1 b2 : refilled b b1 -> refilled b1 b2 -> refilled b b2.
Proof using. intros (m1 & -> & Hl1 & Hb1) (m2 & -> & Hl2 & Hb2). exists m2. simpl in *. by split_and!; [|rewrite Hl2|auto]. Qed.
Lemma refilled_wf b b' : refilled b b' -> base_wf b -> base_wf b'.
Proof using. intros (mem & -> & Hl & Hb) []. constructor; simpl; try done; [by rewrite Hl|auto]. Qed.
Lemma refilled_can_put n b b' : refilled b b' -> can_put n b' <-> can_put n b.
Proof using. by intros (mem & -> & _). Qed.
Lemma refilled_ready n s s1 : refilled (base_of s) (base_of s1) -> ready n s -> ready n s1.
Proof using. intros Hf [Hwf Hput]. split; [by eapply refilled_wf|by eapply refilled_can_put]. Qed.

Lemma emits_seq_refilled s s1 s2 m k bs cs : refilled (base_of s) (base_of s1) ->
  emits_to s s1 m bs -> emits_to (puts bs s1) (puts bs s2) k cs -> refilled (base_of s1) (base_of s2) ->
  emits_to s s2 (m;; k) (bs ++ cs).
Proof using.
  intros Hf (Hbs & Hm & Hrm) (Hcs & Hk & Hrk) Hf2. split; [by apply Forall_app|].
  rewrite length_app, Nat2Z.inj_add. split.
  - intros Hr. pose proof (refilled_ready _ _ _ Hf Hr) as Hr'.
    apply ready_app in Hr as [Hr1 _]; [|done|lia]. apply ready_app in Hr' as [_ Hr2]; [|done|lia].
    rewrite (bind_Ok _ _ _ _ _ (Hm Hr1)), (Hk Hr2), puts_app; [done|].
    by eapply refilled_wf, refilled_wf; [exact Hf2|exact Hf|apply Hr1].
  - intros Hr0 Hp r ([] & s' & E1 & E2)%bind_inv.
    pose proof (Hrm Hr0 Hp _ E1) as Hput.
    assert (ready (Z.of_nat (length bs)) s) as Hr by (split; [apply Hr0|done]).
    rewrite (Hm Hr) in E1. injection E1 as <-. apply (refilled_can_put _ _ _ Hf).
    apply (can_put_join _ _ _ bs); [done|lia|by apply (refilled_can_put _ _ _ Hf)|].
    rewrite <- base_of_puts. eapply Hrk; [| |exact E2].
    + apply (refilled_ready _ _ _ Hf) in Hr. rewrite <- (Z.add_0_r (Z.of_nat _)) in Hr.
      by apply ready_app in Hr as [_ Hr]; [|done|lia].
    + rewrite base_of_puts, put_bytes_pass. by destruct Hf as (mem & -> & _).
Qed.
Lemma emits_seq_to s s1 s2 m k bs cs : base_of s1 = base_of s ->
  emits_to s s1 m bs -> emits_to (puts bs s1) (puts bs s2) k cs -> base_of s2 = base_of s1 ->
  emits_to s s2 (m;; k) (bs ++ cs).
Proof using.
  intros Hb Hm Hk Hb2. by apply (emits_seq_refilled s s1); [rewrite Hb; apply refilled_refl| | |rewrite Hb2; apply refilled_refl].
Qed.

Lemma emits_seq s m k bs cs :
  emits s m bs -> emits (puts bs s) k cs -> emits s (m;; k) (bs ++ cs).
Proof using. intros. by eapply emits_seq_to. Qed.

(** Operations that agree with another from a state with the same base. *)
Lemma emits_to_ext s t s' m k bs : base_of t = base_of s -> m s = k t ->
  emits_to t s' k bs -> emits_to s s' m bs.
Proof using.
  intros Hb E (? & Hk & Hr). split; [done|]. unfold ready in *. rewrite Hb, <- E in *. done.
Qed.
Lemma emits_ext s m k bs : (forall t, m t = k t) -> emits s k bs -> emits s m bs.
Proof using. intros E. by apply emits_to_ext. Qed.

(** Updates of the fields of the back end after the emission. *)
Lemma emits_to_post s s1 s' m post bs : (forall bs, post (puts bs s1) = Ok (tt, puts bs s')) ->
  emits_to s s1 m bs -> emits_to s s' (m;; post) bs.
Proof using.
  intros Hp (? & Hm & Hr). split; [done|]. split.
  - intros Hrd. by rewrite (bind_Ok _ _ _ _ _ (Hm Hrd)).
  - intros Hr0 Hfit r ([] & s2 & E & _)%bind_inv. by eapply Hr.
Qed.

(** Reading the state changes nothing. *)
Lemma emits_gets {A} (f : S -> A) s (k : A -> M S unit) bs :
  emits s (k (f s)) bs -> emits s (a ← gets f; k a) bs.
Proof using. done. Qed.

Lemma emits_assert (c : bool) w s (k : M S unit) bs :
  c = true -> emits s k bs -> emits s (assert_ c w;; k) bs.
Proof using. by intros ->. Qed.

Lemma emits_if (c : bool) s m m' bs bs' :
  (c = true -> emits s m bs) -> (c = false -> emits s m' bs') ->
  emits s (if c then m else m') (if c then bs else bs').
Proof using. destruct c; auto. Qed.
End HasBase.
#[export] Hint Resolve refilled_refl : core.

(** ** The operations of asmbase.c, in terms of the abstract effect *)

Section BaseOperations.
Context `{PlatAllocExec}.

Lemma data_loop_le n : forall c v b,
  data_loop n c v b = store_bytes c (le_bytes n v) b.
Proof using.
  induction n as [|n IH]; intros c v b; simpl data_loop; simpl le_bytes;
    unfold store_bytes; fold store_bytes; [done|].
  unfold store_byte at 1 2, mbind, M_bind. rewrite uw_uw by lia.
  destruct (_ && _); [apply IH | done].
Qed.

Lemma mp_asm_base_data_write n v b : 0 <= n ->
  mp_asm_base_data n v b = write (le_bytes (Z.to_nat n) v) b.
Proof using.
  intros. unfold mp_asm_base_data, write. rewrite length_le_bytes, Z2Nat.id by done.
  unfold mbind, M_bind. destruct (mp_asm_base_get_cur_to_write_bytes n b) as [[[c|] b']|];
    [apply data_loop_le | done..].
Qed.

(** [align] a power of two: clearing the low bits of [x + align - 1] gives
    the least multiple of [align] that is not below [x]. *)
Lemma align_up_least x k : 0 <= x -> 0 <= k ->
  let y := (x + 2 ^ k - 1) .& Z.lnot (2 ^ k - 1) in
  (2 ^ k | y) /\ x <= y < x + 2 ^ k.
Proof using.
  intros Hx Hk y. pose proof (Z.pow_pos_nonneg 2 k ltac:(lia) Hk).
  assert (y = (x + 2 ^ k - 1) / 2 ^ k * 2 ^ k) as ->.
  { unfold y. rewrite (Z.sub_1_r (2 ^ k)).
    rewrite <- (Z.ones_equiv k), <- Z.ldiff_land, Z.ldiff_ones_r by done.
    by rewrite Z.shiftl_mul_pow2, Z.shiftr_div_pow2 by done. }
  split; [apply Z.divide_factor_r|].
  pose proof (Z.div_mod (x + 2 ^ k - 1) (2 ^ k)).
  pose proof (Z.mod_pos_bound (x + 2 ^ k - 1) (2 ^ k)). lia.
Qed.

Definition align_up (k x : Z) : Z := (x + 2 ^ k - 1) .& Z.lnot (2 ^ k - 1).

Lemma mp_asm_base_align_up k b : base_wf b -> 0 <= k < 32 ->
  code_offset b + 2 ^ k - 1 < 2 ^ size_bits ->
  mp_asm_base_align (2 ^ k) b = Ok (tt, set_code_offset (align_up k (code_offset b)) b).
Proof using.
  intros Hwf Hk Hfit. pose proof (wf_code_offset b Hwf). pose proof (Z.pow_pos_nonneg 2 k ltac:(lia) ltac:(lia)).
  unfold mp_asm_base_align. run_cmd. do 3 f_equal.
  assert (2 ^ k < 2 ^ 32) by (apply Z.pow_lt_mono_r; lia).
  rewrite (uw_small 32) by lia. rewrite (usize_small (_ - 1)) by lia.
  apply usize_small.
  destruct (align_up_least (code_offset b) k) as [_ Hr]; [lia..|].
  fold (align_up k (code_offset b)) in Hr. lia.
Qed.

(** Assigning label [l] at offset [x]. *)
Definition assign (l : nat) (x : Z) (b : mp_asm_base_t) : mp_asm_base_t :=
  set_labels (max_num_labels b) (<[l := x]> (label_offsets b)) b.

Lemma label_assign_compute l b : base_wf b -> pass b < MP_ASM_PASS_EMIT ->
  label_offsets b !! l = Some unassigned ->
  mp_asm_base_label_assign (Z.of_nat l) b
  = Ok (tt, assign l (code_offset b) (set_suppress false b)).
Proof using.
  intros Hwf Hp Hl. unfold mp_asm_base_label_assign. run_cmd.
  unfold id. rewrite (wf_labels b Hwf).
  apply lookup_lt_Some in Hl as Hlt. rewrite ltb_true by lia.
  rewrite Nat2Z.id, Hl. simpl. rewrite ltb_true by done. by rewrite Z.eqb_refl.
Qed.

Lemma label_assign_emit l b : base_wf b -> pass b = MP_ASM_PASS_EMIT ->
  label_offsets b !! l = Some (code_offset b) ->
  mp_asm_base_label_assign (Z.of_nat l) b = Ok (tt, set_suppress false b).
Proof using.
  intros Hwf Hp Hl. unfold mp_asm_base_label_assign. run_cmd.
  unfold id. rewrite (wf_labels b Hwf).
  apply lookup_lt_Some in Hl as Hlt. rewrite ltb_true by lia.
  rewrite Nat2Z.id, Hl. simpl. rewrite ltb_false by lia. by rewrite Z.eqb_refl.
Qed.

(** A label assignment that succeeds did one of the two. *)
Lemma label_assign_inv l b b' : mp_asm_base_label_assign l b = Ok (tt, b') ->
  exists off, label_offsets b !! Z.to_nat l = Some off /\ l < max_num_labels b /\
  (pass b < MP_ASM_PASS_EMIT /\ off = unassigned /\
     b' = assign (Z.to_nat l) (code_offset b) (set_suppress false b) \/
   MP_ASM_PASS_EMIT <= pass b /\ off = code_offset b /\ b' = set_suppress false b).
Proof using.
  unfold mp_asm_base_label_assign. intros E. run_cmd. unfold id in E.
  destruct (Z.ltb_spec l (max_num_labels b)); [|done].
  destruct (_ !! _) as [off|] eqn:Hl; [|done]. exists off. simpl in E.
  destruct (Z.ltb_spec (pass b) MP_ASM_PASS_EMIT).
  - destruct (Z.eqb_spec off unassigned); run_cmd; [|done]. injection E as <-. auto 6.
  - destruct (Z.eqb_spec off (code_offset b)); run_cmd; [|done]. injection E as <-. auto 7.
Qed.

(** The state in which a pass starts. *)
Definition pass_start (p : Z) (b : mp_asm_base_t) : mp_asm_base_t :=
  set_code_offset 0 (set_suppress false (set_pass p
    (if p <? MP_ASM_PASS_EMIT
     then set_labels (max_num_labels b)
            (replicate (Z.to_nat (max_num_labels b)) unassigned) b
     else set_code (plat_alloc_exec (code_offset b)).1
            (plat_alloc_exec (code_offset b)).2 b))).

Lemma start_pass_ok p b : 0 <= p <= MP_ASM_PASS_EMIT ->
  mp_asm_base_start_pass p b = Ok (tt, pass_start p b).
Proof using.
  intros Hp. unfold mp_asm_base_start_pass, pass_start. run_cmd.
  unfold MP_ASM_PASS_EMIT in *. rewrite (uw_small 8) by (simpl; lia).
  destruct (Z.ltb_spec p 2); [done|].
  pose proof (plat_alloc_exec_nonnull (code_offset b)).
  destruct (plat_alloc_exec (code_offset b)) as [addr mem]. unfold id. simpl in *.
  destruct (Z.eqb_spec addr 0); [done|]. by rewrite orb_true_r.
Qed.

Lemma pass_start_wf p b : base_wf b -> base_wf (pass_start p b).
Proof using.
  intros [Hs Hf Hm Ho Hl Hlo]. unfold pass_start. pose proof pow2_size_ge.
  pose proof unassigned_eq.
  destruct (p <? MP_ASM_PASS_EMIT); constructor; simpl; try done; try lia.
  - rewrite length_replicate. lia.
  - apply Forall_replicate. lia.
  - apply plat_alloc_exec_fits, Ho.
  - apply plat_alloc_exec_bytes.
Qed.
End BaseOperations.
