(* ===== verification/TwoPass.v ===== *)
(** * TwoPass: the compute pass and the emit pass agree

    The code generator runs twice: once to measure the code and record the
    labels' offsets, once to write it.  [steady n m] says that operation [m]
    may be used in both passes: it writes at most [n] bytes, and from states
    in step it succeeds in the emit pass if it did in the compute pass, with
    the same layout.  The rules below establish it along the structure of an
    operation; [two_pass] says what it gives for a whole program. *)

From S2P Require Import Prelude AsmBase.

Set Default Goal Selector "!".

(** What a back end keeps in the region besides its code: a table that its
    entry reserves and that operations fill in behind the current position.
    [count] entries are in use, of [capacity]; [in_table] are the table's
    bytes.  [emit_ok] is what the emit pass relies on, of the region and of
    the back end's fields. *)
Class PassTable (S : Type) `{!HasBase S} := {
  count : S -> Z;
  capacity : S -> Z;
  in_table : S -> nat -> Prop;
  emit_ok : S -> Prop;
  count_base b s : count (with_base b s) = count s;
  capacity_base b s : capacity (with_base b s) = capacity s;
  in_table_base b s i : in_table (with_base b s) i <-> in_table s i;
  emit_ok_base b s : code_size b = code_size (base_of s) -> code_base b = code_base (base_of s) ->
    emit_ok s -> emit_ok (with_base b s);
}.

(** Most back ends have no table. *)
#[export, refine] Instance no_table (S : Type) `{!HasBase S} : PassTable S | 100 :=
  {| count _ := 0; capacity _ := 0; in_table _ _ := False; emit_ok _ := True |}.
Proof. all: done. Defined.

(** An update of the back end's fields that does not concern its table. *)
Record off_table {S : Type} `{!HasBase S} `{!PassTable S} (f : S -> S) : Prop := {
  off_table_base s b : f (with_base b s) = with_base b (f s);
  off_table_count s : count (f s) = count s;
  off_table_capacity s : capacity (f s) = capacity s;
  off_table_in s i : in_table (f s) i -> in_table s i;
  off_table_ok s : emit_ok s -> emit_ok (f s);
}.

Lemma off_table_none {S : Type} `{!HasBase S} (f : S -> S) :
  (forall s b, f (with_base b s) = with_base b (f s)) -> off_table f.
Proof. by constructor. Qed.
Ltac off_table_tac := first [by apply off_table_none | by constructor].

Section Passes.
Context `{SizeT} {S : Type} `{!HasBase S} `{!PassTable S}.
(** The largest code the passes are to agree on. *)
Context (L : Z) (HL : 0 < L < 2 ^ size_bits - 1).
(** The fields of the back end, other than the shared ones, on which the two
    passes agree. *)
Context (agree : S -> S -> Prop).
Context (agree_base : forall b b' s s', agree s s' -> agree (with_base b s) (with_base b' s')).
Implicit Types (s sc se : S) (T : list Z) (n : Z).

Abbreviation offset s := (code_offset (base_of s)).
Abbreviation labels s := (label_offsets (base_of s)).

(** What the compute pass does to the shared state: the offset advances by at
    most [n], and labels are assigned at the offsets passed. *)
Record progress n s s' : Prop := {
  progress_wf : base_wf (base_of s');
  progress_pass : pass (base_of s') = pass (base_of s);
  progress_max : max_num_labels (base_of s') = max_num_labels (base_of s);
  progress_offset : offset s <= offset s' <= offset s + n;
  progress_count : count s <= count s' <= count s + n;
  progress_labels : forall l x, labels s !! l = Some x ->
    exists x', labels s' !! l = Some x' /\
      (x = x' \/ x = unassigned /\ offset s <= x' <= offset s');
}.

Lemma progress_trans n1 n2 s s1 s2 : progress n1 s s1 -> progress n2 s1 s2 -> progress (n1 + n2) s s2.
Proof.
  intros [] []. constructor; [done|congruence|congruence|lia|lia|].
  intros l x Hl. destruct (progress_labels0 l x Hl) as (x1 & Hl1 & Hx1).
  destruct (progress_labels1 l x1 Hl1) as (x2 & Hl2 & Hx2). exists x2. split; [done|].
  destruct Hx1 as [-> | [-> Hx1]], Hx2 as [-> | [-> Hx2]]; [by left|right; split; [done|lia]..].
Qed.

Lemma progress_refl s : base_wf (base_of s) -> progress 0 s s.
Proof. intros. constructor; [done..|lia|lia|]. intros l x ?. exists x. auto. Qed.

Lemma progress_le n n' s s' : n <= n' -> progress n s s' -> progress n' s s'.
Proof. intros ? []. constructor; try done; lia. Qed.

(** [m] only makes progress, in the compute pass. *)
Definition grows {A} n (m : M S A) : Prop := forall s a s',
  base_wf (base_of s) -> pass (base_of s) = MP_ASM_PASS_COMPUTE ->
  offset s + n <= L -> count s + n <= L -> m s = Ok (a, s') -> progress n s s'.

(** [T], the label table of the emit pass, has the labels assigned so far,
    and the others at the offsets still to come. *)
Definition future T s : Prop := forall l x, labels s !! l = Some x ->
  exists y, T !! l = Some y /\ (x = y \/ x = unassigned /\ offset s <= y <= L).

Lemma future_back T n s s' : progress n s s' -> offset s' <= L -> future T s' -> future T s.
Proof.
  intros [] HL' Hf l x Hl. destruct (progress_labels0 l x Hl) as (x' & Hl' & Hx).
  destruct (Hf l x' Hl') as (y & Hy & Hxy). exists y. split; [done|].
  destruct Hx as [-> | [-> Hx]], Hxy as [-> | [-> Hxy]]; [by left|right; split; [done|lia]..].
Qed.

(** The states of the two passes are in step.  [E] relates the back ends' own
    fields. *)
Record sync (E : S -> S -> Prop) T sc se : Prop := {
  sync_wf_compute : base_wf (base_of sc);
  sync_wf_emit : base_wf (base_of se);
  sync_compute : pass (base_of sc) = MP_ASM_PASS_COMPUTE;
  sync_emit : pass (base_of se) = MP_ASM_PASS_EMIT;
  sync_offset : offset se = offset sc;
  sync_suppress : suppress (base_of se) = suppress (base_of sc);
  sync_max : max_num_labels (base_of se) = max_num_labels (base_of sc);
  sync_labels : labels se = T;
  sync_future : future T sc;
  sync_assigned : forall l x, labels sc !! l = Some x -> x = unassigned \/ 0 <= x <= offset sc;
  sync_count : count sc <= L;
  sync_ok : emit_ok se;
  sync_fields : E sc se;
}.

(** In the emit pass, the code below the offset stays. *)
Record kept s s' : Prop := {
  kept_size : code_size (base_of s') = code_size (base_of s);
  kept_base : code_base (base_of s') = code_base (base_of s);
  kept_capacity : capacity s' = capacity s;
  kept_table : forall i, Z.of_nat i < offset s -> in_table s' i -> in_table s i;
  kept_mem : forall i, Z.of_nat i < offset s -> ~ in_table s i ->
    code_mem (base_of s') !! i = code_mem (base_of s) !! i;
}.

(** [m] in the compute pass and [m'] in the emit pass. *)
Definition twin {A B} (E E' : S -> S -> Prop) n (R : A -> B -> Prop) (m : M S A) (m' : M S B) : Prop :=
  forall T sc se a sc', sync E T sc se -> offset sc + n <= L -> count sc + n <= L ->
  m sc = Ok (a, sc') -> future T sc' -> offset sc' <= code_size (base_of se) ->
  count sc' <= capacity se ->
  exists b se', m' se = Ok (b, se') /\ R a b /\ sync E' T sc' se' /\ kept se se'.

Definition steady {A} n (m : M S A) : Prop := grows n m /\ twin agree agree n eq m m.

(** Updates of the shared state that leave the region. *)
Lemma kept_with b s : code_size b = code_size (base_of s) -> code_base b = code_base (base_of s) ->
  code_mem b = code_mem (base_of s) -> kept s (with_base b s).
Proof.
  intros. constructor; rewrite ?base_of_with; try done; [apply capacity_base|intros i _; apply in_table_base|congruence].
Qed.
Lemma kept_refl s : kept s s.
Proof. by constructor. Qed.
Lemma kept_trans s s1 s2 : offset s <= offset s1 -> kept s s1 -> kept s1 s2 -> kept s s2.
Proof.
  intros Hle [] []. constructor; [congruence..| |].
  - intros i Hi Ht. apply kept_table0, kept_table1; [done|lia|done].
  - intros i Hi Ht. rewrite kept_mem1 by (lia || by auto). by apply kept_mem0.
Qed.

(** ** Rules *)

Lemma grows_bind {A B} n1 n2 (m : M S A) (k : A -> M S B) : 0 <= n2 ->
  grows n1 m -> (forall a, grows n2 (k a)) -> grows (n1 + n2) (m ≫= k).
Proof.
  intros Hn Hm Hk s b s' Hwf Hp Hoff Hcnt (a & s1 & E1 & E2)%bind_inv.
  pose proof (Hm _ _ _ Hwf Hp ltac:(lia) ltac:(lia) E1) as P1. destruct P1.
  eapply progress_trans; [by constructor|]. eapply Hk; [done|congruence|lia|lia|done].
Qed.

Lemma grows_le {A} n n' (m : M S A) : n <= n' -> grows n m -> grows n' m.
Proof.
  intros Hn Hm s a s' Hwf Hp Hoff Hcnt E. eapply progress_le; [done|].
  eapply Hm; [done|done|lia|lia|done].
Qed.

Lemma twin_bind {A A' B B'} E1 E2 E3 n1 n2 (R : A -> A' -> Prop) (R' : B -> B' -> Prop) m m' k k' :
  0 <= n1 -> 0 <= n2 -> grows n1 m -> (forall a, grows n2 (k a)) ->
  twin E1 E2 n1 R m m' -> (forall a a', R a a' -> twin E2 E3 n2 R' (k a) (k' a')) ->
  twin E1 E3 (n1 + n2) R' (m ≫= k) (m' ≫= k').
Proof.
  intros Hn1 Hn2 Gm Gk Hm Hk T sc se b sc' Hs Hoff Hcnt (a & s1 & E & E')%bind_inv Hf Hsz Hcap.
  pose proof (Gm _ _ _ (sync_wf_compute _ _ _ _ Hs) (sync_compute _ _ _ _ Hs) ltac:(lia) ltac:(lia) E) as P1.
  pose proof (progress_offset _ _ _ P1) as Ho1. pose proof (progress_pass _ _ _ P1) as Hp1.
  pose proof (progress_count _ _ _ P1) as Hc1.
  pose proof (Gk a s1 _ _ (progress_wf _ _ _ P1) ltac:(rewrite Hp1; apply Hs) ltac:(lia) ltac:(lia) E') as P2.
  pose proof (progress_offset _ _ _ P2) as Ho2. pose proof (progress_count _ _ _ P2) as Hc2.
  destruct (Hm _ _ _ _ _ Hs ltac:(lia) ltac:(lia) E) as (a' & se1 & Em & HR & Hs1 & K1);
    [eapply future_back; [exact P2|lia|done]|lia|lia|].
  destruct (Hk a a' HR _ _ _ _ _ Hs1 ltac:(lia) ltac:(lia) E' Hf) as (b' & se2 & Ek & HR' & Hs2 & K2).
  { rewrite (kept_size _ _ K1). lia. }
  { rewrite (kept_capacity _ _ K1). lia. }
  exists b', se2. split; [by rewrite (bind_Ok _ _ _ _ _ Em)|]. split; [done|]. split; [done|].
  eapply kept_trans; [|done..]. rewrite (sync_offset _ _ _ _ Hs), (sync_offset _ _ _ _ Hs1). lia.
Qed.

Lemma twin_le {A B} E E' n n' (R : A -> B -> Prop) m m' :
  n <= n' -> twin E E' n R m m' -> twin E E' n' R m m'.
Proof. intros Hn Hm T sc se a sc' ? ? ?. eapply Hm; [done|lia|lia]. Qed.

Lemma twin_weaken {A B} E E' n (R R' : A -> B -> Prop) m m' :
  (forall a b, R a b -> R' a b) -> twin E E' n R m m' -> twin E E' n R' m m'.
Proof.
  intros HR Hm T sc se a sc' H1 H2 H3 H4 H5 H6 H7. edestruct Hm as (b & se' & ? & ? & ?); eauto 8.
Qed.

(** Operations equal on every state. *)
Lemma grows_ext {A} n (m m' : M S A) : (forall s, m' s = m s) -> grows n m -> grows n m'.
Proof. intros E Hm s a s' ? ? ? ?. rewrite E. by apply Hm. Qed.
Lemma twin_ext {A B} E E' n (R : A -> B -> Prop) m1 m1' m2 m2' :
  (forall s, m1' s = m1 s) -> (forall s, m2' s = m2 s) ->
  twin E E' n R m1 m2 -> twin E E' n R m1' m2'.
Proof. intros E1 E2 Hm T sc se a sc'. rewrite E1, E2. apply Hm. Qed.

(** *** Steady operations *)

Lemma steady_ret {A} (a : A) : steady 0 (mret a).
Proof.
  split.
  - intros s b s' Hwf _ _ _ [= <- <-]. by apply progress_refl.
  - intros T sc se b sc' Hs _ _ [= <- <-] _ _ _. exists a, se. split; [done|]. split; [done|].
    split; [done|apply kept_refl].
Qed.

Lemma steady_fail {A} f : steady 0 (fail_with f : M S A).
Proof. split; [intros ????? ? ? [=] | intros ?????? ? ? [=]]. Qed.

Lemma steady_le {A} n n' (m : M S A) : n <= n' -> steady n m -> steady n' m.
Proof. intros ? []. split; [by eapply grows_le | by eapply twin_le]. Qed.

Lemma steady_ext {A} n (m m' : M S A) : (forall s, m' s = m s) -> steady n m -> steady n m'.
Proof. intros ? []. split; [by eapply grows_ext | by eapply twin_ext]. Qed.

Lemma steady_bind {A B} n1 n2 (m : M S A) (k : A -> M S B) : 0 <= n1 -> 0 <= n2 ->
  steady n1 m -> (forall a, steady n2 (k a)) -> steady (n1 + n2) (m ≫= k).
Proof.
  intros ?? [Gm Tm] Hk. split.
  - apply grows_bind; [done|done|]. intros a. apply Hk.
  - eapply twin_bind; [done|done|done|intros; apply Hk|done|]. intros a a' <-. apply Hk.
Qed.

(** The form the tactic uses: what is left of the budget goes to the rest. *)
Lemma steady_then {A B} n1 n (m : M S A) (k : A -> M S B) :
  steady n1 m -> 0 <= n1 <= n -> (forall a, steady (n - n1) (k a)) -> steady n (m ≫= k).
Proof.
  intros Hm Hn Hk. replace n with (n1 + (n - n1)) by lia. apply steady_bind; [lia|lia|done|done].
Qed.

Lemma steady_assoc {A B C} n (m : M S A) (k : A -> M S B) (k' : B -> M S C) :
  steady n (m ≫= (fun a => k a ≫= k')) -> steady n ((m ≫= k) ≫= k').
Proof. apply steady_ext. intros s. apply bind_assoc. Qed.

Lemma steady_assert c w : steady 0 (assert_ c w : M S unit).
Proof. destruct c; [apply steady_ret|apply steady_fail]. Qed.

Lemma steady_when n (c : bool) (m : M S unit) : steady n m -> 0 <= n ->
  steady n (if c then m else mret tt).
Proof. intros Hm Hn. destruct c; [done|]. eapply steady_le; [done|apply steady_ret]. Qed.
Lemma steady_unless n (c : bool) (m : M S unit) : steady n m -> 0 <= n ->
  steady n (if c then mret tt else m).
Proof. intros Hm Hn. destruct c; [|done]. eapply steady_le; [done|apply steady_ret]. Qed.

(** Reading the back end's fields. *)
Lemma steady_gets {A B} n (f : S -> A) (k : A -> M S B) :
  (forall s s', agree s s' -> k (f s') = k (f s)) -> (forall s, steady n (k (f s))) ->
  steady n (gets f ≫= k).
Proof.
  intros Hf Hk. split.
  - intros s a s' ???? E. exact (proj1 (Hk s) s a s' ltac:(done) ltac:(done) ltac:(done) ltac:(done) E).
  - intros T sc se a sc' Hs Hoff Hcnt E. rewrite gets_bind in *.
    rewrite (Hf _ _ (sync_fields _ _ _ _ Hs)). exact (proj2 (Hk sc) T sc se a sc' Hs Hoff Hcnt E).
Qed.

Lemma fields_base f : (forall s b, f (with_base b s) = with_base b (f s)) ->
  forall s, base_of (f s) = base_of s.
Proof.
  intros Hf s. rewrite <- (with_base_of s) at 1. by rewrite Hf, base_of_with.
Qed.

Lemma sync_modify E T sc se f : off_table f ->
  sync E T sc se -> forall E' : S -> S -> Prop, E' (f sc) (f se) -> sync E' T (f sc) (f se).
Proof.
  intros Hf [] E' HE. pose proof (fields_base f (off_table_base _ Hf)) as Hb. unfold future in *.
  constructor; rewrite ?Hb, ?(off_table_count _ Hf); try done.
  - unfold future. by rewrite Hb.
  - by apply (off_table_ok _ Hf).
Qed.

Lemma grows_modify f : off_table f -> grows 0 (modify f : M S unit).
Proof.
  intros Hf s a s' Hwf Hp Hoff Hcnt [= <- <-]. pose proof (fields_base f (off_table_base _ Hf)) as Hb.
  constructor; rewrite ?Hb, ?(off_table_count _ Hf); [done..|lia|lia|]. intros l x ?. exists x. auto.
Qed.

Lemma grows_gets {A B} n (f : S -> A) (k : A -> M S B) :
  (forall s, grows n (k (f s))) -> grows n (gets f ≫= k).
Proof.
  intros Hk s a s' ???? E. exact (Hk s s a s' ltac:(done) ltac:(done) ltac:(done) ltac:(done) E).
Qed.

Lemma twin_gets {A B C} E E' n (R : B -> C -> Prop) (f : S -> A) k k' :
  (forall s s', E s s' -> twin E E' n R (k (f s)) (k' (f s'))) ->
  twin E E' n R (gets f ≫= k) (gets f ≫= k').
Proof.
  intros Hk T sc se a sc' Hs Hoff Hcnt E0. rewrite gets_bind in *.
  exact (Hk _ _ (sync_fields _ _ _ _ Hs) T sc se a sc' Hs Hoff Hcnt E0).
Qed.

(** Rewriting under what the passes agree on. *)
Lemma twin_ext_fields {A B} E E' n (R : A -> B -> Prop) m1 m1' m2 m2' :
  (forall s s', E s s' -> m1' s = m1 s /\ m2' s' = m2 s') ->
  twin E E' n R m1 m2 -> twin E E' n R m1' m2'.
Proof.
  intros Heq Hm T sc se a sc' Hs. destruct (Heq _ _ (sync_fields _ _ _ _ Hs)) as [-> ->].
  by apply Hm.
Qed.

(** What the compute pass rejects needs no emit pass. *)
Lemma twin_rejected {A B} E E' n (R : A -> B -> Prop) m m' :
  (forall s s', E s s' -> exists f, m s = Fault f) -> twin E E' n R m m'.
Proof.
  intros Hm T sc se a sc' Hs _ _ E0. destruct (Hm _ _ (sync_fields _ _ _ _ Hs)) as [f Hf].
  by rewrite Hf in E0.
Qed.

(** Updating them. *)
Lemma twin_modify E E' f : off_table f ->
  (forall s s', E s s' -> E' (f s) (f s')) -> twin E E' 0 eq (modify f) (modify f).
Proof.
  intros Hf HE T sc se b sc' Hs _ _ [= <- <-] _ _ _. exists tt, (f se). split; [done|]. split; [done|].
  pose proof (fields_base f (off_table_base _ Hf)) as Hb. split.
  - eapply sync_modify; [done|exact Hs|]. apply HE, Hs.
  - constructor; rewrite ?Hb; try done; [apply Hf|]. intros i _. apply Hf.
Qed.

Lemma steady_modify f : off_table f ->
  (forall s s', agree s s' -> agree (f s) (f s')) -> steady 0 (modify f : M S unit).
Proof. intros Hf HE. split; [by apply grows_modify | by apply twin_modify]. Qed.

(** *** Writing *)

Lemma puts_progress bs s : base_wf (base_of s) -> Forall is_byte bs ->
  pass (base_of s) = MP_ASM_PASS_COMPUTE -> offset s + Z.of_nat (length bs) <= L ->
  progress (Z.of_nat (length bs)) s (puts bs s).
Proof.
  intros Hwf Hbs Hp Hoff. constructor; rewrite ?base_of_puts.
  - apply put_bytes_wf; [done..|]. right. split; [lia|]. by rewrite Hp.
  - apply put_bytes_pass.
  - apply put_bytes_max.
  - rewrite put_bytes_offset. destruct (suppress _); lia.
  - unfold puts. rewrite count_base. lia.
  - rewrite put_bytes_labels. intros l x ?. exists x. auto.
Qed.

(** As many bytes are written in both passes, not necessarily the same. *)
Lemma puts_sync T sc se bs bs' : sync agree T sc se ->
  Forall is_byte bs -> Forall is_byte bs' -> length bs' = length bs ->
  offset sc + Z.of_nat (length bs) <= L -> future T (puts bs sc) ->
  offset (puts bs sc) <= code_size (base_of se) ->
  can_put (Z.of_nat (length bs')) (base_of se)
  /\ sync agree T (puts bs sc) (puts bs' se) /\ kept se (puts bs' se).
Proof.
  intros Hs Hbs Hbs' Hlen Hoff Hf Hsz. pose proof Hs as [].
  assert (can_put (Z.of_nat (length bs')) (base_of se)) as Hput.
  { unfold can_put. rewrite sync_suppress0, sync_offset0, Hlen.
    rewrite base_of_puts, put_bytes_offset in Hsz.
    destruct (suppress (base_of sc)); [by left|right]. split; [lia|done]. }
  assert (can_put (Z.of_nat (length bs)) (base_of sc)) as Hput'.
  { right. split; [lia|]. by rewrite sync_compute0. }
  split; [done|]. split.
  - constructor; rewrite ?base_of_puts; try by apply put_bytes_wf.
    + by rewrite put_bytes_pass.
    + by rewrite put_bytes_pass.
    + rewrite !put_bytes_offset, sync_suppress0, sync_offset0, Hlen. done.
    + by rewrite !put_bytes_suppress.
    + by rewrite !put_bytes_max.
    + by rewrite put_bytes_labels.
    + done.
    + rewrite put_bytes_labels, put_bytes_offset. intros l x Hl.
      destruct (sync_assigned0 l x Hl) as [|Hx]; [by left|right]. revert Hx. simpl. destruct (suppress (base_of sc)); lia.
    + unfold puts. by rewrite count_base.
    + unfold puts. apply emit_ok_base; [apply put_bytes_size|apply put_bytes_base|done].
    + by apply agree_base.
  - constructor; rewrite ?base_of_puts.
    + apply put_bytes_size.
    + apply put_bytes_base.
    + apply capacity_base.
    + intros i _. apply in_table_base.
    + intros i Hi _. apply put_bytes_other; [done..|]. by left.
Qed.

Lemma twin_puts (m m' : M S unit) bs bs' n : (forall s, emits s m bs) -> (forall s, emits s m' bs') ->
  length bs' = length bs -> n = Z.of_nat (length bs) ->
  twin agree agree n eq m m'.
Proof.
  intros Hm Hm' Hlen -> T sc se [] sc' Hs Hoff Hcnt E Hf Hsz Hcap.
  destruct (Hm sc) as (Hbs & Hm1 & _). destruct (Hm' se) as (Hbs' & Hm2 & _). rewrite Hm1 in E.
  2: { split; [apply Hs|]. right. split; [lia|]. by rewrite (sync_compute _ _ _ _ Hs). }
  injection E as <-.
  destruct (puts_sync T sc se bs bs' Hs Hbs Hbs' Hlen Hoff Hf Hsz) as (Hput & Hs' & Hk).
  exists tt, (puts bs' se). rewrite Hm2 by (split; [apply Hs|done]). done.
Qed.

Lemma grows_puts (m : M S unit) bs n : (forall s, emits s m bs) -> n = Z.of_nat (length bs) ->
  grows n m.
Proof.
  intros Hm -> s [] s' Hwf Hp Hoff Hcnt E. destruct (Hm s) as (Hbs & Hm1 & _). rewrite Hm1 in E.
  2: { split; [done|]. right. split; [lia|]. by rewrite Hp. }
  injection E as <-. by apply puts_progress.
Qed.

Lemma steady_puts (m : M S unit) bs n : (forall s, emits s m bs) -> n = Z.of_nat (length bs) ->
  steady n m.
Proof. intros Hm ->. split; [by eapply grows_puts | by eapply twin_puts]. Qed.

(** *** Labels, alignment, dead code and data *)

Lemma on_base_ok {A} (m : M mp_asm_base_t A) s a s' : on_base m s = Ok (a, s') ->
  exists b, m (base_of s) = Ok (a, b) /\ s' = with_base b s.
Proof. unfold on_base. destruct (m (base_of s)) as [[a' b]|]; [|done]. intros [= <- <-]. eauto. Qed.

Lemma unassigned_big x : x <= L -> x <> unassigned.
Proof. rewrite unassigned_eq. lia. Qed.

Lemma assign_wf l x b : base_wf b -> 0 <= x < 2 ^ size_bits -> base_wf (assign l x b).
Proof.
  intros [] Hx. constructor; simpl; try done; [by rewrite length_insert|]. by apply Forall_insert.
Qed.

Lemma suppress_wf x b : base_wf b -> base_wf (set_suppress x b).
Proof. intros []. by constructor. Qed.

Lemma label_compute l s s' : base_wf (base_of s) -> pass (base_of s) = MP_ASM_PASS_COMPUTE ->
  on_base (mp_asm_base_label_assign l) s = Ok (tt, s') ->
  labels s !! Z.to_nat l = Some unassigned /\ l < max_num_labels (base_of s)
  /\ base_of s' = assign (Z.to_nat l) (offset s) (set_suppress false (base_of s))
  /\ s' = with_base (base_of s') s.
Proof.
  intros Hwf Hp (b & E & ->)%on_base_ok. rewrite base_of_with.
  destruct (label_assign_inv _ _ _ E) as (off & Hl & Hmax & [(_ & -> & Hb)|(Hp' & _)]).
  - done.
  - rewrite Hp in Hp'. unfold MP_ASM_PASS_COMPUTE, MP_ASM_PASS_EMIT in *. lia.
Qed.

Lemma steady_label l : steady 0 (on_base (mp_asm_base_label_assign l)).
Proof.
  split.
  - intros s [] s' Hwf Hp Hoff Hcnt E. destruct (label_compute l s s' Hwf Hp E) as (Hl & _ & Hb & Hs').
    constructor; try (rewrite Hb; simpl; try done); [|lia|rewrite Hs', count_base; lia|].
    + apply assign_wf; [by apply suppress_wf|]. apply Hwf.
    + intros l' x Hx. destruct (decide (Z.to_nat l = l')) as [<-|Hne].
      * exists (offset s). rewrite list_lookup_insert_eq by (by eapply lookup_lt_Some).
        split; [done|right]. split; [congruence|lia].
      * exists x. rewrite list_lookup_insert_ne by done. auto.
  - intros T sc se [] sc' Hs Hoff Hcnt E Hf Hsz Hcap. pose proof Hs as [].
    destruct (label_compute l sc sc' sync_wf_compute0 sync_compute0 E) as (Hl & Hmax & Hb & Hsc').
    destruct (Hf (Z.to_nat l) (offset sc)) as (y & Hy & Hxy).
    { rewrite Hb. simpl. apply list_lookup_insert_eq. by eapply lookup_lt_Some. }
    destruct Hxy as [<- | [Hx _]]; [|by apply unassigned_big in Hx; [|lia]].
    pose proof (wf_labels _ sync_wf_compute0) as Hlen. apply lookup_lt_Some in Hl.
    assert (on_base (mp_asm_base_label_assign l) se = Ok (tt, with_base (set_suppress false (base_of se)) se)) as Ee.
    { unfold on_base, mp_asm_base_label_assign. run_cmd. unfold id.
      rewrite sync_max0, ltb_true by done. rewrite sync_labels0, Hy. simpl.
      rewrite sync_emit0. simpl. by rewrite sync_offset0, Z.eqb_refl. }
    exists tt, (with_base (set_suppress false (base_of se)) se). split; [done|]. split; [done|].
    split.
    + rewrite Hsc'. constructor; rewrite ?base_of_with; rewrite ?Hb; simpl; try done.
      * apply assign_wf; [by apply suppress_wf|]. apply sync_wf_compute0.
      * by apply suppress_wf.
      * by rewrite <- Hb, <- Hsc'.
      * intros l' x. destruct (decide (Z.to_nat l = l')) as [<-|Hne].
        -- rewrite list_lookup_insert_eq by done. intros [= <-]. right.
           pose proof (wf_code_offset _ sync_wf_compute0). lia.
        -- rewrite list_lookup_insert_ne by done. apply sync_assigned0.
      * by rewrite count_base.
      * by apply emit_ok_base.
      * by apply agree_base.
    + by apply kept_with.
Qed.

(** An update of the shared state that only moves the offset or marks dead
    code, the same way in both passes. *)
Lemma steady_base n (m : M mp_asm_base_t unit) (g : mp_asm_base_t -> mp_asm_base_t) :
  (forall b, base_wf b -> code_offset b + n <= L ->
     m b = Ok (tt, g b) /\ base_wf (g b) /\ code_offset b <= code_offset (g b) <= code_offset b + n) ->
  (forall b, pass (g b) = pass b /\ max_num_labels (g b) = max_num_labels b
     /\ label_offsets (g b) = label_offsets b /\ code_size (g b) = code_size b
     /\ code_base (g b) = code_base b /\ code_mem (g b) = code_mem b) ->
  (forall b b', code_offset b = code_offset b' -> suppress b = suppress b' ->
     code_offset (g b) = code_offset (g b') /\ suppress (g b) = suppress (g b')) ->
  steady n (on_base m).
Proof.
  intros Hm Hg Hdet. split.
  - intros s [] s' Hwf Hp Hoff Hcnt E. destruct (Hm _ Hwf Hoff) as (E' & Hwf' & Ho).
    unfold on_base in E. rewrite E' in E. injection E as <-.
    destruct (Hg (base_of s)) as (? & ? & Hl & _).
    assert (0 <= n) as Hn by lia.
    constructor; rewrite ?base_of_with; try done; [rewrite count_base; lia|].
    rewrite Hl. intros l x ?. exists x. auto.
  - intros T sc se [] sc' Hs Hoff Hcnt E Hf Hsz Hcap. pose proof Hs as [].
    destruct (Hm _ sync_wf_compute0 Hoff) as (Ec & Hwfc & Hoc).
    destruct (Hm (base_of se) sync_wf_emit0 ltac:(lia)) as (Ee & Hwfe & _).
    unfold on_base in E. rewrite Ec in E. injection E as <-.
    exists tt, (with_base (g (base_of se)) se). unfold on_base. rewrite Ee.
    split; [done|]. split; [done|].
    destruct (Hg (base_of sc)) as (? & ? & ? & _).
    destruct (Hg (base_of se)) as (? & ? & ? & ? & ? & Hmem).
    destruct (Hdet (base_of se) (base_of sc) sync_offset0 sync_suppress0) as [??].
    split.
    + constructor; rewrite ?base_of_with; try done; try congruence.
      * destruct (Hg (base_of sc)) as (_ & _ & El & _). rewrite El. intros l x Hl.
        destruct (sync_assigned0 l x Hl) as [|]; [by left|right; lia].
      * by rewrite count_base.
      * by apply emit_ok_base.
      * by apply agree_base.
    + by apply kept_with.
Qed.

Lemma steady_align k : 0 <= k < 32 -> steady (2 ^ k) (on_base (mp_asm_base_align (2 ^ k))).
Proof.
  intros Hk. apply (steady_base _ _ (fun b => set_code_offset (align_up k (code_offset b)) b)).
  - intros b Hwf Hoff. pose proof (wf_code_offset b Hwf).
    destruct (align_up_least (code_offset b) k) as [_ Hr]; [lia..|].
    fold (align_up k (code_offset b)) in Hr.
    split; [apply mp_asm_base_align_up; [done|done|lia]|]. split; [|simpl; lia].
    destruct Hwf. constructor; simpl; try done. lia.
  - done.
  - intros b b' E ?. simpl. by rewrite E.
Qed.

Lemma steady_suppress : steady 0 (on_base mp_asm_base_suppress_code).
Proof.
  apply (steady_base _ _ (set_suppress true)); [|done|done].
  intros b Hwf Hoff. split; [done|]. split; [by apply suppress_wf|simpl; lia].
Qed.

Lemma steady_data n v : 0 <= n -> steady n (on_base (mp_asm_base_data n v)).
Proof.
  intros Hn. apply (steady_puts _ (le_bytes (Z.to_nat n) v)); [|rewrite length_le_bytes; lia].
  intros s. apply (emits_ext s _ (on_base (write (le_bytes (Z.to_nat n) v)))); [|apply emits_write, le_bytes_is_byte].
  intros t. unfold on_base. by rewrite mp_asm_base_data_write.
Qed.

(** *** Code that differs between the passes *)

(** [m] in the compute pass, [m'] in the emit pass: as many bytes, the same
    result. *)
Definition paired {A} n (m m' : M S A) : Prop := grows n m /\ twin agree agree n eq m m'.

Lemma steady_paired {A} n (m : M S A) : steady n m -> paired n m m.
Proof. done. Qed.

Lemma paired_then {A B} n1 n (m m' : M S A) (k k' : A -> M S B) :
  paired n1 m m' -> 0 <= n1 <= n -> (forall a, paired (n - n1) (k a) (k' a)) ->
  paired n (m ≫= k) (m' ≫= k').
Proof.
  intros [Gm Tm] Hn Hk. replace n with (n1 + (n - n1)) by lia. split.
  - apply grows_bind; [lia|done|]. intros a. apply Hk.
  - eapply twin_bind; [lia|lia|done|intros; apply Hk|done|]. intros a a' <-. apply Hk.
Qed.

Lemma paired_le {A} n n' (m m' : M S A) : n <= n' -> paired n m m' -> paired n' m m'.
Proof. intros ? []. split; [by eapply grows_le | by eapply twin_le]. Qed.

Lemma paired_gets {A B} n (f : S -> A) (k k' : A -> M S B) :
  (forall s s', agree s s' -> k' (f s') = k' (f s)) -> (forall s, paired n (k (f s)) (k' (f s))) ->
  paired n (gets f ≫= k) (gets f ≫= k').
Proof.
  intros Hf Hk. split.
  - apply grows_gets. intros s. apply Hk.
  - apply twin_gets. intros s s' Hs. rewrite (Hf _ _ Hs). apply Hk.
Qed.

Lemma paired_puts (m m' : M S unit) bs bs' n : (forall s, emits s m bs) -> (forall s, emits s m' bs') ->
  length bs' = length bs -> n = Z.of_nat (length bs) -> paired n m m'.
Proof. intros Hm Hm' Hlen ->. split; [by eapply grows_puts | by eapply twin_puts]. Qed.

(** *** Reading the shared state *)

Lemma grows_pure {A} n (m : M S A) : 0 <= n -> (forall s a s', m s = Ok (a, s') -> s' = s) -> grows n m.
Proof.
  intros Hn Hm s a s' Hwf _ _ _ E. rewrite (Hm _ _ _ E). eapply progress_le; [|by apply progress_refl]. done.
Qed.

(** The offset is the same in both passes. *)
Lemma paired_offset {B} n (k k' : Z -> M S B) :
  (forall o, 0 <= o <= L -> paired n (k o) (k' o)) -> 0 <= n ->
  paired n (gets (fun s => code_offset (base_of s)) ≫= k) (gets (fun s => code_offset (base_of s)) ≫= k').
Proof.
  intros Hk Hn. split.
  - intros s a s' Hwf ??? E. rewrite gets_bind in E. pose proof (wf_code_offset _ Hwf).
    assert (0 <= offset s <= L) as Ho by lia. by eapply (Hk _ Ho).
  - intros T sc se a sc' Hs Hoff Hcnt E. rewrite gets_bind in *. rewrite (sync_offset _ _ _ _ Hs).
    pose proof (wf_code_offset _ (sync_wf_compute _ _ _ _ Hs)).
    assert (0 <= offset sc <= L) as Ho by lia. by eapply (Hk _ Ho).
Qed.
Lemma steady_offset {B} n (k : Z -> M S B) : (forall o, 0 <= o <= L -> steady n (k o)) -> 0 <= n ->
  steady n (gets (fun s => code_offset (base_of s)) ≫= k).
Proof. apply paired_offset. Qed.
Lemma steady_code_pos {B} n (k : Z -> M S B) : (forall o, 0 <= o <= L -> steady n (k o)) -> 0 <= n ->
  steady n (on_base mp_asm_base_get_code_pos ≫= k).
Proof.
  intros Hk Hn. eapply steady_ext; [|by apply (steady_offset n k)].
  intros s. unfold on_base, mp_asm_base_get_code_pos, mbind, M_bind, gets. by rewrite with_base_of.
Qed.

(** What the emit pass relies on, and an assertion of it. *)
Lemma paired_base {B} n (k k' : mp_asm_base_t -> M S B) :
  (forall b b' s', base_of s' = b' -> emit_ok s' -> code_offset b' = code_offset b -> paired n (k b) (k' b')) ->
  (forall b, grows n (k b)) -> paired n (gets base_of ≫= k) (gets base_of ≫= k').
Proof.
  intros Hk Gk. split.
  - apply grows_gets. intros s. apply Gk.
  - intros T sc se a sc' Hs Hoff Hcnt E. rewrite gets_bind in *.
    by eapply (Hk (base_of sc) (base_of se) se eq_refl (sync_ok _ _ _ _ Hs) (sync_offset _ _ _ _ Hs)).
Qed.
Lemma paired_assert {B} n (c c' : bool) w w' (m m' : M S B) : 0 <= n ->
  c' = true -> paired n m m' -> paired n (assert_ c w;; m) (assert_ c' w';; m').
Proof.
  intros Hn -> Hm. destruct c; [done|].
  split; [intros ????? ? ? [=]|intros ?????? ? ? [=]].
Qed.

(** The pass is not. *)
Lemma paired_pass {B} n (k k' : Z -> M S B) :
  paired n (k MP_ASM_PASS_COMPUTE) (k' MP_ASM_PASS_EMIT) ->
  paired n (gets (fun s => pass (base_of s)) ≫= k) (gets (fun s => pass (base_of s)) ≫= k').
Proof.
  intros [Gk Tk]. split.
  - intros s a s' Hwf Hp ?? E. rewrite gets_bind, Hp in E. by eapply Gk.
  - intros T sc se a sc' Hs Hoff Hcnt E. rewrite gets_bind in *.
    rewrite (sync_compute _ _ _ _ Hs) in E. rewrite (sync_emit _ _ _ _ Hs). by eapply Tk.
Qed.

Lemma on_base_pure {A} (m : M mp_asm_base_t A) a s : m (base_of s) = Ok (a, base_of s) ->
  on_base m s = Ok (a, s).
Proof. intros E. unfold on_base. by rewrite E, with_base_of. Qed.

Lemma label_dest_inv l b d b' : label_dest l b = Ok (d, b') ->
  b' = b /\ l < max_num_labels b /\ label_offsets b !! Z.to_nat l = Some d.
Proof.
  unfold label_dest. run_cmd. unfold id. destruct (Z.ltb_spec l (max_num_labels b)); [|done].
  simpl. destruct (_ !! _) eqn:E; [|done]. by intros [= <- <-].
Qed.
Lemma label_dest_ok l b d : l < max_num_labels b -> label_offsets b !! Z.to_nat l = Some d ->
  label_dest l b = Ok (d, b).
Proof. intros Hl E. unfold label_dest. run_cmd. unfold id. rewrite ltb_true by done. simpl. by rewrite E. Qed.

(** What an operation knows of a label at offset [o]: in both passes the same,
    or it is still unassigned in the compute pass and will not lie behind.
    Here the length of the code does not depend on how far ahead it is. *)
Lemma steady_label_dest n l (k : Z -> Z -> M S unit) :
  (forall d o, steady n (k d o)) ->
  (forall o y, 0 <= o -> o <= y <= L -> paired n (k unassigned o) (k y o)) ->
  steady n (d ← on_base (label_dest l); o ← gets (fun s => code_offset (base_of s)); k d o).
Proof.
  intros Hk Kahead. split.
  - intros s a s' Hwf Hp Hoff Hcnt (d & s1 & (b & [-> _]%label_dest_inv & ->)%on_base_ok & E)%bind_inv.
    rewrite with_base_of, gets_bind in E. by eapply Hk.
  - intros T sc se [] sc' Hs Hoff Hcnt (d & s1 & (b & (-> & Hmax & Hd)%label_dest_inv & ->)%on_base_ok & E)%bind_inv Hf Hsz Hcap.
    rewrite with_base_of, gets_bind in E. pose proof Hs as [].
    pose proof (wf_code_offset _ sync_wf_compute0) as Ho.
    destruct (sync_future0 _ _ Hd) as (y & Hy & Hxy).
    assert (on_base (label_dest l) se = Ok (y, se)) as Ed.
    { apply on_base_pure, label_dest_ok; [lia|congruence]. }
    rewrite (bind_Ok _ _ _ _ _ Ed), gets_bind, sync_offset0.
    destruct Hxy as [<- | [-> Hr]]; [eapply Hk|eapply (Kahead (offset sc) y)]; done || lia.
Qed.

(** From [s], [m] writes [bs]. *)
Definition writes s (m : M S unit) (bs : list Z) : Prop :=
  Forall is_byte bs /\ (ready (Z.of_nat (length bs)) s -> m s = Ok (tt, puts bs s)).

(** Dead code may be any. *)
Lemma writes_dead s m bs bs' : suppress (base_of s) = true -> Forall is_byte bs' ->
  writes s m bs -> writes s m bs'.
Proof.
  intros Hs Hbs [_ Hm]. split; [done|]. intros [Hwf _]. rewrite Hm by (split; [done|by left]).
  unfold puts, put_bytes. by rewrite Hs.
Qed.

(** Code for a label at [d], written at [o], of length [len d o]: the length
    must not depend on how far ahead the label is, as long as it is not closer
    than [g], and the code for an unassigned label is at least that long. *)
Lemma steady_label_writes g n l (m : M S unit) (len : Z -> Z -> nat) : 0 <= g ->
  (forall s r, m s = Ok r -> l < max_num_labels (base_of s) /\ is_Some (labels s !! Z.to_nat l)) ->
  (forall s d, base_wf (base_of s) -> l < max_num_labels (base_of s) ->
     labels s !! Z.to_nat l = Some d ->
     (pass (base_of s) = MP_ASM_PASS_EMIT -> 0 <= offset s <= L /\ (d = unassigned \/ 0 <= d <= L)) ->
     exists bs, length bs = len d (offset s) /\ writes s m bs) ->
  (forall d o, Z.of_nat (len d o) <= n) -> (forall o, g <= Z.of_nat (len unassigned o)) ->
  (forall o y, 0 <= o -> o + g <= y <= L -> len y o = len unassigned o) ->
  steady n m.
Proof.
  intros Hg Hfound Hm Hlen Hmin Hsame. split.
  - intros s [] s' Hwf Hp Hoff Hcnt E. destruct (Hfound _ _ E) as [Hmax [d Hd]].
    destruct (Hm s d Hwf Hmax Hd) as (bs & El & Hbs & Em); [by rewrite Hp|]. specialize (Hlen d (offset s)).
    rewrite Em in E by (split; [done|right; rewrite Hp; split; [lia|done]]). injection E as <-.
    eapply progress_le; [|apply puts_progress; [done..|lia]]. lia.
  - intros T sc se [] sc' Hs Hoff Hcnt E Hf Hsz Hcap. pose proof Hs as [].
    destruct (Hfound _ _ E) as [Hmax [d Hd]]. destruct (sync_future0 _ _ Hd) as (y & Hy & Hxy).
    pose proof (wf_code_offset _ sync_wf_compute0).
    destruct (Hm sc d sync_wf_compute0 Hmax Hd) as (bs & El & Hbs & Em); [by rewrite sync_compute0|].
    assert (0 <= n) by (pose proof (Hlen d (offset sc)); lia).
    destruct (Hm se y sync_wf_emit0) as (bs' & El' & Hbs' & Em'); [lia|congruence|..].
    { intros _. rewrite sync_offset0. split; [lia|]. destruct (sync_assigned0 _ _ Hd), Hxy as [<- | []]; auto; right; lia. }
    pose proof (Hlen d (offset sc)). pose proof (Hlen y (offset sc)). rewrite sync_offset0 in El'.
    rewrite Em in E by (split; [done|right; rewrite sync_compute0; split; [lia|done]]).
    injection E as <-. destruct (suppress (base_of sc)) eqn:Es.
    + assert (puts bs sc = sc) as -> by (unfold puts, put_bytes; by rewrite Es, with_base_of).
      assert (puts bs' se = se) as Ee by (unfold puts, put_bytes; by rewrite sync_suppress0, with_base_of).
      exists tt, se. rewrite Em', Ee by (split; [done|by left]).
      split; [done|]. split; [done|]. split; [done|apply kept_refl].
    + assert (length bs' = length bs) as Heq.
      { rewrite El, El'. destruct Hxy as [<- | [-> Hr]]; [done|]. apply Hsame; [apply sync_wf_compute0|].
        destruct (Hf (Z.to_nat l) unassigned) as (y' & Hy' & Hxy').
        { by rewrite base_of_puts, put_bytes_labels. }
        rewrite Hy in Hy'. injection Hy' as <-.
        destruct Hxy' as [<- | [_ Hr']]; [exfalso; by eapply (unassigned_big unassigned); [lia|]|].
        specialize (Hmin (offset sc)). rewrite base_of_puts, put_bytes_offset, Es in Hr'. lia. }
      destruct (puts_sync T sc se bs bs' Hs Hbs Hbs' Heq ltac:(lia) Hf Hsz) as (Hput & Hs' & Hk).
      exists tt, (puts bs' se). by rewrite Em' by done.
Qed.

(** The code depends on the label and on the position alone. *)
Lemma steady_label_code g n l (k : Z -> Z -> M S unit) (len : Z -> Z -> nat) : 0 <= g ->
  (forall d o, exists bs, length bs = len d o /\ forall s, emits s (k d o) bs) ->
  (forall d o, Z.of_nat (len d o) <= n) -> (forall o, g <= Z.of_nat (len unassigned o)) ->
  (forall o y, 0 <= o -> o + g <= y <= L -> len y o = len unassigned o) ->
  steady n (d ← on_base (label_dest l); o ← gets (fun s => code_offset (base_of s)); k d o).
Proof.
  intros Hg Hk. apply (steady_label_writes g n l _ len); [done|..].
  - intros s r (d & s1 & (b & (_ & Hmax & Hd)%label_dest_inv & _)%on_base_ok & _)%bind_inv. by rewrite Hd.
  - intros s d Hwf Hmax Hd _. destruct (Hk d (offset s)) as (bs & El & He). exists bs. split; [done|].
    destruct (He s) as (Hbs & Em & _). split; [done|]. intros Hr.
    rewrite (bind_Ok _ _ _ _ _ (on_base_pure _ _ _ (label_dest_ok _ _ _ Hmax Hd))), gets_bind. auto.
Qed.

(** *** Bytes that are reserved, to be filled in later or never *)

Lemma list_inserts_same {A} (l : list A) (i n : nat) : (i + n <= length l)%nat ->
  list_inserts i (take n (drop i l)) l = l.
Proof.
  intros Hlen. assert (length (take n (drop i l)) = n) as Hn by (rewrite length_take, length_drop; lia).
  rewrite list_inserts_split by lia. rewrite Hn, <- drop_drop, take_drop. apply take_drop.
Qed.

(** The bytes are whatever the region holds. *)
Definition reserved (n : Z) s : list Z :=
  let bs := region (offset s) (Z.to_nat n) (code_mem (base_of s)) in
  if decide (Forall is_byte bs /\ length bs = Z.to_nat n) then bs else replicate (Z.to_nat n) 0.
Lemma reserved_bytes n s : 0 <= n -> Z.of_nat (length (reserved n s)) = n /\ Forall is_byte (reserved n s).
Proof.
  intros Hn. unfold reserved. destruct (decide _) as [[Hb Hl]|_]; [split; [lia|done]|].
  rewrite length_replicate. split; [lia|by apply Forall_replicate].
Qed.
Lemma reserve_ready n s : 0 <= n -> ready n s -> cur_to_write_bytes n s =
  Ok (if suppress (base_of s) then None
      else if pass (base_of s) =? MP_ASM_PASS_EMIT then Some (offset s) else None, puts (reserved n s) s).
Proof.
  intros Hn [Hwf Hput]. pose proof (wf_code_offset _ Hwf) as Ho. pose proof (wf_code_size _ Hwf) as Hcs.
  destruct (reserved_bytes n s Hn) as [Hlen _]. set (b := base_of s) in *.
  assert (suppress b = false -> code_offset b + n < 2 ^ size_bits /\
    (pass b = MP_ASM_PASS_EMIT -> code_offset b + n <= code_size b)) as Hroom.
  { intros E. destruct Hput as [|]; [congruence|done]. }
  unfold cur_to_write_bytes, on_base, mp_asm_base_get_cur_to_write_bytes, puts. fold b. run_cmd. unfold id, put_bytes.
  destruct (suppress b) eqn:Es; [done|]. destruct (Hroom eq_refl) as [Hfit Hemit]. rewrite Hlen.
  destruct (Z.eqb_spec (pass b) MP_ASM_PASS_EMIT) as [Hp|Hp]; [|run_cmd; by rewrite usize_small by lia].
  specialize (Hemit Hp). rewrite !usize_small by lia. rewrite leb_true by lia. run_cmd.
  rewrite ?usize_small by lia. unfold reserved. fold b.
  assert (length (region (code_offset b) (Z.to_nat n) (code_mem b)) = Z.to_nat n) as Hlr.
  { unfold region. rewrite length_take, length_drop. lia. }
  rewrite decide_True by (split; [apply Forall_take, Forall_drop, Hwf|done]).
  unfold region. rewrite list_inserts_same by lia. by rewrite set_code_mem_id.
Qed.
Lemma reserve_puts n s : base_wf (base_of s) -> 0 <= n -> can_put n (base_of s) ->
  exists bs, Z.of_nat (length bs) = n /\ Forall is_byte bs
    /\ cur_to_write_bytes n s =
       Ok (if suppress (base_of s) then None
           else if pass (base_of s) =? MP_ASM_PASS_EMIT then Some (offset s) else None, puts bs s).
Proof.
  intros Hwf Hn Hput. exists (reserved n s). destruct (reserved_bytes n s Hn) as [Hl Hb].
  split; [done|]. split; [done|]. by apply reserve_ready.
Qed.
(** Bytes that are left as they are, and their place. *)
Definition place s : option Z :=
  if suppress (base_of s) then None else if pass (base_of s) =? MP_ASM_PASS_EMIT then Some (offset s) else None.
Lemma emits_reserve_then n s s' (k : option Z -> M S unit) : 0 <= n -> offset s + n < 2 ^ size_bits ->
  (forall bs, k (place s) (puts bs s) = Ok (tt, puts bs s')) -> emits_to s s' (c ← cur_to_write_bytes n; k c) (reserved n s).
Proof.
  intros Hn Hfit Hk. destruct (reserved_bytes n s Hn) as [Hl Hb]. split; [done|]. rewrite Hl. split.
  - intros Hr. by rewrite (bind_Ok _ _ _ _ _ (reserve_ready n s Hn Hr)).
  - intros [Hwf Hput] Hp r (c & s1 & E & _)%bind_inv. revert E.
    unfold cur_to_write_bytes, on_base, mp_asm_base_get_cur_to_write_bytes. run_cmd. unfold id.
    destruct (suppress (base_of s)) eqn:Es; [by left|]. rewrite Hp. simpl.
    pose proof (wf_code_offset _ Hwf). rewrite usize_small by lia.
    destruct (Z.leb_spec (offset s + n) (code_size (base_of s))); run_cmd; [|done]. intros _. by right.
Qed.
Lemma emits_reserve n s : 0 <= n -> offset s + n < 2 ^ size_bits -> emits s (cur_to_write_bytes n;; mret tt) (reserved n s).
Proof. intros Hn Hfit. by apply emits_reserve_then. Qed.

Lemma grows_reserve n : 0 <= n -> grows n (cur_to_write_bytes n : M S _).
Proof.
  intros Hn s a s' Hwf Hp Hoff Hcnt E.
  destruct (reserve_puts n s Hwf Hn) as (bs & <- & Hbs & E'); [right; rewrite Hp; split; [lia|done]|].
  rewrite E' in E. injection E as _ <-. by apply puts_progress.
Qed.

Lemma twin_reserve n : 0 <= n ->
  twin agree agree n (fun c _ => c = None) (cur_to_write_bytes n) (cur_to_write_bytes n).
Proof.
  intros Hn T sc se a sc' Hs Hoff Hcnt E Hf Hsz Hcap.
  destruct (reserve_puts n sc (sync_wf_compute _ _ _ _ Hs) Hn) as (bs & Hlen & Hbs & Ec).
  { right. rewrite (sync_compute _ _ _ _ Hs). split; [lia|done]. }
  rewrite Ec in E. injection E as <- <-.
  assert (exists bs', length bs' = length bs /\ Forall is_byte bs') as (bs0 & Hlen0 & Hbs0) by eauto.
  destruct (puts_sync T sc se bs bs0) as (Hput & _ & _); try done; [lia|].
  destruct (reserve_puts n se (sync_wf_emit _ _ _ _ Hs) Hn) as (bs' & Hlen' & Hbs' & Ee); [by rewrite <- Hlen, <- Hlen0|].
  destruct (puts_sync T sc se bs bs') as (_ & Hs' & Hk); try done; [lia..|].
  eexists _, _. split; [exact Ee|]. split; [|done]. rewrite (sync_compute _ _ _ _ Hs). by destruct (suppress _).
Qed.

(** [c] is [NULL] in the compute pass. *)
Lemma paired_reserve {B} n1 n (k k' : option Z -> M S B) : 0 <= n1 <= n ->
  (forall c, grows (n - n1) (k c)) -> (forall c, paired (n - n1) (k None) (k' c)) ->
  paired n (cur_to_write_bytes n1 ≫= k) (cur_to_write_bytes n1 ≫= k').
Proof.
  intros Hn Gk Hk. replace n with (n1 + (n - n1)) by lia. split.
  - apply grows_bind; [lia|apply grows_reserve; lia|done].
  - eapply twin_bind; [lia|lia|apply grows_reserve; lia|done|apply twin_reserve; lia|].
    intros c c' ->. apply Hk.
Qed.

(** The bytes are filled in once the code [m] after them is written. *)
Definition patched n (m : M S unit) (f : Z -> Z -> list Z) : M S unit :=
  o ← gets (fun s => code_offset (base_of s));
  c ← cur_to_write_bytes n;
  m;;
  o' ← gets (fun s => code_offset (base_of s));
  match c with None => mret tt | Some c => on_base (store_bytes c (f o o')) end.

Lemma list_inserts_over {A} (i : nat) (k k' bs l : list A) : length k' = length k ->
  (i + length k + length bs <= length l)%nat ->
  list_inserts i k' (list_inserts i (k ++ bs) l) = list_inserts i (k' ++ bs) l.
Proof.
  intros Hk Hl. assert (length (take i l) = i) as Ht by (rewrite length_take; lia).
  rewrite !(list_inserts_split i) by (rewrite ?length_inserts, ?length_app; lia).
  rewrite (take_app_length' (take i l)) by done. rewrite <- !app_assoc. do 2 f_equal.
  rewrite <- drop_drop, (drop_app_length' (take i l)) by done.
  rewrite (drop_app_length' k) by done. by rewrite !length_app, Hk.
Qed.

Lemma writes_patched s n m bs f :
  (forall o o', Forall is_byte (f o o') /\ Z.of_nat (length (f o o')) = n) ->
  (forall junk, Z.of_nat (length junk) = n -> Forall is_byte junk -> writes (puts junk s) m bs) ->
  writes s (patched n m f) (f (offset s) (offset s + n + Z.of_nat (length bs)) ++ bs).
Proof.
  intros Hf Hm. destruct (Hf (offset s) (offset s + n + Z.of_nat (length bs))) as [Hfb Hfl].
  set (fs := f _ _) in *.
  assert (0 <= n) as Hn by lia. split.
  { apply Forall_app. split; [done|]. apply (Hm fs); done. }
  rewrite length_app, Nat2Z.inj_add, Hfl. intros [Hwf Hput].
  destruct (reserve_puts n s Hwf Hn) as (junk & Hj & Hjb & Er); [by eapply can_put_le; [|done]; lia|].
  destruct (Hm junk Hj Hjb) as [Hbs Em].
  assert (ready (Z.of_nat (length bs)) (puts junk s)) as Hr.
  { apply ready_app; [done|lia|]. by rewrite Hj. }
  unfold patched. rewrite gets_bind, (bind_Ok _ _ _ _ _ Er), (bind_Ok _ _ _ _ _ (Em Hr)), gets_bind.
  rewrite puts_app by done. pose proof Hwf as [].
  destruct (suppress (base_of s)) eqn:Es.
  { unfold puts, put_bytes. by rewrite Es. }
  rewrite base_of_puts, put_bytes_offset, Es, length_app, Nat2Z.inj_add, Hj, Z.add_assoc. fold fs.
  unfold puts, put_bytes. rewrite Es, !length_app, !Nat2Z.inj_add, Hj, Hfl.
  destruct Hput as [|[Hfit Hroom]]; [congruence|].
  destruct (Z.eqb_spec (pass (base_of s)) MP_ASM_PASS_EMIT) as [Hp|]; [|done]. specialize (Hroom Hp).
  unfold on_base. rewrite base_of_with, store_bytes_ok; simpl; rewrite ?length_inserts; [|lia|lia|done].
  rewrite with_base_with, list_inserts_over by lia. done.
Qed.

(** The room for the bytes is tested when they are reserved. *)
Lemma emits_writes s m bs : emits s m bs -> writes s m bs.
Proof. intros (Hb & Em & _). by split. Qed.
Lemma emits_patched s n m bs f : offset s + n < 2 ^ size_bits ->
  (forall o o', Forall is_byte (f o o') /\ Z.of_nat (length (f o o')) = n) ->
  (forall junk, Z.of_nat (length junk) = n -> Forall is_byte junk -> emits (puts junk s) m bs) ->
  emits s (patched n m f) (f (offset s) (offset s + n + Z.of_nat (length bs)) ++ bs).
Proof.
  intros Hfit Hf Hm. destruct (writes_patched s n m bs f Hf) as [Hb Em]; [intros; by apply emits_writes, Hm|].
  split; [exact Hb|]. split; [exact Em|]. intros [Hwf Hput] Hp r E. pose proof (wf_code_offset _ Hwf) as Ho.
  rewrite length_app, Nat2Z.inj_add, (proj2 (Hf _ _)). pose proof (proj2 (Hf 0 0)) as Hn.
  unfold patched in E. rewrite gets_bind in E. apply bind_inv in E as (c & s1 & E1 & ([] & s2 & E2 & _)%bind_inv).
  assert (can_put n (base_of s)) as Hcan.
  { destruct (suppress (base_of s)) eqn:Es; [by left|right]. split; [lia|]. intros _. revert E1.
    unfold cur_to_write_bytes, on_base, mp_asm_base_get_cur_to_write_bytes. run_cmd. unfold id. rewrite Es, Hp. simpl.
    rewrite usize_small by lia. destruct (Z.leb_spec (code_offset (base_of s) + n) (code_size (base_of s))); [done|]. by run_cmd. }
  destruct (reserve_puts n s Hwf ltac:(lia) Hcan) as (junk & Hj & Hjb & Er). rewrite Er in E1. injection E1 as _ <-.
  destruct (Hm junk Hj Hjb) as (_ & _ & Hroom).
  eapply can_put_join; [exact Hj|lia|exact Hcan|]. rewrite <- base_of_puts. eapply Hroom; [|by rewrite base_of_puts, put_bytes_pass|exact E2].
  apply (ready_app junk 0); [done|done|]. rewrite Z.add_0_r, Hj. by split.
Qed.

(** Bytes that stay as they are. *)
Lemma steady_skip n1 n (m : M S unit) : 0 <= n1 <= n -> steady (n - n1) m ->
  steady n (cur_to_write_bytes n1;; m).
Proof.
  intros Hn [Gm Tm]. apply paired_reserve; [done|done|]. intros _. by split.
Qed.

(** *** Arrays of bytes *)

Lemma emits_put_array vs s : Forall is_byte vs -> emits s (put_array cur_to_write_bytes vs) vs.
Proof.
  intros Hvs. apply (emits_ext s _ (on_base (write vs))); [|by apply emits_write].
  intros t. apply put_array_write.
Qed.
Lemma paired_put_array vs vs' n : Forall is_byte vs -> Forall is_byte vs' -> length vs' = length vs ->
  n = Z.of_nat (length vs) -> paired n (put_array cur_to_write_bytes vs) (put_array cur_to_write_bytes vs').
Proof. intros. eapply paired_puts; [intros; by apply emits_put_array..|done|done]. Qed.
Lemma steady_put_array vs n : Forall is_byte vs -> n = Z.of_nat (length vs) ->
  steady n (put_array cur_to_write_bytes vs).
Proof. intros. by apply paired_put_array. Qed.
End Passes.

(** ** Operations that make the passes agree on more

    A function's entry sets fields of the back end: [enters E E'] is the rule
    for an operation before which the passes agree on [E] and after which they
    agree on [E']. *)
Section Enters.
Context `{SizeT} {S : Type} `{!HasBase S} `{!PassTable S} (L : Z).
Implicit Types (E : S -> S -> Prop) (n : Z).

Definition enters {A} E E' n (m : M S A) : Prop := grows L n m /\ twin L E E' n eq m m.

Lemma steady_enters {A} E n (m : M S A) : steady L E n m -> enters E E n m.
Proof. done. Qed.
Lemma enters_then {A B} E E0 E' n1 n (m : M S A) (k : A -> M S B) :
  enters E E0 n1 m -> 0 <= n1 <= n -> (forall a, enters E0 E' (n - n1) (k a)) -> enters E E' n (m ≫= k).
Proof.
  intros [Gm Tm] Hn Hk. replace n with (n1 + (n - n1)) by lia. split.
  - apply grows_bind; [lia|done|]. intros a. apply Hk.
  - eapply twin_bind; [lia|lia|done|intros; apply Hk|done|]. intros a a' <-. apply Hk.
Qed.
Lemma enters_le {A} E E' n n' (m : M S A) : n <= n' -> enters E E' n m -> enters E E' n' m.
Proof. intros ? []. split; [by eapply grows_le | by eapply twin_le]. Qed.
Lemma enters_gets {A B} E E' n (f : S -> A) (k : A -> M S B) :
  (forall s s', E s s' -> k (f s') = k (f s)) -> (forall s, enters E E' n (k (f s))) ->
  enters E E' n (gets f ≫= k).
Proof.
  intros Hf Hk. split.
  - apply grows_gets. intros s. apply Hk.
  - apply twin_gets. intros s s' Hs. rewrite (Hf _ _ Hs). apply Hk.
Qed.
Lemma enters_modify E E' f : off_table f -> (forall s s', E s s' -> E' (f s) (f s')) ->
  enters E E' 0 (modify f : M S unit).
Proof. split; [by apply grows_modify | by apply twin_modify]. Qed.
(** What is known of the fields before. *)
Lemma enters_weaken {A} E E0 E' n (m : M S A) : (forall s s', E s s' -> E0 s s') ->
  enters E0 E' n m -> enters E E' n m.
Proof.
  intros HE [Gm Tm]. split; [done|]. intros T sc se a sc' Hs. apply (Tm T sc se a sc').
  destruct Hs. constructor; auto.
Qed.
End Enters.

(** Goals [steady L agree n m], along the structure of [m].  [fields] proves
    that a read of the back end's fields gives the same in both passes, or
    that an update of them is one. *)
Create HintDb steady discriminated.
#[export] Hint Constants Opaque : steady.
#[export] Hint Resolve steady_ret steady_fail steady_assert : steady.

Ltac steady_atom fields :=
  lazymatch goal with
  | |- steady _ _ _ (modify _) => apply steady_modify; [off_table_tac|fields]
  | |- _ => solve [eauto with steady nocore]
  end.
Ltac steady_op_tac fields :=
  lazymatch goal with
  | |- steady _ _ _ (gets _ ≫= _) =>
      apply steady_gets; [fields|intros ?; cbv beta; steady_op_tac fields]
  | |- steady _ _ _ ((if ?c then _ else _) ≫= _) =>
      tryif (eapply steady_then; [first [eapply steady_when | eapply steady_unless]; [steady_atom fields|lia]|lia|])
      then (intros ?; steady_op_tac fields)
      else (destruct c; steady_op_tac fields)
  | |- steady _ _ _ ((_ ≫= _) ≫= _) => apply steady_assoc; cbv beta; steady_op_tac fields
  | |- steady _ _ _ (_ ≫= _) =>
      eapply steady_then; [steady_atom fields|lia|intros ?; steady_op_tac fields]
  | |- steady _ _ _ (if ?c then _ else _) => destruct c; steady_op_tac fields
  | |- steady _ _ _ (let '(_, _) := ?e in _) => destruct e; steady_op_tac fields
  | |- _ => eapply steady_le; [|steady_atom fields]; lia
  end.

(** The same for goals [paired L agree n m m']. *)
Ltac paired_atom :=
  lazymatch goal with
  | |- paired _ _ _ ?m ?m => apply steady_paired; solve [eauto with steady nocore]
  | |- _ => solve [eauto with steady nocore]
  end.
Ltac paired_op_tac fields :=
  lazymatch goal with
  | |- paired _ _ _ ?m ?m => apply steady_paired; steady_op_tac fields
  | |- paired _ _ _ ((if ?c then _ else _) ≫= _) _ => destruct c; paired_op_tac fields
  | |- paired _ _ _ (if ?c then _ else _) _ => destruct c; paired_op_tac fields
  | |- paired _ _ _ (_ ≫= _) (_ ≫= _) =>
      eapply paired_then; [paired_atom|lia|intros ?; paired_op_tac fields]
  | |- _ => eapply paired_le; [|paired_atom]; lia
  end.

(** Goals [emits s m ?bs] for an evar [?bs], along the structure of [m]. *)
Create HintDb code discriminated.
#[export] Hint Constants Opaque : code.
Ltac code_tac :=
  lazymatch goal with
  | |- emits _ (mret tt) _ => apply emits_ret
  | |- emits _ (put_array _ _) _ => apply emits_put_array; bytes_tac
  | |- emits _ (assert_ _ _ ≫= _) _ => apply emits_assert; [reflexivity|code_tac]
  | |- emits _ (_ ≫= _) _ => apply emits_seq; [code_tac|code_tac]
  | |- emits _ (if _ then _ else _) _ => apply emits_if; intros _; code_tac
  | |- _ => solve [eauto with code nocore]
  end.

(** The first operation of a goal [enters L E E' n (m ≫= k)] is steady. *)
Ltac enters_step :=
  eapply enters_then; [apply steady_enters; solve [eauto with steady nocore]|lia|intros ?].

(** Operations that look a label up. *)
Ltac label_tac :=
  lazymatch goal with
  | |- steady ?L ?A ?n (on_base (label_dest ?l) ≫= (fun d => gets _ ≫= (fun o => @?k d o))) =>
      let R := fresh in
      pose proof (steady_label_dest L A n l k) as R; apply R; clear R; cbv beta
  end.

(** What an operation leaves of a field of the back end. *)
Section Stays.
Context {S F : Type} (f : S -> F).

Definition stays {A} (m : M S A) : Prop := forall s a s', m s = Ok (a, s') -> f s' = f s.

Lemma stays_ret {A} (a : A) : stays (mret a).
Proof. by intros s b s' [= <- <-]. Qed.
Lemma stays_fail {A} e : stays (fail_with e : M S A).
Proof. done. Qed.
Lemma stays_assert c w : stays (assert_ c w).
Proof. destruct c; [apply stays_ret|apply stays_fail]. Qed.
Lemma stays_gets {A} (g : S -> A) : stays (gets g).
Proof. by intros s b s' [= <- <-]. Qed.
Lemma stays_modify g : (forall s, f (g s) = f s) -> stays (modify g).
Proof. intros Hg s b s' [= <- <-]. done. Qed.
Lemma stays_bind {A B} (m : M S A) (k : A -> M S B) :
  stays m -> (forall a, stays (k a)) -> stays (m ≫= k).
Proof. intros Hm Hk s b s' (a & s1 & E1 & E2)%bind_inv. rewrite (Hk _ _ _ _ E2). by apply (Hm _ _ _ E1). Qed.
Lemma stays_base `{!HasBase S} {A} (m : M mp_asm_base_t A) :
  (forall s b, f (with_base b s) = f s) -> stays (on_base m).
Proof. intros Hf s a s' (b & _ & ->)%on_base_ok. apply Hf. Qed.
End Stays.

Create HintDb stays.
#[export] Hint Resolve stays_ret stays_fail stays_assert stays_gets : stays.
Ltac stays_op :=
  lazymatch goal with
  | |- stays _ (_ ≫= _) => apply stays_bind; [stays_op|intros ?; stays_op]
  | |- stays _ (if ?c then _ else _) => destruct c; stays_op
  | |- stays _ (let '(_, _) := ?e in _) => destruct e; stays_op
  | |- stays _ (match ?e with None => _ | Some _ => _ end) => destruct e; stays_op
  | |- stays _ (modify _) => apply stays_modify; done
  | |- stays _ (on_base _) => apply stays_base; done
  | |- _ => solve [auto with stays nocore]
  end.

(** ** Programs *)

Section Programs.
Context `{PlatAllocExec} {S : Type} `{!HasBase S} `{!PassTable S}.
Context (L : Z) (HL : 0 < L < 2 ^ size_bits - 1).
Context (agree : S -> S -> Prop).
Implicit Types (s : S) (m : M S unit).

Abbreviation offset s := (code_offset (base_of s)).
Abbreviation labels s := (label_offsets (base_of s)).

(** A pass: [mp_asm_base_start_pass], then the program's operations. *)
Definition run_pass (p : Z) m : M S unit := on_base (mp_asm_base_start_pass p);; m.

Lemma run_pass_start p m s : 0 <= p <= MP_ASM_PASS_EMIT ->
  run_pass p m s = m (with_base (pass_start p (base_of s)) s).
Proof.
  intros Hp. unfold run_pass, on_base, mbind, M_bind.
  by rewrite start_pass_ok.
Qed.

(** From the end [s1] of the compute pass over a program that began in [s0],
    to the state [s1'] the emit pass begins in. *)
Record handover (E : S -> S -> Prop) s0 s1 s1' : Prop := {
  handover_base : base_of s1' = base_of s1;
  handover_fields : E (with_base (pass_start MP_ASM_PASS_COMPUTE (base_of s0)) s0)
    (with_base (pass_start MP_ASM_PASS_EMIT (base_of s1)) s1');
  handover_count : count s0 = 0;
  handover_capacity : count s1 <= capacity s1';
  handover_ok : emit_ok (with_base (pass_start MP_ASM_PASS_EMIT (base_of s1)) s1');
}.

(** Where the passes start. *)
Lemma pass_start_sync E s0 s1 s1' : 0 <= L -> base_wf (base_of s0) -> base_wf (base_of s1) ->
  max_num_labels (base_of s1) = max_num_labels (base_of s0) ->
  (forall l y, labels s1 !! l = Some y -> y = unassigned \/ 0 <= y <= L) ->
  handover E s0 s1 s1' ->
  sync L E (labels s1) (with_base (pass_start MP_ASM_PASS_COMPUTE (base_of s0)) s0)
    (with_base (pass_start MP_ASM_PASS_EMIT (base_of s1')) s1').
Proof using.
  clear HL. intros HL0 Hw0 Hw1 Hmax Hl [Eb HE Hc _ Hok]. rewrite Eb.
  constructor; rewrite ?base_of_with, ?count_base; try done.
  - by apply pass_start_wf.
  - by apply pass_start_wf.
  - intros l x. rewrite base_of_with. simpl. intros Hx.
    apply lookup_lt_Some in Hx as Hlt. rewrite length_replicate in Hlt.
    apply lookup_replicate in Hx as [-> _].
    destruct (lookup_lt_is_Some_2 (labels s1) l) as [y Hy].
    { pose proof (wf_labels _ Hw1). lia. }
    exists y. split; [done|]. destruct (Hl l y Hy) as [-> | Hr]; [by left|]. right. split; [done|lia].
  - simpl. intros l x [-> _]%lookup_replicate. by left.
  - rewrite Hc. lia.
Qed.

(** A program that a compute pass measured is written by the emit pass that
    follows: no assertion fails, the offset and the labels are those of the
    compute pass, and of any middle part [m] of the program the states before
    and after are known, with what later parts leave of it. *)
Lemma two_pass_parts E n1 n2 n3 m1 m2 m3 s0 s1 s1' :
  0 <= n1 -> 0 <= n2 -> 0 <= n3 -> n1 + (n2 + n3) <= L ->
  grows L n1 m1 -> twin L E agree n1 eq m1 m1 -> steady L agree n2 m2 -> steady L agree n3 m3 ->
  base_wf (base_of s0) ->
  run_pass MP_ASM_PASS_COMPUTE (m1;; (m2;; m3)) s0 = Ok (tt, s1) ->
  handover E s0 s1 s1' ->
  exists sa sb s2,
    m1 (with_base (pass_start MP_ASM_PASS_EMIT (base_of s1')) s1') = Ok (tt, sa)
    /\ m2 sa = Ok (tt, sb) /\ m3 sb = Ok (tt, s2)
    /\ offset s2 = offset s1 /\ labels s2 = labels s1 /\ agree s1 s2
    /\ base_wf (base_of sa) /\ labels sa = labels s1 /\ pass (base_of sa) = MP_ASM_PASS_EMIT
    /\ kept sa sb /\ kept sb s2 /\ offset s2 <= code_size (base_of s2) /\ base_wf (base_of s2)
    /\ offset sa <= offset sb <= offset sa + n2 /\ offset sb <= offset s2 <= L.
Proof.
  clear HL. intros Hn1 Hn2 Hn3 HnL Gm1 Tm1 [Gm2 Tm2] [Gm3 Tm3] Hwf Hrun HE. pose proof HE as [Eb1 _ Hc0 Hcap _].
  rewrite run_pass_start in Hrun by (split; [done|done]).
  set (c0 := with_base (pass_start MP_ASM_PASS_COMPUTE (base_of s0)) s0) in *.
  assert (base_wf (base_of c0)) as Hwc by (unfold c0; rewrite base_of_with; by apply pass_start_wf).
  assert (pass (base_of c0) = MP_ASM_PASS_COMPUTE) as Hpc by (unfold c0; by rewrite base_of_with).
  assert (offset c0 = 0) as Hoc by (unfold c0; by rewrite base_of_with).
  assert (forall l x, labels c0 !! l = Some x -> x = unassigned) as Hlc.
  { unfold c0. rewrite base_of_with. simpl. intros l x [? _]%lookup_replicate. done. }
  assert (max_num_labels (base_of c0) = max_num_labels (base_of s0)) as Hmc
    by (unfold c0; by rewrite base_of_with).
  assert (count c0 = 0) as Hcc by (unfold c0; by rewrite count_base).
  apply bind_inv in Hrun as ([] & ca & E1 & Hrun). apply bind_inv in Hrun as ([] & cb & E2 & E3).
  pose proof (Gm1 _ _ _ Hwc Hpc ltac:(lia) ltac:(lia) E1) as P1. pose proof P1 as [Hwa Hpa Hma Hoa Hca Hla].
  rewrite Hpc in Hpa.
  pose proof (Gm2 _ _ _ Hwa Hpa ltac:(lia) ltac:(lia) E2) as P2. pose proof P2 as [Hwb Hpb Hmb Hob Hcb Hlb].
  rewrite Hpa in Hpb.
  pose proof (Gm3 _ _ _ Hwb Hpb ltac:(lia) ltac:(lia) E3) as P3. pose proof P3 as [Hw1 Hp1 Hm1 Ho1 Hc1 Hl1].
  pose proof (progress_trans _ _ _ _ _ P2 P3) as P23.
  pose proof (progress_trans _ _ _ _ _ P1 P23) as P123.
  assert (forall l y, labels s1 !! l = Some y -> y = unassigned \/ 0 <= y <= L) as Hbound.
  { intros l y Hy. destruct (lookup_lt_is_Some_2 (labels c0) l) as [x Hx].
    { apply lookup_lt_Some in Hy. pose proof (wf_labels _ Hwc). pose proof (wf_labels _ Hw1). lia. }
    destruct (progress_labels _ _ _ P123 l x Hx) as (y' & Hy' & Hxy).
    rewrite Hy in Hy'. injection Hy' as <-. apply Hlc in Hx as ->.
    destruct Hxy as [<- | [_ Hr]]; [by left|right; lia]. }
  assert (future L (labels s1) s1) as F1 by (intros l x Hx; exists x; auto).
  pose proof (future_back L _ _ _ _ P3 ltac:(lia) F1) as Fb.
  pose proof (future_back L _ _ _ _ P2 ltac:(lia) Fb) as Fa.
  pose proof (pass_start_sync E s0 s1 s1' ltac:(lia) Hwf Hw1 ltac:(congruence) Hbound HE) as Hs0.
  set (e0 := with_base (pass_start MP_ASM_PASS_EMIT (base_of s1')) s1') in *. fold c0 in Hs0.
  assert (offset s1 <= code_size (base_of e0)) as Hsz.
  { unfold e0. rewrite base_of_with, Eb1. simpl. apply plat_alloc_exec_size. }
  assert (capacity e0 = capacity s1') as Hce by (unfold e0; by rewrite capacity_base).
  destruct (Tm1 _ _ _ _ _ Hs0 ltac:(lia) ltac:(lia) E1 Fa ltac:(lia) ltac:(lia)) as ([] & sa & Ea & _ & Hsa & K1).
  pose proof (kept_size _ _ K1). pose proof (kept_capacity _ _ K1).
  destruct (Tm2 _ _ _ _ _ Hsa ltac:(lia) ltac:(lia) E2 Fb ltac:(lia) ltac:(lia)) as ([] & sb & Eb & _ & Hsb & K2).
  pose proof (kept_size _ _ K2). pose proof (kept_capacity _ _ K2).
  destruct (Tm3 _ _ _ _ _ Hsb ltac:(lia) ltac:(lia) E3 F1 ltac:(lia) ltac:(lia)) as ([] & s2 & Ec & _ & Hs2 & K3).
  pose proof (kept_size _ _ K3). pose proof (sync_offset _ _ _ _ _ Hsa).
  pose proof (sync_offset _ _ _ _ _ Hsb). pose proof (sync_offset _ _ _ _ _ Hs2).
  exists sa, sb, s2.
  repeat match goal with |- _ /\ _ => split end;
    first [done | by apply Hs2 | by apply Hsa | lia].
Qed.

(** A program as the list of its operations. *)
Section Sequence.
Context {Op : Type} (exec : Op -> M S unit) (size : Op -> Z).

Fixpoint seq_ops (ops : list Op) : M S unit :=
  match ops with
  | [] => mret tt
  | op :: ops => exec op;; seq_ops ops
  end.
Fixpoint total (ops : list Op) : Z :=
  match ops with [] => 0 | op :: ops => size op + total ops end.

Definition steady_op (op : Op) : Prop := 0 <= size op /\ steady L agree (size op) (exec op).

Lemma total_nonneg ops : Forall steady_op ops -> 0 <= total ops.
Proof. induction 1 as [|op ops [? _] _ IH]; simpl; lia. Qed.

Lemma steady_seq_ops ops : Forall steady_op ops -> steady L agree (total ops) (seq_ops ops).
Proof.
  induction 1 as [|op ops [Hn Hop] Hops IH]; simpl; [apply steady_ret|].
  apply steady_bind; [done|by apply total_nonneg|done|done].
Qed.

Lemma seq_ops_app ops1 ops2 s : seq_ops (ops1 ++ ops2) s = (seq_ops ops1;; seq_ops ops2) s.
Proof.
  revert s. induction ops1 as [|op ops1 IH]; intros s; simpl; [done|].
  rewrite bind_assoc. unfold mbind, M_bind in *. destruct (exec op s) as [[[] s1]|]; [apply IH|done].
Qed.

Lemma total_app ops1 ops2 : total (ops1 ++ ops2) = total ops1 + total ops2.
Proof. induction ops1; simpl; lia. Qed.

(** The middle operation of a program, after the first [first]. *)
Lemma program_at E n0 (first : M S unit) ops1 op ops2 s0 s1 s1' :
  0 <= n0 -> grows L n0 first -> twin L E agree n0 eq first first ->
  Forall steady_op (ops1 ++ op :: ops2) -> n0 + total (ops1 ++ op :: ops2) <= L ->
  base_wf (base_of s0) ->
  run_pass MP_ASM_PASS_COMPUTE (first;; seq_ops (ops1 ++ op :: ops2)) s0 = Ok (tt, s1) ->
  handover E s0 s1 s1' ->
  exists sa sb s2,
    run_pass MP_ASM_PASS_EMIT (first;; seq_ops ops1) s1' = Ok (tt, sa)
    /\ exec op sa = Ok (tt, sb)
    /\ run_pass MP_ASM_PASS_EMIT (first;; seq_ops (ops1 ++ op :: ops2)) s1' = Ok (tt, s2)
    /\ offset s2 = offset s1 /\ labels s2 = labels s1 /\ agree s1 s2
    /\ base_wf (base_of sa) /\ labels sa = labels s1 /\ pass (base_of sa) = MP_ASM_PASS_EMIT
    /\ kept sa sb /\ kept sb s2 /\ offset s2 <= code_size (base_of s2) /\ base_wf (base_of s2)
    /\ offset sa <= offset sb <= offset sa + size op /\ offset sb <= offset s2 <= L.
Proof.
  intros Hn0 Gf Tf Hops HnL Hwf Hrun HE. rewrite total_app in HnL. simpl in HnL.
  apply Forall_app in Hops as [H1 [[Hn Hop] H2]%Forall_cons].
  pose proof (total_nonneg ops1 H1). pose proof (total_nonneg ops2 H2).
  destruct (two_pass_parts E (n0 + total ops1) (size op) (total ops2)
    (first;; seq_ops ops1) (exec op) (seq_ops ops2) s0 s1 s1') as (sa & sb & s2 & Ea & Eb & Ec & Hrest); try done.
  - lia.
  - lia.
  - apply grows_bind; [done|done|]. intros _. by apply steady_seq_ops.
  - eapply twin_bind; [lia|lia|done| |done|]; [intros _; by apply steady_seq_ops|].
    intros [] [] _. by apply steady_seq_ops.
  - by apply steady_seq_ops.
  - rewrite run_pass_start in Hrun |- * by done. rewrite <- Hrun, bind_assoc.
    unfold mbind, M_bind. destruct (first _) as [[[] s]|]; [|done]. rewrite seq_ops_app.
    unfold mbind, M_bind. by destruct (seq_ops ops1 s) as [[[] ?]|].
  - exists sa, sb, s2. rewrite !run_pass_start by done. split; [done|]. split; [done|].
    split; [|done]. unfold mbind, M_bind in *.
    destruct (first _) as [[[] s]|]; [|done]. rewrite seq_ops_app. unfold mbind, M_bind.
    rewrite Ea. simpl. unfold mbind, M_bind. by rewrite Eb, Ec.
Qed.

(** A compute pass keeps the shared state well formed. *)
Lemma program_wf n0 (first : M S unit) ops s0 s1 : 0 <= n0 -> grows L n0 first ->
  Forall steady_op ops -> n0 + total ops <= L -> base_wf (base_of s0) -> count s0 = 0 ->
  run_pass MP_ASM_PASS_COMPUTE (first;; seq_ops ops) s0 = Ok (tt, s1) -> base_wf (base_of s1).
Proof.
  intros Hn0 Gf Hops HnL Hwf Hc Hrun. rewrite run_pass_start in Hrun by done.
  pose proof (total_nonneg ops Hops).
  assert (grows L (n0 + total ops) (first;; seq_ops ops)) as G.
  { apply grows_bind; [done|done|]. intros _. by apply steady_seq_ops. }
  apply G in Hrun; [apply Hrun|..]; rewrite ?base_of_with, ?count_base;
    [by apply pass_start_wf|done|simpl; lia|lia].
Qed.

(** A whole program that a compute pass measured. *)
Lemma program_agrees E n0 (first : M S unit) ops s0 s1 s1' :
  0 <= n0 -> grows L n0 first -> twin L E agree n0 eq first first ->
  Forall steady_op ops -> n0 + total ops <= L -> base_wf (base_of s0) ->
  run_pass MP_ASM_PASS_COMPUTE (first;; seq_ops ops) s0 = Ok (tt, s1) -> handover E s0 s1 s1' ->
  exists s2, run_pass MP_ASM_PASS_EMIT (first;; seq_ops ops) s1' = Ok (tt, s2)
    /\ offset s2 = offset s1 /\ labels s2 = labels s1 /\ agree s1 s2
    /\ offset s2 <= code_size (base_of s2) /\ base_wf (base_of s2).
Proof.
  intros Hn0 Gf Tf Hops HnL Hwf Hrun HE. pose proof (total_nonneg ops Hops).
  destruct (two_pass_parts E n0 (total ops) 0 first (seq_ops ops) (mret tt) s0 s1 s1')
    as (sa & sb & s2 & Ea & Eb & [= <-] & Ho & Hl & Ha & _ & _ & _ & _ & _ & Hsz & Hw & _); try done.
  - lia.
  - by apply steady_seq_ops.
  - apply steady_ret.
  - rewrite <- Hrun, !run_pass_start by done. unfold mbind, M_bind, mret, M_ret.
    destruct (first _) as [[[] s]|]; [|done]. by destruct (seq_ops ops s) as [[[] ?]|].
  - exists sb. split; [|done]. rewrite run_pass_start by done. by rewrite (bind_Ok _ _ _ _ _ Ea).
Qed.
End Sequence.
End Programs.

(** Back ends without a table start the emit pass where the compute pass ended. *)
Lemma handover_same `{PlatAllocExec} {S : Type} `{!HasBase S} (E : S -> S -> Prop) s0 s1 :
  (forall b b', E (with_base b s0) (with_base b' s1)) -> handover E s0 s1 s1.
Proof. by constructor. Qed.
