(* ===== verification/AsmBaseSpec.v ===== *)
(** * AsmBaseSpec: what asmbase.c promises its clients

    The behaviour of the operations on every branch, and the agreement of the
    two passes over any sequence of them. *)

From S2P Require Import Prelude AsmBase TwoPass.

Set Default Goal Selector "!".

(** mp_asm_base_data on every branch. *)
Lemma data_spec `{SizeT} n v b : 0 <= n -> base_wf b -> code_offset b + n < 2 ^ size_bits ->
  mp_asm_base_data n v b =
    if suppress b then Ok (tt, b)
    else if pass b =? MP_ASM_PASS_EMIT then
      if code_offset b + n <=? code_size b then
        Ok (tt, set_code_offset (code_offset b + n)
          (set_code_mem (list_inserts (Z.to_nat (code_offset b)) (le_bytes (Z.to_nat n) v) (code_mem b)) b))
      else Fault (Assertion "as->code_offset + num_bytes_to_write <= as->code_size")
    else Ok (tt, set_code_offset (code_offset b + n) b).
Proof.
  intros Hn Hwf Hfit. rewrite mp_asm_base_data_write by done.
  pose proof (wf_code_offset b Hwf) as Ho. pose proof (length_le_bytes (Z.to_nat n) v) as Hlen.
  assert (can_put n b -> write (le_bytes (Z.to_nat n) v) b = Ok (tt, put_bytes (le_bytes (Z.to_nat n) v) b)) as Hw.
  { intros Hput. apply write_ok; [done|apply le_bytes_is_byte|]. by rewrite Hlen, Z2Nat.id. }
  unfold put_bytes in Hw. rewrite Hlen, Z2Nat.id in Hw by done.
  destruct (suppress b) eqn:Es; [by apply Hw; left|].
  destruct (pass b =? MP_ASM_PASS_EMIT) eqn:Ep.
  - destruct (Z.leb_spec (code_offset b + n) (code_size b)).
    + apply Hw. right. by split.
    + unfold write, mp_asm_base_get_cur_to_write_bytes. rewrite Hlen, Z2Nat.id by done. run_cmd.
      unfold id. rewrite Es, Ep, usize_small by lia.
      destruct (Z.leb_spec (code_offset b + n) (code_size b)); [lia|done].
  - apply Hw. right. split; [done|]. intros E. by rewrite E in Ep.
Qed.

(** A region of eight bytes in the emit pass. *)
Definition example_region : mp_asm_base_t :=
  mk_asm_base MP_ASM_PASS_EMIT false 2 8 0x1000 (replicate 8 0) 2 [4; 6].

Lemma example_region_wf `{SizeT} : base_wf example_region.
Proof.
  pose proof pow2_size_ge. constructor; simpl; try lia; try done.
  - by apply (Forall_replicate _ 8).
  - repeat (apply Forall_cons; split; [lia|]). by apply Forall_nil.
Qed.

(** mp_asm_base_label_assign on every branch. *)
Lemma label_spec `{SizeT} l b : base_wf b -> 0 <= l ->
  mp_asm_base_label_assign l b =
    if l <? max_num_labels b then
      let off := default 0 (label_offsets b !! Z.to_nat l) in
      if pass b <? MP_ASM_PASS_EMIT then
        if off =? unassigned
        then Ok (tt, set_suppress false (assign (Z.to_nat l) (code_offset b) b))
        else Fault (Assertion "as->label_offsets[label] == (size_t)-1")
      else if off =? code_offset b then Ok (tt, set_suppress false b)
        else Fault (Assertion "as->label_offsets[label] == as->code_offset")
    else Fault (Assertion "label < as->max_num_labels").
Proof.
  intros Hwf Hl. unfold mp_asm_base_label_assign. run_cmd. unfold id.
  destruct (Z.ltb_spec l (max_num_labels b)); [|done].
  destruct (lookup_lt_is_Some_2 (label_offsets b) (Z.to_nat l)) as [off Hoff].
  { pose proof (wf_labels b Hwf). lia. }
  rewrite Hoff. simpl. destruct (pass b <? MP_ASM_PASS_EMIT).
  - by destruct (off =? unassigned).
  - by destruct (off =? code_offset b).
Qed.

(** C39: data, labels and alignment on every branch.  mp_asm_base_data skips dead code,
    counts in the compute pass, and in the emit pass stores the little-endian
    bytes of the value at the current offset, or stops at the assertion when
    they do not fit; the region is never written outside its bounds.  For
    mp_asm_base_label_assign an out-of-range label, a label assigned twice and
    a label whose offset moved between the passes stop at an assertion;
    otherwise the compute pass records the offset, the emit pass leaves the
    table, and either ends a dead-code region.  mp_asm_base_align moves the
    offset to the least multiple of the alignment, a power of two, that is not
    below it, and touches nothing else. *)
Theorem base_data_label_spec `{SizeT} b : base_wf b ->
  (forall n v, 0 <= n -> code_offset b + n < 2 ^ size_bits -> mp_asm_base_data n v b =
    if suppress b then Ok (tt, b)
    else if pass b =? MP_ASM_PASS_EMIT then
      if code_offset b + n <=? code_size b then
        Ok (tt, set_code_offset (code_offset b + n)
          (set_code_mem (list_inserts (Z.to_nat (code_offset b)) (le_bytes (Z.to_nat n) v) (code_mem b)) b))
      else Fault (Assertion "as->code_offset + num_bytes_to_write <= as->code_size")
    else Ok (tt, set_code_offset (code_offset b + n) b))
  /\ (forall l, 0 <= l -> mp_asm_base_label_assign l b =
    if l <? max_num_labels b then
      let off := default 0 (label_offsets b !! Z.to_nat l) in
      if pass b <? MP_ASM_PASS_EMIT then
        if off =? unassigned
        then Ok (tt, set_suppress false (assign (Z.to_nat l) (code_offset b) b))
        else Fault (Assertion "as->label_offsets[label] == (size_t)-1")
      else if off =? code_offset b then Ok (tt, set_suppress false b)
        else Fault (Assertion "as->label_offsets[label] == as->code_offset")
    else Fault (Assertion "label < as->max_num_labels"))
  /\ (forall k, 0 <= k < 32 -> code_offset b + 2 ^ k - 1 < 2 ^ size_bits ->
    exists y, mp_asm_base_align (2 ^ k) b = Ok (tt, set_code_offset y b)
      /\ (2 ^ k | y) /\ code_offset b <= y < code_offset b + 2 ^ k).
Proof.
  intros Hwf. split; [intros; by apply data_spec|]. split; [intros; by apply label_spec|].
  intros k Hk Hfit. exists (align_up k (code_offset b)).
  split; [by apply mp_asm_base_align_up|]. pose proof (wf_code_offset b Hwf).
  apply align_up_least; lia.
Qed.

Lemma base_data_label_spec_witness :
  mp_asm_base_data (H := SizeT_32) 4 0x01020304 example_region
    = Ok (tt, set_code_offset 6 (set_code_mem [0; 0; 4; 3; 2; 1; 0; 0] example_region))
  /\ mp_asm_base_label_assign (H := SizeT_32) 1 example_region
    = Fault (Assertion "as->label_offsets[label] == as->code_offset")
  /\ exists y, mp_asm_base_align (H := SizeT_32) 4 example_region = Ok (tt, set_code_offset y example_region) /\ (4 | y).
Proof.
  destruct (base_data_label_spec (H := SizeT_32) example_region) as (Hd & Hl & Ha); [apply example_region_wf|].
  split; [rewrite Hd; [reflexivity|lia|reflexivity]|]. split; [rewrite Hl; [reflexivity|lia]|].
  destruct (Ha 2) as (y & E & Hy & _); [done|reflexivity|]. by exists y.
Defined.

(** ** Sequences of operations *)

Inductive base_op :=
| Data (bytesize v : Z) | Label (label : Z) | Align (k : Z) | SuppressCode.

Section Sequences.
Context `{PlatAllocExec}.

Definition base_exec (op : base_op) : M mp_asm_base_t unit :=
  match op with
  | Data bytesize v => mp_asm_base_data bytesize v
  | Label label => mp_asm_base_label_assign label
  | Align k => mp_asm_base_align (2 ^ k)
  | SuppressCode => mp_asm_base_suppress_code
  end.
Definition base_size (op : base_op) : Z :=
  match op with Data bytesize _ => bytesize | Align k => 2 ^ k | _ => 0 end.
Definition base_op_ok (op : base_op) : Prop :=
  match op with Data bytesize _ => 0 <= bytesize | Align k => 0 <= k < 32 | _ => True end.

(** They are steady in the programs of every back end. *)
Lemma steady_shared {S : Type} `{!HasBase S} `{!PassTable S} L agree op : 0 < L < 2 ^ size_bits - 1 ->
  (forall b b' (s s' : S), agree s s' -> agree (with_base b s) (with_base b' s')) ->
  base_op_ok op -> 0 <= base_size op /\ steady L agree (base_size op) (on_base (base_exec op)).
Proof.
  intros HL Ha Hok. split; [destruct op; simpl in *; lia|].
  destruct op; simpl in *;
    [by apply steady_data|by apply steady_label|by apply steady_align|by apply steady_suppress].
Qed.

Definition base_limit : Z := 2 ^ size_bits - 2.
Lemma base_limit_ok : 0 < base_limit < 2 ^ size_bits - 1.
Proof. unfold base_limit. pose proof pow2_size_ge. lia. Qed.

(** The shared state has no other fields to agree on. *)
Definition base_agree (b b' : mp_asm_base_t) : Prop := True.

Lemma on_base_self {A} (m : M mp_asm_base_t A) b : on_base m b = m b.
Proof. unfold on_base. simpl. by destruct (m b) as [[]|]. Qed.

Lemma base_steady op : base_op_ok op -> steady_op base_limit base_agree base_exec base_size op.
Proof.
  intros Hok. pose proof base_limit_ok.
  destruct (steady_shared base_limit base_agree op) as [Hsz Hs]; [done..|].
  split; [done|]. eapply steady_ext; [|exact Hs]. intros s. by rewrite on_base_self.
Qed.

(** The compute pass over [ops] from [b0] ended in [b1]. *)
Definition base_measured (ops : list base_op) (b0 b1 : mp_asm_base_t) : Prop :=
  Forall base_op_ok ops /\ total base_size ops <= base_limit /\ base_wf b0
  /\ run_pass MP_ASM_PASS_COMPUTE (seq_ops base_exec ops) b0 = Ok (tt, b1).

(** C38: the passes agree, for any sequence of data, labels, alignments and
    dead-code marks: the emit pass that follows a compute pass does not fail,
    ends at the measured offset with the same labels, and leaves the bytes of
    every live data item in the region, at the offset it was emitted at. *)
Theorem base_passes_agree ops1 bytesize v ops2 b0 b1 :
  base_measured (ops1 ++ Data bytesize v :: ops2) b0 b1 ->
  exists ba b2, run_pass MP_ASM_PASS_EMIT (seq_ops base_exec (ops1 ++ Data bytesize v :: ops2)) b1 = Ok (tt, b2)
    /\ code_offset b2 = code_offset b1 /\ label_offsets b2 = label_offsets b1
    /\ code_offset b2 <= code_size b2
    /\ run_pass MP_ASM_PASS_EMIT (seq_ops base_exec ops1) b1 = Ok (tt, ba)
    /\ (suppress ba = false ->
        region (code_offset ba) (Z.to_nat bytesize) (code_mem b2) = le_bytes (Z.to_nat bytesize) v).
Proof.
  intros (Hops & Hsz & Hwf & Hrun). pose proof base_limit_ok as HL.
  assert (0 <= bytesize) as Hn by (apply Forall_app in Hops as [_ [? _]%Forall_cons]; done).
  destruct (program_at base_limit base_agree base_exec base_size base_agree 0 (mret tt)
    ops1 (Data bytesize v) ops2 b0 b1 b1)
    as (sa & sb & s2 & Ea & Eb & E2 & Ho & Hl & _ & Hwa & Hla & Hpa & K1 & K2 & Hcs & Hw2 & Hr & Hr2); try done.
  - apply (steady_ret base_limit base_agree).
  - apply (steady_ret base_limit base_agree).
  - eapply Forall_impl; [exact Hops|]. apply base_steady.
  - exists sa, s2. do 5 (split; [done|]). intros Hs. simpl in Eb. simpl in *.
    pose proof (length_le_bytes (Z.to_nat bytesize) v) as Hlen.
    rewrite mp_asm_base_data_write in Eb by done.
    pose proof (kept_size _ _ K1). pose proof (kept_size _ _ K2). pose proof (wf_code_offset _ Hwa). simpl in *.
    assert (can_put (Z.of_nat (length (le_bytes (Z.to_nat bytesize) v))) sa) as Hput.
    { eapply write_room; [done| |done|exact Eb]. right. unfold base_limit in *. split; [lia|]. intros _. lia. }
    rewrite write_ok in Eb by (done || apply le_bytes_is_byte). injection Eb as <-.
    pose proof (put_bytes_read _ sa Hwa Hpa Hs Hput) as Hread. rewrite Hlen in Hread. rewrite <- Hread.
    unfold region. apply list_eq. intros i. destruct (decide (i < Z.to_nat bytesize)%nat).
    + rewrite !lookup_take_lt, !lookup_drop by done. apply (kept_mem _ _ K2); [|by intros []]. simpl.
      rewrite put_bytes_offset, Hs, Hlen. lia.
    + by rewrite !lookup_take_ge by lia.
Qed.
End Sequences.

(** A port whose allocator hands out zeroed memory at one address. *)
Definition example_alloc `{SizeT} : PlatAllocExec.
Proof.
  refine {| plat_alloc_exec n := (0x1000, replicate (Z.to_nat n) 0) |}.
  - intros n. simpl. rewrite length_replicate. lia.
  - intros n Hn. simpl in *. rewrite length_replicate. pose proof pow2_size_ge. lia.
  - done.
  - intros n. simpl. by apply Forall_replicate.
Defined.
Definition example_alloc_32 : PlatAllocExec (H := SizeT_32) := example_alloc (H := SizeT_32).
Definition example_alloc_64 : PlatAllocExec (H := SizeT_64) := example_alloc (H := SizeT_64).

(** The state after initialisation with [n] labels. *)
Definition fresh (n : nat) : mp_asm_base_t :=
  mk_asm_base MP_ASM_PASS_COMPUTE false 0 0 0 [] (Z.of_nat n) (replicate n 0).
Lemma fresh_wf `{SizeT} n : base_wf (fresh n).
Proof.
  pose proof pow2_size_ge. constructor; simpl; try lia; try done.
  - by rewrite length_replicate.
  - apply Forall_replicate. lia.
Qed.

Lemma base_passes_agree_witness : exists b1 b2,
  run_pass (H0 := example_alloc_32) MP_ASM_PASS_EMIT
    (seq_ops (base_exec (H := SizeT_32)) [Align 2; Label 0; SuppressCode; Data 2 7; Label 1; Data 4 9]) b1
  = Ok (tt, b2) /\ code_offset b2 = 4 /\ label_offsets b2 = [0; 0].
Proof.
  destruct (base_passes_agree (H0 := example_alloc_32) [Align 2; Label 0; SuppressCode; Data 2 7; Label 1] 4 9 []
    example_region (mk_asm_base MP_ASM_PASS_COMPUTE false 4 8 0x1000 (replicate 8 0) 2 [0; 0]))
    as (ba & b2 & E & Ho & Hl & _).
  - split; [repeat (apply Forall_cons; split; [simpl; first [done|lia]|]); by apply Forall_nil|].
    split; [by vm_compute|]. split; [apply example_region_wf|by vm_compute].
  - eexists _, b2. split; [exact E|]. split; [exact Ho|exact Hl].
Defined.
