(* ===== verification/Keeps.v ===== *)
(** * Keeps: invariants of the shared state, over any code that uses it

    [keeps I R F m]: started with the shared state in [I], [m] ends with it in
    [I] again and related to the first by [R], or stops at a fault in [F].
    The rules follow the structure of an operation, and [keeps_tac] applies
    them.  Two invariants are instances: [confined], under which the code
    region is written at and after the current offset and inside its bounds,
    and [aligned w], under which instructions of [w] bytes stay aligned. *)

From S2P Require Import Prelude AsmBase TwoPass AsmBaseSpec.

Set Default Goal Selector "!".

Section Keeps.
Context {S : Type} `{!HasBase S}.
Context (I : mp_asm_base_t -> Prop) (R : relation mp_asm_base_t) `{!PreOrder R} (F : fault -> Prop).

Definition keeps {A} (m : M S A) : Prop := forall s, I (base_of s) ->
  match m s with
  | Ok (_, s') => I (base_of s') /\ R (base_of s) (base_of s')
  | Fault f => F f
  end.

Lemma keeps_ret {A} (a : A) : keeps (mret a).
Proof using Type*. by split. Qed.
Lemma keeps_gets {A} (f : S -> A) : keeps (gets f).
Proof using Type*. by split. Qed.
Lemma keeps_modify (f : S -> S) : (forall s, base_of (f s) = base_of s) -> keeps (modify f).
Proof using Type*. intros Hf s Hs. simpl. by rewrite Hf. Qed.
Lemma keeps_fail {A} f : F f -> keeps (fail_with f : M S A).
Proof using Type. by intros Hf s _. Qed.
Lemma keeps_assert (c : bool) w : F (Assertion w) -> keeps (assert_ c w).
Proof using Type*. intros Hf. destruct c; [apply keeps_ret|by apply keeps_fail]. Qed.

Lemma keeps_bind {A B} (m : M S A) (k : A -> M S B) :
  keeps m -> (forall a, keeps (k a)) -> keeps (m ≫= k).
Proof using Type*.
  intros Hm Hk s Hs. specialize (Hm s Hs). unfold mbind, M_bind.
  destruct (m s) as [[a s1]|f]; [|done]. destruct Hm as [H1 R1].
  specialize (Hk a s1 H1). destruct (k a s1) as [[b s2]|f]; [|done].
  destruct Hk as [H2 R2]. split; [done|]. by transitivity (base_of s1).
Qed.

Lemma keeps_ext {A} (m m' : M S A) : (forall s, m' s = m s) -> keeps m -> keeps m'.
Proof using Type. intros E Hm s. rewrite E. apply Hm. Qed.

Lemma keeps_seq_ops {Op} (exec : Op -> M S unit) (ok : Op -> Prop) ops :
  (forall op, ok op -> keeps (exec op)) -> Forall ok ops -> keeps (seq_ops exec ops).
Proof using Type*.
  intros Hop. induction 1 as [|op ops Ho Hops IH]; simpl; [apply keeps_ret|].
  apply keeps_bind; [by apply Hop|done].
Qed.
End Keeps.

(** Operations of asmbase.c, on the state of a back end. *)
Lemma keeps_on_base {S : Type} `{!HasBase S} I R F {A} (m : M mp_asm_base_t A) :
  keeps I R F m -> keeps I R F (on_base (S := S) m).
Proof.
  intros Hm s Hs. specialize (Hm (base_of s) Hs). unfold on_base.
  destruct (m (base_of s)) as [[a b]|f]; [|done]. by rewrite base_of_with.
Qed.

(** ** Confinement to the code region *)

Section Confined.
Context `{SizeT}.

(** Half the address space. *)
Definition half : Z := 2 ^ (size_bits - 1).

(** The region takes at most half the address space, and so does the offset
    in the emit pass, so that no computation with them wraps around.  The
    label table has at least one entry. *)
Record confined (b : mp_asm_base_t) : Prop := {
  confined_wf : base_wf b;
  confined_emit : pass b = MP_ASM_PASS_EMIT -> code_offset b <= half /\ code_size b <= half;
  confined_labels : 0 < max_num_labels b;
}.

(** The region is where and as large as it was.  In the emit pass the offset
    does not go back, and the bytes before it stay; in others all do. *)
Record appends (b b' : mp_asm_base_t) : Prop := {
  appends_pass : pass b' = pass b;
  appends_base : code_base b' = code_base b;
  appends_size : code_size b' = code_size b;
  appends_length : length (code_mem b') = length (code_mem b);
  appends_max : max_num_labels b' = max_num_labels b;
  appends_offset : pass b = MP_ASM_PASS_EMIT -> code_offset b <= code_offset b';
  appends_mem : pass b = MP_ASM_PASS_EMIT ->
    forall i, Z.of_nat i < code_offset b -> code_mem b' !! i = code_mem b !! i;
  appends_dry : pass b <> MP_ASM_PASS_EMIT -> code_mem b' = code_mem b;
}.
#[export] Instance appends_preorder : PreOrder appends.
Proof.
  split; [by intros b; constructor|]. intros b1 b2 b3 [] []. constructor; try congruence.
  - intros Hp. specialize (appends_offset0 Hp). specialize (appends_offset1 ltac:(congruence)). lia.
  - intros Hp i Hi. rewrite appends_mem1 by (congruence || (specialize (appends_offset0 Hp); lia)). by apply appends_mem0.
  - intros Hp. rewrite appends_dry1 by congruence. by apply appends_dry0.
Qed.

Definition no_overrun (f : fault) : Prop := f <> OutOfBounds.
Abbreviation safe := (keeps confined appends no_overrun).

Lemma half_twice : half + half = 2 ^ size_bits.
Proof. unfold half. pose proof size_bits_ge. rewrite (pow2_half size_bits) by lia. lia. Qed.

(** An invariant of the offset and the label table, and the numbers of bytes
    that may be written under it. *)
Class Layout (P : Z -> list Z -> Prop) (W : Z -> Prop) : Prop := {
  layout_size n : W n -> 0 <= n < half;
  layout_write o ls n : P o ls -> W n -> P (usize (o + n)) ls;
  layout_label o ls l : P o ls -> P o (<[l := o]> ls);
}.

Section Layout.
Context (P : Z -> list Z -> Prop) (W : Z -> Prop) `{!Layout P W}.

Record settled (b : mp_asm_base_t) : Prop := {
  settled_confined : confined b;
  settled_layout : P (code_offset b) (label_offsets b);
}.
Abbreviation safe := (keeps settled appends no_overrun).

Lemma offset_wf x b : base_wf b -> base_wf (set_code_offset (usize x) b).
Proof using Type.
  intros []. constructor; simpl; try done. apply uw_range. pose proof size_bits_ge. lia.
Qed.

(** What [mp_asm_base_get_cur_to_write_bytes] decides. *)
Lemma cur_to_write_cases n b : 0 <= n < half -> confined b ->
  let moved := set_code_offset (usize (code_offset b + n)) b in
  (suppress b = true /\ mp_asm_base_get_cur_to_write_bytes n b = Ok (None, b)) \/
  (suppress b = false /\ pass b <> MP_ASM_PASS_EMIT /\ mp_asm_base_get_cur_to_write_bytes n b = Ok (None, moved)) \/
  (suppress b = false /\ pass b = MP_ASM_PASS_EMIT /\ code_offset b + n <= code_size b
   /\ usize (code_offset b + n) = code_offset b + n
   /\ mp_asm_base_get_cur_to_write_bytes n b = Ok (Some (code_offset b), moved)) \/
  exists w, mp_asm_base_get_cur_to_write_bytes n b = Fault (Assertion w).
Proof using Type.
  intros Hn Hc. pose proof half_twice. pose proof (wf_code_offset b (confined_wf b Hc)).
  unfold mp_asm_base_get_cur_to_write_bytes. run_cmd. unfold id.
  destruct (suppress b) eqn:Es; [by left|right].
  destruct (Z.eqb_spec (pass b) MP_ASM_PASS_EMIT) as [Hp|Hp]; [right|by left].
  destruct (confined_emit b Hc Hp) as [Ho Hs]. rewrite (usize_small (code_offset b + n)) by lia.
  destruct (Z.leb_spec (code_offset b + n) (code_size b)); [left|right; by eexists].
  simpl. by rewrite usize_small by lia.
Qed.

(** A call either reserves nothing to write, or the bytes at the offset. *)
Lemma reserved n b : W n -> settled b ->
  match mp_asm_base_get_cur_to_write_bytes n b with
  | Ok (c, b') => settled b' /\ appends b b' /\
      (c = None \/ c = Some (code_offset b) /\ pass b = MP_ASM_PASS_EMIT /\ code_offset b + n <= code_size b)
  | Fault f => no_overrun f
  end.
Proof using Type*.
  intros HW [Hc HP]. pose proof (layout_size n HW) as Hn. pose proof (confined_wf b Hc) as Hwf.
  set (moved := set_code_offset (usize (code_offset b + n)) b).
  assert (base_wf moved) as Hwf' by (by apply offset_wf).
  assert (P (code_offset moved) (label_offsets moved)) as HP' by (by apply layout_write).
  destruct (cur_to_write_cases n b Hn Hc) as [(Es & ->)|[(Es & Hp & ->)|[(Es & Hp & Hle & Hu & ->)|(w & ->)]]];
    fold moved; [..|done].
  - split; [done|]. split; [reflexivity|by left].
  - split; [constructor; [|done]|split; [by constructor|by left]].
    constructor; [done|done|apply Hc].
  - destruct (confined_emit b Hc Hp) as [Ho Hs]. split; [constructor; [|done]|split; [|by right]].
    + constructor; [done|simpl; lia|apply Hc].
    + constructor; simpl; intros; try done; lia.
Qed.

(** Stores into reserved bytes. *)
Lemma store_reserved vs b0 b : Forall is_byte vs -> settled b -> appends b0 b ->
  pass b0 = MP_ASM_PASS_EMIT -> code_offset b0 + Z.of_nat (length vs) <= code_size b0 -> 0 <= code_offset b0 ->
  match store_bytes (code_offset b0) vs b with
  | Ok (_, b') => settled b' /\ appends b0 b'
  | Fault f => no_overrun f
  end.
Proof using Type.
  intros Hvs [[Hwf He Hl] HP] [] Hp Hle H0. pose proof (wf_code_size b Hwf) as Hs.
  rewrite store_bytes_ok by (done || lia). split.
  - constructor; [|done]. constructor; [|done|done]. destruct Hwf. constructor; simpl; try done.
    + by rewrite length_inserts.
    + by apply Forall_list_inserts.
  - constructor; simpl; try done.
    + by rewrite length_inserts.
    + intros _ i Hi. rewrite list_lookup_inserts_lt by lia. by apply appends_mem0.
Qed.

Lemma safe_patched {S : Type} `{!HasBase S} n (m : M S unit) (f : Z -> Z -> list Z) : W n -> keeps settled appends no_overrun m ->
  (forall o o', Forall is_byte (f o o') /\ Z.of_nat (length (f o o')) = n) -> keeps settled appends no_overrun (patched n m f).
Proof using Type*.
  intros HW Hm Hf s Hs. pose proof (reserved n (base_of s) HW Hs) as Hr.
  pose proof (wf_code_offset _ (confined_wf _ (settled_confined _ Hs))) as Ho.
  unfold patched. rewrite gets_bind. unfold mbind, M_bind, cur_to_write_bytes, on_base.
  destruct (mp_asm_base_get_cur_to_write_bytes n (base_of s)) as [[c b1]|]; [|done].
  destruct Hr as (H1 & R1 & Hc). specialize (Hm (with_base b1 s)). rewrite base_of_with in Hm.
  specialize (Hm H1). destruct (m (with_base b1 s)) as [[[] s2]|]; [|done]. destruct Hm as [H2 R2].
  assert (appends (base_of s) (base_of s2)) as R02 by (by transitivity b1).
  destruct Hc as [-> | (-> & Hp & Hle)]; simpl; [done|].
  destruct (Hf (code_offset (base_of s)) (code_offset (base_of s2))) as [Hb Hlen].
  pose proof (store_reserved _ (base_of s) (base_of s2) Hb H2 R02 Hp ltac:(lia) ltac:(lia)) as K.
  destruct (store_bytes _ _ _) as [[u b']|]; [|done]. by rewrite base_of_with.
Qed.

Lemma safe_write vs : Forall is_byte vs -> W (Z.of_nat (length vs)) -> safe (write vs).
Proof using Type*.
  intros Hvs HW b Hs. cbn [base_of HasBase_self] in *. pose proof (reserved _ b HW Hs) as Hr.
  pose proof (wf_code_offset _ (confined_wf _ (settled_confined _ Hs))) as Ho.
  unfold write, mbind, M_bind. destruct (mp_asm_base_get_cur_to_write_bytes _ b) as [[c b1]|]; [|done].
  destruct Hr as (H1 & R1 & [-> | (-> & Hp & Hle)]); [by split|].
  apply store_reserved; done || lia.
Qed.

Lemma safe_put_array {S : Type} `{!HasBase S} vs : Forall is_byte vs -> W (Z.of_nat (length vs)) ->
  keeps settled appends no_overrun (put_array (S := S) cur_to_write_bytes vs).
Proof using Type*.
  intros Hvs Hn. apply (keeps_ext _ _ _ (on_base (write vs))); [intros s; apply put_array_write|].
  by apply keeps_on_base, safe_write.
Qed.

(** The other operations of asmbase.c. *)
Lemma safe_data n v : W n -> safe (mp_asm_base_data n v).
Proof using Type*.
  intros HW. pose proof (layout_size n HW). apply (keeps_ext _ _ _ (write (le_bytes (Z.to_nat n) v))).
  { intros s. apply mp_asm_base_data_write. lia. }
  apply safe_write; [apply le_bytes_is_byte|]. by rewrite length_le_bytes, Z2Nat.id by lia.
Qed.

Lemma safe_label l : 0 <= l -> safe (mp_asm_base_label_assign l).
Proof using Type*.
  intros Hl b [Hc HP]. cbn [base_of HasBase_self] in *.
  pose proof (confined_wf b Hc) as Hwf. pose proof (wf_code_offset b Hwf) as Ho.
  rewrite (label_spec l b Hwf Hl). cbv zeta.
  destruct (l <? max_num_labels b); [|done]. destruct (pass b <? MP_ASM_PASS_EMIT).
  - destruct (_ =? _); [|done]. split; [constructor|by constructor]; [|by apply layout_label].
    constructor; [by apply suppress_wf, assign_wf|apply Hc|apply Hc].
  - destruct (_ =? _); [|done]. split; [constructor; [|done]|by constructor].
    constructor; [by apply suppress_wf|apply Hc|apply Hc].
Qed.

Lemma safe_suppress : safe mp_asm_base_suppress_code.
Proof using Type.
  intros b [Hc HP]. split; [constructor; [|done]|by constructor].
  constructor; [by apply suppress_wf, Hc|apply Hc|apply Hc].
Qed.

Lemma safe_align k : 0 <= k < 32 ->
  (forall o ls, P o ls -> P (usize (usize (o + 2 ^ k - 1) .& Z.lnot (u32 (2 ^ k - 1)))) ls) ->
  safe (mp_asm_base_align (2 ^ k)).
Proof using Type.
  intros Hk HPk b [Hc HP]. cbn [base_of HasBase_self] in *.
  pose proof (confined_wf b Hc) as Hwf. pose proof (wf_code_offset b Hwf) as Ho.
  pose proof half_twice. pose proof (Z.pow_pos_nonneg 2 k ltac:(lia) ltac:(lia)).
  assert (forall b', mp_asm_base_align (2 ^ k) b = Ok (tt, b') -> P (code_offset b') (label_offsets b')) as HP'.
  { unfold mp_asm_base_align. run_cmd. intros b' [= <-]. by apply HPk. }
  destruct (decide (pass b = MP_ASM_PASS_EMIT)) as [Hp|Hp].
  - destruct (confined_emit b Hc Hp) as [Hoff Hs]. pose proof size_bits_ge.
    assert ((2 ^ k | half)) as [q Hq].
    { exists (2 ^ (size_bits - 1 - k)). unfold half. rewrite <- Z.pow_add_r by lia. f_equal. lia. }
    assert (2 ^ k <= half) by (apply Z.pow_le_mono_r; lia).
    rewrite (mp_asm_base_align_up k b) in * by (done || lia). specialize (HP' _ eq_refl).
    destruct (align_up_least (code_offset b) k) as [[p Hp'] Hr]; [lia..|].
    fold (align_up k (code_offset b)) in Hp', Hr.
    assert (align_up k (code_offset b) <= half) as Hle.
    { rewrite Hq. rewrite Hp' in *. apply Z.mul_le_mono_nonneg_r; [lia|]. nia. }
    split; [constructor; [|done]|by constructor; simpl; intros; try done; lia].
    constructor; [|done|apply Hc]. destruct Hwf. constructor; simpl; try done. lia.
  - unfold mp_asm_base_align in *. run_cmd. specialize (HP' _ eq_refl).
    split; [constructor; [|done]|by constructor].
    constructor; simpl; [by apply offset_wf|done|apply Hc].
Qed.

Lemma safe_code_pos : safe mp_asm_base_get_code_pos.
Proof using Type. apply keeps_gets, appends_preorder. Qed.
Lemma safe_label_dest l : safe (label_dest l).
Proof using Type.
  intros b Hs. pose proof (settled_confined b Hs) as Hc. cbn [base_of HasBase_self] in *.
  pose proof (wf_labels b (confined_wf b Hc)). pose proof (confined_labels b Hc).
  unfold label_dest. run_cmd. unfold id. destruct (Z.ltb_spec l (max_num_labels b)); [|done].
  destruct (lookup_lt_is_Some_2 (label_offsets b) (Z.to_nat l)) as [x ->]; [lia|]. simpl. split; [done|reflexivity].
Qed.

(** What the operations need of their arguments. *)
Definition settled_op (op : base_op) : Prop :=
  match op with
  | Data n _ => W n
  | Label l => 0 <= l
  | Align k => 0 <= k < 32 /\
      forall o ls, P o ls -> P (usize (usize (o + 2 ^ k - 1) .& Z.lnot (u32 (2 ^ k - 1)))) ls
  | SuppressCode => True
  end.
Lemma safe_shared op : settled_op op -> safe (base_exec op).
Proof using Type*.
  destruct op; simpl; [apply safe_data|apply safe_label|intros []; by apply safe_align|intros _; apply safe_suppress].
Qed.
End Layout.
End Confined.
(** Goals [keeps I R F m], along the structure of [m]: functions are unfolded
    as they are met; [fault] proves that a fault is allowed, [size] that a
    number of bytes is. *)
Create HintDb keeps discriminated.
#[export] Hint Constants Opaque : keeps.
#[export] Hint Resolve safe_shared safe_code_pos safe_label_dest keeps_on_base : keeps.

Ltac head_of t := lazymatch t with ?f _ => head_of f | _ => t end.
Ltac keeps_tac fault size :=
  first [solve [eauto with keeps nocore] |
  lazymatch goal with
  | |- keeps _ _ _ (_ ≫= _) => apply keeps_bind; [typeclasses eauto|keeps_tac fault size|intros ?; keeps_tac fault size]
  | |- keeps _ _ _ (mret _) => apply keeps_ret; typeclasses eauto
  | |- keeps _ _ _ (gets _) => apply keeps_gets; typeclasses eauto
  | |- keeps _ _ _ (modify _) => apply keeps_modify; [typeclasses eauto|done]
  | |- keeps _ _ _ (assert_ _ _) => apply keeps_assert; [typeclasses eauto|fault]
  | |- keeps _ _ _ (fail_with _) => apply keeps_fail; fault
  | |- keeps _ _ _ (put_array _ _) => eapply safe_put_array; [typeclasses eauto|bytes_tac|size]
  | |- keeps _ _ _ (if ?c then _ else _) => destruct c; keeps_tac fault size
  | |- keeps _ _ _ (let '(_, _) := ?e in _) => destruct e; keeps_tac fault size
  | |- keeps _ _ _ (match ?e with None => _ | Some _ => _ end) => destruct e; keeps_tac fault size
  | |- keeps _ _ _ (let _ := _ in _) => cbv zeta; keeps_tac fault size
  | |- keeps _ _ _ ?m => let f := head_of m in unfold f; cbv beta; keeps_tac fault size
  end].


(** ** Two layouts *)

Section Instances.
Context `{SizeT}.

(** Nothing is asked of the offset. *)
Definition anywhere (o : Z) (ls : list Z) : Prop := True.
Definition any_size (n : Z) : Prop := 0 <= n < half.
#[export] Instance layout_anywhere : Layout anywhere any_size.
Proof. by constructor. Qed.

(** The label table has at least [n] entries. *)
Definition has_labels (n : nat) (P : Z -> list Z -> Prop) (o : Z) (ls : list Z) : Prop :=
  P o ls /\ (n <= length ls)%nat.
#[export] Instance layout_has_labels n P W : Layout P W -> Layout (has_labels n P) W.
Proof.
  intros HP. constructor; [apply HP|..]; unfold has_labels.
  - intros o ls k [] ?. split; [by eapply layout_write|done].
  - intros o ls l []. rewrite length_insert. split; [by eapply layout_label|done].
Qed.

Lemma labels_settled n P W op : settled_op P W op -> settled_op (has_labels n P) W op.
Proof. destruct op; simpl; try done. intros [? HP]. split; [done|]. intros o ls []. by split; [apply HP|]. Qed.

(** Instructions, and the labels recorded, at multiples of [2 ^ j]. *)
Definition aligned (j o : Z) (ls : list Z) : Prop :=
  (2 ^ j | o) /\ Forall (fun x => x = unassigned \/ (2 ^ j | x)) ls.
Definition aligned_size (j n : Z) : Prop := 0 <= n < half /\ (2 ^ j | n).

Lemma divide_usize j x : 0 <= j <= 32 -> (2 ^ j | x) -> (2 ^ j | usize x).
Proof.
  intros Hj Hx. pose proof size_bits_ge. unfold usize, uw. rewrite Z.mod_eq by (apply Z.pow_nonzero; lia).
  apply Z.divide_sub_r; [done|]. apply Z.divide_mul_l.
  exists (2 ^ (size_bits - j)). rewrite <- Z.pow_add_r by lia. f_equal. lia.
Qed.

Lemma layout_aligned j : 0 <= j <= 32 -> Layout (aligned j) (aligned_size j).
Proof.
  intros Hj. constructor.
  - by intros n [].
  - intros o ls n [Ho Hls] [_ Hn]. split; [|done]. by apply divide_usize; [|apply Z.divide_add_r].
  - intros o ls l [Ho Hls]. split; [done|]. apply Forall_insert; [done|by right].
Qed.

Lemma aligned_align j k o ls : 0 <= j <= k -> k < 32 -> aligned j o ls ->
  aligned j (usize (usize (o + 2 ^ k - 1) .& Z.lnot (u32 (2 ^ k - 1)))) ls.
Proof.
  intros Hj Hk [Ho Hls]. split; [|done]. apply divide_usize; [lia|].
  pose proof (Z.pow_pos_nonneg 2 k ltac:(lia) ltac:(lia)).
  assert (2 ^ k < 2 ^ 32) by (apply Z.pow_lt_mono_r; lia). rewrite (uw_small 32) by lia.
  rewrite (Z.sub_1_r (2 ^ k)), <- Z.ones_equiv, <- Z.ldiff_land, Z.ldiff_ones_r by lia.
  rewrite Z.shiftl_mul_pow2 by lia. apply Z.divide_mul_r.
  exists (2 ^ (k - j)). rewrite <- Z.pow_add_r by lia. f_equal. lia.
Qed.

(** The shared operations that fit each. *)
Definition inside_op (op : base_op) : Prop :=
  match op with
  | Data n _ => 0 <= n < half | Label l => 0 <= l | Align k => 0 <= k < 32 | SuppressCode => True
  end.
Lemma inside_settled op : inside_op op -> settled_op anywhere any_size op.
Proof. by destruct op. Qed.

Definition aligned_op (j : Z) (op : base_op) : Prop :=
  match op with
  | Data n _ => 0 <= n < half /\ (2 ^ j | n) | Label l => 0 <= l | Align k => j <= k < 32 | SuppressCode => True
  end.
Lemma aligned_settled j op : 0 <= j -> aligned_op j op -> settled_op (aligned j) (aligned_size j) op.
Proof.
  intros Hj. destruct op; simpl; try done. intros Hk. split; [lia|]. intros o ls. apply aligned_align; lia.
Qed.
End Instances.
