(* ===== verification/Machine.v ===== *)
(** * Machine: what the instruction set specifications share

    A register file, a program counter and a byte memory; little-endian loads
    and stores; code as bytes at addresses; and runs, the iteration of an
    instruction set's step function.  Addresses and registers are words of the
    width [W] the instruction set fixes. *)

From S2P Require Import Prelude.

Set Default Goal Selector "!".

Record machine := mk_machine {
  regs : gmap Z Z;
  pc : Z;
  mem : gmap Z Z;
}.

Definition reg (r : Z) (m : machine) : Z := default 0 (regs m !! r).
Definition set_reg (r v : Z) (m : machine) : machine :=
  mk_machine (<[r := v]> (regs m)) (pc m) (mem m).
Definition set_pc (a : Z) (m : machine) : machine := mk_machine (regs m) a (mem m).
Definition set_mem (h : gmap Z Z) (m : machine) : machine := mk_machine (regs m) (pc m) h.

Section Memory.
Context (W : Z).

(** The byte at address [a]. *)
Definition peek (h : gmap Z Z) (a : Z) : Z := default 0 (h !! uw W a).

Fixpoint load (n : nat) (h : gmap Z Z) (a : Z) : Z :=
  match n with
  | O => 0
  | S n => peek h a .| (load n h (a + 1) << 8)
  end.

Fixpoint store (n : nat) (h : gmap Z Z) (a v : Z) : gmap Z Z :=
  match n with
  | O => h
  | S n => store n (<[uw W a := u8 v]> h) (a + 1) (v >> 8)
  end.

(** The bytes [bs] lie in [code] from address [a] on. *)
Definition code_at (code : Z -> Z) (a : Z) (bs : list Z) : Prop :=
  forall i b, bs !! i = Some b -> code (uw W (a + Z.of_nat i)) = b.

(** The [n] bytes of [code] from address [a] on. *)
Definition window (code : Z -> Z) (a : Z) (n : nat) : list Z :=
  (fun i => code (uw W (a + Z.of_nat i))) <$> seq 0 n.

Lemma code_at_app code a bs cs :
  code_at code a (bs ++ cs) <->
  code_at code a bs /\ code_at code (a + Z.of_nat (length bs)) cs.
Proof using.
  unfold code_at. split.
  - intros Hc. split; intros i b Hb.
    + apply Hc. by apply lookup_app_l_Some.
    + rewrite <- Z.add_assoc, <- Nat2Z.inj_add. apply Hc.
      rewrite lookup_app_r by lia. by replace (_ + i - _)%nat with i by lia.
  - intros [H1 H2] i b [Hb|[Hl Hb]]%lookup_app_Some; [auto|].
    specialize (H2 _ _ Hb). rewrite <- H2. f_equal. f_equal. lia.
Qed.

Lemma code_at_window code a bs n : code_at code a bs -> (length bs <= n)%nat ->
  exists rest, window code a n = bs ++ rest.
Proof using.
  intros Hc Hn. exists (drop (length bs) (window code a n)).
  assert (bs = take (length bs) (window code a n)) as E.
  { apply list_eq. intros i. destruct (decide (i < length bs)%nat) as [Hi|Hi].
    - destruct (lookup_lt_is_Some_2 bs i Hi) as [b Hb]. rewrite Hb. symmetry.
      rewrite lookup_take_lt by done. unfold window. rewrite list_lookup_fmap.
      rewrite lookup_seq_lt by lia. simpl. f_equal. by apply Hc.
    - rewrite !lookup_ge_None_2; [done| |lia].
      rewrite length_take. unfold window. rewrite length_fmap, length_seq. lia. }
  rewrite E at 1. by rewrite take_drop.
Qed.

Lemma code_at_uw code a bs : 0 < W -> code_at code (uw W a) bs <-> code_at code a bs.
Proof using.
  intros. unfold code_at. split; intros Hc i b Hb; rewrite <- (Hc i b Hb);
    by rewrite uw_add_l.
Qed.
End Memory.

(** ** Runs of a step function *)

Section Runs.
Context (step : machine -> option machine).

Fixpoint run (n : nat) (m : machine) : option machine :=
  match n with
  | O => Some m
  | S n => m' ← step m; run n m'
  end.

Definition runs (m m' : machine) : Prop := exists n, run n m = Some m'.

Lemma runs_refl m : runs m m.
Proof using. by exists 0%nat. Qed.

Lemma runs_step m m1 m' : step m = Some m1 -> runs m1 m' -> runs m m'.
Proof using. intros Hs [n Hn]. exists (S n). simpl. by rewrite Hs. Qed.

Lemma runs_one m m' : step m = Some m' -> runs m m'.
Proof using. intros. eapply runs_step; [done | apply runs_refl]. Qed.

Lemma runs_trans m m1 m' : runs m m1 -> runs m1 m' -> runs m m'.
Proof using.
  intros [n Hn]. revert m Hn. induction n as [|n IH]; simpl; intros m Hn Hr.
  - by injection Hn as ->.
  - destruct (step m) as [m2|] eqn:Hs; [|done]. eapply runs_step; [done|]. by apply IH.
Qed.
End Runs.

(** ** Registers *)

Lemma reg_set_eq r v m : reg r (set_reg r v m) = v.
Proof. unfold reg. simpl. by rewrite lookup_insert_eq. Qed.
Lemma reg_set_ne r q v m : r <> q -> reg r (set_reg q v m) = reg r m.
Proof. intros. unfold reg. simpl. by rewrite lookup_insert_ne. Qed.
Lemma reg_set_pc r a m : reg r (set_pc a m) = reg r m.
Proof. done. Qed.
Lemma reg_set_mem r h m : reg r (set_mem h m) = reg r m.
Proof. done. Qed.
Lemma pc_set_pc a m : pc (set_pc a m) = a.
Proof. done. Qed.
Lemma pc_set_mem h m : pc (set_mem h m) = pc m.
Proof. done. Qed.
Lemma mem_set_pc a m : mem (set_pc a m) = mem m.
Proof. done. Qed.
Lemma mem_set_mem h m : mem (set_mem h m) = h.
Proof. done. Qed.
Lemma set_mem_set_pc h a m : set_mem h (set_pc a m) = set_pc a (set_mem h m).
Proof. done. Qed.
Lemma set_pc_set_pc a b m : set_pc a (set_pc b m) = set_pc a m.
Proof. done. Qed.
#[export] Hint Rewrite reg_set_eq reg_set_pc reg_set_mem pc_set_pc pc_set_mem mem_set_pc
  mem_set_mem set_mem_set_pc set_pc_set_pc : machine.
#[export] Hint Rewrite reg_set_ne using (done || lia) : machine.

(** All registers but those of [X], and the memory, are the same. *)
Definition same_except (X : list Z) (m m' : machine) : Prop :=
  (forall r, r ∉ X -> reg r m' = reg r m) /\ mem m' = mem m.

(** ** Instruction sets *)

(** A decoder of the instruction at the start of a byte string, with its
    length, and the effect of an instruction of a given length on the machine
    whose program counter is at it. *)
Class Isa := {
  insn : Type;
  addr_width : Z;
  addr_width_pos : 0 < addr_width;
  max_len : nat;
  decode : list Z -> option (insn * Z);
  exec : insn -> Z -> machine -> option machine;
  decode_app bs rest i n : decode bs = Some (i, n) -> decode (bs ++ rest) = Some (i, n);
}.

Section Disassembly.
Context `{Isa}.
Implicit Types (bs : list Z) (ins : list (insn * Z)).

(** One step, the instruction being fetched from [code]. *)
Definition step (code : Z -> Z) (m : machine) : option machine :=
  '(i, len) ← decode (window addr_width code (pc m) max_len);
  exec i len m.

(** [bs] is the encoding of the instructions [ins], one after the other. *)
Inductive disasm : list Z -> list (insn * Z) -> Prop :=
| disasm_nil : disasm [] []
| disasm_cons bs i len rest ins :
    decode bs = Some (i, len) -> len = Z.of_nat (length bs) ->
    (length bs <= max_len)%nat -> disasm rest ins ->
    disasm (bs ++ rest) ((i, len) :: ins).

Lemma disasm_one bs i len : decode bs = Some (i, len) -> len = Z.of_nat (length bs) ->
  (length bs <= max_len)%nat -> disasm bs [(i, len)].
Proof using. intros. rewrite <- (app_nil_r bs). by repeat constructor. Qed.

Lemma disasm_app bs cs ins js : disasm bs ins -> disasm cs js -> disasm (bs ++ cs) (ins ++ js).
Proof using.
  induction 1; intros; simpl; [done|]. rewrite <- app_assoc. by constructor; auto.
Qed.

Definition code_len ins : Z := foldr (fun x n => x.2 + n) 0 ins.

Lemma disasm_length bs ins : disasm bs ins -> Z.of_nat (length bs) = code_len ins.
Proof using.
  induction 1; simpl; [done|]. rewrite length_app. lia.
Qed.

Lemma disasm_take bs ins k : disasm bs ins ->
  exists bs1 bs2, bs = bs1 ++ bs2 /\ disasm bs1 (take k ins).
Proof using.
  intros Hd. revert k. induction Hd as [|bs i len rest ins Hdec Hlen Hmax Hd IH]; intros k.
  - exists [], []. rewrite take_nil. by split; [|constructor].
  - destruct k as [|k]; [exists [], (bs ++ rest); by split; [|constructor]|].
    destruct (IH k) as (bs1 & bs2 & -> & Hd1). exists (bs ++ bs1), bs2.
    rewrite app_assoc. split; [done|]. by constructor.
Qed.

(** Straight-line execution: all but the last instruction fall through. *)
Fixpoint exec_straight ins (m : machine) : option machine :=
  match ins with
  | [] => Some m
  | (i, len) :: rest =>
      m' ← exec i len m;
      match rest with
      | [] => Some m'
      | _ => if pc m' =? uw addr_width (pc m + len) then exec_straight rest m' else None
      end
  end.

Lemma exec_straight_cons i len ins m m' :
  exec i len m = Some m' -> pc m' = uw addr_width (pc m + len) ->
  exec_straight ((i, len) :: ins) m = exec_straight ins m'.
Proof using.
  intros He Hpc. simpl. rewrite He. simpl. rewrite Hpc, Z.eqb_refl. by destruct ins.
Qed.

Lemma step_insn code m bs i len :
  code_at addr_width code (pc m) bs -> decode bs = Some (i, len) ->
  (length bs <= max_len)%nat -> step code m = exec i len m.
Proof using.
  intros Hc Hd Hl. unfold step.
  destruct (code_at_window _ _ _ _ _ Hc Hl) as [rest ->].
  by rewrite (decode_app _ _ _ _ Hd).
Qed.

(** Executing the decoded instructions is running the machine on their
    bytes. *)
Lemma runs_straight code bs ins : disasm bs ins -> forall m m',
  code_at addr_width code (pc m) bs -> exec_straight ins m = Some m' ->
  runs (step code) m m'.
Proof using.
  induction 1 as [|bs i len rest ins Hd Hlen Hmax Hrest IH]; intros m m' Hc He; simpl in He.
  - injection He as ->. apply runs_refl.
  - apply code_at_app in Hc as [Hc1 Hc2].
    destruct (exec i len m) as [m1|] eqn:Hx; [|done]. simpl in He.
    eapply runs_step; [by erewrite step_insn|].
    destruct ins as [|ii ins]; [injection He as ->; apply runs_refl|].
    destruct (Z.eqb_spec (pc m1) (uw addr_width (pc m + len))) as [Hpc|]; [|done].
    apply IH; [|done]. rewrite Hpc, code_at_uw by apply addr_width_pos. by subst len.
Qed.
End Disassembly.

(** ** Loads and stores *)

Section LoadStore.
Context (W : Z) (W_pos : 0 < W).
Implicit Types (h : gmap Z Z) (a x v : Z) (n : nat).

Lemma peek_cong h a b : uw W a = uw W b -> peek W h a = peek W h b.
Proof using. unfold peek. by intros ->. Qed.

Lemma load_ext n h h' a b :
  (forall i, (i < n)%nat -> peek W h (a + Z.of_nat i) = peek W h' (b + Z.of_nat i)) ->
  load W n h a = load W n h' b.
Proof using.
  revert a b. induction n as [|n IH]; intros a b Hp; simpl; [done|]. f_equal.
  - specialize (Hp 0%nat). rewrite !Z.add_0_r in Hp. apply Hp. lia.
  - f_equal. apply IH. intros i Hi. specialize (Hp (S i)).
    rewrite Nat2Z.inj_succ, <- !Z.add_1_l, !Z.add_assoc in Hp. apply Hp. lia.
Qed.

(** A word of the code that is in memory. *)
Lemma load_code h bs a : code_at W (peek W h) a bs -> load W (length bs) h a = le_word bs.
Proof using W_pos.
  revert a. induction bs as [|b bs IH]; intros a Hc; [done|]. cbn [length].
  change (load W (S (length bs)) h a) with (peek W h a .| (load W (length bs) h (a + 1) << 8)).
  rewrite IH.
  - pose proof (Hc 0%nat b eq_refl) as Hb. rewrite Z.add_0_r in Hb.
    unfold peek in *. rewrite uw_uw in Hb by done. by rewrite Hb.
  - intros i x Hi. rewrite <- (Hc (S i) x Hi). f_equal. f_equal. lia.
Qed.
Lemma load_cong n h a b : uw W a = uw W b -> load W n h a = load W n h b.
Proof using W_pos.
  intros E. apply load_ext. intros i _. apply peek_cong.
  by rewrite <- uw_add_l, E, uw_add_l.
Qed.

Lemma store_cong n h a b v : uw W a = uw W b -> store W n h a v = store W n h b v.
Proof using W_pos.
  revert h a b v. induction n as [|n IH]; intros h a b v E; simpl; [done|]. rewrite E.
  apply IH. by rewrite <- uw_add_l, E, uw_add_l.
Qed.

(** Byte [d] of the stored value is read back [d] bytes after the address;
    the other bytes are as they were. *)
Lemma peek_store n h a v x : Z.of_nat n <= 2 ^ W ->
  peek W (store W n h a v) x
  = if uw W (x - a) <? Z.of_nat n then u8 (v >> (8 * uw W (x - a))) else peek W h x.
Proof using W_pos.
  revert h a v. induction n as [|n IH]; intros h a v Hn; simpl store.
  { pose proof (uw_range W W_pos (x - a)). by rewrite ltb_false by lia. }
  rewrite IH by lia. pose proof (uw_range W W_pos (x - a)) as Hr.
  destruct (decide (uw W (x - a) = 0)) as [E|Hne].
  - replace (uw W (x - (a + 1))) with (2 ^ W - 1).
    2: { rewrite <- (uw_small W (2 ^ W - 1)) by (pose proof (pow2_pos W W_pos); lia).
         symmetry. apply uw_eq_iff; [done|].
         destruct (proj1 (uw_eq_iff W W_pos (x - a) 0)) as [k Hk]; [rewrite E; by rewrite uw_small by (pose proof (pow2_pos W W_pos); lia)|].
         exists (k - 1). lia. }
    rewrite ltb_false by lia. rewrite E, ltb_true by lia. rewrite Z.shiftr_0_r.
    unfold peek. replace (uw W x) with (uw W a); [by rewrite lookup_insert_eq|].
    apply uw_eq_iff; [done|].
    destruct (proj1 (uw_eq_iff W W_pos (x - a) 0)) as [k Hk]; [rewrite E; by rewrite uw_small by (pose proof (pow2_pos W W_pos); lia)|].
    exists (- k). lia.
  - replace (uw W (x - (a + 1))) with (uw W (x - a) - 1).
    2: { rewrite <- (uw_small W (uw W (x - a) - 1)) by lia.
         rewrite uw_sub_l by done. f_equal. lia. }
    destruct (Z.ltb_spec (uw W (x - a) - 1) (Z.of_nat n));
      destruct (Z.ltb_spec (uw W (x - a)) (Z.of_nat (S n))); try lia.
    + rewrite Z.shiftr_shiftr by lia. do 2 f_equal. lia.
    + unfold peek. rewrite lookup_insert_ne; [done|]. intros E. apply Hne.
      rewrite <- uw_sub_l, <- E, uw_sub_l, Z.sub_diag by done. by apply uw_small; pose proof (pow2_pos W W_pos); lia.
Qed.

Lemma load_store_same n h a v : Z.of_nat n <= 2 ^ W ->
  load W n (store W n h a v) a = uw (8 * Z.of_nat n) v.
Proof using W_pos.
  intros Hn. rewrite <- le_word_le_bytes.
  assert (forall i m w, (i + m <= n)%nat -> w = v >> (8 * Z.of_nat i) ->
    load W m (store W n h a v) (a + Z.of_nat i) = le_word (le_bytes m w)) as Hgen.
  { intros i m. revert i. induction m as [|m IH]; intros i w Hi ->; simpl; [done|].
    rewrite peek_store by done.
    replace (uw W (a + Z.of_nat i - a)) with (Z.of_nat i)
      by (rewrite Z.add_simpl_l; symmetry; apply uw_small; lia).
    rewrite ltb_true by lia. do 2 f_equal.
    replace (a + Z.of_nat i + 1) with (a + Z.of_nat (S i)) by lia. apply IH; [lia|].
    rewrite Z.shiftr_shiftr by lia. f_equal. lia. }
  specialize (Hgen 0%nat n v). rewrite Z.add_0_r in Hgen. apply Hgen; [lia|].
  by rewrite Z.shiftr_0_r.
Qed.

(** The [m] bytes at [x] and the [n] bytes at [a] do not overlap. *)
Definition disjoint_bytes (m : nat) x n a : Prop :=
  Z.of_nat n <= uw W (x - a) /\ uw W (x - a) + Z.of_nat m <= 2 ^ W.

Lemma load_store_other m n h a v x : Z.of_nat n <= 2 ^ W -> disjoint_bytes m x n a ->
  load W m (store W n h a v) x = load W m h x.
Proof using W_pos.
  intros Hn [H1 H2]. apply load_ext. intros i Hi. rewrite peek_store by done.
  replace (uw W (x + Z.of_nat i - a)) with (uw W (x - a) + Z.of_nat i).
  - by rewrite ltb_false by lia.
  - pose proof (uw_range W W_pos (x - a)). rewrite <- (uw_small W (_ + _)) by lia.
    rewrite uw_add_l by done. f_equal. lia.
Qed.
End LoadStore.

(** ** Words of 32 bits, one after the other *)

Fixpoint store_words (a : Z) (vs : list Z) (h : gmap Z Z) : gmap Z Z :=
  match vs with [] => h | v :: vs => store_words (a + 4) vs (store 32 4 h a v) end.

Section Words.
Implicit Types (vs : list Z).

Lemma store_words_other vs : forall a h x, 4 * Z.of_nat (length vs) <= u32 (x - a) ->
  peek 32 (store_words a vs h) x = peek 32 h x.
Proof using.
  induction vs as [|v vs IH]; intros a h x Hx; [done|]. cbn [store_words length] in *.
  pose proof (uw_range 32 eq_refl (x - a)).
  assert (u32 (x - (a + 4)) = u32 (x - a) - 4) as E.
  { rewrite <- (uw_small 32 (u32 (x - a) - 4)) by lia. rewrite uw_sub_l by done. f_equal. lia. }
  rewrite IH by lia. rewrite peek_store by (done || pow_lia). by rewrite ltb_false by lia.
Qed.
Lemma store_words_load vs : forall a h i v, 4 * Z.of_nat (length vs) <= 2 ^ 32 -> vs !! i = Some v ->
  load 32 4 (store_words a vs h) (a + 4 * Z.of_nat i) = u32 v.
Proof using.
  induction vs as [|w vs IH]; intros a h i v Hl Hi; [done|]. cbn [store_words length] in *.
  destruct i as [|i]; simpl in Hi.
  - injection Hi as ->. rewrite Z.add_0_r.
    transitivity (load 32 4 (store 32 4 h a v) a); [|by apply load_store_same].
    apply load_ext. intros k Hk. apply store_words_other.
    replace (a + Z.of_nat k - (a + 4)) with (Z.of_nat k - 4) by lia.
    replace (u32 (Z.of_nat k - 4)) with (2 ^ 32 + (Z.of_nat k - 4)) by (clear -Hk; word_lia). lia.
  - replace (a + 4 * Z.of_nat (S i)) with (a + 4 + 4 * Z.of_nat i) by lia. apply IH; [lia|done].
Qed.
End Words.

#[global] Arguments store : simpl never.
#[global] Arguments load : simpl never.
