(* ===== verification/Rv32Isa.v ===== *)
(** * Rv32Isa: the instruction set asmrv32 targets

    A decoder and an executor for the part of RV32IMC, Zba and Zcmp that the
    back end emits.  The instruction formats and immediates follow
    bank/QEMU-Targets/riscv/insn16.decode and insn32.decode, and the effects
    insn_trans/trans_rvi.c.inc, trans_rvm.c.inc, trans_rvb.c.inc and
    trans_rvzce.c.inc; encodings that need other extensions (F, D, Q, Zcb,
    Zicfiss, RV64) and system instructions have no effect here ([None]). *)

From S2P Require Import Prelude Machine.

Set Default Goal Selector "!".

Inductive rop :=
| ADD | SUB | SLL | SLT | SLTU | XOR | SRL | SRA | OR | AND
| MUL | MULH | MULHSU | MULHU | DIV | DIVU | REM | REMU
| SH1ADD | SH2ADD | SH3ADD.
Inductive iop := ADDI | SLTI | SLTIU | XORI | ORI | ANDI | SLLI | SRLI | SRAI.
Inductive bop := BEQ | BNE | BLT | BGE | BLTU | BGEU.
Inductive lop := LB | LH | LW | LBU | LHU.
Inductive sop := SB | SH | SW.
Inductive csrop := CSRRW | CSRRS | CSRRC | CSRRWI | CSRRSI | CSRRCI.

(** Immediates are signed, offsets included; [LUI] and [AUIPC] carry the
    shifted value. *)
Inductive rv32_instr :=
| R (op : rop) (rd rs1 rs2 : Z)
| I (op : iop) (rd rs1 imm : Z)
| LOAD (op : lop) (rd rs1 imm : Z)
| STORE (op : sop) (rs1 rs2 imm : Z)
| BRANCH (op : bop) (rs1 rs2 imm : Z)
| LUI (rd imm : Z)
| AUIPC (rd imm : Z)
| JAL (rd imm : Z)
| JALR (rd rs1 imm : Z)
| CSR (op : csrop) (rd rs1 csr : Z)
| ECALL
| EBREAK
| CM_PUSH (urlist spimm : Z)
| CM_POPRET (urlist spimm : Z).

(** ** The 32-bit formats *)

Definition imm_i (w : Z) : Z := sw 12 (bits w 20 12).
Definition imm_s (w : Z) : Z := sw 12 ((bits w 25 7 << 5) .| bits w 7 5).
Definition imm_b (w : Z) : Z :=
  sw 13 ((bits w 31 1 << 12) .| (bits w 7 1 << 11) .| (bits w 25 6 << 5) .| (bits w 8 4 << 1)).
Definition imm_j (w : Z) : Z :=
  sw 21 ((bits w 31 1 << 20) .| (bits w 12 8 << 12) .| (bits w 20 1 << 11) .| (bits w 21 10 << 1)).
Definition imm_u (w : Z) : Z := sw 32 (bits w 12 20 << 12).

Definition rop_of (funct7 funct3 : Z) : option rop :=
  match funct7, funct3 with
  | 0x00, 0 => Some ADD | 0x20, 0 => Some SUB | 0x00, 1 => Some SLL
  | 0x00, 2 => Some SLT | 0x00, 3 => Some SLTU | 0x00, 4 => Some XOR
  | 0x00, 5 => Some SRL | 0x20, 5 => Some SRA | 0x00, 6 => Some OR | 0x00, 7 => Some AND
  | 0x01, 0 => Some MUL | 0x01, 1 => Some MULH | 0x01, 2 => Some MULHSU
  | 0x01, 3 => Some MULHU | 0x01, 4 => Some DIV | 0x01, 5 => Some DIVU
  | 0x01, 6 => Some REM | 0x01, 7 => Some REMU
  | 0x10, 2 => Some SH1ADD | 0x10, 4 => Some SH2ADD | 0x10, 6 => Some SH3ADD
  | _, _ => None
  end.

Definition decode32 (w : Z) : option rv32_instr :=
  let rd := bits w 7 5 in
  let rs1 := bits w 15 5 in
  let rs2 := bits w 20 5 in
  match bits w 0 7 with
  | 0x37 => Some (LUI rd (imm_u w))
  | 0x17 => Some (AUIPC rd (imm_u w))
  | 0x6F => Some (JAL rd (imm_j w))
  | 0x67 => match bits w 12 3 with 0 => Some (JALR rd rs1 (imm_i w)) | _ => None end
  | 0x63 =>
      match bits w 12 3 with
      | 0 => Some (BRANCH BEQ rs1 rs2 (imm_b w))
      | 1 => Some (BRANCH BNE rs1 rs2 (imm_b w))
      | 4 => Some (BRANCH BLT rs1 rs2 (imm_b w))
      | 5 => Some (BRANCH BGE rs1 rs2 (imm_b w))
      | 6 => Some (BRANCH BLTU rs1 rs2 (imm_b w))
      | 7 => Some (BRANCH BGEU rs1 rs2 (imm_b w))
      | _ => None
      end
  | 0x03 =>
      match bits w 12 3 with
      | 0 => Some (LOAD LB rd rs1 (imm_i w))
      | 1 => Some (LOAD LH rd rs1 (imm_i w))
      | 2 => Some (LOAD LW rd rs1 (imm_i w))
      | 4 => Some (LOAD LBU rd rs1 (imm_i w))
      | 5 => Some (LOAD LHU rd rs1 (imm_i w))
      | _ => None
      end
  | 0x23 =>
      match bits w 12 3 with
      | 0 => Some (STORE SB rs1 rs2 (imm_s w))
      | 1 => Some (STORE SH rs1 rs2 (imm_s w))
      | 2 => Some (STORE SW rs1 rs2 (imm_s w))
      | _ => None
      end
  | 0x13 =>
      match bits w 12 3 with
      | 0 => Some (I ADDI rd rs1 (imm_i w))
      | 2 => Some (I SLTI rd rs1 (imm_i w))
      | 3 => Some (I SLTIU rd rs1 (imm_i w))
      | 4 => Some (I XORI rd rs1 (imm_i w))
      | 6 => Some (I ORI rd rs1 (imm_i w))
      | 7 => Some (I ANDI rd rs1 (imm_i w))
      | 1 => match bits w 25 7 with 0 => Some (I SLLI rd rs1 rs2) | _ => None end
      | 5 =>
          match bits w 25 7 with
          | 0 => Some (I SRLI rd rs1 rs2)
          | 0x20 => Some (I SRAI rd rs1 rs2)
          | _ => None
          end
      | _ => None
      end
  | 0x33 => (fun op => R op rd rs1 rs2) <$> rop_of (bits w 25 7) (bits w 12 3)
  | 0x73 =>
      match bits w 12 3 with
      | 0 =>
          match bits w 7 25 with
          | 0 => Some ECALL
          | 0x2000 => Some EBREAK
          | _ => None
          end
      | 1 => Some (CSR CSRRW rd rs1 (bits w 20 12))
      | 2 => Some (CSR CSRRS rd rs1 (bits w 20 12))
      | 3 => Some (CSR CSRRC rd rs1 (bits w 20 12))
      | 5 => Some (CSR CSRRWI rd rs1 (bits w 20 12))
      | 6 => Some (CSR CSRRSI rd rs1 (bits w 20 12))
      | 7 => Some (CSR CSRRCI rd rs1 (bits w 20 12))
      | _ => None
      end
  | _ => None
  end.

(** ** The 16-bit formats, expanded to the instructions they stand for *)

Definition imm_ci (w : Z) : Z := sw 6 ((bits w 12 1 << 5) .| bits w 2 5).
Definition nzuimm_ciw (w : Z) : Z :=
  (bits w 7 4 << 6) .| (bits w 11 2 << 4) .| (bits w 5 1 << 3) .| (bits w 6 1 << 2).
Definition uimm_cl_w (w : Z) : Z :=
  (bits w 5 1 << 6) .| (bits w 10 3 << 3) .| (bits w 6 1 << 2).
Definition imm_cb (w : Z) : Z :=
  sw 9 ((bits w 12 1 << 8) .| (bits w 5 2 << 6) .| (bits w 2 1 << 5)
        .| (bits w 10 2 << 3) .| (bits w 3 2 << 1)).
Definition imm_cj (w : Z) : Z :=
  sw 12 ((bits w 12 1 << 11) .| (bits w 8 1 << 10) .| (bits w 9 2 << 8)
         .| (bits w 6 1 << 7) .| (bits w 7 1 << 6) .| (bits w 2 1 << 5)
         .| (bits w 11 1 << 4) .| (bits w 3 3 << 1)).
Definition uimm_6bit_lw (w : Z) : Z :=
  (bits w 2 2 << 6) .| (bits w 12 1 << 5) .| (bits w 4 3 << 2).
Definition uimm_6bit_sw (w : Z) : Z := (bits w 7 2 << 6) .| (bits w 9 4 << 2).
Definition imm_addi16sp (w : Z) : Z :=
  sw 10 ((bits w 12 1 << 9) .| (bits w 3 2 << 7) .| (bits w 5 1 << 6)
         .| (bits w 2 1 << 5) .| (bits w 6 1 << 4)).
Definition imm_lui (w : Z) : Z := sw 18 ((bits w 12 1 << 17) .| (bits w 2 5 << 12)).
Definition ex_rvc_register (r : Z) : Z := 8 + r.

Definition decode16 (w : Z) : option rv32_instr :=
  let rd := bits w 7 5 in
  let rs1_3 := ex_rvc_register (bits w 7 3) in
  let rs2_3 := ex_rvc_register (bits w 2 3) in
  let rs2_5 := bits w 2 5 in
  let shamt := (bits w 12 1 << 5) .| bits w 2 5 in
  match bits w 0 2, bits w 13 3 with
  | 0, 0 => if bits w 5 8 =? 0 then None else Some (I ADDI rs2_3 2 (nzuimm_ciw w))
  | 0, 2 => Some (LOAD LW rs2_3 rs1_3 (uimm_cl_w w))
  | 0, 6 => Some (STORE SW rs1_3 rs2_3 (uimm_cl_w w))
  | 1, 0 => Some (I ADDI rd rd (imm_ci w))
  | 1, 1 => Some (JAL 1 (imm_cj w))
  | 1, 2 => Some (I ADDI rd 0 (imm_ci w))
  | 1, 3 =>
      if (bits w 12 1 =? 0) && (bits w 2 5 =? 0) then None
      else if rd =? 2 then Some (I ADDI 2 2 (imm_addi16sp w))
      else Some (LUI rd (imm_lui w))
  | 1, 4 =>
      match bits w 10 2 with
      | 0 => if shamt <? 32 then Some (I SRLI rs1_3 rs1_3 shamt) else None
      | 1 => if shamt <? 32 then Some (I SRAI rs1_3 rs1_3 shamt) else None
      | 2 => Some (I ANDI rs1_3 rs1_3 (imm_ci w))
      | _ =>
          match bits w 12 1, bits w 5 2 with
          | 0, 0 => Some (R SUB rs1_3 rs1_3 rs2_3)
          | 0, 1 => Some (R XOR rs1_3 rs1_3 rs2_3)
          | 0, 2 => Some (R OR rs1_3 rs1_3 rs2_3)
          | 0, 3 => Some (R AND rs1_3 rs1_3 rs2_3)
          | _, _ => None
          end
      end
  | 1, 5 => Some (JAL 0 (imm_cj w))
  | 1, 6 => Some (BRANCH BEQ rs1_3 0 (imm_cb w))
  | 1, 7 => Some (BRANCH BNE rs1_3 0 (imm_cb w))
  | 2, 0 => if shamt <? 32 then Some (I SLLI rd rd shamt) else None
  | 2, 2 => if rd =? 0 then None else Some (LOAD LW rd 2 (uimm_6bit_lw w))
  | 2, 4 =>
      match bits w 12 1 with
      | 0 =>
          if rs2_5 =? 0 then (if rd =? 0 then None else Some (JALR 0 rd 0))
          else Some (I ADDI rd rs2_5 0)
      | _ =>
          if rs2_5 =? 0 then (if rd =? 0 then Some EBREAK else Some (JALR 1 rd 0))
          else Some (R ADD rd rd rs2_5)
      end
  | 2, 5 =>
      match bits w 8 5 with
      | 0x18 => Some (CM_PUSH (bits w 4 4) (bits w 2 2 << 4))
      | 0x1E => Some (CM_POPRET (bits w 4 4) (bits w 2 2 << 4))
      | _ => None
      end
  | 2, 6 => Some (STORE SW 2 rs2_5 (uimm_6bit_sw w))
  | _, _ => None
  end.

(** The instruction at the start of [bs], and its length. *)
Definition rv32_decode (bs : list Z) : option (rv32_instr * Z) :=
  match bs with
  | b0 :: b1 :: rest =>
      if bits b0 0 2 =? 3 then
        match rest with
        | b2 :: b3 :: _ => (fun i => (i, 4)) <$> decode32 (le_word [b0; b1; b2; b3])
        | _ => None
        end
      else (fun i => (i, 2)) <$> decode16 (le_word [b0; b1])
  | _ => None
  end.

(** ** Effects *)

Definition rget (r : Z) (m : machine) : Z := if r =? 0 then 0 else reg r m.
Definition rset (r v : Z) (m : machine) : machine := if r =? 0 then m else set_reg r (u32 v) m.

Definition rop_val (op : rop) (a b : Z) : Z :=
  match op with
  | ADD => a + b | SUB => a - b
  | SLL => a << (b .& 31) | SRL => a >> (b .& 31) | SRA => s32 a >> (b .& 31)
  | SLT => b2z (s32 a <? s32 b) | SLTU => b2z (a <? b)
  | XOR => a .^ b | OR => a .| b | AND => a .& b
  | MUL => a * b
  | MULH => (s32 a * s32 b) >> 32
  | MULHSU => (s32 a * b) >> 32
  | MULHU => (a * b) >> 32
  | DIV => if b =? 0 then -1 else Z.quot (s32 a) (s32 b)
  | DIVU => if b =? 0 then -1 else a / b
  | REM => if b =? 0 then a else Z.rem (s32 a) (s32 b)
  | REMU => if b =? 0 then a else a mod b
  | SH1ADD => (a << 1) + b | SH2ADD => (a << 2) + b | SH3ADD => (a << 3) + b
  end.

Definition iop_val (op : iop) (a imm : Z) : Z :=
  match op with
  | ADDI => a + imm
  | SLTI => b2z (s32 a <? imm) | SLTIU => b2z (a <? u32 imm)
  | XORI => a .^ imm | ORI => a .| imm | ANDI => a .& imm
  | SLLI => a << imm | SRLI => a >> imm | SRAI => s32 a >> imm
  end.

Definition bop_taken (op : bop) (a b : Z) : bool :=
  match op with
  | BEQ => a =? b | BNE => negb (a =? b)
  | BLT => s32 a <? s32 b | BGE => negb (s32 a <? s32 b)
  | BLTU => a <? b | BGEU => negb (a <? b)
  end.

Definition load_val (op : lop) (h : gmap Z Z) (a : Z) : Z :=
  match op with
  | LB => s8 (load 32 1 h a) | LBU => load 32 1 h a
  | LH => s16 (load 32 2 h a) | LHU => load 32 2 h a
  | LW => load 32 4 h a
  end.
Definition sop_size (op : sop) : nat := match op with SB => 1 | SH => 2 | SW => 4 end.

(** decode_push_pop_list: the registers of a Zcmp list, as a bit mask. *)
Definition decode_push_pop_list (rlist : Z) : Z :=
  (if 15 <=? rlist then (1 << (16 + 11)) .| (1 << (16 + 10)) else 0)
  .| (if 14 <=? rlist then 1 << (16 + 9) else 0)
  .| (if 13 <=? rlist then 1 << (16 + 8) else 0)
  .| (if 12 <=? rlist then 1 << (16 + 7) else 0)
  .| (if 11 <=? rlist then 1 << (16 + 6) else 0)
  .| (if 10 <=? rlist then 1 << (16 + 5) else 0)
  .| (if 9 <=? rlist then 1 << (16 + 4) else 0)
  .| (if 8 <=? rlist then 1 << (16 + 3) else 0)
  .| (if 7 <=? rlist then 1 << (16 + 2) else 0)
  .| (if 6 <=? rlist then 1 << 9 else 0)
  .| (if 5 <=? rlist then 1 << 8 else 0)
  .| (if 4 <=? rlist then 1 << 1 else 0).

(** The registers of the list from x27 down. *)
Definition push_pop_regs (rlist : Z) : list Z :=
  filter (fun i => Z.testbit (decode_push_pop_list rlist) i = true)
         (Z.of_nat <$> rev (seq 0 28)).

Definition stack_adj (rlist spimm : Z) : Z :=
  ((Z.of_nat (length (push_pop_regs rlist)) * 4 + 15) / 16 * 16) + spimm.

(** [rs] stored downwards from address [a], and loaded back. *)
Fixpoint push_regs (rs : list Z) (a : Z) (m : machine) : machine :=
  match rs with
  | [] => m
  | r :: rs => push_regs rs (a - 4) (set_mem (store 32 4 (mem m) a (rget r m)) m)
  end.
Fixpoint pop_regs (rs : list Z) (a : Z) (m : machine) : machine :=
  match rs with
  | [] => m
  | r :: rs => pop_regs rs (a - 4) (rset r (load 32 4 (mem m) a) m)
  end.

(** Instruction [i] of [len] bytes, at the program counter. *)
Definition rv32_exec (i : rv32_instr) (len : Z) (m : machine) : option machine :=
  let next := u32 (pc m + len) in
  match i with
  | R op rd rs1 rs2 => Some (set_pc next (rset rd (rop_val op (rget rs1 m) (rget rs2 m)) m))
  | I op rd rs1 imm => Some (set_pc next (rset rd (iop_val op (rget rs1 m) imm) m))
  | LOAD op rd rs1 imm =>
      Some (set_pc next (rset rd (load_val op (mem m) (rget rs1 m + imm)) m))
  | STORE op rs1 rs2 imm =>
      Some (set_pc next
        (set_mem (store 32 (sop_size op) (mem m) (rget rs1 m + imm) (rget rs2 m)) m))
  | BRANCH op rs1 rs2 imm =>
      Some (set_pc (if bop_taken op (rget rs1 m) (rget rs2 m) then u32 (pc m + imm) else next) m)
  | LUI rd imm => Some (set_pc next (rset rd imm m))
  | AUIPC rd imm => Some (set_pc next (rset rd (pc m + imm) m))
  | JAL rd imm => Some (set_pc (u32 (pc m + imm)) (rset rd next m))
  | JALR rd rs1 imm =>
      Some (set_pc (u32 (rget rs1 m + imm) .& Z.lnot 1) (rset rd next m))
  | CM_PUSH rlist spimm =>
      if decode_push_pop_list rlist =? 0 then None else
      Some (set_pc next (rset 2 (rget 2 m - stack_adj rlist spimm)
        (push_regs (push_pop_regs rlist) (rget 2 m - 4) m)))
  | CM_POPRET rlist spimm =>
      if decode_push_pop_list rlist =? 0 then None else
      let m' := pop_regs (push_pop_regs rlist) (rget 2 m + stack_adj rlist spimm - 4) m in
      Some (set_pc (rget 1 m') (rset 2 (rget 2 m + stack_adj rlist spimm) m'))
  | CSR _ _ _ _ | ECALL | EBREAK => None
  end.

Lemma rv32_decode_app bs rest i n :
  rv32_decode bs = Some (i, n) -> rv32_decode (bs ++ rest) = Some (i, n).
Proof.
  destruct bs as [|b0 [|b1 [|b2 [|b3 bs]]]]; simpl; try done.
  - by destruct (_ =? 3).
  - by destruct (_ =? 3).
Qed.

#[export] Instance Rv32 : Isa := {|
  insn := rv32_instr;
  addr_width := 32;
  addr_width_pos := eq_refl;
  max_len := 4;
  decode := rv32_decode;
  exec := rv32_exec;
  decode_app := rv32_decode_app;
|}.

Lemma rv32_exec_cons (i : rv32_instr) len (ins : list (rv32_instr * Z)) m m' :
  rv32_exec i len m = Some m' -> pc m' = u32 (pc m + len) ->
  exec_straight (H := Rv32) ((i, len) :: ins) m = exec_straight (H := Rv32) ins m'.
Proof. apply (exec_straight_cons (H := Rv32)). Qed.

(** ** Reading registers back *)

Section Registers.
Implicit Types (r v a : Z) (m : machine).

Lemma rget_0 m : rget 0 m = 0.
Proof using. done. Qed.
Lemma rget_rset_eq r v m : r <> 0 -> rget r (rset r v m) = u32 v.
Proof using. intros. unfold rget, rset. destruct (Z.eqb_spec r 0); [done|]. apply reg_set_eq. Qed.
Lemma rget_rset_ne r q v m : r <> q -> rget r (rset q v m) = rget r m.
Proof using.
  intros. unfold rget, rset. destruct (r =? 0); [done|].
  destruct (q =? 0); [done|]. by apply reg_set_ne.
Qed.
Lemma rget_set_pc r a m : rget r (set_pc a m) = rget r m.
Proof using. done. Qed.
Lemma rget_set_mem r h m : rget r (set_mem h m) = rget r m.
Proof using. done. Qed.
Lemma pc_rset r v m : pc (rset r v m) = pc m.
Proof using. unfold rset. by destruct (r =? 0). Qed.
Lemma mem_rset r v m : mem (rset r v m) = mem m.
Proof using. unfold rset. by destruct (r =? 0). Qed.
Lemma rset_set_pc r v a m : rset r v (set_pc a m) = set_pc a (rset r v m).
Proof using. unfold rset. by destruct (r =? 0). Qed.
Lemma rset_rset r v w m : rset r v (rset r w m) = rset r v m.
Proof using.
  unfold rset. destruct (r =? 0); [done|]. unfold set_reg. simpl. by rewrite insert_insert_eq.
Qed.
Lemma rset_u32 r v m : rset r (u32 v) m = rset r v m.
Proof using. unfold rset. by rewrite uw_uw. Qed.
Lemma rset_0 v m : rset 0 v m = m.
Proof using. done. Qed.
Lemma rset_uw_eq r v w m : u32 v = u32 w -> rset r v m = rset r w m.
Proof using. intros E. unfold rset. by rewrite E. Qed.
End Registers.
#[export] Hint Rewrite rget_0 rget_set_pc rget_set_mem pc_rset mem_rset rset_set_pc
  rset_rset rset_u32 : machine.
#[export] Hint Rewrite rget_rset_eq rget_rset_ne using (done || lia) : machine.
