(* ===== verification/AsmRv32Opcodes.v ===== *)
(** * AsmRv32Opcodes: bank/uPython-ASM/asmrv32.h, and the two emitters of asmrv32.c

    Registers, the instruction formats (the RV32_ENCODE_TYPE_ macros), the
    back end's state and its opcode functions, one per instruction.  A macro
    argument is the value of the C expression it stands for: register numbers
    and unsigned immediates as they are, [mp_int_t] immediates as negative
    numbers where they are negative.  [mp_uint_t] is 32 bits wide, and the
    code is written little endian. *)

From S2P Require Import Prelude AsmBase.

Set Default Goal Selector "!".

(** ** Registers *)

Definition ASM_RV32_REG_X0 : Z := 0.
Definition ASM_RV32_REG_X1 : Z := 1.
Definition ASM_RV32_REG_X2 : Z := 2.
Definition ASM_RV32_REG_X3 : Z := 3.
Definition ASM_RV32_REG_X4 : Z := 4.
Definition ASM_RV32_REG_X5 : Z := 5.
Definition ASM_RV32_REG_X6 : Z := 6.
Definition ASM_RV32_REG_X7 : Z := 7.
Definition ASM_RV32_REG_X8 : Z := 8.
Definition ASM_RV32_REG_X9 : Z := 9.
Definition ASM_RV32_REG_X10 : Z := 10.
Definition ASM_RV32_REG_X11 : Z := 11.
Definition ASM_RV32_REG_X12 : Z := 12.
Definition ASM_RV32_REG_X13 : Z := 13.
Definition ASM_RV32_REG_X14 : Z := 14.
Definition ASM_RV32_REG_X15 : Z := 15.
Definition ASM_RV32_REG_X16 : Z := 16.
Definition ASM_RV32_REG_X17 : Z := 17.
Definition ASM_RV32_REG_X18 : Z := 18.
Definition ASM_RV32_REG_X19 : Z := 19.
Definition ASM_RV32_REG_X20 : Z := 20.
Definition ASM_RV32_REG_X21 : Z := 21.
Definition ASM_RV32_REG_X22 : Z := 22.
Definition ASM_RV32_REG_X23 : Z := 23.
Definition ASM_RV32_REG_X24 : Z := 24.
Definition ASM_RV32_REG_X25 : Z := 25.
Definition ASM_RV32_REG_X26 : Z := 26.
Definition ASM_RV32_REG_X27 : Z := 27.
Definition ASM_RV32_REG_X28 : Z := 28.
Definition ASM_RV32_REG_X29 : Z := 29.
Definition ASM_RV32_REG_X30 : Z := 30.
Definition ASM_RV32_REG_X31 : Z := 31.
Definition ASM_RV32_REG_ZERO : Z := ASM_RV32_REG_X0.
Definition ASM_RV32_REG_RA : Z := ASM_RV32_REG_X1.
Definition ASM_RV32_REG_SP : Z := ASM_RV32_REG_X2.
Definition ASM_RV32_REG_GP : Z := ASM_RV32_REG_X3.
Definition ASM_RV32_REG_TP : Z := ASM_RV32_REG_X4.
Definition ASM_RV32_REG_A0 : Z := ASM_RV32_REG_X10.
Definition ASM_RV32_REG_A1 : Z := ASM_RV32_REG_X11.
Definition ASM_RV32_REG_A2 : Z := ASM_RV32_REG_X12.
Definition ASM_RV32_REG_A3 : Z := ASM_RV32_REG_X13.
Definition ASM_RV32_REG_A4 : Z := ASM_RV32_REG_X14.
Definition ASM_RV32_REG_A5 : Z := ASM_RV32_REG_X15.
Definition ASM_RV32_REG_A6 : Z := ASM_RV32_REG_X16.
Definition ASM_RV32_REG_A7 : Z := ASM_RV32_REG_X17.
Definition ASM_RV32_REG_T0 : Z := ASM_RV32_REG_X5.
Definition ASM_RV32_REG_T1 : Z := ASM_RV32_REG_X6.
Definition ASM_RV32_REG_T2 : Z := ASM_RV32_REG_X7.
Definition ASM_RV32_REG_T3 : Z := ASM_RV32_REG_X28.
Definition ASM_RV32_REG_T4 : Z := ASM_RV32_REG_X29.
Definition ASM_RV32_REG_T5 : Z := ASM_RV32_REG_X30.
Definition ASM_RV32_REG_T6 : Z := ASM_RV32_REG_X31.
Definition ASM_RV32_REG_FP : Z := ASM_RV32_REG_X8.
Definition ASM_RV32_REG_S0 : Z := ASM_RV32_REG_X8.
Definition ASM_RV32_REG_S1 : Z := ASM_RV32_REG_X9.
Definition ASM_RV32_REG_S2 : Z := ASM_RV32_REG_X18.
Definition ASM_RV32_REG_S3 : Z := ASM_RV32_REG_X19.
Definition ASM_RV32_REG_S4 : Z := ASM_RV32_REG_X20.
Definition ASM_RV32_REG_S5 : Z := ASM_RV32_REG_X21.
Definition ASM_RV32_REG_S6 : Z := ASM_RV32_REG_X22.
Definition ASM_RV32_REG_S7 : Z := ASM_RV32_REG_X23.
Definition ASM_RV32_REG_S8 : Z := ASM_RV32_REG_X24.
Definition ASM_RV32_REG_S9 : Z := ASM_RV32_REG_X25.
Definition ASM_RV32_REG_S10 : Z := ASM_RV32_REG_X26.
Definition ASM_RV32_REG_S11 : Z := ASM_RV32_REG_X27.

Definition RV32_AVAILABLE_REGISTERS_COUNT : Z := 32.
Definition RV32_MAP_IN_C_REGISTER_WINDOW (register_number : Z) : Z :=
  register_number - ASM_RV32_REG_X8.
Definition RV32_IS_IN_C_REGISTER_WINDOW (register_number : Z) : bool :=
  (ASM_RV32_REG_X8 <=? register_number) && (register_number <=? ASM_RV32_REG_X15).

Definition ASM_WORD_SIZE : Z := 4.
Definition ASM_HALFWORD_SIZE : Z := 2.
Definition REG_RET : Z := ASM_RV32_REG_A0.
Definition REG_ARG_1 : Z := ASM_RV32_REG_A0.
Definition REG_ARG_2 : Z := ASM_RV32_REG_A1.
Definition REG_ARG_3 : Z := ASM_RV32_REG_A2.
Definition REG_ARG_4 : Z := ASM_RV32_REG_A3.
Definition REG_TEMP0 : Z := ASM_RV32_REG_T1.
Definition REG_TEMP1 : Z := ASM_RV32_REG_T2.
Definition REG_TEMP2 : Z := ASM_RV32_REG_T3.
Definition REG_FUN_TABLE : Z := ASM_RV32_REG_S1.
Definition REG_LOCAL_1 : Z := ASM_RV32_REG_S3.
Definition REG_LOCAL_2 : Z := ASM_RV32_REG_S2.
Definition REG_LOCAL_3 : Z := ASM_RV32_REG_S4.
Definition REG_ZERO : Z := ASM_RV32_REG_ZERO.

(** ** The back end's state *)

Record asm_rv32_t := mk_asm_rv32 {
  base : mp_asm_base_t;
  saved_registers_mask : Z;
  locals_count : Z;
  stack_size : Z;
  locals_stack_offset : Z;
}.

#[export, refine] Instance HasBase_rv32 : HasBase asm_rv32_t := {|
  base_of := base;
  with_base b s := mk_asm_rv32 b (saved_registers_mask s) (locals_count s)
                     (stack_size s) (locals_stack_offset s);
|}.
Proof. all: intros; by try destruct s. Defined.

Definition set_saved_registers_mask (x : Z) (s : asm_rv32_t) : asm_rv32_t :=
  mk_asm_rv32 (base s) x (locals_count s) (stack_size s) (locals_stack_offset s).
Definition set_locals_count (x : Z) (s : asm_rv32_t) : asm_rv32_t :=
  mk_asm_rv32 (base s) (saved_registers_mask s) x (stack_size s) (locals_stack_offset s).
Definition set_stack_size (x : Z) (s : asm_rv32_t) : asm_rv32_t :=
  mk_asm_rv32 (base s) (saved_registers_mask s) (locals_count s) x (locals_stack_offset s).
Definition set_locals_stack_offset (x : Z) (s : asm_rv32_t) : asm_rv32_t :=
  mk_asm_rv32 (base s) (saved_registers_mask s) (locals_count s) (stack_size s) x.

(** ** Instruction formats *)

Definition RV32_ENCODE_TYPE_B (op ft3 rs1 rs2 imm : Z) : Z :=
  ((op .& 0x7F) .| ((ft3 .& 0x07) << 12) .| ((imm .& 0x800) >> 4) .| ((imm .& 0x1E) << 7)
   .| ((rs1 .& 0x1F) << 15) .| ((rs2 .& 0x1F) << 20) .| ((imm .& 0x7E0) << 20)
   .| ((imm .& 0x1000) << 19)).

Definition RV32_ENCODE_TYPE_CSRI (op ft3 rd csr imm : Z) : Z :=
  ((op .& 0x7F) .| ((rd .& 0x1F) << 7) .| ((ft3 .& 0x07) << 12) .| ((csr .& 0xFFF) << 20)
   .| ((imm .& 0x1F) << 15)).

Definition RV32_ENCODE_TYPE_I (op ft3 rd rs imm : Z) : Z :=
  ((op .& 0x7F) .| ((rd .& 0x1F) << 7) .| ((ft3 .& 0x07) << 12) .| ((rs .& 0x1F) << 15)
   .| ((imm .& 0xFFF) << 20)).

Definition RV32_ENCODE_TYPE_J (op rd imm : Z) : Z :=
  ((op .& 0x7F) .| ((rd .& 0x1F) << 7) .| (imm .& 0xFF000) .| ((imm .& 0x800) << 9)
   .| ((imm .& 0x7FE) << 20) .| ((imm .& 0x100000) << 11)).

Definition RV32_ENCODE_TYPE_R (op ft3 ft7 rd rs1 rs2 : Z) : Z :=
  ((op .& 0x7F) .| ((rd .& 0x1F) << 7) .| ((ft3 .& 0x07) << 12) .| ((rs1 .& 0x1F) << 15)
   .| ((rs2 .& 0x1F) << 20) .| ((ft7 .& 0x7F) << 25)).

Definition RV32_ENCODE_TYPE_S (op ft3 rs1 rs2 imm : Z) : Z :=
  ((op .& 0x7F) .| ((imm .& 0x1F) << 7) .| ((ft3 .& 0x07) << 12) .| ((rs1 .& 0x1F) << 15)
   .| ((rs2 .& 0x1F) << 20) .| ((imm .& 0xFE0) << 20)).

Definition RV32_ENCODE_TYPE_CA (op ft6 ft2 rd rs : Z) : Z :=
  ((op .& 0x03) .| ((ft6 .& 0x3F) << 10) .| ((ft2 .& 0x03) << 5) .| ((rd .& 0x03) << 7)
   .| ((rs .& 0x03) << 2)).

Definition RV32_ENCODE_TYPE_U (op rd imm : Z) : Z :=
  ((op .& 0x7F) .| ((rd .& 0x1F) << 7) .| (imm .& 0xFFFFF000)).

Definition RV32_ENCODE_TYPE_CB (op ft3 rs imm : Z) : Z :=
  ((op .& 0x03) .| ((ft3 .& 0x07) << 13) .| ((rs .& 0x07) << 7) .| ((imm .& 0xE0) << 5)
   .| ((imm .& 0x1F) << 2)).

Definition RV32_ENCODE_TYPE_CI (op ft3 rd imm : Z) : Z :=
  ((op .& 0x03) .| ((ft3 .& 0x07) << 13) .| ((rd .& 0x1F) << 7) .| ((imm .& 0x20) << 7)
   .| ((imm .& 0x1F) << 2)).

Definition RV32_ENCODE_TYPE_CIW (op ft3 rd imm : Z) : Z :=
  ((op .& 0x03) .| ((ft3 .& 0x07) << 13) .| ((rd .& 0x07) << 2) .| ((imm .& 0x3C0) << 1)
   .| ((imm .& 0x30) << 7) .| ((imm .& 0x08) << 2) .| ((imm .& 0x04) << 4)).

Definition RV32_ENCODE_TYPE_CJ (op ft3 imm : Z) : Z :=
  ((op .& 0x03) .| ((ft3 .& 0x07) << 13) .| ((imm .& 0x0E) << 2) .| ((imm .& 0x300) << 1)
   .| ((imm .& 0x800) << 1) .| ((imm .& 0x400) >> 2) .| ((imm .& 0x80) >> 1)
   .| ((imm .& 0x40) << 1) .| ((imm .& 0x20) >> 3) .| ((imm .& 0x10) << 7)).

Definition RV32_ENCODE_TYPE_CL (op ft3 rd rs imm : Z) : Z :=
  ((op .& 0x03) .| ((ft3 .& 0x07) << 13) .| ((rd .& 0x07) << 2) .| ((rs .& 0x07) << 7)
   .| ((imm .& 0x40) >> 1) .| ((imm .& 0x38) << 7) .| ((imm .& 0x04) << 4)).

Definition RV32_ENCODE_TYPE_CMPP (op ft6 ft2 rlist imm : Z) : Z :=
  ((op .& 0x03) .| ((ft6 .& 0x3F) << 10) .| ((ft2 .& 0x03) << 8) .| ((rlist .& 0x0F) << 4)
   .| ((imm .& 0x03) << 2)).

Definition RV32_ENCODE_TYPE_CR (op ft4 rs1 rs2 : Z) : Z :=
  ((op .& 0x03) .| ((rs2 .& 0x1F) << 2) .| ((rs1 .& 0x1F) << 7) .| ((ft4 .& 0x0F) << 12)).

Definition RV32_ENCODE_TYPE_CS (op ft3 rd rs imm : Z) : Z :=
  ((op .& 0x03) .| ((ft3 .& 0x07) << 13) .| ((rd .& 0x07) << 2) .| ((rs .& 0x07) << 7)
   .| ((imm .& 0x40) >> 1) .| ((imm .& 0x38) << 7) .| ((imm .& 0x04) << 4)).

Definition RV32_ENCODE_TYPE_CSS (op ft3 rs imm : Z) : Z :=
  ((op .& 0x03) .| ((ft3 .& 0x07) << 13) .| ((rs .& 0x1F) << 2) .| (imm .& 0x3F) << 7).

Definition RV32_EXT_NONE : Z := 0.
Definition RV32_EXT_ZBA : Z := 1 << 0.
Definition RV32_EXT_ZCMP : Z := 1 << 1.
Definition RV32_EXT_ALL : Z := RV32_EXT_ZBA .| RV32_EXT_ZCMP.

(** The build's configuration (mpconfig.h) and, for a dynamic compiler, the
    back end's options. *)
Class Rv32Config := {
  MICROPY_EMIT_RV32_ZBA : bool;
  MICROPY_EMIT_RV32_ZCMP : bool;
  backend_options : option Z;
}.

Definition MICROPY_RV32_EXTENSIONS `{Rv32Config} : Z :=
  (if MICROPY_EMIT_RV32_ZBA then RV32_EXT_ZBA else 0)
  .| (if MICROPY_EMIT_RV32_ZCMP then RV32_EXT_ZCMP else 0).

Definition asm_rv32_allowed_extensions `{Rv32Config} : Z :=
  match backend_options with
  | Some allowed_extensions => u8 (MICROPY_RV32_EXTENSIONS .| allowed_extensions)
  | None => MICROPY_RV32_EXTENSIONS
  end.

(** ** Emission, with the MP_ENDIANNESS_LITTLE byte order *)

(** [size_t] is 32 bits wide. *)
#[local] Existing Instance SizeT_32.

Definition asm_rv32_emit_word_opcode (word : Z) : M asm_rv32_t unit :=
  cursor ← on_base (mp_asm_base_get_cur_to_write_bytes 4);
  match cursor with
  | None => mret tt
  | Some cursor =>
      on_base (store_bytes cursor
        [word .& 0xFF; (word >> 8) .& 0xFF; (word >> 16) .& 0xFF; (word >> 24) .& 0xFF])
  end.

Definition asm_rv32_emit_halfword_opcode (word : Z) : M asm_rv32_t unit :=
  cursor ← on_base (mp_asm_base_get_cur_to_write_bytes 2);
  match cursor with
  | None => mret tt
  | Some cursor => on_base (store_bytes cursor [word .& 0xFF; (word >> 8) .& 0xFF])
  end.

(** ** Opcodes *)

Definition asm_rv32_opcode_add (rd rs1 rs2 : Z) : M asm_rv32_t unit :=
  asm_rv32_emit_word_opcode (RV32_ENCODE_TYPE_R 0x33 0x00 0x00 rd rs1 rs2).
Definition asm_rv32_opcode_addi (rd rs immediate : Z) : M asm_rv32_t unit :=
  asm_rv32_emit_word_opcode (RV32_ENCODE_TYPE_I 0x13 0x00 rd rs immediate).
Definition asm_rv32_opcode_and (rd rs1 rs2 : Z) : M asm_rv32_t unit :=
  asm_rv32_emit_word_opcode (RV32_ENCODE_TYPE_R 0x33 0x07 0x00 rd rs1 rs2).
Definition asm_rv32_opcode_andi (rd rs immediate : Z) : M asm_rv32_t unit :=
  asm_rv32_emit_word_opcode (RV32_ENCODE_TYPE_I 0x13 0x07 rd rs immediate).
Definition asm_rv32_opcode_auipc (rd offset : Z) : M asm_rv32_t unit :=
  asm_rv32_emit_word_opcode (RV32_ENCODE_TYPE_U 0x17 rd offset).
Definition asm_rv32_opcode_beq (rs1 rs2 offset : Z) : M asm_rv32_t unit :=
  asm_rv32_emit_word_opcode (RV32_ENCODE_TYPE_B 0x63 0x00 rs1 rs2 offset).
Definition asm_rv32_opcode_bge (rs1 rs2 offset : Z) : M asm_rv32_t unit :=
  asm_rv32_emit_word_opcode (RV32_ENCODE_TYPE_B 0x63 0x05 rs1 rs2 offset).
Definition asm_rv32_opcode_bgeu (rs1 rs2 offset : Z) : M asm_rv32_t unit :=
  asm_rv32_emit_word_opcode (RV32_ENCODE_TYPE_B 0x63 0x07 rs1 rs2 offset).
Definition asm_rv32_opcode_blt (rs1 rs2 offset : Z) : M asm_rv32_t unit :=
  asm_rv32_emit_word_opcode (RV32_ENCODE_TYPE_B 0x63 0x04 rs1 rs2 offset).
Definition asm_rv32_opcode_bltu (rs1 rs2 offset : Z) : M asm_rv32_t unit :=
  asm_rv32_emit_word_opcode (RV32_ENCODE_TYPE_B 0x63 0x06 rs1 rs2 offset).
Definition asm_rv32_opcode_bne (rs1 rs2 offset : Z) : M asm_rv32_t unit :=
  asm_rv32_emit_word_opcode (RV32_ENCODE_TYPE_B 0x63 0x01 rs1 rs2 offset).
Definition asm_rv32_opcode_cadd (rd rs : Z) : M asm_rv32_t unit :=
  asm_rv32_emit_halfword_opcode (RV32_ENCODE_TYPE_CR 0x02 0x09 rd rs).
Definition asm_rv32_opcode_caddi (rd immediate : Z) : M asm_rv32_t unit :=
  asm_rv32_emit_halfword_opcode (RV32_ENCODE_TYPE_CI 0x01 0x00 rd immediate).
Definition asm_rv32_opcode_caddi4spn (rd immediate : Z) : M asm_rv32_t unit :=
  asm_rv32_emit_halfword_opcode (RV32_ENCODE_TYPE_CIW 0x00 0x00 rd immediate).
Definition asm_rv32_opcode_cand (rd rs : Z) : M asm_rv32_t unit :=
  asm_rv32_emit_halfword_opcode (RV32_ENCODE_TYPE_CA 0x01 0x23 0x03 rd rs).
Definition asm_rv32_opcode_candi (rd immediate : Z) : M asm_rv32_t unit :=
  asm_rv32_emit_halfword_opcode (RV32_ENCODE_TYPE_CB 0x01 0x04 rd (((immediate .& 0x20) << 2)
   .| (immediate .& 0x1F) .| 0x40)).
Definition asm_rv32_opcode_cbeqz (rs offset : Z) : M asm_rv32_t unit :=
  asm_rv32_emit_halfword_opcode (RV32_ENCODE_TYPE_CB 0x01 0x06 rs (((offset .& 0x100) >> 1)
   .| ((offset .& 0xC0) >> 3) .| ((offset .& 0x20) >> 5) .| ((offset .& 0x18) << 2)
   .| (offset .& 0x06))).
Definition asm_rv32_opcode_cbnez (rs offset : Z) : M asm_rv32_t unit :=
  asm_rv32_emit_halfword_opcode (RV32_ENCODE_TYPE_CB 0x01 0x07 rs (((offset .& 0x100) >> 1)
   .| ((offset .& 0xC0) >> 3) .| ((offset .& 0x20) >> 5) .| ((offset .& 0x18) << 2)
   .| (offset .& 0x06))).
Definition asm_rv32_opcode_cebreak : M asm_rv32_t unit :=
  asm_rv32_emit_halfword_opcode 0x9002.
Definition asm_rv32_opcode_cj (offset : Z) : M asm_rv32_t unit :=
  asm_rv32_emit_halfword_opcode (RV32_ENCODE_TYPE_CJ 0x01 0x05 offset).
Definition asm_rv32_opcode_cjal (offset : Z) : M asm_rv32_t unit :=
  asm_rv32_emit_halfword_opcode (RV32_ENCODE_TYPE_CJ 0x01 0x01 offset).
Definition asm_rv32_opcode_cjalr (rs : Z) : M asm_rv32_t unit :=
  asm_rv32_emit_halfword_opcode (RV32_ENCODE_TYPE_CR 0x02 0x09 rs 0).
Definition asm_rv32_opcode_cjr (rs : Z) : M asm_rv32_t unit :=
  asm_rv32_emit_halfword_opcode (RV32_ENCODE_TYPE_CR 0x02 0x08 rs 0).
Definition asm_rv32_opcode_cli (rd immediate : Z) : M asm_rv32_t unit :=
  asm_rv32_emit_halfword_opcode (RV32_ENCODE_TYPE_CI 0x01 0x02 rd immediate).
Definition asm_rv32_opcode_clui (rd immediate : Z) : M asm_rv32_t unit :=
  asm_rv32_emit_halfword_opcode (RV32_ENCODE_TYPE_CI 0x01 0x03 rd (immediate >> 12)).
Definition asm_rv32_opcode_clw (rd rs offset : Z) : M asm_rv32_t unit :=
  asm_rv32_emit_halfword_opcode (RV32_ENCODE_TYPE_CL 0x00 0x02 rd rs offset).
Definition asm_rv32_opcode_clwsp (rd offset : Z) : M asm_rv32_t unit :=
  asm_rv32_emit_halfword_opcode (RV32_ENCODE_TYPE_CI 0x02 0x02 rd (((offset .& 0xC0) >> 6)
   .| (offset .& 0x3C))).
Definition asm_rv32_opcode_cmv (rd rs : Z) : M asm_rv32_t unit :=
  asm_rv32_emit_halfword_opcode (RV32_ENCODE_TYPE_CR 0x02 0x08 rd rs).
Definition asm_rv32_opcode_cnop : M asm_rv32_t unit :=
  asm_rv32_emit_halfword_opcode 0x0001.
Definition asm_rv32_opcode_cor (rd rs : Z) : M asm_rv32_t unit :=
  asm_rv32_emit_halfword_opcode (RV32_ENCODE_TYPE_CA 0x01 0x23 0x02 rd rs).
Definition asm_rv32_opcode_cslli (rd immediate : Z) : M asm_rv32_t unit :=
  asm_rv32_emit_halfword_opcode (RV32_ENCODE_TYPE_CI 0x02 0x00 rd immediate).
Definition asm_rv32_opcode_csrai (rd immediate : Z) : M asm_rv32_t unit :=
  asm_rv32_emit_halfword_opcode (RV32_ENCODE_TYPE_CB 0x01 0x04 rd (((immediate .& 0x20) << 2)
   .| (immediate .& 0x1F) .| 0x20)).
Definition asm_rv32_opcode_csrli (rd immediate : Z) : M asm_rv32_t unit :=
  asm_rv32_emit_halfword_opcode (RV32_ENCODE_TYPE_CB 0x01 0x04 rd (((immediate .& 0x20) << 2)
   .| (immediate .& 0x1F))).
Definition asm_rv32_opcode_csub (rd rs : Z) : M asm_rv32_t unit :=
  asm_rv32_emit_halfword_opcode (RV32_ENCODE_TYPE_CA 0x01 0x23 0x00 rd rs).
Definition asm_rv32_opcode_csw (rs1 rs2 offset : Z) : M asm_rv32_t unit :=
  asm_rv32_emit_halfword_opcode (RV32_ENCODE_TYPE_CL 0x00 0x06 rs1 rs2 offset).
Definition asm_rv32_opcode_cswsp (rs offset : Z) : M asm_rv32_t unit :=
  asm_rv32_emit_halfword_opcode (RV32_ENCODE_TYPE_CSS 0x02 0x06 rs (((offset .& 0xC0) >> 6)
   .| (offset .& 0x3C))).
Definition asm_rv32_opcode_cxor (rd rs : Z) : M asm_rv32_t unit :=
  asm_rv32_emit_halfword_opcode (RV32_ENCODE_TYPE_CA 0x01 0x23 0x01 rd rs).
Definition asm_rv32_opcode_cmpopret (reg_list immediate : Z) : M asm_rv32_t unit :=
  asm_rv32_emit_halfword_opcode (RV32_ENCODE_TYPE_CMPP 0x02 0x2F 0x02 reg_list immediate).
Definition asm_rv32_opcode_cmpush (reg_list immediate : Z) : M asm_rv32_t unit :=
  asm_rv32_emit_halfword_opcode (RV32_ENCODE_TYPE_CMPP 0x02 0x2E 0x00 reg_list immediate).
Definition asm_rv32_opcode_csrrc (rd rs immediate : Z) : M asm_rv32_t unit :=
  asm_rv32_emit_word_opcode (RV32_ENCODE_TYPE_I 0x73 0x03 rd rs immediate).
Definition asm_rv32_opcode_csrrs (rd rs immediate : Z) : M asm_rv32_t unit :=
  asm_rv32_emit_word_opcode (RV32_ENCODE_TYPE_I 0x73 0x02 rd rs immediate).
Definition asm_rv32_opcode_csrrw (rd rs immediate : Z) : M asm_rv32_t unit :=
  asm_rv32_emit_word_opcode (RV32_ENCODE_TYPE_I 0x73 0x01 rd rs immediate).
Definition asm_rv32_opcode_csrrci (rd csr immediate : Z) : M asm_rv32_t unit :=
  asm_rv32_emit_word_opcode (RV32_ENCODE_TYPE_CSRI 0x73 0x07 rd csr immediate).
Definition asm_rv32_opcode_csrrsi (rd csr immediate : Z) : M asm_rv32_t unit :=
  asm_rv32_emit_word_opcode (RV32_ENCODE_TYPE_CSRI 0x73 0x06 rd csr immediate).
Definition asm_rv32_opcode_csrrwi (rd csr immediate : Z) : M asm_rv32_t unit :=
  asm_rv32_emit_word_opcode (RV32_ENCODE_TYPE_CSRI 0x73 0x05 rd csr immediate).
Definition asm_rv32_opcode_div (rd rs1 rs2 : Z) : M asm_rv32_t unit :=
  asm_rv32_emit_word_opcode (RV32_ENCODE_TYPE_R 0x33 0x04 0x01 rd rs1 rs2).
Definition asm_rv32_opcode_divu (rd rs1 rs2 : Z) : M asm_rv32_t unit :=
  asm_rv32_emit_word_opcode (RV32_ENCODE_TYPE_R 0x33 0x05 0x01 rd rs1 rs2).
Definition asm_rv32_opcode_ebreak : M asm_rv32_t unit :=
  asm_rv32_emit_word_opcode 0x100073.
Definition asm_rv32_opcode_ecall : M asm_rv32_t unit :=
  asm_rv32_emit_word_opcode 0x73.
Definition asm_rv32_opcode_jal (rd offset : Z) : M asm_rv32_t unit :=
  asm_rv32_emit_word_opcode (RV32_ENCODE_TYPE_J 0x6F rd offset).
Definition asm_rv32_opcode_jalr (rd rs offset : Z) : M asm_rv32_t unit :=
  asm_rv32_emit_word_opcode (RV32_ENCODE_TYPE_I 0x67 0x00 rd rs offset).
Definition asm_rv32_opcode_lb (rd rs offset : Z) : M asm_rv32_t unit :=
  asm_rv32_emit_word_opcode (RV32_ENCODE_TYPE_I 0x03 0x00 rd rs offset).
Definition asm_rv32_opcode_lbu (rd rs offset : Z) : M asm_rv32_t unit :=
  asm_rv32_emit_word_opcode (RV32_ENCODE_TYPE_I 0x03 0x04 rd rs offset).
Definition asm_rv32_opcode_lh (rd rs offset : Z) : M asm_rv32_t unit :=
  asm_rv32_emit_word_opcode (RV32_ENCODE_TYPE_I 0x03 0x01 rd rs offset).
Definition asm_rv32_opcode_lhu (rd rs offset : Z) : M asm_rv32_t unit :=
  asm_rv32_emit_word_opcode (RV32_ENCODE_TYPE_I 0x03 0x05 rd rs offset).
Definition asm_rv32_opcode_lui (rd immediate : Z) : M asm_rv32_t unit :=
  asm_rv32_emit_word_opcode (RV32_ENCODE_TYPE_U 0x37 rd immediate).
Definition asm_rv32_opcode_lw (rd rs offset : Z) : M asm_rv32_t unit :=
  asm_rv32_emit_word_opcode (RV32_ENCODE_TYPE_I 0x03 0x02 rd rs offset).
Definition asm_rv32_opcode_mul (rd rs1 rs2 : Z) : M asm_rv32_t unit :=
  asm_rv32_emit_word_opcode (RV32_ENCODE_TYPE_R 0x33 0x00 0x01 rd rs1 rs2).
Definition asm_rv32_opcode_mulh (rd rs1 rs2 : Z) : M asm_rv32_t unit :=
  asm_rv32_emit_word_opcode (RV32_ENCODE_TYPE_R 0x33 0x01 0x01 rd rs1 rs2).
Definition asm_rv32_opcode_mulhsu (rd rs1 rs2 : Z) : M asm_rv32_t unit :=
  asm_rv32_emit_word_opcode (RV32_ENCODE_TYPE_R 0x33 0x02 0x01 rd rs1 rs2).
Definition asm_rv32_opcode_mulhu (rd rs1 rs2 : Z) : M asm_rv32_t unit :=
  asm_rv32_emit_word_opcode (RV32_ENCODE_TYPE_R 0x33 0x03 0x01 rd rs1 rs2).
Definition asm_rv32_opcode_or (rd rs1 rs2 : Z) : M asm_rv32_t unit :=
  asm_rv32_emit_word_opcode (RV32_ENCODE_TYPE_R 0x33 0x06 0x00 rd rs1 rs2).
Definition asm_rv32_opcode_ori (rd rs immediate : Z) : M asm_rv32_t unit :=
  asm_rv32_emit_word_opcode (RV32_ENCODE_TYPE_I 0x13 0x06 rd rs immediate).
Definition asm_rv32_opcode_rem (rd rs1 rs2 : Z) : M asm_rv32_t unit :=
  asm_rv32_emit_word_opcode (RV32_ENCODE_TYPE_R 0x33 0x06 0x01 rd rs1 rs2).
Definition asm_rv32_opcode_remu (rd rs1 rs2 : Z) : M asm_rv32_t unit :=
  asm_rv32_emit_word_opcode (RV32_ENCODE_TYPE_R 0x33 0x07 0x01 rd rs1 rs2).
Definition asm_rv32_opcode_sh1add (rd rs1 rs2 : Z) : M asm_rv32_t unit :=
  asm_rv32_emit_word_opcode (RV32_ENCODE_TYPE_R 0x33 0x02 0x10 rd rs1 rs2).
Definition asm_rv32_opcode_sh2add (rd rs1 rs2 : Z) : M asm_rv32_t unit :=
  asm_rv32_emit_word_opcode (RV32_ENCODE_TYPE_R 0x33 0x04 0x10 rd rs1 rs2).
Definition asm_rv32_opcode_sh3add (rd rs1 rs2 : Z) : M asm_rv32_t unit :=
  asm_rv32_emit_word_opcode (RV32_ENCODE_TYPE_R 0x33 0x06 0x10 rd rs1 rs2).
Definition asm_rv32_opcode_sll (rd rs1 rs2 : Z) : M asm_rv32_t unit :=
  asm_rv32_emit_word_opcode (RV32_ENCODE_TYPE_R 0x33 0x01 0x00 rd rs1 rs2).
Definition asm_rv32_opcode_slli (rd rs immediate : Z) : M asm_rv32_t unit :=
  asm_rv32_emit_word_opcode (RV32_ENCODE_TYPE_I 0x13 0x01 rd rs (immediate .& 0x1F)).
Definition asm_rv32_opcode_slt (rd rs1 rs2 : Z) : M asm_rv32_t unit :=
  asm_rv32_emit_word_opcode (RV32_ENCODE_TYPE_R 0x33 0x02 0x00 rd rs1 rs2).
Definition asm_rv32_opcode_slti (rd rs immediate : Z) : M asm_rv32_t unit :=
  asm_rv32_emit_word_opcode (RV32_ENCODE_TYPE_I 0x13 0x02 rd rs immediate).
Definition asm_rv32_opcode_sltiu (rd rs immediate : Z) : M asm_rv32_t unit :=
  asm_rv32_emit_word_opcode (RV32_ENCODE_TYPE_I 0x13 0x03 rd rs immediate).
Definition asm_rv32_opcode_sltu (rd rs1 rs2 : Z) : M asm_rv32_t unit :=
  asm_rv32_emit_word_opcode (RV32_ENCODE_TYPE_R 0x33 0x03 0x00 rd rs1 rs2).
Definition asm_rv32_opcode_sra (rd rs1 rs2 : Z) : M asm_rv32_t unit :=
  asm_rv32_emit_word_opcode (RV32_ENCODE_TYPE_R 0x33 0x05 0x20 rd rs1 rs2).
Definition asm_rv32_opcode_srai (rd rs immediate : Z) : M asm_rv32_t unit :=
  asm_rv32_emit_word_opcode (RV32_ENCODE_TYPE_I 0x13 0x05 rd rs (((immediate .& 0x1F) .| 0x400))).
Definition asm_rv32_opcode_srl (rd rs1 rs2 : Z) : M asm_rv32_t unit :=
  asm_rv32_emit_word_opcode (RV32_ENCODE_TYPE_R 0x33 0x05 0x00 rd rs1 rs2).
Definition asm_rv32_opcode_srli (rd rs immediate : Z) : M asm_rv32_t unit :=
  asm_rv32_emit_word_opcode (RV32_ENCODE_TYPE_I 0x13 0x05 rd rs (immediate .& 0x1F)).
Definition asm_rv32_opcode_sub (rd rs1 rs2 : Z) : M asm_rv32_t unit :=
  asm_rv32_emit_word_opcode (RV32_ENCODE_TYPE_R 0x33 0x00 0x20 rd rs1 rs2).
Definition asm_rv32_opcode_sb (rs2 rs1 offset : Z) : M asm_rv32_t unit :=
  asm_rv32_emit_word_opcode (RV32_ENCODE_TYPE_S 0x23 0x00 rs1 rs2 offset).
Definition asm_rv32_opcode_sh (rs2 rs1 offset : Z) : M asm_rv32_t unit :=
  asm_rv32_emit_word_opcode (RV32_ENCODE_TYPE_S 0x23 0x01 rs1 rs2 offset).
Definition asm_rv32_opcode_sw (rs2 rs1 offset : Z) : M asm_rv32_t unit :=
  asm_rv32_emit_word_opcode (RV32_ENCODE_TYPE_S 0x23 0x02 rs1 rs2 offset).
Definition asm_rv32_opcode_xor (rd rs1 rs2 : Z) : M asm_rv32_t unit :=
  asm_rv32_emit_word_opcode (RV32_ENCODE_TYPE_R 0x33 0x04 0x00 rd rs1 rs2).
Definition asm_rv32_opcode_xori (rd rs immediate : Z) : M asm_rv32_t unit :=
  asm_rv32_emit_word_opcode (RV32_ENCODE_TYPE_I 0x13 0x04 rd rs immediate).

(** Opcode functions and formats, unfolded to the words they emit. *)
Create HintDb rv32_opcodes.
#[export] Hint Unfold asm_rv32_opcode_add asm_rv32_opcode_addi asm_rv32_opcode_and
  asm_rv32_opcode_andi asm_rv32_opcode_auipc asm_rv32_opcode_beq asm_rv32_opcode_bge
  asm_rv32_opcode_bgeu asm_rv32_opcode_blt asm_rv32_opcode_bltu asm_rv32_opcode_bne
  asm_rv32_opcode_cadd asm_rv32_opcode_caddi asm_rv32_opcode_caddi4spn asm_rv32_opcode_cand
  asm_rv32_opcode_candi asm_rv32_opcode_cbeqz asm_rv32_opcode_cbnez asm_rv32_opcode_cebreak
  asm_rv32_opcode_cj asm_rv32_opcode_cjal asm_rv32_opcode_cjalr asm_rv32_opcode_cjr
  asm_rv32_opcode_cli asm_rv32_opcode_clui asm_rv32_opcode_clw asm_rv32_opcode_clwsp
  asm_rv32_opcode_cmv asm_rv32_opcode_cnop asm_rv32_opcode_cor asm_rv32_opcode_cslli
  asm_rv32_opcode_csrai asm_rv32_opcode_csrli asm_rv32_opcode_csub asm_rv32_opcode_csw
  asm_rv32_opcode_cswsp asm_rv32_opcode_cxor asm_rv32_opcode_cmpopret asm_rv32_opcode_cmpush
  asm_rv32_opcode_csrrc asm_rv32_opcode_csrrs asm_rv32_opcode_csrrw asm_rv32_opcode_csrrci
  asm_rv32_opcode_csrrsi asm_rv32_opcode_csrrwi asm_rv32_opcode_div asm_rv32_opcode_divu
  asm_rv32_opcode_ebreak asm_rv32_opcode_ecall asm_rv32_opcode_jal asm_rv32_opcode_jalr
  asm_rv32_opcode_lb asm_rv32_opcode_lbu asm_rv32_opcode_lh asm_rv32_opcode_lhu
  asm_rv32_opcode_lui asm_rv32_opcode_lw asm_rv32_opcode_mul asm_rv32_opcode_mulh
  asm_rv32_opcode_mulhsu asm_rv32_opcode_mulhu asm_rv32_opcode_or asm_rv32_opcode_ori
  asm_rv32_opcode_rem asm_rv32_opcode_remu asm_rv32_opcode_sh1add asm_rv32_opcode_sh2add
  asm_rv32_opcode_sh3add asm_rv32_opcode_sll asm_rv32_opcode_slli asm_rv32_opcode_slt
  asm_rv32_opcode_slti asm_rv32_opcode_sltiu asm_rv32_opcode_sltu asm_rv32_opcode_sra
  asm_rv32_opcode_srai asm_rv32_opcode_srl asm_rv32_opcode_srli asm_rv32_opcode_sub
  asm_rv32_opcode_sb asm_rv32_opcode_sh asm_rv32_opcode_sw asm_rv32_opcode_xor
  asm_rv32_opcode_xori RV32_ENCODE_TYPE_B RV32_ENCODE_TYPE_CSRI RV32_ENCODE_TYPE_I
  RV32_ENCODE_TYPE_J RV32_ENCODE_TYPE_R RV32_ENCODE_TYPE_S RV32_ENCODE_TYPE_CA
  RV32_ENCODE_TYPE_U RV32_ENCODE_TYPE_CB RV32_ENCODE_TYPE_CI RV32_ENCODE_TYPE_CIW
  RV32_ENCODE_TYPE_CJ RV32_ENCODE_TYPE_CL RV32_ENCODE_TYPE_CMPP RV32_ENCODE_TYPE_CR
  RV32_ENCODE_TYPE_CS RV32_ENCODE_TYPE_CSS : rv32_opcodes.
