(* ===== verification/Emission.v ===== *)
(** * Emission: from emitted bytes to executed instructions

    What an operation of a back end means is stated in two steps.
    [assembles s op ins]: from state [s] the operation writes, at the current
    position, the encoding of the instructions [ins] and does nothing else.
    [implements s op P]: running those bytes, wherever they are placed, takes
    the target machine from any state [m] to one [m'] with [P n m m'], [n]
    being the number of bytes. *)

From S2P Require Import Prelude AsmBase Machine.

Set Default Goal Selector "!".

Section Emission.
Context `{SizeT} {S : Type} `{!HasBase S} `{Isa}.
Implicit Types (s : S) (m k : M S unit) (ins js : list (insn * Z)) (bs : list Z).

Definition assembles s m ins : Prop := exists bs, emits s m bs /\ disasm bs ins.

Lemma assembles_ret s : assembles s (mret tt) [].
Proof using. exists []. split; [apply emits_ret | constructor]. Qed.

Lemma assembles_seq s m k ins js :
  assembles s m ins ->
  (forall bs, disasm bs ins -> assembles (puts bs s) k js) ->
  assembles s (m;; k) (ins ++ js).
Proof using.
  intros (bs & Hm & Hd) Hk. destruct (Hk bs Hd) as (cs & Hk' & Hd').
  exists (bs ++ cs). split; [by apply emits_seq | by apply disasm_app].
Qed.

Lemma assembles_one s m bs i len :
  emits s m bs -> decode bs = Some (i, len) -> len = Z.of_nat (length bs) ->
  (length bs <= max_len)%nat -> assembles s m [(i, len)].
Proof using. intros. exists bs. split; [done | by apply disasm_one]. Qed.

Lemma assembles_ext s m k ins : m s = k s -> assembles s k ins -> assembles s m ins.
Proof using. intros E (bs & Hk & Hd). exists bs. split; [by eapply emits_to_ext|done]. Qed.

Lemma assembles_gets {A} (f : S -> A) s (k : A -> M S unit) ins :
  assembles s (k (f s)) ins -> assembles s (a ← gets f; k a) ins.
Proof using. done. Qed.

Lemma assembles_assert (c : bool) w s k ins :
  c = true -> assembles s k ins -> assembles s (assert_ c w;; k) ins.
Proof using. by intros ->. Qed.

Lemma assembles_if (c : bool) s m k ins js :
  (c = true -> assembles s m ins) -> (c = false -> assembles s k js) ->
  assembles s (if c then m else k) (if c then ins else js).
Proof using. destruct c; auto. Qed.

(** [P] on every run of the emitted bytes. *)
Definition implements s m (P : Z -> machine -> machine -> Prop) : Prop :=
  exists bs, emits s m bs /\
  forall code mc, 0 <= pc mc < 2 ^ addr_width -> code_at addr_width code (pc mc) bs ->
    exists mc', runs (step code) mc mc' /\ P (Z.of_nat (length bs)) mc mc'.

Lemma assembles_implements s m ins (P : Z -> machine -> machine -> Prop) :
  assembles s m ins ->
  (forall mc, 0 <= pc mc < 2 ^ addr_width ->
    exists mc', exec_straight ins mc = Some mc' /\ P (code_len ins) mc mc') ->
  implements s m P.
Proof using.
  intros (bs & Hm & Hd) HP. exists bs. split; [done|]. intros code mc Hpc Hc.
  destruct (HP mc Hpc) as (mc' & He & HP'). exists mc'. split.
  - by eapply runs_straight.
  - by rewrite (disasm_length _ _ Hd).
Qed.

(** The same for a run that leaves the block after its first [j]
    instructions, as a branch over the others does. *)
Lemma assembles_implements_prefix s m ins (P : Z -> machine -> machine -> Prop) :
  assembles s m ins ->
  (forall mc, 0 <= pc mc < 2 ^ addr_width ->
    exists j mc', exec_straight (take j ins) mc = Some mc' /\ P (code_len ins) mc mc') ->
  implements s m P.
Proof using.
  intros (bs & Hm & Hd) HP. exists bs. split; [done|]. intros code mc Hpc Hc.
  destruct (HP mc Hpc) as (j & mc' & He & HP'). exists mc'.
  rewrite (disasm_length _ _ Hd). split; [|done].
  destruct (disasm_take bs ins j Hd) as (bs1 & bs2 & -> & Hd1).
  apply code_at_app in Hc as [Hc _]. by eapply runs_straight.
Qed.

Lemma implements_gets {A} (f : S -> A) s (k : A -> M S unit) P :
  implements s (k (f s)) P -> implements s (a ← gets f; k a) P.
Proof using. done. Qed.

Lemma implements_ext s m k (P : Z -> machine -> machine -> Prop) :
  m s = k s -> implements s k P -> implements s m P.
Proof using.
  intros E (bs & Hk & HP). exists bs. split; [|done]. by eapply emits_to_ext.
Qed.

Lemma implements_mono s m (P Q : Z -> machine -> machine -> Prop) :
  implements s m P -> (forall n mc mc', P n mc mc' -> Q n mc mc') -> implements s m Q.
Proof using.
  intros (bs & Hm & HP) HQ. exists bs. split; [done|]. intros code mc Hpc Hc.
  destruct (HP code mc Hpc Hc) as (mc' & ? & ?). eauto.
Qed.
End Emission.

(** ** Straight-line operations *)

Section Straight.
Context `{SizeT} {S : Type} `{!HasBase S} `{Isa}.
Implicit Types (s : S) (m k : M S unit) (f g : machine -> machine).

(** [m] emits code that applies [f] to the machine and falls through. *)
Definition performs s m f : Prop :=
  implements s m (fun n mc mc' => mc' = set_pc (uw addr_width (pc mc + n)) (f mc)).

Lemma implements_seq s m k (P Q : Z -> machine -> machine -> Prop) :
  implements s m (fun n mc mc' => pc mc' = uw addr_width (pc mc + n) /\ P n mc mc') ->
  (forall bs, implements (puts bs s) k Q) ->
  implements s (m;; k) (fun n mc mc' => exists n1 n2 mc1,
    n = n1 + n2 /\ pc mc1 = uw addr_width (pc mc + n1) /\ P n1 mc mc1 /\ Q n2 mc1 mc').
Proof using.
  intros (bs & Hm & HP) Hk. destruct (Hk bs) as (cs & Hk' & HQ).
  exists (bs ++ cs). split; [by apply emits_seq|]. intros code mc Hw [Hc1 Hc2]%code_at_app.
  destruct (HP code mc Hw Hc1) as (mc1 & Hr1 & Hpc & HP1).
  destruct (HQ code mc1) as (m2 & Hr2 & HQ2).
  { rewrite Hpc. apply uw_range, addr_width_pos. }
  { rewrite Hpc. by apply code_at_uw; [apply addr_width_pos|]. }
  exists m2. split; [by eapply runs_trans|]. rewrite length_app, Nat2Z.inj_add. eauto 8.
Qed.

(** [g] does not look at the program counter. *)
Definition pc_blind g : Prop := forall a mc, g (set_pc a mc) = set_pc a (g mc).

Lemma performs_seq s m k f g :
  performs s m f -> pc_blind f -> pc_blind g -> (forall bs, performs (puts bs s) k g) ->
  performs s (m;; k) (fun mc => g (f mc)).
Proof using.
  intros Hm Hf Hg Hk. eapply implements_mono.
  - eapply (implements_seq s m k
      (fun n mc mc' => mc' = set_pc (uw addr_width (pc mc + n)) (f mc))).
    + eapply implements_mono; [apply Hm|]. by intros n mc mc' ->.
    + apply Hk.
  - intros n mc mc' (n1 & n2 & mc1 & -> & _ & -> & ->). simpl.
    rewrite Hg. unfold set_pc; simpl. f_equal.
    rewrite uw_add_l by apply addr_width_pos. f_equal. lia.
Qed.

Lemma performs_then s m k f (Q : Z -> machine -> machine -> Prop) :
  performs s m f -> (forall bs, implements (puts bs s) k Q) ->
  implements s (m;; k) (fun n mc mc' => exists n1 n2,
    n = n1 + n2 /\ Q n2 (set_pc (uw addr_width (pc mc + n1)) (f mc)) mc').
Proof using.
  intros Hm Hk. eapply implements_mono.
  - eapply (implements_seq s m k
      (fun n mc mc' => mc' = set_pc (uw addr_width (pc mc + n)) (f mc))); [|done].
    eapply implements_mono; [apply Hm|]. by intros n mc mc' ->.
  - intros n mc mc' (n1 & n2 & mc1 & -> & _ & -> & HQ). eauto.
Qed.

(** The same, the length of the first operation's code being known. *)
Lemma assembles_then s m k ins f (Q : Z -> machine -> machine -> Prop) :
  assembles s m ins ->
  (forall mc, exec_straight ins mc = Some (set_pc (uw addr_width (pc mc + code_len ins)) (f mc))) ->
  (forall bs, Z.of_nat (length bs) = code_len ins -> implements (puts bs s) k Q) ->
  implements s (m;; k) (fun n mc mc' => exists n2,
    n = code_len ins + n2 /\ Q n2 (set_pc (uw addr_width (pc mc + code_len ins)) (f mc)) mc').
Proof using.
  intros (bs & Hm & Hd) He Hk. pose proof (disasm_length _ _ Hd) as Hl.
  destruct (Hk bs Hl) as (cs & Hk' & HQ). exists (bs ++ cs). split; [by apply emits_seq|].
  intros code mc Hw [Hc1 Hc2]%code_at_app. rewrite Hl in Hc2.
  destruct (HQ code (set_pc (uw addr_width (pc mc + code_len ins)) (f mc))) as (m2 & Hr2 & HQ2);
    [apply uw_range, addr_width_pos|apply code_at_uw; [apply addr_width_pos|done]|].
  exists m2. split; [by eapply runs_trans; [eapply runs_straight|]|].
  rewrite length_app, Nat2Z.inj_add, Hl. eauto.
Qed.

(** Code that leaves in the middle, for a subroutine, and is entered again
    there: [P] holds on leaving, and [Q] of every run from the return. *)
Definition implements_around s m (P Q : Z -> machine -> machine -> Prop) : Prop :=
  exists bs cs, emits s m (bs ++ cs) /\
  forall code mc, 0 <= pc mc < 2 ^ addr_width -> code_at addr_width code (pc mc) (bs ++ cs) ->
    exists mc1, runs (step code) mc mc1 /\ P (Z.of_nat (length bs)) mc mc1 /\
    forall mc2, pc mc2 = uw addr_width (pc mc + Z.of_nat (length bs)) ->
      exists mc3, runs (step code) mc2 mc3 /\ Q (Z.of_nat (length cs)) mc2 mc3.

Lemma implements_around_intro s m k (P Q : Z -> machine -> machine -> Prop) :
  implements s m P -> (forall bs, implements (puts bs s) k Q) -> implements_around s (m;; k) P Q.
Proof using.
  intros (bs & Hm & HP) Hk. destruct (Hk bs) as (cs & Hk' & HQ).
  exists bs, cs. split; [by apply emits_seq|]. intros code mc Hw [Hc1 Hc2]%code_at_app.
  destruct (HP code mc Hw Hc1) as (mc1 & ? & ?). exists mc1. do 2 (split; [done|]).
  intros mc2 Hpc. apply (HQ code mc2); rewrite Hpc; [apply uw_range, addr_width_pos|].
  apply code_at_uw; [apply addr_width_pos|done].
Qed.
Lemma implements_around_ext s m k (P Q : Z -> machine -> machine -> Prop) :
  m s = k s -> implements_around s k P Q -> implements_around s m P Q.
Proof using.
  intros E (bs & cs & Hk & HP). exists bs, cs. split; [|done]. by eapply emits_to_ext.
Qed.

Lemma performs_ret s : performs s (mret tt) id.
Proof using.
  exists []. split; [apply emits_ret|]. intros code mc Hw _. exists mc.
  split; [apply runs_refl|]. rewrite Z.add_0_r, uw_small by done. by destruct mc.
Qed.

Lemma performs_if (c : bool) s m f : (c = true -> performs s m f) ->
  performs s (if c then m else mret tt) (fun mc => if c then f mc else mc).
Proof using. intros Hf. destruct c; [auto|apply performs_ret]. Qed.

Lemma performs_ext s m f g : (forall mc, f mc = g mc) -> performs s m f -> performs s m g.
Proof using.
  intros E Hf. eapply implements_mono; [apply Hf|]. intros n mc mc' ->. by rewrite E.
Qed.

Lemma assembles_performs s m ins f :
  assembles s m ins ->
  (forall mc, 0 <= pc mc < 2 ^ addr_width -> exec_straight ins mc
     = Some (set_pc (uw addr_width (pc mc + code_len ins)) (f mc))) ->
  performs s m f.
Proof using. intros Hm Hf. eapply assembles_implements; [done|]. eauto. Qed.

Lemma performs_gets {A} (h : S -> A) s (k : A -> M S unit) f :
  performs s (k (h s)) f -> performs s (a ← gets h; k a) f.
Proof using. done. Qed.
Lemma performs_assert (c : bool) w s k f :
  c = true -> performs s k f -> performs s (assert_ c w;; k) f.
Proof using. by intros ->. Qed.

(** An update at the end that restores what is already there. *)
Lemma implements_post s m post (P : Z -> machine -> machine -> Prop) :
  implements s m P -> (forall bs, post (puts bs s) = Ok (tt, puts bs s)) ->
  implements s (m;; post) P.
Proof using.
  intros (bs & Hm & HP) Hpost. exists bs. split; [|done]. by eapply emits_to_post.
Qed.

(** Operations that also update the back end's own fields: [s'] is the
    resulting state but for what is emitted. *)
Definition implements_to s s' m (P : Z -> machine -> machine -> Prop) : Prop :=
  base_of s' = base_of s /\ exists bs, emits_to s s' m bs /\
  forall code mc, 0 <= pc mc < 2 ^ addr_width -> code_at addr_width code (pc mc) bs ->
    exists mc', runs (step code) mc mc' /\ P (Z.of_nat (length bs)) mc mc'.

(** Updates before the emission ([s1]) and after it ([post]). *)
Lemma implements_to_intro s s1 s' m k post (P : Z -> machine -> machine -> Prop) :
  base_of s1 = base_of s -> base_of s' = base_of s -> m s = (k;; post) s1 ->
  (forall bs, post (puts bs s1) = Ok (tt, puts bs s')) ->
  implements s1 k P -> implements_to s s' m P.
Proof using.
  intros Hb Hb' Hm Hpost (bs & Hk & HP). split; [done|]. exists bs. split; [|done].
  eapply emits_to_ext; [exact Hb|exact Hm|]. by eapply emits_to_post.
Qed.

Lemma implements_to_mono s s' m (P Q : Z -> machine -> machine -> Prop) :
  implements_to s s' m P -> (forall n mc mc', P n mc mc' -> Q n mc mc') ->
  implements_to s s' m Q.
Proof using.
  intros (Hb & bs & Hm & HP) HQ. split; [done|]. exists bs. split; [done|].
  intros code mc Hpc Hc. destruct (HP code mc Hpc Hc) as (mc' & ? & ?). eauto.
Qed.

Lemma implements_to_self s m P : implements s m P -> implements_to s s m P.
Proof using. intros HP. by split. Qed.

(** Another way to write the same operation, from a state with the same base. *)
Lemma implements_to_ext s t s' m k (P : Z -> machine -> machine -> Prop) :
  base_of t = base_of s -> m s = k t -> implements_to t s' k P -> implements_to s s' m P.
Proof using.
  intros Hb E (Hb' & bs & Hk & HP). split; [congruence|]. exists bs. split; [|done].
  by eapply emits_to_ext.
Qed.
End Straight.

(** ** Code that is run under a condition

    [C bs mc] may say how the emitted bytes [bs] and the machine are related,
    as when an instruction loads a word that was emitted with it.  The
    operation may also fill in a table elsewhere in the region. *)
Section Conditional.
Context `{SizeT} {S : Type} `{!HasBase S} `{Isa}.
Implicit Types (s : S) (m k : M S unit) (C D : list Z -> machine -> Prop).

Definition implements_when C s s' m (P : Z -> machine -> machine -> Prop) : Prop :=
  refilled (base_of s) (base_of s') /\ exists bs, emits_to s s' m bs /\
  forall code mc, 0 <= pc mc < 2 ^ addr_width -> code_at addr_width code (pc mc) bs -> C bs mc ->
    exists mc', runs (step code) mc mc' /\ P (Z.of_nat (length bs)) mc mc'.
Definition performs_when C s m (f : machine -> machine) : Prop :=
  implements_when C s s m (fun n mc mc' => mc' = set_pc (uw addr_width (pc mc + n)) (f mc)).

Lemma when_implements C s m (P : Z -> machine -> machine -> Prop) :
  implements s m P -> implements_when C s s m P.
Proof using. intros (bs & He & HP). split; [done|]. exists bs. eauto. Qed.

Lemma when_mono C D s s' m (P Q : Z -> machine -> machine -> Prop) :
  implements_when C s s' m P -> (forall bs mc, D bs mc -> C bs mc) ->
  (forall n mc mc', P n mc mc' -> Q n mc mc') -> implements_when D s s' m Q.
Proof using.
  intros (Hb & bs & He & HP) HC HQ. split; [done|]. exists bs. split; [done|].
  intros code mc Hw Hc HD. destruct (HP code mc Hw Hc) as (mc' & ? & ?); eauto.
Qed.

(** What the condition says of the machine alone may be used in the end. *)
Lemma when_given C (D : machine -> Prop) s s' m (P Q : Z -> machine -> machine -> Prop) :
  implements_when C s s' m P -> (forall n mc mc', D mc -> P n mc mc' -> Q n mc mc') ->
  implements_when (fun bs mc => C bs mc /\ D mc) s s' m Q.
Proof using.
  intros (Hb & bs & He & HP) HQ. split; [done|]. exists bs. split; [done|].
  intros code mc Hw Hc [HC HD]. destruct (HP code mc Hw Hc HC) as (mc' & ? & ?); eauto.
Qed.

Lemma when_ext C s t s' m k (P : Z -> machine -> machine -> Prop) :
  base_of t = base_of s -> m s = k t -> implements_when C t s' k P -> implements_when C s s' m P.
Proof using.
  intros Hb E (Hb' & bs & Hk & HP). split; [by rewrite <- Hb|]. exists bs. split; [|done].
  by eapply emits_to_ext.
Qed.
Lemma when_post C s s' m post (P : Z -> machine -> machine -> Prop) :
  base_of s' = base_of s -> (forall bs, post (puts bs s) = Ok (tt, puts bs s')) ->
  implements_when C s s m P -> implements_when C s s' (m;; post) P.
Proof using.
  intros Hb Hpost (_ & bs & Hm & HP). split; [by rewrite Hb|]. exists bs. split; [|done].
  by eapply emits_to_post.
Qed.

Lemma when_assert C s s' (c : bool) w k (P : Z -> machine -> machine -> Prop) :
  c = true -> implements_when C s s' k P -> implements_when C s s' (assert_ c w;; k) P.
Proof using. by intros ->. Qed.

(** One operation after another: [C] of both is [C1] of the first, and [C2] of
    the second where the first leaves the machine. *)
Lemma when_then_to C C1 C2 s s1 s2 m k (P Q : Z -> machine -> machine -> Prop) :
  implements_when C1 s s1 m (fun n mc mc' => pc mc' = uw addr_width (pc mc + n) /\ P n mc mc') ->
  refilled (base_of s1) (base_of s2) ->
  (forall bs, implements_when C2 (puts bs s1) (puts bs s2) k Q) ->
  (forall bs cs mc, C (bs ++ cs) mc -> C1 bs mc /\
     forall mc1, pc mc1 = uw addr_width (pc mc + Z.of_nat (length bs)) ->
       P (Z.of_nat (length bs)) mc mc1 -> C2 cs mc1) ->
  implements_when C s s2 (m;; k) (fun n mc mc' => exists n1 n2 mc1,
    n = n1 + n2 /\ pc mc1 = uw addr_width (pc mc + n1) /\ P n1 mc mc1 /\ Q n2 mc1 mc').
Proof using.
  intros (Hf & bs & Hm & HP) Hf2 Hk HC. destruct (Hk bs) as (_ & cs & Hk' & HQ).
  split; [by eapply refilled_trans|]. exists (bs ++ cs). split; [by eapply emits_seq_refilled|].
  intros code mc Hw [Hc1 Hc2]%code_at_app Hcond. destruct (HC bs cs mc Hcond) as [H1 H2].
  destruct (HP code mc Hw Hc1 H1) as (mc1 & Hr1 & Hpc & HP1).
  destruct (HQ code mc1) as (mc2 & Hr2 & HQ2); rewrite ?Hpc;
    [apply uw_range, addr_width_pos|apply code_at_uw; [apply addr_width_pos|done]|by apply H2|].
  exists mc2. split; [by eapply runs_trans|]. rewrite length_app, Nat2Z.inj_add. eauto 8.
Qed.
Lemma when_then C C1 C2 s m k (P Q : Z -> machine -> machine -> Prop) :
  implements_when C1 s s m (fun n mc mc' => pc mc' = uw addr_width (pc mc + n) /\ P n mc mc') ->
  (forall bs, implements_when C2 (puts bs s) (puts bs s) k Q) ->
  (forall bs cs mc, C (bs ++ cs) mc -> C1 bs mc /\
     forall mc1, pc mc1 = uw addr_width (pc mc + Z.of_nat (length bs)) ->
       P (Z.of_nat (length bs)) mc mc1 -> C2 cs mc1) ->
  implements_when C s s (m;; k) (fun n mc mc' => exists n1 n2 mc1,
    n = n1 + n2 /\ pc mc1 = uw addr_width (pc mc + n1) /\ P n1 mc mc1 /\ Q n2 mc1 mc').
Proof using. intros Hm Hk HC. by eapply when_then_to. Qed.
(** More code after an operation that needs [C]. *)
Lemma when_performs_to C s s1 m k f g :
  implements_when C s s1 m (fun n mc mc' => mc' = set_pc (uw addr_width (pc mc + n)) (f mc)) ->
  (forall bs cs mc, C (bs ++ cs) mc -> C bs mc) -> pc_blind g -> (forall bs, performs (puts bs s1) k g) ->
  implements_when C s s1 (m;; k) (fun n mc mc' => mc' = set_pc (uw addr_width (pc mc + n)) (g (f mc))).
Proof using.
  intros Hm HC Hg Hk. eapply when_mono; [eapply (when_then_to C C (fun _ _ => True) s s1 s1 m k
    (fun n mc mc1 => mc1 = set_pc (uw addr_width (pc mc + n)) (f mc)))|done|].
  - eapply when_mono; [exact Hm|done|]. by intros n mc mc' ->.
  - done.
  - intros bs. apply when_implements, Hk.
  - intros bs cs mc Hc. split; [by eapply HC|done].
  - cbv beta. intros n mc mc' (n1 & n2 & mc1 & -> & _ & -> & ->). simpl. rewrite Hg. unfold set_pc; simpl. f_equal.
    rewrite uw_add_l by apply addr_width_pos. f_equal. lia.
Qed.
(** The same after instructions whose length is known: what is required of the
    second operation may depend on where it starts. *)
Lemma assembles_when C (D : list Z -> list Z -> machine -> Prop) s m k ins P Q :
  assembles s m ins ->
  (forall mc, 0 <= pc mc < 2 ^ addr_width -> exists mc1, exec_straight ins mc = Some mc1
     /\ pc mc1 = uw addr_width (pc mc + code_len ins) /\ P mc mc1) ->
  (forall bs, Z.of_nat (length bs) = code_len ins -> implements_when (D bs) (puts bs s) (puts bs s) k Q) ->
  (forall bs cs mc mc1, Z.of_nat (length bs) = code_len ins -> C (bs ++ cs) mc ->
     pc mc1 = uw addr_width (pc mc + code_len ins) -> P mc mc1 -> D bs cs mc1) ->
  implements_when C s s (m;; k) (fun n mc mc' => exists n2 mc1, n = code_len ins + n2
    /\ pc mc1 = uw addr_width (pc mc + code_len ins) /\ P mc mc1 /\ Q n2 mc1 mc').
Proof using.
  intros (bs & Hm & Hd) He Hk HC. pose proof (disasm_length _ _ Hd) as Hl.
  destruct (Hk bs Hl) as (_ & cs & Hk' & HQ).
  split; [done|]. exists (bs ++ cs). split; [by eapply emits_seq|].
  intros code mc Hw [Hc1 Hc2]%code_at_app Hcond. rewrite Hl in Hc2.
  destruct (He mc Hw) as (mc1 & Hr1 & Hpc & HP1).
  destruct (HQ code mc1) as (mc2 & Hr2 & HQ2); rewrite ?Hpc;
    [apply uw_range, addr_width_pos|apply code_at_uw; [apply addr_width_pos|done]|by eapply HC|].
  exists mc2. split; [by eapply runs_trans; [eapply runs_straight|]|].
  rewrite length_app, Nat2Z.inj_add, Hl. eauto 8.
Qed.
Lemma when_seq C C1 C2 s m k f (Q : Z -> machine -> machine -> Prop) :
  performs_when C1 s m f -> (forall bs, implements_when C2 (puts bs s) (puts bs s) k Q) ->
  (forall bs cs mc, C (bs ++ cs) mc -> C1 bs mc
     /\ C2 cs (set_pc (uw addr_width (pc mc + Z.of_nat (length bs))) (f mc))) ->
  implements_when C s s (m;; k) (fun n mc mc' => exists n1 n2,
    n = n1 + n2 /\ Q n2 (set_pc (uw addr_width (pc mc + n1)) (f mc)) mc').
Proof using.
  intros Hm Hk HC. eapply when_mono; [eapply (when_then C C1 C2 s m k
    (fun n mc mc1 => mc1 = set_pc (uw addr_width (pc mc + n)) (f mc)) Q)|done|].
  - eapply when_mono; [exact Hm|done|]. by intros n mc mc' ->.
  - exact Hk.
  - intros bs cs mc Hb. destruct (HC bs cs mc Hb) as [H1 H2]. split; [done|]. by intros mc1 _ ->.
  - intros n mc mc' (n1 & n2 & mc1 & -> & _ & -> & HQ). eauto.
Qed.
Lemma performs_when_seq C C1 C2 s m k f g : performs_when C1 s m f -> pc_blind g ->
  (forall bs, performs_when C2 (puts bs s) k g) ->
  (forall bs cs mc, C (bs ++ cs) mc -> C1 bs mc
     /\ C2 cs (set_pc (uw addr_width (pc mc + Z.of_nat (length bs))) (f mc))) ->
  performs_when C s (m;; k) (fun mc => g (f mc)).
Proof using.
  intros Hm Hg Hk HC. eapply when_mono; [by eapply when_seq|done|].
  intros n mc mc' (n1 & n2 & -> & ->). rewrite Hg. unfold set_pc; simpl. f_equal.
  rewrite uw_add_l by apply addr_width_pos. f_equal. lia.
Qed.
End Conditional.

(** ** The emitted bytes as code in memory *)

Section Loaded.
Context `{SizeT} {S : Type} `{!HasBase S} `{Isa}.
Implicit Types (s : S) (m : M S unit).

(** The memory of the target once the region is in place: the byte at
    address [a] of the region, 0 outside it. *)
Definition loaded (b : mp_asm_base_t) (a : Z) : Z :=
  List.nth (Z.to_nat (uw addr_width (a - code_base b))) (code_mem b) 0.

(** The region fits the address space of the target. *)
Definition addressable (b : mp_asm_base_t) : Prop := code_size b <= 2 ^ addr_width.

Lemma put_bytes_loaded bs b : base_wf b -> pass b = MP_ASM_PASS_EMIT -> suppress b = false ->
  can_put (Z.of_nat (length bs)) b -> addressable b ->
  code_at addr_width (loaded (put_bytes bs b)) (code_base b + code_offset b) bs.
Proof using.
  intros Hwf Hp Hs Hput Ha i x Hi. pose proof (put_bytes_read bs b Hwf Hp Hs Hput) as Hread.
  destruct Hput as [|[Hfit Hroom]]; [congruence|]. specialize (Hroom Hp).
  pose proof (wf_code_offset b Hwf) as Ho. apply lookup_lt_Some in Hi as Hlt.
  unfold loaded. rewrite put_bytes_base. unfold addressable in Ha.
  pose proof addr_width_pos as Hw.
  rewrite <- uw_sub_l, uw_uw, uw_sub_l by done.
  replace (code_base b + code_offset b + Z.of_nat i - code_base b)
    with (code_offset b + Z.of_nat i) by lia.
  rewrite uw_small by lia. rewrite <- Hread in Hi. unfold region in Hi.
  rewrite lookup_take_lt, lookup_drop in Hi by done.
  replace (Z.to_nat (code_offset b + Z.of_nat i)) with (Z.to_nat (code_offset b) + i)%nat by lia.
  rewrite nth_lookup, Hi. done.
Qed.

(** An operation that [implements] a behaviour, in the emit pass: it needs
    [n] bytes; with that much room it succeeds, and a machine at the
    address the code was emitted to runs it as the behaviour says. *)
Lemma implements_runs s m P : implements s m P -> addressable (base_of s) ->
  pass (base_of s) = MP_ASM_PASS_EMIT -> suppress (base_of s) = false ->
  exists n, ready n s -> exists s', m s = Ok (tt, s')
    /\ code_offset (base_of s') = code_offset (base_of s) + n
    /\ forall mc, pc mc = uw addr_width (code_base (base_of s) + code_offset (base_of s)) ->
       exists mc', runs (step (loaded (base_of s'))) mc mc' /\ P n mc mc'.
Proof using.
  intros (bs & (Hb & Hm & _) & HP) Ha Hp Hs. exists (Z.of_nat (length bs)). intros Hr.
  exists (puts bs s). split; [by apply Hm|]. rewrite base_of_puts. split.
  { by rewrite put_bytes_offset, Hs. }
  intros mc Hpc. apply HP; rewrite Hpc; [apply uw_range, addr_width_pos|].
  apply code_at_uw; [apply addr_width_pos|]. destruct Hr. by apply put_bytes_loaded.
Qed.
End Loaded.
