(* ===== verification/Program.v ===== *)
(** * Program: the code of a whole program, in memory

    Joins the two passes with the meaning of the emitted code: what an
    operation's code does, it does in the finished image of the program,
    wherever the region was placed, and labels resolve to the offsets they
    were given. *)

From S2P Require Import Prelude AsmBase Machine Emission TwoPass.

Set Default Goal Selector "!".

Section Program.
Context `{PlatAllocExec} {S : Type} `{!HasBase S} `{!PassTable S} `{Isa}.
Context (L : Z) (HL : 0 < L < 2 ^ size_bits - 1).
Context (agree : S -> S -> Prop).
Context {Op : Type} (exec : Op -> M S unit) (size : Op -> Z).
Implicit Types (s : S) (bs : list Z).

Abbreviation offset s := (code_offset (base_of s)).
Abbreviation labels s := (label_offsets (base_of s)).

(** What was written stays where it is while the program goes on. *)
Lemma kept_code bs sa s' s2 : base_of s' = base_of sa -> base_wf (base_of sa) -> pass (base_of sa) = MP_ASM_PASS_EMIT ->
  suppress (base_of sa) = false -> ready (Z.of_nat (length bs)) sa ->
  kept sa (puts bs s') -> kept (puts bs s') s2 -> (forall i, ~ in_table s' i) -> addressable (base_of s2) ->
  code_at addr_width (loaded (base_of s2)) (code_base (base_of s2) + offset sa) bs.
Proof.
  intros Hb Hwf Hp Hs [_ Hput] K1 K2 Ht Ha i x Hi.
  pose proof (put_bytes_read bs (base_of sa) Hwf Hp Hs Hput) as Hread.
  pose proof Hput as Hput'. destruct Hput' as [|[Hfit Hroom]]; [congruence|]. specialize (Hroom Hp).
  pose proof (wf_code_offset _ Hwf) as Ho. apply lookup_lt_Some in Hi as Hlt.
  pose proof (kept_size _ _ K1) as Hs1. pose proof (kept_size _ _ K2) as Hs2.
  pose proof addr_width_pos as Hw. unfold loaded. unfold addressable in Ha.
  rewrite <- uw_sub_l, uw_uw, uw_sub_l by done.
  replace (code_base (base_of s2) + offset sa + Z.of_nat i - code_base (base_of s2))
    with (offset sa + Z.of_nat i) by lia.
  rewrite uw_small by lia. rewrite nth_lookup, (kept_mem _ _ K2).
  2: { rewrite base_of_puts, Hb, put_bytes_offset, Hs. lia. }
  2: { unfold puts. rewrite in_table_base. apply Ht. }
  rewrite <- Hread in Hi. unfold region in Hi. rewrite lookup_take_lt, lookup_drop in Hi by done.
  rewrite base_of_puts, Hb.
  replace (Z.to_nat (offset sa + Z.of_nat i)) with (Z.to_nat (offset sa) + i)%nat by lia.
  by rewrite Hi.
Qed.

Lemma program_runs E n0 (first : M S unit) ops1 op ops2 s0 s1 s1' :
  0 <= n0 -> grows L n0 first -> twin L E agree n0 eq first first ->
  Forall (steady_op L agree exec size) (ops1 ++ op :: ops2) ->
  n0 + total size (ops1 ++ op :: ops2) <= L -> base_wf (base_of s0) ->
  run_pass MP_ASM_PASS_COMPUTE (first;; seq_ops exec (ops1 ++ op :: ops2)) s0 = Ok (tt, s1) ->
  handover E s0 s1 s1' ->
  exists sa s2,
    run_pass MP_ASM_PASS_EMIT (first;; seq_ops exec (ops1 ++ op :: ops2)) s1' = Ok (tt, s2)
    /\ offset s2 = offset s1 /\ labels s2 = labels s1
    /\ run_pass MP_ASM_PASS_EMIT (first;; seq_ops exec ops1) s1' = Ok (tt, sa)
    /\ labels sa = labels s1 /\ base_wf (base_of sa) /\ offset sa <= offset s1
    /\ forall s' P, implements_to sa s' (exec op) P -> suppress (base_of sa) = false ->
         (forall i, ~ in_table s' i) -> addressable (base_of s2) ->
         forall mc, pc mc = uw addr_width (code_base (base_of s2) + offset sa) ->
         exists n mc', runs (step (loaded (base_of s2))) mc mc' /\ P n mc mc'.
Proof using HL.
  intros Hn0 Gf Tf Hops HnL Hwf Hrun HE.
  destruct (program_at L agree exec size E n0 first ops1 op ops2 s0 s1 s1')
    as (sa & sb & s2 & Ea & Eb & E2 & Ho & Hl & _ & Hwa & Hla & Hpa & K1 & K2 & Hsz & _ & Hr & Hr'); try done.
  exists sa, s2. do 6 (split; [done|]). split; [lia|].
  intros s' P (Hb & bs & (Hbs & Hm & Hroom) & HP) Hs Ht Ha mc Hpc.
  pose proof (kept_size _ _ K1) as Hs1. pose proof (kept_size _ _ K2) as Hs2.
  assert (ready (Z.of_nat (length bs)) sa) as Hrd.
  { split; [done|]. eapply Hroom; [|done|exact Eb]. split; [done|]. right. split; [|lia].
    pose proof (wf_code_offset _ Hwa). lia. }
  rewrite (Hm Hrd) in Eb. injection Eb as <-.
  exists (Z.of_nat (length bs)). apply HP.
  - rewrite Hpc. apply uw_range, addr_width_pos.
  - rewrite Hpc. apply code_at_uw; [apply addr_width_pos|].
    by eapply kept_code.
Qed.
End Program.
