(* ===== verification/PyMisc.v ===== *)
(** * PyMisc: the macros of py/misc.h the back ends use

    The header is not part of the repository.  Its macros are parameters of
    the models, with their documented meaning; [py_misc] is an instance. *)

From S2P Require Import Prelude.

Set Default Goal Selector "!".

(** The number of set bits among the low 32. *)
Definition popcount (x : Z) : Z :=
  Z.of_nat (length (filter (fun i => Z.testbit x (Z.of_nat i) = true) (seq 0 32))).

Class PyMisc := {
  MP_FIT_UNSIGNED : Z -> Z -> bool;
  MP_FIT_SIGNED : Z -> Z -> bool;
  mp_popcount : Z -> Z;
  mp_clz : Z -> Z;
  mp_ctz : Z -> Z;
  MP_FIT_UNSIGNED_spec bits v : 0 < bits < 32 -> - 2 ^ 31 <= v < 2 ^ 32 ->
    MP_FIT_UNSIGNED bits v = true <-> 0 <= v < 2 ^ bits;
  MP_FIT_SIGNED_spec bits v : 0 < bits < 32 -> - 2 ^ 31 <= v < 2 ^ 31 ->
    MP_FIT_SIGNED bits v = true <-> - 2 ^ (bits - 1) <= v < 2 ^ (bits - 1);
  mp_popcount_spec x : 0 <= x < 2 ^ 32 -> mp_popcount x = popcount x;
  mp_clz_spec x : 0 < x < 2 ^ 32 -> mp_clz x = 31 - Z.log2 x;
  mp_ctz_spec x k : 0 < x < 2 ^ 32 -> 0 <= k -> Z.testbit x k = true ->
    (forall i, 0 <= i < k -> Z.testbit x i = false) -> mp_ctz x = k;
}.

Fixpoint ctz_pos (p : positive) : Z :=
  match p with xO p => 1 + ctz_pos p | _ => 0 end.

Lemma ctz_pos_spec p : 0 <= ctz_pos p /\ Z.testbit (Zpos p) (ctz_pos p) = true
  /\ forall i, 0 <= i < ctz_pos p -> Z.testbit (Zpos p) i = false.
Proof.
  induction p as [p IH|p (H0 & Ht & Hf)|]; simpl ctz_pos; [|rewrite (Pos2Z.inj_xO p)|]; repeat split; try lia.
  - rewrite Z.add_comm, Z.add_1_r, Z.double_bits_succ. done.
  - intros i Hi. destruct (decide (i = 0)) as [->|]; [apply Z.testbit_even_0|].
    replace i with (Z.succ (i - 1)) by lia. rewrite Z.double_bits_succ. apply Hf. lia.
Qed.

Definition py_misc : PyMisc.
Proof.
  refine {|
    MP_FIT_UNSIGNED bits v := (0 <=? v) && (v <? 2 ^ bits);
    MP_FIT_SIGNED bits v := (- 2 ^ (bits - 1) <=? v) && (v <? 2 ^ (bits - 1));
    mp_popcount := popcount;
    mp_clz x := 31 - Z.log2 x;
    mp_ctz x := match x with Zpos p => ctz_pos p | _ => 0 end;
  |}; intros; try done; try (rewrite andb_true_iff, Z.leb_le, Z.ltb_lt; done).
  destruct x as [|p|]; try lia. destruct (ctz_pos_spec p) as (? & Ht & Hf).
  destruct (Z.lt_trichotomy k (ctz_pos p)) as [|[|]]; [|done|].
  - pose proof (Hf k ltac:(lia)). congruence.
  - match goal with Hk : forall i, _ -> Z.testbit _ i = false |- _ => pose proof (Hk (ctz_pos p) ltac:(lia)); congruence end.
Defined.
