(* ===== verification/AsmRv32.v ===== *)
(** * AsmRv32: bank/uPython-ASM/asmrv32.c

    The RV32IMC code generator: one definition per function of the file, with
    its static helpers.  An out parameter is a component of the result. *)

From S2P Require Import Prelude AsmBase PyMisc AsmRv32Opcodes.

Set Default Goal Selector "!".

#[local] Existing Instance SizeT_32.

Definition INTERNAL_TEMPORARY : Z := ASM_RV32_REG_S0.

(** The masks are [unsigned int]s. *)
Definition FIT_UNSIGNED (value bits : Z) : bool :=
  value .& u32 (Z.lnot ((1 << bits) - 1)) =? 0.
Definition FIT_SIGNED (value bits : Z) : bool :=
  (value .& u32 (Z.lnot ((1 << (bits - 1)) - 1)) =? 0)
  || (value .& u32 (Z.lnot ((1 << (bits - 1)) - 1)) =? u32 (Z.lnot ((1 << (bits - 1)) - 1))).

(** ** Immediates *)

(** The pair [*upper, *lower]. *)
Definition split_immediate (immediate : Z) : Z * Z :=
  let unsigned_immediate := u32 immediate in
  let upper := unsigned_immediate .& 0xFFFFF000 in
  let lower := unsigned_immediate .& 0x00000FFF in
  (if lower .& 0x800 =? 0 then upper else u32 (upper + 0x1000), lower).

Definition load_upper_immediate (rd immediate : Z) : M asm_rv32_t unit :=
  if FIT_SIGNED immediate 17 && negb (immediate >> 12 =? 0)
  then asm_rv32_opcode_clui rd (s32 immediate)
  else asm_rv32_opcode_lui rd (s32 immediate).

Definition load_lower_immediate (rd immediate : Z) : M asm_rv32_t unit :=
  if immediate =? 0 then mret tt
  else if FIT_SIGNED immediate 6
  then asm_rv32_opcode_caddi rd (s32 immediate)
  else asm_rv32_opcode_addi rd rd (s32 immediate).

Definition load_full_immediate (rd immediate : Z) : M asm_rv32_t unit :=
  let '(upper, lower) := split_immediate immediate in
  load_upper_immediate rd upper;;
  load_lower_immediate rd lower.

Definition asm_rv32_emit_optimised_load_immediate (rd immediate : Z) : M asm_rv32_t unit :=
  if FIT_SIGNED immediate 6 then asm_rv32_opcode_cli rd immediate
  else if FIT_SIGNED immediate 12 then asm_rv32_opcode_addi rd ASM_RV32_REG_ZERO immediate
  else load_full_immediate rd immediate.

(** ** Prologue and epilogue *)

(** The loops over [register_index], from [i] on for [n] registers. *)
Fixpoint registers_store_loop (n : nat) (i registers_mask offset : Z) : M asm_rv32_t unit :=
  match n with
  | O => mret tt
  | S n =>
      if registers_mask .& (1 << i) =? 0
      then registers_store_loop n (i + 1) registers_mask offset
      else
        assert_ (FIT_UNSIGNED (offset >> 2) 6) "Registers save stack offset out of range.";;
        asm_rv32_opcode_cswsp i offset;;
        registers_store_loop n (i + 1) registers_mask (u32 (offset + 4))
  end.
Definition emit_registers_store (registers_mask : Z) : M asm_rv32_t unit :=
  registers_store_loop (Z.to_nat RV32_AVAILABLE_REGISTERS_COUNT) 0 registers_mask 0.

Fixpoint registers_load_loop (n : nat) (i registers_mask offset : Z) : M asm_rv32_t unit :=
  match n with
  | O => mret tt
  | S n =>
      if registers_mask .& (1 << i) =? 0
      then registers_load_loop n (i + 1) registers_mask offset
      else
        assert_ (FIT_UNSIGNED (offset >> 2) 6) "Registers load stack offset out of range.";;
        asm_rv32_opcode_clwsp i offset;;
        registers_load_loop n (i + 1) registers_mask (u32 (offset + 4))
  end.
Definition emit_registers_load (registers_mask : Z) : M asm_rv32_t unit :=
  registers_load_loop (Z.to_nat RV32_AVAILABLE_REGISTERS_COUNT) 0 registers_mask 0.

(** Conversion keeps the loops folded. *)
#[global] Strategy 1000 [registers_store_loop registers_load_loop emit_registers_store
  emit_registers_load].

Definition adjust_stack (stack_size : Z) : M asm_rv32_t unit :=
  if stack_size =? 0 then mret tt
  else if FIT_SIGNED stack_size 6
  then asm_rv32_opcode_caddi ASM_RV32_REG_SP stack_size
  else if FIT_SIGNED stack_size 12
  then asm_rv32_opcode_addi ASM_RV32_REG_SP ASM_RV32_REG_SP stack_size
  else
    load_full_immediate REG_TEMP0 stack_size;;
    asm_rv32_opcode_cadd ASM_RV32_REG_SP REG_TEMP0.

Section AsmRv32.
Context `{Rv32Config} `{PyMisc}.

Definition asm_rv32_allow_zba_opcodes : bool :=
  negb (asm_rv32_allowed_extensions .& RV32_EXT_ZBA =? 0).
Definition asm_rv32_allow_zcmp_opcodes : bool :=
  negb (asm_rv32_allowed_extensions .& RV32_EXT_ZCMP =? 0).

Definition emit_function_prologue (registers : Z) : M asm_rv32_t unit :=
  let registers_count := mp_popcount registers in
  modify (fun s => set_stack_size (u32 ((registers_count + locals_count s) * 4)) s);;
  old_saved_registers_mask ← gets saved_registers_mask;
  size ← gets stack_size;
  adjust_stack (s32 (- size));;
  emit_registers_store registers;;
  modify (set_locals_stack_offset (u32 (registers_count * 4)));;
  modify (set_saved_registers_mask old_saved_registers_mask).

Definition emit_function_epilogue (registers : Z) : M asm_rv32_t unit :=
  old_saved_registers_mask ← gets saved_registers_mask;
  emit_registers_load registers;;
  size ← gets stack_size;
  adjust_stack (s32 size);;
  modify (set_saved_registers_mask old_saved_registers_mask).

Definition compute_zcmp_sequence_length (registers : Z) : M asm_rv32_t Z :=
  assert_ (negb (registers =? 0) && (registers .& u32 (Z.lnot 0x0FFC0302) =? 0))
    "Invalid Zcmp registers set.";;
  let length := u32 (32 - mp_clz (((registers .& 0x00000002) >> 1)
                  .| ((registers .& 0x00000300) >> 7) .| ((registers .& 0x0FFC0000) >> 15))) in
  mret (if length =? 12 then 13 else length).

Definition EMIT_ASSERT (condition : bool) (message : string) : M asm_rv32_t unit :=
  s ← gets id;
  assert_ (if pass (base s) =? MP_ASM_PASS_EMIT then condition else true) message.

Definition MP_INT_MAX : Z := 2 ^ 31 - 1.

Definition emit_compressed_function_prologue (registers_mask : Z) : M asm_rv32_t unit :=
  sequence_length ← compute_zcmp_sequence_length registers_mask;
  let allocated_stack := u32 (sequence_length + 3) .& u32 (-4) in
  EMIT_ASSERT (sequence_length <=? allocated_stack) "Incorrect allocated stack calculation.";;
  let tail_slack := u32 (allocated_stack - sequence_length) in
  locals ← gets locals_count;
  let locals_left := if locals <? tail_slack then 0 else u32 (locals - tail_slack) in
  let adjustment_chunks := Z.min 3 (locals_left / 4) in
  EMIT_ASSERT (adjustment_chunks * 4 <=? locals_left) "Incorrect adjustment chunks rounding.";;
  let locals_left := u32 (locals_left - adjustment_chunks * 4) in
  EMIT_ASSERT (locals_left <=? MP_INT_MAX / 4) "Too many locals.";;
  let size := s32 (u32 (locals_left * 4)) in
  asm_rv32_opcode_cmpush (Z.min (3 + sequence_length) 15) adjustment_chunks;;
  adjust_stack (s32 (- size));;
  modify (set_stack_size (u32 size .| adjustment_chunks)).

Definition emit_compressed_function_epilogue (registers_mask : Z) : M asm_rv32_t unit :=
  sequence_length ← compute_zcmp_sequence_length registers_mask;
  s ← gets id;
  let size := stack_size s .& u32 (Z.lnot 0x03) in
  adjust_stack (s32 size);;
  s ← gets id;
  asm_rv32_opcode_cmpopret (Z.min (3 + sequence_length) 15) (stack_size s .& 0x03).

Definition asm_rv32_entry (locals : Z) : M asm_rv32_t unit :=
  modify (set_locals_count locals);;
  modify (fun s => set_saved_registers_mask
    (saved_registers_mask s .| ((1 << REG_FUN_TABLE) .| (1 << REG_LOCAL_1)
     .| (1 << REG_LOCAL_2) .| (1 << REG_LOCAL_3))) s);;
  mask ← gets saved_registers_mask;
  if asm_rv32_allow_zcmp_opcodes then emit_compressed_function_prologue mask
  else emit_function_prologue mask.

Definition asm_rv32_exit : M asm_rv32_t unit :=
  mask ← gets saved_registers_mask;
  if asm_rv32_allow_zcmp_opcodes then emit_compressed_function_epilogue mask
  else
    emit_function_epilogue mask;;
    asm_rv32_opcode_cjr ASM_RV32_REG_RA.

Definition asm_rv32_end_pass : M asm_rv32_t unit := mret tt.
End AsmRv32.

(** ** Calls and jumps *)

Definition taint (r : Z) : M asm_rv32_t unit :=
  modify (fun s => set_saved_registers_mask (saved_registers_mask s .| (1 << r)) s).

Definition asm_rv32_emit_call_ind (index : Z) : M asm_rv32_t unit :=
  let offset := u32 (index * ASM_WORD_SIZE) in
  taint ASM_RV32_REG_RA;;
  if RV32_IS_IN_C_REGISTER_WINDOW REG_FUN_TABLE
     && RV32_IS_IN_C_REGISTER_WINDOW INTERNAL_TEMPORARY && FIT_UNSIGNED offset 6 then
    taint INTERNAL_TEMPORARY;;
    asm_rv32_opcode_clw (RV32_MAP_IN_C_REGISTER_WINDOW INTERNAL_TEMPORARY)
      (RV32_MAP_IN_C_REGISTER_WINDOW REG_FUN_TABLE) (s32 offset);;
    asm_rv32_opcode_cjalr INTERNAL_TEMPORARY
  else if FIT_UNSIGNED offset 11 then
    asm_rv32_opcode_lw REG_TEMP2 REG_FUN_TABLE (s32 offset);;
    asm_rv32_opcode_cjalr REG_TEMP2
  else
    let '(upper, lower) := split_immediate (s32 offset) in
    load_upper_immediate REG_TEMP2 upper;;
    asm_rv32_opcode_cadd REG_TEMP2 REG_FUN_TABLE;;
    asm_rv32_opcode_lw REG_TEMP2 REG_TEMP2 (s32 lower);;
    asm_rv32_opcode_cjalr REG_TEMP2.

(** [state->base.label_offsets[label]]. *)
Definition label_offset_at (label : Z) : M asm_rv32_t Z :=
  s ← gets id;
  match label_offsets (base s) !! Z.to_nat label with
  | Some off => mret off
  | None => fail_with OutOfBounds
  end.

(** The result, and the displacement. *)
Definition calculate_displacement_for_label (label : Z) : M asm_rv32_t (bool * Z) :=
  label_offset ← label_offset_at label;
  s ← gets id;
  let displacement := s32 (label_offset - code_offset (base s)) in
  mret (negb (label_offset =? u32 (-1)) && (displacement <? 0), displacement).

Definition asm_rv32_emit_jump_if_reg_eq (rs1 rs2 label : Z) : M asm_rv32_t unit :=
  '(can_emit_short_jump, displacement) ← calculate_displacement_for_label label;
  if can_emit_short_jump && FIT_SIGNED displacement 13 then
    asm_rv32_opcode_beq rs1 rs2 displacement
  else
    let displacement := s32 (displacement - ASM_WORD_SIZE) in
    let '(upper, lower) := split_immediate displacement in
    asm_rv32_opcode_bne rs1 rs2 12;;
    asm_rv32_opcode_auipc REG_TEMP2 (s32 upper);;
    asm_rv32_opcode_jalr ASM_RV32_REG_ZERO REG_TEMP2 (s32 lower).

Definition asm_rv32_emit_jump_if_reg_nonzero (rs label : Z) : M asm_rv32_t unit :=
  '(can_emit_short_jump, displacement) ← calculate_displacement_for_label label;
  if can_emit_short_jump && FIT_SIGNED displacement 8 && RV32_IS_IN_C_REGISTER_WINDOW rs then
    asm_rv32_opcode_cbnez (RV32_MAP_IN_C_REGISTER_WINDOW rs) displacement
  else if can_emit_short_jump && FIT_SIGNED displacement 13 then
    asm_rv32_opcode_bne rs ASM_RV32_REG_ZERO displacement
  else
    displacement ←
      (if can_emit_short_jump && RV32_IS_IN_C_REGISTER_WINDOW rs then
         asm_rv32_opcode_cbeqz (RV32_MAP_IN_C_REGISTER_WINDOW rs) 10;;
         mret (s32 (displacement - ASM_HALFWORD_SIZE))
       else
         asm_rv32_opcode_beq rs ASM_RV32_REG_ZERO 12;;
         mret (s32 (displacement - ASM_WORD_SIZE)));
    let '(upper, lower) := split_immediate displacement in
    asm_rv32_opcode_auipc REG_TEMP2 (s32 upper);;
    asm_rv32_opcode_jalr ASM_RV32_REG_ZERO REG_TEMP2 (s32 lower).

Definition asm_rv32_emit_jump (label : Z) : M asm_rv32_t unit :=
  '(can_emit_short_jump, displacement) ← calculate_displacement_for_label label;
  if can_emit_short_jump && FIT_SIGNED displacement 12 then
    asm_rv32_opcode_cj displacement
  else
    let '(upper, lower) := split_immediate displacement in
    asm_rv32_opcode_auipc REG_TEMP2 (s32 upper);;
    asm_rv32_opcode_jalr ASM_RV32_REG_ZERO REG_TEMP2 (s32 lower).

Definition asm_rv32_emit_mov_reg_pcrel (rd label : Z) : M asm_rv32_t unit :=
  label_offset ← label_offset_at label;
  s ← gets id;
  let displacement := s32 (label_offset - code_offset (base s)) in
  let '(upper, lower) := split_immediate displacement in
  asm_rv32_opcode_auipc rd (s32 upper);;
  asm_rv32_opcode_addi rd rd (s32 lower).

(** ** Locals *)

(** [state->locals_stack_offset + (local * ASM_WORD_SIZE)]. *)
Definition local_offset (local : Z) : M asm_rv32_t Z :=
  gets (fun s => u32 (locals_stack_offset s + local * ASM_WORD_SIZE)).

Definition asm_rv32_emit_mov_local_reg (local rs : Z) : M asm_rv32_t unit :=
  offset ← local_offset local;
  if FIT_UNSIGNED (offset >> 2) 6 then asm_rv32_opcode_cswsp rs offset
  else if FIT_UNSIGNED offset 11 then asm_rv32_opcode_sw rs ASM_RV32_REG_SP (s32 offset)
  else
    let '(upper, lower) := split_immediate (s32 offset) in
    load_upper_immediate REG_TEMP2 upper;;
    asm_rv32_opcode_cadd REG_TEMP2 ASM_RV32_REG_SP;;
    asm_rv32_opcode_sw rs REG_TEMP2 (s32 lower).

Definition asm_rv32_emit_mov_reg_local (rd local : Z) : M asm_rv32_t unit :=
  offset ← local_offset local;
  if FIT_UNSIGNED (offset >> 2) 6 then asm_rv32_opcode_clwsp rd offset
  else if FIT_UNSIGNED offset 11 then asm_rv32_opcode_lw rd ASM_RV32_REG_SP (s32 offset)
  else
    let '(upper, lower) := split_immediate (s32 offset) in
    load_upper_immediate rd upper;;
    asm_rv32_opcode_cadd rd ASM_RV32_REG_SP;;
    asm_rv32_opcode_lw rd rd (s32 lower).

Definition asm_rv32_emit_mov_reg_local_addr (rd local : Z) : M asm_rv32_t unit :=
  offset ← local_offset local;
  if FIT_UNSIGNED offset 10 && negb (offset =? 0) && RV32_IS_IN_C_REGISTER_WINDOW rd then
    asm_rv32_opcode_caddi4spn (RV32_MAP_IN_C_REGISTER_WINDOW rd) offset
  else if FIT_UNSIGNED offset 11 then asm_rv32_opcode_addi rd ASM_RV32_REG_SP (s32 offset)
  else
    load_full_immediate rd (s32 offset);;
    asm_rv32_opcode_cadd rd ASM_RV32_REG_SP.

(** ** Loads, stores and arithmetic *)

Definition RV32_LOAD_OPCODE_TABLE : list Z := [0x04; 0x05; 0x02].
Definition rv32_load_opcode (operation_size : Z) : Z :=
  nth (Z.to_nat operation_size) RV32_LOAD_OPCODE_TABLE 0.

Section AsmRv32_2.
Context `{Rv32Config} `{PyMisc}.

Definition asm_rv32_emit_load_reg_reg_offset (rd rs offset operation_size : Z)
  : M asm_rv32_t unit :=
  assert_ (operation_size <=? 2) "Operation size value out of range.";;
  let scaled_offset := s32 (offset << operation_size) in
  if (0 <=? scaled_offset) && (operation_size =? 2) && RV32_IS_IN_C_REGISTER_WINDOW rd
     && RV32_IS_IN_C_REGISTER_WINDOW rs && MP_FIT_UNSIGNED 6 scaled_offset then
    asm_rv32_opcode_clw (RV32_MAP_IN_C_REGISTER_WINDOW rd) (RV32_MAP_IN_C_REGISTER_WINDOW rs)
      scaled_offset
  else if MP_FIT_SIGNED 12 scaled_offset then
    asm_rv32_emit_word_opcode
      (RV32_ENCODE_TYPE_I 0x03 (rv32_load_opcode operation_size) rd rs scaled_offset)
  else
    let '(upper, lower) := split_immediate scaled_offset in
    load_upper_immediate rd upper;;
    asm_rv32_opcode_cadd rd rs;;
    asm_rv32_emit_word_opcode
      (RV32_ENCODE_TYPE_I 0x03 (rv32_load_opcode operation_size) rd rd lower).

Definition asm_rv32_emit_store_reg_reg_offset (rd rs offset operation_size : Z)
  : M asm_rv32_t unit :=
  assert_ (operation_size <=? 2) "Operation size value out of range.";;
  let scaled_offset := s32 (offset << operation_size) in
  if (0 <=? scaled_offset) && (operation_size =? 2) && RV32_IS_IN_C_REGISTER_WINDOW rd
     && RV32_IS_IN_C_REGISTER_WINDOW rs && MP_FIT_UNSIGNED 6 scaled_offset then
    asm_rv32_opcode_csw (RV32_MAP_IN_C_REGISTER_WINDOW rd) (RV32_MAP_IN_C_REGISTER_WINDOW rs)
      scaled_offset
  else if MP_FIT_SIGNED 12 scaled_offset then
    asm_rv32_emit_word_opcode (RV32_ENCODE_TYPE_S 0x23 operation_size rs rd scaled_offset)
  else
    let '(upper, lower) := split_immediate scaled_offset in
    load_upper_immediate REG_TEMP2 upper;;
    asm_rv32_opcode_cadd REG_TEMP2 rs;;
    asm_rv32_emit_word_opcode (RV32_ENCODE_TYPE_S 0x23 operation_size REG_TEMP2 rd lower).

Definition asm_rv32_emit_optimised_xor (rd rs : Z) : M asm_rv32_t unit :=
  if rs =? rd then asm_rv32_opcode_cli rd 0
  else asm_rv32_opcode_xor rd rd rs.

Definition asm_rv32_fix_up_scaled_reg_reg_reg (rs1 rs2 operation_size : Z)
  : M asm_rv32_t unit :=
  assert_ (operation_size <=? 2) "Operation size value out of range.";;
  if (0 <? operation_size) && asm_rv32_allow_zba_opcodes then
    asm_rv32_emit_word_opcode
      (RV32_ENCODE_TYPE_R 0x33 (1 << operation_size) 0x10 REG_TEMP2 rs2 rs1)
  else if 0 <? operation_size then
    asm_rv32_opcode_slli REG_TEMP2 rs2 (s32 operation_size);;
    asm_rv32_opcode_cadd REG_TEMP2 rs1
  else asm_rv32_opcode_add REG_TEMP2 rs1 rs2.

Definition asm_rv32_emit_load_reg_reg_reg (rd rs1 rs2 operation_size : Z)
  : M asm_rv32_t unit :=
  asm_rv32_fix_up_scaled_reg_reg_reg rs1 rs2 operation_size;;
  asm_rv32_emit_load_reg_reg_offset rd REG_TEMP2 0 operation_size.

Definition asm_rv32_emit_store_reg_reg_reg (rd rs1 rs2 operation_size : Z)
  : M asm_rv32_t unit :=
  asm_rv32_fix_up_scaled_reg_reg_reg rs1 rs2 operation_size;;
  asm_rv32_emit_store_reg_reg_offset rd REG_TEMP2 0 operation_size.
End AsmRv32_2.

Definition asm_rv32_meta_comparison_eq (rs1 rs2 rd : Z) : M asm_rv32_t unit :=
  asm_rv32_opcode_sub rd rs1 rs2;;
  asm_rv32_opcode_sltiu rd rd 1.

Definition asm_rv32_meta_comparison_ne (rs1 rs2 rd : Z) : M asm_rv32_t unit :=
  asm_rv32_opcode_sub rd rs1 rs2;;
  asm_rv32_opcode_sltu rd ASM_RV32_REG_ZERO rd.

Definition asm_rv32_meta_comparison_lt (rs1 rs2 rd : Z) (unsigned_comparison : bool)
  : M asm_rv32_t unit :=
  asm_rv32_emit_word_opcode
    (RV32_ENCODE_TYPE_R 0x33 (0x02 .| b2z unsigned_comparison) 0x00 rd rs1 rs2).

Definition asm_rv32_meta_comparison_le (rs1 rs2 rd : Z) (unsigned_comparison : bool)
  : M asm_rv32_t unit :=
  asm_rv32_meta_comparison_lt rs2 rs1 rd unsigned_comparison;;
  asm_rv32_opcode_xori rd rd 1.
