(* ===== verification/AsmRv32Decode.v ===== *)
(** * AsmRv32Decode: the opcode functions of asmrv32.h encode what they name

    [emit_instr] and [emit_rvc] list the opcode functions by the instruction
    each is for; the theorems say that the instruction set's decoder reads the
    emitted bytes back as that instruction. *)

From S2P Require Import Prelude AsmBase Machine Rv32Isa Emission AsmRv32Opcodes.

Set Default Goal Selector "!".

#[local] Existing Instance SizeT_32.

(** ** The opcode function of each instruction *)

Definition emit_rop (op : rop) : Z -> Z -> Z -> M asm_rv32_t unit :=
  match op with
  | ADD => asm_rv32_opcode_add | SUB => asm_rv32_opcode_sub | SLL => asm_rv32_opcode_sll
  | SLT => asm_rv32_opcode_slt | SLTU => asm_rv32_opcode_sltu | XOR => asm_rv32_opcode_xor
  | SRL => asm_rv32_opcode_srl | SRA => asm_rv32_opcode_sra | OR => asm_rv32_opcode_or
  | AND => asm_rv32_opcode_and | MUL => asm_rv32_opcode_mul | MULH => asm_rv32_opcode_mulh
  | MULHSU => asm_rv32_opcode_mulhsu | MULHU => asm_rv32_opcode_mulhu
  | DIV => asm_rv32_opcode_div | DIVU => asm_rv32_opcode_divu
  | REM => asm_rv32_opcode_rem | REMU => asm_rv32_opcode_remu
  | SH1ADD => asm_rv32_opcode_sh1add | SH2ADD => asm_rv32_opcode_sh2add
  | SH3ADD => asm_rv32_opcode_sh3add
  end.
Definition emit_iop (op : iop) : Z -> Z -> Z -> M asm_rv32_t unit :=
  match op with
  | ADDI => asm_rv32_opcode_addi | SLTI => asm_rv32_opcode_slti
  | SLTIU => asm_rv32_opcode_sltiu | XORI => asm_rv32_opcode_xori
  | ORI => asm_rv32_opcode_ori | ANDI => asm_rv32_opcode_andi
  | SLLI => asm_rv32_opcode_slli | SRLI => asm_rv32_opcode_srli
  | SRAI => asm_rv32_opcode_srai
  end.
Definition emit_lop (op : lop) : Z -> Z -> Z -> M asm_rv32_t unit :=
  match op with
  | LB => asm_rv32_opcode_lb | LH => asm_rv32_opcode_lh | LW => asm_rv32_opcode_lw
  | LBU => asm_rv32_opcode_lbu | LHU => asm_rv32_opcode_lhu
  end.
Definition emit_sop (op : sop) : Z -> Z -> Z -> M asm_rv32_t unit :=
  match op with
  | SB => asm_rv32_opcode_sb | SH => asm_rv32_opcode_sh | SW => asm_rv32_opcode_sw
  end.
Definition emit_bop (op : bop) : Z -> Z -> Z -> M asm_rv32_t unit :=
  match op with
  | BEQ => asm_rv32_opcode_beq | BNE => asm_rv32_opcode_bne | BLT => asm_rv32_opcode_blt
  | BGE => asm_rv32_opcode_bge | BLTU => asm_rv32_opcode_bltu | BGEU => asm_rv32_opcode_bgeu
  end.

Definition emit_instr (i : rv32_instr) : M asm_rv32_t unit :=
  match i with
  | R op rd rs1 rs2 => emit_rop op rd rs1 rs2
  | I op rd rs1 imm => emit_iop op rd rs1 imm
  | LOAD op rd rs1 imm => emit_lop op rd rs1 imm
  | STORE op rs1 rs2 imm => emit_sop op rs2 rs1 imm
  | BRANCH op rs1 rs2 imm => emit_bop op rs1 rs2 imm
  | LUI rd imm => asm_rv32_opcode_lui rd imm
  | AUIPC rd imm => asm_rv32_opcode_auipc rd imm
  | JAL rd imm => asm_rv32_opcode_jal rd imm
  | JALR rd rs1 imm => asm_rv32_opcode_jalr rd rs1 imm
  | CSR CSRRW rd rs1 csr => asm_rv32_opcode_csrrw rd rs1 csr
  | CSR CSRRS rd rs1 csr => asm_rv32_opcode_csrrs rd rs1 csr
  | CSR CSRRC rd rs1 csr => asm_rv32_opcode_csrrc rd rs1 csr
  | CSR CSRRWI rd uimm csr => asm_rv32_opcode_csrrwi rd csr uimm
  | CSR CSRRSI rd uimm csr => asm_rv32_opcode_csrrsi rd csr uimm
  | CSR CSRRCI rd uimm csr => asm_rv32_opcode_csrrci rd csr uimm
  | ECALL => asm_rv32_opcode_ecall
  | EBREAK => asm_rv32_opcode_ebreak
  | CM_PUSH rlist spimm => asm_rv32_opcode_cmpush rlist (spimm >> 4)
  | CM_POPRET rlist spimm => asm_rv32_opcode_cmpopret rlist (spimm >> 4)
  end.

(** ** The operands an instruction has room for *)

Definition reg5 (r : Z) : Prop := 0 <= r < 32.
Definition simm (n imm : Z) : Prop := - 2 ^ (n - 1) <= imm < 2 ^ (n - 1).
Definition simm_even (n imm : Z) : Prop := simm n imm /\ (2 | imm).

Definition encodable (i : rv32_instr) : Prop :=
  match i with
  | R _ rd rs1 rs2 => reg5 rd /\ reg5 rs1 /\ reg5 rs2
  | I (SLLI | SRLI | SRAI) rd rs1 imm => reg5 rd /\ reg5 rs1 /\ 0 <= imm < 32
  | I _ rd rs1 imm | LOAD _ rd rs1 imm | JALR rd rs1 imm => reg5 rd /\ reg5 rs1 /\ simm 12 imm
  | STORE _ rs1 rs2 imm => reg5 rs1 /\ reg5 rs2 /\ simm 12 imm
  | BRANCH _ rs1 rs2 imm => reg5 rs1 /\ reg5 rs2 /\ simm_even 13 imm
  | LUI rd imm | AUIPC rd imm => reg5 rd /\ simm 32 imm /\ (2 ^ 12 | imm)
  | JAL rd imm => reg5 rd /\ simm_even 21 imm
  | CSR _ rd rs1 csr => reg5 rd /\ reg5 rs1 /\ 0 <= csr < 2 ^ 12
  | ECALL | EBREAK => True
  | CM_PUSH rlist spimm | CM_POPRET rlist spimm =>
      0 <= rlist < 16 /\ 0 <= spimm < 64 /\ (2 ^ 4 | spimm)
  end.
Definition instr_len (i : rv32_instr) : Z :=
  match i with CM_PUSH _ _ | CM_POPRET _ _ => 2 | _ => 4 end.

(** ** Emission *)

Lemma on_base_write {S} `{!HasBase S} bs (t : S) :
  on_base (write bs) t
  = (c ← on_base (mp_asm_base_get_cur_to_write_bytes (Z.of_nat (length bs)));
     match c with None => mret tt | Some c => on_base (store_bytes c bs) end) t.
Proof.
  unfold write, on_base, mbind, M_bind.
  destruct (mp_asm_base_get_cur_to_write_bytes _ _) as [[[c|] b]|]; [|done..].
  rewrite base_of_with. destruct (store_bytes c bs b) as [[? ?]|]; [|done].
  by rewrite with_base_with.
Qed.

Lemma emits_word w s : emits s (asm_rv32_emit_word_opcode w) (le_bytes 4 w).
Proof.
  eapply emits_ext; [|apply emits_write, le_bytes_is_byte]. intros t. rewrite on_base_write.
  unfold asm_rv32_emit_word_opcode. rewrite length_le_bytes.
  replace (le_bytes 4 w)
    with [w .& 0xFF; (w >> 8) .& 0xFF; (w >> 16) .& 0xFF; (w >> 24) .& 0xFF]; [done|].
  simpl. repeat f_equal; bitsolve.
Qed.

Lemma emits_halfword w s : emits s (asm_rv32_emit_halfword_opcode w) (le_bytes 2 w).
Proof.
  eapply emits_ext; [|apply emits_write, le_bytes_is_byte]. intros t. rewrite on_base_write.
  unfold asm_rv32_emit_halfword_opcode. rewrite length_le_bytes.
  replace (le_bytes 2 w) with [w .& 0xFF; (w >> 8) .& 0xFF]; [done|].
  simpl. repeat f_equal; bitsolve.
Qed.

Lemma assembles_word w i s : bits w 0 2 = 3 -> decode32 (u32 w) = Some i ->
  assembles s (asm_rv32_emit_word_opcode w) [(i, 4)].
Proof.
  intros Hw Hd. apply (assembles_one (H0 := Rv32) _ _ _ i 4 (emits_word w s)); [|done|simpl; lia].
  cbn [decode Rv32]. unfold rv32_decode. 
  change (le_bytes 4 w) with [u8 w; u8 (w >> 8); u8 (w >> 8 >> 8); u8 (w >> 8 >> 8 >> 8)].
  cbv beta iota.
  replace (bits (u8 w) 0 2) with (bits w 0 2) by bitsolve. rewrite Hw. simpl (3 =? 3).
  replace (le_word _) with (u32 w); [by rewrite Hd|]. 
  symmetry. apply (le_word_le_bytes 4 w).
Qed.

Lemma assembles_halfword w i s : bits w 0 2 <> 3 -> decode16 (u16 w) = Some i ->
  assembles s (asm_rv32_emit_halfword_opcode w) [(i, 2)].
Proof.
  intros Hw Hd. apply (assembles_one (H0 := Rv32) _ _ _ i 2 (emits_halfword w s)); [|done|simpl; lia].
  cbn [decode Rv32]. unfold rv32_decode.
  change (le_bytes 2 w) with [u8 w; u8 (w >> 8)]. cbv beta iota.
  replace (bits (u8 w) 0 2) with (bits w 0 2) by bitsolve.
  destruct (Z.eqb_spec (bits w 0 2) 3); [done|].
  replace (le_word _) with (u16 w); [by rewrite Hd|].
  symmetry. apply (le_word_le_bytes 2 w).
Qed.

(** ** Decoding *)

(** A signed field is the immediate it was cut from. *)
Lemma sw_field n e imm : 0 < n -> e = uw n imm -> simm n imm -> sw n e = imm.
Proof. intros Hn -> Hi. rewrite sw_uw by done. by apply sw_small. Qed.

Lemma even_shift n imm : (2 ^ n | imm) -> 0 <= n -> exists k, imm = k << n.
Proof. intros [k ->] Hn. exists k. by rewrite Z.shiftl_mul_pow2. Qed.

(** The decoder's fields, one after the other: those that are constant select
    its branch, the others are the operands. *)
Ltac decode_fields := repeat (fold_field; cbv beta iota zeta).
Ltac operand :=
  lazymatch goal with
  | |- sw _ _ = _ => apply sw_field; [lia | bitsolve | assumption]
  | |- 8 + _ = 8 + _ => f_equal; bitsolve
  | |- _ => bitsolve || reflexivity
  end.
Ltac operands :=
  unfold imm_i, imm_s, imm_b, imm_j, imm_u, imm_ci, nzuimm_ciw, uimm_cl_w, imm_cb, imm_cj,
    uimm_6bit_lw, uimm_6bit_sw, imm_addi16sp, imm_lui, ex_rvc_register in *;
  repeat lazymatch goal with |- Some _ = Some _ => f_equal end; f_equal; operand.
Ltac decode_word :=
  apply assembles_word;
  [ bitsolve
  | unfold decode32; cbv zeta; decode_fields;
    cbn [rop_of fmap option_fmap option_map]; operands ].
Ltac decode_halfword :=
  apply assembles_halfword;
  [ decode_fields; done
  | unfold decode16; cbv zeta; decode_fields; operands ].
(** A multiple of [2 ^ n] as [k << n]. *)
Ltac factor_immediates :=
  repeat match goal with
  | H : (2 | ?x) |- _ => apply (even_shift 1) in H as [? ->]; [|lia]
  | H : (2 ^ ?n | ?x) |- _ => apply even_shift in H as [? ->]; [|lia]
  end.

Ltac decode_word_op op := destruct op; simpl; autounfold with rv32_opcodes; decode_word.

Section Decode32.
Context (s : asm_rv32_t).

Lemma emit_rop_assembles op rd rs1 rs2 : reg5 rd -> reg5 rs1 -> reg5 rs2 ->
  assembles s (emit_rop op rd rs1 rs2) [(R op rd rs1 rs2, 4)].
Proof using. unfold reg5. intros. decode_word_op op. Qed.

Lemma emit_lop_assembles op rd rs1 imm : reg5 rd -> reg5 rs1 -> simm 12 imm ->
  assembles s (emit_lop op rd rs1 imm) [(LOAD op rd rs1 imm, 4)].
Proof using. unfold reg5. intros. decode_word_op op. Qed.

Lemma emit_sop_assembles op rs1 rs2 imm : reg5 rs1 -> reg5 rs2 -> simm 12 imm ->
  assembles s (emit_sop op rs2 rs1 imm) [(STORE op rs1 rs2 imm, 4)].
Proof using. unfold reg5. intros. decode_word_op op. Qed.

Lemma emit_bop_assembles op rs1 rs2 imm : reg5 rs1 -> reg5 rs2 -> simm_even 13 imm ->
  assembles s (emit_bop op rs1 rs2 imm) [(BRANCH op rs1 rs2 imm, 4)].
Proof using.
  unfold reg5, simm_even. intros ? ? [? ?]. factor_immediates. decode_word_op op.
Qed.

Lemma emit_iop_assembles op rd rs1 imm : encodable (I op rd rs1 imm) ->
  assembles s (emit_iop op rd rs1 imm) [(I op rd rs1 imm, 4)].
Proof using.
  unfold encodable, reg5. intros Henc. destruct op; destruct Henc as (?&?&?); simpl;
    autounfold with rv32_opcodes; decode_word.
Qed.

Lemma emit_upper_assembles i rd imm : i = LUI rd imm \/ i = AUIPC rd imm ->
  encodable i -> assembles s (emit_instr i) [(i, 4)].
Proof using.
  unfold encodable, reg5. intros [-> | ->] (? & Hi & ?); factor_immediates; simpl;
    autounfold with rv32_opcodes; decode_word.
Qed.

Lemma emit_jal_assembles rd imm : encodable (JAL rd imm) ->
  assembles s (asm_rv32_opcode_jal rd imm) [(JAL rd imm, 4)].
Proof using.
  unfold encodable, reg5. intros (? & Hi & ?). factor_immediates.
  autounfold with rv32_opcodes. decode_word.
Qed.

Lemma emit_jalr_assembles rd rs imm : encodable (JALR rd rs imm) ->
  assembles s (asm_rv32_opcode_jalr rd rs imm) [(JALR rd rs imm, 4)].
Proof using.
  unfold encodable, reg5. intros (? & ? & ?). autounfold with rv32_opcodes. decode_word.
Qed.

Lemma emit_csr_assembles op rd rs csr : encodable (CSR op rd rs csr) ->
  assembles s (emit_instr (CSR op rd rs csr)) [(CSR op rd rs csr, 4)].
Proof using. unfold encodable, reg5. intros (? & ? & ?). decode_word_op op. Qed.

Lemma emit_cm_assembles i rlist spimm : i = CM_PUSH rlist spimm \/ i = CM_POPRET rlist spimm ->
  encodable i -> assembles s (emit_instr i) [(i, 2)].
Proof using.
  unfold encodable. intros [-> | ->] (? & Hs & ?); factor_immediates;
    (match type of Hs with 0 <= ?k << 4 < 64 =>
       assert (0 <= k < 4) by (rewrite Z.shiftl_mul_pow2 in Hs; lia) end);
    simpl; autounfold with rv32_opcodes; decode_halfword.
Qed.
End Decode32.

(** Every 32-bit opcode function, and CM.PUSH and CM.POPRET: for operands the
    instruction has room for, the emitted bytes decode to the instruction. *)
Theorem opcodes_decode i s : encodable i ->
  assembles s (emit_instr i) [(i, instr_len i)].
Proof.
  intros Hi. destruct i; cbn [instr_len].
  - by apply emit_rop_assembles; apply Hi.
  - by apply emit_iop_assembles.
  - by apply emit_lop_assembles; apply Hi.
  - by apply emit_sop_assembles; apply Hi.
  - by apply emit_bop_assembles; apply Hi.
  - eapply emit_upper_assembles; eauto.
  - eapply emit_upper_assembles; eauto.
  - by apply emit_jal_assembles.
  - by apply emit_jalr_assembles.
  - by apply emit_csr_assembles.
  - simpl. apply assembles_word; [done|]. vm_compute. done.
  - simpl. apply assembles_word; [done|]. vm_compute. done.
  - eapply emit_cm_assembles; eauto.
  - eapply emit_cm_assembles; eauto.
Qed.

(** ** Compressed instructions *)

(** Primed operands (of the c.and, c.lw, ... family) are numbers in the
    register window x8-x15. *)
Inductive rvc :=
| C_ADD (rd rs : Z) | C_ADDI (rd imm : Z) | C_ADDI4SPN (rd' imm : Z)
| C_AND (rd' rs' : Z) | C_ANDI (rd' imm : Z) | C_BEQZ (rs' off : Z) | C_BNEZ (rs' off : Z)
| C_EBREAK | C_J (off : Z) | C_JAL (off : Z) | C_JALR (rs : Z) | C_JR (rs : Z)
| C_LI (rd imm : Z) | C_LUI (rd imm : Z) | C_LW (rd' rs' off : Z) | C_LWSP (rd off : Z)
| C_MV (rd rs : Z) | C_NOP | C_OR (rd' rs' : Z) | C_SLLI (rd sh : Z)
| C_SRAI (rd' sh : Z) | C_SRLI (rd' sh : Z) | C_SUB (rd' rs' : Z)
| C_SW (rs2' rs1' off : Z) | C_SWSP (rs off : Z) | C_XOR (rd' rs' : Z).

Definition emit_rvc (c : rvc) : M asm_rv32_t unit :=
  match c with
  | C_ADD rd rs => asm_rv32_opcode_cadd rd rs
  | C_ADDI rd imm => asm_rv32_opcode_caddi rd imm
  | C_ADDI4SPN rd imm => asm_rv32_opcode_caddi4spn rd imm
  | C_AND rd rs => asm_rv32_opcode_cand rd rs
  | C_ANDI rd imm => asm_rv32_opcode_candi rd imm
  | C_BEQZ rs off => asm_rv32_opcode_cbeqz rs off
  | C_BNEZ rs off => asm_rv32_opcode_cbnez rs off
  | C_EBREAK => asm_rv32_opcode_cebreak
  | C_J off => asm_rv32_opcode_cj off
  | C_JAL off => asm_rv32_opcode_cjal off
  | C_JALR rs => asm_rv32_opcode_cjalr rs
  | C_JR rs => asm_rv32_opcode_cjr rs
  | C_LI rd imm => asm_rv32_opcode_cli rd imm
  | C_LUI rd imm => asm_rv32_opcode_clui rd imm
  | C_LW rd rs off => asm_rv32_opcode_clw rd rs off
  | C_LWSP rd off => asm_rv32_opcode_clwsp rd off
  | C_MV rd rs => asm_rv32_opcode_cmv rd rs
  | C_NOP => asm_rv32_opcode_cnop
  | C_OR rd rs => asm_rv32_opcode_cor rd rs
  | C_SLLI rd sh => asm_rv32_opcode_cslli rd sh
  | C_SRAI rd sh => asm_rv32_opcode_csrai rd sh
  | C_SRLI rd sh => asm_rv32_opcode_csrli rd sh
  | C_SUB rd rs => asm_rv32_opcode_csub rd rs
  | C_SW rs2 rs1 off => asm_rv32_opcode_csw rs2 rs1 off
  | C_SWSP rs off => asm_rv32_opcode_cswsp rs off
  | C_XOR rd rs => asm_rv32_opcode_cxor rd rs
  end.

(** The instruction each stands for. *)
Definition expand (c : rvc) : rv32_instr :=
  match c with
  | C_ADD rd rs => R ADD rd rd rs
  | C_ADDI rd imm => I ADDI rd rd imm
  | C_ADDI4SPN rd imm => I ADDI (8 + rd) 2 imm
  | C_AND rd rs => R AND (8 + rd) (8 + rd) (8 + rs)
  | C_ANDI rd imm => I ANDI (8 + rd) (8 + rd) imm
  | C_BEQZ rs off => BRANCH BEQ (8 + rs) 0 off
  | C_BNEZ rs off => BRANCH BNE (8 + rs) 0 off
  | C_EBREAK => EBREAK
  | C_J off => JAL 0 off
  | C_JAL off => JAL 1 off
  | C_JALR rs => JALR 1 rs 0
  | C_JR rs => JALR 0 rs 0
  | C_LI rd imm => I ADDI rd 0 imm
  | C_LUI rd imm => LUI rd imm
  | C_LW rd rs off => LOAD LW (8 + rd) (8 + rs) off
  | C_LWSP rd off => LOAD LW rd 2 off
  | C_MV rd rs => I ADDI rd rs 0
  | C_NOP => I ADDI 0 0 0
  | C_OR rd rs => R OR (8 + rd) (8 + rd) (8 + rs)
  | C_SLLI rd sh => I SLLI rd rd sh
  | C_SRAI rd sh => I SRAI (8 + rd) (8 + rd) sh
  | C_SRLI rd sh => I SRLI (8 + rd) (8 + rd) sh
  | C_SUB rd rs => R SUB (8 + rd) (8 + rd) (8 + rs)
  | C_SW rs2 rs1 off => STORE SW (8 + rs1) (8 + rs2) off
  | C_SWSP rs off => STORE SW 2 rs off
  | C_XOR rd rs => R XOR (8 + rd) (8 + rd) (8 + rs)
  end.

Definition reg3 (r : Z) : Prop := 0 <= r < 8.
(** The register numbers RV32_ENCODE_TYPE_CA keeps: it masks with 3. *)
Definition reg_ca (r : Z) : Prop := 0 <= r < 4.

Definition encodable_rvc (c : rvc) : Prop :=
  match c with
  | C_ADD rd rs | C_MV rd rs => reg5 rd /\ reg5 rs /\ rs <> 0
  | C_JALR rs | C_JR rs => reg5 rs /\ rs <> 0
  | C_ADDI rd imm | C_LI rd imm => reg5 rd /\ simm 6 imm
  | C_ADDI4SPN rd imm => reg3 rd /\ 0 < imm < 2 ^ 10 /\ (2 ^ 2 | imm)
  | C_AND rd rs | C_OR rd rs | C_SUB rd rs | C_XOR rd rs => reg_ca rd /\ reg_ca rs
  | C_ANDI rd imm => reg3 rd /\ simm 6 imm
  | C_BEQZ rs off | C_BNEZ rs off => reg3 rs /\ simm_even 9 off
  | C_J off | C_JAL off => simm_even 12 off
  | C_EBREAK | C_NOP => True
  | C_LUI rd imm => reg5 rd /\ rd <> 2 /\ simm 18 imm /\ imm <> 0 /\ (2 ^ 12 | imm)
  | C_LW rd rs off | C_SW rd rs off => reg3 rd /\ reg3 rs /\ 0 <= off < 2 ^ 7 /\ (2 ^ 2 | off)
  | C_LWSP rd off => reg5 rd /\ rd <> 0 /\ 0 <= off < 2 ^ 8 /\ (2 ^ 2 | off)
  | C_SWSP rs off => reg5 rs /\ 0 <= off < 2 ^ 8 /\ (2 ^ 2 | off)
  | C_SLLI rd sh => reg5 rd /\ 0 <= sh < 32
  | C_SRAI rd sh | C_SRLI rd sh => reg3 rd /\ 0 <= sh < 32
  end.

(** An atom [k] of a bounded [k << n] is bounded as well. *)
Lemma shl_bound k n a b : 0 <= n -> a <= k << n < b * 2 ^ n -> a / 2 ^ n <= k < b.
Proof.
  intros Hn Hk. rewrite Z.shiftl_mul_pow2 in Hk by done.
  pose proof (Z.pow_pos_nonneg 2 n ltac:(lia) Hn). split; [|nia].
  rewrite <- (Z.div_mul k (2 ^ n)) by lia. apply Z.div_le_mono; lia.
Qed.
Ltac bound_factors :=
  repeat match goal with
  | H : 0 <= ?k << ?n < ?b |- _ =>
      lazymatch goal with
      | _ : 0 <= k < _ |- _ => fail
      | _ => let c := eval vm_compute in (b / 2 ^ n) in
             assert (0 <= k < c) by (apply (shl_bound k n 0 c); lia)
      end
  end.

(** A field that is tested and not constant is one of the operands. *)
Ltac test_field x :=
  match goal with
  | |- context [bits ?e ?lo ?n =? ?c] => replace (bits e lo n) with x by (symmetry; bitsolve)
  end.

(** Splits conjunctions, ranges [a <= x < b] excepted. *)
Ltac split_operands :=
  repeat match goal with
  | H : ?A /\ _ |- _ =>
      lazymatch A with (_ <= _) => fail | (_ < _) => fail | _ => destruct H end
  end.
Ltac start_rvc :=
  intros; cbn [emit_rvc expand encodable_rvc] in *; unfold reg5, reg3, reg_ca, simm_even in *;
  split_operands; factor_immediates; bound_factors; autounfold with rv32_opcodes.

Section Decode16.
Context (s : asm_rv32_t).

Definition plain_rvc (c : rvc) : Prop :=
  match c with
  | C_ADDI _ _ | C_AND _ _ | C_ANDI _ _ | C_BEQZ _ _ | C_BNEZ _ _ | C_J _
  | C_JAL _ | C_LI _ _ | C_LW _ _ _ | C_OR _ _ | C_SUB _ _ | C_SW _ _ _
  | C_SWSP _ _ | C_XOR _ _ => True
  | _ => False
  end.

Lemma plain_rvc_assembles c : plain_rvc c ->
  encodable_rvc c -> assembles s (emit_rvc c) [(expand c, 2)].
Proof using.
  intros Hc. destruct c; try destruct Hc; start_rvc; decode_halfword.
Qed.

Ltac tests := repeat match goal with
  | H : ?x <> ?c |- context [?x =? ?c] => rewrite (proj2 (Z.eqb_neq x c) H)
  end; cbv beta iota.

(** CR formats, whose register operands the decoder tests. *)
Lemma cr_rvc_assembles c :
  match c with C_ADD _ _ | C_MV _ _ | C_JALR _ | C_JR _ => True | _ => False end ->
  encodable_rvc c -> assembles s (emit_rvc c) [(expand c, 2)].
Proof using.
  intros Hc. destruct c; try destruct Hc; start_rvc;
    (apply assembles_halfword; [decode_fields; done|]); unfold decode16; cbv zeta; decode_fields.
  - test_field rs. tests. operands.
  - rewrite Z.eqb_refl. test_field rs. tests. operands.
  - rewrite Z.eqb_refl. test_field rs. tests. operands.
  - test_field rs. tests. operands.
Qed.

Lemma shift_rvc_assembles c :
  match c with C_SLLI _ _ | C_SRAI _ _ | C_SRLI _ _ => True | _ => False end ->
  encodable_rvc c -> assembles s (emit_rvc c) [(expand c, 2)].
Proof using.
  intros Hc. destruct c; try destruct Hc; start_rvc;
    (apply assembles_halfword; [decode_fields; done|]); unfold decode16; cbv zeta; decode_fields;
    (match goal with |- context [?e <? 32] => replace e with sh by (symmetry; bitsolve) end);
    rewrite ltb_true by lia; operands.
Qed.

Lemma clwsp_assembles rd off : encodable_rvc (C_LWSP rd off) ->
  assembles s (asm_rv32_opcode_clwsp rd off) [(LOAD LW rd 2 off, 2)].
Proof using.
  start_rvc. apply assembles_halfword; [decode_fields; done|].
  unfold decode16; cbv zeta; decode_fields. test_field rd. tests. operands.
Qed.

Lemma caddi4spn_assembles rd imm : encodable_rvc (C_ADDI4SPN rd imm) ->
  assembles s (asm_rv32_opcode_caddi4spn rd imm) [(I ADDI (8 + rd) 2 imm, 2)].
Proof using.
  start_rvc. apply assembles_halfword; [decode_fields; done|].
  unfold decode16; cbv zeta; decode_fields.
  assert (0 <= x < 256) by (apply (shl_bound x 2 0 256); lia).
  set (w := u16 _). assert (nzuimm_ciw w = x << 2) as Himm by (unfold nzuimm_ciw, w; bitsolve).
  assert (nzuimm_ciw w = nzuimm_ciw (bits w 5 8 << 5)) as E
    by (clearbody w; unfold nzuimm_ciw; bitsolve).
  destruct (Z.eqb_spec (bits w 5 8) 0) as [E1|_].
  - rewrite Himm, E1 in E. change (x << 2 = 0) in E. lia.
  - rewrite Himm. unfold w. operands.
Qed.

Lemma clui_assembles rd imm : encodable_rvc (C_LUI rd imm) ->
  assembles s (asm_rv32_opcode_clui rd imm) [(LUI rd imm, 2)].
Proof using.
  start_rvc. apply assembles_halfword; [decode_fields; done|].
  unfold decode16; cbv zeta; decode_fields. test_field rd. tests.
  set (w := u16 _). assert (imm_lui w = x << 12) as Himm
    by (apply sw_field; [lia | unfold w; bitsolve | assumption]).
  rewrite Himm. unfold imm_lui in Himm.
  destruct (Z.eqb_spec (bits w 12 1) 0) as [E1|]; simpl; [|unfold w; operands].
  destruct (Z.eqb_spec (bits w 2 5) 0) as [E2|]; [|unfold w; operands].
  rewrite E1, E2 in Himm. change (0 = x << 12) in Himm. lia.
Qed.
End Decode16.

(** Every compressed opcode function: for operands the instruction has room
    for, the emitted halfword decodes to the instruction it abbreviates. *)
Theorem rvc_opcodes_decode c s : encodable_rvc c ->
  assembles s (emit_rvc c) [(expand c, 2)].
Proof.
  intros Hc. destruct c; try (by apply plain_rvc_assembles);
    try (by apply cr_rvc_assembles); try (by apply shift_rvc_assembles);
    try (by apply assembles_halfword; [done|vm_compute]).
  - by apply caddi4spn_assembles.
  - by apply clui_assembles.
  - by apply clwsp_assembles.
Qed.
