(* ===== verification/AsmRv32Imm.v ===== *)
(** * AsmRv32Imm: the immediates of asmrv32.c

    The range tests, the split of a constant into an upper and a lower part,
    and the code sequences that load a constant or move the stack pointer. *)

From S2P Require Import Prelude AsmBase Machine Rv32Isa Emission PyMisc.
From S2P Require Import AsmRv32Opcodes AsmRv32Decode AsmRv32.

Set Default Goal Selector "!".

#[local] Existing Instance SizeT_32.

(** ** Range tests *)

Lemma mask_high v n : 0 <= n <= 32 ->
  v .& u32 (Z.lnot ((1 << n) - 1)) = u32 v / 2 ^ n * 2 ^ n.
Proof.
  intros Hn. rewrite <- Z.shiftr_div_pow2, <- Z.shiftl_mul_pow2 by lia.
  rewrite Z.shiftl_1_l, Z.sub_1_r, <- Z.ones_equiv, <- Z.ldiff_ones_r by lia.
  apply Z.bits_inj'. intros k Hk. unfold uw.
  rewrite Z.land_spec, Z.ldiff_spec. destruct (decide (k < 32)).
  - by rewrite !Z.mod_pow2_bits_low, Z.lnot_spec by lia.
  - by rewrite !Z.mod_pow2_bits_high, andb_false_r by lia.
Qed.

Lemma div_mul_zero u p : 0 < p -> 0 <= u -> u / p * p = 0 <-> u < p.
Proof.
  intros Hp Hu. pose proof (Z.div_mod u p ltac:(lia)). pose proof (Z.mod_pos_bound u p Hp).
  pose proof (Z.div_pos u p Hu Hp). split; [|intros; rewrite Z.div_small by lia; lia].
  intros E. assert (u / p = 0) by nia. lia.
Qed.

Lemma FIT_UNSIGNED_spec v n : 0 <= n <= 32 ->
  FIT_UNSIGNED v n = true <-> 0 <= u32 v < 2 ^ n.
Proof.
  intros Hn. unfold FIT_UNSIGNED. rewrite mask_high, Z.eqb_eq by done.
  pose proof (uw_range 32 eq_refl v). rewrite div_mul_zero; [lia | |lia].
  apply Z.pow_pos_nonneg; lia.
Qed.

Lemma FIT_SIGNED_spec v n : 0 < n <= 32 -> FIT_SIGNED v n = true <-> simm n (s32 v).
Proof.
  intros Hn. unfold FIT_SIGNED, simm. rewrite mask_high by lia.
  replace (u32 (Z.lnot ((1 << (n - 1)) - 1))) with (2 ^ 32 - 2 ^ (n - 1)).
  2: { rewrite Z.shiftl_1_l, <- (uw_small 32 (2 ^ 32 - 2 ^ (n - 1))).
       - apply uw_eq_iff; [lia|]. exists 1. unfold Z.lnot. lia.
       - pose proof (Z.pow_pos_nonneg 2 (n - 1)). pose proof (Z.pow_le_mono_r 2 (n - 1) 32). lia. }
  rewrite orb_true_iff, !Z.eqb_eq. pose proof (uw_range 32 eq_refl v).
  rewrite <- (sw_uw 32 eq_refl v). unfold sw at 1 2.
  set (u := u32 v) in *. set (p := 2 ^ (n - 1)).
  assert (0 < p <= 2 ^ 31).
  { unfold p. pose proof (Z.pow_pos_nonneg 2 (n - 1)). pose proof (Z.pow_le_mono_r 2 (n - 1) 31). lia. }
  assert (exists q, 2 ^ 31 = p * q) as [q Hq].
  { exists (2 ^ (32 - n)). unfold p. rewrite <- Z.pow_add_r by lia. f_equal. lia. }
  assert (u / p * p = 0 <-> u < p) as Hlow by (apply div_mul_zero; lia).
  pose proof (Z.div_mod u p ltac:(lia)). pose proof (Z.mod_pos_bound u p ltac:(lia)).
  set (d := u / p) in *. assert (0 <= d) by (apply Z.div_pos; lia).
  assert (d * p = 2 ^ 32 - p <-> 2 ^ 32 - p <= u).
  { assert (2 ^ 32 = p * (2 * q)) as E by lia. split; [lia|]. intros.
    assert (d = 2 * q - 1) by nia. nia. }
  change (32 - 1) with 31.
  destruct (decide (u < 2 ^ 31)).
  - rewrite Z.mod_small by lia. lia.
  - replace ((u + 2 ^ 31) mod 2 ^ 32) with (u - 2 ^ 31); [lia|].
    rewrite <- (Z.mod_small (u - 2 ^ 31) (2 ^ 32)) by lia.
    apply (uw_eq_iff 32); [lia|]. exists (-1). lia.
Qed.

Lemma in_window r : RV32_IS_IN_C_REGISTER_WINDOW r = true ->
  reg3 (RV32_MAP_IN_C_REGISTER_WINDOW r) /\ 8 + RV32_MAP_IN_C_REGISTER_WINDOW r = r.
Proof.
  unfold RV32_IS_IN_C_REGISTER_WINDOW, RV32_MAP_IN_C_REGISTER_WINDOW, ASM_RV32_REG_X8,
    ASM_RV32_REG_X15, reg3. rewrite andb_true_iff. lia.
Qed.

(** ** Splitting *)

(** The upper part is a multiple of 4096, and adding the lower one, read as
    the 12-bit signed immediate it becomes, gives the number back. *)
Lemma split_immediate_spec v upper lower : split_immediate v = (upper, lower) ->
  (2 ^ 12 | upper) /\ 0 <= upper < 2 ^ 32 /\ 0 <= lower < 2 ^ 12
  /\ u32 (upper + sw 12 lower) = u32 v.
Proof.
  unfold split_immediate. intros E. injection E as <- <-.
  pose proof (uw_range 32 eq_refl v) as Hr. set (u := u32 v) in *.
  replace (u .& 0xFFFFF000) with (u / 2 ^ 12 * 2 ^ 12).
  2: { rewrite <- Z.shiftr_div_pow2, <- Z.shiftl_mul_pow2 by lia. bitsolve. }
  replace (u .& 0xFFF) with (u mod 2 ^ 12).
  2: { change (uw 12 u = u .& 0xFFF). bitsolve. }
  pose proof (Z.div_mod u (2 ^ 12) ltac:(lia)) as Hdm.
  pose proof (Z.mod_pos_bound u (2 ^ 12) ltac:(lia)).
  set (l := u mod 2 ^ 12) in *. set (h := u / 2 ^ 12) in *.
  assert (0 <= h < 2 ^ 20) by lia.
  assert ((l .& 0x800 =? 0) = (l <? 2 ^ 11)) as ->.
  { replace (l .& 0x800) with (l / 2 ^ 11 * 2 ^ 11).
    2: { rewrite <- Z.shiftr_div_pow2, <- Z.shiftl_mul_pow2 by lia.
         assert (0 <= l < 2 ^ 12) by lia. clearbody l. bitsolve. }
    pose proof (Z.div_mod l (2 ^ 11) ltac:(lia)). pose proof (Z.mod_pos_bound l (2 ^ 11) ltac:(lia)).
    destruct (Z.ltb_spec l (2 ^ 11)); [|]; (destruct (Z.eqb_spec (l / 2 ^ 11 * 2 ^ 11) 0); lia). }
  destruct (Z.ltb_spec l (2 ^ 11)).
  - split; [by exists h|]. repeat (split; [lia|]).
    rewrite sw_small by lia. by rewrite uw_small by lia; lia.
  - assert (sw 12 l = l - 2 ^ 12) as ->.
    { rewrite <- (sw_small 12 eq_refl (l - 2 ^ 12)) by lia. rewrite <- (sw_uw 12 eq_refl l), <- (sw_uw 12 eq_refl (_ - _)).
      f_equal. apply uw_eq_iff; [lia|]. exists 1. lia. }
    split; [|split; [apply uw_range; lia|split; [lia|]]].
    + destruct (decide (h * 2 ^ 12 + 0x1000 < 2 ^ 32)).
      * rewrite uw_small by lia. exists (h + 1). lia.
      * exists 0. rewrite <- (uw_small 32 (0 * 2 ^ 12)) by lia. apply uw_eq_iff; [lia|]. exists 1. lia.
    + rewrite <- (uw_small 32 u) by lia. rewrite uw_add_l by lia. f_equal. lia.
Qed.

(** ** Loading a constant *)

(** Executing a list of decoded instructions, symbolically. *)
Ltac rv_exec :=
  cbn [app exec_straight exec Rv32 rv32_exec mbind option_bind rop_val iop_val addr_width code_len
       foldr fst snd] in *;
  repeat first [rewrite Z.eqb_refl | progress autorewrite with machine].

Lemma sw_sw_uw n v : 0 < n -> sw n (uw n v) = sw n v.
Proof. intros. by rewrite sw_uw. Qed.

Lemma simm_sw n v : 0 < n -> simm n (sw n v).
Proof. intros. by apply sw_range. Qed.

(** The 12-bit formats keep the low bits of the immediate only. *)
Lemma TYPE_I_low op ft3 rd rs imm :
  RV32_ENCODE_TYPE_I op ft3 rd rs imm = RV32_ENCODE_TYPE_I op ft3 rd rs (sw 12 imm).
Proof.
  assert (forall z, z .& 0xFFF = uw 12 z) as E by (intros; bitsolve).
  unfold RV32_ENCODE_TYPE_I. by rewrite !E, uw_sw.
Qed.
Lemma TYPE_S_low op ft3 rs1 rs2 imm :
  RV32_ENCODE_TYPE_S op ft3 rs1 rs2 imm = RV32_ENCODE_TYPE_S op ft3 rs1 rs2 (sw 12 imm).
Proof.
  assert (forall z, z .& 0x1F = uw 12 z .& 0x1F) as E by (intros; bitsolve).
  assert (forall z, z .& 0xFE0 = uw 12 z .& 0xFE0) as F by (intros; bitsolve).
  unfold RV32_ENCODE_TYPE_S. by rewrite E, F, (E (sw 12 imm)), (F (sw 12 imm)), uw_sw.
Qed.

Section Immediates.
Context (s : asm_rv32_t).

Lemma load_upper_assembles rd upper :
  reg5 rd -> rd <> 2 -> 0 <= upper < 2 ^ 32 -> (2 ^ 12 | upper) ->
  exists len, assembles s (load_upper_immediate rd upper) [(LUI rd (s32 upper), len)].
Proof using.
  intros Hrd Hsp Hu Hd. unfold load_upper_immediate.
  assert (encodable (LUI rd (s32 upper))) as Henc.
  { split; [done|]. split; [by apply simm_sw|]. apply sw_divide; [lia|done]. }
  destruct (_ && _) eqn:E; [exists 2|exists 4; by apply (opcodes_decode _ s) in Henc].
  apply andb_prop in E as [Hfit Hnz]. apply FIT_SIGNED_spec in Hfit; [|lia].
  apply (rvc_opcodes_decode (C_LUI rd (s32 upper))). unfold encodable_rvc.
  destruct Henc as (_ & _ & Hd'). repeat split; try done; try apply Hrd.
  - destruct Hfit. lia.
  - destruct Hfit. lia.
  - intros Hz. apply (f_equal u32) in Hz. rewrite uw_sw, uw_small in Hz by lia.
    rewrite Hz in Hnz. done.
Qed.

Lemma load_lower_assembles rd lower : reg5 rd -> 0 <= lower < 2 ^ 12 ->
  exists len, assembles s (load_lower_immediate rd lower)
    (if lower =? 0 then [] else [(I ADDI rd rd (sw 12 lower), len)]).
Proof using.
  intros Hrd Hl. unfold load_lower_immediate.
  destruct (Z.eqb_spec lower 0) as [->|Hnz]; [exists 0; apply assembles_ret|].
  rewrite (sw_small 32) by lia. destruct (FIT_SIGNED lower 6) eqn:E.
  - exists 2. apply FIT_SIGNED_spec in E; [|lia]. rewrite sw_small in E by lia. destruct E.
    rewrite sw_small by lia.
    apply (rvc_opcodes_decode (C_ADDI rd lower)). split; [done|]. unfold simm. lia.
  - exists 4. unfold asm_rv32_opcode_addi. rewrite TYPE_I_low.
    apply (opcodes_decode (I ADDI rd rd (sw 12 lower))).
    split; [done|]. split; [done|]. by apply simm_sw.
Qed.

Lemma load_upper_performs rd upper :
  reg5 rd -> rd <> 2 -> 0 <= upper < 2 ^ 32 -> (2 ^ 12 | upper) ->
  performs s (load_upper_immediate rd upper) (rset rd upper).
Proof using.
  intros Hrd Hsp Hu Hd. destruct (load_upper_assembles rd upper) as [len Hl]; try done.
  eapply assembles_performs; [exact Hl|]. intros mc _. rv_exec. rewrite Z.add_0_r.
  do 2 f_equal. apply rset_uw_eq. apply uw_sw. lia.
Qed.

Lemma load_lower_performs rd lower : reg5 rd -> 0 <= lower < 2 ^ 12 ->
  performs s (load_lower_immediate rd lower)
    (fun mc => if lower =? 0 then mc else rset rd (rget rd mc + sw 12 lower) mc).
Proof using.
  intros Hrd Hl. destruct (load_lower_assembles rd lower Hrd Hl) as [len Hl'].
  destruct (Z.eqb_spec lower 0) as [->|]; [apply performs_ret|].
  eapply assembles_performs; [exact Hl'|]. intros mc _. rv_exec. by rewrite Z.add_0_r.
Qed.
End Immediates.

Lemma pc_blind_rset r v : pc_blind (rset r v).
Proof. intros a mc. apply rset_set_pc. Qed.

(** The upper and the lower part together load the constant. *)
Lemma load_full_performs s rd imm : reg5 rd -> rd <> 0 -> rd <> 2 ->
  performs s (load_full_immediate rd imm) (rset rd imm).
Proof.
  intros Hrd H0 H2. unfold load_full_immediate.
  destruct (split_immediate imm) as [upper lower] eqn:E.
  apply split_immediate_spec in E as (Hd & Hu & Hl & Hsum).
  eapply performs_ext; [|eapply performs_seq;
    [by apply load_upper_performs | apply pc_blind_rset | | intros; by apply load_lower_performs]].
  - intros mc. simpl. destruct (Z.eqb_spec lower 0) as [->|].
    + apply rset_uw_eq. by rewrite Z.add_0_r in Hsum.
    + autorewrite with machine. apply rset_uw_eq. by rewrite uw_add_l.
  - intros a mc. destruct (lower =? 0); [done|]. by autorewrite with machine.
Qed.

(** [asm_rv32_emit_optimised_load_immediate]: running the emitted code leaves
    [imm] in [rd], and nothing else changes. *)
Theorem load_immediate_performs s rd imm : reg5 rd -> rd <> 0 -> rd <> 2 -> simm 32 imm ->
  performs s (asm_rv32_emit_optimised_load_immediate rd imm) (rset rd imm).
Proof.
  intros Hrd H0 H2 Hi. unfold asm_rv32_emit_optimised_load_immediate.
  destruct (FIT_SIGNED imm 6) eqn:E6; [|destruct (FIT_SIGNED imm 12) eqn:E12].
  - apply FIT_SIGNED_spec in E6; [|lia]. rewrite sw_small in E6 by done.
    eapply assembles_performs; [by apply (rvc_opcodes_decode (C_LI rd imm))|].
    intros mc _. rv_exec. by rewrite ?Z.add_0_l, ?Z.add_0_r.
  - apply FIT_SIGNED_spec in E12; [|lia]. rewrite sw_small in E12 by done.
    eapply assembles_performs; [by apply (opcodes_decode (I ADDI rd 0 imm))|].
    intros mc _. rv_exec. by rewrite ?Z.add_0_l, ?Z.add_0_r.
  - by apply load_full_performs.
Qed.
