(* ===== verification/AsmRv32Jump.v ===== *)
(** * AsmRv32Jump: the jumps of asmrv32.c reach their labels

    A displacement is relative to the start of the emitted code; running that
    code at an address [a] transfers control to [a] plus the distance between
    the label's offset and the offset the code was emitted at. *)

From S2P Require Import Prelude AsmBase Machine Rv32Isa Emission PyMisc.
From S2P Require Import AsmRv32Opcodes AsmRv32Decode AsmRv32 AsmRv32Imm.

Set Default Goal Selector "!".

#[local] Existing Instance SizeT_32.

(** Nothing but the registers of [X] and the program counter changes. *)
Definition keeps (X : list Z) (mc mc' : machine) : Prop :=
  (forall r, r ∉ X -> rget r mc' = rget r mc) /\ mem mc' = mem mc.

Lemma keeps_set_pc X a mc mc' : keeps X mc mc' -> keeps X mc (set_pc a mc').
Proof. done. Qed.
Lemma keeps_refl X mc : keeps X mc mc.
Proof. done. Qed.
Lemma keeps_rset r v X mc mc' : r ∈ X -> keeps X mc mc' -> keeps X mc (rset r v mc').
Proof.
  intros Hr [Hk Hm]. split; [|by rewrite mem_rset].
  intros q Hq. rewrite rget_rset_ne; [auto|]. by intros ->.
Qed.

(** The label's offset less the current one. *)
Definition displacement (s : asm_rv32_t) (label : Z) : Z :=
  default 0 (label_offsets (base s) !! Z.to_nat label) - code_offset (base s).

Definition has_label (s : asm_rv32_t) (label : Z) : Prop :=
  is_Some (label_offsets (base s) !! Z.to_nat label).

Lemma calculate_displacement_eq s label : has_label s label ->
  exists short, calculate_displacement_for_label label s
    = Ok ((short, s32 (displacement s label)), s).
Proof.
  intros [off Hoff]. eexists. unfold calculate_displacement_for_label, label_offset_at, displacement.
  run_cmd. unfold id. rewrite Hoff. simpl. done.
Qed.

Lemma clear_bit0 z : (2 | z) -> z .& Z.lnot 1 = z.
Proof.
  intros [k ->]. change (k * 2) with (k * 2 ^ 1). rewrite <- (Z.shiftl_mul_pow2 k 1) by lia.
  rewrite <- Z.ldiff_land. change 1 with (Z.ones 1) at 2. rewrite Z.ldiff_ones_r by lia.
  by rewrite Z.shiftr_shiftl_l, Z.shiftl_0_r by lia.
Qed.

(** Jumps through the temporary: AUIPC and JALR. *)
Section LongJump.
Context (s : asm_rv32_t) (disp upper lower : Z).
Hypothesis Hsplit : split_immediate disp = (upper, lower).

Definition long_jump : M asm_rv32_t unit :=
  asm_rv32_opcode_auipc REG_TEMP2 (s32 upper);;
  asm_rv32_opcode_jalr ASM_RV32_REG_ZERO REG_TEMP2 (s32 lower).
Definition long_jump_code : list (rv32_instr * Z) :=
  [(AUIPC 28 (s32 upper), 4); (JALR 0 28 (sw 12 lower), 4)].

Lemma long_jump_assembles : assembles s long_jump long_jump_code.
Proof using Hsplit.
  apply split_immediate_spec in Hsplit as (Hd & Hu & Hl & Hsum).
  apply (assembles_seq (H0 := Rv32) s _ _ [(AUIPC 28 (s32 upper), 4)] [(JALR 0 28 (sw 12 lower), 4)]).
  - apply (opcodes_decode (AUIPC 28 (s32 upper))). split; [done|].
    split; [by apply simm_sw | by apply (sw_divide 32 12)].
  - intros bs _. unfold asm_rv32_opcode_jalr. rewrite sw_small, TYPE_I_low by (simpl; lia).
    apply (opcodes_decode (JALR 0 28 (sw 12 lower))).
    split; [done|]. split; [done|]. by apply simm_sw.
Qed.

Lemma long_jump_exec mc : exists a,
  exec_straight long_jump_code mc = Some (set_pc a (rset 28 (pc mc + s32 upper) mc))
  /\ ((2 | pc mc + disp) -> a = u32 (pc mc + disp)).
Proof using Hsplit.
  apply split_immediate_spec in Hsplit as (Hd & Hu & Hl & Hsum). eexists.
  unfold long_jump_code. rv_exec. split; [done|]. intros Heven.
  replace (u32 (u32 (pc mc + s32 upper) + sw 12 lower)) with (u32 (pc mc + disp)).
  { apply clear_bit0. by apply (uw_divide 32 1). }
  clear -Hsum. set (l := sw 12 lower) in *. clearbody l. word_lia.
Qed.
End LongJump.

(** The displacement, and whether the label is behind. *)
Lemma implements_displacement s label (k : bool * Z -> M asm_rv32_t unit) P :
  has_label s label ->
  (forall short, implements s (k (short, s32 (displacement s label))) P) ->
  implements s ('x ← calculate_displacement_for_label label; k x) P.
Proof.
  intros Hl Hk. destruct (calculate_displacement_eq s label Hl) as [short E].
  eapply implements_ext; [|apply (Hk short)]. apply (bind_Ok _ _ _ _ _ E).
Qed.

Lemma s32_even x : (2 | x) -> (2 | s32 x).
Proof. apply (sw_divide 32 1). lia. Qed.

Lemma fit_signed_even n x : 0 < n <= 32 -> FIT_SIGNED (s32 x) n = true -> (2 | x) ->
  simm_even n (s32 x).
Proof.
  intros Hn Hf Hx. split; [|by apply s32_even].
  apply FIT_SIGNED_spec in Hf; [|done]. by rewrite (sw_small 32 eq_refl (s32 x)) in Hf by (apply simm_sw; lia).
Qed.

Section Jumps.
Context (s : asm_rv32_t) (label : Z).
Hypothesis Hlabel : has_label s label.
(** Labels are at even offsets, like every instruction. *)
Hypothesis Heven : (2 | displacement s label).

(** The jump is taken iff [c] holds of the machine; only the temporary may
    be clobbered. *)
Definition jumps_if (c : machine -> bool) (n : Z) (mc mc' : machine) : Prop :=
  (2 | pc mc) -> keeps [REG_TEMP2] mc mc' /\
  pc mc' = if c mc then u32 (pc mc + displacement s label) else u32 (pc mc + n).

Lemma jump_implements :
  implements s (asm_rv32_emit_jump label) (jumps_if (fun _ => true)).
Proof using Hlabel Heven.
  apply implements_displacement; [done|]. intros short.
  destruct (short && _) eqn:E.
  - apply andb_prop in E as [_ Hf]. apply fit_signed_even in Hf; [|lia|done].
    eapply assembles_implements; [by apply (rvc_opcodes_decode (C_J _))|].
    intros mc Hw. eexists. rv_exec. split; [done|]. intros _. split; [done|].
    simpl. clear. word_lia.
  - destruct (split_immediate _) as [upper lower] eqn:Hs.
    eapply assembles_implements; [by eapply long_jump_assembles|]. intros mc Hw.
    destruct (long_jump_exec _ _ _ Hs mc) as (a & Ha & Htgt). eexists; split; [exact Ha|].
    intros Hpc. split; [by apply keeps_set_pc, keeps_rset; [by left|]|].
    simpl. rewrite Htgt by (apply Z.divide_add_r; [done | by apply s32_even]).
    clear. word_lia.
Qed.

(** A conditional jump whose target is out of the branch's reach: a branch
    [b] with the opposite condition over a long jump. *)
Lemma branch_over_implements (c : machine -> bool) op rs1 rs2 blen skip (m : M asm_rv32_t unit) :
  (forall mc, bop_taken op (rget rs1 mc) (rget rs2 mc) = negb (c mc)) ->
  skip = blen + 8 -> (2 | blen) ->
  assembles s m [(BRANCH op rs1 rs2 skip, blen)] ->
  forall upper lower, split_immediate (s32 (s32 (displacement s label) - blen)) = (upper, lower) ->
  implements s (m;; long_jump upper lower) (jumps_if c).
Proof using Heven.
  intros Hop -> Hblen Hm upper lower Hs.
  eapply (assembles_implements_prefix (H0 := Rv32) s _
    ([(BRANCH op rs1 rs2 (blen + 8), blen)] ++ long_jump_code upper lower)).
  { eapply (assembles_seq (H0 := Rv32)); [done|]. intros. by eapply long_jump_assembles. }
  intros mc Hw. destruct (c mc) eqn:Hc.
  - exists 3%nat. destruct (long_jump_exec _ _ _ Hs (set_pc (u32 (pc mc + blen)) mc)) as (a & Ha & Htgt).
    eexists. split.
    { etransitivity; [|exact Ha]. change (take 3 _) with ((BRANCH op rs1 rs2 (blen + 8), blen) :: long_jump_code upper lower).
      apply exec_straight_cons; [|done]. simpl. by rewrite Hop, Hc. }
    intros Hpc. split; [by apply keeps_set_pc, keeps_rset; [by left|]|].
    rewrite Hc. simpl in *. rewrite Htgt.
    + clear. word_lia.
    + apply Z.divide_add_r; [apply (uw_divide 32 1); [lia|]; by apply Z.divide_add_r|].
      apply s32_even. apply Z.divide_sub_r; [|done]. by apply s32_even.
  - exists 1%nat. eexists. split; [simpl; rewrite Hop, Hc; done|].
    intros Hpc. split; [done|]. rewrite Hc. simpl. by f_equal.
Qed.

(** A conditional branch within reach. *)
Lemma branch_implements (c : machine -> bool) op rs1 rs2 len (m : M asm_rv32_t unit) :
  (forall mc, bop_taken op (rget rs1 mc) (rget rs2 mc) = c mc) ->
  assembles s m [(BRANCH op rs1 rs2 (s32 (displacement s label)), len)] ->
  implements s m (jumps_if c).
Proof using.
  intros Hop Hm. eapply assembles_implements; [done|]. intros mc Hw. eexists.
  split; [reflexivity|]. intros _. split; [done|]. simpl. rewrite Hop.
  destruct (c mc); [clear; word_lia | by rewrite Z.add_0_r].
Qed.

(** Taken iff the two registers are equal. *)
Lemma jump_if_reg_eq_implements rs1 rs2 : reg5 rs1 -> reg5 rs2 ->
  implements s (asm_rv32_emit_jump_if_reg_eq rs1 rs2 label)
    (jumps_if (fun mc => rget rs1 mc =? rget rs2 mc)).
Proof using Hlabel Heven.
  intros H1 H2. apply implements_displacement; [done|]. intros short.
  destruct (short && _) eqn:E.
  - apply andb_prop in E as [_ Hf]. apply fit_signed_even in Hf; [|lia|done].
    eapply (branch_implements _ BEQ); [done|]. by apply (opcodes_decode (BRANCH BEQ _ _ _)).
  - cbv zeta. destruct (split_immediate _) as [upper lower] eqn:Hs.
    eapply (branch_over_implements _ BNE rs1 rs2 4 12); [done|done|by exists 2| |exact Hs].
    apply (opcodes_decode (BRANCH BNE rs1 rs2 12)).
    do 2 (split; [done|]). split; [done|by exists 6].
Qed.

(** Taken iff the register is not zero. *)
Lemma jump_if_reg_nonzero_implements rs : reg5 rs ->
  implements s (asm_rv32_emit_jump_if_reg_nonzero rs label)
    (jumps_if (fun mc => negb (rget rs mc =? 0))).
Proof using Hlabel Heven.
  intros Hrs. apply implements_displacement; [done|]. intros short.
  destruct (short && FIT_SIGNED _ 8 && _) eqn:E1; [|destruct (short && FIT_SIGNED _ 13) eqn:E2].
  - rewrite !andb_true_iff in E1. destruct E1 as [[_ Hf] [Hwin Hrs']%in_window].
    apply fit_signed_even in Hf as [Hf ?]; [|lia|done].
    eapply (branch_implements _ BNE rs 0 2); [done|].
    rewrite <- Hrs' at 2. apply (rvc_opcodes_decode (C_BNEZ _ _)).
    split; [done|]. split; [|done]. unfold simm in *. lia.
  - apply andb_prop in E2 as [_ Hf]. apply fit_signed_even in Hf; [|lia|done].
    eapply (branch_implements _ BNE rs 0 4); [done|].
    by apply (opcodes_decode (BRANCH BNE rs 0 _)).
  - destruct (short && RV32_IS_IN_C_REGISTER_WINDOW rs) eqn:E3.
    + apply andb_prop in E3 as [_ [Hwin Hrs']%in_window].
      destruct (split_immediate (s32 (s32 (displacement s label) - 2))) as [upper lower] eqn:Hs.
      eapply implements_ext; [|eapply (branch_over_implements _ BEQ rs 0 2 10
        (asm_rv32_opcode_cbeqz (RV32_MAP_IN_C_REGISTER_WINDOW rs) 10));
        [|done|by exists 1| |exact Hs]].
      * run_cmd. destruct (asm_rv32_opcode_cbeqz _ _ s) as [[[] ?]|]; [|done].
        unfold ASM_HALFWORD_SIZE. by rewrite Hs.
      * intros mc. by rewrite negb_involutive.
      * rewrite <- Hrs' at 2. apply (rvc_opcodes_decode (C_BEQZ _ 10)).
        split; [done|]. split; [done|by exists 5].
    + destruct (split_immediate (s32 (s32 (displacement s label) - 4))) as [upper lower] eqn:Hs.
      eapply implements_ext; [|eapply (branch_over_implements _ BEQ rs 0 4 12
        (asm_rv32_opcode_beq rs ASM_RV32_REG_ZERO 12)); [|done|by exists 2| |exact Hs]].
      * run_cmd. destruct (asm_rv32_opcode_beq _ _ _ s) as [[[] ?]|]; [|done].
        unfold ASM_WORD_SIZE. by rewrite Hs.
      * intros mc. by rewrite negb_involutive.
      * apply (opcodes_decode (BRANCH BEQ rs 0 12)).
        do 2 (split; [done|]). split; [done|by exists 6].
Qed.
End Jumps.
