(* ===== verification/AsmRv32Mem.v ===== *)
(** * AsmRv32Mem: locals, loads, stores and comparisons of asmrv32.c *)

From S2P Require Import Prelude AsmBase Machine Rv32Isa Emission PyMisc.
From S2P Require Import AsmRv32Opcodes AsmRv32Decode AsmRv32 AsmRv32Imm AsmRv32Jump.

Set Default Goal Selector "!".

#[local] Existing Instance SizeT_32.

(** Registers hold words. *)
Definition word_regs (mc : machine) : Prop := forall r, 0 <= rget r mc < 2 ^ 32.

(** [rd] gets [v]; nothing else changes. *)
Definition sets (rd : Z) (v : machine -> Z) (mc mc' : machine) : Prop :=
  rget rd mc' = u32 (v mc) /\ keeps [rd] mc mc'.
(** The [n] bytes at [a] get [v]; the temporary may be clobbered. *)
Definition stores (n : nat) (a v : machine -> Z) (mc mc' : machine) : Prop :=
  mem mc' = store 32 n (mem mc) (a mc) (v mc)
  /\ forall r, r <> REG_TEMP2 -> rget r mc' = rget r mc.

Definition falls (n : Z) (mc mc' : machine) : Prop := pc mc' = u32 (pc mc + n).

Ltac solve_falls := unfold falls; autorewrite with machine word; clear; word_lia.

Ltac solve_word_falls H := unfold falls in *; rewrite H; autorewrite with machine word; clear; word_lia.

Lemma sets_rset rd v w mc : rd <> 0 -> u32 w = u32 (v mc) -> sets rd v mc (rset rd w mc).
Proof.
  intros H0 E. split; [by rewrite rget_rset_eq|]. apply keeps_rset; [by left | apply keeps_refl].
Qed.

Lemma performs_sets s m rd v f : rd <> 0 ->
  performs s m f -> (forall mc, exists w, f mc = rset rd w mc /\ u32 w = u32 (v mc)) ->
  implements s m (fun n mc mc' => falls n mc mc' /\ sets rd v mc mc').
Proof.
  intros H0 Hf Hv. eapply implements_mono; [exact Hf|]. intros n mc mc' ->.
  destruct (Hv mc) as (w & -> & E). split; [done|]. by apply sets_rset.
Qed.

(** LUI and C.ADD: the upper part of an offset added to a base register. *)
Lemma upper_add_assembles s rd rs upper : reg5 rd -> rd <> 2 -> reg5 rs -> rs <> 0 ->
  0 <= upper < 2 ^ 32 -> (2 ^ 12 | upper) ->
  forall m js, (forall t, assembles t m js) ->
  exists len, assembles s (load_upper_immediate rd upper;; asm_rv32_opcode_cadd rd rs;; m)
    ((LUI rd (s32 upper), len) :: (R ADD rd rd rs, 2) :: js).
Proof.
  intros. destruct (load_upper_assembles s rd upper) as [len Hl]; try done.
  exists len. eapply (assembles_seq (H0 := Rv32) s _ _ [_] (_ :: js)); [exact Hl|].
  intros bs _. apply (assembles_seq (H0 := Rv32) _ _ _ [_] js).
  - by apply (rvc_opcodes_decode (C_ADD rd rs)).
  - intros cs _. auto.
Qed.

(** What the sequence LUI, C.ADD, <access> computes as its address. *)
Lemma upper_lower_address a upper lower base : u32 (upper + sw 12 lower) = u32 a ->
  u32 (u32 (u32 (s32 upper) + base) + sw 12 lower) = u32 (base + a).
Proof. intros E. set (l := sw 12 lower) in *. clearbody l. word_lia. Qed.

Section Locals.
Context (s : asm_rv32_t) (local : Z).

(** The stack offset of the local, a multiple of the word size. *)
Definition local_off : Z := u32 (locals_stack_offset s + local * ASM_WORD_SIZE).
Hypothesis Haligned : (4 | local_off).

Lemma local_off_range : 0 <= local_off < 2 ^ 32.
Proof using. by apply uw_range. Qed.

Lemma fits_sp_offset : FIT_UNSIGNED (local_off >> 2) 6 = true -> 0 <= local_off < 2 ^ 8.
Proof using Haligned.
  pose proof local_off_range as Hr. rewrite FIT_UNSIGNED_spec by lia.
  rewrite Z.shiftr_div_pow2 by lia. rewrite uw_small.
  - destruct Haligned as [k ->]. change (2 ^ 2) with 4. rewrite Z.div_mul; lia.
  - split; [apply Z.div_pos; lia | apply Z.div_lt_upper_bound; lia].
Qed.

Lemma fits_imm n : 0 < n < 32 -> FIT_UNSIGNED local_off n = true -> 0 <= local_off < 2 ^ n.
Proof using.
  intros Hn. pose proof local_off_range as Hr. rewrite FIT_UNSIGNED_spec by lia.
  by rewrite uw_small.
Qed.

Lemma simm12_local : FIT_UNSIGNED local_off 11 = true -> simm 12 (s32 local_off).
Proof using.
  intros Hf. apply fits_imm in Hf; [|lia]. rewrite sw_small by lia. unfold simm. lia.
Qed.
Lemma local_split upper lower : split_immediate (s32 local_off) = (upper, lower) ->
  (2 ^ 12 | upper) /\ 0 <= upper < 2 ^ 32 /\ 0 <= lower < 2 ^ 12
  /\ u32 (upper + sw 12 lower) = u32 local_off.
Proof using. intros Hs. apply split_immediate_spec in Hs. by rewrite uw_sw in Hs. Qed.

(** Storing a register into a local. *)
Lemma mov_local_reg_implements rs : reg5 rs -> rs <> REG_TEMP2 ->
  implements s (asm_rv32_emit_mov_local_reg local rs) (fun n mc mc' =>
    falls n mc mc' /\ stores 4 (fun mc => rget 2 mc + local_off) (rget rs) mc mc').
Proof using Haligned.
  intros Hrs Ht. apply implements_gets. fold local_off. change (REG_TEMP2) with 28 in Ht.
  destruct (FIT_UNSIGNED (local_off >> 2) 6) eqn:E1; [|destruct (FIT_UNSIGNED local_off 11) eqn:E2].
  - apply fits_sp_offset in E1.
    eapply assembles_implements; [by apply (rvc_opcodes_decode (C_SWSP rs local_off))|].
    intros mc Hw. eexists. rv_exec. by split.
  - pose proof (simm12_local E2). apply fits_imm in E2; [|lia].
    eapply assembles_implements; [by apply (opcodes_decode (STORE SW 2 rs (s32 local_off)))|].
    intros mc Hw. eexists. rv_exec. split; [done|]. split; [done|]. split; [|done].
    cbn. by rewrite sw_small by lia.
  - destruct (split_immediate _) as [upper lower] eqn:Hs. apply local_split in Hs as (? & ? & Hl & Hsum).
    destruct (upper_add_assembles s 28 2 upper) with (m := asm_rv32_opcode_sw rs 28 (s32 lower))
      (js := [(STORE SW 28 rs (sw 12 lower), 4)]) as [len Hlen]; try done.
    { intros t. unfold asm_rv32_opcode_sw. rewrite sw_small, TYPE_S_low by (simpl; lia).
      apply (opcodes_decode (STORE SW 28 rs (sw 12 lower))).
      do 2 (split; [done|]). by apply simm_sw. }
    eapply assembles_implements; [exact Hlen|]. intros mc Hw. eexists. rv_exec.
    split; [done|]. split; [solve_falls|]. split.
    + autorewrite with machine. apply store_cong; [lia|].
      by apply upper_lower_address.
    + intros r Hr. change REG_TEMP2 with 28 in Hr. by autorewrite with machine.
Qed.

(** Loading a local. *)
Lemma mov_reg_local_implements rd : reg5 rd -> rd <> 0 -> rd <> 2 ->
  implements s (asm_rv32_emit_mov_reg_local rd local) (fun n mc mc' =>
    falls n mc mc' /\ sets rd (fun mc => load 32 4 (mem mc) (rget 2 mc + local_off)) mc mc').
Proof using Haligned.
  intros Hrd H0 H2. apply implements_gets. fold local_off.
  destruct (FIT_UNSIGNED (local_off >> 2) 6) eqn:E1; [|destruct (FIT_UNSIGNED local_off 11) eqn:E2].
  - apply fits_sp_offset in E1.
    eapply assembles_implements; [by apply (rvc_opcodes_decode (C_LWSP rd local_off))|].
    intros mc Hw. eexists. rv_exec. split; [done|]. split; [done|]. by apply sets_rset.
  - pose proof (simm12_local E2). apply fits_imm in E2; [|lia].
    eapply assembles_implements; [by apply (opcodes_decode (LOAD LW rd 2 (s32 local_off)))|].
    intros mc Hw. eexists. rv_exec. split; [done|]. split; [done|].
    apply sets_rset; [done|]. cbn. by rewrite sw_small by lia.
  - destruct (split_immediate _) as [upper lower] eqn:Hs.
    apply local_split in Hs as (? & ? & Hl & Hsum).
    destruct (upper_add_assembles s rd 2 upper) with (m := asm_rv32_opcode_lw rd rd (s32 lower))
      (js := [(LOAD LW rd rd (sw 12 lower), 4)]) as [len Hlen]; try done.
    { intros t. unfold asm_rv32_opcode_lw. rewrite sw_small, TYPE_I_low by (simpl; lia).
      apply (opcodes_decode (LOAD LW rd rd (sw 12 lower))).
      do 2 (split; [done|]). by apply simm_sw. }
    eapply assembles_implements; [exact Hlen|]. intros mc Hw. eexists. rv_exec.
    split; [done|]. split; [solve_falls|].
    apply sets_rset; [done|]. autorewrite with machine. f_equal. apply load_cong; [lia|].
    by apply upper_lower_address.
Qed.

(** The address of a local. *)
Lemma mov_reg_local_addr_implements rd : reg5 rd -> rd <> 0 -> rd <> 2 ->
  implements s (asm_rv32_emit_mov_reg_local_addr rd local) (fun n mc mc' =>
    falls n mc mc' /\ sets rd (fun mc => rget 2 mc + local_off) mc mc').
Proof using Haligned.
  intros Hrd H0 H2. apply implements_gets. fold local_off.
  destruct (FIT_UNSIGNED local_off 10 && _ && _) eqn:E1;
    [|destruct (FIT_UNSIGNED local_off 11) eqn:E2].
  - rewrite !andb_true_iff in E1. destruct E1 as [[Hf Hnz] [Hwin Hrd']%in_window].
    apply fits_imm in Hf; [|lia]. apply negb_true_iff, Z.eqb_neq in Hnz.
    eapply assembles_implements; [apply (rvc_opcodes_decode (C_ADDI4SPN _ local_off))|].
    { split; [done|]. split; [lia|done]. }
    intros mc Hw. eexists. cbn [expand]. rewrite Hrd'. rv_exec.
    split; [done|]. split; [done|]. by apply sets_rset.
  - pose proof (simm12_local E2). apply fits_imm in E2; [|lia].
    eapply assembles_implements; [by apply (opcodes_decode (I ADDI rd 2 (s32 local_off)))|].
    intros mc Hw. eexists. rv_exec. split; [done|]. split; [done|].
    apply sets_rset; [done|]. by rewrite sw_small by lia.
  - eapply performs_sets; [done| |].
    + eapply performs_seq; [by apply load_full_performs | apply pc_blind_rset | |].
      2: { intros bs. eapply assembles_performs; [by apply (rvc_opcodes_decode (C_ADD rd 2))|].
           intros mc _. rv_exec. rewrite Z.add_0_r. instantiate (1 := fun mc => rset rd (rget rd mc + rget 2 mc) mc). done. }
      intros a mc. apply rset_set_pc.
    + intros mc. eexists. autorewrite with machine. split; [done|].
      rewrite uw_add_l by lia. clear. word_lia.
Qed.
End Locals.

(** ** Loads and stores with a scaled offset *)

(** The access of each operation size: a byte, a halfword or a word, loads
    being zero-extending. *)
Definition size_lop (operation_size : Z) : lop :=
  if operation_size =? 0 then LBU else if operation_size =? 1 then LHU else LW.
Definition size_sop (operation_size : Z) : sop :=
  if operation_size =? 0 then SB else if operation_size =? 1 then SH else SW.
Definition size_bytes (operation_size : Z) : nat := Z.to_nat (2 ^ operation_size).

Lemma size_cases z : 0 <= z <= 2 -> z = 0 \/ z = 1 \/ z = 2.
Proof. lia. Qed.

Lemma load_val_unsigned z h a : 0 <= z <= 2 -> load_val (size_lop z) h a = load 32 (size_bytes z) h a.
Proof. intros [-> | [-> | ->]]%size_cases; done. Qed.
Lemma sop_size_bytes z : 0 <= z <= 2 -> sop_size (size_sop z) = size_bytes z.
Proof. intros [-> | [-> | ->]]%size_cases; done. Qed.

Section Access.
Context `{Rv32Config} `{PyMisc} (s : asm_rv32_t).
Context (rd rs offset z : Z).
Hypothesis Hz : 0 <= z <= 2.

Definition scaled : Z := s32 (offset << z).

Lemma scaled_word : z = 2 -> (2 ^ 2 | scaled).
Proof using.
  intros E. unfold scaled. rewrite E. apply (sw_divide 32 2); [lia|].
  exists offset. by rewrite Z.shiftl_mul_pow2.
Qed.

Lemma scaled_range : simm 32 scaled.
Proof using. by apply simm_sw. Qed.

(** The condition of the compressed forms. *)
Lemma compressed_access :
  (0 <=? scaled) && (z =? 2) && RV32_IS_IN_C_REGISTER_WINDOW rd
     && RV32_IS_IN_C_REGISTER_WINDOW rs && MP_FIT_UNSIGNED 6 scaled = true ->
  z = 2 /\ reg3 (RV32_MAP_IN_C_REGISTER_WINDOW rd) /\ 8 + RV32_MAP_IN_C_REGISTER_WINDOW rd = rd
  /\ reg3 (RV32_MAP_IN_C_REGISTER_WINDOW rs) /\ 8 + RV32_MAP_IN_C_REGISTER_WINDOW rs = rs
  /\ 0 <= scaled < 2 ^ 7 /\ (2 ^ 2 | scaled).
Proof using.
  rewrite !andb_true_iff. intros [[[[Hs Hz2] [Hrd Ed]%in_window] [Hrs Es]%in_window] Hf].
  pose proof scaled_range as Hr. unfold simm in Hr.
  apply MP_FIT_UNSIGNED_spec in Hf; [|lia|lia]. apply Z.eqb_eq in Hz2.
  pose proof (scaled_word Hz2). repeat (split; [done || lia|]). done.
Qed.

Lemma simm12_scaled : MP_FIT_SIGNED 12 scaled = true -> simm 12 scaled.
Proof using.
  pose proof scaled_range as Hr. unfold simm in *. by rewrite MP_FIT_SIGNED_spec by (simpl in *; lia).
Qed.

Lemma load_word_assembles t imm d b : reg5 d -> reg5 b -> simm 12 imm ->
  assembles t (asm_rv32_emit_word_opcode (RV32_ENCODE_TYPE_I 0x03 (rv32_load_opcode z) d b imm))
    [(LOAD (size_lop z) d b imm, 4)].
Proof using Hz.
  intros. destruct (size_cases z Hz) as [-> | [-> | ->]].
  - by apply (opcodes_decode (LOAD LBU d b imm)).
  - by apply (opcodes_decode (LOAD LHU d b imm)).
  - by apply (opcodes_decode (LOAD LW d b imm)).
Qed.
Lemma store_word_assembles t imm d b : reg5 d -> reg5 b -> simm 12 imm ->
  assembles t (asm_rv32_emit_word_opcode (RV32_ENCODE_TYPE_S 0x23 z b d imm))
    [(STORE (size_sop z) b d imm, 4)].
Proof using Hz.
  intros. destruct (size_cases z Hz) as [-> | [-> | ->]].
  - by apply (opcodes_decode (STORE SB b d imm)).
  - by apply (opcodes_decode (STORE SH b d imm)).
  - by apply (opcodes_decode (STORE SW b d imm)).
Qed.

Hypothesis Hrd : reg5 rd.
Hypothesis Hrs : reg5 rs.

(** [rd := *(rs + (offset << z))].  An offset beyond 12 bits needs a
    destination other than the base, which the sequence overwrites. *)
Lemma load_reg_reg_offset_implements :
  rd <> 0 -> rd <> 2 -> (simm 12 scaled \/ rd <> rs /\ rs <> 0) ->
  implements s (asm_rv32_emit_load_reg_reg_offset rd rs offset z) (fun n mc mc' =>
    falls n mc mc' /\
    sets rd (fun mc => load 32 (size_bytes z) (mem mc) (rget rs mc + scaled)) mc mc').
Proof using Hz Hrd Hrs.
  intros H0' H2 Hne. unfold asm_rv32_emit_load_reg_reg_offset.
  eapply implements_ext; [apply assert_true, leb_true; lia|].
  cbv zeta. fold scaled. destruct (_ && _) eqn:E1; [|destruct (MP_FIT_SIGNED 12 scaled) eqn:E2].
  - apply compressed_access in E1 as (Ez & ? & Ed & ? & Es & ? & ?).
    eapply assembles_implements; [by apply (rvc_opcodes_decode (C_LW _ _ scaled))|].
    intros mc Hw. eexists. cbn [expand]. rewrite Ed, Es. rv_exec.
    split; [done|]. split; [done|]. rewrite Ez. by apply sets_rset.
  - apply simm12_scaled in E2.
    eapply assembles_implements; [by apply load_word_assembles|].
    intros mc Hw. eexists. rv_exec. split; [done|]. split; [done|].
    apply sets_rset; [done|]. by rewrite load_val_unsigned.
  - destruct Hne as [Hne|[Hne Hrs0]].
    { pose proof scaled_range. unfold simm in *.
      rewrite <- MP_FIT_SIGNED_spec in Hne by (simpl in *; lia). congruence. }
    destruct (split_immediate _) as [upper lower] eqn:Hs.
    apply split_immediate_spec in Hs as (? & ? & Hl & Hsum).
    destruct (upper_add_assembles s rd rs upper) with
      (m := asm_rv32_emit_word_opcode (RV32_ENCODE_TYPE_I 0x03 (rv32_load_opcode z) rd rd lower))
      (js := [(LOAD (size_lop z) rd rd (sw 12 lower), 4)]) as [len Hlen]; try done.
    { intros t. rewrite TYPE_I_low. apply load_word_assembles; [done..|]. by apply simm_sw. }
    eapply assembles_implements; [exact Hlen|]. intros mc Hw. eexists. rv_exec.
    split; [done|]. split; [solve_falls|].
    apply sets_rset; [done|]. autorewrite with machine. rewrite load_val_unsigned by done.
    f_equal. apply load_cong; [lia|]. by apply upper_lower_address.
Qed.

(** [*(rs + (offset << z)) := rd]. *)
Lemma store_reg_reg_offset_implements :
  rd <> REG_TEMP2 -> (simm 12 scaled \/ rs <> REG_TEMP2 /\ rs <> 0) ->
  implements s (asm_rv32_emit_store_reg_reg_offset rd rs offset z) (fun n mc mc' =>
    falls n mc mc' /\
    stores (size_bytes z) (fun mc => rget rs mc + scaled) (rget rd) mc mc').
Proof using Hz Hrd Hrs.
  intros Ht Hne. change REG_TEMP2 with 28 in *. unfold asm_rv32_emit_store_reg_reg_offset.
  eapply implements_ext; [apply assert_true, leb_true; lia|].
  cbv zeta. fold scaled. destruct (_ && _) eqn:E1; [|destruct (MP_FIT_SIGNED 12 scaled) eqn:E2].
  - apply compressed_access in E1 as (Ez & ? & Ed & ? & Es & ? & ?).
    eapply assembles_implements; [by apply (rvc_opcodes_decode (C_SW _ _ scaled))|].
    intros mc Hw. eexists. cbn [expand]. rewrite Ed, Es, Ez. rv_exec. done.
  - apply simm12_scaled in E2.
    eapply assembles_implements; [by apply store_word_assembles|].
    intros mc Hw. eexists. rv_exec. split; [done|]. split; [done|].
    split; [|done]. cbn. by rewrite sop_size_bytes.
  - destruct Hne as [Hne|[Hne Hrs0]].
    { pose proof scaled_range. unfold simm in *.
      rewrite <- MP_FIT_SIGNED_spec in Hne by (simpl in *; lia). congruence. }
    destruct (split_immediate _) as [upper lower] eqn:Hs.
    apply split_immediate_spec in Hs as (? & ? & Hl & Hsum).
    destruct (upper_add_assembles s 28 rs upper) with
      (m := asm_rv32_emit_word_opcode (RV32_ENCODE_TYPE_S 0x23 z 28 rd lower))
      (js := [(STORE (size_sop z) 28 rd (sw 12 lower), 4)]) as [len Hlen]; try done.
    { intros t. rewrite TYPE_S_low. apply store_word_assembles; [done..|]. by apply simm_sw. }
    eapply assembles_implements; [exact Hlen|]. intros mc Hw. eexists. rv_exec.
    split; [done|]. split; [solve_falls|]. split.
    + autorewrite with machine. rewrite sop_size_bytes by done. apply store_cong; [lia|].
      by apply upper_lower_address.
    + intros r Hr. change REG_TEMP2 with 28 in Hr. by autorewrite with machine.
Qed.
End Access.

(** ** Indexed access, exclusive or, comparisons, addresses of labels *)


Section Indexed.
Context `{Rv32Config} `{PyMisc} (s : asm_rv32_t).
Context (rs1 rs2 z : Z).
Hypothesis Hz : 0 <= z <= 2.
Hypothesis H1 : reg5 rs1.
Hypothesis H2 : reg5 rs2.
Hypothesis H1' : rs1 <> 0 /\ rs1 <> REG_TEMP2.

(** The temporary gets [rs1 + (rs2 << z)], with Zba or without. *)
Lemma fix_up_performs :
  performs s (asm_rv32_fix_up_scaled_reg_reg_reg rs1 rs2 z)
    (fun mc => rset REG_TEMP2 (rget rs1 mc + (rget rs2 mc << z)) mc).
Proof using Hz H1 H2 H1'.
  destruct H1' as [H1z H1t]. change REG_TEMP2 with 28 in *.
  unfold asm_rv32_fix_up_scaled_reg_reg_reg.
  apply performs_assert; [by apply leb_true; lia|].
  destruct ((0 <? z) && asm_rv32_allow_zba_opcodes) eqn:E; [|destruct (Z.ltb_spec 0 z)].
  - destruct (size_cases z Hz) as [Ez | [Ez | Ez]]; [by rewrite Ez in E| |];
      (eapply assembles_performs;
       [rewrite Ez;
        first [by apply (opcodes_decode (R SH1ADD 28 rs2 rs1)) | by apply (opcodes_decode (R SH2ADD 28 rs2 rs1))]|]);
      intros mc _; rewrite Ez; rv_exec; do 3 f_equal; lia.
  - rewrite sw_small by (simpl; lia). eapply (assembles_performs (H0 := Rv32)).
    + eapply (assembles_seq (H0 := Rv32) s _ _ [(I SLLI 28 rs2 z, 4)] [(R ADD 28 28 rs1, 2)]).
      * apply (opcodes_decode (I SLLI 28 rs2 z)). split; [done|]. split; [done|lia].
      * intros bs _. by apply (rvc_opcodes_decode (C_ADD 28 rs1)).
    + intros mc _. rv_exec. do 2 f_equal; [clear; word_lia|].
      apply rset_uw_eq. rewrite uw_add_l by lia. f_equal. lia.
  - assert (z = 0) as Ez by lia.
    eapply assembles_performs; [by apply (opcodes_decode (R ADD 28 rs1 rs2))|].
    intros mc _. rewrite Ez, Z.shiftl_0_r. by rv_exec.
Qed.

Definition element (mc : machine) : Z := rget rs1 mc + (rget rs2 mc << z).

Lemma scaled_0 : scaled 0 z = 0.
Proof using. unfold scaled. by rewrite Z.shiftl_0_l. Qed.

(** [rd := *(rs1 + (rs2 << z))]. *)
Lemma load_reg_reg_reg_implements rd : reg5 rd -> rd <> 0 -> rd <> 2 ->
  implements s (asm_rv32_emit_load_reg_reg_reg rd rs1 rs2 z) (fun n mc mc' =>
    falls n mc mc' /\ rget rd mc' = u32 (load 32 (size_bytes z) (mem mc) (element mc))
    /\ keeps [rd; REG_TEMP2] mc mc').
Proof using Hz H1 H2 H1'.
  intros Hrd Hrd0 Hsp. eapply implements_mono.
  - eapply performs_then; [apply fix_up_performs|]. intros bs.
    apply load_reg_reg_offset_implements; try done. left. by rewrite scaled_0.
  - intros n mc mc' (n1 & n2 & -> & Hf & Hv & [Hk Hm]). change REG_TEMP2 with 28 in *.
    rewrite scaled_0, Z.add_0_r in Hv. autorewrite with machine in *.
    split; [solve_word_falls Hf|]. split; [|split].
    + rewrite Hv. f_equal. apply load_cong; [lia|]. by rewrite uw_uw.
    + intros r [Hr1 [Hr2 _]%not_elem_of_cons]%not_elem_of_cons.
      rewrite Hk by (by intros [-> | Hr]%elem_of_cons; [|inversion Hr]).
      by autorewrite with machine.
    + done.
Qed.

(** [*(rs1 + (rs2 << z)) := rd]. *)
Lemma store_reg_reg_reg_implements rd : reg5 rd -> rd <> REG_TEMP2 ->
  implements s (asm_rv32_emit_store_reg_reg_reg rd rs1 rs2 z) (fun n mc mc' =>
    falls n mc mc' /\ stores (size_bytes z) element (rget rd) mc mc').
Proof using Hz H1 H2 H1'.
  intros Hrd Ht. eapply implements_mono.
  - eapply performs_then; [apply fix_up_performs|]. intros bs.
    apply store_reg_reg_offset_implements; try done. left. by rewrite scaled_0.
  - intros n mc mc' (n1 & n2 & -> & Hf & Hm & Hk). change REG_TEMP2 with 28 in *.
    rewrite scaled_0, Z.add_0_r in Hm. autorewrite with machine in *.
    split; [solve_word_falls Hf|]. split.
    + rewrite Hm. apply store_cong; [lia|]. by rewrite uw_uw.
    + intros r Hr. rewrite Hk by done. by autorewrite with machine.
Qed.
End Indexed.

Section Comparisons.
Context (s : asm_rv32_t) (rs1 rs2 rd : Z).
Hypothesis H1 : reg5 rs1.
Hypothesis H2 : reg5 rs2.
Hypothesis Hd : reg5 rd /\ rd <> 0.

(** [rd] gets the truth value of [c], on machines whose registers hold words. *)
Definition decides (c : machine -> bool) (n : Z) (mc mc' : machine) : Prop :=
  word_regs mc -> falls n mc mc' /\ sets rd (fun mc => b2z (c mc)) mc mc'.

Lemma b2z_u32 b : u32 (b2z b) = b2z b.
Proof using. by destruct b. Qed.

Lemma decides_rset c a mc w : u32 w = b2z (c mc) ->
  sets rd (fun mc => b2z (c mc)) mc (set_pc a (rset rd w mc)).
Proof using Hd.
  intros E. split; [|apply keeps_set_pc, keeps_rset; [by left|done]].
  rewrite rget_set_pc, rget_rset_eq, b2z_u32 by apply Hd. done.
Qed.

Lemma sub_zero a b : 0 <= a < 2 ^ 32 -> 0 <= b < 2 ^ 32 -> u32 (a - b) = 0 <-> a = b.
Proof using. intros. split; [word_lia|]. intros ->. by rewrite Z.sub_diag. Qed.

Ltac exec_comparison :=
  intros mc _; eexists; cbn [expand]; rv_exec; split; [reflexivity|]; intros Hw;
  (split; [solve_falls|]); rewrite ?set_pc_set_pc.

Lemma comparison_eq_decides :
  implements s (asm_rv32_meta_comparison_eq rs1 rs2 rd) (decides (fun mc => rget rs1 mc =? rget rs2 mc)).
Proof using H1 H2 Hd.
  destruct Hd. eapply assembles_implements.
  { eapply (assembles_seq (H0 := Rv32) s _ _ [(R SUB rd rs1 rs2, 4)] [(I SLTIU rd rd 1, 4)]).
    - by apply (opcodes_decode (R SUB rd rs1 rs2)).
    - intros bs _. by apply (opcodes_decode (I SLTIU rd rd 1)). }
  exec_comparison. apply decides_rset. rewrite b2z_u32. f_equal.
  pose proof (sub_zero _ _ (Hw rs1) (Hw rs2)). pose proof (uw_range 32 eq_refl (rget rs1 mc - rget rs2 mc)).
  change (u32 1) with 1.
  destruct (Z.eqb_spec (rget rs1 mc) (rget rs2 mc)); [apply ltb_true|apply ltb_false]; lia.
Qed.

Lemma comparison_ne_decides :
  implements s (asm_rv32_meta_comparison_ne rs1 rs2 rd)
    (decides (fun mc => negb (rget rs1 mc =? rget rs2 mc))).
Proof using H1 H2 Hd.
  destruct Hd. eapply assembles_implements.
  { eapply (assembles_seq (H0 := Rv32) s _ _ [(R SUB rd rs1 rs2, 4)] [(R SLTU rd 0 rd, 4)]).
    - by apply (opcodes_decode (R SUB rd rs1 rs2)).
    - intros bs _. by apply (opcodes_decode (R SLTU rd 0 rd)). }
  exec_comparison. apply decides_rset. rewrite b2z_u32. f_equal.
  pose proof (sub_zero _ _ (Hw rs1) (Hw rs2)). pose proof (uw_range 32 eq_refl (rget rs1 mc - rget rs2 mc)).
  destruct (Z.eqb_spec (rget rs1 mc) (rget rs2 mc)); [apply ltb_false|apply ltb_true]; lia.
Qed.

(** The order of the operands as words, unsigned or signed. *)
Definition less (u : bool) (a b : Z) : bool := if u then a <? b else s32 a <? s32 b.

Lemma comparison_lt_assembles t a b u : reg5 a -> reg5 b ->
  assembles t (asm_rv32_meta_comparison_lt a b rd u) [(R (if u then SLTU else SLT) rd a b, 4)].
Proof using Hd.
  destruct Hd, u; intros; [by apply (opcodes_decode (R SLTU rd a b))
                          |by apply (opcodes_decode (R SLT rd a b))].
Qed.

Lemma comparison_lt_decides u :
  implements s (asm_rv32_meta_comparison_lt rs1 rs2 rd u)
    (decides (fun mc => less u (rget rs1 mc) (rget rs2 mc))).
Proof using H1 H2 Hd.
  eapply assembles_implements; [by apply comparison_lt_assembles|].
  exec_comparison. apply decides_rset. destruct u; apply b2z_u32.
Qed.

Lemma comparison_le_decides u :
  implements s (asm_rv32_meta_comparison_le rs1 rs2 rd u)
    (decides (fun mc => negb (less u (rget rs2 mc) (rget rs1 mc)))).
Proof using H1 H2 Hd.
  destruct Hd. eapply assembles_implements.
  { eapply (assembles_seq (H0 := Rv32) s _ _ [_] [(I XORI rd rd 1, 4)]).
    - by apply comparison_lt_assembles.
    - intros bs _. by apply (opcodes_decode (I XORI rd rd 1)). }
  exec_comparison. apply decides_rset. destruct u; cbn; by destruct (_ <? _).
Qed.
End Comparisons.

(** [rd := rd ^ rs]. *)
Lemma optimised_xor_implements s rd rs : reg5 rd -> reg5 rs -> rd <> 0 ->
  implements s (asm_rv32_emit_optimised_xor rd rs) (fun n mc mc' =>
    falls n mc mc' /\ sets rd (fun mc => rget rd mc .^ rget rs mc) mc mc').
Proof.
  intros Hrd Hrs H0. unfold asm_rv32_emit_optimised_xor. destruct (Z.eqb_spec rs rd) as [->|].
  - eapply assembles_implements; [by apply (rvc_opcodes_decode (C_LI rd 0))|].
    intros mc _. eexists. cbn [expand]. rv_exec. split; [done|]. split; [done|].
    apply sets_rset; [done|]. by rewrite Z.lxor_nilpotent.
  - eapply assembles_implements; [by apply (opcodes_decode (R XOR rd rd rs))|].
    intros mc _. eexists. rv_exec. split; [done|]. split; [done|]. by apply sets_rset.
Qed.

(** [rd] gets the address of the label: the address of the emitted code plus
    the distance between their offsets. *)
Lemma mov_reg_pcrel_implements s rd label : reg5 rd -> rd <> 0 -> has_label s label ->
  implements s (asm_rv32_emit_mov_reg_pcrel rd label) (fun n mc mc' =>
    falls n mc mc' /\ sets rd (fun mc => pc mc + displacement s label) mc mc').
Proof.
  intros Hrd H0 [off Hoff].
  destruct (split_immediate (s32 (displacement s label))) as [upper lower] eqn:Hs.
  eapply (implements_ext (H0 := Rv32) s _
    (asm_rv32_opcode_auipc rd (s32 upper);; asm_rv32_opcode_addi rd rd (s32 lower))).
  { unfold asm_rv32_emit_mov_reg_pcrel, label_offset_at. run_cmd. unfold id. rewrite Hoff.
    unfold displacement in Hs. rewrite Hoff in Hs. cbn [default from_option id] in Hs. by rewrite Hs. }
  apply split_immediate_spec in Hs as (Hd & Hu & Hl & Hsum).
  eapply assembles_implements.
  { eapply (assembles_seq (H0 := Rv32) s _ _
      [(AUIPC rd (s32 upper), 4)] [(I ADDI rd rd (sw 12 lower), 4)]).
    - apply (opcodes_decode (AUIPC rd (s32 upper))). split; [done|].
      split; [by apply simm_sw | by apply (sw_divide 32 12)].
    - intros bs _. unfold asm_rv32_opcode_addi. rewrite sw_small, TYPE_I_low by (simpl; lia).
      apply (opcodes_decode (I ADDI rd rd (sw 12 lower))).
      split; [done|]. split; [done|]. by apply simm_sw. }
  intros mc _. eexists. rv_exec. split; [done|]. split; [solve_falls|].
  apply sets_rset; [done|]. clear -Hsum. set (l := sw 12 lower) in *. clearbody l. word_lia.
Qed.
