(* ===== verification/AsmRv32Frame.v ===== *)
(** * AsmRv32Frame: function entry and exit of asmrv32.c

    The registers saved by the prologue, where they are in memory, and that
    the epilogue puts them back, for the RV32IMC sequences; and calls through
    the function table. *)

From S2P Require Import Prelude AsmBase Machine Rv32Isa Emission PyMisc.
From S2P Require Import AsmRv32Opcodes AsmRv32Decode AsmRv32 AsmRv32Imm AsmRv32Jump AsmRv32Mem.

Set Default Goal Selector "!".

#[local] Existing Instance SizeT_32.

(** ** Register masks *)

(** The registers of a mask among the [n] from [i] on, in ascending order. *)
Fixpoint regs_from (n : nat) (i mask : Z) : list Z :=
  match n with
  | O => []
  | S n => if Z.testbit mask i then i :: regs_from n (i + 1) mask else regs_from n (i + 1) mask
  end.
Definition mask_regs (mask : Z) : list Z := regs_from 32 0 mask.

Lemma regs_from_In n : forall i mask r,
  r ∈ regs_from n i mask <-> i <= r < i + Z.of_nat n /\ Z.testbit mask r = true.
Proof.
  induction n as [|n IH]; intros i mask r; simpl.
  - split; [by intros ?%not_elem_of_nil|]. lia.
  - destruct (Z.testbit mask i) eqn:E.
    + rewrite elem_of_cons, IH. split.
      * intros [-> | [? ?]]; [split; [lia|done]|split; [lia|done]].
      * intros [Hr Ht]. destruct (decide (r = i)); [by left|right; split; [lia|done]].
    + rewrite IH. split; intros [Hr Ht]; (split; [|done]); [lia|].
      destruct (decide (r = i)) as [->|]; [congruence|lia].
Qed.

Lemma regs_from_NoDup n : forall i mask, NoDup (regs_from n i mask).
Proof.
  induction n as [|n IH]; intros i mask; simpl; [constructor|].
  destruct (Z.testbit mask i); [|apply IH]. constructor; [|apply IH].
  rewrite regs_from_In. lia.
Qed.

Lemma mask_bit mask i : 0 <= i -> (mask .& (1 << i) =? 0) = negb (Z.testbit mask i).
Proof.
  intros Hi. rewrite Z.shiftl_1_l. destruct (Z.testbit mask i) eqn:E; simpl.
  - apply Z.eqb_neq. intros Hz. apply (f_equal (fun z => Z.testbit z i)) in Hz.
    rewrite Z.land_spec, Z.pow2_bits_true, E, Z.testbit_0_l in Hz by done. done.
  - apply Z.eqb_eq, Z.bits_inj'. intros k Hk. rewrite Z.land_spec, Z.testbit_0_l.
    destruct (decide (k = i)) as [->|]; [by rewrite E|].
    by rewrite Z.pow2_bits_false, andb_false_r by lia.
Qed.

(** ** Saving and restoring a list of registers at consecutive words *)

Fixpoint store_code (rs : list Z) (off : Z) : list (rv32_instr * Z) :=
  match rs with
  | [] => []
  | r :: rs => (STORE SW 2 r off, 2) :: store_code rs (off + 4)
  end.
Fixpoint load_code (rs : list Z) (off : Z) : list (rv32_instr * Z) :=
  match rs with
  | [] => []
  | r :: rs => (LOAD LW r 2 off, 2) :: load_code rs (off + 4)
  end.

(** What they do to the memory and to the registers. *)
Fixpoint save (rs : list Z) (a : Z) (f : Z -> Z) (h : gmap Z Z) : gmap Z Z :=
  match rs with
  | [] => h
  | r :: rs => save rs (a + 4) f (store 32 4 h a (f r))
  end.
Fixpoint restore (rs : list Z) (a : Z) (mc : machine) : machine :=
  match rs with
  | [] => mc
  | r :: rs => restore rs (a + 4) (rset r (load 32 4 (mem mc) a) mc)
  end.

Lemma offset_assert (off : Z) : (4 | off) -> 0 <= off -> off + 4 <= 256 ->
  FIT_UNSIGNED (off >> 2) 6 = true.
Proof.
  intros [k ->] H0 H1. rewrite FIT_UNSIGNED_spec by lia.
  rewrite Z.shiftr_div_pow2 by lia. change (2 ^ 2) with 4. rewrite Z.div_mul by lia.
  rewrite uw_small by lia. lia.
Qed.

Lemma registers_store_assembles n : forall i mask off s,
  0 <= i -> i + Z.of_nat n <= 32 -> (4 | off) -> 0 <= off ->
  off + 4 * Z.of_nat (length (regs_from n i mask)) <= 256 ->
  assembles s (registers_store_loop n i mask off) (store_code (regs_from n i mask) off).
Proof.
  induction n as [|n IH]; intros i mask off s Hi Hn Hd H0 Hoff; simpl.
  - apply (assembles_ret (H0 := Rv32)).
  - rewrite mask_bit by done. simpl in Hoff. destruct (Z.testbit mask i) eqn:E; simpl in *;
      [|apply IH; done || lia].
    apply (assembles_assert (H0 := Rv32)); [apply offset_assert; done || lia|].
    apply (assembles_seq (H0 := Rv32) _ _ _ [_] (store_code _ _)).
    + apply (rvc_opcodes_decode (C_SWSP i off)). split; [unfold reg5; lia|]. split; [lia|done].
    + intros bs _. rewrite uw_small by lia. apply IH; try lia. apply Z.divide_add_r; [done|by exists 1].
Qed.

Lemma registers_load_assembles n : forall i mask off s,
  0 <= i -> i + Z.of_nat n <= 32 -> (4 | off) -> 0 <= off -> 0 ∉ regs_from n i mask ->
  off + 4 * Z.of_nat (length (regs_from n i mask)) <= 256 ->
  assembles s (registers_load_loop n i mask off) (load_code (regs_from n i mask) off).
Proof.
  induction n as [|n IH]; intros i mask off s Hi Hn Hd H0 Hz Hoff; simpl.
  - apply (assembles_ret (H0 := Rv32)).
  - rewrite mask_bit by done. simpl in Hoff, Hz. destruct (Z.testbit mask i) eqn:E; simpl in *;
      [|apply IH; done || lia].
    apply not_elem_of_cons in Hz as [Hz0 Hz].
    apply (assembles_assert (H0 := Rv32)); [apply offset_assert; done || lia|].
    apply (assembles_seq (H0 := Rv32) _ _ _ [_] (load_code _ _)).
    + apply (rvc_opcodes_decode (C_LWSP i off)). split; [unfold reg5; lia|].
      split; [by intros ->|]. split; [lia|done].
    + intros bs _. rewrite uw_small by lia. apply IH; try done; try lia.
      apply Z.divide_add_r; [done|by exists 1].
Qed.

Lemma exec_store_code rs : forall off mc, 0 <= pc mc < 2 ^ 32 ->
  exec_straight (H := Rv32) (store_code rs off) mc
  = Some (set_pc (u32 (pc mc + code_len (H := Rv32) (store_code rs off)))
      (set_mem (save rs (rget 2 mc + off) (fun r => rget r mc) (mem mc)) mc)).
Proof.
  induction rs as [|r rs IH]; intros off mc Hpc; simpl store_code.
  - simpl. rewrite Z.add_0_r, uw_small by done. by destruct mc.
  - erewrite rv32_exec_cons; [|reflexivity|reflexivity].
    rewrite IH by (simpl; by apply uw_range). simpl.
    rewrite Z.add_assoc, uw_add_l, <- Z.add_assoc by lia. done.
Qed.

Lemma restore_set_pc rs : forall a b mc, restore rs a (set_pc b mc) = set_pc b (restore rs a mc).
Proof. induction rs as [|r rs IH]; intros a b mc; simpl; [done|]. by rewrite rset_set_pc, IH. Qed.

Lemma exec_load_code rs : forall off mc, 0 <= pc mc < 2 ^ 32 -> 2 ∉ rs ->
  exec_straight (H := Rv32) (load_code rs off) mc
  = Some (set_pc (u32 (pc mc + code_len (H := Rv32) (load_code rs off)))
      (restore rs (rget 2 mc + off) mc)).
Proof.
  induction rs as [|r rs IH]; intros off mc Hpc H2; simpl load_code.
  - simpl. rewrite Z.add_0_r, uw_small by done. by destruct mc.
  - apply not_elem_of_cons in H2 as [Hr H2].
    erewrite rv32_exec_cons; [|reflexivity|done].
    rewrite IH by (try done; simpl; by apply uw_range).
    rewrite restore_set_pc, set_pc_set_pc, rget_set_pc, rget_rset_ne by done. simpl.
    rewrite Z.add_assoc, uw_add_l by lia. do 3 f_equal. lia.
Qed.

(** Reading the saved words back. *)
Lemma save_other rs : forall m a f h x, Z.of_nat (4 * length rs) <= u32 (x - a) ->
  u32 (x - a) + Z.of_nat m <= 2 ^ 32 -> load 32 m (save rs a f h) x = load 32 m h x.
Proof.
  induction rs as [|r rs IH]; intros m a f h x H1 H2; simpl; [done|]. simpl length in H1.
  pose proof (uw_range 32 eq_refl (x - a)).
  assert (u32 (x - (a + 4)) = u32 (x - a) - 4) as E.
  { rewrite <- (uw_small 32 (u32 (x - a) - 4)) by lia. rewrite uw_sub_l by lia. f_equal. lia. }
  rewrite IH by lia. apply load_store_other; [lia|lia|]. split; lia.
Qed.

Lemma save_load rs : forall a f h i r, Z.of_nat (4 * length rs) <= 2 ^ 32 -> rs !! i = Some r ->
  load 32 4 (save rs a f h) (a + 4 * Z.of_nat i) = u32 (f r).
Proof.
  induction rs as [|q rs IH]; intros a f h i r Hl Hi; [done|]. simpl length in Hl.
  destruct i as [|i]; simpl in *.
  - injection Hi as ->. rewrite Z.mul_0_r || idtac. rewrite Z.add_0_r.
    rewrite save_other.
    + apply (load_store_same 32); lia.
    + replace (u32 (a - (a + 4))) with (2 ^ 32 - 4) by (clear; word_lia). lia.
    + replace (u32 (a - (a + 4))) with (2 ^ 32 - 4) by (clear; word_lia). lia.
  - rewrite <- (IH (a + 4) f (store 32 4 h a (f q)) i r) by (done || lia).
    f_equal. lia.
Qed.

Lemma restore_other rs : forall a mc r, r ∉ rs -> rget r (restore rs a mc) = rget r mc.
Proof.
  induction rs as [|q rs IH]; intros a mc r Hr; simpl; [done|].
  apply not_elem_of_cons in Hr as [Hq Hr]. by rewrite IH, rget_rset_ne.
Qed.

Lemma restore_mem rs : forall a mc, mem (restore rs a mc) = mem mc.
Proof. induction rs as [|q rs IH]; intros; simpl; [done|]. by rewrite IH, mem_rset. Qed.

Lemma restore_get rs : forall a mc i r, NoDup rs -> 0 ∉ rs -> rs !! i = Some r ->
  rget r (restore rs a mc) = u32 (load 32 4 (mem mc) (a + 4 * Z.of_nat i)).
Proof.
  induction rs as [|q rs IH]; intros a mc i r Hnd H0 Hi; [done|].
  apply NoDup_cons in Hnd as [Hq Hnd]. apply not_elem_of_cons in H0 as [Hq0 H0].
  destruct i as [|i]; simpl in *.
  - injection Hi as ->. rewrite restore_other, rget_rset_eq by (done || by intros ->).
    f_equal. f_equal. lia.
  - rewrite (IH _ _ i r) by done. rewrite mem_rset. do 2 f_equal. lia.
Qed.

(** ** Moving the stack pointer *)

(** The stack pointer moves by [n]; the temporary may be clobbered. *)
Definition moves_sp (n : Z) (mc mc' : machine) : Prop :=
  u32 (rget 2 mc') = u32 (rget 2 mc + n) /\ keeps [2; REG_TEMP0] mc mc'.

Lemma moves_sp_rset n w mc : u32 w = u32 (rget 2 mc + n) -> moves_sp n mc (rset 2 w mc).
Proof.
  intros E. split; [by rewrite rget_rset_eq, uw_uw|]. apply keeps_rset; [by left|done].
Qed.

Lemma adjust_stack_implements s n : simm 32 n ->
  implements s (adjust_stack n) (fun len mc mc' => falls len mc mc' /\ moves_sp n mc mc').
Proof.
  intros Hn. unfold adjust_stack.
  destruct (Z.eqb_spec n 0) as [->|Hnz]; [|destruct (FIT_SIGNED n 6) eqn:E6;
    [|destruct (FIT_SIGNED n 12) eqn:E12]].
  - eapply implements_mono; [apply performs_ret|]. intros len mc mc' ->.
    split; [done|]. split; [by rewrite Z.add_0_r|done].
  - apply FIT_SIGNED_spec in E6; [|lia]. rewrite sw_small in E6 by done.
    eapply assembles_implements; [by apply (rvc_opcodes_decode (C_ADDI 2 n))|].
    intros mc _. eexists. cbn [expand]. rv_exec. split; [done|]. split; [done|].
    by apply moves_sp_rset.
  - apply FIT_SIGNED_spec in E12; [|lia]. rewrite sw_small in E12 by done.
    eapply assembles_implements; [by apply (opcodes_decode (I ADDI 2 2 n))|].
    intros mc _. eexists. rv_exec. split; [done|]. split; [done|]. by apply moves_sp_rset.
  - eapply implements_mono.
    { eapply performs_then; [by apply load_full_performs|]. intros bs.
      eapply assembles_performs; [by apply (rvc_opcodes_decode (C_ADD 2 REG_TEMP0))|].
      intros mc _. cbn [expand]. rv_exec. reflexivity. }
    intros len mc mc' (n1 & n2 & -> & ->). change REG_TEMP0 with 6 in *. cbn [addr_width Rv32].
    autorewrite with machine. split; [solve_falls|]. split.
    + autorewrite with machine. clear. word_lia.
    + apply keeps_rset; [by left|]. apply keeps_rset; [by right; left|done].
Qed.

(** ** Prologue and epilogue *)

(** The masks the back end builds: callee-saved registers and RA. *)
Definition frame_mask (mask : Z) : Prop :=
  0 <= mask < 2 ^ 32 /\ Z.testbit mask 0 = false /\ Z.testbit mask 2 = false
  /\ Z.testbit mask REG_TEMP0 = false.

Lemma mask_regs_In mask r : r ∈ mask_regs mask <-> 0 <= r < 32 /\ Z.testbit mask r = true.
Proof. unfold mask_regs. rewrite regs_from_In. simpl. done. Qed.

Lemma frame_mask_not_in mask r : frame_mask mask -> r = 0 \/ r = 2 \/ r = REG_TEMP0 ->
  r ∉ mask_regs mask.
Proof.
  intros (_ & H0 & H2 & Ht) Hr. rewrite mask_regs_In. intros [_ Hb].
  destruct Hr as [-> | [-> | ->]]; congruence.
Qed.

Lemma mask_regs_length mask : (length (mask_regs mask) <= 32)%nat.
Proof.
  unfold mask_regs. assert (forall n i, (length (regs_from n i mask) <= n)%nat) as Hg.
  { induction n as [|n IH]; intros i; simpl; [lia|]. specialize (IH (i + 1)).
    destruct (Z.testbit mask i); simpl; lia. }
  apply Hg.
Qed.

Lemma popcount_regs mask : popcount mask = Z.of_nat (length (mask_regs mask)).
Proof.
  unfold popcount, mask_regs. f_equal.
  assert (forall n k, length (filter (fun i => Z.testbit mask (Z.of_nat i) = true) (seq k n))
    = length (regs_from n (Z.of_nat k) mask)) as Hg.
  { induction n as [|n IH]; intros k; [done|]. simpl seq. rewrite filter_cons. simpl regs_from.
    replace (Z.of_nat k + 1) with (Z.of_nat (S k)) by lia.
    destruct (decide _) as [E|E]; [rewrite E; simpl; by rewrite IH|].
    apply not_true_is_false in E. by rewrite E, IH. }
  apply (Hg 32%nat 0%nat).
Qed.

(** The number of registers stays a variable, so that the loops are not
    unrolled. *)
Lemma registers_count mask : exists n, n = 32%nat
  /\ Z.to_nat RV32_AVAILABLE_REGISTERS_COUNT = n /\ mask_regs mask = regs_from n 0 mask.
Proof. by exists 32%nat. Qed.

Section Frame.
Context `{Rv32Config} `{PyMisc} (mask : Z) (Hmask : frame_mask mask).
(** The registers of the mask. *)
Context (rs : list Z) (Hrs : mask_regs mask = rs).

(** The size of the saved registers' area. *)
Definition saved_bytes : Z := 4 * Z.of_nat (length rs).
#[local] Strategy expand [saved_bytes].

Lemma saved_bytes_range : 0 <= saved_bytes <= 128.
Proof using Hrs. unfold saved_bytes. rewrite <- Hrs. pose proof (mask_regs_length mask). lia. Qed.

Lemma frame_regs_ne r : r ∈ rs -> r <> 0 /\ r <> 2 /\ r <> REG_TEMP0.
Proof using Hmask Hrs.
  rewrite <- Hrs. intros Hin. repeat split; intros ->; revert Hin;
    apply (frame_mask_not_in mask); auto.
Qed.

Lemma frame_regs_NoDup : NoDup rs.
Proof using Hrs.
  destruct (registers_count mask) as (n & _ & _ & E). rewrite <- Hrs, E. apply regs_from_NoDup.
Qed.

Lemma store_assembles s :
  assembles s (emit_registers_store mask) (store_code rs 0).
Proof using Hrs.
  pose proof saved_bytes_range as Hr. unfold saved_bytes in Hr. unfold emit_registers_store.
  destruct (registers_count mask) as (n & Hn & Hz & E). rewrite Hz.
  rewrite Hrs in E. clear Hrs Hz. subst rs.
  apply registers_store_assembles; [lia|lia|by exists 0|lia|lia].
Qed.
Lemma load_assembles s :
  assembles s (emit_registers_load mask) (load_code rs 0).
Proof using Hmask Hrs.
  pose proof saved_bytes_range as Hr. unfold saved_bytes in Hr. unfold emit_registers_load.
  assert (0 ∉ rs) as H0' by (intros [? _]%frame_regs_ne; done).
  destruct (registers_count mask) as (n & Hn & Hz & E). rewrite Hz.
  rewrite Hrs in E. clear Hrs Hz. subst rs.
  apply registers_load_assembles; [lia|lia|by exists 0|lia|done|lia].
Qed.

Lemma store_performs s : performs s (emit_registers_store mask)
  (fun mc => set_mem (save rs (rget 2 mc) (fun r => rget r mc) (mem mc)) mc).
Proof using Hrs.
  eapply assembles_performs; [apply store_assembles|]. intros mc Hpc.
  etransitivity; [apply (exec_store_code rs 0 mc Hpc)|]. by rewrite Z.add_0_r.
Qed.

Lemma load_performs s : performs s (emit_registers_load mask)
  (fun mc => restore rs (rget 2 mc) mc).
Proof using Hmask Hrs.
  eapply assembles_performs; [apply load_assembles|]. intros mc Hpc.
  etransitivity; [apply (exec_load_code rs 0 mc Hpc)|by rewrite Z.add_0_r].
  intros (_ & ? & _)%frame_regs_ne. done.
Qed.

(** The size of the frame for the back end's state. *)
Definition frame_bytes (s : asm_rv32_t) : Z := u32 (saved_bytes + locals_count s * 4).

(** After the prologue the frame is allocated, the registers of the mask
    are at its bottom, and nothing else changed. *)
Definition prologue_post (s : asm_rv32_t) (len : Z) (mc mc' : machine) : Prop :=
  falls len mc mc'
  /\ u32 (rget 2 mc') = u32 (rget 2 mc - frame_bytes s)
  /\ (forall r, r <> 2 -> r <> REG_TEMP0 -> rget r mc' = rget r mc)
  /\ mem mc' = save rs (rget 2 mc') (fun r => rget r mc) (mem mc).

(** The fields the prologue sets. *)
Definition framed (s : asm_rv32_t) : asm_rv32_t :=
  set_locals_stack_offset saved_bytes (set_stack_size (frame_bytes s) s).

Lemma save_ext l a f g h : (forall r, r ∈ l -> f r = g r) -> save l a f h = save l a g h.
Proof using.
  revert a h. induction l as [|r l IH]; intros a h E; simpl; [done|].
  rewrite E by left. apply IH. intros q Hq. apply E. by right.
Qed.

Lemma prologue_implements s :
  implements_to s (framed s) (emit_function_prologue mask) (prologue_post s).
Proof using Hmask Hrs.
  pose proof saved_bytes_range as Hr.
  assert (u32 ((mp_popcount mask + locals_count s) * 4) = frame_bytes s) as Ef.
  { unfold frame_bytes, saved_bytes. rewrite mp_popcount_spec by apply Hmask.
    rewrite popcount_regs, Hrs. f_equal. lia. }
  apply (implements_to_intro s (set_stack_size (frame_bytes s) s) (framed s) _
    (adjust_stack (s32 (- frame_bytes s));; emit_registers_store mask)
    (modify (set_locals_stack_offset saved_bytes);;
     modify (set_saved_registers_mask (saved_registers_mask s)))).
  - done.
  - done.
  - unfold emit_function_prologue. run_cmd. rewrite Ef. simpl.
    destruct (adjust_stack _ _) as [[[] s1]|]; [|done].
    destruct (emit_registers_store mask s1) as [[[] s2]|]; [|done].
    do 4 f_equal. rewrite mp_popcount_spec, popcount_regs, Hrs by apply Hmask.
    unfold saved_bytes in *. rewrite uw_small by lia. lia.
  - intros bs. done.
  - eapply implements_mono.
    + apply (implements_seq _ _ _ (fun n mc mc' => moves_sp (s32 (- frame_bytes s)) mc mc')
        (fun n mc mc' => mc' = set_pc (u32 (pc mc + n))
           (set_mem (save rs (rget 2 mc) (fun r => rget r mc) (mem mc)) mc))).
      * eapply implements_mono; [apply adjust_stack_implements, simm_sw; lia|]. auto.
      * intros bs. apply store_performs.
    + intros n mc mc' (n1 & n2 & m1 & -> & Hpc & [Hsp [Hk Hm]] & ->). split; [|split; [|split]].
      * unfold falls. simpl in *. rewrite Hpc. clear. word_lia.
      * autorewrite with machine. rewrite Hsp. clear. word_lia.
      * intros r H2 Ht. autorewrite with machine. apply Hk.
        intros [-> | [-> | ?%elem_of_nil]%elem_of_cons]%elem_of_cons; done.
      * autorewrite with machine. rewrite Hm. apply save_ext. intros r (_ & ? & ?)%frame_regs_ne. apply Hk.
        intros [-> | [-> | ?%elem_of_nil]%elem_of_cons]%elem_of_cons; done.
Qed.

(** The epilogue loads the registers of the mask from the bottom of the
    frame and releases it. *)
Definition restored (s : asm_rv32_t) (mc mc' : machine) : Prop :=
  u32 (rget 2 mc') = u32 (rget 2 mc + stack_size s)
  /\ (forall i r, rs !! i = Some r ->
        rget r mc' = u32 (load 32 4 (mem mc) (rget 2 mc + 4 * Z.of_nat i)))
  /\ (forall r, r ∉ rs -> r <> 2 -> r <> REG_TEMP0 -> rget r mc' = rget r mc)
  /\ mem mc' = mem mc.

Lemma epilogue_implements s :
  implements s (emit_function_epilogue mask) (fun len mc mc' =>
    falls len mc mc' /\ restored s mc mc').
Proof using Hmask Hrs.
  eapply implements_mono.
  - unfold emit_function_epilogue. apply implements_gets.
    eapply performs_then; [apply load_performs|]. intros bs.
    apply (implements_gets stack_size).
    change (stack_size (puts bs s)) with (stack_size s). apply implements_post.
    + apply adjust_stack_implements, simm_sw. lia.
    + intros cs. by destruct s.
  - intros n mc mc' (n1 & n2 & -> & Hf & Hsp & Hk & Hm).
    autorewrite with machine in Hsp.
    rewrite restore_other in Hsp by (by intros (_ & ? & _)%frame_regs_ne).
    split; [|split; [|split; [|split]]].
    + unfold falls in *. rewrite Hf. simpl. clear. word_lia.
    + rewrite Hsp. clear. word_lia.
    + intros i r Hi. rewrite Hk.
      * rewrite rget_set_pc. apply restore_get; [apply frame_regs_NoDup| |done].
        by intros [? _]%frame_regs_ne.
      * apply list_elem_of_lookup_2, frame_regs_ne in Hi as (_ & ? & ?).
        intros [-> | [-> | ?%elem_of_nil]%elem_of_cons]%elem_of_cons; done.
    + intros r Hr H2 Ht. rewrite Hk.
      * rewrite rget_set_pc. by apply restore_other.
      * intros [-> | [-> | ?%elem_of_nil]%elem_of_cons]%elem_of_cons; done.
    + rewrite Hm. simpl. apply restore_mem.
Qed.

(** Function exit: the registers are restored and control goes to RA. *)
Definition exit_post (s : asm_rv32_t) (mc mc' : machine) : Prop :=
  restored s mc mc' /\ pc mc' = u32 (rget 1 mc') .& Z.lnot 1.

Lemma exit_implements s : asm_rv32_allow_zcmp_opcodes = false ->
  saved_registers_mask s = mask ->
  implements s asm_rv32_exit (fun _ => exit_post s).
Proof using Hmask Hrs.
  intros Hz Hs. unfold asm_rv32_exit. apply implements_gets. rewrite Hz, Hs.
  eapply implements_mono.
  - eapply (implements_seq s _ _ (fun _ => restored s)).
    + apply epilogue_implements.
    + intros bs. eapply assembles_implements; [by apply (rvc_opcodes_decode (C_JR 1))|].
      intros mc _. eexists. cbn [expand]. rv_exec. split; [done|].
      by instantiate (1 := fun _ mc mc' => mc' = set_pc (u32 (rget 1 mc + 0) .& Z.lnot 1) mc).
  - intros n mc mc' (n1 & n2 & m1 & -> & Hpc & Hr & ->).
    split; [done|]. by rewrite Z.add_0_r.
Qed.

(** Function entry, for the state [s] whose mask, with the registers entry
    always saves, is [mask]. *)
Definition entered (locals : Z) (s : asm_rv32_t) : asm_rv32_t :=
  set_saved_registers_mask mask (set_locals_count locals s).

Lemma entry_implements s locals : asm_rv32_allow_zcmp_opcodes = false ->
  mask = saved_registers_mask s .| ((1 << REG_FUN_TABLE) .| (1 << REG_LOCAL_1)
     .| (1 << REG_LOCAL_2) .| (1 << REG_LOCAL_3)) ->
  implements_to s (framed (entered locals s)) (asm_rv32_entry locals)
    (prologue_post (entered locals s)).
Proof using Hmask Hrs.
  intros Hz Hm. eapply implements_to_ext; [| |apply (prologue_implements (entered locals s))]; [done|].
  unfold asm_rv32_entry. run_cmd. rewrite Hz. cbn [saved_registers_mask set_locals_count set_saved_registers_mask].
  by rewrite <- Hm.
Qed.

(** A body that keeps the stack pointer and the saved words: what the
    caller sees after entry, body and exit. *)
Lemma frame_roundtrip s len mc m1 mb m2 :
  prologue_post s len mc m1 ->
  u32 (rget 2 mb) = u32 (rget 2 m1) ->
  (forall i, (i < length rs)%nat ->
     load 32 4 (mem mb) (rget 2 m1 + 4 * Z.of_nat i) = load 32 4 (mem m1) (rget 2 m1 + 4 * Z.of_nat i)) ->
  forall s', stack_size s' = frame_bytes s -> exit_post s' mb m2 ->
  (forall r, r ∈ rs -> rget r m2 = u32 (rget r mc))
  /\ u32 (rget 2 m2) = u32 (rget 2 mc)
  /\ pc m2 = u32 (if decide (1 ∈ rs) then rget 1 mc else rget 1 mb) .& Z.lnot 1.
Proof using Hmask Hrs.
  intros (_ & Hsp & Hk & Hm) Hspb Hsaved s' Hsize [(Hsp2 & Hrest & Hother & _) Hpc].
  assert (forall r, r ∈ rs -> rget r m2 = u32 (rget r mc)) as Hregs.
  { intros r [i Hi]%list_elem_of_lookup_1. rewrite (Hrest i r Hi).
    rewrite (load_cong 32 eq_refl 4 _ _ (rget 2 m1 + 4 * Z.of_nat i))
      by (rewrite <- uw_add_l, Hspb, uw_add_l by lia; done).
    rewrite Hsaved by (by eapply lookup_lt_Some). rewrite Hm.
    rewrite (save_load rs _ _ _ i r); [apply uw_uw; lia| |done].
    pose proof saved_bytes_range. unfold saved_bytes in *. lia. }
  split; [done|]. split.
  - rewrite Hsp2, Hsize, <- uw_add_l, Hspb, Hsp by lia. clear. word_lia.
  - rewrite Hpc. destruct (decide (1 ∈ rs)) as [Hin|Hin].
    + by rewrite Hregs, uw_uw.
    + by rewrite Hother.
Qed.
End Frame.

(** ** Locals lie in the frame, above the saved registers *)

Lemma local_store_keeps_saved rs s local h sp v i :
  0 <= local < locals_count s -> saved_bytes rs + locals_count s * 4 < 2 ^ 32 ->
  (i < length rs)%nat ->
  let off := local_off (framed rs s) local in
  off + 4 <= frame_bytes rs s
  /\ load 32 4 (store 32 4 h (sp + off) v) (sp + 4 * Z.of_nat i) = load 32 4 h (sp + 4 * Z.of_nat i).
Proof.
  intros Hl Hfit Hi off. unfold frame_bytes. unfold saved_bytes in *.
  assert (off = 4 * Z.of_nat (length rs) + local * 4) as E.
  { unfold off, local_off. simpl. unfold saved_bytes, ASM_WORD_SIZE. apply uw_small. lia. }
  clearbody off. rewrite uw_small by lia. split; [lia|].
  apply load_store_other; [lia|lia|]. unfold disjoint_bytes.
  replace (u32 (sp + 4 * Z.of_nat i - (sp + off))) with (2 ^ 32 - (off - 4 * Z.of_nat i)); [lia|].
  rewrite <- (uw_small 32 (2 ^ 32 - _)) by lia. apply uw_eq_iff; [lia|]. exists 1. lia.
Qed.

(** ** Calls through the function table *)

Section CallInd.
Context (s : asm_rv32_t) (index : Z).

Definition entry_offset : Z := u32 (index * ASM_WORD_SIZE).

(** RA is tainted, and the temporary of the short form. *)
Definition call_tainted : asm_rv32_t :=
  let s1 := set_saved_registers_mask (saved_registers_mask s .| (1 << ASM_RV32_REG_RA)) s in
  if FIT_UNSIGNED entry_offset 6
  then set_saved_registers_mask (saved_registers_mask s1 .| (1 << INTERNAL_TEMPORARY)) s1
  else s1.

(** Control goes to the table's entry, with the return address in RA. *)
Definition calls (n : Z) (mc mc' : machine) : Prop :=
  pc mc' = u32 (load 32 4 (mem mc) (rget REG_FUN_TABLE mc + entry_offset)) .& Z.lnot 1
  /\ rget 1 mc' = u32 (pc mc + n)
  /\ keeps [1; INTERNAL_TEMPORARY; REG_TEMP2] mc mc'.

Lemma calls_intro n mc a b t v : t = INTERNAL_TEMPORARY \/ t = REG_TEMP2 ->
  a = u32 (load 32 4 (mem mc) (rget REG_FUN_TABLE mc + entry_offset)) .& Z.lnot 1 ->
  u32 b = u32 (pc mc + n) ->
  calls n mc (set_pc a (rset 1 b (rset t v mc))).
Proof using.
  intros Ht -> Hb. split; [done|]. split; [by rewrite rget_set_pc, rget_rset_eq|].
  apply keeps_set_pc, keeps_rset; [by left|]. apply keeps_rset; [|done].
  destruct Ht as [-> | ->]; [by right; left | by right; right; left].
Qed.

(** The state once the registers are tainted, and the rest of the code. *)
Lemma call_ind_unfold :
  asm_rv32_emit_call_ind index s =
  (if FIT_UNSIGNED entry_offset 6 then
     asm_rv32_opcode_clw 0 1 (s32 entry_offset);; asm_rv32_opcode_cjalr 8
   else if FIT_UNSIGNED entry_offset 11 then
     asm_rv32_opcode_lw 28 9 (s32 entry_offset);; asm_rv32_opcode_cjalr 28
   else
     let '(upper, lower) := split_immediate (s32 entry_offset) in
     load_upper_immediate 28 upper;; asm_rv32_opcode_cadd 28 9;;
     asm_rv32_opcode_lw 28 28 (s32 lower);; asm_rv32_opcode_cjalr 28) call_tainted.
Proof using.
  unfold asm_rv32_emit_call_ind, call_tainted, taint. fold entry_offset. cbv zeta.
  rewrite modify_bind.
  change (RV32_IS_IN_C_REGISTER_WINDOW REG_FUN_TABLE && RV32_IS_IN_C_REGISTER_WINDOW INTERNAL_TEMPORARY
    && FIT_UNSIGNED entry_offset 6) with (FIT_UNSIGNED entry_offset 6).
  destruct (FIT_UNSIGNED entry_offset 6); [by rewrite modify_bind|].
  by destruct (FIT_UNSIGNED entry_offset 11).
Qed.

Lemma call_ind_implements :
  implements_to s call_tainted (asm_rv32_emit_call_ind index) calls.
Proof using.
  assert (4 | entry_offset) as Hd by (apply (uw_divide 32 2); [lia|]; by exists index).
  pose proof (uw_range 32 eq_refl (index * ASM_WORD_SIZE)) as Hr. fold entry_offset in Hr.
  eapply (implements_to_intro s call_tainted call_tainted _ _ (mret tt)).
  { unfold call_tainted. by destruct (FIT_UNSIGNED _ _). }
  { unfold call_tainted. by destruct (FIT_UNSIGNED _ _). }
  { rewrite call_ind_unfold. symmetry. apply bind_ret_unit. }
  { done. }
  generalize call_tainted as t. intros t.
  destruct (FIT_UNSIGNED entry_offset 6) eqn:E6; [|destruct (FIT_UNSIGNED entry_offset 11) eqn:E11].
  - apply FIT_UNSIGNED_spec in E6; [|lia]. rewrite uw_small in E6 by done.
    eapply assembles_implements.
    { eapply (assembles_seq (H0 := Rv32) _ _ _ [_] [_]).
      - apply (rvc_opcodes_decode (C_LW 0 1 (s32 entry_offset))).
        rewrite sw_small by (simpl; lia). do 2 (split; [done|]). split; [lia|done].
      - intros bs _. by apply (rvc_opcodes_decode (C_JALR 8)). }
    intros mc _. eexists. cbn [expand]. rv_exec. split; [done|].
    apply calls_intro; [by left| |clear; word_lia].
    rewrite Z.add_0_r, uw_uw, sw_small by (simpl; lia). done.
  - apply FIT_UNSIGNED_spec in E11; [|lia]. rewrite uw_small in E11 by done.
    eapply assembles_implements.
    { eapply (assembles_seq (H0 := Rv32) _ _ _ [_] [_]).
      - apply (opcodes_decode (LOAD LW 28 9 (s32 entry_offset))).
        do 2 (split; [done|]). rewrite sw_small by (simpl; lia). unfold simm. lia.
      - intros bs _. by apply (rvc_opcodes_decode (C_JALR 28)). }
    intros mc _. eexists. cbn [expand]. rv_exec. split; [done|].
    apply calls_intro; [by right| |clear; word_lia].
    rewrite Z.add_0_r, uw_uw, sw_small by (simpl; lia). done.
  - destruct (split_immediate _) as [upper lower] eqn:Hs.
    apply split_immediate_spec in Hs as (? & ? & Hl & Hsum). rewrite uw_sw in Hsum by lia.
    destruct (upper_add_assembles t 28 9 upper) with
      (m := asm_rv32_opcode_lw 28 28 (s32 lower);; asm_rv32_opcode_cjalr 28)
      (js := [(LOAD LW 28 28 (sw 12 lower), 4); (JALR 1 28 0, 2)]) as [len Hlen]; try done.
    { intros u. eapply (assembles_seq (H0 := Rv32) _ _ _ [_] [_]).
      - unfold asm_rv32_opcode_lw. rewrite sw_small, TYPE_I_low by (simpl; lia).
        apply (opcodes_decode (LOAD LW 28 28 (sw 12 lower))).
        do 2 (split; [done|]). by apply simm_sw.
      - intros bs _. by apply (rvc_opcodes_decode (C_JALR 28)). }
    eapply assembles_implements; [exact Hlen|]. intros mc _. eexists. rv_exec. split; [done|].
    apply calls_intro; [by right| |clear; word_lia].
    rewrite Z.add_0_r, uw_uw by lia. do 2 f_equal. apply load_cong; [lia|].
    by apply upper_lower_address.
Qed.
End CallInd.
