(* ===== verification/AsmRv32Zcmp.v ===== *)
(** * AsmRv32Zcmp: function entry and exit of asmrv32.c with CM.PUSH and CM.POPRET *)

From S2P Require Import Prelude AsmBase Machine Rv32Isa Emission PyMisc.
From S2P Require Import AsmRv32Opcodes AsmRv32Decode AsmRv32 AsmRv32Imm AsmRv32Jump AsmRv32Mem AsmRv32Frame.

Set Default Goal Selector "!".

#[local] Existing Instance SizeT_32.

(** ** CM.PUSH and CM.POPRET on memory *)

(** The registers [rs] stored at [a], [a - 4], ... *)
Fixpoint push_mem (rs : list Z) (a : Z) (f : Z -> Z) (h : gmap Z Z) : gmap Z Z :=
  match rs with
  | [] => h
  | r :: rs => push_mem rs (a - 4) f (store 32 4 h a (f r))
  end.

Lemma push_regs_mem rs : forall a mc,
  push_regs rs a mc = set_mem (push_mem rs a (fun r => rget r mc) (mem mc)) mc.
Proof. induction rs as [|r rs IH]; intros a mc; simpl; [by destruct mc|]. by rewrite IH. Qed.

Lemma push_other rs : forall m a f h x, (0 < m)%nat ->
  u32 (x - (a + 4)) + Z.of_nat m <= 2 ^ 32 - 4 * Z.of_nat (length rs) ->
  load 32 m (push_mem rs a f h) x = load 32 m h x.
Proof.
  induction rs as [|r rs IH]; intros m a f h x Hm Hx; simpl; [done|]. simpl length in Hx.
  pose proof (uw_range 32 eq_refl (x - (a + 4))).
  assert (u32 (x - a) = u32 (x - (a + 4)) + 4) as E.
  { rewrite <- (uw_small 32 (u32 (x - (a + 4)) + 4)) by lia. rewrite uw_add_l by lia. f_equal. lia. }
  rewrite IH.
  - apply load_store_other; [lia|lia|]. split; lia.
  - done.
  - replace (a - 4 + 4) with a by lia. lia.
Qed.

Lemma push_load rs : forall a f h i r, 4 * Z.of_nat (length rs) <= 2 ^ 32 -> rs !! i = Some r ->
  load 32 4 (push_mem rs a f h) (a - 4 * Z.of_nat i) = u32 (f r).
Proof.
  induction rs as [|q rs IH]; intros a f h i r Hl Hi; [done|]. simpl length in Hl.
  destruct i as [|i]; simpl in *.
  - injection Hi as ->. rewrite Z.sub_0_r. rewrite push_other.
    + apply (load_store_same 32); lia.
    + lia.
    + replace (u32 (a - (a - 4 + 4))) with 0 by (clear; word_lia). lia.
  - rewrite <- (IH (a - 4) f (store 32 4 h a (f q)) i r) by (done || lia). f_equal. lia.
Qed.

Lemma pop_other rs : forall a mc r, r ∉ rs -> rget r (pop_regs rs a mc) = rget r mc.
Proof.
  induction rs as [|q rs IH]; intros a mc r Hr; simpl; [done|].
  apply not_elem_of_cons in Hr as [Hq Hr]. by rewrite IH, rget_rset_ne.
Qed.

Lemma pop_mem rs : forall a mc, mem (pop_regs rs a mc) = mem mc.
Proof. induction rs as [|q rs IH]; intros; simpl; [done|]. by rewrite IH, mem_rset. Qed.

Lemma pop_get rs : forall a mc i r, NoDup rs -> 0 ∉ rs -> rs !! i = Some r ->
  rget r (pop_regs rs a mc) = u32 (load 32 4 (mem mc) (a - 4 * Z.of_nat i)).
Proof.
  induction rs as [|q rs IH]; intros a mc i r Hnd H0 Hi; [done|].
  apply NoDup_cons in Hnd as [Hq Hnd]. apply not_elem_of_cons in H0 as [Hq0 H0].
  destruct i as [|i]; simpl in *.
  - injection Hi as ->. rewrite pop_other, rget_rset_eq by (done || by intros ->).
    f_equal. f_equal. lia.
  - rewrite (IH _ _ i r) by done. rewrite mem_rset. do 2 f_equal. lia.
Qed.

(** ** The register list *)

(** The registers a Zcmp list can hold, in the order of their list numbers. *)
Definition zcmp_index (mask : Z) : Z :=
  ((mask .& 0x00000002) >> 1) .| ((mask .& 0x00000300) >> 7) .| ((mask .& 0x0FFC0000) >> 15).
Definition zcmp_mask (mask : Z) : Prop := mask <> 0 /\ mask .& u32 (Z.lnot 0x0FFC0302) = 0 /\ 0 <= mask < 2 ^ 32.
Definition sequence_length (mask : Z) : Z :=
  if Z.log2 (zcmp_index mask) + 1 =? 12 then 13 else Z.log2 (zcmp_index mask) + 1.
Definition zcmp_rlist (mask : Z) : Z := Z.min (3 + sequence_length mask) 15.
Definition zcmp_regs (mask : Z) : list Z := push_pop_regs (zcmp_rlist mask).

Lemma zcmp_mask_bits mask : zcmp_mask mask ->
  mask = (bits mask 1 1 << 1) .| (bits mask 8 2 << 8) .| (bits mask 18 10 << 18).
Proof.
  intros (_ & Hm & Hr). unfold zcmp_mask in *.
  assert (mask = (mask .& 0x0FFC0302) .| (mask .& u32 (Z.lnot 0x0FFC0302))) as E.
  { change (u32 (Z.lnot 0x0FFC0302)) with 0xF003FCFD. bitsolve. }
  rewrite Hm, Z.lor_0_r in E. rewrite E at 1. bitsolve.
Qed.

Lemma zcmp_index_range mask : zcmp_mask mask -> 0 < zcmp_index mask < 2 ^ 13.
Proof.
  intros Hm. assert (zcmp_index mask = uw 13 (zcmp_index mask)) as E.
  { destruct Hm as (_ & _ & Hr). unfold zcmp_index. bitsolve. }
  pose proof (uw_range 13 eq_refl (zcmp_index mask)).
  assert (zcmp_index mask <> 0); [|lia]. intros Hz.
  assert (mask = (bits (zcmp_index mask) 0 1 << 1) .| (bits (zcmp_index mask) 1 2 << 8)
    .| (bits (zcmp_index mask) 3 10 << 18)) as E2.
  { rewrite (zcmp_mask_bits mask Hm) at 1. destruct Hm as (_ & _ & Hr). unfold zcmp_index. bitsolve. }
  rewrite Hz in E2. destruct Hm as [Hne _]. by rewrite E2 in Hne.
Qed.

(** What the lists hold, by computation over their twelve numbers. *)
Definition zcmp_registers : list Z := [1; 8; 9; 18; 19; 20; 21; 22; 23; 24; 25; 26; 27].

Lemma urlist_regs rl : 4 <= rl < 16 ->
  Z.of_nat (length (push_pop_regs rl)) = (if rl =? 15 then 13 else rl - 3)
  /\ NoDup (push_pop_regs rl) /\ (0 ∉ push_pop_regs rl) /\ (2 ∉ push_pop_regs rl)
  /\ (1 ∈ push_pop_regs rl)
  /\ (decode_push_pop_list rl =? 0) = false.
Proof.
  intros Hrl. assert (rl ∈ Z.of_nat <$> seq 4 12) as Hin.
  { apply list_elem_of_fmap. exists (Z.to_nat rl). split; [lia|]. apply elem_of_seq. lia. }
  revert rl Hin Hrl. apply (Forall_forall (fun rl => 4 <= rl < 16 -> _)).
  repeat (apply Forall_cons; split; [|]); [..|by apply Forall_nil]; intros _;
    (split; [reflexivity|]);
    (split; [apply (bool_decide_eq_true_1 _); vm_compute; reflexivity|]);
    (split; [apply (bool_decide_eq_true_1 _); vm_compute; reflexivity|]);
    (split; [apply (bool_decide_eq_true_1 _); vm_compute; reflexivity|]);
    (split; [apply (bool_decide_eq_true_1 _); vm_compute; reflexivity|reflexivity]).
Qed.

Ltac fold_nat :=
  match goal with |- context [Z.of_nat ?n] =>
    let z := eval vm_compute in (Z.of_nat n) in change (Z.of_nat n) with z end.

(** A property of the numbers below [n] that a computation decides. *)
Lemma forall_below (n : nat) (P : Z -> bool) : forallb P (Z.of_nat <$> seq 0 n) = true ->
  forall r, 0 <= r < Z.of_nat n -> P r = true.
Proof.
  rewrite forallb_forall. intros HP r Hr. apply HP, list_elem_of_In, list_elem_of_fmap.
  exists (Z.to_nat r). split; [lia|]. apply elem_of_seq. lia.
Qed.

(** The position of a register in [zcmp_registers] is its bit in the index. *)
Lemma zcmp_index_bit mask j r : zcmp_registers !! j = Some r ->
  Z.testbit (zcmp_index mask) (Z.of_nat j) = Z.testbit mask r.
Proof.
  intros Hj. unfold zcmp_index.
  do 13 (destruct j as [|j]; [injection Hj as <-; apply testbit_field; [lia|lia|fold_nat; bitsolve]|]).
  done.
Qed.

(** Every register of the mask is in the list. *)
Lemma zcmp_mask_registers mask r : zcmp_mask mask -> 0 <= r -> Z.testbit mask r = true ->
  r ∈ zcmp_registers.
Proof.
  intros (_ & Hm & Hr) H0 Ht. assert (r < 32).
  { destruct (decide (r < 32)); [done|]. rewrite Z.bits_above_log2 in Ht; [done|lia|].
    destruct (decide (mask = 0)) as [->|]; [simpl; lia|].
    apply Z.lt_le_trans with 32; [apply Z.log2_lt_pow2; lia|lia]. }
  apply (f_equal (fun z => Z.testbit z r)) in Hm. rewrite Z.land_spec, Ht, Z.testbit_0_l in Hm. simpl in Hm.
  pose proof (forall_below 32
    (fun r => Z.testbit (u32 (Z.lnot 0x0FFC0302)) r || bool_decide (r ∈ zcmp_registers))
    eq_refl r ltac:(lia)) as Hin.
  simpl in Hin. rewrite Hm in Hin. by apply bool_decide_eq_true_1 in Hin.
Qed.

(** The number of registers pushed. *)
Lemma sequence_length_range mask : zcmp_mask mask ->
  1 <= sequence_length mask <= 13 /\ sequence_length mask <> 12
  /\ 4 <= zcmp_rlist mask < 16
  /\ Z.of_nat (length (zcmp_regs mask)) = sequence_length mask.
Proof.
  intros Hm. pose proof (zcmp_index_range mask Hm).
  assert (0 <= Z.log2 (zcmp_index mask) < 13).
  { split; [apply Z.log2_nonneg|]. apply Z.log2_lt_pow2; lia. }
  assert (1 <= sequence_length mask <= 13 /\ sequence_length mask <> 12) as [Hl Hne].
  { unfold sequence_length. destruct (Z.eqb_spec (Z.log2 (zcmp_index mask) + 1) 12); lia. }
  assert (4 <= zcmp_rlist mask < 16) as Hrl by (unfold zcmp_rlist; lia).
  split; [done|]. split; [done|]. split; [done|].
  unfold zcmp_regs. rewrite (proj1 (urlist_regs _ Hrl)). unfold zcmp_rlist in *.
  destruct (Z.eqb_spec (Z.min (3 + sequence_length mask) 15) 15); lia.
Qed.

(** List [rl] holds the first [rl - 3] registers. *)
Definition urlist_holds (rl : Z) : bool :=
  forallb (fun j => negb (Z.min (4 + Z.of_nat j) 15 <=? rl)
    || bool_decide (List.nth j zcmp_registers 0 ∈ push_pop_regs rl)) (seq 0 13).
Lemma urlist_holds_spec rl j : 0 <= rl < 16 -> (j < 13)%nat -> Z.min (4 + Z.of_nat j) 15 <= rl ->
  List.nth j zcmp_registers 0 ∈ push_pop_regs rl.
Proof.
  intros Hrl Hj Hge. assert (urlist_holds rl = true) as Hall.
  { apply (forall_below 16); [vm_compute; reflexivity|simpl; lia]. }
  unfold urlist_holds in Hall. rewrite forallb_forall in Hall. specialize (Hall j).
  rewrite in_seq, leb_true in Hall by done. specialize (Hall ltac:(lia)).
  by apply bool_decide_eq_true_1 in Hall.
Qed.

(** The list contains the mask. *)
Lemma zcmp_covers mask r : zcmp_mask mask -> 0 <= r -> Z.testbit mask r = true ->
  r ∈ zcmp_regs mask.
Proof.
  intros Hm Hr Ht. pose proof (zcmp_index_range mask Hm).
  destruct (list_elem_of_lookup_1 _ _ (zcmp_mask_registers mask r Hm Hr Ht)) as [j Hj].
  rewrite <- (zcmp_index_bit mask j r Hj) in Ht.
  assert (Z.of_nat j <= Z.log2 (zcmp_index mask)).
  { destruct (decide (Z.of_nat j <= Z.log2 (zcmp_index mask))); [done|].
    rewrite Z.bits_above_log2 in Ht by lia. done. }
  assert (Z.min (4 + Z.of_nat j) 15 <= zcmp_rlist mask) as Hge.
  { unfold zcmp_rlist, sequence_length. destruct (_ =? 12); lia. }
  destruct (sequence_length_range mask Hm) as (_ & _ & Hrl & _).
  apply lookup_lt_Some in Hj as Hlt. simpl in Hlt.
  pose proof (urlist_holds_spec (zcmp_rlist mask) j ltac:(lia) Hlt Hge) as Hin.
  unfold zcmp_regs. rewrite nth_lookup, Hj in Hin. done.
Qed.

(** ** The frame *)

Section Zcmp.
Context `{Rv32Config} `{PyMisc} (mask locals : Z).
Hypothesis Hmask : zcmp_mask mask.
Hypothesis Hlocals : 0 <= locals < 2 ^ 28.

Definition allocated : Z := (sequence_length mask + 3) / 4 * 4.
Definition locals_beyond_slack : Z := Z.max 0 (locals - (allocated - sequence_length mask)).
Definition chunks : Z := Z.min 3 (locals_beyond_slack / 4).
Definition extra_bytes : Z := (locals_beyond_slack - chunks * 4) * 4.
Definition zcmp_stack_size : Z := extra_bytes .| chunks.
(** What CM.PUSH allocates. *)
Definition push_bytes : Z := allocated * 4 + chunks * 16.

Lemma allocated_bounds : sequence_length mask <= allocated < sequence_length mask + 4
  /\ 0 < allocated <= 16.
Proof using Hmask.
  destruct (sequence_length_range mask Hmask) as (Hl & _). unfold allocated.
  pose proof (Z.div_mod (sequence_length mask + 3) 4 ltac:(lia)).
  pose proof (Z.mod_pos_bound (sequence_length mask + 3) 4 ltac:(lia)). lia.
Qed.

Lemma chunks_bounds : 0 <= chunks <= 3 /\ chunks * 4 <= locals_beyond_slack /\ 0 <= locals_beyond_slack <= locals.
Proof using Hmask Hlocals.
  pose proof allocated_bounds. unfold chunks.
  assert (0 <= locals_beyond_slack <= locals) by (unfold locals_beyond_slack; lia).
  pose proof (Z.div_mod locals_beyond_slack 4 ltac:(lia)).
  pose proof (Z.mod_pos_bound locals_beyond_slack 4 ltac:(lia)).
  pose proof (Z.div_pos locals_beyond_slack 4 ltac:(lia) ltac:(lia)). lia.
Qed.

Lemma extra_bytes_bounds : 0 <= extra_bytes < 2 ^ 30 /\ (4 | extra_bytes).
Proof using Hmask Hlocals.
  pose proof chunks_bounds. unfold extra_bytes. split; [lia|]. apply Z.divide_factor_r.
Qed.

(** The room below the pushed registers holds the locals. *)
Lemma locals_fit : 4 * locals <= push_bytes + extra_bytes - 4 * sequence_length mask.
Proof using Hmask Hlocals.
  pose proof allocated_bounds. pose proof chunks_bounds.
  unfold push_bytes, extra_bytes, locals_beyond_slack in *. lia.
Qed.

Lemma push_adj : stack_adj (zcmp_rlist mask) (chunks << 4) = push_bytes.
Proof using Hmask.
  destruct (sequence_length_range mask Hmask) as (Hl & _ & _ & Hlen).
  unfold stack_adj, push_bytes, allocated. change (push_pop_regs (zcmp_rlist mask)) with (zcmp_regs mask).
  rewrite Hlen, Z.shiftl_mul_pow2 by lia. change (2 ^ 4) with 16. f_equal.
  pose proof (Z.div_mod (sequence_length mask + 3) 4 ltac:(lia)).
  pose proof (Z.mod_pos_bound (sequence_length mask + 3) 4 ltac:(lia)).
  replace (sequence_length mask * 4 + 15) with ((sequence_length mask + 3) / 4 * 16 + ((sequence_length mask + 3) mod 4 * 4 + 3)) by lia.
  rewrite Z.div_add_l, (Z.div_small (_ mod _ * 4 + 3)) by lia. lia.
Qed.

Lemma compute_length_ok s : compute_zcmp_sequence_length mask s = Ok (sequence_length mask, s).
Proof using Hmask.
  pose proof (zcmp_index_range mask Hmask) as Hi. destruct Hmask as (Hne & Hz & Hr).
  unfold compute_zcmp_sequence_length. rewrite assert_true.
  - fold (zcmp_index mask). rewrite mp_clz_spec by lia.
    replace (32 - (31 - Z.log2 (zcmp_index mask))) with (Z.log2 (zcmp_index mask) + 1) by lia.
    assert (0 <= Z.log2 (zcmp_index mask) < 13).
    { split; [apply Z.log2_nonneg|]. apply Z.log2_lt_pow2; lia. }
    by rewrite uw_small by lia.
  - rewrite Hz. by destruct (Z.eqb_spec mask 0).
Qed.

(** The registers pushed at the top of the frame. *)
Definition zcmp_post (len : Z) (mc mc' : machine) : Prop :=
  falls len mc mc'
  /\ u32 (rget 2 mc') = u32 (rget 2 mc - (push_bytes + extra_bytes))
  /\ (forall r, r <> 2 -> r <> REG_TEMP0 -> rget r mc' = rget r mc)
  /\ mem mc' = push_mem (zcmp_regs mask) (rget 2 mc - 4) (fun r => rget r mc) (mem mc).

Lemma cmpush_performs s : performs s (asm_rv32_opcode_cmpush (zcmp_rlist mask) chunks)
  (fun mc => rset 2 (rget 2 mc - push_bytes)
     (set_mem (push_mem (zcmp_regs mask) (rget 2 mc - 4) (fun r => rget r mc) (mem mc)) mc)).
Proof using Hmask Hlocals.
  destruct (sequence_length_range mask Hmask) as (_ & _ & Hrl & _). pose proof chunks_bounds.
  eapply assembles_performs.
  - replace chunks with ((chunks << 4) >> 4) at 1 by (by rewrite Z.shiftr_shiftl_l, Z.shiftl_0_r by lia).
    apply (opcodes_decode (CM_PUSH (zcmp_rlist mask) (chunks << 4))).
    rewrite Z.shiftl_mul_pow2 by lia. split; [lia|]. split; [lia|by exists chunks].
  - intros mc _. cbn [instr_len]. rv_exec.
    rewrite (proj2 (proj2 (proj2 (proj2 (proj2 (urlist_regs _ Hrl)))))). rv_exec.
    rewrite push_adj, push_regs_mem. done.
Qed.

Lemma EMIT_ASSERT_true c w s : c = true -> EMIT_ASSERT c w s = Ok (tt, s).
Proof using. intros ->. unfold EMIT_ASSERT. run_cmd. by destruct (_ =? _). Qed.

(** What the prologue computes before it emits. *)
Lemma prologue_unfold s : locals_count s = locals ->
  emit_compressed_function_prologue mask s =
  ((asm_rv32_opcode_cmpush (zcmp_rlist mask) chunks;; adjust_stack (s32 (- extra_bytes)));;
   modify (set_stack_size zcmp_stack_size)) s.
Proof using Hmask Hlocals.
  intros Hs. pose proof allocated_bounds as (Ha & Ha16). pose proof chunks_bounds as (Hc & Hcl & Hl).
  pose proof extra_bytes_bounds as [He _].
  assert (u32 (sequence_length mask + 3) .& u32 (-4) = allocated) as Ealloc.
  { destruct (sequence_length_range mask Hmask) as (Hr & _). apply Z.eqb_eq. unfold allocated.
    replace (sequence_length mask) with (sequence_length mask + 3 - 3) at 1 by lia.
    apply (forall_below 32 (fun r => u32 (r - 3 + 3) .& u32 (-4) =? r / 4 * 4)); [done|simpl; lia]. }
  assert ((if locals <? u32 (allocated - sequence_length mask) then 0
    else u32 (locals - u32 (allocated - sequence_length mask))) = locals_beyond_slack) as El.
  { unfold locals_beyond_slack. rewrite (uw_small _ (allocated - _)) by lia.
    destruct (Z.ltb_spec locals (allocated - sequence_length mask)); [lia|].
    rewrite uw_small; lia. }
  unfold emit_compressed_function_prologue.
  rewrite (bind_Ok _ _ _ _ _ (compute_length_ok s)), Ealloc.
  rewrite (bind_Ok _ _ _ _ _ (EMIT_ASSERT_true (sequence_length mask <=? allocated) _ s ltac:(lia))). run_cmd. rewrite Hs, El.
  fold chunks.
  rewrite (EMIT_ASSERT_true (chunks * 4 <=? locals_beyond_slack) _ s ltac:(lia)).
  rewrite (uw_small 32 (locals_beyond_slack - _)) by lia.
  rewrite (EMIT_ASSERT_true (locals_beyond_slack - chunks * 4 <=? MP_INT_MAX / 4) _ s ltac:(change (MP_INT_MAX / 4) with 536870911; lia)).
  fold extra_bytes. rewrite (uw_small 32 extra_bytes), (sw_small 32 eq_refl extra_bytes) by (simpl; lia).
  rewrite (uw_small 32 extra_bytes) by lia. fold zcmp_stack_size (zcmp_rlist mask).
  by destruct (asm_rv32_opcode_cmpush _ _ s) as [[[] s1]|].
Qed.

Lemma push_mem_ext rs : forall a f g h, (forall r, r ∈ rs -> f r = g r) ->
  push_mem rs a f h = push_mem rs a g h.
Proof using.
  induction rs as [|r rs IH]; intros a f g h E; simpl; [done|].
  rewrite E by left. apply IH. intros q Hq. apply E. by right.
Qed.

Lemma compressed_prologue_implements s : locals_count s = locals ->
  implements_to s (set_stack_size zcmp_stack_size s) (emit_compressed_function_prologue mask) zcmp_post.
Proof using Hmask Hlocals.
  intros Hs. pose proof extra_bytes_bounds as [He _].
  eapply (implements_to_intro s s); [done|done|by apply prologue_unfold|done|].
  eapply implements_mono.
  - eapply performs_then; [apply cmpush_performs|]. intros bs.
    apply adjust_stack_implements, simm_sw. lia.
  - intros n mc mc' (n1 & n2 & -> & Hpc & Hsp & Hk & Hm).
    split; [|split; [|split]].
    + unfold falls in *. rewrite Hpc. simpl. clear. word_lia.
    + rewrite Hsp. autorewrite with machine. clear. word_lia.
    + intros r H2 Ht. rewrite Hk.
      * by autorewrite with machine.
      * intros [-> | [-> | ?%elem_of_nil]%elem_of_cons]%elem_of_cons; done.
    + rewrite Hm. by autorewrite with machine.
Qed.

(** *** Exit *)

(** [stack_size] carries the two numbers of the epilogue. *)
Lemma zcmp_stack_size_parts : zcmp_stack_size .& u32 (Z.lnot 0x03) = extra_bytes
  /\ zcmp_stack_size .& 0x03 = chunks.
Proof using Hmask Hlocals.
  pose proof extra_bytes_bounds as [He [k Hk]]. pose proof (proj1 chunks_bounds) as Hc.
  unfold zcmp_stack_size.
  assert (extra_bytes = uw 28 k << 2) as ->.
  { rewrite Z.shiftl_mul_pow2, uw_small by lia. lia. }
  rewrite <- (uw_small 2 chunks) by (simpl; lia).
  change (u32 (Z.lnot 0x03)) with 0xFFFFFFFC. split; bitsolve.
Qed.

Definition zcmp_restored (mc mc' : machine) : Prop :=
  u32 (rget 2 mc') = u32 (rget 2 mc + (push_bytes + extra_bytes))
  /\ (forall i r, zcmp_regs mask !! i = Some r -> rget r mc'
        = u32 (load 32 4 (mem mc) (rget 2 mc + (push_bytes + extra_bytes) - 4 - 4 * Z.of_nat i)))
  /\ (forall r, r ∉ zcmp_regs mask -> r <> 2 -> r <> REG_TEMP0 -> rget r mc' = rget r mc)
  /\ mem mc' = mem mc
  /\ pc mc' = rget 1 mc'.

Lemma zcmp_regs_facts : NoDup (zcmp_regs mask) /\ (0 ∉ zcmp_regs mask) /\ (2 ∉ zcmp_regs mask)
  /\ (1 ∈ zcmp_regs mask) /\ (REG_TEMP0 ∉ zcmp_regs mask)
  /\ (decode_push_pop_list (zcmp_rlist mask) =? 0) = false.
Proof using Hmask.
  destruct (sequence_length_range mask Hmask) as (_ & _ & Hrl & _).
  destruct (urlist_regs _ Hrl) as (_ & ? & ? & ? & ? & ?). repeat (split; [done|]). split; [|done].
  pose proof (forall_below 16 (fun rl => bool_decide (REG_TEMP0 ∉ push_pop_regs rl)) eq_refl
    (zcmp_rlist mask) ltac:(simpl; lia)) as Ht.
  by apply bool_decide_eq_true_1 in Ht.
Qed.

Lemma cmpopret_implements s : implements s (asm_rv32_opcode_cmpopret (zcmp_rlist mask) chunks)
  (fun n mc mc' => exists a, mc' = set_pc (rget 1 mc') (rset 2 (rget 2 mc + push_bytes)
    (pop_regs (zcmp_regs mask) a mc)) /\ a = rget 2 mc + push_bytes - 4).
Proof using Hmask Hlocals.
  destruct (sequence_length_range mask Hmask) as (_ & _ & Hrl & _). pose proof chunks_bounds.
  destruct zcmp_regs_facts as (_ & _ & _ & _ & _ & Hz).
  eapply assembles_implements.
  - replace chunks with ((chunks << 4) >> 4) at 1 by (by rewrite Z.shiftr_shiftl_l, Z.shiftl_0_r by lia).
    apply (opcodes_decode (CM_POPRET (zcmp_rlist mask) (chunks << 4))).
    rewrite Z.shiftl_mul_pow2 by lia. split; [lia|]. split; [lia|by exists chunks].
  - intros mc _. cbn [instr_len]. rv_exec. rewrite Hz. rv_exec.
    rewrite push_adj. eexists. split; [done|]. eexists. split; [|done].
    by rewrite rget_set_pc, rget_rset_ne by done.
Qed.

Lemma compressed_epilogue_implements s : stack_size s = zcmp_stack_size ->
  implements s (emit_compressed_function_epilogue mask) (fun _ => zcmp_restored).
Proof using Hmask Hlocals.
  intros Hs. pose proof extra_bytes_bounds as [He _].
  destruct zcmp_stack_size_parts as [Ee Ec].
  destruct zcmp_regs_facts as (Hnd & H0' & H2' & H1' & Ht' & _).
  apply (implements_ext _ _ (adjust_stack (s32 extra_bytes);;
    s ← gets id; asm_rv32_opcode_cmpopret (zcmp_rlist mask) (stack_size s .& 0x03))).
  { unfold emit_compressed_function_epilogue. rewrite (bind_Ok _ _ _ _ _ (compute_length_ok s)).
    rewrite (bind_Ok (gets id) _ s s s eq_refl). cbv zeta. by rewrite Hs, Ee. }
  eapply implements_mono.
  - eapply (implements_seq _ _ _ (fun n mc mc' => moves_sp (s32 extra_bytes) mc mc')).
    + eapply implements_mono; [apply adjust_stack_implements, simm_sw; lia|]. auto.
    + intros bs.
      apply (implements_ext _ _ (asm_rv32_opcode_cmpopret (zcmp_rlist mask) (stack_size s .& 0x03)));
        [done|].
      rewrite Hs, Ec. apply cmpopret_implements.
  - intros n mc mc' (n1 & n2 & m1 & -> & _ & (Hsp & Hk & Hm) & a & Hmc' & ->).
    assert (forall r, r <> 2 -> rget r mc' = rget r (pop_regs (zcmp_regs mask) (rget 2 m1 + push_bytes - 4) m1)) as Er.
    { intros r Hr. rewrite Hmc'. by autorewrite with machine; rewrite ?rget_rset_ne. }
    split; [|split; [|split; [|split]]].
    + rewrite Hmc'. rewrite rget_set_pc, rget_rset_eq by done.
      rewrite uw_uw, <- uw_add_l, Hsp by lia. clear. word_lia.
    + intros i r Hi. rewrite Er by (intros ->; by apply list_elem_of_lookup_2 in Hi).
      rewrite (pop_get _ _ _ i r) by done. rewrite Hm. f_equal. apply load_cong; [lia|].
      replace (rget 2 m1 + push_bytes - 4 - 4 * Z.of_nat i) with (rget 2 m1 + (push_bytes - 4 - 4 * Z.of_nat i)) by lia.
      rewrite <- uw_add_l, Hsp by lia. clear. word_lia.
    + intros r Hr H2 Ht. rewrite Er, pop_other by done. apply Hk.
      intros [-> | [-> | ?%elem_of_nil]%elem_of_cons]%elem_of_cons; done.
    + rewrite Hmc'. autorewrite with machine. by rewrite ?mem_rset, pop_mem.
    + rewrite Hmc' at 1. done.
Qed.

(** Entry, a body that keeps the stack pointer and the pushed words, exit. *)
Lemma zcmp_roundtrip len mc m1 mb m2 :
  zcmp_post len mc m1 ->
  u32 (rget 2 mb) = u32 (rget 2 m1) ->
  (forall i, (i < length (zcmp_regs mask))%nat ->
     load 32 4 (mem mb) (rget 2 mc - 4 - 4 * Z.of_nat i) = load 32 4 (mem m1) (rget 2 mc - 4 - 4 * Z.of_nat i)) ->
  zcmp_restored mb m2 ->
  (forall r, r ∈ zcmp_regs mask -> rget r m2 = u32 (rget r mc))
  /\ u32 (rget 2 m2) = u32 (rget 2 mc) /\ pc m2 = u32 (rget 1 mc).
Proof using Hmask.
  intros (_ & Hsp & Hk & Hm) Hspb Hsaved (Hsp2 & Hrest & _ & _ & Hpc).
  destruct (sequence_length_range mask Hmask) as (Hl & _ & _ & Hlen).
  destruct zcmp_regs_facts as (_ & _ & _ & H1' & _).
  assert (forall r, r ∈ zcmp_regs mask -> rget r m2 = u32 (rget r mc)) as Hregs.
  { intros r [i Hi]%list_elem_of_lookup_1. rewrite (Hrest i r Hi).
    rewrite (load_cong 32 eq_refl 4 _ _ (rget 2 mc - 4 - 4 * Z.of_nat i)).
    - rewrite Hsaved by (by eapply lookup_lt_Some). rewrite Hm.
      rewrite (push_load _ _ _ _ i r); [apply uw_uw; lia|lia|done].
    - clear - Hsp Hspb. word_lia. }
  split; [done|]. split.
  - clear - Hsp Hspb Hsp2. word_lia.
  - by rewrite Hpc, Hregs.
Qed.
End Zcmp.
