(* ===== verification/AsmRv32Pass.v ===== *)
(** * AsmRv32Pass: the passes over RV32 programs agree

    Every operation of the back end writes as many bytes in the emit pass as
    in the compute pass before it, although the labels ahead are not known in
    the first; so a measured program is emitted with every label in place. *)

From S2P Require Import Prelude AsmBase Machine Rv32Isa Emission TwoPass PyMisc.
From S2P Require Import AsmRv32Opcodes AsmRv32Decode AsmRv32 AsmRv32Zcmp.

Set Default Goal Selector "!".

#[local] Existing Instance SizeT_32.

(** Displacements are [mp_int_t]s: code up to 2 GB. *)
Definition rv32_limit : Z := 2 ^ 31 - 1.
Lemma rv32_limit_ok : 0 < rv32_limit < 2 ^ size_bits - 1.
Proof. done. Qed.

(** ** Writing instructions *)

Section Opcodes.
Context (agree : asm_rv32_t -> asm_rv32_t -> Prop).
Context (agree_base : forall b b' s s', agree s s' -> agree (with_base b s) (with_base b' s')).
Abbreviation rv_steady := (steady rv32_limit agree).

Lemma steady_word w : rv_steady 4 (asm_rv32_emit_word_opcode w).
Proof using agree_base.
  eapply steady_puts; [apply rv32_limit_ok|done|apply emits_word|by rewrite length_le_bytes].
Qed.
Lemma steady_halfword w : rv_steady 2 (asm_rv32_emit_halfword_opcode w).
Proof using agree_base.
  eapply steady_puts; [apply rv32_limit_ok|done|apply emits_halfword|by rewrite length_le_bytes].
Qed.
Hint Resolve steady_word steady_halfword : steady.

Ltac rv_steady_op := steady_op_tac ltac:(done).

Lemma steady_instr i : rv_steady 4 (emit_instr i).
Proof using agree_base.
  destruct i as [[]|[]|[]|[]|[]| | | | |[]| | | |]; simpl; autounfold with rv32_opcodes; rv_steady_op.
Qed.
Lemma steady_rvc c : rv_steady 2 (emit_rvc c).
Proof using agree_base. destruct c; simpl; autounfold with rv32_opcodes; rv_steady_op. Qed.

(** ** Operations that do not read the back end's fields *)

Ltac rv_unfold :=
  unfold asm_rv32_emit_optimised_load_immediate, load_full_immediate, load_upper_immediate,
    load_lower_immediate, adjust_stack, asm_rv32_emit_optimised_xor, asm_rv32_meta_comparison_le,
    asm_rv32_meta_comparison_lt, asm_rv32_meta_comparison_eq, asm_rv32_meta_comparison_ne;
  autounfold with rv32_opcodes.

Lemma steady_load_upper rd imm : rv_steady 4 (load_upper_immediate rd imm).
Proof using agree_base. rv_unfold. rv_steady_op. Qed.
Lemma steady_load_lower rd imm : rv_steady 4 (load_lower_immediate rd imm).
Proof using agree_base. rv_unfold. rv_steady_op. Qed.
Hint Resolve steady_load_upper steady_load_lower : steady.

Lemma steady_load_full rd imm : rv_steady 8 (load_full_immediate rd imm).
Proof using agree_base. unfold load_full_immediate. rv_steady_op. Qed.
Hint Resolve steady_load_full : steady.

Lemma steady_load_immediate rd imm : rv_steady 8 (asm_rv32_emit_optimised_load_immediate rd imm).
Proof using agree_base.
  unfold asm_rv32_emit_optimised_load_immediate. autounfold with rv32_opcodes. rv_steady_op.
Qed.

Lemma steady_adjust_stack n : rv_steady 10 (adjust_stack n).
Proof using agree_base. unfold adjust_stack. autounfold with rv32_opcodes. rv_steady_op. Qed.
Hint Resolve steady_adjust_stack : steady.

Lemma steady_store_loop n : forall i mask off,
  rv_steady (2 * Z.of_nat n) (registers_store_loop n i mask off).
Proof using agree_base.
  induction n as [|n IH]; intros i mask off; simpl registers_store_loop; [apply steady_ret|].
  destruct (_ =? 0); [eapply steady_le; [|apply IH]; lia|].
  autounfold with rv32_opcodes. eapply steady_then; [apply steady_assert|lia|intros _].
  eapply steady_then; [apply steady_halfword|lia|intros _].
  eapply steady_le; [|apply IH]; lia.
Qed.
Lemma steady_load_loop n : forall i mask off,
  rv_steady (2 * Z.of_nat n) (registers_load_loop n i mask off).
Proof using agree_base.
  induction n as [|n IH]; intros i mask off; simpl registers_load_loop; [apply steady_ret|].
  destruct (_ =? 0); [eapply steady_le; [|apply IH]; lia|].
  autounfold with rv32_opcodes. eapply steady_then; [apply steady_assert|lia|intros _].
  eapply steady_then; [apply steady_halfword|lia|intros _].
  eapply steady_le; [|apply IH]; lia.
Qed.

Lemma steady_registers_store mask : rv_steady 64 (emit_registers_store mask).
Proof using agree_base. apply (steady_store_loop 32). Qed.
Lemma steady_registers_load mask : rv_steady 64 (emit_registers_load mask).
Proof using agree_base. apply (steady_load_loop 32). Qed.
Hint Resolve steady_registers_store steady_registers_load : steady.

Section Config.
Context `{Rv32Config} `{PyMisc}.

Lemma steady_load_offset rd rs offset z :
  rv_steady 16 (asm_rv32_emit_load_reg_reg_offset rd rs offset z).
Proof using agree_base.
  unfold asm_rv32_emit_load_reg_reg_offset. autounfold with rv32_opcodes. cbv zeta. rv_steady_op.
Qed.
Lemma steady_store_offset rd rs offset z :
  rv_steady 16 (asm_rv32_emit_store_reg_reg_offset rd rs offset z).
Proof using agree_base.
  unfold asm_rv32_emit_store_reg_reg_offset. autounfold with rv32_opcodes. cbv zeta. rv_steady_op.
Qed.
Lemma steady_fix_up rs1 rs2 z : rv_steady 8 (asm_rv32_fix_up_scaled_reg_reg_reg rs1 rs2 z).
Proof using agree_base.
  unfold asm_rv32_fix_up_scaled_reg_reg_reg. autounfold with rv32_opcodes. rv_steady_op.
Qed.
Hint Resolve steady_load_offset steady_store_offset steady_fix_up : steady.
Lemma steady_load_reg_reg_reg rd rs1 rs2 z :
  rv_steady 24 (asm_rv32_emit_load_reg_reg_reg rd rs1 rs2 z).
Proof using agree_base. unfold asm_rv32_emit_load_reg_reg_reg. rv_steady_op. Qed.
Lemma steady_store_reg_reg_reg rd rs1 rs2 z :
  rv_steady 24 (asm_rv32_emit_store_reg_reg_reg rd rs1 rs2 z).
Proof using agree_base. unfold asm_rv32_emit_store_reg_reg_reg. rv_steady_op. Qed.

Lemma steady_optimised_xor rd rs : rv_steady 4 (asm_rv32_emit_optimised_xor rd rs).
Proof using agree_base. rv_unfold. rv_steady_op. Qed.
Lemma steady_comparison_eq rs1 rs2 rd : rv_steady 8 (asm_rv32_meta_comparison_eq rs1 rs2 rd).
Proof using agree_base. rv_unfold. rv_steady_op. Qed.
Lemma steady_comparison_ne rs1 rs2 rd : rv_steady 8 (asm_rv32_meta_comparison_ne rs1 rs2 rd).
Proof using agree_base. rv_unfold. rv_steady_op. Qed.
Lemma steady_comparison_lt rs1 rs2 rd u : rv_steady 4 (asm_rv32_meta_comparison_lt rs1 rs2 rd u).
Proof using agree_base. rv_unfold. rv_steady_op. Qed.
Lemma steady_comparison_le rs1 rs2 rd u : rv_steady 8 (asm_rv32_meta_comparison_le rs1 rs2 rd u).
Proof using agree_base. rv_unfold. rv_steady_op. Qed.

Lemma steady_sequence_length mask : rv_steady 0 (compute_zcmp_sequence_length mask).
Proof using agree_base. unfold compute_zcmp_sequence_length. cbv zeta. rv_steady_op. Qed.
End Config.
End Opcodes.
#[export] Hint Resolve steady_word steady_halfword steady_load_upper steady_load_lower
  steady_load_full steady_load_immediate steady_adjust_stack steady_registers_store
  steady_registers_load steady_load_offset steady_store_offset steady_fix_up
  steady_sequence_length : steady.

(** ** Operations that do *)

(** The passes agree on the back end's fields, and the mask is a word. *)
Definition rv32_agree (s s' : asm_rv32_t) : Prop :=
  saved_registers_mask s' = saved_registers_mask s /\ locals_count s' = locals_count s
  /\ stack_size s' = stack_size s /\ locals_stack_offset s' = locals_stack_offset s.

Lemma rv32_agree_base b b' s s' : rv32_agree s s' -> rv32_agree (with_base b s) (with_base b' s').
Proof. done. Qed.
#[export] Hint Resolve rv32_agree_base : steady.

Abbreviation rv_steady := (steady rv32_limit rv32_agree).

Ltac rv32_fields :=
  intros ? ? (E1 & E2 & E3 & E4);
  unfold rv32_agree, id, set_saved_registers_mask, set_locals_count, set_stack_size,
    set_locals_stack_offset; simpl in *;
  rewrite ?E1, ?E2, ?E3, ?E4; done.
Ltac rv32_steady := steady_op_tac rv32_fields.

Section Fields.
Context `{Rv32Config} `{PyMisc}.

Lemma steady_mov_local_reg local rs : rv_steady 10 (asm_rv32_emit_mov_local_reg local rs).
Proof. unfold asm_rv32_emit_mov_local_reg, local_offset. autounfold with rv32_opcodes. rv32_steady. Qed.
Lemma steady_mov_reg_local rd local : rv_steady 10 (asm_rv32_emit_mov_reg_local rd local).
Proof. unfold asm_rv32_emit_mov_reg_local, local_offset. autounfold with rv32_opcodes. rv32_steady. Qed.
Lemma steady_mov_reg_local_addr rd local : rv_steady 10 (asm_rv32_emit_mov_reg_local_addr rd local).
Proof. unfold asm_rv32_emit_mov_reg_local_addr, local_offset. autounfold with rv32_opcodes. rv32_steady. Qed.

Lemma steady_call_ind index : rv_steady 14 (asm_rv32_emit_call_ind index).
Proof.
  unfold asm_rv32_emit_call_ind, taint. cbv zeta. autounfold with rv32_opcodes. rv32_steady.
Qed.

Lemma steady_exit : rv_steady 128 asm_rv32_exit.
Proof.
  unfold asm_rv32_exit, emit_compressed_function_epilogue, emit_function_epilogue. cbv zeta.
  autounfold with rv32_opcodes.
  apply steady_gets; [rv32_fields|]. intros s.
  destruct asm_rv32_allow_zcmp_opcodes; [rv32_steady|].
  eapply (steady_then _ _ 80); [|lia|intros _]; rv32_steady.
Qed.

(** ** Labels *)

Lemma label_offset_at_inv l s a s' : label_offset_at l s = Ok (a, s') ->
  s' = s /\ label_offsets (base s) !! Z.to_nat l = Some a.
Proof.
  unfold label_offset_at. run_cmd. unfold id.
  destruct (label_offsets (base s) !! Z.to_nat l) eqn:E; [|done]. by intros [= <- <-].
Qed.

(** The label's offset: unknown in the compute pass, or the same. *)
Lemma twin_label_offset l : twin rv32_limit rv32_agree rv32_agree 0 (fun _ _ => True)
  (label_offset_at l) (label_offset_at l).
Proof.
  intros T sc se x sc' Hs _ _ E Hf _ _. apply label_offset_at_inv in E as [-> E].
  destruct (sync_future _ _ _ _ _ Hs _ _ E) as (y & Hy & _). exists y, se.
  split; [|split; [done|split; [done|apply kept_refl]]].
  unfold label_offset_at. run_cmd. unfold id.
  pose proof (sync_labels _ _ _ _ _ Hs) as Hl. change (base se) with (base_of se). by rewrite Hl, Hy.
Qed.

(** A short form is chosen in both passes or in neither, and the displacement
    of a short form is the same. *)
Lemma twin_displacement l : twin rv32_limit rv32_agree rv32_agree 0
  (fun x y => x.1 = y.1 /\ (x.1 = true -> x.2 = y.2))
  (calculate_displacement_for_label l) (calculate_displacement_for_label l).
Proof.
  intros T sc se x sc' Hs _ _ E Hf _ _. unfold calculate_displacement_for_label in E.
  apply bind_inv in E as (off & s1 & E & E'). apply label_offset_at_inv in E as [-> E].
  injection E' as <- <-.
  destruct (sync_future _ _ _ _ _ Hs _ _ E) as (y & Hy & Hxy).
  pose proof (sync_labels _ _ _ _ _ Hs) as Hl. pose proof (sync_offset _ _ _ _ _ Hs) as Ho.
  eexists _, se. split.
  { unfold calculate_displacement_for_label, label_offset_at. run_cmd. unfold id.
    change (base se) with (base_of se). rewrite Hl, Hy. reflexivity. }
  split; [|split; [done|apply kept_refl]]. unfold id; cbn [fst snd].
  change (base se) with (base_of se). rewrite Ho. change (base_of sc) with (base sc) in *.
  destruct Hxy as [<- | [-> Hr]]; [done|]. change unassigned with (u32 (-1)). rewrite Z.eqb_refl.
  unfold rv32_limit in Hr.
  pose proof (wf_code_offset _ (sync_wf_compute _ _ _ _ _ Hs)) as Hc. change (base_of sc) with (base sc) in Hc.
  rewrite (sw_small 32 eq_refl (y - _)) by (simpl; lia).
  destruct (Z.ltb_spec (y - code_offset (base sc)) 0); [lia|]. by rewrite andb_false_r.
Qed.

Lemma grows_displacement l : grows rv32_limit 0 (calculate_displacement_for_label l).
Proof.
  apply grows_pure; [done|]. intros s a s'. unfold calculate_displacement_for_label.
  intros (off & s1 & [-> _]%label_offset_at_inv & E)%bind_inv. by injection E.
Qed.
End Fields.

Section LabelOps.
Context `{Rv32Config} `{PyMisc}.
Abbreviation rv_twin := (twin rv32_limit rv32_agree rv32_agree).

(** Words that differ, in the two passes. *)
Lemma twin_word w w' : rv_twin 4 eq (asm_rv32_emit_word_opcode w) (asm_rv32_emit_word_opcode w').
Proof.
  eapply twin_puts; [apply rv32_limit_ok|apply rv32_agree_base|apply emits_word|apply emits_word|
    by rewrite !length_le_bytes|by rewrite length_le_bytes].
Qed.

Definition far_jump (upper lower : Z) : M asm_rv32_t unit :=
  asm_rv32_opcode_auipc REG_TEMP2 (s32 upper);;
  asm_rv32_opcode_jalr ASM_RV32_REG_ZERO REG_TEMP2 (s32 lower).

Lemma steady_far_jump u l : rv_steady 8 (far_jump u l).
Proof. unfold far_jump. autounfold with rv32_opcodes. rv32_steady. Qed.
Lemma twin_far_jump u l u' l' : rv_twin 8 eq (far_jump u l) (far_jump u' l').
Proof.
  unfold far_jump. autounfold with rv32_opcodes.
  apply (twin_bind _ _ rv32_agree _ 4 4 eq); [lia|lia|apply (steady_word rv32_agree rv32_agree_base)|
    intros _; apply (steady_word rv32_agree rv32_agree_base)|apply twin_word|intros; apply twin_word].
Qed.

(** An operation that looks a label up and goes on with the same code when the
    short form is possible, and otherwise with code as long. *)
Lemma steady_displacement n l (k : bool * Z -> M asm_rv32_t unit) : 0 <= n ->
  (forall x, rv_steady n (k x)) ->
  (forall d d', rv_twin n eq (k (false, d)) (k (false, d'))) ->
  rv_steady n (calculate_displacement_for_label l ≫= k).
Proof.
  intros Hn Hk Hfar. replace n with (0 + n) by lia. split.
  - apply grows_bind; [done|apply grows_displacement|]. intros x. apply Hk.
  - eapply twin_bind; [done|done|apply grows_displacement|intros x; apply Hk|apply twin_displacement|].
    intros [short d] [short' d'] [E Ed]. simpl in *. subst short'.
    destruct short; [rewrite <- Ed by done; apply Hk|apply Hfar].
Qed.

Lemma steady_jump l : rv_steady 8 (asm_rv32_emit_jump l).
Proof.
  apply steady_displacement; [done|..].
  - intros [short d]. autounfold with rv32_opcodes. rv32_steady.
  - intros d d'. cbn [andb]. destruct (split_immediate d) as [u lo], (split_immediate d') as [u' lo'].
    apply (twin_far_jump u lo u' lo').
Qed.

Lemma steady_jump_if_reg_eq rs1 rs2 l : rv_steady 12 (asm_rv32_emit_jump_if_reg_eq rs1 rs2 l).
Proof.
  apply steady_displacement; [done|..].
  - intros [short d]. autounfold with rv32_opcodes. cbv zeta. rv32_steady.
  - intros d d'. cbn [andb]. cbv zeta.
    destruct (split_immediate _) as [u lo], (split_immediate _) as [u' lo'].
    apply (twin_bind _ _ rv32_agree _ 4 8 eq); [lia|lia|apply (steady_word rv32_agree rv32_agree_base)|
      intros _; apply (steady_far_jump u lo)|apply twin_word|intros; apply (twin_far_jump u lo u' lo')].
Qed.

Lemma steady_jump_if_reg_nonzero rs l : rv_steady 12 (asm_rv32_emit_jump_if_reg_nonzero rs l).
Proof.
  apply steady_displacement; [done|..].
  - intros [short d]. autounfold with rv32_opcodes.
    destruct (_ && _ && _); [rv32_steady|]. destruct (short && FIT_SIGNED d 13); [rv32_steady|].
    eapply (steady_then _ _ 4); [destruct (_ && _); rv32_steady|lia|intros d'; rv32_steady].
  - intros d d'. cbn [andb].
    set (far := fun x => let '(u, lo) := split_immediate x in far_jump u lo).
    apply (twin_ext _ _ _ _ _ (asm_rv32_opcode_beq rs ASM_RV32_REG_ZERO 12;; far (s32 (d - ASM_WORD_SIZE))) _
      (asm_rv32_opcode_beq rs ASM_RV32_REG_ZERO 12;; far (s32 (d' - ASM_WORD_SIZE)))).
    { intros t. by rewrite bind_assoc. }
    { intros t. by rewrite bind_assoc. }
    unfold far.
    destruct (split_immediate _) as [u lo], (split_immediate _) as [u' lo'].
    apply (twin_bind _ _ rv32_agree _ 4 8 eq); [lia|lia|apply (steady_word rv32_agree rv32_agree_base)|
      intros _; apply (steady_far_jump u lo)|apply twin_word|intros; apply (twin_far_jump u lo u' lo')].
Qed.

Lemma steady_mov_reg_pcrel rd l : rv_steady 8 (asm_rv32_emit_mov_reg_pcrel rd l).
Proof.
  unfold asm_rv32_emit_mov_reg_pcrel.
  set (k := fun (off : Z) (s : asm_rv32_t) =>
    let '(upper, lower) := split_immediate (s32 (off - code_offset (base s))) in
    asm_rv32_opcode_auipc rd (s32 upper);; asm_rv32_opcode_addi rd rd (s32 lower)).
  assert (forall off s, rv_steady 8 (k off s)) as Hk.
  { intros off s. unfold k. autounfold with rv32_opcodes. rv32_steady. }
  assert (forall off off' s s', rv_twin 8 eq (k off s) (k off' s')) as Tk.
  { intros off off' s s'. unfold k.
    destruct (split_immediate _) as [u lo], (split_immediate _) as [u' lo'].
    autounfold with rv32_opcodes.
    apply (twin_bind _ _ rv32_agree _ 4 4 eq); [lia|lia|apply (steady_word rv32_agree rv32_agree_base)|
      intros _; apply (steady_word rv32_agree rv32_agree_base)|apply twin_word|intros; apply twin_word]. }
  assert (forall off, grows rv32_limit 8 (s ← gets id; k off s)) as Gk.
  { intros off. apply grows_gets. intros s. apply Hk. }
  assert (grows rv32_limit 0 (label_offset_at l)) as G0.
  { apply grows_pure; [done|]. intros s a s' E. by apply label_offset_at_inv in E as [-> _]. }
  change 8 with (0 + 8). split; [by apply grows_bind|].
  eapply twin_bind; [done|done|exact G0|exact Gk|apply twin_label_offset|].
  intros off off' _ T sc se. exact (Tk off off' sc se T sc se).
Qed.
End LabelOps.

(** ** Function entry *)

Section Entry.
Context `{Rv32Config} `{PyMisc}.
Abbreviation zcmp := asm_rv32_allow_zcmp_opcodes.

(** What the passes need to agree on before the entry: it sets the rest. *)
Definition rv32_start (s s' : asm_rv32_t) : Prop :=
  saved_registers_mask s' = saved_registers_mask s /\ 0 <= saved_registers_mask s < 2 ^ 32
  /\ (zcmp = true -> locals_stack_offset s' = locals_stack_offset s).

Context (locals : Z) (Hlocals : 0 <= locals < 2 ^ 28).

Definition rv32_start_locals (s s' : asm_rv32_t) : Prop :=
  rv32_start s s' /\ locals_count s = locals /\ locals_count s' = locals.
Definition rv32_start_stack (s s' : asm_rv32_t) : Prop :=
  rv32_start_locals s s' /\ stack_size s' = stack_size s.

Lemma start_locals_base b b' s s' :
  rv32_start_locals s s' -> rv32_start_locals (with_base b s) (with_base b' s').
Proof. done. Qed.
Lemma start_stack_base b b' s s' :
  rv32_start_stack s s' -> rv32_start_stack (with_base b s) (with_base b' s').
Proof. done. Qed.
Hint Resolve start_locals_base start_stack_base : steady.

Lemma lor_word a b : 0 <= a < 2 ^ 32 -> 0 <= b < 2 ^ 32 -> 0 <= a .| b < 2 ^ 32.
Proof.
  intros Ha Hb. assert (a .| b = u32 (a .| b)) as ->; [bitsolve|]. by apply uw_range.
Qed.

Lemma grows_emit_assert c w : grows rv32_limit 0 (EMIT_ASSERT c w).
Proof.
  apply grows_pure; [done|]. intros s a s'. unfold EMIT_ASSERT. run_cmd.
  destruct (if _ =? _ then c else true); [by intros [= <- <-]|done].
Qed.

Lemma grows_compressed_prologue mask :
  grows rv32_limit 12 (emit_compressed_function_prologue mask).
Proof.
  unfold emit_compressed_function_prologue. cbv zeta.
  apply (grows_bind _ 0 12); [done|apply (steady_sequence_length rv32_agree rv32_agree_base)|intros len].
  apply (grows_bind _ 0 12); [done|apply grows_emit_assert|intros _].
  apply grows_gets. intros s.
  apply (grows_bind _ 0 12); [done|apply grows_emit_assert|intros _].
  apply (grows_bind _ 0 12); [done|apply grows_emit_assert|intros _].
  apply (grows_bind _ 2 10); [done| |intros _].
  { autounfold with rv32_opcodes. apply (steady_halfword rv32_agree rv32_agree_base). }
  apply (grows_bind _ 10 0); [done|apply (steady_adjust_stack rv32_agree rv32_agree_base)|intros _].
  by apply grows_modify, off_table_none.
Qed.

Lemma twin_compressed_prologue mask : zcmp = true -> 0 <= mask < 2 ^ 32 ->
  twin rv32_limit rv32_start_locals rv32_agree 12 eq
    (emit_compressed_function_prologue mask) (emit_compressed_function_prologue mask).
Proof using Hlocals.
  intros Hz Hr. destruct (decide (mask <> 0 /\ mask .& u32 (Z.lnot 0x0FFC0302) = 0)) as [[Hne Hm]|Hbad].
  - assert (zcmp_mask mask) as Hmask by done.
    eapply twin_ext_fields.
    { intros s s' (_ & Hs & Hs'). split; by apply (prologue_unfold mask locals). }
    apply (twin_bind _ _ rv32_start_locals _ 12 0 eq); [done|done| | | |].
    + autounfold with rv32_opcodes.
      apply (grows_bind _ 2 10); [done|apply (steady_halfword rv32_agree rv32_agree_base)|intros _].
      apply (steady_adjust_stack rv32_agree rv32_agree_base).
    + intros _. by apply grows_modify, off_table_none.
    + autounfold with rv32_opcodes.
      apply (steady_bind rv32_limit _ 2 10); [done|done|by apply steady_halfword, start_locals_base|intros _].
      by apply steady_adjust_stack, start_locals_base.
    + intros [] [] _. apply twin_modify; [by apply off_table_none|]. intros s s' ((Em & _ & El) & E1 & E2).
      repeat split; simpl; [done|congruence|auto].
  - apply twin_rejected. intros s s' _. exists (Assertion "Invalid Zcmp registers set.").
    unfold emit_compressed_function_prologue, compute_zcmp_sequence_length.
    rewrite bind_assoc. apply bind_Fault. cbv beta.
    destruct (Z.eqb_spec mask 0) as [|Hne]; [done|].
    destruct (Z.eqb_spec (mask .& u32 (Z.lnot 0x0FFC0302)) 0); [|done]. exfalso. by apply Hbad.
Qed.

Lemma grows_function_prologue mask : grows rv32_limit 74 (emit_function_prologue mask).
Proof.
  unfold emit_function_prologue. cbv zeta.
  apply (grows_bind _ 0 74); [done|by apply grows_modify, off_table_none|intros _].
  apply grows_gets. intros s. apply grows_gets. intros s0.
  apply (grows_bind _ 10 64); [done|apply (steady_adjust_stack rv32_agree rv32_agree_base)|intros _].
  apply (grows_bind _ 64 0); [done|apply (steady_registers_store rv32_agree rv32_agree_base)|intros _].
  apply (grows_bind _ 0 0); [done|by apply grows_modify, off_table_none|intros _]. by apply grows_modify, off_table_none.
Qed.

Lemma twin_function_prologue mask :
  twin rv32_limit rv32_start_locals rv32_agree 74 eq
    (emit_function_prologue mask) (emit_function_prologue mask).
Proof.
  unfold emit_function_prologue. cbv zeta.
  apply (twin_bind _ _ rv32_start_stack _ 0 74 eq); [done|done|by apply grows_modify, off_table_none| | |].
  { intros _. apply (grows_bind _ 0 74); [done|apply grows_pure; [done|]; by intros ??? [= <- <-]|].
    intros m. apply grows_gets. intros s0.
    apply (grows_bind _ 10 64); [done|apply (steady_adjust_stack rv32_agree rv32_agree_base)|intros _].
    apply (grows_bind _ 64 0); [done|apply (steady_registers_store rv32_agree rv32_agree_base)|intros _].
    apply (grows_bind _ 0 0); [done|by apply grows_modify, off_table_none|intros _]. by apply grows_modify, off_table_none. }
  { apply twin_modify; [by apply off_table_none|]. intros s s' (E & E1 & E2). split; [done|]. simpl. by rewrite E1, E2. }
  intros [] [] _. apply twin_gets. intros s s' (((Em & _) & _) & _). rewrite Em.
  apply twin_gets. intros s1 s1' (_ & Es). rewrite Es.
  apply (twin_bind _ _ rv32_start_stack _ 10 64 eq); [done|done|apply (steady_adjust_stack rv32_agree rv32_agree_base)| | |].
  { intros _. apply (grows_bind _ 64 0); [done|apply (steady_registers_store rv32_agree rv32_agree_base)|intros _].
    apply (grows_bind _ 0 0); [done|by apply grows_modify, off_table_none|intros _]. by apply grows_modify, off_table_none. }
  { by apply steady_adjust_stack, start_stack_base. }
  intros [] [] _.
  apply (twin_bind _ _ rv32_start_stack _ 64 0 eq); [done|done|apply (steady_registers_store rv32_agree rv32_agree_base)| | |].
  { intros _. apply (grows_bind _ 0 0); [done|by apply grows_modify, off_table_none|intros _]. by apply grows_modify, off_table_none. }
  { by apply steady_registers_store, start_stack_base. }
  intros [] [] _. apply (twin_bind _ _ rv32_agree _ 0 0 eq); [done|done|by apply grows_modify, off_table_none| | |].
  { intros _. by apply grows_modify, off_table_none. }
  { apply twin_modify; [by apply off_table_none|]. intros s2 s2' (((Em2 & _) & E1 & E2) & Es2).
    repeat split; simpl; [done|congruence|done]. }
  intros [] [] _. apply twin_modify; [by apply off_table_none|]. intros s2 s2' (Em2 & E1 & E2 & E3). by repeat split.
Qed.

Lemma grows_entry : grows rv32_limit 74 (asm_rv32_entry locals).
Proof.
  unfold asm_rv32_entry.
  apply (grows_bind _ 0 74); [done|by apply grows_modify, off_table_none|intros _].
  apply (grows_bind _ 0 74); [done|by apply grows_modify, off_table_none|intros _].
  apply grows_gets. intros s. destruct zcmp; [|apply grows_function_prologue].
  eapply grows_le; [|apply grows_compressed_prologue]. done.
Qed.

Lemma twin_entry : twin rv32_limit rv32_start rv32_agree 74 eq
  (asm_rv32_entry locals) (asm_rv32_entry locals).
Proof using Hlocals.
  unfold asm_rv32_entry.
  apply (twin_bind _ _ rv32_start_locals _ 0 74 eq); [done|done|by apply grows_modify, off_table_none| | |].
  { intros _. apply (grows_bind _ 0 74); [done|by apply grows_modify, off_table_none|intros _].
    apply grows_gets. intros s. destruct zcmp; [|apply grows_function_prologue].
    eapply grows_le; [|apply grows_compressed_prologue]. done. }
  { apply twin_modify; [by apply off_table_none|]. intros s s' E. split; [exact E|done]. }
  intros [] [] _.
  apply (twin_bind _ _ rv32_start_locals _ 0 74 eq); [done|done|by apply grows_modify, off_table_none| | |].
  { intros _. apply grows_gets. intros s. destruct zcmp; [|apply grows_function_prologue].
    eapply grows_le; [|apply grows_compressed_prologue]. done. }
  { apply twin_modify; [by apply off_table_none|]. intros s s' ((Em & Er & El) & E). split; [|exact E].
    split; [|split]; simpl; [by rewrite Em|by apply lor_word|exact El]. }
  intros [] [] _. apply twin_gets. intros s s' ((Em & Er & _) & _). rewrite Em.
  destruct zcmp eqn:Ez; [|apply twin_function_prologue].
  eapply twin_le; [|by apply twin_compressed_prologue]. done.
Qed.
End Entry.
