(* ===== verification/AsmRv32Spec.v ===== *)
(** * AsmRv32Spec: what asmrv32.c promises the native emitter

    The contract of a function's frame, entry and exit being either of the two
    sequences the port selects, and the closed theorems of the RV32 back end
    with concrete instances of them. *)

From S2P Require Import Prelude AsmBase Machine Rv32Isa Emission PyMisc.
From S2P Require Import AsmRv32Opcodes AsmRv32Decode AsmRv32 AsmRv32Imm AsmRv32Jump AsmRv32Mem AsmRv32Frame AsmRv32Zcmp.

Set Default Goal Selector "!".

#[local] Existing Instance SizeT_32.

(** ** The frame's contract *)

(** The frame is [frame] bytes below the caller's stack pointer; the body may
    write the locals, [4 * locals] bytes at [lo], and nothing else of it. *)
Definition body_keeps_frame (frame lo locals : Z) (m1 mb : machine) : Prop :=
  u32 (rget 2 mb) = u32 (rget 2 m1)
  /\ forall o, 0 <= o < frame -> o < lo \/ lo + 4 * locals <= o ->
       peek 32 (mem mb) (rget 2 m1 + o) = peek 32 (mem m1) (rget 2 m1 + o).

Lemma body_keeps_word frame lo locals m1 mb o : body_keeps_frame frame lo locals m1 mb ->
  0 <= o -> o + 4 <= frame -> o + 4 <= lo \/ lo + 4 * locals <= o ->
  load 32 4 (mem mb) (rget 2 m1 + o) = load 32 4 (mem m1) (rget 2 m1 + o).
Proof.
  intros [_ Hk] H0 Hf Ho. apply load_ext. intros i Hi.
  rewrite <- Z.add_assoc. apply Hk; lia.
Qed.

(** The registers entry always saves. *)
Definition entry_mask (s : asm_rv32_t) : Z :=
  saved_registers_mask s .| ((1 << REG_FUN_TABLE) .| (1 << REG_LOCAL_1)
    .| (1 << REG_LOCAL_2) .| (1 << REG_LOCAL_3)).

Section FrameContract.
Context `{Rv32Config} `{PyMisc} (s : asm_rv32_t) (locals : Z).
Abbreviation mask := (entry_mask s).
Abbreviation zcmp := asm_rv32_allow_zcmp_opcodes.

(** The masks either sequence is for, and how many locals there may be. *)
Definition frame_ok : Prop :=
  (if zcmp then zcmp_mask mask /\ locals_stack_offset s = 0 else frame_mask mask)
  /\ 0 <= locals < 2 ^ 28.

(** The state after entry, and the size of the frame. *)
Definition after_entry : asm_rv32_t :=
  let s1 := set_saved_registers_mask mask (set_locals_count locals s) in
  if zcmp then set_stack_size (zcmp_stack_size mask locals) s1
  else framed (mask_regs mask) s1.
Definition frame_size : Z :=
  if zcmp then push_bytes mask locals + extra_bytes mask locals
  else frame_bytes (mask_regs mask) (set_locals_count locals s).
(** The registers the frame saves. *)
Definition saved_set : list Z := if zcmp then zcmp_regs mask else mask_regs mask.

(** What running the entry and the exit code does. *)
Definition enters (n : Z) (mc m1 : machine) : Prop :=
  if zcmp then zcmp_post mask locals n mc m1
  else prologue_post (mask_regs mask) (set_locals_count locals s) n mc m1.
Definition leaves (mb m2 : machine) : Prop :=
  if zcmp then zcmp_restored mask locals mb m2
  else exit_post (mask_regs mask) after_entry mb m2.

Lemma entry_enters : frame_ok ->
  implements_to s after_entry (asm_rv32_entry locals) enters.
Proof using.
  unfold frame_ok, after_entry, enters. intros [Hm Hl]. destruct zcmp eqn:Ez.
  - destruct Hm as [Hm _].
    eapply implements_to_ext; [| |apply (compressed_prologue_implements mask locals Hm Hl
      (set_saved_registers_mask mask (set_locals_count locals s)) eq_refl)]; [done|].
    unfold asm_rv32_entry. run_cmd. by rewrite Ez.
  - apply (entry_implements mask Hm (mask_regs mask) eq_refl s locals Ez eq_refl).
Qed.

Lemma exit_leaves s2 : frame_ok -> saved_registers_mask s2 = mask ->
  stack_size s2 = stack_size after_entry ->
  implements s2 asm_rv32_exit (fun _ => leaves).
Proof using.
  unfold frame_ok, leaves, after_entry. intros [Hm Hl] Hs Hsz. destruct zcmp eqn:Ez.
  - eapply implements_ext; [|eapply compressed_epilogue_implements; [apply Hm|exact Hl|exact Hsz]].
    unfold asm_rv32_exit. run_cmd. by rewrite Ez, Hs.
  - pose proof (exit_implements mask Hm (mask_regs mask) eq_refl s2 Ez Hs) as Hx.
    eapply implements_mono; [exact Hx|]. intros _ mc mc' [Hr ?].
    split; [|done]. unfold restored. rewrite <- Hsz. exact Hr.
Qed.

(** What is restored, for saved registers [rs]. *)
Definition comes_back (rs : list Z) (mc mb m2 : machine) : Prop :=
  (forall r, r ∈ rs -> rget r m2 = u32 (rget r mc))
  /\ u32 (rget 2 m2) = u32 (rget 2 mc)
  /\ (1 ∈ rs \/ rget 1 mb = rget 1 mc -> (2 | rget 1 mc) -> pc m2 = u32 (rget 1 mc)).

Lemma zcmp_frame_restored n mc m1 mb m2 :
  zcmp_mask mask -> 0 <= locals < 2 ^ 28 -> zcmp_post mask locals n mc m1 ->
  body_keeps_frame (push_bytes mask locals + extra_bytes mask locals) 0 locals m1 mb ->
  zcmp_restored mask locals mb m2 -> comes_back (zcmp_regs mask) mc mb m2.
Proof using.
  intros Hm Hl Hen Hb Hlv.
  destruct (zcmp_roundtrip mask locals Hm n mc m1 mb m2 Hen (proj1 Hb)) as (? & ? & ?);
    [|exact Hlv|done].
  intros i Hi. destruct Hen as (_ & Hsp & _).
  pose proof (locals_fit mask locals Hm Hl) as Hfit.
  destruct (sequence_length_range mask Hm) as (Hlen & _ & _ & Hlen').
  pose proof (extra_bytes_bounds mask locals Hm Hl) as [He _].
  pose proof (chunks_bounds mask locals Hm Hl) as [Hc _].
  pose proof (allocated_bounds mask Hm) as Ha.
  assert (forall h, load 32 4 h (rget 2 mc - 4 - 4 * Z.of_nat i) = load 32 4 h (rget 2 m1
    + (push_bytes mask locals + extra_bytes mask locals - 4 - 4 * Z.of_nat i))) as Ea.
  { intros h. apply load_cong; [lia|]. rewrite <- (uw_add_l 32 eq_refl (rget 2 m1)), Hsp.
    rewrite uw_add_l by lia. f_equal. lia. }
  rewrite !Ea. eapply body_keeps_word; [exact Hb|lia|lia|right; lia].
Qed.

Lemma plain_frame_restored rs (Hrs : mask_regs mask = rs) t n mc m1 mb m2 :
  frame_mask mask -> 0 <= locals < 2 ^ 28 -> locals_count t = locals ->
  prologue_post rs t n mc m1 ->
  body_keeps_frame (frame_bytes rs t) (saved_bytes rs) locals m1 mb ->
  forall t', stack_size t' = frame_bytes rs t ->
  exit_post rs t' mb m2 -> comes_back rs mc mb m2.
Proof using.
  intros Hm Hl Ht Hen Hb t' Hsz Hlv.
  destruct (frame_roundtrip mask Hm rs Hrs t n mc m1 mb m2 Hen (proj1 Hb)) with (s' := t')
    as (Hr & Hsp & Hpc); [|exact Hsz|exact Hlv|].
  - intros i Hi. eapply body_keeps_word; [exact Hb|lia| |left; unfold saved_bytes; lia].
    pose proof (saved_bytes_range mask rs Hrs).
    unfold frame_bytes, saved_bytes in *. rewrite Ht, uw_small by lia. lia.
  - split; [exact Hr|]. split; [exact Hsp|]. intros Hra Heven. rewrite Hpc.
    destruct (decide _) as [|Hn].
    + apply clear_bit0. apply (uw_divide 32 1); [lia|done].
    + destruct Hra as [|E]; [done|]. rewrite E. apply clear_bit0.
      apply (uw_divide 32 1); [lia|done].
Qed.

Lemma frame_restored : frame_ok -> forall n mc m1 mb m2,
  enters n mc m1 -> body_keeps_frame frame_size (locals_stack_offset after_entry) locals m1 mb ->
  leaves mb m2 -> comes_back saved_set mc mb m2.
Proof using.
  intros [Hm Hl] n mc m1 mb m2 Hen Hb Hlv.
  unfold enters in Hen. unfold leaves in Hlv. unfold frame_size in Hb. unfold saved_set.
  assert (locals_stack_offset after_entry = if zcmp then locals_stack_offset s else saved_bytes (mask_regs mask))
    as El by (unfold after_entry; by destruct zcmp).
  assert (zcmp = false -> stack_size after_entry = frame_bytes (mask_regs mask) (set_locals_count locals s))
    as Es by (unfold after_entry; by intros ->).
  rewrite El in Hb. clear El. revert Hlv Es. generalize after_entry. intros t Hlv Es.
  revert Hm Hen Hb Hlv Es. generalize (eq_refl (mask_regs mask)). generalize (mask_regs mask) at 2 3 4 5 6 7 8 as rs.
  intros rs Hrs. destruct zcmp; intros Hm Hen Hb Hlv Es.
  - destruct Hm as [Hm Hlo]. rewrite Hlo in Hb. by eapply zcmp_frame_restored.
  - exact (plain_frame_restored rs Hrs (set_locals_count locals s) n mc m1 mb m2 Hm Hl eq_refl Hen Hb t (Es eq_refl) Hlv).
Qed.

Lemma entry_keeps n mc m1 : enters n mc m1 ->
  falls n mc m1 /\ u32 (rget 2 m1) = u32 (rget 2 mc - frame_size)
  /\ forall r, r <> 2 -> r <> REG_TEMP0 -> rget r m1 = rget r mc.
Proof using.
  unfold enters, frame_size. by destruct zcmp; intros (? & ? & ? & _).
Qed.
End FrameContract.

(** ** Concrete instances *)

(** [memset]-clean states, as the emitter allocates them. *)
Definition asm_rv32_new (b : mp_asm_base_t) : asm_rv32_t := mk_asm_rv32 b 0 0 0 0.
(** A state with three labels assigned at 0, 100 and 2^20. *)
Definition example_base : mp_asm_base_t :=
  mk_asm_base MP_ASM_PASS_COMPUTE false 40 0 0 [] 3 [0; 100; 2 ^ 20].
Definition example_rv32 : asm_rv32_t := asm_rv32_new example_base.

Definition rv32_plain : Rv32Config :=
  {| MICROPY_EMIT_RV32_ZBA := false; MICROPY_EMIT_RV32_ZCMP := false; backend_options := None |}.
Definition rv32_zba_zcmp : Rv32Config :=
  {| MICROPY_EMIT_RV32_ZBA := true; MICROPY_EMIT_RV32_ZCMP := true; backend_options := None |}.

(** ** Where the code does not do what it means to *)

(** The CA format keeps two of the three bits of its registers, so that
    C.AND, C.OR, C.SUB and C.XOR on x12 to x15 act on x8 to x11. *)
Lemma rv32_ca_registers s rd rs : reg3 rd -> reg3 rs ->
  assembles s (asm_rv32_opcode_cand rd rs) [(R AND (8 + uw 2 rd) (8 + uw 2 rd) (8 + uw 2 rs), 2)]
  /\ assembles s (asm_rv32_opcode_cor rd rs) [(R OR (8 + uw 2 rd) (8 + uw 2 rd) (8 + uw 2 rs), 2)]
  /\ assembles s (asm_rv32_opcode_csub rd rs) [(R SUB (8 + uw 2 rd) (8 + uw 2 rd) (8 + uw 2 rs), 2)]
  /\ assembles s (asm_rv32_opcode_cxor rd rs) [(R XOR (8 + uw 2 rd) (8 + uw 2 rd) (8 + uw 2 rs), 2)].
Proof.
  unfold reg3. intros.
  split; [|split; [|split]]; autounfold with rv32_opcodes; decode_halfword.
Qed.

(** A load beyond 12 bits whose destination is its base: the upper part
    of the offset replaces the base before it is added, so the address read is
    twice that part plus the lower one, whatever the base holds. *)
Lemma rv32_load_base_lost `{PyMisc} s rd offset z upper lower :
  0 <= z <= 2 -> reg5 rd -> rd <> 0 -> rd <> 2 -> ~ simm 12 (scaled offset z) ->
  split_immediate (scaled offset z) = (upper, lower) ->
  implements s (asm_rv32_emit_load_reg_reg_offset rd rd offset z) (fun n mc mc' =>
    falls n mc mc' /\
    sets rd (fun mc => load 32 (size_bytes z) (mem mc) (2 * upper + sw 12 lower)) mc mc').
Proof.
  intros Hz Hrd H0' H2 Hfar Hs. unfold asm_rv32_emit_load_reg_reg_offset.
  eapply implements_ext; [apply assert_true, leb_true; lia|]. cbv zeta. fold (scaled offset z).
  destruct (_ && _) eqn:E1; [|destruct (MP_FIT_SIGNED 12 (scaled offset z)) eqn:E2].
  - apply compressed_access in E1 as (_ & _ & _ & _ & _ & ? & _). exfalso. apply Hfar.
    unfold simm. simpl. lia.
  - by apply simm12_scaled in E2.
  - rewrite Hs. apply split_immediate_spec in Hs as (? & ? & Hl & Hsum).
    destruct (upper_add_assembles s rd rd upper) with
      (m := asm_rv32_emit_word_opcode (RV32_ENCODE_TYPE_I 0x03 (rv32_load_opcode z) rd rd lower))
      (js := [(LOAD (size_lop z) rd rd (sw 12 lower), 4)]) as [len Hlen]; try done.
    { intros t. rewrite TYPE_I_low. apply load_word_assembles; [done..|]. by apply simm_sw. }
    eapply assembles_implements; [exact Hlen|]. intros mc Hw. eexists. rv_exec.
    split; [done|]. split; [solve_falls|].
    apply sets_rset; [done|]. autorewrite with machine. rewrite load_val_unsigned by done.
    f_equal. apply load_cong; [lia|]. set (l := sw 12 lower) in *. clearbody l.
    clear - Hsum. word_lia.
Qed.

(** ** The theorems *)

(** C4: the frame of a native function, with CM.PUSH and CM.POPRET or without.
    Entry and exit emit code (from the states the emitter calls them in) such
    that, for a body that keeps the stack pointer and the frame outside the
    locals' area, exit returns to the caller's RA with the stack pointer and
    every saved register as they were; and entry changes only the stack
    pointer, the frame and the first temporary. *)
Theorem rv32_function_frame `{Rv32Config} `{PyMisc} s locals : frame_ok s locals ->
  implements_to s (after_entry s locals) (asm_rv32_entry locals) (enters s locals)
  /\ (forall s2, saved_registers_mask s2 = entry_mask s ->
        stack_size s2 = stack_size (after_entry s locals) ->
        implements s2 asm_rv32_exit (fun _ => leaves s locals))
  /\ (forall n mc m1, enters s locals n mc m1 -> falls n mc m1
        /\ u32 (rget 2 m1) = u32 (rget 2 mc - frame_size s locals)
        /\ forall r, r <> 2 -> r <> REG_TEMP0 -> rget r m1 = rget r mc)
  /\ (forall n mc m1 mb m2, enters s locals n mc m1 ->
        body_keeps_frame (frame_size s locals)
          (locals_stack_offset (after_entry s locals)) locals m1 mb ->
        leaves s locals mb m2 ->
        (forall r, r ∈ saved_set s -> rget r m2 = u32 (rget r mc))
        /\ u32 (rget 2 m2) = u32 (rget 2 mc)
        /\ (1 ∈ saved_set s \/ rget 1 mb = rget 1 mc -> (2 | rget 1 mc) ->
            pc m2 = u32 (rget 1 mc))).
Proof.
  intros Hok. split; [by apply entry_enters|]. split; [intros s2 ? ?; by apply exit_leaves|].
  split; [intros n mc m1; apply entry_keeps|]. intros n mc m1 mb m2. by apply frame_restored.
Qed.

Lemma rv32_function_frame_witness :
  (exists P, implements_to (H0 := Rv32) example_rv32 (after_entry (H := rv32_plain) example_rv32 7)
     (asm_rv32_entry (H := rv32_plain) (H0 := py_misc) 7) P)
  /\ (exists P, implements_to (H0 := Rv32) example_rv32 (after_entry (H := rv32_zba_zcmp) example_rv32 7)
     (asm_rv32_entry (H := rv32_zba_zcmp) (H0 := py_misc) 7) P).
Proof.
  split; eexists.
  - apply (rv32_function_frame (H := rv32_plain) (H0 := py_misc) example_rv32 7).
    split; [split; [split; vm_compute; congruence|repeat split]|split; [lia|reflexivity]].
  - apply (rv32_function_frame (H := rv32_zba_zcmp) (H0 := py_misc) example_rv32 7).
    split; [split; [split; [vm_compute; congruence|split; [reflexivity|split; vm_compute; congruence]]|reflexivity]
           |split; [lia|reflexivity]].
Defined.

Lemma call_tainted_ra s index : Z.testbit (saved_registers_mask (call_tainted s index)) 1 = true.
Proof.
  assert (forall m, Z.testbit (m .| (1 << ASM_RV32_REG_RA)) 1 = true) as E.
  { intros m. rewrite Z.lor_spec. by rewrite orb_true_r. }
  unfold call_tainted. destruct (FIT_UNSIGNED _ 6); cbn [saved_registers_mask set_saved_registers_mask]; [|apply E].
  by rewrite Z.lor_spec, E.
Qed.

(** C5: jumps, comparisons, calls and the addresses of labels.  Running the code
    of a jump transfers control to its address plus the distance between the
    label's offset and the current one when the condition holds, and falls
    through otherwise; only the temporary changes.  All encodings are covered,
    short and long.  The comparisons leave 0 or 1 in the destination, the truth
    value of the signed or unsigned comparison, even when it is one of the
    operands.  A call through the function table loads the entry's word, leaves
    the return address in RA and jumps there; RA, and the temporary the short
    form uses, are marked as registers the frame must save.  The address of a
    label is that of the emitted code plus the distance between the offsets. *)
Theorem rv32_jumps s :
  (forall label, has_label s label -> (2 | displacement s label) ->
     implements s (asm_rv32_emit_jump label) (jumps_if s label (fun _ => true))
     /\ (forall rs1 rs2, reg5 rs1 -> reg5 rs2 ->
           implements s (asm_rv32_emit_jump_if_reg_eq rs1 rs2 label)
             (jumps_if s label (fun mc => rget rs1 mc =? rget rs2 mc)))
     /\ (forall rs, reg5 rs ->
           implements s (asm_rv32_emit_jump_if_reg_nonzero rs label)
             (jumps_if s label (fun mc => negb (rget rs mc =? 0)))))
  /\ (forall rs1 rs2 rd, reg5 rs1 -> reg5 rs2 -> reg5 rd /\ rd <> 0 ->
     implements s (asm_rv32_meta_comparison_eq rs1 rs2 rd) (decides rd (fun mc => rget rs1 mc =? rget rs2 mc))
     /\ implements s (asm_rv32_meta_comparison_ne rs1 rs2 rd) (decides rd (fun mc => negb (rget rs1 mc =? rget rs2 mc)))
     /\ (forall u, implements s (asm_rv32_meta_comparison_lt rs1 rs2 rd u) (decides rd (fun mc => less u (rget rs1 mc) (rget rs2 mc))))
     /\ (forall u, implements s (asm_rv32_meta_comparison_le rs1 rs2 rd u) (decides rd (fun mc => negb (less u (rget rs2 mc) (rget rs1 mc))))))
  /\ (forall index, implements_to s (call_tainted s index) (asm_rv32_emit_call_ind index) (calls index)
     /\ Z.testbit (saved_registers_mask (call_tainted s index)) 1 = true)
  /\ (forall rd label, reg5 rd -> rd <> 0 -> has_label s label ->
     implements s (asm_rv32_emit_mov_reg_pcrel rd label) (fun n mc mc' =>
       falls n mc mc' /\ sets rd (fun mc => pc mc + displacement s label) mc mc')).
Proof.
  split; [|split; [|split]].
  - intros label Hl Hd. split; [by apply jump_implements|]. split; intros; [by apply jump_if_reg_eq_implements|by apply jump_if_reg_nonzero_implements].
  - intros. split; [by apply comparison_eq_decides|]. split; [by apply comparison_ne_decides|].
    split; intros; [by apply comparison_lt_decides | by apply comparison_le_decides].
  - intros index. split; [apply call_ind_implements|]. by apply call_tainted_ra.
  - intros; by apply mov_reg_pcrel_implements.
Qed.

Lemma rv32_jumps_witness :
  implements (H0 := Rv32) example_rv32 (asm_rv32_emit_jump 2) (jumps_if example_rv32 2 (fun _ => true))
  /\ exists P, implements (H0 := Rv32) example_rv32 (asm_rv32_meta_comparison_le 10 11 10 true) P.
Proof.
  destruct (rv32_jumps example_rv32) as (Hj & Hc & _). split.
  - by apply Hj; [by eexists|by exists ((2 ^ 20 - 40) / 2)].
  - eexists. apply (Hc 10 11 10); by repeat split.
Defined.

(** C6: loads and stores of bytes, halfwords and words: [rd := *(rs + (offset << z))]
    and [*(rs + (offset << z)) := rd], whichever encoding is chosen, and with a
    register for the offset, with Zba's scaled additions or with a shift, where
    only the destination and the temporary change.  An offset beyond 12 bits
    needs a destination that is not the base: of one that is, the address read
    does not depend on the base.  A local is the word at
    [locals_stack_offset + 4 * local] above the stack pointer: it is stored,
    loaded and its address taken, for every offset.  A constant is loaded
    exactly, and nothing else changes, whichever of C.LI, ADDI and LUI/ADDI is
    chosen. *)
Theorem rv32_loads_stores `{Rv32Config} `{PyMisc} s rd rs z :
  0 <= z <= 2 -> reg5 rd -> reg5 rs ->
  (forall offset, rd <> 0 -> rd <> 2 -> simm 12 (scaled offset z) \/ rd <> rs /\ rs <> 0 ->
   implements s (asm_rv32_emit_load_reg_reg_offset rd rs offset z) (fun n mc mc' =>
     falls n mc mc' /\
     sets rd (fun mc => load 32 (size_bytes z) (mem mc) (rget rs mc + scaled offset z)) mc mc'))
  /\ (forall offset, rd <> REG_TEMP2 -> simm 12 (scaled offset z) \/ rs <> REG_TEMP2 /\ rs <> 0 ->
   implements s (asm_rv32_emit_store_reg_reg_offset rd rs offset z) (fun n mc mc' =>
     falls n mc mc' /\
     stores (size_bytes z) (fun mc => rget rs mc + scaled offset z) (rget rd) mc mc'))
  /\ (forall offset upper lower, rd <> 0 -> rd <> 2 -> ~ simm 12 (scaled offset z) ->
   split_immediate (scaled offset z) = (upper, lower) ->
   implements s (asm_rv32_emit_load_reg_reg_offset rd rd offset z) (fun n mc mc' =>
     falls n mc mc' /\
     sets rd (fun mc => load 32 (size_bytes z) (mem mc) (2 * upper + sw 12 lower)) mc mc'))
  /\ (forall rs2, reg5 rs2 -> rs <> 0 -> rs <> REG_TEMP2 -> rd <> 0 -> rd <> 2 ->
   implements s (asm_rv32_emit_load_reg_reg_reg rd rs rs2 z) (fun n mc mc' =>
     falls n mc mc'
     /\ rget rd mc' = u32 (load 32 (size_bytes z) (mem mc) (rget rs mc + (rget rs2 mc << z)))
     /\ keeps [rd; REG_TEMP2] mc mc'))
  /\ (forall rs2, reg5 rs2 -> rs <> 0 -> rs <> REG_TEMP2 -> rd <> REG_TEMP2 ->
   implements s (asm_rv32_emit_store_reg_reg_reg rd rs rs2 z) (fun n mc mc' =>
     falls n mc mc'
     /\ stores (size_bytes z) (fun mc => rget rs mc + (rget rs2 mc << z)) (rget rd) mc mc'))
  /\ (forall local, (4 | local_off s local) -> rd <> 0 -> rd <> 2 -> rd <> REG_TEMP2 ->
   implements s (asm_rv32_emit_mov_local_reg local rd) (fun n mc mc' =>
     falls n mc mc' /\ stores 4 (fun mc => rget 2 mc + local_off s local) (rget rd) mc mc')
   /\ implements s (asm_rv32_emit_mov_reg_local rd local) (fun n mc mc' =>
     falls n mc mc' /\ sets rd (fun mc => load 32 4 (mem mc) (rget 2 mc + local_off s local)) mc mc')
   /\ implements s (asm_rv32_emit_mov_reg_local_addr rd local) (fun n mc mc' =>
     falls n mc mc' /\ sets rd (fun mc => rget 2 mc + local_off s local) mc mc'))
  /\ (forall imm, rd <> 0 -> rd <> 2 -> simm 32 imm ->
   performs s (asm_rv32_emit_optimised_load_immediate rd imm) (rset rd imm)).
Proof.
  intros. split; [|split; [|split; [|split; [|split; [|split]]]]]; intros.
  - by apply load_reg_reg_offset_implements.
  - by apply store_reg_reg_offset_implements.
  - by apply rv32_load_base_lost.
  - by apply load_reg_reg_reg_implements.
  - by apply store_reg_reg_reg_implements.
  - split; [by apply mov_local_reg_implements|split; [by apply mov_reg_local_implements|by apply mov_reg_local_addr_implements]].
  - by apply load_immediate_performs.
Qed.

Lemma rv32_loads_stores_witness :
  (exists P, implements (H0 := Rv32) example_rv32 (asm_rv32_emit_load_reg_reg_offset (H0 := py_misc) 10 11 5000 2) P)
  /\ (exists P, implements (H0 := Rv32) example_rv32 (asm_rv32_emit_load_reg_reg_offset (H0 := py_misc) 10 10 5000 2) P)
  /\ (exists P, implements (H0 := Rv32) example_rv32 (asm_rv32_emit_store_reg_reg_reg (H := rv32_zba_zcmp) (H0 := py_misc) 10 11 12 2) P)
  /\ (exists P, implements (H0 := Rv32) example_rv32 (asm_rv32_emit_mov_local_reg 1000 10) P)
  /\ performs (H0 := Rv32) example_rv32 (asm_rv32_emit_optimised_load_immediate 10 0x12345FFF) (rset 10 0x12345FFF).
Proof.
  destruct (rv32_loads_stores (H := rv32_zba_zcmp) (H0 := py_misc) example_rv32 10 11 2) as (Hl & _ & Hb & _ & Hi & Hlocal & Hc);
    [lia|by split..|].
  split; [eexists; apply Hl; first [done | by right]|]. split.
  - eexists. apply (Hb 5000 0x5000 (20000 - 0x5000 + 0x1000)); first [done | reflexivity | idtac].
    unfold simm. change (scaled 5000 2) with 20000. simpl. lia.
  - split; [eexists; by apply Hi|]. split; [eexists; apply (Hlocal 1000); [by exists 1000|done..]|]. apply Hc; [done..|by split].
Defined.

(** C40: every opcode function of asmrv32.h writes the encoding of the
    instruction it is named after: the instruction set's decoder reads it
    back, operands and length included.  The CA format is the exception: it
    keeps two of the three bits of its registers, so that C.AND, C.OR, C.SUB
    and C.XOR on x12 to x15 act on x8 to x11. *)
Theorem rv32_opcodes_roundtrip s :
  (forall i, encodable i -> assembles s (emit_instr i) [(i, instr_len i)])
  /\ (forall c, encodable_rvc c -> assembles s (emit_rvc c) [(expand c, 2)])
  /\ (forall rd rs, reg3 rd -> reg3 rs ->
     assembles s (asm_rv32_opcode_cand rd rs) [(R AND (8 + uw 2 rd) (8 + uw 2 rd) (8 + uw 2 rs), 2)]
     /\ assembles s (asm_rv32_opcode_cor rd rs) [(R OR (8 + uw 2 rd) (8 + uw 2 rd) (8 + uw 2 rs), 2)]
     /\ assembles s (asm_rv32_opcode_csub rd rs) [(R SUB (8 + uw 2 rd) (8 + uw 2 rd) (8 + uw 2 rs), 2)]
     /\ assembles s (asm_rv32_opcode_cxor rd rs) [(R XOR (8 + uw 2 rd) (8 + uw 2 rd) (8 + uw 2 rs), 2)]).
Proof.
  split; [|split]; intros; [by apply opcodes_decode|by apply rvc_opcodes_decode|by apply rv32_ca_registers].
Qed.
