(* ===== verification/AsmRv32Program.v ===== *)
(** * AsmRv32Program: whole functions of the RV32 back end

    A function is its entry followed by operations; the native emitter runs it
    three times, two compute passes and the emit pass.  The second compute
    pass starts with every register the function ever saves in the mask, so
    the emit pass repeats it. *)

From S2P Require Import Prelude AsmBase Machine Rv32Isa Emission TwoPass Program PyMisc.
From S2P Require Import AsmRv32Opcodes AsmRv32Decode AsmRv32 AsmRv32Zcmp AsmRv32Pass AsmRv32Jump AsmRv32Spec.

Set Default Goal Selector "!".

#[local] Existing Instance SizeT_32.

(** The operations after the entry. *)
Inductive rv32_op :=
| Instr (i : rv32_instr) | Rvc (c : rvc)
| LoadImmediate (rd imm : Z)
| MovLocalReg (local rs : Z) | MovRegLocal (rd local : Z) | MovRegLocalAddr (rd local : Z)
| LoadOffset (rd rs offset z : Z) | StoreOffset (rd rs offset z : Z)
| LoadIndexed (rd rs1 rs2 z : Z) | StoreIndexed (rd rs1 rs2 z : Z)
| OptimisedXor (rd rs : Z)
| CompareEq (rs1 rs2 rd : Z) | CompareNe (rs1 rs2 rd : Z)
| CompareLt (rs1 rs2 rd : Z) (u : bool) | CompareLe (rs1 rs2 rd : Z) (u : bool)
| CallInd (index : Z) | MovRegPcrel (rd label : Z)
| Jump (label : Z) | JumpIfRegEq (rs1 rs2 label : Z) | JumpIfRegNonzero (rs label : Z)
| Label (label : Z) | Align (k : Z) | Data (size v : Z) | SuppressCode
| Exit.

Section Program.
Context `{Rv32Config} `{PyMisc} `{!PlatAllocExec}.

Definition rv32_exec_op (op : rv32_op) : M asm_rv32_t unit :=
  match op with
  | Instr i => emit_instr i
  | Rvc c => emit_rvc c
  | LoadImmediate rd imm => asm_rv32_emit_optimised_load_immediate rd imm
  | MovLocalReg local rs => asm_rv32_emit_mov_local_reg local rs
  | MovRegLocal rd local => asm_rv32_emit_mov_reg_local rd local
  | MovRegLocalAddr rd local => asm_rv32_emit_mov_reg_local_addr rd local
  | LoadOffset rd rs offset z => asm_rv32_emit_load_reg_reg_offset rd rs offset z
  | StoreOffset rd rs offset z => asm_rv32_emit_store_reg_reg_offset rd rs offset z
  | LoadIndexed rd rs1 rs2 z => asm_rv32_emit_load_reg_reg_reg rd rs1 rs2 z
  | StoreIndexed rd rs1 rs2 z => asm_rv32_emit_store_reg_reg_reg rd rs1 rs2 z
  | OptimisedXor rd rs => asm_rv32_emit_optimised_xor rd rs
  | CompareEq rs1 rs2 rd => asm_rv32_meta_comparison_eq rs1 rs2 rd
  | CompareNe rs1 rs2 rd => asm_rv32_meta_comparison_ne rs1 rs2 rd
  | CompareLt rs1 rs2 rd u => asm_rv32_meta_comparison_lt rs1 rs2 rd u
  | CompareLe rs1 rs2 rd u => asm_rv32_meta_comparison_le rs1 rs2 rd u
  | CallInd index => asm_rv32_emit_call_ind index
  | MovRegPcrel rd label => asm_rv32_emit_mov_reg_pcrel rd label
  | Jump label => asm_rv32_emit_jump label
  | JumpIfRegEq rs1 rs2 label => asm_rv32_emit_jump_if_reg_eq rs1 rs2 label
  | JumpIfRegNonzero rs label => asm_rv32_emit_jump_if_reg_nonzero rs label
  | Label label => on_base (mp_asm_base_label_assign label)
  | Align k => on_base (mp_asm_base_align (2 ^ k))
  | Data size v => on_base (mp_asm_base_data size v)
  | SuppressCode => on_base mp_asm_base_suppress_code
  | Exit => asm_rv32_exit
  end.

Definition rv32_size (op : rv32_op) : Z :=
  match op with Align k => 2 ^ k | Data size _ => size | Exit => 128 | _ => 32 end.
Definition rv32_op_ok (op : rv32_op) : Prop :=
  match op with Align k => 0 <= k < 32 | Data size _ => 0 <= size | _ => True end.

Lemma rv32_steady op : rv32_op_ok op -> steady_op rv32_limit rv32_agree rv32_exec_op rv32_size op.
Proof.
  pose proof rv32_agree_base as Hb. pose proof rv32_limit_ok as HL.
  intros Hok. split; [destruct op; simpl in Hok |- *; lia|].
  destruct op; simpl in Hok |- *; try (eapply steady_le; [|eauto using
    steady_instr, steady_rvc, steady_load_immediate, steady_mov_local_reg, steady_mov_reg_local,
    steady_mov_reg_local_addr, steady_load_offset, steady_store_offset, steady_load_reg_reg_reg,
    steady_store_reg_reg_reg, steady_optimised_xor, steady_comparison_eq, steady_comparison_ne,
    steady_comparison_lt, steady_comparison_le, steady_call_ind, steady_mov_reg_pcrel, steady_jump,
    steady_jump_if_reg_eq, steady_jump_if_reg_nonzero, steady_label, steady_suppress, steady_exit]; lia).
  - by apply steady_align.
  - by apply steady_data.
Qed.

(** *** The mask *)

(** [m] adds the registers [t] to the mask. *)
Definition taints {A} (t : Z) (m : M asm_rv32_t A) : Prop := forall s a s', m s = Ok (a, s') ->
  saved_registers_mask s' = saved_registers_mask s .| t.

Lemma taints_bind {A B} t1 t2 (m : M asm_rv32_t A) (k : A -> M asm_rv32_t B) :
  taints t1 m -> (forall a, taints t2 (k a)) -> taints (t1 .| t2) (m ≫= k).
Proof.
  intros Hm Hk s b s' (a & s1 & E1 & E2)%bind_inv.
  by rewrite (Hk _ _ _ _ E2), (Hm _ _ _ E1), Z.lor_assoc.
Qed.
Lemma taints_stays {A} (m : M asm_rv32_t A) : stays saved_registers_mask m -> taints 0 m.
Proof. intros Hm s a s' E. by rewrite Z.lor_0_r, (Hm _ _ _ E). Qed.

Definition rv32_taint (op : rv32_op) : Z :=
  match op with
  | CallInd index => (1 << ASM_RV32_REG_RA)
      .| (if FIT_UNSIGNED (u32 (index * ASM_WORD_SIZE)) 6 then 1 << INTERNAL_TEMPORARY else 0)
  | _ => 0
  end.

(** A field of the back end that an operation does not touch. *)
Section Field.
Context {F : Type} (f : asm_rv32_t -> F) (Hf : forall s b, f (with_base b s) = f s).

Lemma stays_word w : stays f (asm_rv32_emit_word_opcode w).
Proof using Hf. unfold asm_rv32_emit_word_opcode. stays_op. Qed.
Lemma stays_halfword w : stays f (asm_rv32_emit_halfword_opcode w).
Proof using Hf. unfold asm_rv32_emit_halfword_opcode. stays_op. Qed.
Hint Resolve stays_word stays_halfword : stays.

Lemma stays_instr i : stays f (emit_instr i).
Proof using Hf.
  destruct i as [[]|[]|[]|[]|[]| | | | |[]| | | |]; simpl; autounfold with rv32_opcodes; stays_op.
Qed.
Lemma stays_rvc c : stays f (emit_rvc c).
Proof using Hf. destruct c; simpl; autounfold with rv32_opcodes; stays_op. Qed.
Lemma stays_load_upper rd imm : stays f (load_upper_immediate rd imm).
Proof using Hf. unfold load_upper_immediate. autounfold with rv32_opcodes. stays_op. Qed.
Lemma stays_load_lower rd imm : stays f (load_lower_immediate rd imm).
Proof using Hf. unfold load_lower_immediate. autounfold with rv32_opcodes. stays_op. Qed.
Hint Resolve stays_load_upper stays_load_lower : stays.
Lemma stays_adjust n : stays f (adjust_stack n).
Proof using Hf.
  unfold adjust_stack, load_full_immediate. autounfold with rv32_opcodes. stays_op.
Qed.
Lemma stays_store_loop n : forall i mask off, stays f (registers_store_loop n i mask off).
Proof using Hf.
  induction n as [|n IH]; intros; simpl; [apply stays_ret|].
  destruct (_ =? 0); [apply IH|]. autounfold with rv32_opcodes.
  apply stays_bind; [apply stays_assert|intros _].
  apply stays_bind; [apply stays_halfword|intros _; apply IH].
Qed.
Lemma stays_load_loop n : forall i mask off, stays f (registers_load_loop n i mask off).
Proof using Hf.
  induction n as [|n IH]; intros; simpl; [apply stays_ret|].
  destruct (_ =? 0); [apply IH|]. autounfold with rv32_opcodes.
  apply stays_bind; [apply stays_assert|intros _].
  apply stays_bind; [apply stays_halfword|intros _; apply IH].
Qed.
Lemma stays_registers_store mask : stays f (emit_registers_store mask).
Proof using Hf. unfold emit_registers_store. apply stays_store_loop. Qed.
Lemma stays_registers_load mask : stays f (emit_registers_load mask).
Proof using Hf. unfold emit_registers_load. apply stays_load_loop. Qed.
Lemma stays_label_offset l : stays f (label_offset_at l).
Proof using. intros s a s' E. by apply label_offset_at_inv in E as [-> _]. Qed.
Lemma stays_displacement l : stays f (calculate_displacement_for_label l).
Proof using.
  unfold calculate_displacement_for_label. apply stays_bind; [apply stays_label_offset|].
  intros x. stays_op.
Qed.
Lemma stays_emit_assert c w : stays f (EMIT_ASSERT c w).
Proof using. unfold EMIT_ASSERT. stays_op. Qed.
Hint Resolve stays_instr stays_rvc stays_adjust stays_label_offset stays_displacement
  stays_emit_assert : stays.

Lemma stays_op_field op : (forall index, op <> CallInd index) -> op <> Exit ->
  stays f (rv32_exec_op op).
Proof using Hf.
  intros Hc He. destruct op; try done; try (by edestruct Hc); simpl;
    try (unfold asm_rv32_emit_optimised_load_immediate, asm_rv32_emit_load_reg_reg_reg,
      asm_rv32_emit_store_reg_reg_reg, asm_rv32_fix_up_scaled_reg_reg_reg,
      asm_rv32_emit_load_reg_reg_offset, asm_rv32_emit_store_reg_reg_offset,
      asm_rv32_emit_mov_local_reg, asm_rv32_emit_mov_reg_local, asm_rv32_emit_mov_reg_local_addr,
      load_full_immediate, local_offset, asm_rv32_emit_optimised_xor, asm_rv32_meta_comparison_le,
      asm_rv32_meta_comparison_lt, asm_rv32_meta_comparison_eq, asm_rv32_meta_comparison_ne,
      asm_rv32_emit_mov_reg_pcrel, asm_rv32_emit_jump, asm_rv32_emit_jump_if_reg_eq,
      asm_rv32_emit_jump_if_reg_nonzero; cbv zeta; autounfold with rv32_opcodes); stays_op.
Qed.
End Field.

Lemma stays_function_epilogue {F} (f : asm_rv32_t -> F) mask : (forall s b, f (with_base b s) = f s) ->
  (forall s, f (set_saved_registers_mask (saved_registers_mask s) s) = f s) ->
  stays f (emit_function_epilogue mask).
Proof.
  intros Hf Hm s a s' (old & s1 & E0 & E)%bind_inv. injection E0 as <- <-.
  apply bind_inv in E as ([] & s1 & E1 & E). apply bind_inv in E as (size & s2 & E0 & E).
  injection E0 as <- <-. apply bind_inv in E as ([] & s2 & E2 & E3).
  injection E3 as <- <-.
  pose proof (stays_registers_load f Hf _ _ _ _ E1) as F1. pose proof (stays_adjust f Hf _ _ _ _ E2) as F2.
  pose proof (stays_registers_load saved_registers_mask (fun _ _ => eq_refl) _ _ _ _ E1) as M1.
  pose proof (stays_adjust saved_registers_mask (fun _ _ => eq_refl) _ _ _ _ E2) as M2.
  rewrite <- M1, <- M2, Hm. by rewrite F2.
Qed.

Lemma stays_compressed_epilogue {F} (f : asm_rv32_t -> F) mask : (forall s b, f (with_base b s) = f s) ->
  stays f (emit_compressed_function_epilogue mask).
Proof.
  intros Hf. unfold emit_compressed_function_epilogue, compute_zcmp_sequence_length.
  apply stays_bind; [apply stays_bind; [apply stays_assert|intros _; apply stays_ret]|intros len].
  apply stays_bind; [apply stays_gets|intros s1].
  apply stays_bind; [by apply stays_adjust|intros _].
  apply stays_bind; [apply stays_gets|intros s2]. by apply stays_halfword.
Qed.

Lemma stays_exit {F} (f : asm_rv32_t -> F) : (forall s b, f (with_base b s) = f s) ->
  (forall s, f (set_saved_registers_mask (saved_registers_mask s) s) = f s) ->
  stays f asm_rv32_exit.
Proof.
  intros Hf Hm. unfold asm_rv32_exit. apply stays_bind; [apply stays_gets|intros mask].
  destruct asm_rv32_allow_zcmp_opcodes; [by apply stays_compressed_epilogue|].
  apply stays_bind; [by apply stays_function_epilogue|intros _]. by apply stays_halfword.
Qed.

Lemma rv32_exec_taints op : taints (rv32_taint op) (rv32_exec_op op).
Proof.
  destruct op; try (apply taints_stays, stays_op_field; done); [|by apply taints_stays, stays_exit].
  simpl. unfold asm_rv32_emit_call_ind, taint. cbv zeta.
  apply taints_bind; [intros s a s' [= <- <-]; done|]. intros _.
  assert (forall m : M asm_rv32_t unit, stays saved_registers_mask m -> taints 0 m) as Hs
    by (intros; by apply taints_stays).
  pose proof (stays_word saved_registers_mask ltac:(done)).
  pose proof (stays_halfword saved_registers_mask ltac:(done)).
  pose proof (stays_load_upper saved_registers_mask ltac:(done)).
  change (RV32_IS_IN_C_REGISTER_WINDOW REG_FUN_TABLE && RV32_IS_IN_C_REGISTER_WINDOW INTERNAL_TEMPORARY
      && FIT_UNSIGNED (u32 (index * ASM_WORD_SIZE)) 6) with (FIT_UNSIGNED (u32 (index * ASM_WORD_SIZE)) 6).
  autounfold with rv32_opcodes.
  destruct (FIT_UNSIGNED _ 6); [|apply Hs; destruct (FIT_UNSIGNED _ 11); [|destruct (split_immediate _)];
    repeat first [solve [auto] | apply stays_bind; [|intros _]]].
  rewrite <- (Z.lor_0_r (1 << INTERNAL_TEMPORARY)).
  apply taints_bind; [intros s a s' [= <- <-]; done|]. intros _. apply Hs.
  repeat first [solve [auto] | apply stays_bind; [|intros _]].
Qed.

(** The bits the operations add, and a whole function's. *)
Fixpoint rv32_taints (ops : list rv32_op) : Z :=
  match ops with [] => 0 | op :: ops => rv32_taint op .| rv32_taints ops end.

Lemma seq_taints ops : taints (rv32_taints ops) (seq_ops rv32_exec_op ops).
Proof.
  induction ops as [|op ops IH]; simpl; [apply taints_stays, stays_ret|].
  apply taints_bind; [apply rv32_exec_taints|done].
Qed.

Definition entry_taint : Z :=
  (1 << REG_FUN_TABLE) .| (1 << REG_LOCAL_1) .| (1 << REG_LOCAL_2) .| (1 << REG_LOCAL_3).

Lemma stays_compressed_prologue {F} (f : asm_rv32_t -> F) mask :
  (forall s b, f (with_base b s) = f s) -> (forall s n, f (set_stack_size n s) = f s) ->
  stays f (emit_compressed_function_prologue mask).
Proof.
  intros Hf Hs. unfold emit_compressed_function_prologue, compute_zcmp_sequence_length. cbv zeta.
  autounfold with rv32_opcodes. pose proof (stays_adjust f Hf). pose proof (stays_halfword f Hf).
  pose proof (stays_emit_assert f).
  repeat first [solve [auto] | apply stays_bind; [|intros ?] | apply stays_assert | apply stays_ret | apply stays_gets
    | apply stays_modify; auto].
Qed.

Lemma prologue_mask mask : stays saved_registers_mask (emit_function_prologue mask).
Proof.
  intros s a s' E. unfold emit_function_prologue in E. cbv zeta in E.
  apply bind_inv in E as ([] & s1 & [= <-] & E). apply bind_inv in E as (old & s1 & [= <- <-] & E).
  apply bind_inv in E as (size & s1 & [= <- <-] & E). apply bind_inv in E as ([] & s1 & E1 & E).
  apply bind_inv in E as ([] & s2 & E2 & E). apply bind_inv in E as ([] & s3 & [= <-] & E).
  injection E as <- <-. done.
Qed.

Lemma entry_taints locals : taints entry_taint (asm_rv32_entry locals).
Proof.
  unfold asm_rv32_entry. rewrite <- (Z.lor_0_r entry_taint), <- (Z.lor_0_l (entry_taint .| 0)).
  apply taints_bind; [intros s a s' [= <- <-]; symmetry; apply Z.lor_0_r|intros _].
  apply taints_bind; [intros s a s' [= <- <-]; done|intros _].
  apply taints_stays, stays_bind; [apply stays_gets|intros mask].
  destruct asm_rv32_allow_zcmp_opcodes; [by apply stays_compressed_prologue|apply prologue_mask].
Qed.

(** *** The locals' offset, with CM.PUSH *)

Lemma call_ind_stays index : stays locals_stack_offset (asm_rv32_emit_call_ind index).
Proof.
  unfold asm_rv32_emit_call_ind, taint. cbv zeta. autounfold with rv32_opcodes.
  pose proof (stays_word locals_stack_offset ltac:(done)).
  pose proof (stays_halfword locals_stack_offset ltac:(done)).
  pose proof (stays_load_upper locals_stack_offset ltac:(done)).
  apply stays_bind; [by apply stays_modify|intros _].
  destruct (_ && _).
  - repeat first [solve [auto] | by apply stays_modify | apply stays_bind; [|intros _]].
  - destruct (FIT_UNSIGNED _ 11); [|destruct (split_immediate _)];
      repeat first [solve [auto] | apply stays_bind; [|intros _]].
Qed.

Lemma seq_stays ops : stays locals_stack_offset (seq_ops rv32_exec_op ops).
Proof.
  induction ops as [|op ops IH]; simpl; [apply stays_ret|].
  apply stays_bind; [|done]. clear IH.
  destruct op; try (apply stays_op_field; done); [apply call_ind_stays|by apply stays_exit].
Qed.

Lemma entry_stays locals : asm_rv32_allow_zcmp_opcodes = true ->
  stays locals_stack_offset (asm_rv32_entry locals).
Proof.
  intros Hz. unfold asm_rv32_entry. rewrite Hz.
  apply stays_bind; [by apply stays_modify|intros _]. apply stays_bind; [by apply stays_modify|intros _].
  apply stays_bind; [apply stays_gets|intros mask]. by apply stays_compressed_prologue.
Qed.

(** *** Functions *)

Definition rv32_function (locals : Z) (ops : list rv32_op) : M asm_rv32_t unit :=
  asm_rv32_entry locals;; seq_ops rv32_exec_op ops.

Definition function_ok (locals : Z) (ops : list rv32_op) : Prop :=
  0 <= locals < 2 ^ 28 /\ Forall rv32_op_ok ops /\ 74 + total rv32_size ops <= rv32_limit.

Lemma taints_word ops : 0 <= rv32_taints ops < 2 ^ 32.
Proof.
  induction ops as [|op ops IH]; simpl; [done|]. apply lor_word; [|done].
  destruct op; try done. simpl. apply lor_word; [done|]. by destruct (FIT_UNSIGNED _ 6).
Qed.

Lemma function_taints locals ops p s s' : 0 <= p <= MP_ASM_PASS_EMIT ->
  run_pass p (rv32_function locals ops) s = Ok (tt, s') ->
  saved_registers_mask s' = saved_registers_mask s .| (entry_taint .| rv32_taints ops)
  /\ (asm_rv32_allow_zcmp_opcodes = true -> locals_stack_offset s' = locals_stack_offset s).
Proof.
  intros Hp Hrun. rewrite run_pass_start in Hrun by done. unfold rv32_function in Hrun. split.
  - pose proof (taints_bind _ _ _ _ (entry_taints locals) (fun _ : unit => seq_taints ops)) as Ht.
    apply (Ht _ _ _ Hrun).
  - intros Hz. pose proof (stays_bind _ _ _ (entry_stays locals Hz) (fun _ : unit => seq_stays ops)) as Ht.
    apply (Ht _ _ _ Hrun).
Qed.

(** After one pass over the function, its passes agree before the entry. *)
Lemma function_start locals ops s0 s1 s2 : 0 <= saved_registers_mask s0 < 2 ^ 32 ->
  run_pass MP_ASM_PASS_COMPUTE (rv32_function locals ops) s0 = Ok (tt, s1) ->
  run_pass MP_ASM_PASS_COMPUTE (rv32_function locals ops) s1 = Ok (tt, s2) ->
  forall b b', rv32_start (with_base b s1) (with_base b' s2).
Proof.
  intros Hm0 [E1 _]%function_taints [E2 Hl]%function_taints b b'; [|done..].
  split; [|split]; simpl.
  - by rewrite E2, E1, <- Z.lor_assoc, Z.lor_diag.
  - rewrite E1. apply lor_word; [done|]. apply lor_word; [done|apply taints_word].
  - exact Hl.
Qed.

Lemma function_steady locals ops : function_ok locals ops ->
  Forall (steady_op rv32_limit rv32_agree rv32_exec_op rv32_size) ops.
Proof. intros (_ & Hops & _). eapply Forall_impl; [exact Hops|]. apply rv32_steady. Qed.

(** A compute pass keeps the shared state well formed. *)
Lemma function_wf locals ops s s' : function_ok locals ops -> base_wf (base s) ->
  run_pass MP_ASM_PASS_COMPUTE (rv32_function locals ops) s = Ok (tt, s') -> base_wf (base s').
Proof.
  intros Hok Hwf Hrun. pose proof Hok as (_ & _ & Hsz).
  pose proof (program_wf rv32_limit rv32_agree rv32_exec_op rv32_size 74
    (asm_rv32_entry locals) ops s s') as W.
  apply W; try done.
  - apply grows_entry.
  - by eapply function_steady.
Qed.

(** The passes over a function. *)
Record measured (locals : Z) (ops : list rv32_op) (s0 s1 s2 : asm_rv32_t) : Prop := {
  measured_ok : function_ok locals ops;
  measured_wf : base_wf (base s0);
  measured_mask : 0 <= saved_registers_mask s0 < 2 ^ 32;
  measured_first : run_pass MP_ASM_PASS_COMPUTE (rv32_function locals ops) s0 = Ok (tt, s1);
  measured_second : run_pass MP_ASM_PASS_COMPUTE (rv32_function locals ops) s1 = Ok (tt, s2);
}.

Lemma measured_emits locals ops s0 s1 s2 : measured locals ops s0 s1 s2 ->
  exists s3, run_pass MP_ASM_PASS_EMIT (rv32_function locals ops) s2 = Ok (tt, s3)
    /\ code_offset (base s3) = code_offset (base s2)
    /\ label_offsets (base s3) = label_offsets (base s2)
    /\ rv32_agree s2 s3 /\ code_offset (base s3) <= code_size (base s3).
Proof.
  intros [Hok Hwf Hm0 R1 R2]. pose proof Hok as (Hl & _ & Hsz).
  pose proof (function_start _ _ _ _ _ Hm0 R1 R2) as HE.
  destruct (program_agrees rv32_limit rv32_agree rv32_exec_op rv32_size rv32_start 74
    (asm_rv32_entry locals) ops s1 s2 s2) as (s3 & E3 & Ho & Hlb & Ha & Hcs & _); try done.
  - apply grows_entry.
  - by apply twin_entry.
  - by eapply function_steady.
  - by eapply function_wf.
  - by exists s3.
Qed.

(** The emit pass of a function, split at any of its operations. *)
Lemma measured_runs locals ops1 op ops2 s0 s1 s2 :
  measured locals (ops1 ++ op :: ops2) s0 s1 s2 ->
  exists sa s3,
    run_pass MP_ASM_PASS_EMIT (rv32_function locals (ops1 ++ op :: ops2)) s2 = Ok (tt, s3)
    /\ code_offset (base s3) = code_offset (base s2)
    /\ label_offsets (base s3) = label_offsets (base s2)
    /\ run_pass MP_ASM_PASS_EMIT (rv32_function locals ops1) s2 = Ok (tt, sa)
    /\ label_offsets (base sa) = label_offsets (base s2) /\ base_wf (base sa)
    /\ forall s' P, implements_to sa s' (rv32_exec_op op) P -> suppress (base sa) = false ->
         addressable (base s3) ->
         forall mc, pc mc = u32 (code_base (base s3) + code_offset (base sa)) ->
         exists n mc', runs (step (loaded (base s3))) mc mc' /\ P n mc mc'.
Proof.
  intros [Hok Hwf Hm0 R1 R2]. pose proof Hok as (Hl & _ & Hsz).
  pose proof (function_start _ _ _ _ _ Hm0 R1 R2) as HE.
  destruct (program_runs rv32_limit rv32_limit_ok rv32_agree rv32_exec_op rv32_size rv32_start 74
    (asm_rv32_entry locals) ops1 op ops2 s1 s2 s2) as (sa & s3 & ? & ? & ? & ? & ? & ? & _ & Hr).
  - done.
  - apply grows_entry.
  - by apply twin_entry.
  - by eapply function_steady.
  - done.
  - by eapply function_wf.
  - exact R2.
  - by apply handover_same.
  - exists sa, s3. do 6 (split; [done|]). intros s' P Hi Hs Ha mc Hpc.
    apply (Hr s' P Hi Hs); [by intros i []|done..].
Qed.
End Program.

(** ** The theorems *)

(** C1: the passes agree.  A function that two compute passes measured is
    emitted by the pass that follows without a failing assertion; the code is
    as long as measured, fits the region allocated for it, and every label is
    at the offset the compute pass recorded; the back end's fields end as in
    the compute pass.  [function_ok] bounds the number of locals and the size
    of the code. *)
Theorem rv32_passes_agree `{Rv32Config} `{PyMisc} `{!PlatAllocExec} locals ops s0 s1 s2 :
  measured locals ops s0 s1 s2 ->
  exists s3, run_pass MP_ASM_PASS_EMIT (rv32_function locals ops) s2 = Ok (tt, s3)
    /\ code_offset (base s3) = code_offset (base s2)
    /\ label_offsets (base s3) = label_offsets (base s2)
    /\ rv32_agree s2 s3 /\ code_offset (base s3) <= code_size (base s3).
Proof. apply measured_emits. Qed.

(** C2: the finished image.  Whatever the code of an operation does by its
    specification, it does in the finished code of the function, at the
    address where the region was placed plus the operation's offset. *)
Theorem rv32_image_runs `{Rv32Config} `{PyMisc} `{!PlatAllocExec} locals ops1 op ops2 s0 s1 s2 :
  measured locals (ops1 ++ op :: ops2) s0 s1 s2 ->
  exists sa s3,
    run_pass MP_ASM_PASS_EMIT (rv32_function locals (ops1 ++ op :: ops2)) s2 = Ok (tt, s3)
    /\ run_pass MP_ASM_PASS_EMIT (rv32_function locals ops1) s2 = Ok (tt, sa)
    /\ forall s' P, implements_to sa s' (rv32_exec_op op) P -> suppress (base sa) = false ->
         addressable (base s3) ->
         forall mc, pc mc = u32 (code_base (base s3) + code_offset (base sa)) ->
         exists n mc', runs (step (loaded (base s3))) mc mc' /\ P n mc mc'.
Proof.
  intros Hm. destruct (measured_runs _ _ _ _ _ _ _ Hm) as (sa & s3 & ? & _ & _ & ? & _ & _ & ?).
  by exists sa, s3.
Qed.

(** C3: jumps land on their labels.  In the finished code a jump to a label
    transfers control to the address of the region plus the offset at which
    the label was placed, whether the label was before or after it. *)
Theorem rv32_jump_reaches_label `{Rv32Config} `{PyMisc} `{!PlatAllocExec}
    locals ops1 label ops2 s0 s1 s2 target :
  measured locals (ops1 ++ Jump label :: ops2) s0 s1 s2 ->
  label_offsets (base s2) !! Z.to_nat label = Some target ->
  exists sa s3,
    run_pass MP_ASM_PASS_EMIT (rv32_function locals (ops1 ++ Jump label :: ops2)) s2 = Ok (tt, s3)
    /\ run_pass MP_ASM_PASS_EMIT (rv32_function locals ops1) s2 = Ok (tt, sa)
    /\ (suppress (base sa) = false -> addressable (base s3) ->
        (2 | target - code_offset (base sa)) ->
        forall mc, pc mc = u32 (code_base (base s3) + code_offset (base sa)) -> (2 | pc mc) ->
        exists mc', runs (step (loaded (base s3))) mc mc'
          /\ pc mc' = u32 (code_base (base s3) + target) /\ keeps [REG_TEMP2] mc mc').
Proof.
  intros Hm Hl. destruct (measured_runs _ _ _ _ _ _ _ Hm) as (sa & s3 & E3 & _ & _ & Ea & Hla & _ & Hr).
  exists sa, s3. split; [done|]. split; [done|]. intros Hs Ha Heven mc Hpc Hpc2.
  assert (displacement sa label = target - code_offset (base sa)) as Ed
    by (unfold displacement; by rewrite Hla, Hl).
  destruct (Hr sa (jumps_if sa label (fun _ => true))) with (mc := mc) as (n & mc' & Hruns & HP); try done.
  { apply implements_to_self, jump_implements; [|by rewrite Ed]. unfold has_label. rewrite Hla. by eexists. }
  exists mc'. split; [done|]. destruct (HP Hpc2) as [Hk Hpc']. split; [|done].
  rewrite Hpc', Ed, Hpc, uw_add_l by lia. f_equal. lia.
Qed.

(** *** A function, measured *)

Definition example_ops : list rv32_op :=
  [Label 0; LoadImmediate 10 0x12345; MovLocalReg 0 10; CallInd 5; JumpIfRegNonzero 10 0]
  ++ Jump 1 :: [Data 4 7; Label 1; Exit].
Definition example_alloc : PlatAllocExec.
Proof.
  refine {| plat_alloc_exec n := (0x1000, replicate (Z.to_nat n) 0) |}.
  - intros n. simpl. rewrite length_replicate. lia.
  - intros n Hn. simpl in *. rewrite length_replicate. lia.
  - done.
  - intros n. simpl. by apply Forall_replicate.
Defined.
Definition example_start : asm_rv32_t :=
  asm_rv32_new (mk_asm_base 0 false 0 0 0 [] 2 [0; 0]).
Definition after_pass (s : asm_rv32_t) : asm_rv32_t :=
  match run_pass (H0 := example_alloc) MP_ASM_PASS_COMPUTE
    (rv32_function (H := rv32_plain) (H0 := py_misc) 3 example_ops) s with
  | Ok (_, s') => s'
  | Fault _ => s
  end.

Lemma example_measured : measured (H := rv32_plain) (H0 := py_misc) (H1 := example_alloc)
  3 example_ops example_start (after_pass example_start) (after_pass (after_pass example_start)).
Proof.
  constructor.
  - split; [by split|]. split; [|by vm_compute].
    repeat (apply Forall_cons; split; [simpl; first [done|lia]|]). by apply Forall_nil.
  - constructor; simpl; try done. repeat (apply Forall_cons; split; [done|]). by apply Forall_nil.
  - by split.
  - vm_compute. reflexivity.
  - vm_compute. reflexivity.
Qed.

Lemma rv32_passes_agree_witness : exists s3,
  run_pass (H0 := example_alloc) MP_ASM_PASS_EMIT
    (rv32_function (H := rv32_plain) (H0 := py_misc) 3 example_ops)
    (after_pass (after_pass example_start)) = Ok (tt, s3)
  /\ code_offset (base s3) = code_offset (base (after_pass (after_pass example_start))).
Proof.
  destruct (rv32_passes_agree (H := rv32_plain) (H0 := py_misc) (H1 := example_alloc)
    3 example_ops _ _ _ example_measured) as (s3 & ? & ? & _). exists s3. split; assumption.
Defined.

Lemma rv32_image_runs_witness : exists sa s3,
  run_pass (H0 := example_alloc) MP_ASM_PASS_EMIT
    (rv32_function (H := rv32_plain) (H0 := py_misc) 3 example_ops)
    (after_pass (after_pass example_start)) = Ok (tt, s3)
  /\ run_pass (H0 := example_alloc) MP_ASM_PASS_EMIT
    (rv32_function (H := rv32_plain) (H0 := py_misc) 3 [])
    (after_pass (after_pass example_start)) = Ok (tt, sa).
Proof.
  destruct (rv32_image_runs (H := rv32_plain) (H0 := py_misc) (H1 := example_alloc)
    3 [] (Label 0) (List.tl example_ops) _ _ _ example_measured) as (sa & s3 & ? & ? & _).
  exists sa, s3. split; assumption.
Defined.

Lemma rv32_jump_reaches_label_witness : exists sa s3 target,
  run_pass (H0 := example_alloc) MP_ASM_PASS_EMIT
    (rv32_function (H := rv32_plain) (H0 := py_misc) 3 example_ops)
    (after_pass (after_pass example_start)) = Ok (tt, s3)
  /\ label_offsets (base (after_pass (after_pass example_start))) !! 1%nat = Some target
  /\ (2 | target - code_offset (base sa)) /\ suppress (base sa) = false.
Proof.
  destruct (rv32_jump_reaches_label (H := rv32_plain) (H0 := py_misc) (H1 := example_alloc)
    3 (take 5 example_ops) 1 (drop 6 example_ops) _ _ _
    (default 0 (label_offsets (base (after_pass (after_pass example_start))) !! 1%nat))
    example_measured) as (sa & s3 & ? & E & _); [vm_compute; reflexivity|].
  exists sa, s3, (default 0 (label_offsets (base (after_pass (after_pass example_start))) !! 1%nat)).
  split; [assumption|]. split; [vm_compute; reflexivity|].
  vm_compute in E. injection E as <-. split; [by exists 6|done].
Defined.
