(* ===== verification/X86Isa.v ===== *)
(** * X86Isa: the instruction set asmx86 and asmx64 target

    A decoder and an executor for the part of the x86 instruction set that the
    two back ends emit, in 32-bit mode and in long mode.  Prefixes, operands
    and opcodes follow bank/QEMU-Targets/i386/tcg/decode-new.c.inc, the effects
    tcg/emit.c.inc; what the back ends do not emit is not decoded ([None]).
    Memory is flat, and the parity and auxiliary flags are left out. *)

From S2P Require Import Prelude Machine.

Set Default Goal Selector "!".

(** Sizes are in bits: 8, 16, 32 or 64. *)
Inductive place :=
| Reg (r : Z)
| High (r : Z)                        (* AH, CH, DH, BH *)
| Mem (base : option Z) (disp : Z).   (* no base: 32-bit mode, absolute; long mode, after the instruction *)
Inductive alu := ADD | OR | AND | SUB | XOR | CMP | TEST.
Inductive shift := SHL | SHR | SAR.

Inductive x86_instr :=
| NOP
| PUSH (r : Z)
| POP (r : Z)
| RET
| MOVI (w r imm : Z)
| MOV (w : Z) (dst src : place)
| MOVZX (w sw r : Z) (src : place)
| LEA (w r : Z) (src : place)
| ALU (op : alu) (w : Z) (dst src : place)
| ALUI (op : alu) (w : Z) (dst : place) (imm : Z)
| NOT (w : Z) (dst : place)
| NEG (w : Z) (dst : place)
| SHIFT (op : shift) (w : Z) (dst : place)  (* by CL *)
| IMUL (w r : Z) (src : place)
| SETCC (cc : Z) (dst : place)
| JMP (rel : Z)
| JCC (cc rel : Z)
| CALL (rel : Z)
| JMPR (src : place)
| CALLR (src : place).

(** ** Parsing *)

Definition parser (A : Type) : Type := list Z -> option (A * list Z).
#[export] Instance parser_ret : MRet parser := fun _ a bs => Some (a, bs).
#[export] Instance parser_bind : MBind parser := fun _ _ k p bs =>
  match p bs with Some (a, rest) => k a rest | None => None end.
Definition fail {A} : parser A := fun _ => None.
Definition byte : parser Z := fun bs =>
  match bs with [] => None | b :: bs => Some (b, bs) end.
(** A prefix that may be there. *)
Definition prefix {A} (f : Z -> option A) : parser (option A) := fun bs =>
  match bs with
  | [] => None
  | b :: rest => match f b with Some a => Some (Some a, rest) | None => Some (None, bs) end
  end.
Fixpoint imm_bytes (n : nat) : parser Z :=
  match n with
  | O => mret 0
  | S n => b ← byte; v ← imm_bytes n; mret (b .| (v << 8))
  end.
(** A sign-extended immediate of [n] bytes. *)
Definition simm (n : nat) : parser Z := v ← imm_bytes n; mret (sw (8 * Z.of_nat n) v).

(** A parser does not look behind what it consumes. *)
Definition local {A} (p : parser A) : Prop := forall bs a rest tail,
  p bs = Some (a, rest) -> p (bs ++ tail) = Some (a, rest ++ tail).

Lemma local_ret {A} (a : A) : local (mret a).
Proof. by intros bs b rest tail [= <- <-]. Qed.
Lemma local_fail {A} : local (@fail A).
Proof. done. Qed.
Lemma local_byte : local byte.
Proof. intros [|b bs] a rest tail; [done|]. by intros [= <- <-]. Qed.
Lemma local_prefix {A} (f : Z -> option A) : local (prefix f).
Proof.
  intros [|b bs] a rest tail; simpl; [done|]. by destruct (f b); intros [= <- <-].
Qed.
Lemma local_bind {A B} (p : parser A) (k : A -> parser B) :
  local p -> (forall a, local (k a)) -> local (p ≫= k).
Proof.
  intros Hp Hk bs b rest tail. unfold mbind, parser_bind.
  destruct (p bs) as [[a r]|] eqn:E; [|done]. rewrite (Hp _ _ _ tail E). apply Hk.
Qed.
Lemma local_imm n : local (imm_bytes n).
Proof.
  induction n as [|n IH]; simpl; [apply local_ret|].
  apply local_bind; [apply local_byte|intros b]. apply local_bind; [done|intros v; apply local_ret].
Qed.
Lemma local_simm n : local (simm n).
Proof. apply local_bind; [apply local_imm|intros v; apply local_ret]. Qed.
Create HintDb local.
#[export] Hint Resolve local_ret local_fail local_byte local_prefix local_imm local_simm : local.
Ltac local_tac :=
  lazymatch goal with
  | |- local (_ ≫= _) => apply local_bind; [local_tac|intros ?; local_tac]
  | |- local (if ?c then _ else _) => destruct c; local_tac
  | |- local (let '(_, _) := ?e in _) => destruct e; local_tac
  | |- local (match ?e with _ => _ end) => destruct e; local_tac
  | |- _ => solve [auto with local nocore]
  end.

(** ** Decoding *)

Section Decoding.
(** Long mode, or 32-bit mode. *)
Context (long : bool).

(** What the prefixes say. *)
Record prefixes := mk_prefixes { opsize : bool; rex : option Z }.
Definition rex_bit (i : Z) (c : prefixes) : Z := default 0 ((fun x => bits x i 1) <$> rex c).
Definition rex_w (c : prefixes) : bool := rex_bit 3 c =? 1.
Definition ext_r (c : prefixes) : Z := 8 * rex_bit 2 c.
Definition ext_x (c : prefixes) : Z := 8 * rex_bit 1 c.
Definition ext_b (c : prefixes) : Z := 8 * rex_bit 0 c.
Definition op_width (c : prefixes) : Z := if rex_w c then 64 else if opsize c then 16 else 32.
(** Pushes, pops and indirect jumps need no prefix for the full width. *)
Definition word_width : Z := if long then 64 else 32.
Definition plain_width (c : prefixes) : bool := negb (opsize c).

(** Without a REX prefix the byte registers 4 to 7 are the high ones. *)
Definition byte_place (c : prefixes) (p : place) : place :=
  match p with
  | Reg r => match rex c with None => if r <? 4 then Reg r else High (r - 4) | Some _ => Reg r end
  | _ => p
  end.

Definition prefix_66 : parser bool :=
  o ← prefix (fun b => if b =? 0x66 then Some tt else None);
  mret (match (o : option unit) with Some _ => true | None => false end).
Definition prefix_rex : parser (option Z) :=
  prefix (fun b => if long && (b >> 4 =? 4) then Some (bits b 0 4) else None).

(** The addressing forms with a base register and a displacement; an index
    register is not decoded. *)
Definition modrm (c : prefixes) : parser (Z * place) :=
  b ← byte;
  let md := bits b 6 2 in
  let reg := bits b 3 3 + ext_r c in
  let rm := bits b 0 3 in
  if md =? 3 then mret (reg, Reg (rm + ext_b c))
  else if rm =? 4 then
    sib ← byte;
    if negb (bits sib 3 5 + ext_x c =? 4) || ((md =? 0) && (bits sib 0 3 =? 5)) then fail else
    d ← (if md =? 0 then mret 0 else if md =? 1 then simm 1 else simm 4);
    mret (reg, Mem (Some (bits sib 0 3 + ext_b c)) d)
  else if (md =? 0) && (rm =? 5) then
    d ← simm 4;
    mret (reg, Mem None d)
  else
    d ← (if md =? 0 then mret 0 else if md =? 1 then simm 1 else simm 4);
    mret (reg, Mem (Some (rm + ext_b c)) d).

Definition alu_of (op : Z) : option alu :=
  match op with
  | 0 => Some ADD | 1 => Some OR | 4 => Some AND | 5 => Some SUB | 6 => Some XOR | 7 => Some CMP
  | _ => None
  end.
Definition shift_of (op : Z) : option shift :=
  match op with 4 => Some SHL | 5 => Some SHR | 7 => Some SAR | _ => None end.
(** The parity conditions are left out. *)
Definition has_cc (cc : Z) : bool := negb ((cc =? 10) || (cc =? 11)).

Definition decode_0f (c : prefixes) : parser x86_instr :=
  op ← byte;
  if op >> 4 =? 8 then
    if has_cc (op .& 15) && plain_width c then d ← simm 4; mret (JCC (op .& 15) d) else fail
  else if op >> 4 =? 9 then
    '(_, p) ← modrm c;
    if has_cc (op .& 15) then mret (SETCC (op .& 15) (byte_place c p)) else fail
  else match op with
  | 0xaf => '(r, p) ← modrm c; mret (IMUL (op_width c) r p)
  | 0xb6 => '(r, p) ← modrm c; mret (MOVZX (op_width c) 8 r (byte_place c p))
  | 0xb7 => '(r, p) ← modrm c; mret (MOVZX (op_width c) 16 r p)
  | _ => fail
  end.

Definition decode_op (c : prefixes) : parser x86_instr :=
  op ← byte;
  if op >> 3 =? 10 then
    if plain_width c then mret (PUSH ((op .& 7) + ext_b c)) else fail
  else if op >> 3 =? 11 then
    if plain_width c then mret (POP ((op .& 7) + ext_b c)) else fail
  else if op >> 4 =? 7 then
    if has_cc (op .& 15) && plain_width c then d ← simm 1; mret (JCC (op .& 15) d) else fail
  else if op >> 3 =? 23 then
    if plain_width c then
      v ← imm_bytes (Z.to_nat (op_width c / 8));
      mret (MOVI (op_width c) ((op .& 7) + ext_b c) v)
    else fail
  else match op with
  | 0x01 => '(r, p) ← modrm c; mret (ALU ADD (op_width c) p (Reg r))
  | 0x09 => '(r, p) ← modrm c; mret (ALU OR (op_width c) p (Reg r))
  | 0x0f => decode_0f c
  | 0x21 => '(r, p) ← modrm c; mret (ALU AND (op_width c) p (Reg r))
  | 0x29 => '(r, p) ← modrm c; mret (ALU SUB (op_width c) p (Reg r))
  | 0x31 => '(r, p) ← modrm c; mret (ALU XOR (op_width c) p (Reg r))
  | 0x39 => '(r, p) ← modrm c; mret (ALU CMP (op_width c) p (Reg r))
  | 0x81 =>
      '(r, p) ← modrm c;
      if plain_width c then
        v ← simm 4;
        match alu_of (r .& 7) with Some op => mret (ALUI op (op_width c) p v) | None => fail end
      else fail
  | 0x83 =>
      '(r, p) ← modrm c;
      v ← simm 1;
      match alu_of (r .& 7) with Some op => mret (ALUI op (op_width c) p v) | None => fail end
  | 0x84 => '(r, p) ← modrm c; mret (ALU TEST 8 (byte_place c p) (byte_place c (Reg r)))
  | 0x85 => '(r, p) ← modrm c; mret (ALU TEST (op_width c) p (Reg r))
  | 0x88 => '(r, p) ← modrm c; mret (MOV 8 (byte_place c p) (byte_place c (Reg r)))
  | 0x89 => '(r, p) ← modrm c; mret (MOV (op_width c) p (Reg r))
  | 0x8b => '(r, p) ← modrm c; mret (MOV (op_width c) (Reg r) p)
  | 0x8d =>
      '(r, p) ← modrm c;
      match p with Mem _ _ => mret (LEA (op_width c) r p) | _ => fail end
  | 0x90 => if rex_bit 0 c =? 0 then mret NOP else fail
  | 0xc3 => if plain_width c then mret RET else fail
  | 0xd3 =>
      '(r, p) ← modrm c;
      match shift_of (r .& 7) with Some op => mret (SHIFT op (op_width c) p) | None => fail end
  | 0xe8 => if plain_width c then d ← simm 4; mret (CALL d) else fail
  | 0xe9 => if plain_width c then d ← simm 4; mret (JMP d) else fail
  | 0xeb => if plain_width c then d ← simm 1; mret (JMP d) else fail
  | 0xf7 =>
      '(r, p) ← modrm c;
      match r .& 7 with
      | 2 => mret (NOT (op_width c) p)
      | 3 => mret (NEG (op_width c) p)
      | _ => fail
      end
  | 0xff =>
      '(r, p) ← modrm c;
      if plain_width c then
        match r .& 7 with 2 => mret (CALLR p) | 4 => mret (JMPR p) | _ => fail end
      else fail
  | _ => fail
  end.

Definition x86_parse : parser x86_instr :=
  o ← prefix_66; r ← prefix_rex; decode_op (mk_prefixes o r).
Definition x86_decode (bs : list Z) : option (x86_instr * Z) :=
  match x86_parse bs with
  | Some (i, rest) => Some (i, Z.of_nat (length bs) - Z.of_nat (length rest))
  | None => None
  end.

Lemma local_modrm c : local (modrm c).
Proof using. unfold modrm. cbv zeta. local_tac. Qed.
Hint Resolve local_modrm : local.
Lemma local_0f c : local (decode_0f c).
Proof using. unfold decode_0f. local_tac. Qed.
Hint Resolve local_0f : local.
Lemma local_op c : local (decode_op c).
Proof using. unfold decode_op. local_tac. Qed.
Hint Resolve local_op : local.
Lemma local_parse : local x86_parse.
Proof using. unfold x86_parse, prefix_66, prefix_rex. local_tac. Qed.

Lemma x86_decode_app bs tail i n : x86_decode bs = Some (i, n) -> x86_decode (bs ++ tail) = Some (i, n).
Proof using.
  unfold x86_decode. destruct (x86_parse bs) as [[j rest]|] eqn:E; [|done]. intros [= -> <-].
  rewrite (local_parse _ _ _ tail E), !length_app. do 2 f_equal. lia.
Qed.
End Decoding.

(** ** Execution *)

(** The flags are kept beside the registers. *)
Definition CF : Z := 64.
Definition ZF : Z := 65.
Definition SF : Z := 66.
Definition OF : Z := 67.
Definition flags : list Z := [CF; ZF; SF; OF].
Definition flag (f : Z) (m : machine) : bool := negb (reg f m =? 0).
Definition set_flags (c z s o : bool) (m : machine) : machine :=
  set_reg OF (Z.b2z o) (set_reg SF (Z.b2z s) (set_reg ZF (Z.b2z z) (set_reg CF (Z.b2z c) m))).
(** The flags of a result of width [w]. *)
Definition result_flags (c o : bool) (w v : Z) (m : machine) : machine :=
  set_flags c (uw w v =? 0) (sw w v <? 0) o m.

Definition cond (cc : Z) (m : machine) : bool :=
  let holds :=
    match cc >> 1 with
    | 0 => flag OF m
    | 1 => flag CF m
    | 2 => flag ZF m
    | 3 => flag CF m || flag ZF m
    | 4 => flag SF m
    | 6 => xorb (flag SF m) (flag OF m)
    | _ => flag ZF m || xorb (flag SF m) (flag OF m)
    end in
  if Z.odd cc then negb holds else holds.

Section Execution.
Context (long : bool).
Definition W : Z := word_width long.
Implicit Types (m : machine) (p : place).

(** [next] is the address of the next instruction. *)
Definition address (base : option Z) (disp next : Z) m : Z :=
  match base with
  | Some r => uw W (reg r m + disp)
  | None => uw W ((if long then next else 0) + disp)
  end.
Definition read (w : Z) p (next : Z) m : Z :=
  match p with
  | Reg r => uw w (reg r m)
  | High r => bits (reg r m) 8 8
  | Mem base disp => load W (Z.to_nat (w / 8)) (mem m) (address base disp next m)
  end.
(** A 32-bit register write clears the upper half in long mode; narrower ones
    leave the other bits. *)
Definition write (w : Z) p (next v : Z) m : machine :=
  match p with
  | Reg r =>
      if 32 <=? w then set_reg r (uw w v) m
      else set_reg r (Z.ldiff (reg r m) (Z.ones w) .| uw w v) m
  | High r => set_reg r (Z.ldiff (reg r m) 0xff00 .| (u8 v << 8)) m
  | Mem base disp => set_mem (store W (Z.to_nat (w / 8)) (mem m) (address base disp next m) v) m
  end.

Definition push (v : Z) m : machine :=
  let sp := uw W (reg 4 m - W / 8) in
  set_mem (store W (Z.to_nat (W / 8)) (mem m) sp v) (set_reg 4 sp m).
Definition top m : Z := load W (Z.to_nat (W / 8)) (mem m) (reg 4 m).
Definition popped m : machine := set_reg 4 (uw W (reg 4 m + W / 8)) m.

Definition alu_exec (op : alu) (w : Z) p (next a b : Z) m : machine :=
  match op with
  | ADD =>
      let v := uw w (a + b) in
      write w p next v
        (result_flags (2 ^ w <=? a + b) (negb (sw w a + sw w b =? sw w v)) w v m)
  | SUB =>
      let v := uw w (a - b) in
      write w p next v (result_flags (a <? b) (negb (sw w a - sw w b =? sw w v)) w v m)
  | CMP =>
      let v := uw w (a - b) in
      result_flags (a <? b) (negb (sw w a - sw w b =? sw w v)) w v m
  | OR => write w p next (a .| b) (result_flags false false w (a .| b) m)
  | AND => write w p next (a .& b) (result_flags false false w (a .& b) m)
  | XOR => write w p next (a .^ b) (result_flags false false w (a .^ b) m)
  | TEST => result_flags false false w (a .& b) m
  end.

(** The overflow flag is undefined but for a count of one; so is what CF holds
    after counts beyond the width.  Nothing emitted reads them. *)
Definition shift_exec (op : shift) (w : Z) p (next n a : Z) m : machine :=
  if n =? 0 then m else
  let '(v, c) := match op with
    | SHL => (a << n, Z.testbit a (w - n))
    | SHR => (a >> n, Z.testbit a (n - 1))
    | SAR => (sw w a >> n, Z.testbit (sw w a) (n - 1))
    end in
  write w p next v (result_flags c false w v m).

(** Instruction [i] of [len] bytes, at the program counter. *)
Definition x86_exec (i : x86_instr) (len : Z) m : option machine :=
  let next := uw W (pc m + len) in
  match i with
  | NOP => Some (set_pc next m)
  | PUSH r => Some (set_pc next (push (reg r m) m))
  | POP r => Some (set_pc next (set_reg r (top m) (popped m)))
  | RET => Some (set_pc (top m) (popped m))
  | MOVI w r imm => Some (set_pc next (write w (Reg r) next imm m))
  | MOV w dst src => Some (set_pc next (write w dst next (read w src next m) m))
  | MOVZX w sw r src => Some (set_pc next (write w (Reg r) next (read sw src next m) m))
  | LEA w r src =>
      match src with
      | Mem base disp => Some (set_pc next (write w (Reg r) next (address base disp next m) m))
      | _ => None
      end
  | ALU op w dst src =>
      Some (set_pc next (alu_exec op w dst next (read w dst next m) (read w src next m) m))
  | ALUI op w dst imm =>
      Some (set_pc next (alu_exec op w dst next (read w dst next m) (uw w imm) m))
  | NOT w dst => Some (set_pc next (write w dst next (Z.lnot (read w dst next m)) m))
  | NEG w dst =>
      let a := read w dst next m in
      Some (set_pc next (write w dst next (- a)
        (result_flags (negb (a =? 0)) (a =? 2 ^ (w - 1)) w (- a) m)))
  | SHIFT op w dst =>
      let n := reg 1 m .& (if w =? 64 then 63 else 31) in
      Some (set_pc next (shift_exec op w dst next n (read w dst next m) m))
  | IMUL w r src =>
      let a := sw w (reg r m) in
      let b := sw w (read w src next m) in
      let o := negb (a * b =? sw w (a * b)) in
      Some (set_pc next (write w (Reg r) next (a * b) (result_flags o o w (a * b) m)))
  | SETCC cc dst => Some (set_pc next (write 8 dst next (Z.b2z (cond cc m)) m))
  | JMP rel => Some (set_pc (uw W (next + rel)) m)
  | JCC cc rel => Some (set_pc (if cond cc m then uw W (next + rel) else next) m)
  | CALL rel => Some (set_pc (uw W (next + rel)) (push next m))
  | JMPR src => Some (set_pc (read W src next m) m)
  | CALLR src => Some (set_pc (read W src next m) (push next m))
  end.
End Execution.

Lemma word_width_pos long : 0 < word_width long.
Proof. by destruct long. Qed.

(** 32-bit mode and long mode. *)
Definition X86_isa (long : bool) : Isa := {|
  insn := x86_instr;
  addr_width := word_width long;
  addr_width_pos := word_width_pos long;
  max_len := 15;
  decode := x86_decode long;
  exec := x86_exec long;
  decode_app := x86_decode_app long;
|}.
Definition X86_32 : Isa := X86_isa false.
Definition X86_64 : Isa := X86_isa true.
