(* ===== verification/X86Encode.v ===== *)
(** * X86Encode: the bytes asmx86 and asmx64 write, read back

    [parses p bs a]: parser [p] reads exactly [bs] and yields [a].  The rules
    follow the parsers of X86Isa; the lemmas on operands are about the bytes
    that the two back ends build with the same macros: the ModRM byte, the
    displacement with its SIB byte and the REX prefix. *)

From S2P Require Import Prelude AsmBase Machine Emission X86Isa.

Set Default Goal Selector "!".

(** ** Parsing what was written *)

Definition parses {A} (p : parser A) (bs : list Z) (a : A) : Prop :=
  forall rest, p (bs ++ rest) = Some (a, rest).

Lemma parses_ret {A} (a : A) : parses (mret a) [] a.
Proof. done. Qed.
Lemma parses_byte b : parses byte [b] b.
Proof. done. Qed.
Lemma parses_bind {A B} (p : parser A) (k : A -> parser B) bs cs a b :
  parses p bs a -> parses (k a) cs b -> parses (p ≫= k) (bs ++ cs) b.
Proof.
  intros Hp Hk rest. unfold mbind, parser_bind. rewrite <- app_assoc, Hp. apply Hk.
Qed.
(** The last part of a parser. *)
Lemma parses_last {A B} (p : parser A) (k : A -> parser B) bs a b :
  parses p bs a -> k a = mret b -> parses (p ≫= k) bs b.
Proof. intros Hp E. rewrite <- (app_nil_r bs). eapply parses_bind; [exact Hp|by rewrite E]. Qed.
Lemma parses_byte_then {B} (k : Z -> parser B) b bs x :
  parses (k b) bs x -> parses (byte ≫= k) (b :: bs) x.
Proof. apply (parses_bind byte k [b]). apply parses_byte. Qed.
Lemma parses_prefix_none {A B} (f : Z -> option A) (k : option A -> parser B) b bs x :
  f b = None -> parses (k None) (b :: bs) x -> parses (prefix f ≫= k) (b :: bs) x.
Proof. intros E Hk rest. unfold mbind, parser_bind. simpl. rewrite E. apply Hk. Qed.
Lemma parses_prefix_some {A B} (f : Z -> option A) (k : option A -> parser B) b bs a x :
  f b = Some a -> parses (k (Some a)) bs x -> parses (prefix f ≫= k) (b :: bs) x.
Proof. intros E Hk rest. unfold mbind, parser_bind. simpl. rewrite E. apply Hk. Qed.
Lemma parses_imm n v : parses (imm_bytes n) (le_bytes n v) (uw (8 * Z.of_nat n) v).
Proof.
  rewrite <- le_word_le_bytes. revert v. induction n as [|n IH]; intros v; [done|].
  simpl. apply parses_byte_then. by eapply parses_last.
Qed.
Lemma parses_simm n v : (0 < n)%nat -> parses (simm n) (le_bytes n v) (sw (8 * Z.of_nat n) v).
Proof.
  intros Hn. eapply parses_last; [apply parses_imm|]. by rewrite sw_uw by lia.
Qed.

(** ** Operands *)

(** The macros of the two back ends, under one name. *)
Definition modrm_byte (md x y : Z) : Z := u8 (((x .& 7) << 3) .| md .| (y .& 7)).
Definition fits8 (x : Z) : bool := (x .& 0xffffff80 =? 0) || (x .& 0xffffff80 =? 0xffffff80).
Definition disp_mode (b d : Z) : Z :=
  if (d =? 0) && negb (b .& 7 =? 5) then 0 else if fits8 d then 0x40 else 0x80.
Definition disp_bytes (x b d : Z) : list Z :=
  let md := disp_mode b d in
  modrm_byte md x b ::
  (if b .& 7 =? 4 then [u8 0x24] else []) ++
  (if md =? 0x40 then [u8 d] else if md =? 0x80 then le_bytes 4 d else []).

Lemma fits8_s32 x : fits8 x = (- 128 <=? s32 x) && (s32 x <? 128).
Proof. apply (fit_signed 32 7). lia. Qed.

(** The prefixes extend the registers [x] (in the reg field) and [y]. *)
Record extends (c : prefixes) (x y : Z) : Prop := {
  extends_r : 0 <= x < 16 /\ ext_r c = 8 * bits x 3 1;
  extends_b : 0 <= y < 16 /\ ext_b c = 8 * bits y 3 1;
  extends_x : ext_x c = 0;
}.

Lemma extended r : 0 <= r < 16 -> (r .& 7) + 8 * bits r 3 1 = r.
Proof.
  intros Hr. change 7 with (Z.ones 3). rewrite Z.land_ones by done. unfold bits.
  rewrite Z.shiftr_div_pow2 by done. change (2 ^ 3) with 8. word_lia.
Qed.

Section Operands.
Context (c : prefixes) (x y : Z) (Hc : extends c x y).

Lemma modrm_fields md : In md [0; 0x40; 0x80; 0xc0] ->
  bits (modrm_byte md x y) 6 2 = md / 64 /\ bits (modrm_byte md x y) 3 3 = x .& 7
  /\ bits (modrm_byte md x y) 0 3 = y .& 7.
Proof using.
  intros Hmd. unfold modrm_byte.
  repeat destruct Hmd as [<- | Hmd]; [..|done]; (split; [|split]);
    try change (0 / 64) with 0; try change (0x40 / 64) with 1; try change (0x80 / 64) with 2;
    try change (0xc0 / 64) with 3; bitsolve.
Qed.

Lemma parses_modrm_reg : parses (modrm c) [modrm_byte 0xc0 x y] (x, Reg y).
Proof using Hc.
  destruct Hc as [[Hx Er] [Hy Eb] Ex]. unfold modrm. apply parses_byte_then. cbv zeta.
  destruct (modrm_fields 0xc0) as (-> & -> & ->); [simpl; auto|]. change (0xc0 / 64 =? 3) with true. cbv iota.
  rewrite Er, Eb, !extended by done. apply parses_ret.
Qed.

(** The displacement in the form the mode byte announces. *)
Lemma parses_disp d : let md := disp_mode y d in
  parses (if md / 64 =? 0 then mret 0 else if md / 64 =? 1 then simm 1 else simm 4)
    (if md =? 0x40 then [u8 d] else if md =? 0x80 then le_bytes 4 d else []) (s32 d).
Proof using.
  unfold disp_mode. destruct (_ && _) eqn:E0; [|destruct (fits8 d) eqn:E8].
  - apply andb_prop in E0 as [->%Z.eqb_eq _]. apply parses_ret.
  - rewrite fits8_s32 in E8. replace (s32 d) with (s8 d); [exact (parses_simm 1 d ltac:(lia))|].
    apply andb_prop in E8 as [?%Z.leb_le ?%Z.ltb_lt]. word_lia.
  - exact (parses_simm 4 d ltac:(lia)).
Qed.
Lemma disp_mode_cases d : In (disp_mode y d) [0; 0x40; 0x80] /\ (disp_mode y d = 0 -> y .& 7 <> 5).
Proof using.
  unfold disp_mode. destruct (_ && _) eqn:E0; [|by destruct (fits8 d); split; [simpl; auto|done|simpl; auto|done]].
  apply andb_prop in E0 as [_ E0%negb_true_iff%Z.eqb_neq]. split; [simpl; auto|done].
Qed.

Lemma parses_modrm_mem d : parses (modrm c) (disp_bytes x y d) (x, Mem (Some y) (s32 d)).
Proof using Hc.
  pose proof (parses_disp d) as Hd. cbv zeta in Hd.
  destruct (disp_mode_cases d) as [Hmd H5].
  destruct Hc as [[Hx Er] [Hy Eb] Ex]. unfold modrm, disp_bytes. cbv zeta.
  set (md := disp_mode y d) in *. apply parses_byte_then.
  destruct (modrm_fields md) as (-> & -> & ->); [simpl in *; tauto|].
  assert ((md / 64 =? 3) = false) as -> by (by repeat destruct Hmd as [<- | Hmd]).
  rewrite Er, Eb, !extended by done.
  destruct (Z.eqb_spec (y .& 7) 4) as [E4|N4].
  - apply parses_byte_then. change (bits (u8 0x24) 3 5) with 4. change (bits (u8 0x24) 0 3) with 4.
    rewrite Ex. simpl (negb _). simpl (4 =? 5). rewrite andb_false_r. cbn [orb].
    eapply parses_last; [exact Hd|]. by rewrite <- E4, extended.
  - assert ((md / 64 =? 0) && (y .& 7 =? 5) = false) as ->.
    { destruct (Z.eqb_spec (md / 64) 0) as [E0|]; [|done]. simpl. apply Z.eqb_neq, H5.
      repeat destruct Hmd as [Hm | Hmd]; [done|..]; by rewrite <- ?Hm in E0. }
    eapply parses_last; [exact Hd|done].
Qed.
(** No base register. *)
Lemma parses_modrm_rip d : y = 5 ->
  parses (modrm c) (modrm_byte 0 x y :: le_bytes 4 d) (x, Mem None (s32 d)).
Proof using Hc.
  intros Hy5. destruct Hc as [[Hx Er] _ _]. unfold modrm. apply parses_byte_then. cbv zeta.
  destruct (modrm_fields 0) as (-> & -> & ->); [simpl; auto|]. rewrite Er, extended by done.
  assert (y .& 7 = 5) as -> by by rewrite Hy5.
  change (0 / 64 =? 3) with false. change (0 / 64 =? 0) with true.
  eapply parses_last; [exact (parses_simm 4 d ltac:(lia))|done].
Qed.
End Operands.

(** ** Prefixes *)

Definition plain : prefixes := mk_prefixes false None.
Definition op16 : prefixes := mk_prefixes true None.
(** [base] is 0x40, or 0x48 for REX.W; [x] and [y] are the registers whose
    fourth bits the prefix carries. *)
Definition rex_byte (base x y : Z) : Z := u8 (base .| ((x >> 1) .& 4) .| ((y >> 3) .& 1)).
Definition rexed (o : bool) (base x y : Z) : prefixes :=
  mk_prefixes o (Some (bits (rex_byte base x y) 0 4)).

Lemma extends_plain o x y : 0 <= x < 8 -> 0 <= y < 8 -> extends (mk_prefixes o None) x y.
Proof.
  intros Hx Hy. constructor; [split; [lia|]..|done]; unfold ext_r, ext_b, rex_bit; simpl.
  - replace (bits x 3 1) with 0 by bitsolve. done.
  - replace (bits y 3 1) with 0 by bitsolve. done.
Qed.
Lemma rexed_bit o base x y i : In base [0x40; 0x48] -> In i [0; 1; 2; 3] ->
  rex_bit i (rexed o base x y)
  = match i with 0 => bits y 3 1 | 1 => 0 | 2 => bits x 3 1 | _ => bits base 3 1 end.
Proof.
  intros Hb Hi. unfold rex_bit, rexed, rex_byte. simpl.
  repeat destruct Hb as [<- | Hb]; [..|done]; repeat destruct Hi as [<- | Hi]; try done;
    cbv beta iota; bitsolve.
Qed.
Lemma extends_rexed o base x y : In base [0x40; 0x48] -> 0 <= x < 16 -> 0 <= y < 16 ->
  extends (rexed o base x y) x y.
Proof.
  intros Hb Hx Hy. constructor; [split; [done|]..|]; unfold ext_r, ext_b, ext_x;
    by rewrite rexed_bit by (simpl; auto).
Qed.
Lemma rexed_width o x y : op_width (rexed o 0x48 x y) = 64.
Proof. unfold op_width, rex_w. by rewrite rexed_bit by (simpl; auto). Qed.
Lemma rexed_width_32 o x y : op_width (rexed o 0x40 x y) = if o then 16 else 32.
Proof. unfold op_width, rex_w. by rewrite rexed_bit by (simpl; auto). Qed.

Lemma rex_byte_high base x y : In base [0x40; 0x48] -> rex_byte base x y >> 4 = 4.
Proof. intros Hb. unfold rex_byte. repeat destruct Hb as [<- | Hb]; [..|done]; bitsolve. Qed.

Section Prefixes.
Context (long : bool).

(** The first byte is not a prefix. *)
Definition opcode (b : Z) : Prop := b <> 0x66 /\ (long = true -> b >> 4 <> 4).

Lemma parses_after_66 o b bs i : long && (b >> 4 =? 4) = false ->
  parses (decode_op (mk_prefixes o None)) (b :: bs) i ->
  parses (r ← prefix_rex long; decode_op (mk_prefixes o r)) (b :: bs) i.
Proof using. intros E Hp. apply parses_prefix_none; [by rewrite E|done]. Qed.

Lemma parses_plain b bs i : opcode b ->
  parses (decode_op plain) (b :: bs) i -> parses (x86_parse long) (b :: bs) i.
Proof using.
  intros [H66 H4] Hp rest. unfold x86_parse, prefix_66.
  unfold mbind at 1, parser_bind at 1, mbind at 1, parser_bind at 1. simpl.
  destruct (Z.eqb_spec b 0x66); [done|]. simpl. apply parses_after_66; [|done].
  destruct long; [|done]. simpl. apply Z.eqb_neq. auto.
Qed.

Lemma parses_66 b bs i : long && (b >> 4 =? 4) = false ->
  parses (decode_op op16) (b :: bs) i -> parses (x86_parse long) (0x66 :: b :: bs) i.
Proof using. intros E Hp rest. apply (parses_after_66 true b bs i E Hp). Qed.
End Prefixes.

Lemma parses_after_66_rex o base x y bs i : In base [0x40; 0x48] ->
  parses (decode_op (rexed o base x y)) bs i ->
  parses (r ← prefix_rex true; decode_op (mk_prefixes o r)) (rex_byte base x y :: bs) i.
Proof.
  intros Hb Hp. eapply parses_prefix_some; [|exact Hp].
  rewrite rex_byte_high by done. done.
Qed.
Lemma parses_rex base x y bs i : In base [0x40; 0x48] ->
  parses (decode_op (rexed false base x y)) bs i ->
  parses (x86_parse true) (rex_byte base x y :: bs) i.
Proof.
  intros Hb Hp rest. unfold x86_parse, prefix_66.
  unfold mbind at 1, parser_bind at 1, mbind at 1, parser_bind at 1. simpl.
  destruct (Z.eqb_spec (rex_byte base x y) 0x66) as [E|]; simpl.
  - pose proof (rex_byte_high base x y Hb) as Hh. by rewrite E in Hh.
  - by apply (parses_after_66_rex false base x y bs i Hb).
Qed.
Lemma parses_66_rex base x y bs i : In base [0x40; 0x48] ->
  parses (decode_op (rexed true base x y)) bs i ->
  parses (x86_parse true) (0x66 :: rex_byte base x y :: bs) i.
Proof. intros Hb Hp rest. apply (parses_after_66_rex true base x y bs i Hb Hp). Qed.

(** ** Instructions *)

(** One with a ModRM operand, [pre] being the opcode, and what follows it. *)
Lemma parses_modrm_then c pre bs cs x i (k : Z * place -> parser x86_instr) :
  parses (modrm c) bs x -> (forall rest, decode_op c (pre ++ rest) = (modrm c ≫= k) rest) ->
  parses (k x) cs i -> parses (decode_op c) (pre ++ bs ++ cs) i.
Proof.
  intros Hm Hk Hi rest. rewrite <- !app_assoc, Hk, app_assoc. exact (parses_bind _ _ _ _ _ _ Hm Hi rest).
Qed.
Lemma parses_modrm_op c pre bs x i (k : Z * place -> parser x86_instr) :
  parses (modrm c) bs x -> (forall rest, decode_op c (pre ++ rest) = (modrm c ≫= k) rest) ->
  k x = mret i -> parses (decode_op c) (pre ++ bs) i.
Proof.
  intros Hm Hk Hi. rewrite <- (app_nil_r bs). eapply parses_modrm_then; [exact Hm|exact Hk|by rewrite Hi].
Qed.

(** [op r/m, reg] with a register or a memory operand. *)
Lemma parses_rr c pre x y i (k : Z * place -> parser x86_instr) : extends c x y ->
  (forall rest, decode_op c (pre ++ rest) = (modrm c ≫= k) rest) -> k (x, Reg y) = mret i ->
  parses (decode_op c) (pre ++ [modrm_byte 0xc0 x y]) i.
Proof. intros Hc. apply parses_modrm_op. by apply parses_modrm_reg. Qed.
Lemma parses_rm c pre x y d i (k : Z * place -> parser x86_instr) : extends c x y ->
  (forall rest, decode_op c (pre ++ rest) = (modrm c ≫= k) rest) ->
  k (x, Mem (Some y) (s32 d)) = mret i ->
  parses (decode_op c) (pre ++ disp_bytes x y d) i.
Proof. intros Hc. apply parses_modrm_op. by apply parses_modrm_mem. Qed.

(** Registers and condition codes in the low bits of an opcode. *)
Section OpcodeRegister.
Context (o : option Z) (x : Z) (Hx : 0 <= x < 8).
Abbreviation c := (mk_prefixes false o).

Lemma parses_push : parses (decode_op c) [u8 (0x50 .| x)] (PUSH (x + ext_b c)).
Proof using Hx. enumerate 8%nat x; done. Qed.
Lemma parses_pop : parses (decode_op c) [u8 (0x58 .| x)] (POP (x + ext_b c)).
Proof using Hx. enumerate 8%nat x; done. Qed.
Lemma parses_movi n v : n = Z.to_nat (op_width c / 8) ->
  parses (decode_op c) (u8 (0xb8 .| x) :: le_bytes n v) (MOVI (op_width c) (x + ext_b c) (uw (8 * Z.of_nat n) v)).
Proof using Hx.
  intros ->. enumerate 8%nat x; (apply parses_byte_then; eapply parses_last; [apply parses_imm|done]).
Qed.
Lemma opcode_low long op : In op [0x50; 0x58; 0xb8] -> opcode long (u8 (op .| x)).
Proof using Hx. intros Hop. repeat destruct Hop as [<- | Hop]; [..|done]; enumerate 8%nat x; done. Qed.
End OpcodeRegister.

(** The extension bit of the register: REX.B. *)
Lemma extended_b o base r : In base [0x40; 0x48] -> 0 <= r < 16 ->
  (r .& 7) + ext_b (rexed o base 0 r) = r.
Proof. intros Hb Hr. unfold ext_b. rewrite rexed_bit by (simpl; auto). by apply extended. Qed.
Lemma rex_byte_b base r : In base [0x40; 0x48] -> 0 <= r < 16 ->
  rex_byte base 0 r = u8 (base .| (if r <? 8 then 0 else 1)).
Proof.
  intros Hb Hr. unfold rex_byte. rewrite Z.shiftr_div_pow2, (Z.shiftr_div_pow2 r 3) by done.
  assert (r / 2 ^ 3 = if r <? 8 then 0 else 1) as ->; [|by destruct (r <? 8); repeat destruct Hb as [<- | Hb]].
  destruct (Z.ltb_spec r 8); [apply Z.div_small; simpl; lia|]. symmetry. apply (Z.div_unique r 8 1 (r - 8)); lia.
Qed.
Lemma low3_range r : 0 <= r .& 7 < 8.
Proof. change 7 with (Z.ones 3). rewrite Z.land_ones by done. by apply Z.mod_pos_bound. Qed.
Lemma low3_small r : 0 <= r < 8 -> r .& 7 = r.
Proof. intros. change 7 with (Z.ones 3). rewrite Z.land_ones by done. by apply Z.mod_small. Qed.

(** No instruction is longer than the decoder's window. *)
Lemma length_disp_bytes x y d : (length (disp_bytes x y d) <= 6)%nat.
Proof.
  unfold disp_bytes. simpl. rewrite length_app. apply le_n_S. apply (Nat.add_le_mono _ 1 _ 4).
  - destruct (y .& 7 =? 4); simpl; lia.
  - destruct (disp_mode y d =? 0x40); [simpl; lia|]. destruct (disp_mode y d =? 0x80); simpl; lia.
Qed.
Ltac code_length :=
  rewrite ?length_app;
  repeat match goal with |- context [length (disp_bytes ?x ?y ?d)] =>
    pose proof (length_disp_bytes x y d); generalize dependent (length (disp_bytes x y d)); intros ? ? end;
  simpl; lia.
