(* ===== verification/X86Effect.v ===== *)
(** * X86Effect: what an x86 instruction does, the program counter aside

    [effect i] is the effect of an instruction that falls through, as a
    function on machines; the code of an operation that assembles to such an
    instruction performs it.  The predicates the specifications of asmx86 and
    asmx64 are written with are at the end. *)

From S2P Require Import Prelude AsmBase Machine Emission X86Isa X86Encode.

Set Default Goal Selector "!".

(** Comparisons and tests only set flags. *)
Lemma result_flags_same c o w v mc : same_except flags mc (result_flags c o w v mc).
Proof.
  split; [|done]. intros r Hr. unfold result_flags, set_flags. unfold flags in Hr.
  repeat (apply not_elem_of_cons in Hr as [? Hr]). by rewrite !reg_set_ne by done.
Qed.
Lemma result_flags_zero c o w v mc : flag ZF (result_flags c o w v mc) = (uw w v =? 0).
Proof.
  unfold flag, result_flags, set_flags. rewrite !reg_set_ne, reg_set_eq by done. by destruct (uw w v =? 0).
Qed.

Section Effect.
Context (long : bool).
#[local] Hint Extern 0 Isa => exact (X86_isa long) : typeclass_instances.
Abbreviation W := (word_width long).
Implicit Types (i : x86_instr) (m : machine).

(** Long mode's addresses without a base depend on the program counter. *)
Definition based (p : place) : bool := match p with Mem None _ => negb long | _ => true end.
Definition straight_line i : bool :=
  match i with
  | RET | JMP _ | JCC _ _ | JMPR _ | CALL _ | CALLR _ => false
  | NOP | PUSH _ | POP _ | MOVI _ _ _ => true
  | MOV _ dst src | ALU _ _ dst src => based dst && based src
  | MOVZX _ _ _ p | ALUI _ _ p _ | NOT _ p | NEG _ p | SHIFT _ _ p | IMUL _ _ p
  | SETCC _ p => based p
  | LEA _ _ p => match p with Mem _ _ => based p | _ => false end
  end.

Definition effect i m : machine :=
  match x86_exec long i 0 m with Some m' => set_pc (pc m) m' | None => m end.

Lemma address_based b d n n' m : based (Mem b d) = true -> address long b d n m = address long b d n' m.
Proof using. unfold address. destruct b; [done|]. simpl. by destruct long. Qed.
Lemma read_based w p n n' m : based p = true -> read long w p n m = read long w p n' m.
Proof using. destruct p as [r|r|b d]; [done..|]. intros Hb. simpl. by rewrite (address_based b d n n'). Qed.
Lemma write_based w p n n' v m : based p = true -> write long w p n v m = write long w p n' v m.
Proof using. destruct p as [r|r|b d]; [done..|]. intros Hb. simpl. by rewrite (address_based b d n n'). Qed.
Lemma write_set_pc w p n v a m : write long w p n v (set_pc a m) = set_pc a (write long w p n v m).
Proof using. destruct p; simpl; [by destruct (32 <=? w)|done|done]. Qed.
Lemma read_set_pc w p n a m : read long w p n (set_pc a m) = read long w p n m.
Proof using. by destruct p as [| |[]]. Qed.
Lemma address_set_pc b d n a m : address long b d n (set_pc a m) = address long b d n m.
Proof using. by destruct b. Qed.
Lemma alu_exec_set_pc op w p n a b c m :
  alu_exec long op w p n a b (set_pc c m) = set_pc c (alu_exec long op w p n a b m).
Proof using. destruct op; simpl; rewrite <- ?write_set_pc; done. Qed.
Lemma alu_exec_based op w p n n' a b m : based p = true ->
  alu_exec long op w p n a b m = alu_exec long op w p n' a b m.
Proof using. intros Hb. destruct op; simpl; rewrite ?(write_based w p n n') by done; done. Qed.
Lemma shift_exec_set_pc op w p n k a c m :
  shift_exec long op w p n k a (set_pc c m) = set_pc c (shift_exec long op w p n k a m).
Proof using. unfold shift_exec. destruct (k =? 0); [done|]. destruct op; rewrite <- ?write_set_pc; done. Qed.
Lemma shift_exec_based op w p n n' k a m : based p = true ->
  shift_exec long op w p n k a m = shift_exec long op w p n' k a m.
Proof using.
  intros Hb. unfold shift_exec. destruct (k =? 0); [done|].
  destruct op; rewrite ?(write_based w p n n') by done; done.
Qed.

Lemma effect_exec i len m : straight_line i = true ->
  x86_exec long i len m = Some (set_pc (uw W (pc m + len)) (effect i m)).
Proof using.
  unfold effect. destruct i; intros Hs; simpl in Hs; try discriminate; try reflexivity;
    try (apply andb_prop in Hs as [Hd Hs]); cbn [x86_exec]; cbv zeta;
    change (X86Isa.W long) with W;
    generalize (uw W (pc m + len)) (uw W (pc m + 0)); intros n1 n2;
    try (destruct src as [|?|b d]; [discriminate..|]; rewrite (address_based b d n1 n2) by done; reflexivity);
    rewrite ?(alu_exec_based _ _ _ n1 n2), ?(shift_exec_based _ _ _ n1 n2), ?(read_based _ _ n1 n2), ?(write_based _ _ n1 n2) by done;
    reflexivity.
Qed.

Lemma effect_blind i : straight_line i = true -> pc_blind (effect i).
Proof using.
  unfold effect. intros Hs a m. destruct i; simpl in Hs; try discriminate; try reflexivity;
    try (apply andb_prop in Hs as [Hd Hs]); cbn [x86_exec]; cbv zeta;
    change (X86Isa.W long) with W; change (pc (set_pc a m)) with a;
    generalize (uw W (a + 0)) (uw W (pc m + 0)); intros n1 n2;
    try (destruct src as [|?|b d]; [discriminate..|]; rewrite (address_based b d n1 n2) by done;
         by rewrite address_set_pc, write_set_pc);
    rewrite ?(alu_exec_based _ _ _ n1 n2), ?(shift_exec_based _ _ _ n1 n2), ?(read_based _ _ n1 n2), ?(write_based _ _ n1 n2) by done;
    rewrite ?read_set_pc, ?alu_exec_set_pc, ?shift_exec_set_pc; rewrite <- ?write_set_pc; reflexivity.
Qed.

Lemma assembles_effect `{SizeT} {S : Type} `{!HasBase S} (s : S) op i len :
  assembles s op [(i, len)] -> straight_line i = true -> performs s op (effect i).
Proof using.
  intros Ha Hs. eapply assembles_performs; [exact Ha|]. intros mc _. simpl.
  rewrite (effect_exec i len mc Hs). simpl. by rewrite Z.add_0_r.
Qed.

(** The same before other code, the number of bytes being known. *)
Lemma straight_assembles_then `{SizeT} {S : Type} `{!HasBase S} (s : S) op k i len (Q : Z -> machine -> machine -> Prop) :
  assembles s op [(i, len)] -> straight_line i = true ->
  (forall bs, Z.of_nat (length bs) = len -> implements (puts bs s) k Q) ->
  implements s (op;; k) (fun n mc mc' => exists n2,
    n = len + n2 /\ Q n2 (set_pc (uw W (pc mc + len)) (effect i mc)) mc').
Proof using.
  intros Hm Hs Hk. eapply implements_mono;
    [apply (assembles_then (H0 := X86_isa long) s op k [(i, len)] (effect i) Q Hm)|].
  - intros mc. simpl. rewrite Z.add_0_r. by rewrite (effect_exec i len mc Hs).
  - intros bs Hl. simpl in Hl. rewrite Z.add_0_r in Hl. by apply Hk.
  - intros n mc mc' (n2 & -> & HQ). simpl in *. rewrite Z.add_0_r in *. eauto.
Qed.

(** An operation that emits [bs], which decode to [i]. *)
Lemma decoded_assembles `{SizeT} {S : Type} `{!HasBase S} (s : S) op bs i :
  emits s op bs -> parses (x86_parse long) bs i -> (length bs <= 15)%nat ->
  assembles s op [(i, Z.of_nat (length bs))].
Proof using.
  intros He Hp Hl. apply (assembles_one (H0 := X86_isa long) s op bs i); [done| |done|done].
  cbn [decode X86_isa]. unfold x86_decode. specialize (Hp []). rewrite app_nil_r in Hp. rewrite Hp.
  do 2 f_equal. simpl. lia.
Qed.
Lemma decoded_performs `{SizeT} {S : Type} `{!HasBase S} (s : S) op bs i :
  emits s op bs -> parses (x86_parse long) bs i -> (length bs <= 15)%nat -> straight_line i = true ->
  performs s op (effect i).
Proof using. intros. eapply assembles_effect; [by eapply decoded_assembles|done]. Qed.
End Effect.
