(* ===== verification/X86Stack.v ===== *)
(** * X86Stack: pushes, pops and the frame of a function

    What the entry and exit sequences of asmx86 and asmx64 have in common: the
    registers of a list are pushed, room for the locals is made below them,
    and the exit releases it, pops the registers and returns. *)

From S2P Require Import Prelude Machine Emission X86Isa X86Encode X86Effect.

Set Default Goal Selector "!".

Section Stack.
Context (long : bool).
Abbreviation W := (word_width long).
(** The bytes of a word. *)
Definition wbytes : Z := word_width long / 8.
Abbreviation K := (Z.to_nat wbytes).
Implicit Types (m : machine) (rs : list Z).

Definition push_reg r m : machine := push long (reg r m) m.
Definition pop_reg r m : machine := set_reg r (top long m) (popped long m).
Definition push_all rs m : machine := foldl (fun m r => push_reg r m) m rs.
Definition pop_all rs m : machine := foldl (fun m r => pop_reg r m) m rs.
Definition sp m : Z := reg 4 m.

Lemma wbytes_cases : wbytes = 4 \/ wbytes = 8.
Proof using. unfold wbytes. destruct long; [by right|by left]. Qed.
Lemma W_wbytes : W = 8 * wbytes.
Proof using. unfold wbytes. by destruct long. Qed.
Lemma W_pos : 0 < W.
Proof using. by destruct long. Qed.
Lemma wbytes_K : Z.of_nat K = wbytes.
Proof using. destruct wbytes_cases as [-> | ->]; done. Qed.
Lemma wbytes_small : 2 ^ 32 <= 2 ^ W.
Proof using. apply Z.pow_le_mono_r; [done|]. by destruct long. Qed.
Hint Resolve W_pos : core.

(** A word is what a load of a word gives. *)
Lemma uw_word x : uw (8 * Z.of_nat K) x = uw W x.
Proof using. by rewrite wbytes_K, <- W_wbytes. Qed.

(** ** Pushing *)

Definition gpr (r : Z) : Prop := 0 <= r < 16.
(** The registers are kept, the stack pointer is [n] bytes lower, and memory
    is as before except in those [n] bytes. *)
Record lowers (n : Z) m m' : Prop := {
  lowers_reg r : gpr r -> r <> 4 -> reg r m' = reg r m;
  lowers_sp : uw W (sp m') = uw W (sp m - n);
  lowers_mem o : 0 <= o < 2 ^ W - n -> peek W (mem m') (sp m + o) = peek W (mem m) (sp m + o);
}.

Lemma lowers_refl m : lowers 0 m m.
Proof using. constructor; try done. by rewrite Z.sub_0_r. Qed.

Lemma lowers_trans n1 n2 m m1 m2 : 0 <= n1 -> 0 <= n2 ->
  lowers n1 m m1 -> lowers n2 m1 m2 -> lowers (n1 + n2) m m2.
Proof using.
  intros H1 H2 [R1 S1 M1] [R2 S2 M2]. constructor.
  - intros r Hg Hr. by rewrite R2, R1.
  - rewrite S2, <- uw_sub_l, S1, uw_sub_l by done. f_equal. lia.
  - intros o Ho. rewrite <- (M1 o) by lia.
    assert (forall h, peek W h (sp m + o) = peek W h (sp m1 + (n1 + o))) as E.
    { intros h. apply peek_cong. rewrite <- (uw_add_l W W_pos (sp m1)), S1, uw_add_l by done. f_equal. lia. }
    rewrite !E. apply M2. lia.
Qed.

Lemma lowers_set_sp n m m' : (forall r, gpr r -> r <> 4 -> reg r m' = reg r m) ->
  uw W (sp m') = uw W (sp m - n) -> mem m' = mem m -> lowers n m m'.
Proof using. intros ? ? E. constructor; [done..|]. by rewrite E. Qed.

Lemma push_eq v m : push long v m
  = set_mem (store W K (mem m) (uw W (sp m - wbytes)) v) (set_reg 4 (uw W (sp m - wbytes)) m).
Proof using. done. Qed.

Lemma push_lowers v m : lowers wbytes m (push long v m).
Proof using.
  pose proof wbytes_cases. pose proof wbytes_small. rewrite push_eq. constructor.
  - intros r _ Hr. by autorewrite with machine.
  - unfold sp at 1. autorewrite with machine. by rewrite uw_uw.
  - intros o Ho. cbn [mem set_mem].
    rewrite peek_store by (rewrite ?wbytes_K; lia || done).
    rewrite ltb_false; [done|]. rewrite uw_sub_r by done.
    replace (sp m + o - (sp m - wbytes)) with (o + wbytes) by lia.
    rewrite wbytes_K, uw_small by lia. lia.
Qed.

Lemma push_top v m : load W K (mem (push long v m)) (sp (push long v m)) = uw W v.
Proof using.
  rewrite push_eq. unfold sp. autorewrite with machine.
  pose proof wbytes_cases. pose proof wbytes_small.
  by rewrite load_store_same, uw_word by (rewrite ?wbytes_K; lia || done).
Qed.

(** Bytes above the ones pushed. *)
Lemma lowers_load n m m' k o : lowers n m m' -> 0 <= n -> 0 <= o -> o + Z.of_nat k <= 2 ^ W - n ->
  load W k (mem m') (sp m + o) = load W k (mem m) (sp m + o).
Proof using.
  intros Hl Hn Ho Hk. apply load_ext. intros i Hi. rewrite <- Z.add_assoc.
  apply (lowers_mem _ _ _ Hl). lia.
Qed.

(** Where the [i]-th of the pushed registers is. *)
Definition slot m (i : nat) : Z := sp m - wbytes * (Z.of_nat i + 1).

Lemma push_all_lowers rs m : lowers (wbytes * Z.of_nat (length rs)) m (push_all rs m).
Proof using.
  pose proof wbytes_cases. revert m. induction rs as [|r rs IH]; intros m; simpl.
  - rewrite Z.mul_0_r. apply lowers_refl.
  - replace (wbytes * Z.of_nat (S (length rs))) with (wbytes + wbytes * Z.of_nat (length rs)) by lia.
    eapply lowers_trans; [lia|lia|apply push_lowers|apply IH].
Qed.

Lemma push_all_saved rs m i r : Forall gpr rs -> 4 ∉ rs -> rs !! i = Some r -> wbytes * Z.of_nat (length rs) <= 2 ^ W ->
  load W K (mem (push_all rs m)) (slot m i) = uw W (reg r m).
Proof using.
  pose proof wbytes_cases. revert m i. induction rs as [|q rs IH]; intros m i Hg H4 Hi Hl; [done|].
  apply Forall_cons in Hg as [Hgq Hg].
  apply not_elem_of_cons in H4 as [H4q H4]. simpl in Hl |- *.
  pose proof (push_lowers (reg q m) m) as Hp. fold (push_reg q m) in Hp.
  assert (forall o, uw W (sp (push_reg q m) + o) = uw W (sp m - wbytes + o)) as Es
    by (intros o; by rewrite <- uw_add_l, (lowers_sp _ _ _ Hp), uw_add_l).
  destruct i as [|i]; simpl in Hi.
  - injection Hi as ->. rewrite (load_cong W W_pos K _ _ (sp (push_reg r m) + 0)).
    2: { rewrite Es. unfold slot. f_equal. lia. }
    rewrite (lowers_load _ _ _ _ _ (push_all_lowers rs (push_reg r m))), Z.add_0_r by (rewrite ?wbytes_K; lia).
    apply push_top.
  - rewrite (load_cong W W_pos K _ _ (slot (push_reg q m) i)).
    2: { unfold slot at 2. rewrite <- Z.add_opp_r, Es. unfold slot. f_equal. lia. }
    rewrite IH by (done || lia). f_equal. apply (lowers_reg _ _ _ Hp).
    { eapply Forall_lookup_1; [exact Hg|exact Hi]. }
    intros ->. apply H4. by eapply list_elem_of_lookup_2.
Qed.

(** ** Popping *)

Lemma pop_all_spec rs m : 4 ∉ rs -> NoDup rs ->
  (forall i r, rs !! i = Some r ->
     reg r (pop_all rs m) = load W K (mem m) (sp m + wbytes * Z.of_nat i))
  /\ uw W (sp (pop_all rs m)) = uw W (sp m + wbytes * Z.of_nat (length rs))
  /\ (forall r, r ∉ rs -> r <> 4 -> reg r (pop_all rs m) = reg r m)
  /\ mem (pop_all rs m) = mem m /\ pc (pop_all rs m) = pc m.
Proof using.
  revert m. induction rs as [|q rs IH]; intros m H4 Hnd; simpl.
  - split; [done|]. by rewrite Z.mul_0_r, Z.add_0_r.
  - apply not_elem_of_cons in H4 as [H4q H4]. apply NoDup_cons in Hnd as [Hq Hnd].
    destruct (IH (pop_reg q m) H4 Hnd) as (Hr & Hs & Ho & Hm & Hp).
    assert (sp (pop_reg q m) = uw W (sp m + wbytes)) as Es.
    { unfold sp, pop_reg, popped. by autorewrite with machine. }
    split; [|split; [|split; [|split]]].
    + intros [|i] r Hi; simpl in Hi.
      * injection Hi as ->. rewrite Ho by done. unfold pop_reg. autorewrite with machine.
        by rewrite Z.mul_0_r, Z.add_0_r.
      * rewrite (Hr i r Hi). change (mem (pop_reg q m)) with (mem m). apply load_cong; [done|].
        rewrite Es, uw_add_l by done. f_equal. lia.
    + rewrite Hs, Es, uw_add_l by done. f_equal. lia.
    + intros r [? ?]%not_elem_of_cons ?. rewrite Ho by done.
      unfold pop_reg, popped. by autorewrite with machine.
    + by rewrite Hm.
    + by rewrite Hp.
Qed.

(** ** The frame of a function *)

(** Below the return address are the registers [rs], then [n] bytes. *)
Section Frame.
Context (rs : list Z) (n : Z).
Context (Hrs : Forall gpr rs) (H4 : 4 ∉ rs) (Hnd : NoDup rs).
Abbreviation saved := (wbytes * Z.of_nat (length rs)).
Context (Hn : 0 <= n) (Hfit : n + saved + wbytes <= 2 ^ W).

Definition frame_entered m m1 : Prop :=
  lowers (saved + n) m m1
  /\ forall i r, rs !! i = Some r -> load W K (mem m1) (slot m i) = uw W (reg r m).

(** The body may write the [n] bytes it was given and what is below them. *)
Definition body_keeps_frame m1 mb : Prop :=
  uw W (sp mb) = uw W (sp m1)
  /\ forall o, n <= o < n + saved + wbytes ->
       peek W (mem mb) (sp m1 + o) = peek W (mem m1) (sp m1 + o).

Definition frame_left mb m2 : Prop :=
  (forall i r, reverse rs !! i = Some r ->
     reg r m2 = load W K (mem mb) (sp mb + n + wbytes * Z.of_nat i))
  /\ uw W (sp m2) = uw W (sp mb + n + saved + wbytes)
  /\ pc m2 = load W K (mem mb) (sp mb + n + saved).

(** The entry: the pushes, then the stack pointer moved by [n]. *)
Lemma enter_frame m m1 : lowers n (push_all rs m) m1 -> frame_entered m m1.
Proof using Hrs H4 Hn Hfit.
  intros Hl. pose proof wbytes_cases. pose proof (push_all_lowers rs m) as Hp.
  split; [by eapply (lowers_trans saved n); [lia|done|exact Hp|exact Hl]|].
  intros i r Hi. rewrite <- (push_all_saved rs m i r) by (done || lia).
  apply lookup_lt_Some in Hi as Hlt.
  assert (forall h, load W K h (slot m i)
    = load W K h (sp (push_all rs m) + (saved - wbytes * (Z.of_nat i + 1)))) as E.
  { intros h. apply load_cong; [done|].
    rewrite <- (uw_add_l W W_pos (sp (push_all rs m))), (lowers_sp _ _ _ Hp), uw_add_l by done.
    unfold slot. f_equal. lia. }
  rewrite !E. eapply lowers_load; [exact Hl|done|nia|]. rewrite wbytes_K. nia.
Qed.

(** The exit: the stack pointer moved back, the pops, the return. *)
Lemma leave_frame mb mc m2 : mem mc = mem mb -> uw W (sp mc) = uw W (sp mb + n) ->
  m2 = set_pc (top long (pop_all (reverse rs) mc)) (popped long (pop_all (reverse rs) mc)) ->
  frame_left mb m2.
Proof using H4 Hnd.
  intros Hm Hs ->. destruct (pop_all_spec (reverse rs) mc) as (Hr & Hsp & Ho & Hmem & _).
  { by rewrite elem_of_reverse. }
  { by rewrite reverse_Permutation. }
  rewrite length_reverse in Hsp.
  assert (forall x h, load W K h (sp mc + x) = load W K h (sp mb + n + x)) as E.
  { intros x h. apply load_cong; [done|]. by rewrite <- uw_add_l, Hs, uw_add_l. }
  split; [|split].
  - intros i r Hi. unfold popped. autorewrite with machine. rewrite reg_set_ne.
    + by rewrite (Hr i r Hi), Hm, E.
    + intros ->. apply H4. apply list_elem_of_lookup_2 in Hi. by apply elem_of_reverse.
  - unfold sp at 1, popped. autorewrite with machine. change (X86Isa.W long) with W. fold wbytes.
    change (reg 4 (pop_all (reverse rs) mc)) with (sp (pop_all (reverse rs) mc)).
    rewrite uw_uw, <- (uw_add_l W W_pos (sp _)), Hsp, uw_add_l, <- Z.add_assoc by done.
    rewrite <- uw_add_l, Hs, uw_add_l by done. f_equal. lia.
  - rewrite pc_set_pc. unfold top. rewrite Hmem, Hm. rewrite <- E. apply load_cong; [done|].
    exact Hsp.
Qed.

Lemma x86_frame_roundtrip m m1 mb m2 : frame_entered m m1 -> body_keeps_frame m1 mb -> frame_left mb m2 ->
  (forall r, r ∈ rs -> reg r m2 = uw W (reg r m))
  /\ uw W (sp m2) = uw W (sp m + wbytes) /\ pc m2 = load W K (mem m) (sp m).
Proof using Hn Hfit.
  intros [Hl Hsv] [Hsp Hk] (Hr & Hs2 & Hpc). pose proof wbytes_cases.
  pose proof (lowers_sp _ _ _ Hl) as Hs1.
  assert (forall o, n <= o -> o + wbytes <= n + saved + wbytes ->
    load W K (mem mb) (sp mb + o) = load W K (mem m1) (sp m - (saved + n) + o)) as Eb.
  { intros o H1 H2. transitivity (load W K (mem m1) (sp m1 + o)).
    - rewrite (load_cong W W_pos K _ _ (sp m1 + o)) by (by rewrite <- uw_add_l, Hsp, uw_add_l).
      apply load_ext. intros i Hi. rewrite <- Z.add_assoc. apply Hk.
      pose proof wbytes_K. lia.
    - apply load_cong; [done|]. by rewrite <- uw_add_l, Hs1, uw_add_l. }
  split; [|split].
  - intros r Hin. apply elem_of_reverse, list_elem_of_lookup in Hin as [i Hi]. pose proof Hi as Hi'.
    apply reverse_lookup_Some in Hi' as [Hi' Hlt]. rewrite (Hr i r Hi).
    replace (sp mb + n + wbytes * Z.of_nat i) with (sp mb + (n + wbytes * Z.of_nat i)) by lia.
    rewrite Eb by nia. rewrite <- (Hsv _ _ Hi'). apply load_cong; [done|]. f_equal. unfold slot. nia.
  - rewrite Hs2. rewrite <- !Z.add_assoc, <- uw_add_l, Hsp, uw_add_l, <- uw_add_l, Hs1, uw_add_l by done.
    f_equal. lia.
  - rewrite Hpc, <- Z.add_assoc, Eb by lia.
    replace (sp m - (saved + n) + (n + saved)) with (sp m + 0) by lia.
    rewrite (lowers_load _ _ _ _ _ Hl), Z.add_0_r by (rewrite ?wbytes_K; lia). done.
Qed.
End Frame.

(** Moving the stack pointer. *)
Definition moves_sp (d : Z) m m' : Prop :=
  (forall r, gpr r -> r <> 4 -> reg r m' = reg r m) /\ sp m' = uw W (sp m + d) /\ mem m' = mem m.

Lemma set_sp_moves_sp d v c o a m : uw W v = uw W (sp m + d) ->
  moves_sp d m (set_pc a (set_reg 4 (uw W v) (result_flags c o W v m))).
Proof using.
  assert (forall r, gpr r -> r <> CF /\ r <> ZF /\ r <> SF /\ r <> OF) as Hne
    by (unfold gpr, CF, ZF, SF, OF; lia).
  intros E. unfold result_flags, set_flags, moves_sp, sp. split; [|split; [|done]].
  - intros r Hg Hr. destruct (Hne r Hg) as (? & ? & ? & ?).
    by autorewrite with machine.
  - by rewrite reg_set_pc, reg_set_eq.
Qed.
Lemma sub_moves_sp i m : moves_sp (- i) m (effect long (ALUI SUB W (Reg 4) i) m).
Proof using.
  assert ((32 <=? W) = true) as HW by by destruct long.
  unfold effect. cbn [x86_exec alu_exec write read]. rewrite HW. apply set_sp_moves_sp.
  by rewrite uw_uw, uw_sub_l, uw_sub_r by done.
Qed.
Lemma add_moves_sp i m : moves_sp i m (effect long (ALUI ADD W (Reg 4) i) m).
Proof using.
  assert ((32 <=? W) = true) as HW by by destruct long.
  unfold effect. cbn [x86_exec alu_exec write read]. rewrite HW. apply set_sp_moves_sp.
  by rewrite uw_uw, uw_add_l, uw_add_r by done.
Qed.
Lemma moves_sp_set_pc d m a m' : moves_sp d m m' -> moves_sp d m (set_pc a m').
Proof using. done. Qed.
Lemma moves_lowers n m m' : moves_sp (- n) m m' -> lowers n m m'.
Proof using. intros (? & Hs & ?). apply lowers_set_sp; [done| |done]. by rewrite Hs, uw_uw. Qed.

Lemma effect_push r m : effect long (PUSH r) m = push_reg r m.
Proof using. done. Qed.
Lemma effect_pop r m : effect long (POP r) m = pop_reg r m.
Proof using. done. Qed.
Lemma push_reg_blind r : pc_blind (push_reg r).
Proof using. done. Qed.
Lemma pop_reg_blind r : pc_blind (pop_reg r).
Proof using. done. Qed.
End Stack.
