(* ===== verification/X86Arith.v ===== *)
(** * X86Arith: what the arithmetic instructions compute

    The register forms of the two-operand and one-operand instructions leave
    the result of the operation on words in the destination and change nothing
    else but flags, in 32-bit and in long mode. *)

From S2P Require Import Prelude AsmBase Machine Emission X86Isa X86Encode X86Effect X86Stack.

Set Default Goal Selector "!".

Section Arith.
Context (long : bool).
#[local] Hint Extern 0 Isa => exact (X86_isa long) : typeclass_instances.
Abbreviation W := (word_width long).
Abbreviation uW := (uw (word_width long)).
Implicit Types (mc : machine).
Hint Resolve W_pos : core.

(** The code falls through with [v] in [r]; other registers and memory are
    kept, flags aside. *)
Definition computes (r : Z) (v : machine -> Z) (n : Z) (mc mc' : machine) : Prop :=
  pc mc' = uW (pc mc + n) /\ uW (reg r mc') = uW (v mc) /\ same_except (r :: flags) mc mc'.

Lemma same_except_set X r v mc mc' : r ∈ X -> same_except X mc mc' -> same_except X mc (set_reg r v mc').
Proof using.
  intros Hr [Hk Hm]. split; [|done]. intros q Hq. rewrite reg_set_ne; [auto|]. by intros ->.
Qed.
Lemma same_except_mono X Y mc mc' : X ⊆ Y -> same_except X mc mc' -> same_except Y mc mc'.
Proof using. intros HXY [Hk Hm]. split; [|done]. intros r Hr. apply Hk. auto. Qed.
(** [v] in register [r], up to the flags. *)
Definition writes_result (r v : Z) (mc mc' : machine) : Prop :=
  uW (reg r mc') = uW v /\ same_except (r :: flags) mc mc'.

Lemma writes_result_intro r v mc fl : same_except flags mc fl ->
  writes_result r v mc (write long W (Reg r) 0 v fl).
Proof using.
  intros Hs. assert ((32 <=? W) = true) as HW by (by destruct long). unfold write. rewrite HW.
  split; [by rewrite reg_set_eq, uw_uw|].
  apply same_except_set; [apply elem_of_cons; by left|].
  eapply same_except_mono; [|exact Hs]. intros q Hq. apply elem_of_cons. by right.
Qed.

Lemma performs_computes `{SizeT} {S : Type} `{!HasBase S} (s : S) op f r v : performs s op f ->
  (forall mc, exists x, writes_result r x mc (f mc) /\ uW x = uW (v mc)) ->
  implements s op (computes r v).
Proof using.
  intros Hp Hf. eapply implements_mono; [exact Hp|]. intros n mc mc' ->.
  destruct (Hf mc) as (x & (Ex & Hs) & Ev). split; [done|]. split; [|exact Hs].
  rewrite reg_set_pc. congruence.
Qed.

(** Adding a constant. *)
Lemma add_imm_writes r i mc : writes_result r (reg r mc + i) mc (effect long (ALUI ADD W (Reg r) i) mc).
Proof using.
  assert (exists c o, effect long (ALUI ADD W (Reg r) i) mc = let v := uW (uW (reg r mc) + uW i) in
    write long W (Reg r) 0 v (result_flags c o W v mc)) as (c & o & ->) by (by destruct long; do 2 eexists).
  cbv zeta. rewrite uw_add_l, uw_add_r by done.
  destruct (writes_result_intro r (uW (reg r mc + i)) mc _ (result_flags_same c o W (uW (reg r mc + i)) mc)) as [E Hs].
  split; [by rewrite E, uw_uw|done].
Qed.

Section Operations.
Context (dest src : Z).

(** The two-operand instructions and what they compute. *)
Definition binary : list (x86_instr * (Z -> Z -> Z)) :=
  [(ALU ADD W (Reg dest) (Reg src), Z.add); (ALU SUB W (Reg dest) (Reg src), Z.sub);
   (ALU AND W (Reg dest) (Reg src), Z.land); (ALU OR W (Reg dest) (Reg src), Z.lor);
   (ALU XOR W (Reg dest) (Reg src), Z.lxor); (IMUL W dest (Reg src), Z.mul)].

Lemma effect_alu op mc : effect long (ALU op W (Reg dest) (Reg src)) mc
  = alu_exec long op W (Reg dest) 0 (uW (reg dest mc)) (uW (reg src mc)) mc.
Proof using. by destruct op, long. Qed.
Lemma effect_imul mc : exists o, effect long (IMUL W dest (Reg src)) mc
  = let v := sw W (reg dest mc) * sw W (uW (reg src mc)) in
    write long W (Reg dest) 0 v (result_flags o o W v mc).
Proof using. by destruct long; eexists. Qed.
Ltac result := eexists; split; [apply writes_result_intro; first [apply result_flags_same|by split]|].

Lemma mul_words a b : uW (sw W a * sw W (uW b)) = uW (a * b).
Proof using. by rewrite <- uw_mul_l, <- uw_mul_r, !uw_sw, uw_uw, uw_mul_l, uw_mul_r. Qed.
(** The bitwise operations act on each word. *)
Lemma uw_bitwise (f : Z -> Z -> Z) (g : bool -> bool -> bool) a b :
  (forall x y k, 0 <= k -> Z.testbit (f x y) k = g (Z.testbit x k) (Z.testbit y k)) ->
  uW (f (uW a) (uW b)) = uW (f a b).
Proof using.
  intros Hf. apply Z.bits_inj'. intros k Hk. unfold uw. pose proof (W_pos long).
  destruct (decide (k < W)); [|by rewrite !Z.mod_pow2_bits_high by lia].
  rewrite !Z.mod_pow2_bits_low, !Hf, !Z.mod_pow2_bits_low by lia. done.
Qed.

Lemma binary_computes i f `{SizeT} {S : Type} `{!HasBase S} (s : S) op : In (i, f) binary ->
  performs s op (effect long i) ->
  implements s op (computes dest (fun mc => f (reg dest mc) (reg src mc))).
Proof using.
  intros Hin Hp. apply (performs_computes s op _ dest _ Hp). intros mc. clear Hp.
  repeat destruct Hin as [[= <- <-] | Hin]; [..|done];
    first [rewrite effect_alu; cbn [alu_exec]|destruct (effect_imul mc) as [o ->]]; result.
  - by rewrite uw_uw, uw_add_l, uw_add_r by done.
  - by rewrite uw_uw, uw_sub_l, uw_sub_r by done.
  - apply (uw_bitwise _ andb). intros; by apply Z.land_spec.
  - apply (uw_bitwise _ orb). intros; by apply Z.lor_spec.
  - apply (uw_bitwise _ xorb). intros; by apply Z.lxor_spec.
  - apply mul_words.
Qed.

(** One operand; the shifts are by the low bits of the count register. *)
Definition count_mask : Z := if long then 63 else 31.
Definition unary : list (x86_instr * (Z -> Z -> Z)) :=
  [(NOT W (Reg dest), fun a _ => Z.lnot a); (NEG W (Reg dest), fun a _ => - a);
   (SHIFT SHL W (Reg dest), fun a n => a << n); (SHIFT SHR W (Reg dest), fun a n => uW a >> n);
   (SHIFT SAR W (Reg dest), fun a n => sw W a >> n)].

Lemma effect_not mc : effect long (NOT W (Reg dest)) mc = write long W (Reg dest) 0 (Z.lnot (uW (reg dest mc))) mc.
Proof using. by destruct long. Qed.
Lemma effect_neg mc : exists c o, effect long (NEG W (Reg dest)) mc
  = let v := - uW (reg dest mc) in write long W (Reg dest) 0 v (result_flags c o W v mc).
Proof using. by destruct long; do 2 eexists. Qed.
Lemma effect_shift op mc : effect long (SHIFT op W (Reg dest)) mc
  = shift_exec long op W (Reg dest) 0 (reg 1 mc .& count_mask) (uW (reg dest mc)) mc.
Proof using.
  unfold effect. cbn [x86_exec]. cbv zeta.
  assert ((if W =? 64 then 63 else 31) = count_mask) as -> by by unfold count_mask; destruct long.
  unfold shift_exec. cbn [read]. destruct (_ =? 0); [by destruct mc|by destruct op, long].
Qed.

Lemma count_nonneg x : 0 <= x .& count_mask.
Proof using. apply Z.land_nonneg. right. unfold count_mask. by destruct long. Qed.
Lemma shift_result op n a v mc : uW a = uW (reg dest mc) ->
  (n = 0 -> uW a = uW v) ->
  (n <> 0 -> uW match op with SHL => a << n | SHR => a >> n | SAR => sw W a >> n end = uW v) ->
  exists x, writes_result dest x mc (shift_exec long op W (Reg dest) 0 n a mc) /\ uW x = uW v.
Proof using.
  intros Ea H0 Hn. unfold shift_exec. destruct (Z.eqb_spec n 0) as [E0|Hne].
  - exists a. split; [|auto]. by split.
  - specialize (Hn Hne). destruct op; (eexists; split; [apply writes_result_intro, result_flags_same|exact Hn]).
Qed.
Lemma unary_computes i f `{SizeT} {S : Type} `{!HasBase S} (s : S) op : In (i, f) unary ->
  performs s op (effect long i) ->
  implements s op (computes dest (fun mc => f (reg dest mc) (reg 1 mc .& count_mask))).
Proof using.
  intros Hin Hp. apply (performs_computes s op _ dest _ Hp). intros mc. clear Hp.
  repeat destruct Hin as [[= <- <-] | Hin]; [..|done].
  - rewrite effect_not. result. assert (forall x, Z.lnot x = -1 - x) as E by (unfold Z.lnot; lia).
    rewrite !E. by rewrite uw_sub_r.
  - destruct (effect_neg mc) as (c & o & ->). result. rewrite <- !Z.sub_0_l. by rewrite uw_sub_r.
  - rewrite effect_shift. apply shift_result; [by rewrite uw_uw|intros ->; by rewrite uw_uw, Z.shiftl_0_r|].
    intros _. rewrite !Z.shiftl_mul_pow2 by apply count_nonneg. by rewrite uw_mul_l.
  - rewrite effect_shift. apply shift_result; [by rewrite uw_uw|intros ->; by rewrite Z.shiftr_0_r|done].
  - rewrite effect_shift. apply shift_result; [by rewrite uw_uw|intros ->; by rewrite Z.shiftr_0_r, uw_sw, uw_uw|].
    intros _. by rewrite sw_uw.
Qed.
End Operations.
End Arith.

(** Membership in a list of instructions, widths up to computation. *)
Ltac in_list := repeat first [left; reflexivity|right].
