(* ===== verification/X86Jump.v ===== *)
(** * X86Jump: jumps, calls and the address of a label

    The encodings of JMP and Jcc that asmx86 and asmx64 choose between, and
    what running them does. *)

From S2P Require Import Prelude AsmBase Machine Emission X86Isa X86Encode X86Effect.

Set Default Goal Selector "!".

(** ** Encodings *)

Lemma parses_jmp8 long d : parses (x86_parse long) [0xeb; u8 d] (JMP (s8 d)).
Proof.
  apply parses_plain; [by split; destruct long|]. apply parses_byte_then.
  eapply parses_last; [exact (parses_simm 1 d ltac:(lia))|done].
Qed.
Lemma parses_jmp32 long d : parses (x86_parse long) (0xe9 :: le_bytes 4 d) (JMP (s32 d)).
Proof.
  apply parses_plain; [by split; destruct long|]. apply parses_byte_then.
  eapply parses_last; [exact (parses_simm 4 d ltac:(lia))|done].
Qed.
Lemma parses_call32 long d : parses (x86_parse long) (0xe8 :: le_bytes 4 d) (CALL (s32 d)).
Proof.
  apply parses_plain; [by split; destruct long|]. apply parses_byte_then.
  eapply parses_last; [exact (parses_simm 4 d ltac:(lia))|done].
Qed.
Lemma parses_jcc8 long cc d : 0 <= cc < 16 -> has_cc cc = true ->
  parses (x86_parse long) [u8 (0x70 .| cc); u8 d] (JCC cc (s8 d)).
Proof.
  intros Hcc Hh. enumerate 16%nat cc; try done; (apply parses_plain; [by split; destruct long|]; apply parses_byte_then;
    eapply parses_last; [exact (parses_simm 1 d ltac:(lia))|done]).
Qed.
Lemma parses_jcc32 long cc d : 0 <= cc < 16 -> has_cc cc = true ->
  parses (x86_parse long) (0x0f :: u8 (0x80 .| cc) :: le_bytes 4 d) (JCC cc (s32 d)).
Proof.
  intros Hcc Hh. enumerate 16%nat cc; try done; (apply parses_plain; [by split; destruct long|]; do 2 apply parses_byte_then;
    eapply parses_last; [exact (parses_simm 4 d ltac:(lia))|done]).
Qed.

(** ** Jumping *)

Section Jumping.
Context (long : bool) `{SizeT} {S : Type} `{!HasBase S} (s : S) (op : M S unit).
#[local] Hint Extern 0 Isa => exact (X86_isa long) : typeclass_instances.
Abbreviation W := (word_width long).

(** Control goes [d] bytes from the start of the jump, or past it. *)
Definition jumps_if (c : machine -> bool) (d n : Z) (mc mc' : machine) : Prop :=
  mc' = set_pc (uw W (pc mc + (if c mc then d else n))) mc.

Lemma one_implements bs i (P : Z -> machine -> machine -> Prop) :
  emits s op bs -> parses (x86_parse long) bs i -> (length bs <= 15)%nat ->
  (forall mc, exists mc', x86_exec long i (Z.of_nat (length bs)) mc = Some mc'
     /\ P (Z.of_nat (length bs)) mc mc') ->
  implements s op P.
Proof using.
  intros He Hp Hl Hx. eapply assembles_implements; [by eapply decoded_assembles|].
  intros mc _. destruct (Hx mc) as (mc' & E & HP). exists mc'. simpl. rewrite E. simpl.
  by rewrite Z.add_0_r.
Qed.

Lemma jump_target mc len d : uw W (uw W (pc mc + len) + (d - len)) = uw W (pc mc + d).
Proof using. rewrite uw_add_l by by destruct long. f_equal. lia. Qed.

Lemma jmp8_implements d : emits s op [0xeb; u8 (d - 2)] -> - 128 <= d - 2 < 128 ->
  implements s op (jumps_if (fun _ => true) d).
Proof using.
  intros He Hd. eapply one_implements; [exact He|apply parses_jmp8|simpl; lia|].
  intros mc. eexists. split; [reflexivity|]. rewrite (sw_small 8 eq_refl) by done.
  unfold jumps_if. f_equal. exact (jump_target mc 2 d).
Qed.
Lemma jmp32_implements d : emits s op (0xe9 :: le_bytes 4 (d - 5)) -> - 2 ^ 31 <= d - 5 < 2 ^ 31 ->
  implements s op (jumps_if (fun _ => true) d).
Proof using.
  intros He Hd. eapply one_implements; [exact He|apply parses_jmp32|simpl; lia|].
  intros mc. eexists. split; [reflexivity|]. rewrite (sw_small 32 eq_refl) by done.
  unfold jumps_if. f_equal. exact (jump_target mc 5 d).
Qed.
Lemma jcc8_implements cc d : emits s op [u8 (0x70 .| cc); u8 (d - 2)] -> 0 <= cc < 16 -> has_cc cc = true ->
  - 128 <= d - 2 < 128 -> implements s op (jumps_if (cond cc) d).
Proof using.
  intros He Hcc Hh Hd. eapply one_implements; [exact He|by apply parses_jcc8|simpl; lia|].
  intros mc. eexists. split; [reflexivity|]. rewrite (sw_small 8 eq_refl) by done.
  unfold jumps_if. f_equal. destruct (cond cc mc); [exact (jump_target mc 2 d)|done].
Qed.
Lemma jcc32_implements cc d : emits s op (0x0f :: u8 (0x80 .| cc) :: le_bytes 4 (d - 6)) ->
  0 <= cc < 16 -> has_cc cc = true -> - 2 ^ 31 <= d - 6 < 2 ^ 31 -> implements s op (jumps_if (cond cc) d).
Proof using.
  intros He Hcc Hh Hd. eapply one_implements; [exact He|by apply parses_jcc32|simpl; lia|].
  intros mc. eexists. split; [reflexivity|]. rewrite (sw_small 32 eq_refl) by done.
  unfold jumps_if. f_equal. destruct (cond cc mc); [exact (jump_target mc 6 d)|done].
Qed.

(** ** Conditional branches *)

(** Nothing changes but the flags and the program counter, which is [d] bytes
    on if [c] holds and past the code otherwise. *)
Definition branches_if (c : machine -> bool) (d n : Z) (mc mc' : machine) : Prop :=
  same_except flags mc mc' /\ pc mc' = uw W (pc mc + (if c mc then d else n)).

(** A test that only sets flags, then a jump on [cc]. *)
Lemma test_then_jump (jump : M S unit) i len cc (c : machine -> bool) d :
  assembles s op [(i, len)] -> straight_line long i = true ->
  (forall mc, same_except flags mc (effect long i mc)) -> (forall mc, cond cc (effect long i mc) = c mc) ->
  (forall bs, Z.of_nat (length bs) = len -> implements (puts bs s) jump (jumps_if (cond cc) (d - len))) ->
  implements s (op;; jump) (branches_if c d).
Proof using.
  intros Ht Hs Hsame Hc Hj. eapply implements_mono.
  - by apply (straight_assembles_then long _ _ _ _ _ (jumps_if (cond cc) (d - len)) Ht Hs).
  - intros n mc mc' (n2 & -> & ->). split; [apply Hsame|].
    change (cond cc (set_pc _ (effect long i mc))) with (cond cc (effect long i mc)). rewrite Hc.
    rewrite !pc_set_pc, uw_add_l by by destruct long. f_equal. destruct (c mc); lia.
Qed.
End Jumping.

(** Zero, or in the lower byte for a test of a boolean. *)
Definition is_zero (long bool_test : bool) (r : Z) (mc : machine) : bool :=
  uw (if bool_test then 8 else word_width long) (reg r mc) =? 0.
