(* ===== verification/AsmX64.v ===== *)
(** * AsmX64: bank/uPython-ASM/asmx64.{h,c}

    The x86-64 code generator: opcodes, the encoding of operands, the back
    end's state, one definition per function of asmx64.c and the generic
    assembler API of asmx64.h.  An [int] or a [byte] argument is the value of
    the C expression; conversions to narrower types are written out. *)

From S2P Require Import Prelude AsmBase.

Set Default Goal Selector "!".

#[local] Existing Instance SizeT_64.

(** ** Registers and condition codes *)

Definition ASM_X64_REG_RAX : Z := 0.
Definition ASM_X64_REG_RCX : Z := 1.
Definition ASM_X64_REG_RDX : Z := 2.
Definition ASM_X64_REG_RBX : Z := 3.
Definition ASM_X64_REG_RSP : Z := 4.
Definition ASM_X64_REG_RBP : Z := 5.
Definition ASM_X64_REG_RSI : Z := 6.
Definition ASM_X64_REG_RDI : Z := 7.
Definition ASM_X64_REG_R08 : Z := 8.
Definition ASM_X64_REG_R09 : Z := 9.
Definition ASM_X64_REG_R10 : Z := 10.
Definition ASM_X64_REG_R11 : Z := 11.
Definition ASM_X64_REG_R12 : Z := 12.
Definition ASM_X64_REG_R13 : Z := 13.
Definition ASM_X64_REG_R14 : Z := 14.
Definition ASM_X64_REG_R15 : Z := 15.
Definition ASM_X64_CC_JB : Z := 0x2.
Definition ASM_X64_CC_JAE : Z := 0x3.
Definition ASM_X64_CC_JZ : Z := 0x4.
Definition ASM_X64_CC_JE : Z := 0x4.
Definition ASM_X64_CC_JNZ : Z := 0x5.
Definition ASM_X64_CC_JNE : Z := 0x5.
Definition ASM_X64_CC_JBE : Z := 0x6.
Definition ASM_X64_CC_JA : Z := 0x7.
Definition ASM_X64_CC_JL : Z := 0xc.
Definition ASM_X64_CC_JGE : Z := 0xd.
Definition ASM_X64_CC_JLE : Z := 0xe.
Definition ASM_X64_CC_JG : Z := 0xf.
Definition ASM_X64_REG_FUN_TABLE : Z := ASM_X64_REG_RBP.

(** ** The back end's state *)

Record asm_x64_t := mk_asm_x64 {
  base : mp_asm_base_t;
  num_locals : Z;
}.

#[export, refine] Instance HasBase_x64 : HasBase asm_x64_t :=
  {| base_of := base; with_base b s := mk_asm_x64 b (num_locals s) |}.
Proof. all: by intros; try destruct s. Defined.

Definition set_num_locals (n : Z) (s : asm_x64_t) : asm_x64_t := mk_asm_x64 (base s) n.

Definition asm_x64_end_pass : M asm_x64_t unit := mret tt.

(** ** Opcodes and fields *)

Definition WORD_SIZE : Z := 8.
Definition OPCODE_NOP : Z := 0x90.
Definition OPCODE_PUSH_R64 : Z := 0x50.
Definition OPCODE_PUSH_I64 : Z := 0x68.
Definition OPCODE_PUSH_M64 : Z := 0xff.
Definition OPCODE_POP_R64 : Z := 0x58.
Definition OPCODE_RET : Z := 0xc3.
Definition OPCODE_MOV_I8_TO_R8 : Z := 0xb0.
Definition OPCODE_MOV_I64_TO_R64 : Z := 0xb8.
Definition OPCODE_MOV_I32_TO_RM32 : Z := 0xc7.
Definition OPCODE_MOV_R8_TO_RM8 : Z := 0x88.
Definition OPCODE_MOV_R64_TO_RM64 : Z := 0x89.
Definition OPCODE_MOV_RM64_TO_R64 : Z := 0x8b.
Definition OPCODE_MOVZX_RM8_TO_R64 : Z := 0xb6.
Definition OPCODE_MOVZX_RM16_TO_R64 : Z := 0xb7.
Definition OPCODE_LEA_MEM_TO_R64 : Z := 0x8d.
Definition OPCODE_NOT_RM64 : Z := 0xf7.
Definition OPCODE_NEG_RM64 : Z := 0xf7.
Definition OPCODE_AND_R64_TO_RM64 : Z := 0x21.
Definition OPCODE_OR_R64_TO_RM64 : Z := 0x09.
Definition OPCODE_XOR_R64_TO_RM64 : Z := 0x31.
Definition OPCODE_ADD_R64_TO_RM64 : Z := 0x01.
Definition OPCODE_ADD_I32_TO_RM32 : Z := 0x81.
Definition OPCODE_ADD_I8_TO_RM32 : Z := 0x83.
Definition OPCODE_SUB_R64_FROM_RM64 : Z := 0x29.
Definition OPCODE_SUB_I32_FROM_RM64 : Z := 0x81.
Definition OPCODE_SUB_I8_FROM_RM64 : Z := 0x83.
Definition OPCODE_SHL_RM64_CL : Z := 0xd3.
Definition OPCODE_SHR_RM64_CL : Z := 0xd3.
Definition OPCODE_SAR_RM64_CL : Z := 0xd3.
Definition OPCODE_CMP_R64_WITH_RM64 : Z := 0x39.
Definition OPCODE_TEST_R8_WITH_RM8 : Z := 0x84.
Definition OPCODE_TEST_R64_WITH_RM64 : Z := 0x85.
Definition OPCODE_JMP_REL8 : Z := 0xeb.
Definition OPCODE_JMP_REL32 : Z := 0xe9.
Definition OPCODE_JMP_RM64 : Z := 0xff.
Definition OPCODE_JCC_REL8 : Z := 0x70.
Definition OPCODE_JCC_REL32_A : Z := 0x0f.
Definition OPCODE_JCC_REL32_B : Z := 0x80.
Definition OPCODE_SETCC_RM8_A : Z := 0x0f.
Definition OPCODE_SETCC_RM8_B : Z := 0x90.
Definition OPCODE_CALL_REL32 : Z := 0xe8.
Definition OPCODE_CALL_RM32 : Z := 0xff.
Definition OPCODE_LEAVE : Z := 0xc9.
Definition MODRM_R64 (x : Z) : Z := (x .& 0x7) << 3.
Definition MODRM_RM_DISP0 : Z := 0x00.
Definition MODRM_RM_DISP8 : Z := 0x40.
Definition MODRM_RM_DISP32 : Z := 0x80.
Definition MODRM_RM_REG : Z := 0xc0.
Definition MODRM_RM_R64 (x : Z) : Z := x .& 0x7.
Definition OP_SIZE_PREFIX : Z := 0x66.
Definition REX_PREFIX : Z := 0x40.
Definition REX_W : Z := 0x08.
Definition REX_R : Z := 0x04.
Definition REX_X : Z := 0x02.
Definition REX_B : Z := 0x01.
Definition REX_W_FROM_R64 (r64 : Z) : Z := r64 >> 0 .& 0x08.
Definition REX_R_FROM_R64 (r64 : Z) : Z := r64 >> 1 .& 0x04.
Definition REX_X_FROM_R64 (r64 : Z) : Z := r64 >> 2 .& 0x02.
Definition REX_B_FROM_R64 (r64 : Z) : Z := r64 >> 3 .& 0x01.
Definition IMM32_L0 (x : Z) : Z := x .& 0xff.
Definition IMM32_L1 (x : Z) : Z := x >> 8 .& 0xff.
Definition IMM32_L2 (x : Z) : Z := x >> 16 .& 0xff.
Definition IMM32_L3 (x : Z) : Z := x >> 24 .& 0xff.
Definition IMM64_L4 (x : Z) : Z := x >> 32 .& 0xff.
Definition IMM64_L5 (x : Z) : Z := x >> 40 .& 0xff.
Definition IMM64_L6 (x : Z) : Z := x >> 48 .& 0xff.
Definition IMM64_L7 (x : Z) : Z := x >> 56 .& 0xff.
Definition UNSIGNED_FIT8 (x : Z) : bool := x .& 0xffffffffffffff00 =? 0.
Definition UNSIGNED_FIT32 (x : Z) : bool := x .& 0xffffffff00000000 =? 0.
Definition SIGNED_FIT8 (x : Z) : bool :=
  (x .& 0xffffff80 =? 0) || (x .& 0xffffff80 =? 0xffffff80).

(** ** Writing bytes *)

Definition asm_x64_get_cur_to_write_bytes (n : Z) : M asm_x64_t (option Z) :=
  cur_to_write_bytes n.

Definition asm_x64_write_byte_1 (b1 : Z) : M asm_x64_t unit :=
  put_array asm_x64_get_cur_to_write_bytes [u8 b1].

Definition asm_x64_write_byte_2 (b1 b2 : Z) : M asm_x64_t unit :=
  put_array asm_x64_get_cur_to_write_bytes [u8 b1; u8 b2].

Definition asm_x64_write_byte_3 (b1 b2 b3 : Z) : M asm_x64_t unit :=
  put_array asm_x64_get_cur_to_write_bytes [u8 b1; u8 b2; u8 b3].

Definition asm_x64_write_word32 (w32 : Z) : M asm_x64_t unit :=
  put_array asm_x64_get_cur_to_write_bytes [IMM32_L0 w32; IMM32_L1 w32; IMM32_L2 w32; IMM32_L3 w32].

Definition asm_x64_write_word64 (w64 : Z) : M asm_x64_t unit :=
  put_array asm_x64_get_cur_to_write_bytes [IMM32_L0 w64; IMM32_L1 w64; IMM32_L2 w64; IMM32_L3 w64;
    IMM64_L4 w64; IMM64_L5 w64; IMM64_L6 w64; IMM64_L7 w64].

Definition asm_x64_write_r64_disp (r64 disp_r64 disp_offset : Z) : M asm_x64_t unit :=
  let rm_disp :=
    if (disp_offset =? 0) && negb (disp_r64 .& 7 =? ASM_X64_REG_RBP) then MODRM_RM_DISP0
    else if SIGNED_FIT8 disp_offset then MODRM_RM_DISP8
    else MODRM_RM_DISP32 in
  asm_x64_write_byte_1 (MODRM_R64 r64 .| rm_disp .| MODRM_RM_R64 disp_r64);;
  (if disp_r64 .& 7 =? ASM_X64_REG_RSP then asm_x64_write_byte_1 0x24 else mret tt);;
  if rm_disp =? MODRM_RM_DISP8 then asm_x64_write_byte_1 (IMM32_L0 disp_offset)
  else if rm_disp =? MODRM_RM_DISP32 then asm_x64_write_word32 disp_offset
  else mret tt.

(** ** Instructions *)

Definition asm_x64_generic_r64_r64 (dest_r64 src_r64 op : Z) : M asm_x64_t unit :=
  asm_x64_write_byte_3 (REX_PREFIX .| REX_W .| REX_R_FROM_R64 src_r64 .| REX_B_FROM_R64
    dest_r64) op (MODRM_R64 src_r64 .| MODRM_RM_REG .| MODRM_RM_R64 dest_r64).

Definition asm_x64_nop : M asm_x64_t unit :=
  asm_x64_write_byte_1 OPCODE_NOP.

Definition asm_x64_push_r64 (src_r64 : Z) : M asm_x64_t unit :=
  if src_r64 <? 8 then
    asm_x64_write_byte_1 (OPCODE_PUSH_R64 .| src_r64)
  else
    asm_x64_write_byte_2 (REX_PREFIX .| REX_B) (OPCODE_PUSH_R64 .| src_r64 .& 7).

Definition asm_x64_pop_r64 (dest_r64 : Z) : M asm_x64_t unit :=
  if dest_r64 <? 8 then
    asm_x64_write_byte_1 (OPCODE_POP_R64 .| dest_r64)
  else
    asm_x64_write_byte_2 (REX_PREFIX .| REX_B) (OPCODE_POP_R64 .| dest_r64 .& 7).

Definition asm_x64_ret : M asm_x64_t unit :=
  asm_x64_write_byte_1 OPCODE_RET.

Definition asm_x64_mov_r64_r64 (dest_r64 src_r64 : Z) : M asm_x64_t unit :=
  asm_x64_generic_r64_r64 dest_r64 src_r64 OPCODE_MOV_R64_TO_RM64.

Definition asm_x64_mov_r8_to_mem8 (src_r64 dest_r64 dest_disp : Z) : M asm_x64_t unit :=
  (if (src_r64 <? 8) && (dest_r64 <? 8) then
    asm_x64_write_byte_1 OPCODE_MOV_R8_TO_RM8
  else
    asm_x64_write_byte_2 (REX_PREFIX .| REX_R_FROM_R64 src_r64 .| REX_B_FROM_R64 dest_r64)
      OPCODE_MOV_R8_TO_RM8);;
  asm_x64_write_r64_disp src_r64 dest_r64 dest_disp.

Definition asm_x64_mov_r16_to_mem16 (src_r64 dest_r64 dest_disp : Z) : M asm_x64_t unit :=
  (if (src_r64 <? 8) && (dest_r64 <? 8) then
    asm_x64_write_byte_2 OP_SIZE_PREFIX OPCODE_MOV_R64_TO_RM64
  else
    asm_x64_write_byte_3 OP_SIZE_PREFIX (REX_PREFIX .| REX_R_FROM_R64 src_r64 .|
      REX_B_FROM_R64 dest_r64) OPCODE_MOV_R64_TO_RM64);;
  asm_x64_write_r64_disp src_r64 dest_r64 dest_disp.

Definition asm_x64_mov_r32_to_mem32 (src_r64 dest_r64 dest_disp : Z) : M asm_x64_t unit :=
  (if (src_r64 <? 8) && (dest_r64 <? 8) then
    asm_x64_write_byte_1 OPCODE_MOV_R64_TO_RM64
  else
    asm_x64_write_byte_2 (REX_PREFIX .| REX_R_FROM_R64 src_r64 .| REX_B_FROM_R64 dest_r64)
      OPCODE_MOV_R64_TO_RM64);;
  asm_x64_write_r64_disp src_r64 dest_r64 dest_disp.

Definition asm_x64_mov_r64_to_mem64 (src_r64 dest_r64 dest_disp : Z) : M asm_x64_t unit :=
  asm_x64_write_byte_2 (REX_PREFIX .| REX_W .| REX_R_FROM_R64 src_r64 .| REX_B_FROM_R64
    dest_r64) OPCODE_MOV_R64_TO_RM64;;
  asm_x64_write_r64_disp src_r64 dest_r64 dest_disp.

Definition asm_x64_mov_mem8_to_r64zx (src_r64 src_disp dest_r64 : Z) : M asm_x64_t unit :=
  (if (src_r64 <? 8) && (dest_r64 <? 8) then
    asm_x64_write_byte_2 0x0f OPCODE_MOVZX_RM8_TO_R64
  else
    asm_x64_write_byte_3 (REX_PREFIX .| REX_R_FROM_R64 dest_r64 .| REX_B_FROM_R64 src_r64)
      0x0f OPCODE_MOVZX_RM8_TO_R64);;
  asm_x64_write_r64_disp dest_r64 src_r64 src_disp.

Definition asm_x64_mov_mem16_to_r64zx (src_r64 src_disp dest_r64 : Z) : M asm_x64_t unit :=
  (if (src_r64 <? 8) && (dest_r64 <? 8) then
    asm_x64_write_byte_2 0x0f OPCODE_MOVZX_RM16_TO_R64
  else
    asm_x64_write_byte_3 (REX_PREFIX .| REX_R_FROM_R64 dest_r64 .| REX_B_FROM_R64 src_r64)
      0x0f OPCODE_MOVZX_RM16_TO_R64);;
  asm_x64_write_r64_disp dest_r64 src_r64 src_disp.

Definition asm_x64_mov_mem32_to_r64zx (src_r64 src_disp dest_r64 : Z) : M asm_x64_t unit :=
  (if (src_r64 <? 8) && (dest_r64 <? 8) then
    asm_x64_write_byte_1 OPCODE_MOV_RM64_TO_R64
  else
    asm_x64_write_byte_2 (REX_PREFIX .| REX_R_FROM_R64 dest_r64 .| REX_B_FROM_R64 src_r64)
      OPCODE_MOV_RM64_TO_R64);;
  asm_x64_write_r64_disp dest_r64 src_r64 src_disp.

Definition asm_x64_mov_mem64_to_r64 (src_r64 src_disp dest_r64 : Z) : M asm_x64_t unit :=
  asm_x64_write_byte_2 (REX_PREFIX .| REX_W .| REX_R_FROM_R64 dest_r64 .| REX_B_FROM_R64
    src_r64) OPCODE_MOV_RM64_TO_R64;;
  asm_x64_write_r64_disp dest_r64 src_r64 src_disp.

Definition asm_x64_lea_disp_to_r64 (src_r64 src_disp dest_r64 : Z) : M asm_x64_t unit :=
  asm_x64_write_byte_2 (REX_PREFIX .| REX_W .| REX_R_FROM_R64 dest_r64 .| REX_B_FROM_R64
    src_r64) OPCODE_LEA_MEM_TO_R64;;
  asm_x64_write_r64_disp dest_r64 src_r64 src_disp.

Definition asm_x64_mov_i32_to_r64 (src_i32 dest_r64 : Z) : M asm_x64_t Z :=
  (if dest_r64 <? 8 then
    asm_x64_write_byte_1 (OPCODE_MOV_I64_TO_R64 .| dest_r64)
  else
    asm_x64_write_byte_2 (REX_PREFIX .| REX_B) (OPCODE_MOV_I64_TO_R64 .| dest_r64 .& 7));;
  loc ← on_base mp_asm_base_get_code_pos;
  asm_x64_write_word32 src_i32;;
  mret loc.

Definition asm_x64_mov_i64_to_r64 (src_i64 dest_r64 : Z) : M asm_x64_t unit :=
  asm_x64_write_byte_2 (REX_PREFIX .| REX_W .| (if dest_r64 <? 8 then 0 else REX_B))
    (OPCODE_MOV_I64_TO_R64 .| dest_r64 .& 7);;
  asm_x64_write_word64 src_i64.

Definition asm_x64_mov_i64_to_r64_optimised (src_i64 dest_r64 : Z) : M asm_x64_t unit :=
  if UNSIGNED_FIT32 src_i64 then
    asm_x64_mov_i32_to_r64 (s32 (src_i64 .& 0xffffffff)) dest_r64;; mret tt
  else
    asm_x64_mov_i64_to_r64 src_i64 dest_r64.

Definition asm_x64_not_r64 (dest_r64 : Z) : M asm_x64_t unit :=
  asm_x64_generic_r64_r64 dest_r64 2 OPCODE_NOT_RM64.

Definition asm_x64_neg_r64 (dest_r64 : Z) : M asm_x64_t unit :=
  asm_x64_generic_r64_r64 dest_r64 3 OPCODE_NEG_RM64.

Definition asm_x64_and_r64_r64 (dest_r64 src_r64 : Z) : M asm_x64_t unit :=
  asm_x64_generic_r64_r64 dest_r64 src_r64 OPCODE_AND_R64_TO_RM64.

Definition asm_x64_or_r64_r64 (dest_r64 src_r64 : Z) : M asm_x64_t unit :=
  asm_x64_generic_r64_r64 dest_r64 src_r64 OPCODE_OR_R64_TO_RM64.

Definition asm_x64_xor_r64_r64 (dest_r64 src_r64 : Z) : M asm_x64_t unit :=
  asm_x64_generic_r64_r64 dest_r64 src_r64 OPCODE_XOR_R64_TO_RM64.

Definition asm_x64_shl_r64_cl (dest_r64 : Z) : M asm_x64_t unit :=
  asm_x64_generic_r64_r64 dest_r64 4 OPCODE_SHL_RM64_CL.

Definition asm_x64_shr_r64_cl (dest_r64 : Z) : M asm_x64_t unit :=
  asm_x64_generic_r64_r64 dest_r64 5 OPCODE_SHR_RM64_CL.

Definition asm_x64_sar_r64_cl (dest_r64 : Z) : M asm_x64_t unit :=
  asm_x64_generic_r64_r64 dest_r64 7 OPCODE_SAR_RM64_CL.

Definition asm_x64_add_r64_r64 (dest_r64 src_r64 : Z) : M asm_x64_t unit :=
  asm_x64_generic_r64_r64 dest_r64 src_r64 OPCODE_ADD_R64_TO_RM64.

Definition asm_x64_sub_r64_r64 (dest_r64 src_r64 : Z) : M asm_x64_t unit :=
  asm_x64_generic_r64_r64 dest_r64 src_r64 OPCODE_SUB_R64_FROM_RM64.

Definition asm_x64_mul_r64_r64 (dest_r64 src_r64 : Z) : M asm_x64_t unit :=
  asm_x64_write_byte_1 (REX_PREFIX .| REX_W .| REX_R_FROM_R64 dest_r64 .| REX_B_FROM_R64
    src_r64);;
  asm_x64_write_byte_3 0x0f 0xaf (MODRM_R64 dest_r64 .| MODRM_RM_REG .| MODRM_RM_R64 src_r64).

Definition asm_x64_sub_r64_i32 (dest_r64 src_i32 : Z) : M asm_x64_t unit :=
  assert_ (dest_r64 <? 8) "dest_r64 < 8";;
  if SIGNED_FIT8 src_i32 then
    asm_x64_write_byte_3 (REX_PREFIX .| REX_W) OPCODE_SUB_I8_FROM_RM64
      (MODRM_R64 5 .| MODRM_RM_REG .| MODRM_RM_R64 dest_r64);;
    asm_x64_write_byte_1 (src_i32 .& 0xff)
  else
    asm_x64_write_byte_3 (REX_PREFIX .| REX_W) OPCODE_SUB_I32_FROM_RM64
      (MODRM_R64 5 .| MODRM_RM_REG .| MODRM_RM_R64 dest_r64);;
    asm_x64_write_word32 src_i32.

Definition asm_x64_cmp_r64_with_r64 (src_r64_a src_r64_b : Z) : M asm_x64_t unit :=
  asm_x64_generic_r64_r64 src_r64_b src_r64_a OPCODE_CMP_R64_WITH_RM64.

Definition asm_x64_test_r8_with_r8 (src_r64_a src_r64_b : Z) : M asm_x64_t unit :=
  assert_ (src_r64_a <? 8) "src_r64_a < 8";;
  assert_ (src_r64_b <? 8) "src_r64_b < 8";;
  asm_x64_write_byte_2 OPCODE_TEST_R8_WITH_RM8
    (MODRM_R64 src_r64_a .| MODRM_RM_REG .| MODRM_RM_R64 src_r64_b).

Definition asm_x64_test_r64_with_r64 (src_r64_a src_r64_b : Z) : M asm_x64_t unit :=
  asm_x64_generic_r64_r64 src_r64_b src_r64_a OPCODE_TEST_R64_WITH_RM64.

Definition asm_x64_setcc_r8 (jcc_type dest_r8 : Z) : M asm_x64_t unit :=
  assert_ (dest_r8 <? 8) "dest_r8 < 8";;
  asm_x64_write_byte_3 OPCODE_SETCC_RM8_A (OPCODE_SETCC_RM8_B .| jcc_type)
    (MODRM_R64 0 .| MODRM_RM_REG .| MODRM_RM_R64 dest_r8).

Definition asm_x64_jmp_reg (src_r64 : Z) : M asm_x64_t unit :=
  assert_ (src_r64 <? 8) "src_r64 < 8";;
  asm_x64_write_byte_2 OPCODE_JMP_RM64 (MODRM_R64 4 .| MODRM_RM_REG .| MODRM_RM_R64 src_r64).

(** ** Jumps *)

Definition get_label_dest (label : Z) : M asm_x64_t Z := on_base (label_dest label).

(** ** Functions and their locals *)

Definition asm_x64_entry (num_locals : Z) : M asm_x64_t unit :=
  assert_ (0 <=? num_locals) "num_locals >= 0";;
  asm_x64_push_r64 ASM_X64_REG_RBP;;
  asm_x64_push_r64 ASM_X64_REG_RBX;;
  asm_x64_push_r64 ASM_X64_REG_R12;;
  asm_x64_push_r64 ASM_X64_REG_R13;;
  let num_locals := (num_locals .| 1) in
  asm_x64_sub_r64_i32 ASM_X64_REG_RSP (s32 (num_locals * WORD_SIZE));;
  modify (set_num_locals num_locals).

Definition asm_x64_exit : M asm_x64_t unit :=
  num_locals ← gets num_locals;
  asm_x64_sub_r64_i32 ASM_X64_REG_RSP (s32 (s32 (- num_locals) * WORD_SIZE));;
  asm_x64_pop_r64 ASM_X64_REG_R13;;
  asm_x64_pop_r64 ASM_X64_REG_R12;;
  asm_x64_pop_r64 ASM_X64_REG_RBX;;
  asm_x64_pop_r64 ASM_X64_REG_RBP;;
  asm_x64_ret.

Definition asm_x64_local_offset_from_rsp (local_num : Z) : Z := s32 (local_num * WORD_SIZE).

Definition asm_x64_mov_local_to_r64 (src_local_num dest_r64 : Z) : M asm_x64_t unit :=
  asm_x64_mov_mem64_to_r64 ASM_X64_REG_RSP (asm_x64_local_offset_from_rsp src_local_num)
    dest_r64.

Definition asm_x64_mov_r64_to_local (src_r64 dest_local_num : Z) : M asm_x64_t unit :=
  asm_x64_mov_r64_to_mem64 src_r64 ASM_X64_REG_RSP
    (asm_x64_local_offset_from_rsp dest_local_num).

Definition asm_x64_mov_local_addr_to_r64 (local_num dest_r64 : Z) : M asm_x64_t unit :=
  let offset := asm_x64_local_offset_from_rsp local_num in
  if offset =? 0 then
    asm_x64_mov_r64_r64 dest_r64 ASM_X64_REG_RSP
  else
    asm_x64_lea_disp_to_r64 ASM_X64_REG_RSP offset dest_r64.

Definition asm_x64_mov_reg_pcrel (dest_r64 label : Z) : M asm_x64_t unit :=
  dest ← get_label_dest label;
  code_offset ← gets (fun s => code_offset (base s));
  let rel := s64 (dest - (code_offset + 7)) in
  asm_x64_write_byte_3 (REX_PREFIX .| REX_W .| REX_R_FROM_R64 dest_r64) OPCODE_LEA_MEM_TO_R64
    (MODRM_R64 dest_r64 .| MODRM_RM_R64 5);;
  asm_x64_write_word32 (s32 rel).

Definition asm_x64_call_ind (fun_id temp_r64 : Z) : M asm_x64_t unit :=
  assert_ (temp_r64 <? 8) "temp_r64 < 8";;
  asm_x64_mov_mem64_to_r64 ASM_X64_REG_FUN_TABLE (s32 (u64 (fun_id * WORD_SIZE))) temp_r64;;
  asm_x64_write_byte_2 OPCODE_CALL_RM32 (MODRM_R64 2 .| MODRM_RM_REG .| MODRM_RM_R64 temp_r64).

Definition asm_x64_jmp_label (label : Z) : M asm_x64_t unit :=
  let large_jump rel :=
    let rel := s64 (rel - 5) in
    asm_x64_write_byte_1 OPCODE_JMP_REL32;;
    asm_x64_write_word32 (s32 rel) in
  dest ← get_label_dest label;
  code_offset ← gets (fun s => code_offset (base s));
  let rel := s64 (dest - code_offset) in
  if negb (dest =? u64 (-1)) && (rel <? 0) then
    let rel := s64 (rel - 2) in
    if SIGNED_FIT8 rel then asm_x64_write_byte_2 OPCODE_JMP_REL8 (rel .& 0xff)
    else
      let rel := s64 (rel + 2) in
      large_jump rel
  else large_jump rel.

Definition asm_x64_jcc_label (jcc_type label : Z) : M asm_x64_t unit :=
  let large_jump rel :=
    let rel := s64 (rel - 6) in
    asm_x64_write_byte_2 OPCODE_JCC_REL32_A (OPCODE_JCC_REL32_B .| jcc_type);;
    asm_x64_write_word32 (s32 rel) in
  dest ← get_label_dest label;
  code_offset ← gets (fun s => code_offset (base s));
  let rel := s64 (dest - code_offset) in
  if negb (dest =? u64 (-1)) && (rel <? 0) then
    let rel := s64 (rel - 2) in
    if SIGNED_FIT8 rel then asm_x64_write_byte_2 (OPCODE_JCC_REL8 .| jcc_type) (rel .& 0xff)
    else
      let rel := s64 (rel + 2) in
      large_jump rel
  else large_jump rel.

(** ** The generic assembler API *)

Module GenericApi.

Definition ASM_WORD_SIZE : Z := 8.
Definition REG_RET : Z := ASM_X64_REG_RAX.
Definition REG_ARG_1 : Z := ASM_X64_REG_RDI.
Definition REG_ARG_2 : Z := ASM_X64_REG_RSI.
Definition REG_ARG_3 : Z := ASM_X64_REG_RDX.
Definition REG_ARG_4 : Z := ASM_X64_REG_RCX.
Definition REG_ARG_5 : Z := ASM_X64_REG_R08.
Definition REG_TEMP0 : Z := ASM_X64_REG_RAX.
Definition REG_TEMP1 : Z := ASM_X64_REG_RDI.
Definition REG_TEMP2 : Z := ASM_X64_REG_RSI.
Definition REG_LOCAL_1 : Z := ASM_X64_REG_RBX.
Definition REG_LOCAL_2 : Z := ASM_X64_REG_R12.
Definition REG_LOCAL_3 : Z := ASM_X64_REG_R13.
Definition REG_LOCAL_NUM : Z := 3.
Definition REG_FUN_TABLE : Z := ASM_X64_REG_FUN_TABLE.
Definition ASM_END_PASS : M asm_x64_t unit := asm_x64_end_pass.
Definition ASM_ENTRY (num_locals : Z) : M asm_x64_t unit := asm_x64_entry num_locals.
Definition ASM_EXIT : M asm_x64_t unit := asm_x64_exit.
Definition ASM_JUMP (label : Z) : M asm_x64_t unit := asm_x64_jmp_label label.
Definition ASM_JUMP_IF_REG_ZERO (reg label : Z) (bool_test : bool) : M asm_x64_t unit :=
  (if bool_test then asm_x64_test_r8_with_r8 reg reg else asm_x64_test_r64_with_r64 reg reg);;
  asm_x64_jcc_label ASM_X64_CC_JZ label.
Definition ASM_JUMP_IF_REG_NONZERO (reg label : Z) (bool_test : bool) : M asm_x64_t unit :=
  (if bool_test then asm_x64_test_r8_with_r8 reg reg else asm_x64_test_r64_with_r64 reg reg);;
  asm_x64_jcc_label ASM_X64_CC_JNZ label.
Definition ASM_JUMP_IF_REG_EQ (reg1 reg2 label : Z) : M asm_x64_t unit :=
  asm_x64_cmp_r64_with_r64 reg1 reg2;;
  asm_x64_jcc_label ASM_X64_CC_JE label.
Definition ASM_JUMP_REG (reg : Z) : M asm_x64_t unit := asm_x64_jmp_reg reg.
Definition ASM_CALL_IND (idx : Z) : M asm_x64_t unit := asm_x64_call_ind idx ASM_X64_REG_RAX.
Definition ASM_MOV_LOCAL_REG (local_num reg_src : Z) : M asm_x64_t unit :=
  asm_x64_mov_r64_to_local reg_src local_num.
Definition ASM_MOV_REG_IMM (reg_dest imm : Z) : M asm_x64_t unit :=
  asm_x64_mov_i64_to_r64_optimised imm reg_dest.
Definition ASM_MOV_REG_LOCAL (reg_dest local_num : Z) : M asm_x64_t unit :=
  asm_x64_mov_local_to_r64 local_num reg_dest.
Definition ASM_MOV_REG_REG (reg_dest reg_src : Z) : M asm_x64_t unit :=
  asm_x64_mov_r64_r64 reg_dest reg_src.
Definition ASM_MOV_REG_LOCAL_ADDR (reg_dest local_num : Z) : M asm_x64_t unit :=
  asm_x64_mov_local_addr_to_r64 local_num reg_dest.
Definition ASM_MOV_REG_PCREL (reg_dest label : Z) : M asm_x64_t unit :=
  asm_x64_mov_reg_pcrel reg_dest label.
Definition ASM_NOT_REG (reg : Z) : M asm_x64_t unit := asm_x64_not_r64 reg.
Definition ASM_NEG_REG (reg : Z) : M asm_x64_t unit := asm_x64_neg_r64 reg.
Definition ASM_LSL_REG (reg : Z) : M asm_x64_t unit := asm_x64_shl_r64_cl reg.
Definition ASM_LSR_REG (reg : Z) : M asm_x64_t unit := asm_x64_shr_r64_cl reg.
Definition ASM_ASR_REG (reg : Z) : M asm_x64_t unit := asm_x64_sar_r64_cl reg.
Definition ASM_OR_REG_REG (reg_dest reg_src : Z) : M asm_x64_t unit :=
  asm_x64_or_r64_r64 reg_dest reg_src.
Definition ASM_XOR_REG_REG (reg_dest reg_src : Z) : M asm_x64_t unit :=
  asm_x64_xor_r64_r64 reg_dest reg_src.
Definition ASM_AND_REG_REG (reg_dest reg_src : Z) : M asm_x64_t unit :=
  asm_x64_and_r64_r64 reg_dest reg_src.
Definition ASM_ADD_REG_REG (reg_dest reg_src : Z) : M asm_x64_t unit :=
  asm_x64_add_r64_r64 reg_dest reg_src.
Definition ASM_SUB_REG_REG (reg_dest reg_src : Z) : M asm_x64_t unit :=
  asm_x64_sub_r64_r64 reg_dest reg_src.
Definition ASM_MUL_REG_REG (reg_dest reg_src : Z) : M asm_x64_t unit :=
  asm_x64_mul_r64_r64 reg_dest reg_src.
Definition ASM_LOAD_REG_REG_OFFSET (reg_dest reg_base qword_offset : Z) : M asm_x64_t unit :=
  asm_x64_mov_mem64_to_r64 reg_base (s32 (8 * qword_offset)) reg_dest.
Definition ASM_LOAD8_REG_REG_OFFSET (reg_dest reg_base byte_offset : Z) : M asm_x64_t unit :=
  asm_x64_mov_mem8_to_r64zx reg_base byte_offset reg_dest.
Definition ASM_LOAD8_REG_REG (reg_dest reg_base : Z) : M asm_x64_t unit :=
  ASM_LOAD8_REG_REG_OFFSET reg_dest reg_base 0.
Definition ASM_LOAD16_REG_REG_OFFSET (reg_dest reg_base word_offset : Z) : M asm_x64_t unit :=
  asm_x64_mov_mem16_to_r64zx reg_base (s32 (2 * word_offset)) reg_dest.
Definition ASM_LOAD16_REG_REG (reg_dest reg_base : Z) : M asm_x64_t unit :=
  ASM_LOAD16_REG_REG_OFFSET reg_dest reg_base 0.
Definition ASM_LOAD32_REG_REG_OFFSET (reg_dest reg_base dword_offset : Z) : M asm_x64_t unit :=
  asm_x64_mov_mem32_to_r64zx reg_base (s32 (4 * dword_offset)) reg_dest.
Definition ASM_LOAD32_REG_REG (reg_dest reg_base : Z) : M asm_x64_t unit :=
  ASM_LOAD32_REG_REG_OFFSET reg_dest reg_base 0.
Definition ASM_STORE_REG_REG_OFFSET (reg_src reg_base qword_offset : Z) : M asm_x64_t unit :=
  asm_x64_mov_r64_to_mem64 reg_src reg_base (s32 (8 * qword_offset)).
Definition ASM_STORE8_REG_REG_OFFSET (reg_src reg_base byte_offset : Z) : M asm_x64_t unit :=
  asm_x64_mov_r8_to_mem8 reg_src reg_base byte_offset.
Definition ASM_STORE8_REG_REG (reg_src reg_base : Z) : M asm_x64_t unit :=
  ASM_STORE8_REG_REG_OFFSET reg_src reg_base 0.
Definition ASM_STORE16_REG_REG_OFFSET (reg_src reg_base word_offset : Z) : M asm_x64_t unit :=
  asm_x64_mov_r16_to_mem16 reg_src reg_base (s32 (2 * word_offset)).
Definition ASM_STORE16_REG_REG (reg_src reg_base : Z) : M asm_x64_t unit :=
  ASM_STORE16_REG_REG_OFFSET reg_src reg_base 0.
Definition ASM_STORE32_REG_REG_OFFSET (reg_src reg_base dword_offset : Z) : M asm_x64_t unit :=
  asm_x64_mov_r32_to_mem32 reg_src reg_base (s32 (4 * dword_offset)).
Definition ASM_STORE32_REG_REG (reg_src reg_base : Z) : M asm_x64_t unit :=
  ASM_STORE32_REG_REG_OFFSET reg_src reg_base 0.
Definition ASM_CLR_REG (reg_dest : Z) : M asm_x64_t unit :=
  asm_x64_xor_r64_r64 reg_dest reg_dest.
End GenericApi.
