(* ===== verification/AsmX64Pass.v ===== *)
(** * AsmX64Pass: the passes over x86-64 programs agree

    Every operation of the x86-64 back end writes as many bytes in the emit
    pass as in the compute pass before it.  Backward jumps pick their size by
    the distance, which both passes know; forward jumps are always long. *)

From S2P Require Import Prelude AsmBase TwoPass AsmBaseSpec AsmX64.

Set Default Goal Selector "!".

#[local] Existing Instance SizeT_64.
Import AsmX64.GenericApi.

(** Displacements are 32 bits: code up to 2 GB. *)
Definition x64_limit : Z := 2 ^ 31 - 1.
Lemma x64_limit_ok : 0 < x64_limit < 2 ^ size_bits - 1.
Proof. done. Qed.
#[export] Hint Resolve x64_limit_ok : steady.

(** ** Writing bytes *)

Section Bytes.
Context (agree : asm_x64_t -> asm_x64_t -> Prop).
Context (agree_base : forall b b' s s', agree s s' -> agree (with_base b s) (with_base b' s')).
Abbreviation x64_steady := (steady x64_limit agree).

Ltac put := apply steady_put_array; [apply x64_limit_ok|done|bytes_tac|done].

Lemma x64_steady_byte_1 b1 : x64_steady 1 (asm_x64_write_byte_1 b1).
Proof using agree_base. put. Qed.
Lemma x64_steady_byte_2 b1 b2 : x64_steady 2 (asm_x64_write_byte_2 b1 b2).
Proof using agree_base. put. Qed.
Lemma x64_steady_byte_3 b1 b2 b3 : x64_steady 3 (asm_x64_write_byte_3 b1 b2 b3).
Proof using agree_base. put. Qed.
Lemma x64_paired_word32 w w' : paired x64_limit agree 4 (asm_x64_write_word32 w) (asm_x64_write_word32 w').
Proof using agree_base. apply paired_put_array; [apply x64_limit_ok|done|bytes_tac..|done|done]. Qed.
Lemma x64_steady_word32 w : x64_steady 4 (asm_x64_write_word32 w).
Proof using agree_base. apply x64_paired_word32. Qed.
Lemma x64_steady_word64 w : x64_steady 8 (asm_x64_write_word64 w).
Proof using agree_base. put. Qed.
Hint Resolve x64_steady_byte_1 x64_steady_byte_2 x64_steady_byte_3 x64_steady_word32 x64_steady_word64 : steady.

Ltac x64_op := steady_op_tac ltac:(done).

Lemma x64_steady_r64_disp r64 disp_r64 disp_offset :
  x64_steady 6 (asm_x64_write_r64_disp r64 disp_r64 disp_offset).
Proof using agree_base. unfold asm_x64_write_r64_disp. cbv zeta. x64_op. Qed.
Lemma x64_steady_generic d s op : x64_steady 3 (asm_x64_generic_r64_r64 d s op).
Proof using agree_base. apply x64_steady_byte_3. Qed.
Hint Resolve x64_steady_r64_disp x64_steady_generic : steady.
End Bytes.

(** ** Instructions *)

Section Instructions.
Context (agree : asm_x64_t -> asm_x64_t -> Prop).
Context (agree_base : forall b b' s s', agree s s' -> agree (with_base b s) (with_base b' s')).
Abbreviation x64_steady := (steady x64_limit agree).

Hint Resolve x64_steady_byte_1 x64_steady_byte_2 x64_steady_byte_3 x64_steady_word32 x64_steady_word64
  x64_steady_r64_disp x64_steady_generic : steady.
Ltac x64_op := steady_op_tac ltac:(done).

Lemma x64_steady_push r : x64_steady 2 (asm_x64_push_r64 r).
Proof using agree_base. unfold asm_x64_push_r64. x64_op. Qed.
Lemma x64_steady_pop r : x64_steady 2 (asm_x64_pop_r64 r).
Proof using agree_base. unfold asm_x64_pop_r64. x64_op. Qed.
Lemma x64_steady_r8_to_mem8 s d disp : x64_steady 8 (asm_x64_mov_r8_to_mem8 s d disp).
Proof using agree_base. unfold asm_x64_mov_r8_to_mem8. x64_op. Qed.
Lemma x64_steady_r16_to_mem16 s d disp : x64_steady 9 (asm_x64_mov_r16_to_mem16 s d disp).
Proof using agree_base. unfold asm_x64_mov_r16_to_mem16. x64_op. Qed.
Lemma x64_steady_r32_to_mem32 s d disp : x64_steady 8 (asm_x64_mov_r32_to_mem32 s d disp).
Proof using agree_base. unfold asm_x64_mov_r32_to_mem32. x64_op. Qed.
Lemma x64_steady_r64_to_mem64 s d disp : x64_steady 8 (asm_x64_mov_r64_to_mem64 s d disp).
Proof using agree_base. unfold asm_x64_mov_r64_to_mem64. x64_op. Qed.
Lemma x64_steady_mem8_to_r64 s disp d : x64_steady 9 (asm_x64_mov_mem8_to_r64zx s disp d).
Proof using agree_base. unfold asm_x64_mov_mem8_to_r64zx. x64_op. Qed.
Lemma x64_steady_mem16_to_r64 s disp d : x64_steady 9 (asm_x64_mov_mem16_to_r64zx s disp d).
Proof using agree_base. unfold asm_x64_mov_mem16_to_r64zx. x64_op. Qed.
Lemma x64_steady_mem32_to_r64 s disp d : x64_steady 8 (asm_x64_mov_mem32_to_r64zx s disp d).
Proof using agree_base. unfold asm_x64_mov_mem32_to_r64zx. x64_op. Qed.
Lemma x64_steady_mem64_to_r64 s disp d : x64_steady 8 (asm_x64_mov_mem64_to_r64 s disp d).
Proof using agree_base. unfold asm_x64_mov_mem64_to_r64. x64_op. Qed.
Lemma x64_steady_lea s disp d : x64_steady 8 (asm_x64_lea_disp_to_r64 s disp d).
Proof using agree_base. unfold asm_x64_lea_disp_to_r64. x64_op. Qed.
Lemma x64_steady_mov_i32 i d : x64_steady 6 (asm_x64_mov_i32_to_r64 i d).
Proof using agree_base.
  unfold asm_x64_mov_i32_to_r64.
  eapply (steady_then _ _ 2); [destruct (d <? 8); x64_op|lia|intros _].
  apply steady_code_pos; [|done]. intros o _. x64_op.
Qed.
Hint Resolve x64_steady_mov_i32 : steady.
Lemma x64_steady_mov_i64 i d : x64_steady 10 (asm_x64_mov_i64_to_r64 i d).
Proof using agree_base. unfold asm_x64_mov_i64_to_r64. x64_op. Qed.
Hint Resolve x64_steady_mov_i64 : steady.
Lemma x64_steady_mov_i64_optimised i d : x64_steady 10 (asm_x64_mov_i64_to_r64_optimised i d).
Proof using agree_base. unfold asm_x64_mov_i64_to_r64_optimised. x64_op. Qed.
Lemma x64_steady_mul d s : x64_steady 4 (asm_x64_mul_r64_r64 d s).
Proof using agree_base. unfold asm_x64_mul_r64_r64. x64_op. Qed.
Lemma x64_steady_sub_i32 d i : x64_steady 7 (asm_x64_sub_r64_i32 d i).
Proof using agree_base. unfold asm_x64_sub_r64_i32. x64_op. Qed.
Lemma x64_steady_test_r8 a b : x64_steady 2 (asm_x64_test_r8_with_r8 a b).
Proof using agree_base. unfold asm_x64_test_r8_with_r8. x64_op. Qed.
Lemma x64_steady_setcc cc d : x64_steady 3 (asm_x64_setcc_r8 cc d).
Proof using agree_base. unfold asm_x64_setcc_r8. x64_op. Qed.
Lemma x64_steady_jmp_reg r : x64_steady 2 (asm_x64_jmp_reg r).
Proof using agree_base. unfold asm_x64_jmp_reg. x64_op. Qed.
Lemma x64_steady_local_addr n d : x64_steady 8 (asm_x64_mov_local_addr_to_r64 n d).
Proof using agree_base.
  unfold asm_x64_mov_local_addr_to_r64, asm_x64_mov_r64_r64. cbv zeta.
  destruct (_ =? 0); [x64_op|apply x64_steady_lea].
Qed.
Hint Resolve x64_steady_mem64_to_r64 : steady.
Lemma x64_steady_call_ind i t : x64_steady 10 (asm_x64_call_ind i t).
Proof using agree_base. unfold asm_x64_call_ind. x64_op. Qed.
End Instructions.
#[export] Hint Resolve x64_steady_byte_1 x64_steady_byte_2 x64_steady_byte_3 x64_paired_word32 x64_steady_word32
  x64_steady_word64 x64_steady_generic x64_steady_push x64_steady_pop x64_steady_r8_to_mem8 x64_steady_r16_to_mem16
  x64_steady_r32_to_mem32 x64_steady_r64_to_mem64 x64_steady_mem8_to_r64 x64_steady_mem16_to_r64 x64_steady_mem32_to_r64
  x64_steady_mem64_to_r64 x64_steady_mov_i32 x64_steady_mov_i64 x64_steady_mov_i64_optimised x64_steady_mul
  x64_steady_sub_i32 x64_steady_test_r8 x64_steady_setcc x64_steady_jmp_reg x64_steady_local_addr x64_steady_call_ind : steady.

(** ** Labels, and the number of locals *)

Definition x64_agree (s s' : asm_x64_t) : Prop := num_locals s' = num_locals s.
Lemma x64_agree_base b b' s s' : x64_agree s s' -> x64_agree (with_base b s) (with_base b' s').
Proof. done. Qed.
#[export] Hint Resolve x64_agree_base : steady.

Abbreviation x64_steady := (steady x64_limit x64_agree).
Ltac x64_fields := intros ? ? E; unfold x64_agree in E; rewrite ?E; done.
Ltac x64_op := steady_op_tac x64_fields.

Lemma x64_steady_exit : x64_steady 16 asm_x64_exit.
Proof. unfold asm_x64_exit, asm_x64_ret. x64_op. Qed.

(** A backward displacement is negative, a forward one is not. *)
Lemma x64_ahead_not_short y o : 0 <= o -> o <= y <= x64_limit -> negb (y =? u64 (-1)) && (s64 (y - o) <? 0) = false.
Proof.
  unfold x64_limit. intros Ho Hy. rewrite (sw_small 64 eq_refl) by (simpl; lia).
  apply andb_false_intro2. by apply Z.ltb_ge; lia.
Qed.

Lemma x64_steady_jmp_label l : x64_steady 5 (asm_x64_jmp_label l).
Proof.
  unfold asm_x64_jmp_label, get_label_dest. cbv zeta.
  label_tac; [intros d o; x64_op|].
  intros o y Ho Hy. rewrite (x64_ahead_not_short y o) by done. rewrite Z.eqb_refl. cbn [negb andb].
  paired_op_tac x64_fields.
Qed.
Lemma x64_steady_jcc_label cc l : x64_steady 6 (asm_x64_jcc_label cc l).
Proof.
  unfold asm_x64_jcc_label, get_label_dest. cbv zeta.
  label_tac; [intros d o; x64_op|].
  intros o y Ho Hy. rewrite (x64_ahead_not_short y o) by done. rewrite Z.eqb_refl. cbn [negb andb].
  paired_op_tac x64_fields.
Qed.
Lemma x64_steady_mov_reg_pcrel d l : x64_steady 7 (asm_x64_mov_reg_pcrel d l).
Proof.
  unfold asm_x64_mov_reg_pcrel, get_label_dest. cbv zeta.
  label_tac; [intros d' o; x64_op|].
  intros o y Ho Hy. paired_op_tac x64_fields.
Qed.
#[export] Hint Resolve x64_steady_exit x64_steady_jmp_label x64_steady_jcc_label x64_steady_mov_reg_pcrel : steady.

(** ** Programs *)

Inductive x64_op :=
| Shared (op : base_op)
| EndPass | Exit | Jump (label : Z) | JumpIfRegZero (reg label : Z) (bool_test : bool)
| JumpIfRegNonzero (reg label : Z) (bool_test : bool) | JumpIfRegEq (reg1 reg2 label : Z)
| JumpReg (reg : Z) | CallInd (idx : Z) | MovLocalReg (local_num reg_src : Z)
| MovRegImm (reg_dest imm : Z) | MovRegLocal (reg_dest local_num : Z)
| MovRegReg (reg_dest reg_src : Z) | MovRegLocalAddr (reg_dest local_num : Z)
| MovRegPcrel (reg_dest label : Z) | NotReg (reg : Z) | NegReg (reg : Z) | LslReg (reg : Z)
| LsrReg (reg : Z) | AsrReg (reg : Z) | OrRegReg (reg_dest reg_src : Z)
| XorRegReg (reg_dest reg_src : Z) | AndRegReg (reg_dest reg_src : Z)
| AddRegReg (reg_dest reg_src : Z) | SubRegReg (reg_dest reg_src : Z)
| MulRegReg (reg_dest reg_src : Z) | LoadRegRegOffset (reg_dest reg_base qword_offset : Z)
| Load8RegRegOffset (reg_dest reg_base byte_offset : Z) | Load8RegReg (reg_dest reg_base : Z)
| Load16RegRegOffset (reg_dest reg_base word_offset : Z) | Load16RegReg (reg_dest reg_base : Z)
| Load32RegRegOffset (reg_dest reg_base dword_offset : Z)
| Load32RegReg (reg_dest reg_base : Z) | StoreRegRegOffset (reg_src reg_base qword_offset : Z)
| Store8RegRegOffset (reg_src reg_base byte_offset : Z) | Store8RegReg (reg_src reg_base : Z)
| Store16RegRegOffset (reg_src reg_base word_offset : Z) | Store16RegReg (reg_src reg_base : Z)
| Store32RegRegOffset (reg_src reg_base dword_offset : Z)
| Store32RegReg (reg_src reg_base : Z) | ClrReg (reg_dest : Z) | Nop | PushR64 (r64 : Z)
| PopR64 (r64 : Z) | MovI32ToR64 (i32 r64 : Z) | MovI64ToR64 (i64 r64 : Z)
| SetccR8 (cc r8 : Z) | JccLabel (cc label : Z) | CmpR64WithR64 (r64_a r64_b : Z)
| TestR8WithR8 (r64_a r64_b : Z).

Definition x64_exec (op : x64_op) : M asm_x64_t unit :=
  match op with
  | Shared op => on_base (base_exec op)
  | EndPass => ASM_END_PASS
  | Exit => ASM_EXIT
  | Jump label => ASM_JUMP label
  | JumpIfRegZero reg label bool_test => ASM_JUMP_IF_REG_ZERO reg label bool_test
  | JumpIfRegNonzero reg label bool_test => ASM_JUMP_IF_REG_NONZERO reg label bool_test
  | JumpIfRegEq reg1 reg2 label => ASM_JUMP_IF_REG_EQ reg1 reg2 label
  | JumpReg reg => ASM_JUMP_REG reg
  | CallInd idx => ASM_CALL_IND idx
  | MovLocalReg local_num reg_src => ASM_MOV_LOCAL_REG local_num reg_src
  | MovRegImm reg_dest imm => ASM_MOV_REG_IMM reg_dest imm
  | MovRegLocal reg_dest local_num => ASM_MOV_REG_LOCAL reg_dest local_num
  | MovRegReg reg_dest reg_src => ASM_MOV_REG_REG reg_dest reg_src
  | MovRegLocalAddr reg_dest local_num => ASM_MOV_REG_LOCAL_ADDR reg_dest local_num
  | MovRegPcrel reg_dest label => ASM_MOV_REG_PCREL reg_dest label
  | NotReg reg => ASM_NOT_REG reg
  | NegReg reg => ASM_NEG_REG reg
  | LslReg reg => ASM_LSL_REG reg
  | LsrReg reg => ASM_LSR_REG reg
  | AsrReg reg => ASM_ASR_REG reg
  | OrRegReg reg_dest reg_src => ASM_OR_REG_REG reg_dest reg_src
  | XorRegReg reg_dest reg_src => ASM_XOR_REG_REG reg_dest reg_src
  | AndRegReg reg_dest reg_src => ASM_AND_REG_REG reg_dest reg_src
  | AddRegReg reg_dest reg_src => ASM_ADD_REG_REG reg_dest reg_src
  | SubRegReg reg_dest reg_src => ASM_SUB_REG_REG reg_dest reg_src
  | MulRegReg reg_dest reg_src => ASM_MUL_REG_REG reg_dest reg_src
  | LoadRegRegOffset reg_dest reg_base qword_offset => ASM_LOAD_REG_REG_OFFSET reg_dest reg_base qword_offset
  | Load8RegRegOffset reg_dest reg_base byte_offset => ASM_LOAD8_REG_REG_OFFSET reg_dest reg_base byte_offset
  | Load8RegReg reg_dest reg_base => ASM_LOAD8_REG_REG reg_dest reg_base
  | Load16RegRegOffset reg_dest reg_base word_offset => ASM_LOAD16_REG_REG_OFFSET reg_dest reg_base word_offset
  | Load16RegReg reg_dest reg_base => ASM_LOAD16_REG_REG reg_dest reg_base
  | Load32RegRegOffset reg_dest reg_base dword_offset => ASM_LOAD32_REG_REG_OFFSET reg_dest reg_base dword_offset
  | Load32RegReg reg_dest reg_base => ASM_LOAD32_REG_REG reg_dest reg_base
  | StoreRegRegOffset reg_src reg_base qword_offset => ASM_STORE_REG_REG_OFFSET reg_src reg_base qword_offset
  | Store8RegRegOffset reg_src reg_base byte_offset => ASM_STORE8_REG_REG_OFFSET reg_src reg_base byte_offset
  | Store8RegReg reg_src reg_base => ASM_STORE8_REG_REG reg_src reg_base
  | Store16RegRegOffset reg_src reg_base word_offset => ASM_STORE16_REG_REG_OFFSET reg_src reg_base word_offset
  | Store16RegReg reg_src reg_base => ASM_STORE16_REG_REG reg_src reg_base
  | Store32RegRegOffset reg_src reg_base dword_offset => ASM_STORE32_REG_REG_OFFSET reg_src reg_base dword_offset
  | Store32RegReg reg_src reg_base => ASM_STORE32_REG_REG reg_src reg_base
  | ClrReg reg_dest => ASM_CLR_REG reg_dest
  | Nop => asm_x64_nop
  | PushR64 r64 => asm_x64_push_r64 r64
  | PopR64 r64 => asm_x64_pop_r64 r64
  | MovI32ToR64 i32 r64 => asm_x64_mov_i32_to_r64 i32 r64;; mret tt
  | MovI64ToR64 i64 r64 => asm_x64_mov_i64_to_r64 i64 r64
  | SetccR8 cc r8 => asm_x64_setcc_r8 cc r8
  | JccLabel cc label => asm_x64_jcc_label cc label
  | CmpR64WithR64 r64_a r64_b => asm_x64_cmp_r64_with_r64 r64_a r64_b
  | TestR8WithR8 r64_a r64_b => asm_x64_test_r8_with_r8 r64_a r64_b
  end.

(** At most so many bytes. *)
Definition x64_size (op : x64_op) : Z :=
  match op with
  | Shared op => base_size op
  | EndPass => 0
  | Nop => 1
  | CallInd _ | MovRegImm _ _ | MovI64ToR64 _ _ => 10
  | Exit => 16
  | JumpReg _ | PushR64 _ | PopR64 _ | TestR8WithR8 _ _ => 2
  | MovRegReg _ _ | NotReg _ | NegReg _ | LslReg _ | LsrReg _ | AsrReg _ | OrRegReg _ _
  | XorRegReg _ _ | AndRegReg _ _ | AddRegReg _ _ | SubRegReg _ _ | ClrReg _ | SetccR8 _ _
  | CmpR64WithR64 _ _ => 3
  | MulRegReg _ _ => 4
  | Jump _ => 5
  | MovI32ToR64 _ _ | JccLabel _ _ => 6
  | MovRegPcrel _ _ => 7
  | MovLocalReg _ _ | MovRegLocal _ _ | MovRegLocalAddr _ _ | LoadRegRegOffset _ _ _
  | Load32RegRegOffset _ _ _ | Load32RegReg _ _ | StoreRegRegOffset _ _ _
  | Store8RegRegOffset _ _ _ | Store8RegReg _ _ | Store32RegRegOffset _ _ _ | Store32RegReg _ _ => 8
  | JumpIfRegZero _ _ _ | JumpIfRegNonzero _ _ _ | JumpIfRegEq _ _ _ | Load8RegRegOffset _ _ _
  | Load8RegReg _ _ | Load16RegRegOffset _ _ _ | Load16RegReg _ _ | Store16RegRegOffset _ _ _
  | Store16RegReg _ _ => 9
  end.

(** The functions that only call another one. *)
Create HintDb x64_calls.
#[export] Hint Unfold
  ASM_END_PASS ASM_ENTRY ASM_EXIT ASM_JUMP ASM_JUMP_IF_REG_ZERO ASM_JUMP_IF_REG_NONZERO
  ASM_JUMP_IF_REG_EQ ASM_JUMP_REG ASM_CALL_IND ASM_MOV_LOCAL_REG ASM_MOV_REG_IMM
  ASM_MOV_REG_LOCAL ASM_MOV_REG_REG ASM_MOV_REG_LOCAL_ADDR ASM_MOV_REG_PCREL ASM_NOT_REG
  ASM_NEG_REG ASM_LSL_REG ASM_LSR_REG ASM_ASR_REG ASM_OR_REG_REG ASM_XOR_REG_REG
  ASM_AND_REG_REG ASM_ADD_REG_REG ASM_SUB_REG_REG ASM_MUL_REG_REG ASM_LOAD_REG_REG_OFFSET
  ASM_LOAD8_REG_REG_OFFSET ASM_LOAD8_REG_REG ASM_LOAD16_REG_REG_OFFSET ASM_LOAD16_REG_REG
  ASM_LOAD32_REG_REG_OFFSET ASM_LOAD32_REG_REG ASM_STORE_REG_REG_OFFSET
  ASM_STORE8_REG_REG_OFFSET ASM_STORE8_REG_REG ASM_STORE16_REG_REG_OFFSET ASM_STORE16_REG_REG
  ASM_STORE32_REG_REG_OFFSET ASM_STORE32_REG_REG ASM_CLR_REG asm_x64_mov_r64_r64
  asm_x64_not_r64 asm_x64_neg_r64 asm_x64_shl_r64_cl asm_x64_shr_r64_cl asm_x64_sar_r64_cl
  asm_x64_or_r64_r64 asm_x64_xor_r64_r64 asm_x64_and_r64_r64 asm_x64_add_r64_r64
  asm_x64_sub_r64_r64 asm_x64_cmp_r64_with_r64 asm_x64_test_r64_with_r64
  asm_x64_mov_local_to_r64 asm_x64_mov_r64_to_local asm_x64_nop asm_x64_end_pass : x64_calls.

Definition x64_op_ok (op : x64_op) : Prop :=
  match op with Shared op => base_op_ok op | _ => True end.

Lemma x64_steady_op op : x64_op_ok op -> steady_op x64_limit x64_agree x64_exec x64_size op.
Proof.
  intros Hok. destruct op; [by apply steady_shared; [apply x64_limit_ok|apply x64_agree_base|]|..];
    (split; [done|]); cbn [x64_exec x64_size]; autounfold with x64_calls; x64_op.
Qed.

(** A function: its entry, then its operations, the exits among them. *)
Definition x64_function (locals : Z) (ops : list x64_op) : M asm_x64_t unit :=
  ASM_ENTRY locals;; seq_ops x64_exec ops.

(** The entry sets the field the passes agree on. *)
Definition x64_start (s s' : asm_x64_t) : Prop := True.
Lemma x64_start_base b b' s s' : x64_start s s' -> x64_start (with_base b s) (with_base b' s').
Proof. done. Qed.
#[export] Hint Resolve x64_start_base : steady.

Lemma x64_enters_entry n : enters x64_limit x64_start x64_agree 15 (asm_x64_entry n).
Proof.
  unfold asm_x64_entry. cbv zeta.
  do 6 enters_step.
  apply enters_modify; [by apply off_table_none|done].
Qed.

(** Functions within the limits: up to 2 GB of code. *)
Definition x64_function_ok (ops : list x64_op) : Prop :=
  Forall x64_op_ok ops /\ 15 + total x64_size ops <= x64_limit.

(** C9: the x86-64 passes agree.  A function that a compute pass measured is
    emitted by the pass that follows without a failing assertion, whatever
    operations of the generic API it uses, with jumps and data in any order;
    the code is as long as measured, fits the region allocated for it, and
    every label is at the offset the compute pass recorded. *)
Theorem x64_passes_agree `{!PlatAllocExec} locals ops s0 s1 :
  x64_function_ok ops -> base_wf (base s0) ->
  run_pass MP_ASM_PASS_COMPUTE (x64_function locals ops) s0 = Ok (tt, s1) ->
  exists s2, run_pass MP_ASM_PASS_EMIT (x64_function locals ops) s1 = Ok (tt, s2)
    /\ code_offset (base s2) = code_offset (base s1)
    /\ label_offsets (base s2) = label_offsets (base s1)
    /\ num_locals s2 = num_locals s1 /\ code_offset (base s2) <= code_size (base s2).
Proof.
  intros [Hops Hsz] Hwf Hrun.
  destruct (program_agrees x64_limit x64_agree x64_exec x64_size x64_start 15
    (asm_x64_entry locals) ops s0 s1 s1) as (s2 & E2 & Ho & Hl & Ha & Hcs & _); try done.
  - apply x64_enters_entry.
  - apply x64_enters_entry.
  - eapply Forall_impl; [exact Hops|]. apply x64_steady_op.
  - by exists s2.
Qed.

(** A loop with a forward and a backward jump, and a data word after it. *)
Definition x64_example : list x64_op :=
  [Jump 1; Shared (Label 0); MovRegImm REG_ARG_1 0x123456789; CallInd 3; Shared (Label 1);
   JumpIfRegNonzero REG_RET 0 true; MovRegPcrel REG_RET 2; Exit; Shared (Align 3); Shared (Label 2);
   Shared (Data 8 42)].

Lemma x64_passes_agree_witness : exists s1 s2,
  run_pass (H0 := example_alloc_64) MP_ASM_PASS_EMIT (x64_function 2 x64_example) s1 = Ok (tt, s2)
  /\ code_offset (base s2) = 64 /\ num_locals s2 = 3.
Proof.
  destruct (x64_passes_agree (H := example_alloc_64) 2 x64_example (mk_asm_x64 (fresh 3) 0)
    (mk_asm_x64 (mk_asm_base MP_ASM_PASS_COMPUTE false 64 0 0 [] 3 [15; 31; 56]) 3)) as (s2 & E & Ho & _ & Hn & _).
  - split; [repeat (apply List.Forall_cons; [simpl; first [done|lia]|]); apply List.Forall_nil|by vm_compute].
  - apply fresh_wf.
  - vm_compute. reflexivity.
  - eexists _, s2. split; [exact E|]. split; [exact Ho|exact Hn].
Defined.
