(* ===== verification/AsmX64Instr.v ===== *)
(** * AsmX64Instr: the instructions of asmx64.c

    Every function of asmx64.c that stands for one instruction writes that
    instruction: its code performs the instruction's effect in long mode. *)

From S2P Require Import Prelude AsmBase TwoPass Machine Emission X86Isa X86Encode X86Effect AsmX64.

Set Default Goal Selector "!".

#[local] Existing Instance SizeT_64.
#[local] Hint Extern 0 Isa => exact X86_64 : typeclass_instances.

(** ** Writing *)

Section Writing.
Implicit Types (s : asm_x64_t).

Lemma x64_emits_byte_1 s b1 : emits s (asm_x64_write_byte_1 b1) [u8 b1].
Proof. apply emits_put_array. bytes_tac. Qed.
Lemma x64_emits_byte_2 s b1 b2 : emits s (asm_x64_write_byte_2 b1 b2) [u8 b1; u8 b2].
Proof. apply emits_put_array. bytes_tac. Qed.
Lemma x64_emits_byte_3 s b1 b2 b3 : emits s (asm_x64_write_byte_3 b1 b2 b3) [u8 b1; u8 b2; u8 b3].
Proof. apply emits_put_array. bytes_tac. Qed.
Lemma x64_emits_word32 s w : emits s (asm_x64_write_word32 w) (le_bytes 4 w).
Proof.
  replace (le_bytes 4 w) with [IMM32_L0 w; IMM32_L1 w; IMM32_L2 w; IMM32_L3 w];
    [apply emits_put_array; bytes_tac|].
  simpl. unfold IMM32_L0, IMM32_L1, IMM32_L2, IMM32_L3. repeat f_equal; bitsolve.
Qed.
Lemma x64_emits_word64 s w : emits s (asm_x64_write_word64 w) (le_bytes 8 w).
Proof.
  replace (le_bytes 8 w) with [IMM32_L0 w; IMM32_L1 w; IMM32_L2 w; IMM32_L3 w;
    IMM64_L4 w; IMM64_L5 w; IMM64_L6 w; IMM64_L7 w]; [apply emits_put_array; bytes_tac|].
  simpl. unfold IMM32_L0, IMM32_L1, IMM32_L2, IMM32_L3, IMM64_L4, IMM64_L5, IMM64_L6, IMM64_L7.
  repeat f_equal; bitsolve.
Qed.

Lemma x64_emits_r64_disp s x y d : emits s (asm_x64_write_r64_disp x y d) (disp_bytes x y d).
Proof.
  unfold asm_x64_write_r64_disp. cbv zeta.
  change (if (d =? 0) && negb (y .& 7 =? ASM_X64_REG_RBP) then MODRM_RM_DISP0
    else if SIGNED_FIT8 d then MODRM_RM_DISP8 else MODRM_RM_DISP32) with (disp_mode y d).
  apply (emits_seq _ _ _ [_]); [apply x64_emits_byte_1|]. apply emits_seq.
  - apply emits_if; intros _; [apply x64_emits_byte_1|apply emits_ret].
  - apply emits_if; intros _; [|apply emits_if; intros _; [apply x64_emits_word32|apply emits_ret]].
    replace (u8 d) with (u8 (IMM32_L0 d)); [apply x64_emits_byte_1|]. unfold IMM32_L0. bitsolve.
Qed.
End Writing.

(** ** One instruction *)

Definition reg8 (r : Z) : Prop := 0 <= r < 8.
Definition reg16 (r : Z) : Prop := 0 <= r < 16.
Abbreviation effect := (effect true).

Section Forms.
Context (s : asm_x64_t).

(** [op r/m64, r64]. *)
Lemma x64_generic_assembles dest src op i (k : Z * place -> parser x86_instr) :
  reg16 dest -> reg16 src ->
  (forall rest, decode_op (rexed false 0x48 src dest) ([u8 op] ++ rest)
     = (modrm (rexed false 0x48 src dest) ≫= k) rest) ->
  k (src, Reg dest) = mret i ->
  assembles s (asm_x64_generic_r64_r64 dest src op) [(i, 3)].
Proof using.
  intros Hd Hs Hk Hi. eapply (decoded_assembles true s _ [_; _; _]); [apply x64_emits_byte_3| |code_length].
  apply (parses_rex 0x48 src dest); [simpl; auto|].
  eapply (parses_rr _ [u8 op]); [by apply extends_rexed; simpl; auto|exact Hk|exact Hi].
Qed.
Lemma x64_generic_performs dest src op i (k : Z * place -> parser x86_instr) :
  reg16 dest -> reg16 src ->
  (forall rest, decode_op (rexed false 0x48 src dest) ([u8 op] ++ rest)
     = (modrm (rexed false 0x48 src dest) ≫= k) rest) ->
  k (src, Reg dest) = mret i -> straight_line true i = true ->
  performs s (asm_x64_generic_r64_r64 dest src op) (effect i).
Proof using. intros Hd Hs Hk Hi. apply (assembles_effect true s _ i 3). by eapply x64_generic_assembles. Qed.

(** [op r64, m64] and [op m64, r64], with a REX prefix. *)
Lemma x64_rex_rm_performs (base x y d op : Z) i (k : Z * place -> parser x86_instr) :
  In base [0x40; 0x48] -> reg16 x -> reg16 y ->
  (forall rest, decode_op (rexed false base x y) ([u8 op] ++ rest)
     = (modrm (rexed false base x y) ≫= k) rest) ->
  k (x, Mem (Some y) (s32 d)) = mret i -> straight_line true i = true ->
  performs s (asm_x64_write_byte_2 (base .| REX_R_FROM_R64 x .| REX_B_FROM_R64 y) op;;
    asm_x64_write_r64_disp x y d) (effect i).
Proof using.
  intros Hb Hx Hy Hk Hi Hl.
  eapply decoded_performs; [apply emits_seq; [apply x64_emits_byte_2|apply x64_emits_r64_disp]| |code_length|done].
  apply (parses_rex base x y); [done|].
  eapply (parses_rm _ [u8 op]); [by apply extends_rexed|exact Hk|exact Hi].
Qed.
End Forms.

(** ** Registers and constants *)

Section Registers.
Context (s : asm_x64_t) (dest src : Z) (Hd : reg16 dest) (Hs : reg16 src).
Ltac generic :=
  eapply x64_generic_performs; [done|done || by split|reflexivity|cbn beta iota; rewrite rexed_width; reflexivity|reflexivity].

Lemma x64_mov_r64_r64_performs :
  performs s (asm_x64_mov_r64_r64 dest src) (effect (MOV 64 (Reg dest) (Reg src))).
Proof using Hd Hs. generic. Qed.
Lemma x64_add_r64_r64_performs :
  performs s (asm_x64_add_r64_r64 dest src) (effect (ALU ADD 64 (Reg dest) (Reg src))).
Proof using Hd Hs. generic. Qed.
Lemma x64_sub_r64_r64_performs :
  performs s (asm_x64_sub_r64_r64 dest src) (effect (ALU SUB 64 (Reg dest) (Reg src))).
Proof using Hd Hs. generic. Qed.
Lemma x64_and_r64_r64_performs :
  performs s (asm_x64_and_r64_r64 dest src) (effect (ALU AND 64 (Reg dest) (Reg src))).
Proof using Hd Hs. generic. Qed.
Lemma x64_or_r64_r64_performs :
  performs s (asm_x64_or_r64_r64 dest src) (effect (ALU OR 64 (Reg dest) (Reg src))).
Proof using Hd Hs. generic. Qed.
Lemma x64_xor_r64_r64_performs :
  performs s (asm_x64_xor_r64_r64 dest src) (effect (ALU XOR 64 (Reg dest) (Reg src))).
Proof using Hd Hs. generic. Qed.
Lemma x64_cmp_r64_with_r64_assembles :
  assembles s (asm_x64_cmp_r64_with_r64 src dest) [(ALU CMP 64 (Reg dest) (Reg src), 3)].
Proof using Hd Hs.
  eapply x64_generic_assembles; [done|done|reflexivity|]. cbn beta iota. by rewrite rexed_width.
Qed.
Lemma x64_test_r64_with_r64_assembles :
  assembles s (asm_x64_test_r64_with_r64 src dest) [(ALU TEST 64 (Reg dest) (Reg src), 3)].
Proof using Hd Hs.
  eapply x64_generic_assembles; [done|done|reflexivity|]. cbn beta iota. by rewrite rexed_width.
Qed.
Lemma x64_not_r64_performs : performs s (asm_x64_not_r64 dest) (effect (NOT 64 (Reg dest))).
Proof using Hd. generic. Qed.
Lemma x64_neg_r64_performs : performs s (asm_x64_neg_r64 dest) (effect (NEG 64 (Reg dest))).
Proof using Hd. generic. Qed.
Lemma x64_shl_r64_performs : performs s (asm_x64_shl_r64_cl dest) (effect (SHIFT SHL 64 (Reg dest))).
Proof using Hd. generic. Qed.
Lemma x64_shr_r64_performs : performs s (asm_x64_shr_r64_cl dest) (effect (SHIFT SHR 64 (Reg dest))).
Proof using Hd. generic. Qed.
Lemma x64_sar_r64_performs : performs s (asm_x64_sar_r64_cl dest) (effect (SHIFT SAR 64 (Reg dest))).
Proof using Hd. generic. Qed.

Lemma x64_mul_r64_r64_performs :
  performs s (asm_x64_mul_r64_r64 dest src) (effect (IMUL 64 dest (Reg src))).
Proof using Hd Hs.
  eapply decoded_performs; [apply emits_seq; [apply x64_emits_byte_1|apply x64_emits_byte_3]| |code_length|done].
  apply (parses_rex 0x48 dest src); [simpl; auto|].
  eapply (parses_rr _ [u8 0x0f; u8 0xaf]); [by apply extends_rexed; simpl; auto|reflexivity|].
  cbn beta iota. by rewrite rexed_width.
Qed.
End Registers.

(** A register in the opcode, and what follows it. *)
Section OneOperand.
Context (s : asm_x64_t) (r : Z) (Hr : reg16 r).
Context (op : Z) (Hop : In op [0x50; 0x58; 0xb8]) (cs : list Z) (f : Z -> x86_instr).
Hypothesis Hparse : forall c x, c = plain \/ c = rexed false 0x40 0 r -> reg8 x ->
  parses (decode_op c) (u8 (op .| x) :: cs) (f (x + ext_b c)).

Definition write_op : M asm_x64_t unit :=
  if r <? 8 then asm_x64_write_byte_1 (op .| r)
  else asm_x64_write_byte_2 (REX_PREFIX .| REX_B) (op .| r .& 7).
Definition op_bytes : list Z :=
  if r <? 8 then [u8 (op .| r)] else [u8 (REX_PREFIX .| REX_B); u8 (op .| r .& 7)].

Lemma x64_emits_op : emits s write_op op_bytes.
Proof using. apply emits_if; intros _; [apply x64_emits_byte_1|apply x64_emits_byte_2]. Qed.
Lemma x64_parses_op : parses (x86_parse true) (op_bytes ++ cs) (f r).
Proof using Hr Hop Hparse.
  unfold op_bytes. destruct (Z.ltb_spec r 8) as [Hl|Hl]; simpl.
  - assert (reg8 r) as Hr8 by by split; [apply Hr|].
    apply parses_plain; [by apply opcode_low|]. specialize (Hparse plain r).
    rewrite Z.add_0_r in Hparse. auto.
  - assert (u8 (REX_PREFIX .| REX_B) = rex_byte 0x40 0 r) as ->
      by (rewrite rex_byte_b by (simpl; auto); by rewrite ltb_false).
    apply parses_rex; [simpl; auto|]. specialize (Hparse (rexed false 0x40 0 r) (r .& 7)).
    rewrite extended_b in Hparse by (simpl; auto). apply Hparse; [auto|apply low3_range].
Qed.
Lemma x64_length_op_bytes : (length op_bytes <= 2)%nat.
Proof using. unfold op_bytes. destruct (r <? 8); simpl; lia. Qed.
End OneOperand.

Lemma x64_push_r64_performs s r : reg16 r -> performs s (asm_x64_push_r64 r) (effect (PUSH r)).
Proof.
  intros Hr. eapply decoded_performs; [apply (x64_emits_op s r 0x50)| |pose proof (x64_length_op_bytes r 0x50); lia|done].
  rewrite <- (app_nil_r (op_bytes r 0x50)).
  apply (x64_parses_op r Hr 0x50 ltac:(simpl; auto) [] PUSH). intros c x [-> | ->] Hx; by apply parses_push.
Qed.
Lemma x64_pop_r64_performs s r : reg16 r -> performs s (asm_x64_pop_r64 r) (effect (POP r)).
Proof.
  intros Hr. eapply decoded_performs; [apply (x64_emits_op s r 0x58)| |pose proof (x64_length_op_bytes r 0x58); lia|done].
  rewrite <- (app_nil_r (op_bytes r 0x58)).
  apply (x64_parses_op r Hr 0x58 ltac:(simpl; auto) [] POP). intros c x [-> | ->] Hx; by apply parses_pop.
Qed.

(** The function returns where the constant was put; no caller uses it. *)
Lemma x64_mov_i32_to_r64_performs s i r : reg16 r ->
  performs s (asm_x64_mov_i32_to_r64 i r;; mret tt) (effect (MOVI 32 r (u32 i))).
Proof.
  intros Hr. eapply decoded_performs; [|apply (x64_parses_op r Hr 0xb8 ltac:(simpl; auto) (le_bytes 4 i) (fun x => MOVI 32 x (u32 i)))| |done].
  - eapply emits_ext; [|apply emits_seq; [apply (x64_emits_op s r 0xb8)|apply x64_emits_word32]].
    intros t. unfold asm_x64_mov_i32_to_r64. change (if r <? 8 then _ else _) with (write_op r 0xb8).
    rewrite bind_assoc. unfold mbind, M_bind. destruct (write_op r 0xb8 t) as [[[] t1]|]; [|done].
    unfold on_base, mp_asm_base_get_code_pos, gets. rewrite with_base_of. by destruct (asm_x64_write_word32 i t1) as [[[] ?]|].
  - intros c x [-> | ->] Hx; [by apply (parses_movi None x Hx 4 i)|].
    pose proof (parses_movi (Some (bits (rex_byte 0x40 0 r) 0 4)) x Hx 4 i) as Hm.
    change (mk_prefixes false _) with (rexed false 0x40 0 r) in Hm. rewrite rexed_width_32 in Hm. by apply Hm.
  - rewrite length_app. pose proof (x64_length_op_bytes r 0xb8). simpl. lia.
Qed.
Lemma x64_mov_i64_to_r64_performs s i r : reg16 r ->
  performs s (asm_x64_mov_i64_to_r64 i r) (effect (MOVI 64 r (u64 i))).
Proof.
  intros Hr. eapply decoded_performs; [apply emits_seq; [apply x64_emits_byte_2|apply x64_emits_word64]| |code_length|done].
  assert (u8 (REX_PREFIX .| REX_W .| (if r <? 8 then 0 else REX_B)) = rex_byte 0x48 0 r) as ->
    by (by rewrite rex_byte_b by (simpl; auto)).
  apply parses_rex; [simpl; auto|].
  pose proof (parses_movi (Some (bits (rex_byte 0x48 0 r) 0 4)) (r .& 7) (low3_range r) 8 i) as Hm.
  change (mk_prefixes false _) with (rexed false 0x48 0 r) in Hm.
  rewrite rexed_width, extended_b in Hm by (simpl; auto). by apply Hm.
Qed.

(** ** Memory *)

(** Accesses of less than 64 bits have a REX prefix only for the registers
    that need one. *)
Section Narrow.
Context (s : asm_x64_t) (x y d : Z) (Hx : reg16 x) (Hy : reg16 y).
Context (o : bool) (pre : list Z) (low high : M asm_x64_t unit).
Abbreviation both_low := ((x <? 8) && (y <? 8)).
Definition narrow_prefixes : prefixes :=
  if both_low then mk_prefixes o None else rexed o 0x40 x y.
Abbreviation opsize_bytes := (if o then [0x66] else []).
Context (k : Z * place -> parser x86_instr) (i : x86_instr).
Hypothesis Hlow : emits s low (opsize_bytes ++ pre).
Hypothesis Hhigh : emits s high (opsize_bytes ++ rex_byte 0x40 x y :: pre).
Hypothesis Hpre : (length pre <= 2)%nat.
Hypothesis Hfirst : match pre with b :: _ => opcode true b | [] => False end.
Hypothesis Hdecode : forall rest, decode_op narrow_prefixes (pre ++ rest) = (modrm narrow_prefixes ≫= k) rest.
Hypothesis Hk : k (x, Mem (Some y) (s32 d)) = mret i.

Lemma x64_narrow_parses : parses (x86_parse true)
  ((if both_low then opsize_bytes ++ pre else opsize_bytes ++ rex_byte 0x40 x y :: pre) ++ disp_bytes x y d) i.
Proof using Hx Hy Hfirst Hdecode Hk.
  clear Hlow Hhigh Hpre. unfold narrow_prefixes in *. destruct both_low eqn:E.
  - apply andb_prop in E as [?%Z.ltb_lt ?%Z.ltb_lt]. destruct Hx as [Hx0 _], Hy as [Hy0 _].
    assert (parses (decode_op (mk_prefixes o None)) (pre ++ disp_bytes x y d) i) as Hp
      by (eapply parses_rm; [by apply extends_plain|exact Hdecode|exact Hk]).
    destruct pre as [|b pre']; [done|]. destruct Hfirst as [H66 H4]. destruct o; simpl.
    + apply parses_66; [by apply Z.eqb_neq, H4|done].
    + by apply parses_plain.
  - assert (parses (decode_op (rexed o 0x40 x y)) (pre ++ disp_bytes x y d) i) as Hp
      by (eapply parses_rm; [by apply extends_rexed; simpl; auto|exact Hdecode|exact Hk]).
    destruct o; [by apply (parses_66_rex 0x40); simpl; auto|by apply (parses_rex 0x40); simpl; auto].
Qed.

Lemma x64_narrow_performs : straight_line true i = true ->
  performs s ((if both_low then low else high);; asm_x64_write_r64_disp x y d) (effect i).
Proof using All.
  intros Hi. eapply decoded_performs; [|apply x64_narrow_parses| |exact Hi].
  - apply emits_seq; [by apply emits_if|apply x64_emits_r64_disp].
  - rewrite length_app. assert (length (if both_low then opsize_bytes ++ pre
      else opsize_bytes ++ rex_byte 0x40 x y :: pre) <= 4)%nat by (destruct both_low, o; simpl; lia).
    pose proof (length_disp_bytes x y d). lia.
Qed.
End Narrow.

Section Memory.
Context (s : asm_x64_t) (x y d : Z) (Hx : reg16 x) (Hy : reg16 y).
Abbreviation at_y := (Mem (Some y) (s32 d)).
Ltac rex_rm :=
  eapply (x64_rex_rm_performs s 0x48); [simpl; auto|done..|reflexivity|cbn beta iota; rewrite rexed_width; reflexivity|reflexivity].
Ltac narrow o pre :=
  eapply (x64_narrow_performs s x y d Hx Hy o pre);
    [first [apply x64_emits_byte_1|apply x64_emits_byte_2]
    |first [apply x64_emits_byte_2|apply x64_emits_byte_3]
    |simpl; lia|done|reflexivity| |].

Lemma x64_mov_r64_to_mem64_performs :
  performs s (asm_x64_mov_r64_to_mem64 x y d) (effect (MOV 64 at_y (Reg x))).
Proof using Hx Hy. rex_rm. Qed.
Lemma x64_mov_mem64_to_r64_performs :
  performs s (asm_x64_mov_mem64_to_r64 y d x) (effect (MOV 64 (Reg x) at_y)).
Proof using Hx Hy. rex_rm. Qed.
Lemma x64_lea_performs : performs s (asm_x64_lea_disp_to_r64 y d x) (effect (LEA 64 x at_y)).
Proof using Hx Hy. rex_rm. Qed.

Lemma x64_narrow_width o : op_width (narrow_prefixes x y o) = if o then 16 else 32.
Proof using. unfold narrow_prefixes. destruct (_ && _); [by destruct o|apply rexed_width_32]. Qed.
Ltac width := cbn beta iota; rewrite x64_narrow_width; reflexivity.

(** A byte register 4 to 7 is one of AH, CH, DH, BH if no prefix is there. *)
Definition byte_source : place := byte_place (narrow_prefixes x y false) (Reg x).
Lemma x64_mov_r8_to_mem8_performs :
  performs s (asm_x64_mov_r8_to_mem8 x y d) (effect (MOV 8 at_y byte_source)).
Proof using Hx Hy.
  narrow false [0x88]; [reflexivity|]. unfold byte_source, narrow_prefixes. simpl.
  destruct (_ && _); simpl; [by destruct (x <? 4)|done].
Qed.
Lemma x64_mov_r16_to_mem16_performs :
  performs s (asm_x64_mov_r16_to_mem16 x y d) (effect (MOV 16 at_y (Reg x))).
Proof using Hx Hy. narrow true [0x89]; [width|done]. Qed.
Lemma x64_mov_r32_to_mem32_performs :
  performs s (asm_x64_mov_r32_to_mem32 x y d) (effect (MOV 32 at_y (Reg x))).
Proof using Hx Hy. narrow false [0x89]; [width|done]. Qed.
Lemma x64_mov_mem8_to_r64zx_performs :
  performs s (asm_x64_mov_mem8_to_r64zx y d x) (effect (MOVZX 32 8 x at_y)).
Proof using Hx Hy.
  unfold asm_x64_mov_mem8_to_r64zx. rewrite (andb_comm (y <? 8)). narrow false [0x0f; 0xb6]; [width|done].
Qed.
Lemma x64_mov_mem16_to_r64zx_performs :
  performs s (asm_x64_mov_mem16_to_r64zx y d x) (effect (MOVZX 32 16 x at_y)).
Proof using Hx Hy.
  unfold asm_x64_mov_mem16_to_r64zx. rewrite (andb_comm (y <? 8)). narrow false [0x0f; 0xb7]; [width|done].
Qed.
Lemma x64_mov_mem32_to_r64zx_performs :
  performs s (asm_x64_mov_mem32_to_r64zx y d x) (effect (MOV 32 (Reg x) at_y)).
Proof using Hx Hy.
  unfold asm_x64_mov_mem32_to_r64zx. rewrite (andb_comm (y <? 8)). narrow false [0x8b]; [width|done].
Qed.
End Memory.

(** ** The first eight registers *)

Section LowRegisters.
Context (s : asm_x64_t).

Lemma x64_sub_r64_i32_performs r i : reg8 r ->
  performs s (asm_x64_sub_r64_i32 r i) (effect (ALUI SUB 64 (Reg r) (s32 i))).
Proof using.
  intros Hr. unfold asm_x64_sub_r64_i32. apply performs_assert; [by apply ltb_true, Hr|].
  assert (extends (rexed false 0x48 5 r) 5 r) as Hx
    by (apply extends_rexed; [simpl; auto|done|by split; [apply Hr|destruct Hr; lia]]).
  assert (u8 (REX_PREFIX .| REX_W) = rex_byte 0x48 5 r) as Erex.
  { unfold rex_byte. replace (r >> 3) with 0; [done|]. unfold reg8 in Hr.
    symmetry. rewrite Z.shiftr_div_pow2 by done. by apply Z.div_small. }
  change (SIGNED_FIT8 i) with (fits8 i). destruct (fits8 i) eqn:E8.
  - eapply decoded_performs; [apply emits_seq; [apply x64_emits_byte_3|apply x64_emits_byte_1]| |code_length|done].
    rewrite Erex. apply parses_rex; [simpl; auto|]. rewrite fits8_s32 in E8.
    replace (s32 i) with (s8 (i .& 0xff)).
    2: { change 0xff with (Z.ones 8). rewrite Z.land_ones by done. fold (u8 i). rewrite sw_uw by done.
         apply andb_prop in E8 as [?%Z.leb_le ?%Z.ltb_lt]. word_lia. }
    eapply (parses_modrm_then _ [u8 0x83] [_]); [by apply parses_modrm_reg|reflexivity|].
    eapply parses_last; [apply (parses_simm 1); lia|]. cbn beta iota. by rewrite rexed_width.
  - eapply decoded_performs; [apply emits_seq; [apply x64_emits_byte_3|apply x64_emits_word32]| |code_length|done].
    rewrite Erex. apply parses_rex; [simpl; auto|].
    eapply (parses_modrm_then _ [u8 0x81] [_]); [by apply parses_modrm_reg|reflexivity|].
    eapply parses_last; [apply (parses_simm 4); lia|]. cbn beta iota. by rewrite rexed_width.
Qed.

(** [pre r/m] without a prefix. *)
Lemma x64_low_rr pre x y i (k : Z * place -> parser x86_instr) op : reg8 x -> reg8 y ->
  emits s op (pre ++ [modrm_byte 0xc0 x y]) -> match pre with b :: _ => opcode true b | [] => False end ->
  (length pre <= 2)%nat ->
  (forall rest, decode_op plain (pre ++ rest) = (modrm plain ≫= k) rest) -> k (x, Reg y) = mret i ->
  assembles s op [(i, Z.of_nat (length pre) + 1)].
Proof using.
  intros Hx Hy He Hf Hl Hk Hi.
  replace (Z.of_nat (length pre) + 1) with (Z.of_nat (length (pre ++ [modrm_byte 0xc0 x y])))
    by (rewrite length_app; simpl; lia).
  apply decoded_assembles; [done| |rewrite length_app; simpl; lia].
  assert (parses (decode_op plain) (pre ++ [modrm_byte 0xc0 x y]) i) as Hp
    by (eapply parses_rr; [by apply extends_plain|exact Hk|exact Hi]).
  destruct pre as [|b pre]; [done|]. by apply parses_plain.
Qed.

Lemma x64_test_r8_with_r8_assembles a b : reg8 a -> reg8 b ->
  assembles s (asm_x64_test_r8_with_r8 a b)
    [(ALU TEST 8 (byte_place plain (Reg b)) (byte_place plain (Reg a)), 2)].
Proof using.
  intros Ha Hb. unfold asm_x64_test_r8_with_r8.
  apply assembles_assert; [by apply ltb_true, Ha|]. apply assembles_assert; [by apply ltb_true, Hb|].
  eapply (x64_low_rr [0x84] a b); [done|done|apply x64_emits_byte_2|done|simpl; lia|reflexivity|reflexivity].
Qed.
Lemma x64_setcc_r8_performs cc r : 0 <= cc < 16 -> has_cc cc = true -> reg8 r ->
  performs s (asm_x64_setcc_r8 cc r) (effect (SETCC cc (byte_place plain (Reg r)))).
Proof using.
  intros Hcc Hhas Hr. unfold asm_x64_setcc_r8. apply performs_assert; [by apply ltb_true, Hr|].
  eapply (assembles_effect true); [|simpl; by destruct (r <? 4)].
  enumerate 16%nat cc; try done;
    (match goal with |- context [asm_x64_write_byte_3 _ (_ .| ?cc) _] =>
       eapply (x64_low_rr [0x0f; u8 (0x90 .| cc)] 0 r) end; [done|done|apply x64_emits_byte_3|done|simpl; lia|reflexivity|reflexivity]).
Qed.
Lemma x64_jmp_reg_assembles r : reg8 r -> assembles s (asm_x64_jmp_reg r) [(JMPR (Reg r), 2)].
Proof using.
  intros Hr. unfold asm_x64_jmp_reg. apply assembles_assert; [by apply ltb_true, Hr|].
  eapply (x64_low_rr [0xff] 4 r); [done|done|apply x64_emits_byte_2|done|simpl; lia|reflexivity|reflexivity].
Qed.
Lemma x64_call_reg_assembles r : reg8 r ->
  assembles s (asm_x64_write_byte_2 OPCODE_CALL_RM32 (MODRM_R64 2 .| MODRM_RM_REG .| MODRM_RM_R64 r)) [(CALLR (Reg r), 2)].
Proof using.
  intros Hr. eapply (x64_low_rr [0xff] 2 r); [done|done|apply x64_emits_byte_2|done|simpl; lia|reflexivity|reflexivity].
Qed.
Lemma x64_nop_performs : performs s asm_x64_nop (effect NOP).
Proof using.
  eapply (decoded_performs true); [apply x64_emits_byte_1| |simpl; lia|done]. by apply parses_plain.
Qed.
Lemma x64_ret_assembles : assembles s asm_x64_ret [(RET, 1)].
Proof using.
  apply (decoded_assembles true s _ [0xc3]); [apply x64_emits_byte_1| |simpl; lia]. by apply parses_plain.
Qed.
End LowRegisters.
