(* ===== verification/AsmX64Frame.v ===== *)
(** * AsmX64Frame: function entry and exit of asmx64.c

    The entry pushes RBP, RBX, R12 and R13 and makes room for an odd number of
    locals; the exit releases the room, pops the registers and returns.  They
    implement the frame of X86Stack. *)

From S2P Require Import Prelude AsmBase TwoPass Machine Emission X86Isa X86Encode X86Effect X86Stack.
From S2P Require Import AsmX64 AsmX64Instr.

Set Default Goal Selector "!".

#[local] Existing Instance SizeT_64.
#[local] Hint Extern 0 Isa => exact X86_64 : typeclass_instances.

(** The registers a function saves, in the order it pushes them. *)
Definition x64_saved : list Z :=
  [ASM_X64_REG_RBP; ASM_X64_REG_RBX; ASM_X64_REG_R12; ASM_X64_REG_R13].
Lemma x64_saved_gpr : Forall gpr x64_saved.
Proof. repeat (apply List.Forall_cons; [by split|]). apply List.Forall_nil. Qed.
Lemma x64_saved_sp : 4 ∉ x64_saved.
Proof. by apply (bool_decide_unpack _). Qed.
Lemma x64_saved_NoDup : NoDup x64_saved.
Proof. by apply (bool_decide_unpack _). Qed.
#[export] Hint Resolve x64_saved_gpr x64_saved_sp x64_saved_NoDup : core.

(** The locals there is room for: one more if their number is even. *)
Definition x64_locals (locals : Z) : Z := locals .| 1.
Lemma x64_locals_bounds locals : 0 <= locals < 2 ^ 28 ->
  locals <= x64_locals locals < 2 ^ 28 /\ Z.odd (x64_locals locals) = true.
Proof.
  intros Hl. unfold x64_locals.
  change (2 ^ 28) with 268435456 in *.
  destruct locals as [|[p|p|]|p]; [done|change (Z.pos p~1 .| 1) with (Z.pos p~1)|
    change (Z.pos p~0 .| 1) with (Z.pos p~1)|done|lia]; (split; [lia|done]).
Qed.

Section Frame.
Context (s : asm_x64_t) (locals : Z) (Hl : 0 <= locals < 2 ^ 28).
Abbreviation n := (8 * x64_locals locals).

Lemma x64_frame_fits : 0 <= n /\ n + wbytes true * Z.of_nat (length x64_saved) + wbytes true <= 2 ^ 64.
Proof using Hl. pose proof (x64_locals_bounds locals Hl). change (wbytes true) with 8. simpl. lia. Qed.

Lemma x64_pushes_perform : performs s
  (asm_x64_push_r64 ASM_X64_REG_RBP;; asm_x64_push_r64 ASM_X64_REG_RBX;;
   asm_x64_push_r64 ASM_X64_REG_R12;; asm_x64_push_r64 ASM_X64_REG_R13) (push_all true x64_saved).
Proof using.
  assert (forall t r, reg16 r -> performs t (asm_x64_push_r64 r) (push_reg true r)) as Hp
    by (intros t r; apply x64_push_r64_performs).
  apply (performs_seq s _ _ (push_reg true 5) (push_all true [3; 12; 13])); [by apply Hp|done|done|intros b1].
  apply (performs_seq _ _ _ (push_reg true 3) (push_all true [12; 13])); [by apply Hp|done|done|intros b2].
  apply (performs_seq _ _ _ (push_reg true 12) (push_all true [13])); [by apply Hp|done|done|intros b3].
  by apply Hp.
Qed.

Lemma x64_entry_implements : implements_to s (set_num_locals (x64_locals locals) s) (asm_x64_entry locals)
  (fun len m m1 => pc m1 = u64 (pc m + len) /\ frame_entered true x64_saved n m m1).
Proof using Hl.
  pose proof x64_frame_fits as [Hn Hfit]. pose proof (x64_locals_bounds locals Hl) as [Hb _].
  eapply (implements_to_intro s s _ _
    ((asm_x64_push_r64 ASM_X64_REG_RBP;; asm_x64_push_r64 ASM_X64_REG_RBX;;
      asm_x64_push_r64 ASM_X64_REG_R12;; asm_x64_push_r64 ASM_X64_REG_R13);;
     asm_x64_sub_r64_i32 ASM_X64_REG_RSP (s32 (x64_locals locals * WORD_SIZE)))
    (modify (set_num_locals (x64_locals locals)))); [done|done| |done|].
  - unfold asm_x64_entry. rewrite leb_true by lia. rewrite assert_true by done.
    symmetry. seq_assoc.
  - eapply implements_mono; [eapply (performs_seq _ _ _ _ (effect (ALUI SUB 64 (Reg 4) (s32 (s32 (x64_locals locals * WORD_SIZE))))));
      [apply x64_pushes_perform|done|by apply effect_blind|]|].
    + intros bs. by apply x64_sub_r64_i32_performs.
    + intros len m m1 ->. split; [done|].
      apply (enter_frame true x64_saved n); [done..|exact Hn|exact Hfit|].
      unfold WORD_SIZE. rewrite (sw_small 32 eq_refl (x64_locals locals * 8)), (sw_small 32 eq_refl) by (simpl in *; lia).
      apply moves_lowers, moves_sp_set_pc.
      replace (- n) with (- (x64_locals locals * 8)) by lia. apply (sub_moves_sp true).
Qed.

Lemma x64_pops_perform t : performs t
  (asm_x64_pop_r64 ASM_X64_REG_R13;; asm_x64_pop_r64 ASM_X64_REG_R12;;
   asm_x64_pop_r64 ASM_X64_REG_RBX;; asm_x64_pop_r64 ASM_X64_REG_RBP) (pop_all true (reverse x64_saved)).
Proof using.
  assert (forall t r, reg16 r -> performs t (asm_x64_pop_r64 r) (pop_reg true r)) as Hp
    by (intros t' r; apply x64_pop_r64_performs).
  apply (performs_seq _ _ _ (pop_reg true 13) (pop_all true [12; 3; 5])); [by apply Hp|done|done|intros b1].
  apply (performs_seq _ _ _ (pop_reg true 12) (pop_all true [3; 5])); [by apply Hp|done|done|intros b2].
  apply (performs_seq _ _ _ (pop_reg true 3) (pop_all true [5])); [by apply Hp|done|done|intros b3].
  by apply Hp.
Qed.

Lemma x64_ret_implements t : implements t asm_x64_ret
  (fun _ m m' => m' = set_pc (top true m) (popped true m)).
Proof using. eapply assembles_implements; [apply x64_ret_assembles|]. intros mc _. by eexists. Qed.

Lemma x64_exit_implements t : num_locals t = x64_locals locals ->
  implements t asm_x64_exit (fun _ => frame_left true x64_saved n).
Proof using Hl.
  intros Ht. pose proof (x64_locals_bounds locals Hl) as [Hb _].
  eapply (implements_ext t _ ((asm_x64_sub_r64_i32 ASM_X64_REG_RSP (s32 (s32 (- num_locals t) * WORD_SIZE));;
    asm_x64_pop_r64 ASM_X64_REG_R13;; asm_x64_pop_r64 ASM_X64_REG_R12;;
    asm_x64_pop_r64 ASM_X64_REG_RBX;; asm_x64_pop_r64 ASM_X64_REG_RBP);; asm_x64_ret)).
  { unfold asm_x64_exit. rewrite gets_bind. symmetry. seq_assoc. }
  eapply implements_mono; [eapply performs_then; [eapply (performs_seq _ _ _ (effect (ALUI SUB 64 (Reg 4) (s32 (s32 (s32 (- num_locals t) * WORD_SIZE))))) (pop_all true (reverse x64_saved)))|]|].
  - by apply x64_sub_r64_i32_performs.
  - by apply effect_blind.
  - done.
  - intros bs. apply x64_pops_perform.
  - intros bs. apply x64_ret_implements.
  - intros len mb m2 (n1 & n2 & _ & ->). rewrite Ht.
    unfold WORD_SIZE. rewrite (sw_small 32 eq_refl (- _)), (sw_small 32 eq_refl (_ * 8)), (sw_small 32 eq_refl) by (simpl in *; lia).
    destruct (sub_moves_sp true (- x64_locals locals * 8) mb) as (_ & Hs & Hm).
    eapply (leave_frame true x64_saved n x64_saved_sp x64_saved_NoDup mb); [exact Hm| |].
    + rewrite Hs, uw_uw by done. f_equal. lia.
    + reflexivity.
Qed.
End Frame.
