(* ===== verification/AsmX64Jump.v ===== *)
(** * AsmX64Jump: the jumps of asmx64.c reach their labels

    A jump's code transfers control by the distance between the label's offset
    and the offset the code is at, whichever of the two encodings is chosen;
    calls go through the function table; a label's address is computed from
    the program counter. *)

From S2P Require Import Prelude AsmBase TwoPass Machine Emission X86Isa X86Encode X86Effect X86Stack X86Jump.
From S2P Require Import AsmX64 AsmX64Pass AsmX64Instr.

Set Default Goal Selector "!".

#[local] Existing Instance SizeT_64.
#[local] Hint Extern 0 Isa => exact X86_64 : typeclass_instances.

(** [label] is at [dest], and both it and the code, [room] bytes further on,
    are in reach. *)
Record label_at (room : Z) (s : asm_x64_t) (label dest : Z) : Prop := {
  label_at_max : label < max_num_labels (base s);
  label_at_dest : label_offsets (base s) !! Z.to_nat label = Some dest;
  label_at_range : 0 <= dest <= x64_limit /\ 0 <= code_offset (base s) <= x64_limit - room;
}.
Lemma x64_label_at_puts bs room s label dest : suppress (base s) = false -> Z.of_nat (length bs) <= room ->
  label_at room s label dest -> label_at (room - Z.of_nat (length bs)) (puts bs s) label dest.
Proof.
  intros Hs Hb [Hm Hd Hr]. constructor; change (base ?t) with (base_of t) in *; rewrite base_of_puts.
  - by rewrite put_bytes_max.
  - by rewrite put_bytes_labels.
  - rewrite put_bytes_offset, Hs. lia.
Qed.

Section Jumps.
Context (s : asm_x64_t) (label dest : Z) (Hlabel : label_at 8 s label dest).
Abbreviation disp := (dest - code_offset (base s)).

Lemma x64_get_label_dest_at {B} (k : Z -> M asm_x64_t B) : (d ← get_label_dest label; k d) s = k dest s.
Proof using Hlabel.
  apply bind_Ok. unfold get_label_dest. apply on_base_pure. by apply label_dest_ok; apply Hlabel.
Qed.
Lemma x64_disp_range : - 2 ^ 31 + 8 < disp < 2 ^ 31.
Proof using Hlabel. pose proof (label_at_range _ _ _ _ Hlabel). unfold x64_limit in *. lia. Qed.
Lemma x64_emits_short t b1 d : emits t (asm_x64_write_byte_2 b1 (d .& 0xff)) [u8 b1; u8 d].
Proof using.
  replace (u8 d) with (u8 (d .& 0xff)) by bitsolve. apply x64_emits_byte_2.
Qed.

(** The choice both jumps make. *)
Lemma x64_jump_choice {S} (m : S) (long : Z -> S) (short : Z -> S) :
  m = (if negb (dest =? u64 (-1)) && (s64 disp <? 0) then
         if SIGNED_FIT8 (s64 (s64 disp - 2)) then short (s64 (s64 disp - 2))
         else long (s64 (s64 (s64 disp - 2) + 2))
       else long (s64 disp)) ->
  (m = short (disp - 2) /\ - 128 <= disp - 2 < 128) \/ m = long disp.
Proof using Hlabel.
  intros ->. pose proof x64_disp_range. rewrite (sw_small 64 eq_refl disp), (sw_small 64 eq_refl (disp - 2)) by pow_lia.
  replace (disp - 2 + 2) with disp by lia. rewrite (sw_small 64 eq_refl disp) by pow_lia.
  destruct (_ && _); [|by right]. change (SIGNED_FIT8 (disp - 2)) with (fits8 (disp - 2)).
  destruct (fits8 (disp - 2)) eqn:E; [|by right]. left. split; [done|].
  rewrite fits8_s32, (sw_small 32 eq_refl) in E by pow_lia. lia.
Qed.

Lemma x64_jmp_label_implements :
  implements s (asm_x64_jmp_label label) (jumps_if true (fun _ => true) disp).
Proof using Hlabel.
  pose proof x64_disp_range.
  assert (exists m, asm_x64_jmp_label label s = m s /\ implements s m (jumps_if true (fun _ => true) disp))
    as (m & E & Hm); [|by eapply implements_ext].
  unfold asm_x64_jmp_label. rewrite x64_get_label_dest_at. cbv zeta. rewrite gets_bind.
  eexists. split; [reflexivity|].
  destruct (x64_jump_choice _ (fun rel => asm_x64_write_byte_1 OPCODE_JMP_REL32;; asm_x64_write_word32 (s32 (s64 (rel - 5))))
    (fun rel => asm_x64_write_byte_2 OPCODE_JMP_REL8 (rel .& 0xff)) eq_refl) as [[-> Hs]| ->].
  - by apply jmp8_implements; [apply x64_emits_short|].
  - rewrite (sw_small 64 eq_refl), (sw_small 32 eq_refl) by pow_lia.
    apply jmp32_implements; [|lia]. apply (emits_seq _ _ _ [_]); [apply x64_emits_byte_1|apply x64_emits_word32].
Qed.

Lemma x64_jcc_label_implements cc : 0 <= cc < 16 -> has_cc cc = true ->
  implements s (asm_x64_jcc_label cc label) (jumps_if true (cond cc) disp).
Proof using Hlabel.
  intros Hcc Hh. pose proof x64_disp_range.
  assert (exists m, asm_x64_jcc_label cc label s = m s /\ implements s m (jumps_if true (cond cc) disp))
    as (m & E & Hm); [|by eapply implements_ext].
  unfold asm_x64_jcc_label. rewrite x64_get_label_dest_at. cbv zeta. rewrite gets_bind.
  eexists. split; [reflexivity|].
  destruct (x64_jump_choice _ (fun rel => asm_x64_write_byte_2 OPCODE_JCC_REL32_A (OPCODE_JCC_REL32_B .| cc);;
      asm_x64_write_word32 (s32 (s64 (rel - 6))))
    (fun rel => asm_x64_write_byte_2 (OPCODE_JCC_REL8 .| cc) (rel .& 0xff)) eq_refl) as [[-> Hs]| ->].
  - by apply jcc8_implements; [apply x64_emits_short|..].
  - rewrite (sw_small 64 eq_refl), (sw_small 32 eq_refl) by pow_lia.
    apply jcc32_implements; [|done..|lia]. apply (emits_seq _ _ _ [_; _]); [apply x64_emits_byte_2|apply x64_emits_word32].
Qed.

(** LEA of an address relative to the next instruction. *)
Lemma x64_mov_reg_pcrel_implements r : reg16 r ->
  implements s (asm_x64_mov_reg_pcrel r label) (fun n mc mc' =>
    mc' = set_pc (u64 (pc mc + n)) (set_reg r (u64 (pc mc + disp)) mc)).
Proof using Hlabel.
  intros Hr. pose proof x64_disp_range.
  eapply (implements_ext _ _ (asm_x64_write_byte_3 (REX_PREFIX .| REX_W .| REX_R_FROM_R64 r)
    OPCODE_LEA_MEM_TO_R64 (MODRM_R64 r .| MODRM_RM_R64 5);; asm_x64_write_word32 (disp - 7))).
  { unfold asm_x64_mov_reg_pcrel. rewrite x64_get_label_dest_at. rewrite gets_bind. cbv zeta.
    replace (dest - (code_offset (base s) + 7)) with (disp - 7) by lia.
    by rewrite (sw_small 64 eq_refl), (sw_small 32 eq_refl) by pow_lia. }
  eapply (one_implements true _ _ ([_; _; _] ++ le_bytes 4 (disp - 7)) (LEA 64 r (Mem None (disp - 7))));
    [apply emits_seq; [apply x64_emits_byte_3|apply x64_emits_word32]| |simpl; lia|].
  - assert (u8 (REX_PREFIX .| REX_W .| REX_R_FROM_R64 r) = rex_byte 0x48 r 5) as ->
      by (unfold rex_byte; by replace ((5 >> 3) .& 1) with 0; rewrite ?Z.lor_0_r).
    apply parses_rex; [simpl; auto|].
    rewrite <- (sw_small 32 eq_refl (disp - 7)) at 2 by pow_lia.
    replace (u8 (MODRM_R64 r .| MODRM_RM_R64 5)) with (modrm_byte 0 r 5) by (unfold modrm_byte, MODRM_R64, MODRM_RM_R64; bitsolve).
    eapply (parses_modrm_op _ [u8 0x8d] (_ :: _) (r, _)); [apply parses_modrm_rip; [by apply extends_rexed; simpl; auto|done]|reflexivity|].
    cbn beta iota. by rewrite rexed_width.
  - intros mc. eexists. split; [reflexivity|]. cbn [write]. do 2 f_equal.
    unfold address. rewrite uw_uw by done. exact (jump_target true mc 7 disp).
Qed.
End Jumps.

(** ** Conditional jumps *)

Section ConditionalJumps.
Context (s : asm_x64_t) (label dest : Z) (Hlabel : label_at 16 s label dest).
Hypothesis Hlive : suppress (base s) = false.
Abbreviation disp := (dest - code_offset (base s)).

Lemma x64_test_then_jump test i len cc (c : machine -> bool) :
  assembles s test [(i, len)] -> len = 2 \/ len = 3 -> straight_line true i = true ->
  0 <= cc < 16 -> has_cc cc = true -> (forall mc, same_except flags mc (effect i mc)) ->
  (forall mc, cond cc (effect i mc) = c mc) ->
  implements s (test;; asm_x64_jcc_label cc label) (branches_if true c disp).
Proof using Hlabel Hlive.
  intros Ht Hlen Hs Hcc Hh Hsame Hc. apply (test_then_jump true s test _ i len cc); [done..|].
  intros bs Hbs. replace (disp - len) with (dest - code_offset (base (puts bs s))).
  - apply x64_jcc_label_implements; [|done|done].
    pose proof (x64_label_at_puts bs 16 s label dest Hlive ltac:(lia) Hlabel) as [? ? ?].
    constructor; [done|done|]. lia.
  - change (base (puts bs s)) with (base_of (puts bs s)).
    rewrite base_of_puts, put_bytes_offset. cbn [base_of HasBase_x64]. rewrite Hlive. lia.
Qed.

Lemma x64_test_assembles r (bool_test : bool) : reg16 r -> (bool_test = true -> r < 4) ->
  exists i len, assembles s (if bool_test then asm_x64_test_r8_with_r8 r r else asm_x64_test_r64_with_r64 r r) [(i, len)]
    /\ (len = 2 \/ len = 3) /\ straight_line true i = true
    /\ (forall mc, same_except flags mc (effect i mc)) /\ forall mc, flag ZF (effect i mc) = is_zero true bool_test r mc.
Proof using.
  intros Hr H4. destruct bool_test.
  - assert (r < 4) as Hr4 by auto. assert (reg8 r) as Hr8 by (unfold reg8, reg16 in *; lia).
    eexists _, 2. split; [by apply x64_test_r8_with_r8_assembles|]. simpl. rewrite ltb_true by done.
    split; [by left|]. split; [done|].
    split; intros mc; [apply result_flags_same|].
    change (flag ZF (result_flags false false 8 (u8 (reg r mc) .& u8 (reg r mc)) mc) = is_zero true true r mc).
    by rewrite result_flags_zero, Z.land_diag, uw_uw.
  - eexists _, 3. split; [by apply x64_test_r64_with_r64_assembles|].
    split; [by right|]. split; [done|]. split; intros mc; [apply result_flags_same|].
    change (flag ZF (result_flags false false 64 (u64 (reg r mc) .& u64 (reg r mc)) mc) = is_zero true false r mc).
    by rewrite result_flags_zero, Z.land_diag, uw_uw.
Qed.

Lemma x64_jump_if_reg_zero_implements r (bool_test : bool) : reg16 r -> (bool_test = true -> r < 4) ->
  implements s (GenericApi.ASM_JUMP_IF_REG_ZERO r label bool_test) (branches_if true (is_zero true bool_test r) disp).
Proof using Hlabel Hlive.
  intros Hr H4. destruct (x64_test_assembles r bool_test Hr H4) as (i & len & Ha & Hl & Hs & Hsame & Hz).
  by apply (x64_test_then_jump _ _ _ _ _ Ha).
Qed.
Lemma x64_jump_if_reg_nonzero_implements r (bool_test : bool) : reg16 r -> (bool_test = true -> r < 4) ->
  implements s (GenericApi.ASM_JUMP_IF_REG_NONZERO r label bool_test)
    (branches_if true (fun mc => negb (is_zero true bool_test r mc)) disp).
Proof using Hlabel Hlive.
  intros Hr H4. destruct (x64_test_assembles r bool_test Hr H4) as (i & len & Ha & Hl & Hs & Hsame & Hz).
  apply (x64_test_then_jump _ _ _ _ _ Ha); try done. intros mc. by rewrite <- Hz.
Qed.
Lemma x64_jump_if_reg_eq_implements r1 r2 : reg16 r1 -> reg16 r2 ->
  implements s (GenericApi.ASM_JUMP_IF_REG_EQ r1 r2 label)
    (branches_if true (fun mc => u64 (reg r1 mc) =? u64 (reg r2 mc)) disp).
Proof using Hlabel Hlive.
  intros H1 H2. apply (x64_test_then_jump _ _ _ _ _ (x64_cmp_r64_with_r64_assembles s r2 r1 H2 H1)); try done; [by right|..].
  - intros mc. apply result_flags_same.
  - intros mc. change (flag ZF (result_flags (u64 (reg r2 mc) <? u64 (reg r1 mc))
      (negb (s64 (u64 (reg r2 mc)) - s64 (u64 (reg r1 mc)) =? s64 (u64 (u64 (reg r2 mc) - u64 (reg r1 mc)))))
      64 (u64 (u64 (reg r2 mc) - u64 (reg r1 mc))) mc) = (u64 (reg r1 mc) =? u64 (reg r2 mc))).
    by rewrite result_flags_zero, uw_uw, uw_sub_eqb by done.
Qed.
End ConditionalJumps.

(** ** Calls *)

(** The word at [8 * idx] of the function table. *)
Definition table_entry (idx : Z) (mc : machine) : Z :=
  u64 (load 64 8 (mem mc) (u64 (reg GenericApi.REG_FUN_TABLE mc + 8 * idx))).

Lemma x64_call_ind_implements s idx temp : reg8 temp -> 0 <= idx < 2 ^ 28 ->
  implements s (asm_x64_call_ind idx temp) (fun n mc mc' =>
    mc' = set_pc (table_entry idx mc)
      (push true (u64 (pc mc + n)) (set_reg temp (table_entry idx mc) mc))).
Proof.
  intros Ht Hi. unfold asm_x64_call_ind.
  eapply (implements_ext _ _ (asm_x64_mov_mem64_to_r64 ASM_X64_REG_FUN_TABLE (s32 (u64 (idx * WORD_SIZE))) temp;;
    asm_x64_write_byte_2 OPCODE_CALL_RM32 (MODRM_R64 2 .| MODRM_RM_REG .| MODRM_RM_R64 temp)));
    [apply assert_true, ltb_true, Ht|].
  eapply implements_mono; [eapply performs_then|].
  - apply x64_mov_mem64_to_r64_performs; [unfold reg16, reg8 in *; lia|by split].
  - intros bs. eapply (assembles_implements _ _ _ (fun n mc mc' => mc' = set_pc (u64 (reg temp mc)) (push true (u64 (pc mc + n)) mc)));
      [by apply x64_call_reg_assembles|]. intros mc _. by eexists.
  - intros n mc mc' (n1 & n2 & -> & ->). unfold WORD_SIZE.
    rewrite (uw_small 64 (idx * 8)), (sw_small 32 eq_refl (idx * 8)), (sw_small 32 eq_refl (idx * 8)) by pow_lia.
    assert (effect (MOV 64 (Reg temp) (Mem (Some ASM_X64_REG_FUN_TABLE) (idx * 8))) mc
      = set_reg temp (table_entry idx mc) mc) as -> by (unfold table_entry; by rewrite (Z.mul_comm 8)).
    rewrite reg_set_pc, reg_set_eq, pc_set_pc. unfold table_entry at 1. rewrite uw_uw by done.
    change (addr_width) with 64. rewrite uw_add_l, Z.add_assoc by done. done.
Qed.
