(* ===== verification/AsmX64Spec.v ===== *)
(** * AsmX64Spec: what asmx64.c promises the native emitter

    The theorems of the x86-64 back end: the frame of a function, the jumps,
    memory, arithmetic, constants and calls, with concrete instances. *)

From S2P Require Import Prelude AsmBase TwoPass AsmBaseSpec Machine Emission Program.
From S2P Require Import X86Isa X86Encode X86Effect X86Stack X86Arith X86Jump.
From S2P Require Import AsmX64 AsmX64Pass AsmX64Instr AsmX64Frame AsmX64Jump.

Set Default Goal Selector "!".

#[local] Existing Instance SizeT_64.
#[local] Hint Extern 0 Isa => exact X86_64 : typeclass_instances.

(** ** Arithmetic *)

Section Arithmetic.
Context (s : asm_x64_t) (dest src : Z) (Hd : reg16 dest) (Hs : reg16 src).

Ltac by_binary H := eapply (binary_computes true dest src); [|exact H]; subst; by in_list.
Ltac by_unary H := eapply (unary_computes true dest); [|exact H]; subst; by in_list.

(** The two-operand instructions and what they compute. *)
Definition x64_binary : list ((Z -> Z -> M asm_x64_t unit) * (Z -> Z -> Z)) :=
  [(asm_x64_add_r64_r64, Z.add); (asm_x64_sub_r64_r64, Z.sub); (asm_x64_and_r64_r64, Z.land);
   (asm_x64_or_r64_r64, Z.lor); (asm_x64_xor_r64_r64, Z.lxor); (asm_x64_mul_r64_r64, Z.mul)].
Lemma x64_binary_computes op f : In (op, f) x64_binary ->
  implements s (op dest src) (computes true dest (fun mc => f (reg dest mc) (reg src mc))).
Proof using Hd Hs.
  intros Hin. repeat destruct Hin as [[= <- Ef] | Hin]; [..|done].
  - by_binary (x64_add_r64_r64_performs s dest src Hd Hs).
  - by_binary (x64_sub_r64_r64_performs s dest src Hd Hs).
  - by_binary (x64_and_r64_r64_performs s dest src Hd Hs).
  - by_binary (x64_or_r64_r64_performs s dest src Hd Hs).
  - by_binary (x64_xor_r64_r64_performs s dest src Hd Hs).
  - by_binary (x64_mul_r64_r64_performs s dest src Hd Hs).
Qed.

(** One operand; the shifts are by the low six bits of RCX. *)
Definition x64_unary : list ((Z -> M asm_x64_t unit) * (Z -> Z -> Z)) :=
  [(asm_x64_not_r64, fun a _ => Z.lnot a); (asm_x64_neg_r64, fun a _ => - a);
   (asm_x64_shl_r64_cl, fun a n => a << n); (asm_x64_shr_r64_cl, fun a n => u64 a >> n);
   (asm_x64_sar_r64_cl, fun a n => s64 a >> n)].
Lemma x64_unary_computes op f : In (op, f) x64_unary ->
  implements s (op dest) (computes true dest (fun mc => f (reg dest mc) (reg ASM_X64_REG_RCX mc .& 63))).
Proof using Hd.
  intros Hin. repeat destruct Hin as [[= <- Ef] | Hin]; [..|done].
  - by_unary (x64_not_r64_performs s dest Hd).
  - by_unary (x64_neg_r64_performs s dest Hd).
  - by_unary (x64_shl_r64_performs s dest Hd).
  - by_unary (x64_shr_r64_performs s dest Hd).
  - by_unary (x64_sar_r64_performs s dest Hd).
Qed.
End Arithmetic.

(** ** Memory *)

(** The accesses of [n] bytes. *)
Definition x64_load (n : nat) : Z -> Z -> Z -> M asm_x64_t unit :=
  match n with
  | 1%nat => asm_x64_mov_mem8_to_r64zx | 2%nat => asm_x64_mov_mem16_to_r64zx
  | 4%nat => asm_x64_mov_mem32_to_r64zx | _ => asm_x64_mov_mem64_to_r64
  end.
Definition x64_store (n : nat) : Z -> Z -> Z -> M asm_x64_t unit :=
  match n with
  | 1%nat => asm_x64_mov_r8_to_mem8 | 2%nat => asm_x64_mov_r16_to_mem16
  | 4%nat => asm_x64_mov_r32_to_mem32 | _ => asm_x64_mov_r64_to_mem64
  end.
(** Loads clear the upper half of the destination. *)
Definition load_width (n : nat) : Z := if (n =? 8)%nat then 64 else 32.
(** A byte of RSP, RBP, RSI or RDI needs a prefix, which only a register from
    R8 on brings; without one the second byte of a lower register is stored. *)
Definition stored_value (n : nat) (x y : Z) (mc : machine) : Z :=
  if (n =? 1)%nat && (4 <=? x) && (x <? 8) && (y <? 8) then bits (reg (x - 4) mc) 8 8
  else uw (8 * Z.of_nat n) (reg x mc).

Section Memory.
Context (s : asm_x64_t) (x y d : Z) (Hx : reg16 x) (Hy : reg16 y).
Definition at_disp (mc : machine) : Z := u64 (reg y mc + s32 d).

Lemma x64_load_performs n : In n [1; 2; 4; 8]%nat ->
  performs s (x64_load n y d x)
    (fun mc => set_reg x (uw (load_width n) (load 64 n (mem mc) (at_disp mc))) mc).
Proof using Hx Hy.
  intros Hn. repeat destruct Hn as [<- | Hn]; [..|done].
  - eapply performs_ext; [|by apply x64_mov_mem8_to_r64zx_performs]. done.
  - eapply performs_ext; [|by apply x64_mov_mem16_to_r64zx_performs]. done.
  - eapply performs_ext; [|by apply x64_mov_mem32_to_r64zx_performs]. done.
  - eapply performs_ext; [|by apply x64_mov_mem64_to_r64_performs]. done.
Qed.

Lemma x64_store_performs n : In n [1; 2; 4; 8]%nat ->
  performs s (x64_store n x y d)
    (fun mc => set_mem (store 64 n (mem mc) (at_disp mc) (stored_value n x y mc)) mc).
Proof using Hx Hy.
  intros Hn. repeat destruct Hn as [<- | Hn]; [..|done].
  - eapply performs_ext; [|by apply x64_mov_r8_to_mem8_performs]. intros mc.
    unfold stored_value, byte_source, narrow_prefixes. simpl ((1 =? 1)%nat).
    destruct (Z.ltb_spec x 8), (Z.ltb_spec y 8), (Z.leb_spec 4 x); try lia; simpl; rewrite ?ltb_true, ?ltb_false by lia; done.
  - eapply performs_ext; [|by apply x64_mov_r16_to_mem16_performs]. done.
  - eapply performs_ext; [|by apply x64_mov_r32_to_mem32_performs]. done.
  - eapply performs_ext; [|by apply x64_mov_r64_to_mem64_performs]. done.
Qed.

Lemma x64_lea_disp_performs :
  performs s (asm_x64_lea_disp_to_r64 y d x) (fun mc => set_reg x (at_disp mc) mc).
Proof using Hx Hy.
  eapply performs_ext; [|by apply x64_lea_performs]. intros mc. unfold effect. simpl.
  unfold set_pc, set_reg, at_disp. simpl. by rewrite uw_uw.
Qed.
End Memory.

(** ** Locals *)

Section Locals.
Context (s : asm_x64_t) (r local : Z) (Hr : reg16 r) (Hlocal : 0 <= local < 2 ^ 28).
Definition local_address (mc : machine) : Z := u64 (reg ASM_X64_REG_RSP mc + 8 * local).

Lemma x64_local_offset : s32 (asm_x64_local_offset_from_rsp local) = 8 * local.
Proof using Hlocal.
  unfold asm_x64_local_offset_from_rsp, WORD_SIZE. rewrite (Z.mul_comm local).
  by rewrite !(sw_small 32 eq_refl (8 * local)) by pow_lia.
Qed.
Lemma x64_at_local mc : at_disp ASM_X64_REG_RSP (asm_x64_local_offset_from_rsp local) mc = local_address mc.
Proof using Hlocal. unfold at_disp. by rewrite x64_local_offset. Qed.

Lemma x64_mov_local_to_r64_performs : performs s (asm_x64_mov_local_to_r64 local r)
  (fun mc => set_reg r (u64 (load 64 8 (mem mc) (local_address mc))) mc).
Proof using Hr Hlocal.
  eapply performs_ext; [|apply (x64_load_performs s r ASM_X64_REG_RSP _ Hr ltac:(by split) 8); simpl; tauto].
  intros mc. cbn beta. by rewrite x64_at_local.
Qed.
Lemma x64_mov_r64_to_local_performs : performs s (asm_x64_mov_r64_to_local r local)
  (fun mc => set_mem (store 64 8 (mem mc) (local_address mc) (u64 (reg r mc))) mc).
Proof using Hr Hlocal.
  eapply performs_ext; [|apply (x64_store_performs s r ASM_X64_REG_RSP _ Hr ltac:(by split) 8); simpl; tauto].
  intros mc. cbn beta. by rewrite x64_at_local.
Qed.
Lemma x64_mov_local_addr_performs : performs s (asm_x64_mov_local_addr_to_r64 local r)
  (fun mc => set_reg r (local_address mc) mc).
Proof using Hr Hlocal.
  unfold asm_x64_mov_local_addr_to_r64. cbv zeta.
  destruct (Z.eqb_spec (asm_x64_local_offset_from_rsp local) 0) as [E|_].
  - eapply performs_ext; [|by apply x64_mov_r64_r64_performs]. intros mc.
    pose proof x64_local_offset as El. rewrite E in El. change (s32 0) with 0 in El.
    unfold local_address. rewrite <- El, Z.add_0_r. unfold effect. simpl.
    unfold set_pc, set_reg. simpl. by rewrite uw_uw.
  - eapply performs_ext; [|by apply x64_lea_disp_performs]. intros mc. cbn beta. by rewrite x64_at_local.
Qed.

(** Storing a local keeps the frame. *)
Lemma x64_store_local_keeps_frame v mc n : local < n -> 0 <= 8 * n <= 2 ^ 62 ->
  body_keeps_frame true x64_saved (8 * n) mc (set_mem (store 64 8 (mem mc) (local_address mc) v) mc).
Proof using Hlocal.
  intros Hl Hn. split; [done|]. intros o Ho. cbn [mem set_mem]. change (word_width true) with 64.
  rewrite peek_store by pow_lia. rewrite ltb_false; [done|].
  unfold local_address. rewrite uw_sub_r by done.
  change (wbytes true * Z.of_nat (length x64_saved)) with 32 in Ho. change (wbytes true) with 8 in Ho.
  replace (sp mc + o - (reg ASM_X64_REG_RSP mc + 8 * local)) with (o - 8 * local) by (unfold sp, ASM_X64_REG_RSP; lia).
  rewrite uw_small by pow_lia. lia.
Qed.
End Locals.

(** ** Constants *)

Lemma x64_mov_i64_performs s i r : reg16 r -> performs s (asm_x64_mov_i64_to_r64 i r) (set_reg r (u64 i)).
Proof.
  intros Hr. eapply performs_ext; [|by apply x64_mov_i64_to_r64_performs]. intros mc.
  unfold effect. simpl. unfold set_pc, set_reg. simpl. by rewrite uw_uw.
Qed.
Lemma x64_mov_i64_optimised_performs s i r : reg16 r ->
  performs s (asm_x64_mov_i64_to_r64_optimised i r) (set_reg r (u64 i)).
Proof.
  intros Hr. unfold asm_x64_mov_i64_to_r64_optimised. destruct (UNSIGNED_FIT32 i) eqn:E; [|by apply x64_mov_i64_performs].
  eapply performs_ext; [|by apply x64_mov_i32_to_r64_performs]. intros mc.
  assert (u32 (s32 (i .& 0xffffffff)) = u64 i) as Ei.
  { rewrite uw_sw by done. change (UNSIGNED_FIT32 i) with (i .& (2 ^ 64 - 2 ^ 32) =? 0) in E.
    rewrite (fit_unsigned 64 32) in E by lia. apply Z.ltb_lt in E.
    rewrite <- (uw_small 32 (u64 i)) by (pose proof (uw_range 64 eq_refl i); lia). bitsolve. }
  unfold effect. simpl. unfold set_pc, set_reg. simpl. do 2 f_equal. rewrite uw_uw by done. exact Ei.
Qed.

(** ** Concrete instances *)

(** Labels at 0, 100 and 2000, the code being at 40. *)
Definition example_x64 : asm_x64_t :=
  mk_asm_x64 (mk_asm_base MP_ASM_PASS_COMPUTE false 40 0 0 [] 3 [0; 100; 2000]) 3.
Lemma x64_example_label_at room : room <= 16 -> label_at room example_x64 2 2000.
Proof. intros. constructor; [done|done|]. unfold x64_limit. simpl. lia. Qed.

(** ** The theorems *)

(** C15: the frame of an x86-64 function.  Entry and exit implement the frame:
    RBP, RBX, R12 and R13 are saved above an odd number of locals; for a body
    that restores the stack pointer and leaves the saved registers and the
    return address alone, the exit returns to the caller with the stack pointer
    above the return address and every saved register as it was.  A stack
    pointer that a call left 8 bytes off a 16-byte boundary is on one after
    the entry. *)
Theorem x64_function_frame s locals : 0 <= locals < 2 ^ 28 ->
  implements_to s (set_num_locals (x64_locals locals) s) (asm_x64_entry locals)
    (fun n mc m1 => pc m1 = u64 (pc mc + n) /\ frame_entered true x64_saved (8 * x64_locals locals) mc m1)
  /\ (forall t, num_locals t = x64_locals locals ->
        implements t asm_x64_exit (fun _ => frame_left true x64_saved (8 * x64_locals locals)))
  /\ (forall mc m1 mb m2, frame_entered true x64_saved (8 * x64_locals locals) mc m1 ->
        body_keeps_frame true x64_saved (8 * x64_locals locals) m1 mb ->
        frame_left true x64_saved (8 * x64_locals locals) mb m2 ->
        (forall r, r ∈ x64_saved -> reg r m2 = u64 (reg r mc))
        /\ u64 (reg ASM_X64_REG_RSP m2) = u64 (reg ASM_X64_REG_RSP mc + 8)
        /\ pc m2 = load 64 8 (mem mc) (reg ASM_X64_REG_RSP mc))
  /\ (forall mc m1, frame_entered true x64_saved (8 * x64_locals locals) mc m1 ->
        (reg ASM_X64_REG_RSP mc + 8) mod 16 = 0 -> u64 (reg ASM_X64_REG_RSP m1) mod 16 = 0).
Proof.
  intros Hl. pose proof (x64_frame_fits locals Hl) as [Hn Hfit].
  split; [by apply x64_entry_implements|]. split; [by apply x64_exit_implements|]. split.
  - intros mc m1 mb m2. by apply (x86_frame_roundtrip true x64_saved _ Hn Hfit).
  - intros mc m1 [Hlow _] Hm. change (uw (word_width true) (sp m1) mod 16 = 0).
    rewrite (lowers_sp _ _ _ _ Hlow). change (wbytes true * Z.of_nat (length x64_saved)) with 32.
    pose proof (x64_locals_bounds locals Hl) as [_ Ho]. rewrite Zodd_mod in Ho. apply Z.eqb_eq in Ho.
    unfold sp. change (reg ASM_X64_REG_RSP mc) with (reg 4 mc) in Hm.
    change (word_width true) with 64. unfold uw. rewrite !Z.mod_mod_divide by (by exists (2 ^ 60)).
    clear -Hm Ho. Z.to_euclidean_division_equations. lia.
Qed.

Lemma x64_function_frame_witness : exists P,
  implements_to example_x64 (set_num_locals 5 example_x64) (asm_x64_entry 4) P.
Proof. eexists. apply (x64_function_frame example_x64 4). lia. Defined.

(** C16: the x86-64 jumps.  Running the code of a jump, in the short or the long
    encoding, transfers control by the distance between the label's offset and
    the code's; a conditional jump of the generic API does so exactly when the
    register is zero (in its low byte for a boolean), is not zero, or equals
    the other, falls through otherwise, and changes only the flags.  A call
    jumps to the entry of the function table and leaves the address of the code
    after it on the stack; the address of a label is that of the code plus the
    distance between their offsets. *)
Theorem x64_jumps s label dest : label_at 16 s label dest -> suppress (base s) = false ->
  let d := dest - code_offset (base s) in
  implements s (GenericApi.ASM_JUMP label) (fun n mc mc' => mc' = set_pc (u64 (pc mc + d)) mc)
  /\ (forall r bool_test, reg16 r -> (bool_test = true -> r < 4) ->
        implements s (GenericApi.ASM_JUMP_IF_REG_ZERO r label bool_test)
          (branches_if true (is_zero true bool_test r) d)
        /\ implements s (GenericApi.ASM_JUMP_IF_REG_NONZERO r label bool_test)
          (branches_if true (fun mc => negb (is_zero true bool_test r mc)) d))
  /\ (forall r1 r2, reg16 r1 -> reg16 r2 -> implements s (GenericApi.ASM_JUMP_IF_REG_EQ r1 r2 label)
        (branches_if true (fun mc => u64 (reg r1 mc) =? u64 (reg r2 mc)) d))
  /\ (forall idx, 0 <= idx < 2 ^ 28 -> implements s (GenericApi.ASM_CALL_IND idx) (fun n mc mc' =>
        mc' = set_pc (table_entry idx mc)
          (push true (u64 (pc mc + n)) (set_reg GenericApi.REG_RET (table_entry idx mc) mc))))
  /\ (forall r, reg16 r -> implements s (GenericApi.ASM_MOV_REG_PCREL r label) (fun n mc mc' =>
        mc' = set_pc (u64 (pc mc + n)) (set_reg r (u64 (pc mc + d)) mc))).
Proof.
  intros Hl Hs d. split; [|split; [|split; [|split]]].
  - apply x64_jmp_label_implements. destruct Hl as [? ? ?]. constructor; [done..|lia].
  - intros r bool_test Hr H4. split; [by apply x64_jump_if_reg_zero_implements|by apply x64_jump_if_reg_nonzero_implements].
  - intros r1 r2 H1 H2. by apply x64_jump_if_reg_eq_implements.
  - intros idx Hi. by apply x64_call_ind_implements.
  - intros r Hr. apply x64_mov_reg_pcrel_implements; [|done]. destruct Hl as [? ? ?]. constructor; [done..|lia].
Qed.

Lemma x64_jumps_witness : implements example_x64 (GenericApi.ASM_JUMP_IF_REG_ZERO 0 2 true)
    (branches_if true (is_zero true true 0) 1960)
  /\ exists P, implements example_x64 (GenericApi.ASM_MOV_REG_PCREL 9 2) P.
Proof.
  destruct (x64_jumps example_x64 2 2000) as (_ & E & _ & _ & Ep); [by apply x64_example_label_at|done|].
  destruct (E 0 true) as [Ez _]; [by split|done|]. split; [exact Ez|]. eexists. apply (Ep 9). by split.
Defined.

(** C17: loads and stores.  An access of 1, 2, 4 or 8 bytes reads or writes
    exactly the bytes at the base register plus the displacement, with or
    without a SIB byte, a REX prefix or an 8-bit displacement; a load clears
    the rest of the destination, and nothing else changes.  What a byte store
    without a REX prefix writes for RSP, RBP, RSI and RDI is the second byte of
    RAX, RCX, RDX and RBX.  Local [i] is the word at RSP plus [8 * i]: it is
    loaded, stored and its address taken; storing one of the locals the entry
    made room for keeps the frame. *)
Theorem x64_loads_stores s x : reg16 x ->
  (forall y d n, reg16 y -> In n [1; 2; 4; 8]%nat ->
     performs s (x64_load n y d x) (fun mc =>
       set_reg x (uw (load_width n) (load 64 n (mem mc) (u64 (reg y mc + s32 d)))) mc)
     /\ performs s (x64_store n x y d) (fun mc =>
       set_mem (store 64 n (mem mc) (u64 (reg y mc + s32 d)) (stored_value n x y mc)) mc))
  /\ (forall local, 0 <= local < 2 ^ 28 ->
     performs s (asm_x64_mov_local_to_r64 local x)
       (fun mc => set_reg x (u64 (load 64 8 (mem mc) (local_address local mc))) mc)
     /\ performs s (asm_x64_mov_local_addr_to_r64 local x) (fun mc => set_reg x (local_address local mc) mc)
     /\ implements s (asm_x64_mov_r64_to_local x local) (fun len mc mc' =>
          mc' = set_pc (u64 (pc mc + len)) (set_mem (store 64 8 (mem mc) (local_address local mc) (u64 (reg x mc))) mc)
          /\ forall n, local < n <= 2 ^ 28 -> body_keeps_frame true x64_saved (8 * n) mc mc')).
Proof.
  intros Hx. split; [intros; split; [by apply x64_load_performs|by apply x64_store_performs]|]. intros local Hl.
  split; [by apply x64_mov_local_to_r64_performs|]. split; [by apply x64_mov_local_addr_performs|].
  eapply implements_mono; [by apply x64_mov_r64_to_local_performs|]. intros len mc mc' ->. split; [done|].
  intros n Hn. apply (x64_store_local_keeps_frame local Hl (u64 (reg x mc)) mc n); [lia|pow_lia].
Qed.

Lemma x64_loads_stores_witness :
  (exists f, performs example_x64 (asm_x64_mov_r8_to_mem8 7 12 (-200)) f)
  /\ exists P, implements example_x64 (asm_x64_mov_r64_to_local 7 20) P.
Proof.
  destruct (x64_loads_stores example_x64 7) as [Hs Hl]; [by split|]. split; eexists.
  - apply (Hs 12 (-200) 1%nat); [by split|simpl; auto].
  - by apply Hl.
Defined.

(** C18: x86-64 arithmetic.  Addition, subtraction, the bitwise operations, the
    product, complement, negation and the three shifts by CL leave the result
    of the operation on 64-bit words in the destination; the shifts take the
    low six bits of the count. *)
Theorem x64_arithmetic s dest src : reg16 dest -> reg16 src ->
  (forall op f, In (op, f) x64_binary ->
     implements s (op dest src) (computes true dest (fun mc => f (reg dest mc) (reg src mc))))
  /\ (forall op f, In (op, f) x64_unary ->
     implements s (op dest) (computes true dest (fun mc => f (reg dest mc) (reg ASM_X64_REG_RCX mc .& 63)))).
Proof. intros. split; intros; [by apply x64_binary_computes|by apply x64_unary_computes]. Qed.

Lemma x64_arithmetic_witness : exists P, implements example_x64 (asm_x64_mul_r64_r64 9 3) P.
Proof. eexists. apply (x64_arithmetic example_x64 9 3); [by split|by split|simpl; tauto]. Defined.

(** C19: the shorter constant load is equivalent to the plain one: both leave
    the constant in the register and change nothing else. *)
Theorem x64_mov_i64_equivalent s i r : reg16 r ->
  performs s (asm_x64_mov_i64_to_r64_optimised i r) (set_reg r (u64 i))
  /\ performs s (asm_x64_mov_i64_to_r64 i r) (set_reg r (u64 i)).
Proof. intros. split; [by apply x64_mov_i64_optimised_performs|by apply x64_mov_i64_performs]. Qed.

Lemma x64_mov_i64_equivalent_witness :
  performs example_x64 (asm_x64_mov_i64_to_r64_optimised 0xfedcba98 11) (set_reg 11 0xfedcba98).
Proof. apply (x64_mov_i64_equivalent example_x64 0xfedcba98 11). by split. Defined.
(** ** Whole functions *)

(** A function that a compute pass measured, with a jump in it. *)
Record x64_measured `{!PlatAllocExec} (locals : Z) (ops : list x64_op) (s0 s1 : asm_x64_t) : Prop := {
  x64_measured_ok : x64_function_ok ops;
  x64_measured_wf : base_wf (base s0);
  x64_measured_run : run_pass MP_ASM_PASS_COMPUTE (x64_function locals ops) s0 = Ok (tt, s1);
  x64_measured_room : code_offset (base s1) <= x64_limit - 8;
}.

Lemma x64_measured_runs `{!PlatAllocExec} locals ops1 op ops2 s0 s1 :
  x64_measured locals (ops1 ++ op :: ops2) s0 s1 ->
  exists sa s2,
    run_pass MP_ASM_PASS_EMIT (x64_function locals (ops1 ++ op :: ops2)) s1 = Ok (tt, s2)
    /\ run_pass MP_ASM_PASS_EMIT (x64_function locals ops1) s1 = Ok (tt, sa)
    /\ label_offsets (base sa) = label_offsets (base s1) /\ base_wf (base sa)
    /\ code_offset (base sa) <= code_offset (base s1)
    /\ forall s' P, implements_to sa s' (x64_exec op) P -> suppress (base sa) = false ->
         addressable (base s2) ->
         forall mc, pc mc = u64 (code_base (base s2) + code_offset (base sa)) ->
         exists n mc', runs (step (loaded (base s2))) mc mc' /\ P n mc mc'.
Proof.
  intros [[Hops Hsz] Hwf Hrun _].
  destruct (program_runs x64_limit x64_limit_ok x64_agree x64_exec x64_size x64_start 15
    (asm_x64_entry locals) ops1 op ops2 s0 s1 s1) as (sa & s2 & ? & ? & ? & ? & ? & ? & ? & Hr);
    [done|apply x64_enters_entry|apply x64_enters_entry| |done|done|exact Hrun|by apply handover_same|].
  - eapply Forall_impl; [exact Hops|]. apply x64_steady_op.
  - exists sa, s2. do 5 (split; [done|]). intros s' P Hi Hs Ha mc Hpc.
    apply (Hr s' P Hi Hs); [by intros i []|done..].
Qed.

(** C14: x86-64 jumps land on their labels.  In the finished code of a function
    that a compute pass measured, a live jump to a label reaches, in finitely
    many steps, the address of the region plus the offset at which the label
    was placed, whether the label was before or after it, and changes nothing
    else. *)
Theorem x64_jump_reaches_label `{!PlatAllocExec} locals ops1 label ops2 s0 s1 target :
  x64_measured locals (ops1 ++ Jump label :: ops2) s0 s1 ->
  label_offsets (base s1) !! Z.to_nat label = Some target -> target <= x64_limit ->
  exists sa s2,
    run_pass MP_ASM_PASS_EMIT (x64_function locals (ops1 ++ Jump label :: ops2)) s1 = Ok (tt, s2)
    /\ run_pass MP_ASM_PASS_EMIT (x64_function locals ops1) s1 = Ok (tt, sa)
    /\ (suppress (base sa) = false -> addressable (base s2) -> label < max_num_labels (base sa) ->
        forall mc, pc mc = u64 (code_base (base s2) + code_offset (base sa)) ->
        runs (step (loaded (base s2))) mc (set_pc (u64 (code_base (base s2) + target)) mc)).
Proof.
  intros Hm Hl Ht. pose proof (x64_measured_room _ _ _ _ Hm) as Hroom.
  destruct (x64_measured_runs _ _ _ _ _ _ Hm) as (sa & s2 & E2 & Ea & Hla & Hwf & Ho & Hr).
  exists sa, s2. split; [done|]. split; [done|]. intros Hs Ha Hmax mc Hpc.
  assert (label_at 8 sa label target) as Hat.
  { constructor; [done|by rewrite Hla|]. pose proof (wf_code_offset _ Hwf).
    pose proof (wf_label_offsets _ Hwf) as Hlo. rewrite <- Hla in Hl.
    pose proof (Forall_lookup_1 _ _ _ _ Hlo Hl). simpl in *. lia. }
  destruct (Hr sa (jumps_if true (fun _ => true) (target - code_offset (base sa)))) with (mc := mc)
    as (n & mc' & Hruns & ->); try done.
  { apply implements_to_self. exact (x64_jmp_label_implements sa label target Hat). }
  rewrite Hpc in Hruns. cbv beta iota in Hruns. rewrite uw_add_l in Hruns by done.
  by replace (code_base (base s2) + code_offset (base sa) + (target - code_offset (base sa)))
    with (code_base (base s2) + target) in Hruns by lia.
Qed.

(** The function of AsmX64Pass, whose first jump is forwards. *)
Definition x64_example_measured : asm_x64_t :=
  mk_asm_x64 (mk_asm_base MP_ASM_PASS_COMPUTE false 64 0 0 [] 3 [15; 31; 56]) 3.

Lemma x64_example_is_measured : x64_measured (H := example_alloc_64) 2 x64_example
  (mk_asm_x64 (fresh 3) 0) x64_example_measured.
Proof.
  constructor.
  - split; [repeat (apply List.Forall_cons; [simpl; first [done|lia]|]); apply List.Forall_nil|by vm_compute].
  - apply fresh_wf.
  - vm_compute. reflexivity.
  - by vm_compute.
Qed.

Lemma x64_jump_reaches_label_witness : exists sa s2 : asm_x64_t,
  run_pass (H0 := example_alloc_64) MP_ASM_PASS_EMIT (x64_function 2 x64_example) x64_example_measured = Ok (tt, s2)
  /\ run_pass (H0 := example_alloc_64) MP_ASM_PASS_EMIT (x64_function 2 []) x64_example_measured = Ok (tt, sa)
  /\ suppress (base sa) = false /\ code_offset (base sa) = 10.
Proof.
  destruct (x64_jump_reaches_label (H := example_alloc_64) 2 [] 1 (drop 1 x64_example)
    (mk_asm_x64 (fresh 3) 0) x64_example_measured 31) as (sa & s2 & E2 & Ea & _).
  - exact x64_example_is_measured.
  - done.
  - by vm_compute.
  - exists sa, s2. split; [exact E2|]. split; [exact Ea|]. clear E2.
    vm_compute in Ea. injection Ea as <-. by split.
Defined.
