(* ===== verification/AsmX86.v ===== *)
(** * AsmX86: bank/uPython-ASM/asmx86.{h,c}

    The IA-32 code generator: opcodes, the encoding of operands, the back
    end's state, one definition per function of asmx86.c and the generic
    assembler API of asmx86.h. *)

From S2P Require Import Prelude AsmBase.

Set Default Goal Selector "!".

#[local] Existing Instance SizeT_32.

(** ** Registers and condition codes *)

Definition ASM_X86_REG_EAX : Z := 0.
Definition ASM_X86_REG_ECX : Z := 1.
Definition ASM_X86_REG_EDX : Z := 2.
Definition ASM_X86_REG_EBX : Z := 3.
Definition ASM_X86_REG_ESP : Z := 4.
Definition ASM_X86_REG_EBP : Z := 5.
Definition ASM_X86_REG_ESI : Z := 6.
Definition ASM_X86_REG_EDI : Z := 7.
Definition ASM_X86_REG_ARG_1 : Z := ASM_X86_REG_EAX.
Definition ASM_X86_REG_ARG_2 : Z := ASM_X86_REG_ECX.
Definition ASM_X86_REG_ARG_3 : Z := ASM_X86_REG_EDX.
Definition ASM_X86_REG_ARG_4 : Z := ASM_X86_REG_EBX.
Definition ASM_X86_CC_JB : Z := 0x2.
Definition ASM_X86_CC_JAE : Z := 0x3.
Definition ASM_X86_CC_JZ : Z := 0x4.
Definition ASM_X86_CC_JE : Z := 0x4.
Definition ASM_X86_CC_JNZ : Z := 0x5.
Definition ASM_X86_CC_JNE : Z := 0x5.
Definition ASM_X86_CC_JBE : Z := 0x6.
Definition ASM_X86_CC_JA : Z := 0x7.
Definition ASM_X86_CC_JL : Z := 0xc.
Definition ASM_X86_CC_JGE : Z := 0xd.
Definition ASM_X86_CC_JLE : Z := 0xe.
Definition ASM_X86_CC_JG : Z := 0xf.
Definition ASM_X86_REG_FUN_TABLE : Z := ASM_X86_REG_EBP.

(** ** The back end's state *)

Record asm_x86_t := mk_asm_x86 {
  base : mp_asm_base_t;
  num_locals : Z;
}.

#[export, refine] Instance HasBase_x86 : HasBase asm_x86_t :=
  {| base_of := base; with_base b s := mk_asm_x86 b (num_locals s) |}.
Proof. all: by intros; try destruct s. Defined.

Definition set_num_locals (n : Z) (s : asm_x86_t) : asm_x86_t := mk_asm_x86 (base s) n.

Definition asm_x86_end_pass : M asm_x86_t unit := mret tt.

(** ** Opcodes and fields *)

Definition WORD_SIZE : Z := 4.
Definition OPCODE_NOP : Z := 0x90.
Definition OPCODE_PUSH_R32 : Z := 0x50.
Definition OPCODE_POP_R32 : Z := 0x58.
Definition OPCODE_RET : Z := 0xc3.
Definition OPCODE_MOV_I32_TO_R32 : Z := 0xb8.
Definition OPCODE_MOV_R8_TO_RM8 : Z := 0x88.
Definition OPCODE_MOV_R32_TO_RM32 : Z := 0x89.
Definition OPCODE_MOV_RM32_TO_R32 : Z := 0x8b.
Definition OPCODE_MOVZX_RM8_TO_R32 : Z := 0xb6.
Definition OPCODE_MOVZX_RM16_TO_R32 : Z := 0xb7.
Definition OPCODE_LEA_MEM_TO_R32 : Z := 0x8d.
Definition OPCODE_NOT_RM32 : Z := 0xf7.
Definition OPCODE_NEG_RM32 : Z := 0xf7.
Definition OPCODE_AND_R32_TO_RM32 : Z := 0x21.
Definition OPCODE_OR_R32_TO_RM32 : Z := 0x09.
Definition OPCODE_XOR_R32_TO_RM32 : Z := 0x31.
Definition OPCODE_ADD_R32_TO_RM32 : Z := 0x01.
Definition OPCODE_ADD_I32_TO_RM32 : Z := 0x81.
Definition OPCODE_ADD_I8_TO_RM32 : Z := 0x83.
Definition OPCODE_SUB_R32_FROM_RM32 : Z := 0x29.
Definition OPCODE_SUB_I32_FROM_RM32 : Z := 0x81.
Definition OPCODE_SUB_I8_FROM_RM32 : Z := 0x83.
Definition OPCODE_SHL_RM32_CL : Z := 0xd3.
Definition OPCODE_SHR_RM32_CL : Z := 0xd3.
Definition OPCODE_SAR_RM32_CL : Z := 0xd3.
Definition OPCODE_CMP_R32_WITH_RM32 : Z := 0x39.
Definition OPCODE_TEST_R8_WITH_RM8 : Z := 0x84.
Definition OPCODE_TEST_R32_WITH_RM32 : Z := 0x85.
Definition OPCODE_JMP_REL8 : Z := 0xeb.
Definition OPCODE_JMP_REL32 : Z := 0xe9.
Definition OPCODE_JMP_RM32 : Z := 0xff.
Definition OPCODE_JCC_REL8 : Z := 0x70.
Definition OPCODE_JCC_REL32_A : Z := 0x0f.
Definition OPCODE_JCC_REL32_B : Z := 0x80.
Definition OPCODE_SETCC_RM8_A : Z := 0x0f.
Definition OPCODE_SETCC_RM8_B : Z := 0x90.
Definition OPCODE_CALL_REL32 : Z := 0xe8.
Definition OPCODE_CALL_RM32 : Z := 0xff.
Definition OPCODE_LEAVE : Z := 0xc9.
Definition MODRM_R32 (x : Z) : Z := x << 3.
Definition MODRM_RM_DISP0 : Z := 0x00.
Definition MODRM_RM_DISP8 : Z := 0x40.
Definition MODRM_RM_DISP32 : Z := 0x80.
Definition MODRM_RM_REG : Z := 0xc0.
Definition MODRM_RM_R32 (x : Z) : Z := x.
Definition OP_SIZE_PREFIX : Z := 0x66.
Definition IMM32_L0 (x : Z) : Z := x .& 0xff.
Definition IMM32_L1 (x : Z) : Z := x >> 8 .& 0xff.
Definition IMM32_L2 (x : Z) : Z := x >> 16 .& 0xff.
Definition IMM32_L3 (x : Z) : Z := x >> 24 .& 0xff.
Definition SIGNED_FIT8 (x : Z) : bool :=
  (x .& 0xffffff80 =? 0) || (x .& 0xffffff80 =? 0xffffff80).

(** ** Writing bytes *)

Definition asm_x86_write_byte_1 (b1 : Z) : M asm_x86_t unit :=
  put_array cur_to_write_bytes [u8 b1].

Definition asm_x86_write_byte_2 (b1 b2 : Z) : M asm_x86_t unit :=
  put_array cur_to_write_bytes [u8 b1; u8 b2].

Definition asm_x86_write_byte_3 (b1 b2 b3 : Z) : M asm_x86_t unit :=
  put_array cur_to_write_bytes [u8 b1; u8 b2; u8 b3].

Definition asm_x86_write_word32 (w32 : Z) : M asm_x86_t unit :=
  put_array cur_to_write_bytes [IMM32_L0 w32; IMM32_L1 w32; IMM32_L2 w32; IMM32_L3 w32].

Definition asm_x86_write_r32_disp (r32 disp_r32 disp_offset : Z) : M asm_x86_t unit :=
  let rm_disp :=
    if (disp_offset =? 0) && negb (disp_r32 =? ASM_X86_REG_EBP) then MODRM_RM_DISP0
    else if SIGNED_FIT8 disp_offset then MODRM_RM_DISP8
    else MODRM_RM_DISP32 in
  asm_x86_write_byte_1 (MODRM_R32 r32 .| rm_disp .| MODRM_RM_R32 disp_r32);;
  (if disp_r32 =? ASM_X86_REG_ESP then asm_x86_write_byte_1 0x24 else mret tt);;
  if rm_disp =? MODRM_RM_DISP8 then asm_x86_write_byte_1 (IMM32_L0 disp_offset)
  else if rm_disp =? MODRM_RM_DISP32 then asm_x86_write_word32 disp_offset
  else mret tt.

(** ** Instructions *)

Definition asm_x86_generic_r32_r32 (dest_r32 src_r32 op : Z) : M asm_x86_t unit :=
  asm_x86_write_byte_2 op (MODRM_R32 src_r32 .| MODRM_RM_REG .| MODRM_RM_R32 dest_r32).

Definition asm_x86_push_r32 (src_r32 : Z) : M asm_x86_t unit :=
  asm_x86_write_byte_1 (OPCODE_PUSH_R32 .| src_r32).

Definition asm_x86_pop_r32 (dest_r32 : Z) : M asm_x86_t unit :=
  asm_x86_write_byte_1 (OPCODE_POP_R32 .| dest_r32).

Definition asm_x86_ret : M asm_x86_t unit :=
  asm_x86_write_byte_1 OPCODE_RET.

Definition asm_x86_mov_r32_r32 (dest_r32 src_r32 : Z) : M asm_x86_t unit :=
  asm_x86_generic_r32_r32 dest_r32 src_r32 OPCODE_MOV_R32_TO_RM32.

Definition asm_x86_mov_r8_to_mem8 (src_r32 dest_r32 dest_disp : Z) : M asm_x86_t unit :=
  asm_x86_write_byte_1 OPCODE_MOV_R8_TO_RM8;;
  asm_x86_write_r32_disp src_r32 dest_r32 dest_disp.

Definition asm_x86_mov_r16_to_mem16 (src_r32 dest_r32 dest_disp : Z) : M asm_x86_t unit :=
  asm_x86_write_byte_2 OP_SIZE_PREFIX OPCODE_MOV_R32_TO_RM32;;
  asm_x86_write_r32_disp src_r32 dest_r32 dest_disp.

Definition asm_x86_mov_r32_to_mem32 (src_r32 dest_r32 dest_disp : Z) : M asm_x86_t unit :=
  asm_x86_write_byte_1 OPCODE_MOV_R32_TO_RM32;;
  asm_x86_write_r32_disp src_r32 dest_r32 dest_disp.

Definition asm_x86_mov_mem8_to_r32zx (src_r32 src_disp dest_r32 : Z) : M asm_x86_t unit :=
  asm_x86_write_byte_2 0x0f OPCODE_MOVZX_RM8_TO_R32;;
  asm_x86_write_r32_disp dest_r32 src_r32 src_disp.

Definition asm_x86_mov_mem16_to_r32zx (src_r32 src_disp dest_r32 : Z) : M asm_x86_t unit :=
  asm_x86_write_byte_2 0x0f OPCODE_MOVZX_RM16_TO_R32;;
  asm_x86_write_r32_disp dest_r32 src_r32 src_disp.

Definition asm_x86_mov_mem32_to_r32 (src_r32 src_disp dest_r32 : Z) : M asm_x86_t unit :=
  asm_x86_write_byte_1 OPCODE_MOV_RM32_TO_R32;;
  asm_x86_write_r32_disp dest_r32 src_r32 src_disp.

Definition asm_x86_lea_disp_to_r32 (src_r32 src_disp dest_r32 : Z) : M asm_x86_t unit :=
  asm_x86_write_byte_1 OPCODE_LEA_MEM_TO_R32;;
  asm_x86_write_r32_disp dest_r32 src_r32 src_disp.

Definition asm_x86_mov_i32_to_r32 (src_i32 dest_r32 : Z) : M asm_x86_t Z :=
  asm_x86_write_byte_1 (OPCODE_MOV_I32_TO_R32 .| dest_r32);;
  loc ← on_base mp_asm_base_get_code_pos;
  asm_x86_write_word32 src_i32;;
  mret loc.

Definition asm_x86_not_r32 (dest_r32 : Z) : M asm_x86_t unit :=
  asm_x86_generic_r32_r32 dest_r32 2 OPCODE_NOT_RM32.

Definition asm_x86_neg_r32 (dest_r32 : Z) : M asm_x86_t unit :=
  asm_x86_generic_r32_r32 dest_r32 3 OPCODE_NEG_RM32.

Definition asm_x86_and_r32_r32 (dest_r32 src_r32 : Z) : M asm_x86_t unit :=
  asm_x86_generic_r32_r32 dest_r32 src_r32 OPCODE_AND_R32_TO_RM32.

Definition asm_x86_or_r32_r32 (dest_r32 src_r32 : Z) : M asm_x86_t unit :=
  asm_x86_generic_r32_r32 dest_r32 src_r32 OPCODE_OR_R32_TO_RM32.

Definition asm_x86_xor_r32_r32 (dest_r32 src_r32 : Z) : M asm_x86_t unit :=
  asm_x86_generic_r32_r32 dest_r32 src_r32 OPCODE_XOR_R32_TO_RM32.

Definition asm_x86_shl_r32_cl (dest_r32 : Z) : M asm_x86_t unit :=
  asm_x86_generic_r32_r32 dest_r32 4 OPCODE_SHL_RM32_CL.

Definition asm_x86_shr_r32_cl (dest_r32 : Z) : M asm_x86_t unit :=
  asm_x86_generic_r32_r32 dest_r32 5 OPCODE_SHR_RM32_CL.

Definition asm_x86_sar_r32_cl (dest_r32 : Z) : M asm_x86_t unit :=
  asm_x86_generic_r32_r32 dest_r32 7 OPCODE_SAR_RM32_CL.

Definition asm_x86_add_r32_r32 (dest_r32 src_r32 : Z) : M asm_x86_t unit :=
  asm_x86_generic_r32_r32 dest_r32 src_r32 OPCODE_ADD_R32_TO_RM32.

Definition asm_x86_add_i32_to_r32 (src_i32 dest_r32 : Z) : M asm_x86_t unit :=
  if SIGNED_FIT8 src_i32 then
    asm_x86_write_byte_2 OPCODE_ADD_I8_TO_RM32
      (MODRM_R32 0 .| MODRM_RM_REG .| MODRM_RM_R32 dest_r32);;
    asm_x86_write_byte_1 (src_i32 .& 0xff)
  else
    asm_x86_write_byte_2 OPCODE_ADD_I32_TO_RM32
      (MODRM_R32 0 .| MODRM_RM_REG .| MODRM_RM_R32 dest_r32);;
    asm_x86_write_word32 src_i32.

Definition asm_x86_sub_r32_r32 (dest_r32 src_r32 : Z) : M asm_x86_t unit :=
  asm_x86_generic_r32_r32 dest_r32 src_r32 OPCODE_SUB_R32_FROM_RM32.

Definition asm_x86_sub_r32_i32 (dest_r32 src_i32 : Z) : M asm_x86_t unit :=
  if SIGNED_FIT8 src_i32 then
    asm_x86_write_byte_2 OPCODE_SUB_I8_FROM_RM32
      (MODRM_R32 5 .| MODRM_RM_REG .| MODRM_RM_R32 dest_r32);;
    asm_x86_write_byte_1 (src_i32 .& 0xff)
  else
    asm_x86_write_byte_2 OPCODE_SUB_I32_FROM_RM32
      (MODRM_R32 5 .| MODRM_RM_REG .| MODRM_RM_R32 dest_r32);;
    asm_x86_write_word32 src_i32.

Definition asm_x86_mul_r32_r32 (dest_r32 src_r32 : Z) : M asm_x86_t unit :=
  asm_x86_write_byte_3 0x0f 0xaf (MODRM_R32 dest_r32 .| MODRM_RM_REG .| MODRM_RM_R32 src_r32).

Definition asm_x86_cmp_r32_with_r32 (src_r32_a src_r32_b : Z) : M asm_x86_t unit :=
  asm_x86_generic_r32_r32 src_r32_b src_r32_a OPCODE_CMP_R32_WITH_RM32.

Definition asm_x86_test_r8_with_r8 (src_r32_a src_r32_b : Z) : M asm_x86_t unit :=
  asm_x86_write_byte_2 OPCODE_TEST_R8_WITH_RM8
    (MODRM_R32 src_r32_a .| MODRM_RM_REG .| MODRM_RM_R32 src_r32_b).

Definition asm_x86_test_r32_with_r32 (src_r32_a src_r32_b : Z) : M asm_x86_t unit :=
  asm_x86_generic_r32_r32 src_r32_b src_r32_a OPCODE_TEST_R32_WITH_RM32.

Definition asm_x86_setcc_r8 (jcc_type dest_r8 : Z) : M asm_x86_t unit :=
  asm_x86_write_byte_3 OPCODE_SETCC_RM8_A (OPCODE_SETCC_RM8_B .| jcc_type)
    (MODRM_R32 0 .| MODRM_RM_REG .| MODRM_RM_R32 dest_r8).

Definition asm_x86_jmp_reg (src_r32 : Z) : M asm_x86_t unit :=
  asm_x86_write_byte_2 OPCODE_JMP_RM32 (MODRM_R32 4 .| MODRM_RM_REG .| MODRM_RM_R32 src_r32).

(** ** Jumps *)

Definition get_label_dest (label : Z) : M asm_x86_t Z := on_base (label_dest label).

(** ** Functions and their locals *)

Definition asm_x86_entry (num_locals : Z) : M asm_x86_t unit :=
  assert_ (0 <=? num_locals) "num_locals >= 0";;
  asm_x86_push_r32 ASM_X86_REG_EBP;;
  asm_x86_push_r32 ASM_X86_REG_EBX;;
  asm_x86_push_r32 ASM_X86_REG_ESI;;
  asm_x86_push_r32 ASM_X86_REG_EDI;;
  let num_locals := (num_locals .| 3) in
  asm_x86_sub_r32_i32 ASM_X86_REG_ESP (s32 (num_locals * WORD_SIZE));;
  modify (set_num_locals num_locals).

Definition asm_x86_exit : M asm_x86_t unit :=
  num_locals ← gets num_locals;
  asm_x86_sub_r32_i32 ASM_X86_REG_ESP (s32 (s32 (- num_locals) * WORD_SIZE));;
  asm_x86_pop_r32 ASM_X86_REG_EDI;;
  asm_x86_pop_r32 ASM_X86_REG_ESI;;
  asm_x86_pop_r32 ASM_X86_REG_EBX;;
  asm_x86_pop_r32 ASM_X86_REG_EBP;;
  asm_x86_ret.

Definition asm_x86_arg_offset_from_esp (arg_num : Z) : M asm_x86_t Z :=
  num_locals ← gets num_locals;
  mret (s32 (u32 ((num_locals + 4 + 1 + arg_num) * WORD_SIZE))).

Definition asm_x86_mov_arg_to_r32 (src_arg_num dest_r32 : Z) : M asm_x86_t unit :=
  offset ← asm_x86_arg_offset_from_esp (u32 src_arg_num);
  asm_x86_mov_mem32_to_r32 ASM_X86_REG_ESP offset dest_r32.

Definition asm_x86_local_offset_from_esp (local_num : Z) : Z := s32 (local_num * WORD_SIZE).

Definition asm_x86_mov_local_to_r32 (src_local_num dest_r32 : Z) : M asm_x86_t unit :=
  asm_x86_mov_mem32_to_r32 ASM_X86_REG_ESP (asm_x86_local_offset_from_esp src_local_num)
    dest_r32.

Definition asm_x86_mov_r32_to_local (src_r32 dest_local_num : Z) : M asm_x86_t unit :=
  asm_x86_mov_r32_to_mem32 src_r32 ASM_X86_REG_ESP
    (asm_x86_local_offset_from_esp dest_local_num).

Definition asm_x86_mov_local_addr_to_r32 (local_num dest_r32 : Z) : M asm_x86_t unit :=
  let offset := asm_x86_local_offset_from_esp local_num in
  if offset =? 0 then
    asm_x86_mov_r32_r32 dest_r32 ASM_X86_REG_ESP
  else
    asm_x86_lea_disp_to_r32 ASM_X86_REG_ESP offset dest_r32.

Definition asm_x86_mov_reg_pcrel (dest_r32 label : Z) : M asm_x86_t unit :=
  asm_x86_write_byte_1 OPCODE_CALL_REL32;;
  asm_x86_write_word32 0;;
  dest ← get_label_dest label;
  code_offset ← gets (fun s => code_offset (base s));
  let rel := s32 (dest - code_offset) in
  asm_x86_pop_r32 dest_r32;;
  asm_x86_write_byte_2 OPCODE_ADD_I32_TO_RM32
    (MODRM_R32 0 .| MODRM_RM_REG .| MODRM_RM_R32 dest_r32);;
  asm_x86_write_word32 rel.

Definition asm_x86_call_ind (fun_id n_args temp_r32 : Z) : M asm_x86_t unit :=
  assert_ (n_args <=? 4) "n_args <= 4";;
  let align := u32 ((u32 (n_args + 3) .& u32 (Z.lnot 3)) - n_args) in
  (if align =? 0 then mret tt
   else asm_x86_sub_r32_i32 ASM_X86_REG_ESP (s32 (u32 (align * WORD_SIZE))));;
  (if 3 <? n_args then asm_x86_push_r32 ASM_X86_REG_ARG_4 else mret tt);;
  (if 2 <? n_args then asm_x86_push_r32 ASM_X86_REG_ARG_3 else mret tt);;
  (if 1 <? n_args then asm_x86_push_r32 ASM_X86_REG_ARG_2 else mret tt);;
  (if 0 <? n_args then asm_x86_push_r32 ASM_X86_REG_ARG_1 else mret tt);;
  asm_x86_mov_mem32_to_r32 ASM_X86_REG_FUN_TABLE (s32 (u32 (fun_id * WORD_SIZE))) temp_r32;;
  asm_x86_write_byte_2 OPCODE_CALL_RM32 (MODRM_R32 2 .| MODRM_RM_REG .| MODRM_RM_R32 temp_r32);;
  if 0 <? n_args then
    asm_x86_add_i32_to_r32 (s32 (u32 (u32 (n_args + align) * WORD_SIZE))) ASM_X86_REG_ESP
  else mret tt.

Definition asm_x86_jmp_label (label : Z) : M asm_x86_t unit :=
  let large_jump rel :=
    let rel := s32 (rel - 5) in
    asm_x86_write_byte_1 OPCODE_JMP_REL32;;
    asm_x86_write_word32 rel in
  dest ← get_label_dest label;
  code_offset ← gets (fun s => code_offset (base s));
  let rel := s32 (dest - code_offset) in
  if negb (dest =? u32 (-1)) && (rel <? 0) then
    let rel := s32 (rel - 2) in
    if SIGNED_FIT8 rel then asm_x86_write_byte_2 OPCODE_JMP_REL8 (rel .& 0xff)
    else
      let rel := s32 (rel + 2) in
      large_jump rel
  else large_jump rel.

Definition asm_x86_jcc_label (jcc_type label : Z) : M asm_x86_t unit :=
  let large_jump rel :=
    let rel := s32 (rel - 6) in
    asm_x86_write_byte_2 OPCODE_JCC_REL32_A (OPCODE_JCC_REL32_B .| jcc_type);;
    asm_x86_write_word32 rel in
  dest ← get_label_dest label;
  code_offset ← gets (fun s => code_offset (base s));
  let rel := s32 (dest - code_offset) in
  if negb (dest =? u32 (-1)) && (rel <? 0) then
    let rel := s32 (rel - 2) in
    if SIGNED_FIT8 rel then asm_x86_write_byte_2 (OPCODE_JCC_REL8 .| jcc_type) (rel .& 0xff)
    else
      let rel := s32 (rel + 2) in
      large_jump rel
  else large_jump rel.

(** ** The generic assembler API *)

Module GenericApi.

Definition ASM_WORD_SIZE : Z := 4.
Definition REG_RET : Z := ASM_X86_REG_EAX.
Definition REG_ARG_1 : Z := ASM_X86_REG_ARG_1.
Definition REG_ARG_2 : Z := ASM_X86_REG_ARG_2.
Definition REG_ARG_3 : Z := ASM_X86_REG_ARG_3.
Definition REG_ARG_4 : Z := ASM_X86_REG_ARG_4.
Definition REG_TEMP0 : Z := ASM_X86_REG_EAX.
Definition REG_TEMP1 : Z := ASM_X86_REG_ECX.
Definition REG_TEMP2 : Z := ASM_X86_REG_EDX.
Definition REG_LOCAL_1 : Z := ASM_X86_REG_EBX.
Definition REG_LOCAL_2 : Z := ASM_X86_REG_ESI.
Definition REG_LOCAL_3 : Z := ASM_X86_REG_EDI.
Definition REG_LOCAL_NUM : Z := 3.
Definition REG_FUN_TABLE : Z := ASM_X86_REG_FUN_TABLE.
Definition ASM_END_PASS : M asm_x86_t unit := asm_x86_end_pass.
Definition ASM_ENTRY (num_locals : Z) : M asm_x86_t unit := asm_x86_entry num_locals.
Definition ASM_EXIT : M asm_x86_t unit := asm_x86_exit.
Definition ASM_JUMP (label : Z) : M asm_x86_t unit := asm_x86_jmp_label label.
Definition ASM_JUMP_IF_REG_ZERO (reg label : Z) (bool_test : bool) : M asm_x86_t unit :=
  (if bool_test then asm_x86_test_r8_with_r8 reg reg else asm_x86_test_r32_with_r32 reg reg);;
  asm_x86_jcc_label ASM_X86_CC_JZ label.
Definition ASM_JUMP_IF_REG_NONZERO (reg label : Z) (bool_test : bool) : M asm_x86_t unit :=
  (if bool_test then asm_x86_test_r8_with_r8 reg reg else asm_x86_test_r32_with_r32 reg reg);;
  asm_x86_jcc_label ASM_X86_CC_JNZ label.
Definition ASM_JUMP_IF_REG_EQ (reg1 reg2 label : Z) : M asm_x86_t unit :=
  asm_x86_cmp_r32_with_r32 reg1 reg2;;
  asm_x86_jcc_label ASM_X86_CC_JE label.
Definition ASM_JUMP_REG (reg : Z) : M asm_x86_t unit := asm_x86_jmp_reg reg.
(** [n_args] is the entry of the emitter's table [mp_f_n_args] for [idx]. *)
Definition ASM_CALL_IND (idx n_args : Z) : M asm_x86_t unit :=
  asm_x86_call_ind idx n_args ASM_X86_REG_EAX.
Definition ASM_MOV_LOCAL_REG (local_num reg_src : Z) : M asm_x86_t unit :=
  asm_x86_mov_r32_to_local reg_src local_num.
Definition ASM_MOV_REG_IMM (reg_dest imm : Z) : M asm_x86_t unit :=
  asm_x86_mov_i32_to_r32 imm reg_dest;; mret tt.
Definition ASM_MOV_REG_LOCAL (reg_dest local_num : Z) : M asm_x86_t unit :=
  asm_x86_mov_local_to_r32 local_num reg_dest.
Definition ASM_MOV_REG_REG (reg_dest reg_src : Z) : M asm_x86_t unit :=
  asm_x86_mov_r32_r32 reg_dest reg_src.
Definition ASM_MOV_REG_LOCAL_ADDR (reg_dest local_num : Z) : M asm_x86_t unit :=
  asm_x86_mov_local_addr_to_r32 local_num reg_dest.
Definition ASM_MOV_REG_PCREL (reg_dest label : Z) : M asm_x86_t unit :=
  asm_x86_mov_reg_pcrel reg_dest label.
Definition ASM_NOT_REG (reg : Z) : M asm_x86_t unit := asm_x86_not_r32 reg.
Definition ASM_NEG_REG (reg : Z) : M asm_x86_t unit := asm_x86_neg_r32 reg.
Definition ASM_LSL_REG (reg : Z) : M asm_x86_t unit := asm_x86_shl_r32_cl reg.
Definition ASM_LSR_REG (reg : Z) : M asm_x86_t unit := asm_x86_shr_r32_cl reg.
Definition ASM_ASR_REG (reg : Z) : M asm_x86_t unit := asm_x86_sar_r32_cl reg.
Definition ASM_OR_REG_REG (reg_dest reg_src : Z) : M asm_x86_t unit :=
  asm_x86_or_r32_r32 reg_dest reg_src.
Definition ASM_XOR_REG_REG (reg_dest reg_src : Z) : M asm_x86_t unit :=
  asm_x86_xor_r32_r32 reg_dest reg_src.
Definition ASM_AND_REG_REG (reg_dest reg_src : Z) : M asm_x86_t unit :=
  asm_x86_and_r32_r32 reg_dest reg_src.
Definition ASM_ADD_REG_REG (reg_dest reg_src : Z) : M asm_x86_t unit :=
  asm_x86_add_r32_r32 reg_dest reg_src.
Definition ASM_SUB_REG_REG (reg_dest reg_src : Z) : M asm_x86_t unit :=
  asm_x86_sub_r32_r32 reg_dest reg_src.
Definition ASM_MUL_REG_REG (reg_dest reg_src : Z) : M asm_x86_t unit :=
  asm_x86_mul_r32_r32 reg_dest reg_src.
Definition ASM_LOAD32_REG_REG_OFFSET (reg_dest reg_base dword_offset : Z) : M asm_x86_t unit :=
  asm_x86_mov_mem32_to_r32 reg_base (s32 (4 * dword_offset)) reg_dest.
Definition ASM_LOAD_REG_REG_OFFSET (reg_dest reg_base dword_offset : Z) : M asm_x86_t unit :=
  ASM_LOAD32_REG_REG_OFFSET reg_dest reg_base dword_offset.
Definition ASM_LOAD8_REG_REG_OFFSET (reg_dest reg_base byte_offset : Z) : M asm_x86_t unit :=
  asm_x86_mov_mem8_to_r32zx reg_base byte_offset reg_dest.
Definition ASM_LOAD8_REG_REG (reg_dest reg_base : Z) : M asm_x86_t unit :=
  ASM_LOAD8_REG_REG_OFFSET reg_dest reg_base 0.
Definition ASM_LOAD16_REG_REG_OFFSET (reg_dest reg_base word_offset : Z) : M asm_x86_t unit :=
  asm_x86_mov_mem16_to_r32zx reg_base (s32 (2 * word_offset)) reg_dest.
Definition ASM_LOAD16_REG_REG (reg_dest reg_base : Z) : M asm_x86_t unit :=
  ASM_LOAD16_REG_REG_OFFSET reg_dest reg_base 0.
Definition ASM_LOAD32_REG_REG (reg_dest reg_base : Z) : M asm_x86_t unit :=
  ASM_LOAD32_REG_REG_OFFSET reg_dest reg_base 0.
Definition ASM_STORE32_REG_REG_OFFSET (reg_src reg_base dword_offset : Z) : M asm_x86_t unit :=
  asm_x86_mov_r32_to_mem32 reg_src reg_base (s32 (4 * dword_offset)).
Definition ASM_STORE_REG_REG_OFFSET (reg_src reg_base dword_offset : Z) : M asm_x86_t unit :=
  ASM_STORE32_REG_REG_OFFSET reg_src reg_base dword_offset.
Definition ASM_STORE8_REG_REG_OFFSET (reg_src reg_base byte_offset : Z) : M asm_x86_t unit :=
  asm_x86_mov_r8_to_mem8 reg_src reg_base byte_offset.
Definition ASM_STORE8_REG_REG (reg_src reg_base : Z) : M asm_x86_t unit :=
  ASM_STORE8_REG_REG_OFFSET reg_src reg_base 0.
Definition ASM_STORE16_REG_REG_OFFSET (reg_src reg_base word_offset : Z) : M asm_x86_t unit :=
  asm_x86_mov_r16_to_mem16 reg_src reg_base (s32 (2 * word_offset)).
Definition ASM_STORE16_REG_REG (reg_src reg_base : Z) : M asm_x86_t unit :=
  ASM_STORE16_REG_REG_OFFSET reg_src reg_base 0.
Definition ASM_STORE32_REG_REG (reg_src reg_base : Z) : M asm_x86_t unit :=
  ASM_STORE32_REG_REG_OFFSET reg_src reg_base 0.
Definition ASM_CLR_REG (reg_dest : Z) : M asm_x86_t unit :=
  asm_x86_xor_r32_r32 reg_dest reg_dest.
End GenericApi.
