(* ===== verification/AsmX86Pass.v ===== *)
(** * AsmX86Pass: the passes over x86 programs agree

    Every operation of the x86 back end writes as many bytes in the emit
    pass as in the compute pass before it.  Backward jumps pick their size by
    the distance, which both passes know; forward jumps are always long. *)

From S2P Require Import Prelude AsmBase TwoPass AsmBaseSpec AsmX86.

Set Default Goal Selector "!".

#[local] Existing Instance SizeT_32.
Import AsmX86.GenericApi.

(** Displacements are 32 bits: code up to 2 GB. *)
Definition x86_limit : Z := 2 ^ 31 - 1.
Lemma x86_limit_ok : 0 < x86_limit < 2 ^ size_bits - 1.
Proof. done. Qed.
#[export] Hint Resolve x86_limit_ok : steady.

(** ** Writing bytes *)

Section Bytes.
Context (agree : asm_x86_t -> asm_x86_t -> Prop).
Context (agree_base : forall b b' s s', agree s s' -> agree (with_base b s) (with_base b' s')).
Abbreviation x86_steady := (steady x86_limit agree).

Ltac put := apply steady_put_array; [apply x86_limit_ok|done|bytes_tac|done].

Lemma x86_steady_byte_1 b1 : x86_steady 1 (asm_x86_write_byte_1 b1).
Proof using agree_base. put. Qed.
Lemma x86_steady_byte_2 b1 b2 : x86_steady 2 (asm_x86_write_byte_2 b1 b2).
Proof using agree_base. put. Qed.
Lemma x86_steady_byte_3 b1 b2 b3 : x86_steady 3 (asm_x86_write_byte_3 b1 b2 b3).
Proof using agree_base. put. Qed.
Lemma x86_paired_word32 w w' : paired x86_limit agree 4 (asm_x86_write_word32 w) (asm_x86_write_word32 w').
Proof using agree_base. apply paired_put_array; [apply x86_limit_ok|done|bytes_tac..|done|done]. Qed.
Lemma x86_steady_word32 w : x86_steady 4 (asm_x86_write_word32 w).
Proof using agree_base. apply x86_paired_word32. Qed.
Hint Resolve x86_steady_byte_1 x86_steady_byte_2 x86_steady_byte_3 x86_steady_word32 : steady.

Ltac x86_op := steady_op_tac ltac:(done).

Lemma x86_steady_r32_disp r32 disp_r32 disp_offset :
  x86_steady 6 (asm_x86_write_r32_disp r32 disp_r32 disp_offset).
Proof using agree_base. unfold asm_x86_write_r32_disp. cbv zeta. x86_op. Qed.
Lemma x86_steady_generic d s op : x86_steady 2 (asm_x86_generic_r32_r32 d s op).
Proof using agree_base. apply x86_steady_byte_2. Qed.
Hint Resolve x86_steady_r32_disp x86_steady_generic : steady.
End Bytes.

(** ** Instructions *)

Section Instructions.
Context (agree : asm_x86_t -> asm_x86_t -> Prop).
Context (agree_base : forall b b' s s', agree s s' -> agree (with_base b s) (with_base b' s')).
Abbreviation x86_steady := (steady x86_limit agree).

Hint Resolve x86_steady_byte_1 x86_steady_byte_2 x86_steady_byte_3 x86_steady_word32
  x86_steady_r32_disp x86_steady_generic : steady.
Ltac x86_op := steady_op_tac ltac:(done).

Lemma x86_steady_push r : x86_steady 1 (asm_x86_push_r32 r).
Proof using agree_base. unfold asm_x86_push_r32. x86_op. Qed.
Lemma x86_steady_pop r : x86_steady 1 (asm_x86_pop_r32 r).
Proof using agree_base. unfold asm_x86_pop_r32. x86_op. Qed.
Hint Resolve x86_steady_push x86_steady_pop : steady.
Lemma x86_steady_r8_to_mem8 s d disp : x86_steady 7 (asm_x86_mov_r8_to_mem8 s d disp).
Proof using agree_base. unfold asm_x86_mov_r8_to_mem8. x86_op. Qed.
Lemma x86_steady_r16_to_mem16 s d disp : x86_steady 8 (asm_x86_mov_r16_to_mem16 s d disp).
Proof using agree_base. unfold asm_x86_mov_r16_to_mem16. x86_op. Qed.
Lemma x86_steady_r32_to_mem32 s d disp : x86_steady 7 (asm_x86_mov_r32_to_mem32 s d disp).
Proof using agree_base. unfold asm_x86_mov_r32_to_mem32. x86_op. Qed.
Lemma x86_steady_mem8_to_r32 s disp d : x86_steady 8 (asm_x86_mov_mem8_to_r32zx s disp d).
Proof using agree_base. unfold asm_x86_mov_mem8_to_r32zx. x86_op. Qed.
Lemma x86_steady_mem16_to_r32 s disp d : x86_steady 8 (asm_x86_mov_mem16_to_r32zx s disp d).
Proof using agree_base. unfold asm_x86_mov_mem16_to_r32zx. x86_op. Qed.
Lemma x86_steady_mem32_to_r32 s disp d : x86_steady 7 (asm_x86_mov_mem32_to_r32 s disp d).
Proof using agree_base. unfold asm_x86_mov_mem32_to_r32. x86_op. Qed.
Lemma x86_steady_lea s disp d : x86_steady 7 (asm_x86_lea_disp_to_r32 s disp d).
Proof using agree_base. unfold asm_x86_lea_disp_to_r32. x86_op. Qed.
Lemma x86_steady_mov_i32 i d : x86_steady 5 (asm_x86_mov_i32_to_r32 i d).
Proof using agree_base.
  unfold asm_x86_mov_i32_to_r32. eapply steady_then; [by apply x86_steady_byte_1|lia|intros _].
  apply steady_code_pos; [|done]. intros o _. x86_op.
Qed.
Lemma x86_steady_add_i32 i d : x86_steady 6 (asm_x86_add_i32_to_r32 i d).
Proof using agree_base. unfold asm_x86_add_i32_to_r32. x86_op. Qed.
Lemma x86_steady_sub_i32 d i : x86_steady 6 (asm_x86_sub_r32_i32 d i).
Proof using agree_base. unfold asm_x86_sub_r32_i32. x86_op. Qed.
Lemma x86_steady_mul d s : x86_steady 3 (asm_x86_mul_r32_r32 d s).
Proof using agree_base. unfold asm_x86_mul_r32_r32. x86_op. Qed.
Lemma x86_steady_test_r8 a b : x86_steady 2 (asm_x86_test_r8_with_r8 a b).
Proof using agree_base. unfold asm_x86_test_r8_with_r8. x86_op. Qed.
Lemma x86_steady_setcc cc d : x86_steady 3 (asm_x86_setcc_r8 cc d).
Proof using agree_base. unfold asm_x86_setcc_r8. x86_op. Qed.
Lemma x86_steady_jmp_reg r : x86_steady 2 (asm_x86_jmp_reg r).
Proof using agree_base. unfold asm_x86_jmp_reg. x86_op. Qed.
Lemma x86_steady_local_addr n d : x86_steady 7 (asm_x86_mov_local_addr_to_r32 n d).
Proof using agree_base.
  unfold asm_x86_mov_local_addr_to_r32, asm_x86_mov_r32_r32. cbv zeta.
  destruct (_ =? 0); [x86_op|apply x86_steady_lea].
Qed.
Hint Resolve x86_steady_mem32_to_r32 x86_steady_add_i32 x86_steady_sub_i32 : steady.
Lemma x86_steady_call_ind i n t : x86_steady 25 (asm_x86_call_ind i n t).
Proof using agree_base. unfold asm_x86_call_ind. cbv zeta. x86_op. Qed.
End Instructions.
#[export] Hint Resolve x86_steady_byte_1 x86_steady_byte_2 x86_steady_byte_3 x86_paired_word32 x86_steady_word32
  x86_steady_generic x86_steady_push x86_steady_pop x86_steady_r8_to_mem8 x86_steady_r16_to_mem16 x86_steady_r32_to_mem32
  x86_steady_mem8_to_r32 x86_steady_mem16_to_r32 x86_steady_mem32_to_r32 x86_steady_mov_i32 x86_steady_add_i32
  x86_steady_mul x86_steady_sub_i32 x86_steady_test_r8 x86_steady_setcc x86_steady_jmp_reg x86_steady_local_addr
  x86_steady_call_ind : steady.

(** ** Labels, and the number of locals *)

Definition x86_agree (s s' : asm_x86_t) : Prop := num_locals s' = num_locals s.
Lemma x86_agree_base b b' s s' : x86_agree s s' -> x86_agree (with_base b s) (with_base b' s').
Proof. done. Qed.
#[export] Hint Resolve x86_agree_base : steady.

Abbreviation x86_steady := (steady x86_limit x86_agree).
Ltac x86_fields := intros ? ? E; unfold x86_agree in E; rewrite ?E; done.
Ltac x86_op := steady_op_tac x86_fields.

Lemma x86_steady_exit : x86_steady 11 asm_x86_exit.
Proof. unfold asm_x86_exit, asm_x86_ret. x86_op. Qed.

(** A backward displacement is negative, a forward one is not. *)
Lemma x86_ahead_not_short y o : 0 <= o -> o <= y <= x86_limit -> negb (y =? u32 (-1)) && (s32 (y - o) <? 0) = false.
Proof.
  unfold x86_limit. intros Ho Hy. rewrite (sw_small 32 eq_refl) by (simpl; lia).
  apply andb_false_intro2. by apply Z.ltb_ge; lia.
Qed.

Lemma x86_steady_jmp_label l : x86_steady 5 (asm_x86_jmp_label l).
Proof.
  unfold asm_x86_jmp_label, get_label_dest. cbv zeta.
  label_tac; [intros d o; x86_op|].
  intros o y Ho Hy. rewrite (x86_ahead_not_short y o) by done. rewrite Z.eqb_refl. cbn [negb andb].
  paired_op_tac x86_fields.
Qed.
Lemma x86_steady_jcc_label cc l : x86_steady 6 (asm_x86_jcc_label cc l).
Proof.
  unfold asm_x86_jcc_label, get_label_dest. cbv zeta.
  label_tac; [intros d o; x86_op|].
  intros o y Ho Hy. rewrite (x86_ahead_not_short y o) by done. rewrite Z.eqb_refl. cbn [negb andb].
  paired_op_tac x86_fields.
Qed.
Lemma x86_steady_mov_reg_pcrel d l : x86_steady 12 (asm_x86_mov_reg_pcrel d l).
Proof.
  unfold asm_x86_mov_reg_pcrel, get_label_dest. cbv zeta.
  do 2 (eapply steady_then; [solve [eauto with steady nocore]|lia|intros _]).
  label_tac; [intros d' o; x86_op|].
  intros o y Ho Hy. paired_op_tac x86_fields.
Qed.
Lemma x86_steady_mov_arg n d : x86_steady 7 (asm_x86_mov_arg_to_r32 n d).
Proof.
  unfold asm_x86_mov_arg_to_r32, asm_x86_arg_offset_from_esp.
  eapply (steady_then _ _ 0); [x86_op|lia|intros off; x86_op].
Qed.
#[export] Hint Resolve x86_steady_exit x86_steady_jmp_label x86_steady_jcc_label x86_steady_mov_reg_pcrel x86_steady_mov_arg : steady.

(** ** Programs *)

Inductive x86_op :=
| Shared (op : base_op)
| EndPass | Exit | Jump (label : Z) | JumpIfRegZero (reg label : Z) (bool_test : bool)
| JumpIfRegNonzero (reg label : Z) (bool_test : bool) | JumpIfRegEq (reg1 reg2 label : Z)
| JumpReg (reg : Z) | CallInd (idx n_args : Z) | MovLocalReg (local_num reg_src : Z)
| MovRegImm (reg_dest imm : Z) | MovRegLocal (reg_dest local_num : Z)
| MovRegReg (reg_dest reg_src : Z) | MovRegLocalAddr (reg_dest local_num : Z)
| MovRegPcrel (reg_dest label : Z) | NotReg (reg : Z) | NegReg (reg : Z) | LslReg (reg : Z)
| LsrReg (reg : Z) | AsrReg (reg : Z) | OrRegReg (reg_dest reg_src : Z)
| XorRegReg (reg_dest reg_src : Z) | AndRegReg (reg_dest reg_src : Z)
| AddRegReg (reg_dest reg_src : Z) | SubRegReg (reg_dest reg_src : Z)
| MulRegReg (reg_dest reg_src : Z) | Load32RegRegOffset (reg_dest reg_base dword_offset : Z)
| LoadRegRegOffset (reg_dest reg_base dword_offset : Z)
| Load8RegRegOffset (reg_dest reg_base byte_offset : Z) | Load8RegReg (reg_dest reg_base : Z)
| Load16RegRegOffset (reg_dest reg_base word_offset : Z) | Load16RegReg (reg_dest reg_base : Z)
| Load32RegReg (reg_dest reg_base : Z)
| Store32RegRegOffset (reg_src reg_base dword_offset : Z)
| StoreRegRegOffset (reg_src reg_base dword_offset : Z)
| Store8RegRegOffset (reg_src reg_base byte_offset : Z) | Store8RegReg (reg_src reg_base : Z)
| Store16RegRegOffset (reg_src reg_base word_offset : Z) | Store16RegReg (reg_src reg_base : Z)
| Store32RegReg (reg_src reg_base : Z) | ClrReg (reg_dest : Z) | PushR32 (r32 : Z)
| PopR32 (r32 : Z) | SetccR8 (cc r8 : Z) | JccLabel (cc label : Z)
| CmpR32WithR32 (r32_a r32_b : Z) | TestR8WithR8 (r32_a r32_b : Z)
| MovArgToR32 (arg_num r32 : Z).

Definition x86_exec (op : x86_op) : M asm_x86_t unit :=
  match op with
  | Shared op => on_base (base_exec op)
  | EndPass => ASM_END_PASS
  | Exit => ASM_EXIT
  | Jump label => ASM_JUMP label
  | JumpIfRegZero reg label bool_test => ASM_JUMP_IF_REG_ZERO reg label bool_test
  | JumpIfRegNonzero reg label bool_test => ASM_JUMP_IF_REG_NONZERO reg label bool_test
  | JumpIfRegEq reg1 reg2 label => ASM_JUMP_IF_REG_EQ reg1 reg2 label
  | JumpReg reg => ASM_JUMP_REG reg
  | CallInd idx n_args => ASM_CALL_IND idx n_args
  | MovLocalReg local_num reg_src => ASM_MOV_LOCAL_REG local_num reg_src
  | MovRegImm reg_dest imm => ASM_MOV_REG_IMM reg_dest imm
  | MovRegLocal reg_dest local_num => ASM_MOV_REG_LOCAL reg_dest local_num
  | MovRegReg reg_dest reg_src => ASM_MOV_REG_REG reg_dest reg_src
  | MovRegLocalAddr reg_dest local_num => ASM_MOV_REG_LOCAL_ADDR reg_dest local_num
  | MovRegPcrel reg_dest label => ASM_MOV_REG_PCREL reg_dest label
  | NotReg reg => ASM_NOT_REG reg
  | NegReg reg => ASM_NEG_REG reg
  | LslReg reg => ASM_LSL_REG reg
  | LsrReg reg => ASM_LSR_REG reg
  | AsrReg reg => ASM_ASR_REG reg
  | OrRegReg reg_dest reg_src => ASM_OR_REG_REG reg_dest reg_src
  | XorRegReg reg_dest reg_src => ASM_XOR_REG_REG reg_dest reg_src
  | AndRegReg reg_dest reg_src => ASM_AND_REG_REG reg_dest reg_src
  | AddRegReg reg_dest reg_src => ASM_ADD_REG_REG reg_dest reg_src
  | SubRegReg reg_dest reg_src => ASM_SUB_REG_REG reg_dest reg_src
  | MulRegReg reg_dest reg_src => ASM_MUL_REG_REG reg_dest reg_src
  | Load32RegRegOffset reg_dest reg_base dword_offset => ASM_LOAD32_REG_REG_OFFSET reg_dest reg_base dword_offset
  | LoadRegRegOffset reg_dest reg_base dword_offset => ASM_LOAD_REG_REG_OFFSET reg_dest reg_base dword_offset
  | Load8RegRegOffset reg_dest reg_base byte_offset => ASM_LOAD8_REG_REG_OFFSET reg_dest reg_base byte_offset
  | Load8RegReg reg_dest reg_base => ASM_LOAD8_REG_REG reg_dest reg_base
  | Load16RegRegOffset reg_dest reg_base word_offset => ASM_LOAD16_REG_REG_OFFSET reg_dest reg_base word_offset
  | Load16RegReg reg_dest reg_base => ASM_LOAD16_REG_REG reg_dest reg_base
  | Load32RegReg reg_dest reg_base => ASM_LOAD32_REG_REG reg_dest reg_base
  | Store32RegRegOffset reg_src reg_base dword_offset => ASM_STORE32_REG_REG_OFFSET reg_src reg_base dword_offset
  | StoreRegRegOffset reg_src reg_base dword_offset => ASM_STORE_REG_REG_OFFSET reg_src reg_base dword_offset
  | Store8RegRegOffset reg_src reg_base byte_offset => ASM_STORE8_REG_REG_OFFSET reg_src reg_base byte_offset
  | Store8RegReg reg_src reg_base => ASM_STORE8_REG_REG reg_src reg_base
  | Store16RegRegOffset reg_src reg_base word_offset => ASM_STORE16_REG_REG_OFFSET reg_src reg_base word_offset
  | Store16RegReg reg_src reg_base => ASM_STORE16_REG_REG reg_src reg_base
  | Store32RegReg reg_src reg_base => ASM_STORE32_REG_REG reg_src reg_base
  | ClrReg reg_dest => ASM_CLR_REG reg_dest
  | PushR32 r32 => asm_x86_push_r32 r32
  | PopR32 r32 => asm_x86_pop_r32 r32
  | SetccR8 cc r8 => asm_x86_setcc_r8 cc r8
  | JccLabel cc label => asm_x86_jcc_label cc label
  | CmpR32WithR32 r32_a r32_b => asm_x86_cmp_r32_with_r32 r32_a r32_b
  | TestR8WithR8 r32_a r32_b => asm_x86_test_r8_with_r8 r32_a r32_b
  | MovArgToR32 arg_num r32 => asm_x86_mov_arg_to_r32 arg_num r32
  end.

(** At most so many bytes. *)
Definition x86_size (op : x86_op) : Z :=
  match op with
  | Shared op => base_size op
  | EndPass => 0
  | PushR32 _ | PopR32 _ => 1
  | Exit => 11
  | MovRegPcrel _ _ => 12
  | JumpReg _ | MovRegReg _ _ | NotReg _ | NegReg _ | LslReg _ | LsrReg _ | AsrReg _
  | OrRegReg _ _ | XorRegReg _ _ | AndRegReg _ _ | AddRegReg _ _ | SubRegReg _ _ | ClrReg _
  | CmpR32WithR32 _ _ | TestR8WithR8 _ _ => 2
  | CallInd _ _ => 25
  | MulRegReg _ _ | SetccR8 _ _ => 3
  | Jump _ | MovRegImm _ _ => 5
  | JccLabel _ _ => 6
  | MovLocalReg _ _ | MovRegLocal _ _ | MovRegLocalAddr _ _ | Load32RegRegOffset _ _ _
  | LoadRegRegOffset _ _ _ | Load32RegReg _ _ | Store32RegRegOffset _ _ _
  | StoreRegRegOffset _ _ _ | Store8RegRegOffset _ _ _ | Store8RegReg _ _ | Store32RegReg _ _
  | MovArgToR32 _ _ => 7
  | JumpIfRegZero _ _ _ | JumpIfRegNonzero _ _ _ | JumpIfRegEq _ _ _ | Load8RegRegOffset _ _ _
  | Load8RegReg _ _ | Load16RegRegOffset _ _ _ | Load16RegReg _ _ | Store16RegRegOffset _ _ _
  | Store16RegReg _ _ => 8
  end.

(** The functions that only call another one. *)
Create HintDb x86_calls.
#[export] Hint Unfold
  ASM_END_PASS ASM_ENTRY ASM_EXIT ASM_JUMP ASM_JUMP_IF_REG_ZERO ASM_JUMP_IF_REG_NONZERO
  ASM_JUMP_IF_REG_EQ ASM_JUMP_REG ASM_CALL_IND ASM_MOV_LOCAL_REG ASM_MOV_REG_IMM
  ASM_MOV_REG_LOCAL ASM_MOV_REG_REG ASM_MOV_REG_LOCAL_ADDR ASM_MOV_REG_PCREL ASM_NOT_REG
  ASM_NEG_REG ASM_LSL_REG ASM_LSR_REG ASM_ASR_REG ASM_OR_REG_REG ASM_XOR_REG_REG
  ASM_AND_REG_REG ASM_ADD_REG_REG ASM_SUB_REG_REG ASM_MUL_REG_REG ASM_LOAD_REG_REG_OFFSET
  ASM_LOAD8_REG_REG_OFFSET ASM_LOAD8_REG_REG ASM_LOAD16_REG_REG_OFFSET ASM_LOAD16_REG_REG
  ASM_LOAD32_REG_REG_OFFSET ASM_LOAD32_REG_REG ASM_STORE_REG_REG_OFFSET
  ASM_STORE8_REG_REG_OFFSET ASM_STORE8_REG_REG ASM_STORE16_REG_REG_OFFSET ASM_STORE16_REG_REG
  ASM_STORE32_REG_REG_OFFSET ASM_STORE32_REG_REG ASM_CLR_REG asm_x86_mov_r32_r32
  asm_x86_not_r32 asm_x86_neg_r32 asm_x86_shl_r32_cl asm_x86_shr_r32_cl asm_x86_sar_r32_cl
  asm_x86_or_r32_r32 asm_x86_xor_r32_r32 asm_x86_and_r32_r32 asm_x86_add_r32_r32
  asm_x86_sub_r32_r32 asm_x86_cmp_r32_with_r32 asm_x86_test_r32_with_r32
  asm_x86_mov_local_to_r32 asm_x86_mov_r32_to_local asm_x86_end_pass : x86_calls.

Definition x86_op_ok (op : x86_op) : Prop :=
  match op with Shared op => base_op_ok op | _ => True end.

Lemma x86_steady_op op : x86_op_ok op -> steady_op x86_limit x86_agree x86_exec x86_size op.
Proof.
  intros Hok. destruct op; [by apply steady_shared; [apply x86_limit_ok|apply x86_agree_base|]|..];
    (split; [done|]); cbn [x86_exec x86_size]; autounfold with x86_calls; x86_op.
Qed.

(** A function: its entry, then its operations, the exits among them. *)
Definition x86_function (locals : Z) (ops : list x86_op) : M asm_x86_t unit :=
  ASM_ENTRY locals;; seq_ops x86_exec ops.

(** The entry sets the field the passes agree on. *)
Definition x86_start (s s' : asm_x86_t) : Prop := True.
Lemma x86_start_base b b' s s' : x86_start s s' -> x86_start (with_base b s) (with_base b' s').
Proof. done. Qed.
#[export] Hint Resolve x86_start_base : steady.

Lemma x86_enters_entry n : enters x86_limit x86_start x86_agree 10 (asm_x86_entry n).
Proof.
  unfold asm_x86_entry. cbv zeta.
  do 6 enters_step.
  apply enters_modify; [by apply off_table_none|done].
Qed.

(** Functions within the limits: up to 2 GB of code. *)
Definition x86_function_ok (ops : list x86_op) : Prop :=
  Forall x86_op_ok ops /\ 10 + total x86_size ops <= x86_limit.

(** C10: the x86 passes agree.  A function that a compute pass measured is
    emitted by the pass that follows without a failing assertion, whatever
    operations of the generic API it uses, with jumps and data in any order;
    the code is as long as measured, fits the region allocated for it, and
    every label is at the offset the compute pass recorded. *)
Theorem x86_passes_agree `{!PlatAllocExec} locals ops s0 s1 :
  x86_function_ok ops -> base_wf (base s0) ->
  run_pass MP_ASM_PASS_COMPUTE (x86_function locals ops) s0 = Ok (tt, s1) ->
  exists s2, run_pass MP_ASM_PASS_EMIT (x86_function locals ops) s1 = Ok (tt, s2)
    /\ code_offset (base s2) = code_offset (base s1)
    /\ label_offsets (base s2) = label_offsets (base s1)
    /\ num_locals s2 = num_locals s1 /\ code_offset (base s2) <= code_size (base s2).
Proof.
  intros [Hops Hsz] Hwf Hrun.
  destruct (program_agrees x86_limit x86_agree x86_exec x86_size x86_start 10
    (asm_x86_entry locals) ops s0 s1 s1) as (s2 & E2 & Ho & Hl & Ha & Hcs & _); try done.
  - apply x86_enters_entry.
  - apply x86_enters_entry.
  - eapply Forall_impl; [exact Hops|]. apply x86_steady_op.
  - by exists s2.
Qed.

(** A loop with a forward and a backward jump, and a data word after it. *)
Definition x86_example : list x86_op :=
  [Jump 1; Shared (Label 0); MovRegImm REG_ARG_1 0x12345678; CallInd 3 2; Shared (Label 1);
   JumpIfRegNonzero REG_RET 0 true; MovRegPcrel REG_RET 2; Exit; Shared (Align 2); Shared (Label 2);
   Shared (Data 4 42)].

Lemma x86_passes_agree_witness : exists s1 s2,
  run_pass (H0 := example_alloc_32) MP_ASM_PASS_EMIT (x86_function 2 x86_example) s1 = Ok (tt, s2)
  /\ code_offset (base s2) = 60 /\ num_locals s2 = 3.
Proof.
  destruct (x86_passes_agree (H := example_alloc_32) 2 x86_example (mk_asm_x86 (fresh 3) 0)
    (mk_asm_x86 (mk_asm_base MP_ASM_PASS_COMPUTE false 60 0 0 [] 3 [12; 30; 56]) 3)) as (s2 & E & Ho & _ & Hn & _).
  - split; [repeat (apply List.Forall_cons; [simpl; first [done|lia]|]); apply List.Forall_nil|by vm_compute].
  - apply fresh_wf.
  - vm_compute. reflexivity.
  - eexists _, s2. split; [exact E|]. split; [exact Ho|exact Hn].
Defined.
