(* ===== verification/AsmX86Instr.v ===== *)
(** * AsmX86Instr: the instructions of asmx86.c

    Every function of asmx86.c that stands for one instruction writes that
    instruction: its code performs the instruction's effect in 32-bit mode. *)

From S2P Require Import Prelude AsmBase TwoPass Machine Emission X86Isa X86Encode X86Effect AsmX86.

Set Default Goal Selector "!".

#[local] Existing Instance SizeT_32.
#[local] Hint Extern 0 Isa => exact X86_32 : typeclass_instances.

(** The eight registers, and those with a byte register of their own. *)
Definition reg32 (r : Z) : Prop := 0 <= r < 8.
Abbreviation effect := (effect false).

(** ** Writing *)

Lemma x86_modrm md x y : reg32 x -> reg32 y ->
  u8 (MODRM_R32 x .| md .| MODRM_RM_R32 y) = modrm_byte md x y.
Proof. intros Hx Hy. unfold modrm_byte. by rewrite !low3_small. Qed.

Section Writing.
Implicit Types (s : asm_x86_t).

Lemma x86_emits_byte_1 s b1 : emits s (asm_x86_write_byte_1 b1) [u8 b1].
Proof. apply emits_put_array. bytes_tac. Qed.
Lemma x86_emits_byte_2 s b1 b2 : emits s (asm_x86_write_byte_2 b1 b2) [u8 b1; u8 b2].
Proof. apply emits_put_array. bytes_tac. Qed.
Lemma x86_emits_byte_3 s b1 b2 b3 : emits s (asm_x86_write_byte_3 b1 b2 b3) [u8 b1; u8 b2; u8 b3].
Proof. apply emits_put_array. bytes_tac. Qed.
Lemma x86_emits_word32 s w : emits s (asm_x86_write_word32 w) (le_bytes 4 w).
Proof.
  replace (le_bytes 4 w) with [IMM32_L0 w; IMM32_L1 w; IMM32_L2 w; IMM32_L3 w];
    [apply emits_put_array; bytes_tac|].
  simpl. unfold IMM32_L0, IMM32_L1, IMM32_L2, IMM32_L3. repeat f_equal; bitsolve.
Qed.

Lemma x86_emits_r32_disp s x y d : reg32 x -> reg32 y ->
  emits s (asm_x86_write_r32_disp x y d) (disp_bytes x y d).
Proof.
  intros Hx Hy. unfold asm_x86_write_r32_disp, disp_bytes. cbv zeta.
  rewrite <- x86_modrm by done.
  replace (if (d =? 0) && negb (y =? ASM_X86_REG_EBP) then MODRM_RM_DISP0
    else if SIGNED_FIT8 d then MODRM_RM_DISP8 else MODRM_RM_DISP32) with (disp_mode y d)
    by (unfold disp_mode; by rewrite low3_small).
  rewrite (low3_small y) by done.
  apply (emits_seq _ _ _ [_]); [apply x86_emits_byte_1|]. apply emits_seq.
  - apply emits_if; intros _; [apply x86_emits_byte_1|apply emits_ret].
  - apply emits_if; intros _; [|apply emits_if; intros _; [apply x86_emits_word32|apply emits_ret]].
    replace (u8 d) with (u8 (IMM32_L0 d)); [apply x86_emits_byte_1|]. unfold IMM32_L0. bitsolve.
Qed.
End Writing.

(** ** One instruction *)

Section Forms.
Context (s : asm_x86_t).

(** An opcode [pre], a ModRM byte with two registers, and what follows. *)
Lemma x86_rr_assembles op pre x y i (k : Z * place -> parser x86_instr) : reg32 x -> reg32 y ->
  emits s op (pre ++ [modrm_byte 0xc0 x y]) -> match pre with b :: _ => b <> 0x66 | [] => False end ->
  (length pre <= 2)%nat ->
  (forall rest, decode_op plain (pre ++ rest) = (modrm plain ≫= k) rest) -> k (x, Reg y) = mret i ->
  assembles s op [(i, Z.of_nat (length pre) + 1)].
Proof using.
  intros Hx Hy He Hf Hl Hk Hi.
  replace (Z.of_nat (length pre) + 1) with (Z.of_nat (length (pre ++ [modrm_byte 0xc0 x y])))
    by (rewrite length_app; simpl; lia).
  apply (decoded_assembles false); [done| |rewrite length_app; simpl; lia].
  assert (parses (decode_op plain) (pre ++ [modrm_byte 0xc0 x y]) i) as Hp
    by (eapply parses_rr; [by apply extends_plain|exact Hk|exact Hi]).
  destruct pre as [|b pre]; [done|]. by apply parses_plain.
Qed.

Lemma x86_emits_generic dest src op : reg32 dest -> reg32 src ->
  emits s (asm_x86_generic_r32_r32 dest src op) ([u8 op] ++ [modrm_byte 0xc0 src dest]).
Proof using. intros Hd Hs. rewrite <- x86_modrm by done. apply x86_emits_byte_2. Qed.

(** An opcode [pre], a ModRM byte and a memory operand; [o] is the operand
    size prefix. *)
Lemma x86_rm_performs op (o : bool) pre x y d i (k : Z * place -> parser x86_instr) : reg32 x -> reg32 y ->
  emits s op ((if o then [0x66] else []) ++ pre) -> match pre with b :: _ => b <> 0x66 | [] => False end ->
  (length pre <= 2)%nat ->
  (forall rest, decode_op (mk_prefixes o None) (pre ++ rest) = (modrm (mk_prefixes o None) ≫= k) rest) ->
  k (x, Mem (Some y) (s32 d)) = mret i -> straight_line false i = true ->
  performs s (op;; asm_x86_write_r32_disp x y d) (effect i).
Proof using.
  intros Hx Hy He Hf Hlen Hk Hi Hl.
  eapply (decoded_performs false); [apply emits_seq; [exact He|intros; by apply x86_emits_r32_disp]| | |exact Hl].
  - assert (parses (decode_op (mk_prefixes o None)) (pre ++ disp_bytes x y d) i) as Hp
      by (eapply parses_rm; [by apply extends_plain|exact Hk|exact Hi]).
    destruct pre as [|b pre']; [done|]. destruct o; simpl; [by apply parses_66|by apply parses_plain].
  - rewrite !length_app. pose proof (length_disp_bytes x y d). destruct o; cbn [length]; lia.
Qed.
End Forms.

(** ** Registers and constants *)

Section Registers.
Context (s : asm_x86_t) (dest src : Z) (Hd : reg32 dest) (Hs : reg32 src).
Ltac low := first [done|by split].
Ltac generic x pre :=
  eapply (assembles_effect false);
    [eapply (x86_rr_assembles s _ pre x dest); [low|low|apply x86_emits_generic; low|done|simpl; lia|reflexivity|reflexivity]
    |reflexivity].

Lemma x86_mov_r32_r32_performs :
  performs s (asm_x86_mov_r32_r32 dest src) (effect (MOV 32 (Reg dest) (Reg src))).
Proof using Hd Hs. generic src [0x89]. Qed.
Lemma x86_add_r32_r32_performs :
  performs s (asm_x86_add_r32_r32 dest src) (effect (ALU ADD 32 (Reg dest) (Reg src))).
Proof using Hd Hs. generic src [0x01]. Qed.
Lemma x86_sub_r32_r32_performs :
  performs s (asm_x86_sub_r32_r32 dest src) (effect (ALU SUB 32 (Reg dest) (Reg src))).
Proof using Hd Hs. generic src [0x29]. Qed.
Lemma x86_and_r32_r32_performs :
  performs s (asm_x86_and_r32_r32 dest src) (effect (ALU AND 32 (Reg dest) (Reg src))).
Proof using Hd Hs. generic src [0x21]. Qed.
Lemma x86_or_r32_r32_performs :
  performs s (asm_x86_or_r32_r32 dest src) (effect (ALU OR 32 (Reg dest) (Reg src))).
Proof using Hd Hs. generic src [0x09]. Qed.
Lemma x86_xor_r32_r32_performs :
  performs s (asm_x86_xor_r32_r32 dest src) (effect (ALU XOR 32 (Reg dest) (Reg src))).
Proof using Hd Hs. generic src [0x31]. Qed.
Lemma x86_not_r32_performs : performs s (asm_x86_not_r32 dest) (effect (NOT 32 (Reg dest))).
Proof using Hd. generic 2 [0xf7]. Qed.
Lemma x86_neg_r32_performs : performs s (asm_x86_neg_r32 dest) (effect (NEG 32 (Reg dest))).
Proof using Hd. generic 3 [0xf7]. Qed.
Lemma x86_shl_r32_performs : performs s (asm_x86_shl_r32_cl dest) (effect (SHIFT SHL 32 (Reg dest))).
Proof using Hd. generic 4 [0xd3]. Qed.
Lemma x86_shr_r32_performs : performs s (asm_x86_shr_r32_cl dest) (effect (SHIFT SHR 32 (Reg dest))).
Proof using Hd. generic 5 [0xd3]. Qed.
Lemma x86_sar_r32_performs : performs s (asm_x86_sar_r32_cl dest) (effect (SHIFT SAR 32 (Reg dest))).
Proof using Hd. generic 7 [0xd3]. Qed.

Lemma x86_mul_r32_r32_performs :
  performs s (asm_x86_mul_r32_r32 dest src) (effect (IMUL 32 dest (Reg src))).
Proof using Hd Hs.
  eapply (assembles_effect false); [|reflexivity].
  eapply (x86_rr_assembles s _ [0x0f; 0xaf] dest src); [done|done| |done|simpl; lia|reflexivity|reflexivity].
  rewrite <- x86_modrm by done. apply x86_emits_byte_3.
Qed.
Lemma x86_cmp_r32_with_r32_assembles :
  assembles s (asm_x86_cmp_r32_with_r32 src dest) [(ALU CMP 32 (Reg dest) (Reg src), 2)].
Proof using Hd Hs.
  eapply (x86_rr_assembles s _ [0x39] src dest); [low|low|apply x86_emits_generic; low|done|simpl; lia|reflexivity|reflexivity].
Qed.
Lemma x86_test_r32_with_r32_assembles :
  assembles s (asm_x86_test_r32_with_r32 src dest) [(ALU TEST 32 (Reg dest) (Reg src), 2)].
Proof using Hd Hs.
  eapply (x86_rr_assembles s _ [0x85] src dest); [low|low|apply x86_emits_generic; low|done|simpl; lia|reflexivity|reflexivity].
Qed.
Lemma x86_test_r8_with_r8_assembles :
  assembles s (asm_x86_test_r8_with_r8 src dest)
    [(ALU TEST 8 (byte_place plain (Reg dest)) (byte_place plain (Reg src)), 2)].
Proof using Hd Hs.
  eapply (x86_rr_assembles s _ [0x84] src dest); [low|low| |done|simpl; lia|reflexivity|reflexivity].
  unfold asm_x86_test_r8_with_r8. simpl. rewrite <- x86_modrm by done. apply x86_emits_byte_2.
Qed.

(** An instruction whose ModRM byte holds a constant and one register. *)
Lemma x86_one_assembles pre n i (k : Z * place -> parser x86_instr) : reg32 n ->
  pre <> 0x66 ->
  (forall rest, decode_op plain ([u8 pre] ++ rest) = (modrm plain ≫= k) rest) -> k (n, Reg dest) = mret i ->
  u8 pre = pre ->
  assembles s (asm_x86_write_byte_2 pre (MODRM_R32 n .| MODRM_RM_REG .| MODRM_RM_R32 dest)) [(i, 2)].
Proof using Hd.
  intros Hn Hp Hk Hi Hu. eapply (x86_rr_assembles s _ [u8 pre] n dest); [done|done| |by rewrite Hu|simpl; lia|exact Hk|exact Hi].
  rewrite <- x86_modrm by done. apply x86_emits_byte_2.
Qed.
Lemma x86_call_reg_assembles :
  assembles s (asm_x86_write_byte_2 OPCODE_CALL_RM32 (MODRM_R32 2 .| MODRM_RM_REG .| MODRM_RM_R32 dest)) [(CALLR (Reg dest), 2)].
Proof using Hd. by eapply (x86_one_assembles _ 2). Qed.
Lemma x86_jmp_reg_assembles : assembles s (asm_x86_jmp_reg dest) [(JMPR (Reg dest), 2)].
Proof using Hd. by eapply (x86_one_assembles _ 4). Qed.

Lemma x86_setcc_r8_performs cc : 0 <= cc < 16 -> has_cc cc = true ->
  performs s (asm_x86_setcc_r8 cc dest) (effect (SETCC cc (byte_place plain (Reg dest)))).
Proof using Hd.
  intros Hcc Hhas. eapply (assembles_effect false); [|simpl; by destruct (dest <? 4)].
  unfold asm_x86_setcc_r8.
  enumerate 16%nat cc; try done;
    (match goal with |- context [asm_x86_write_byte_3 _ (_ .| ?cc) _] =>
       eapply (x86_rr_assembles s _ [0x0f; u8 (0x90 .| cc)] 0 dest) end;
     [low|done|rewrite <- x86_modrm by low; apply x86_emits_byte_3|done|simpl; lia|reflexivity|reflexivity]).
Qed.
End Registers.

(** A register in the opcode. *)
Section OneOperand.
Context (s : asm_x86_t) (r : Z) (Hr : reg32 r).

Lemma x86_opcode_parses op cs (f : Z -> x86_instr) : In op [0x50; 0x58; 0xb8] ->
  parses (decode_op plain) (u8 (op .| r) :: cs) (f (r + ext_b plain)) -> parses (x86_parse false) (u8 (op .| r) :: cs) (f r).
Proof using Hr.
  intros Hop Hp. change (ext_b plain) with 0 in Hp. rewrite Z.add_0_r in Hp.
  apply parses_plain; [by apply opcode_low|done].
Qed.

Lemma x86_push_r32_performs : performs s (asm_x86_push_r32 r) (effect (PUSH r)).
Proof using Hr.
  eapply (decoded_performs false); [apply x86_emits_byte_1|apply (x86_opcode_parses 0x50 [] PUSH); [simpl; auto|by apply parses_push]|simpl; lia|done].
Qed.
Lemma x86_pop_r32_assembles : assembles s (asm_x86_pop_r32 r) [(POP r, 1)].
Proof using Hr.
  apply (decoded_assembles false s _ [u8 (0x58 .| r)]); [apply x86_emits_byte_1|apply (x86_opcode_parses 0x58 [] POP); [simpl; auto|by apply parses_pop]|simpl; lia].
Qed.
Lemma x86_pop_r32_performs : performs s (asm_x86_pop_r32 r) (effect (POP r)).
Proof using Hr. by eapply (assembles_effect false); [apply x86_pop_r32_assembles|]. Qed.
(** The function returns where the constant was put; no caller uses it. *)
Lemma x86_mov_i32_to_r32_performs i :
  performs s (asm_x86_mov_i32_to_r32 i r;; mret tt) (effect (MOVI 32 r (u32 i))).
Proof using Hr.
  eapply (decoded_performs false); [|apply (x86_opcode_parses 0xb8 (le_bytes 4 i) (fun x => MOVI 32 x (u32 i)));
    [simpl; auto|by apply (parses_movi None r Hr 4 i)]|simpl; lia|done].
  eapply emits_ext; [|apply (emits_seq _ (asm_x86_write_byte_1 (0xb8 .| r)) (asm_x86_write_word32 i) [_]); [apply x86_emits_byte_1|apply x86_emits_word32]].
  intros t. unfold asm_x86_mov_i32_to_r32. rewrite bind_assoc. unfold mbind, M_bind.
  destruct (asm_x86_write_byte_1 _ t) as [[[] t1]|]; [|done].
  unfold on_base, mp_asm_base_get_code_pos, gets. rewrite with_base_of. by destruct (asm_x86_write_word32 i t1) as [[[] ?]|].
Qed.

(** [op r/m32, imm], the immediate in four bytes. *)
Lemma x86_imm32_assembles i n op : reg32 n -> alu_of n = Some op ->
  assembles s (asm_x86_write_byte_2 0x81 (MODRM_R32 n .| MODRM_RM_REG .| MODRM_RM_R32 r);; asm_x86_write_word32 i)
    [(ALUI op 32 (Reg r) (s32 i), 6)].
Proof using Hr.
  intros Hn Hop. pose proof (extends_plain false n r Hn Hr) as Hx.
  apply (decoded_assembles false s _ ([u8 0x81; u8 (MODRM_R32 n .| MODRM_RM_REG .| MODRM_RM_R32 r)] ++ le_bytes 4 i));
    [apply emits_seq; intros; [apply x86_emits_byte_2|apply x86_emits_word32]| |code_length].
  rewrite x86_modrm by done. apply parses_plain; [done|].
  eapply (parses_modrm_then _ [u8 0x81] [_]); [by apply parses_modrm_reg|reflexivity|].
  cbn beta iota. eapply parses_last; [apply (parses_simm 4); lia|]. by rewrite low3_small, Hop.
Qed.
(** The immediate in one or four bytes. *)
Lemma x86_imm_performs i n op : reg32 n -> alu_of n = Some op ->
  performs s (if SIGNED_FIT8 i then
      asm_x86_write_byte_2 0x83 (MODRM_R32 n .| MODRM_RM_REG .| MODRM_RM_R32 r);; asm_x86_write_byte_1 (i .& 0xff)
    else
      asm_x86_write_byte_2 0x81 (MODRM_R32 n .| MODRM_RM_REG .| MODRM_RM_R32 r);; asm_x86_write_word32 i)
    (effect (ALUI op 32 (Reg r) (s32 i))).
Proof using Hr.
  intros Hn Hop. pose proof (extends_plain false n r Hn Hr) as Hx.
  change (SIGNED_FIT8 i) with (fits8 i). destruct (fits8 i) eqn:E8.
  - eapply (decoded_performs false); [apply emits_seq; intros; [apply x86_emits_byte_2|apply x86_emits_byte_1]| |code_length|done].
    rewrite x86_modrm by done. apply parses_plain; [done|]. rewrite fits8_s32 in E8.
    replace (s32 i) with (s8 (i .& 0xff)).
    2: { change 0xff with (Z.ones 8). rewrite Z.land_ones by done. fold (u8 i). rewrite sw_uw by done.
         apply andb_prop in E8 as [?%Z.leb_le ?%Z.ltb_lt]. word_lia. }
    eapply (parses_modrm_then _ [u8 0x83] [_]); [by apply parses_modrm_reg|reflexivity|].
    eapply parses_last; [apply (parses_simm 1); lia|]. cbn beta iota. by rewrite low3_small, Hop.
  - by eapply (assembles_effect false); [apply x86_imm32_assembles|].
Qed.
Lemma x86_sub_r32_i32_performs i : performs s (asm_x86_sub_r32_i32 r i) (effect (ALUI SUB 32 (Reg r) (s32 i))).
Proof using Hr. by apply (x86_imm_performs i 5 SUB). Qed.
Lemma x86_add_i32_to_r32_performs i : performs s (asm_x86_add_i32_to_r32 i r) (effect (ALUI ADD 32 (Reg r) (s32 i))).
Proof using Hr. by apply (x86_imm_performs i 0 ADD). Qed.
End OneOperand.

Lemma x86_ret_assembles s : assembles s asm_x86_ret [(RET, 1)].
Proof.
  apply (decoded_assembles false s _ [0xc3]); [apply x86_emits_byte_1| |simpl; lia]. by apply parses_plain.
Qed.

(** ** Memory *)

Section Memory.
Context (s : asm_x86_t) (x y d : Z) (Hx : reg32 x) (Hy : reg32 y).
Abbreviation at_y := (Mem (Some y) (s32 d)).
Ltac rm o pre :=
  eapply (x86_rm_performs s _ o pre x y d);
    [done|done|first [apply x86_emits_byte_1|apply x86_emits_byte_2]|done|simpl; lia|reflexivity|reflexivity|].

Lemma x86_mov_r32_to_mem32_performs :
  performs s (asm_x86_mov_r32_to_mem32 x y d) (effect (MOV 32 at_y (Reg x))).
Proof using Hx Hy. by rm false [0x89]. Qed.
Lemma x86_mov_r16_to_mem16_performs :
  performs s (asm_x86_mov_r16_to_mem16 x y d) (effect (MOV 16 at_y (Reg x))).
Proof using Hx Hy. by rm true [0x89]. Qed.
(** The byte registers 4 to 7 are AH, CH, DH and BH. *)
Lemma x86_mov_r8_to_mem8_performs :
  performs s (asm_x86_mov_r8_to_mem8 x y d) (effect (MOV 8 at_y (byte_place plain (Reg x)))).
Proof using Hx Hy. rm false [0x88]. simpl. by destruct (x <? 4). Qed.
Lemma x86_mov_mem32_to_r32_performs :
  performs s (asm_x86_mov_mem32_to_r32 y d x) (effect (MOV 32 (Reg x) at_y)).
Proof using Hx Hy. by rm false [0x8b]. Qed.
Lemma x86_mov_mem16_to_r32zx_performs :
  performs s (asm_x86_mov_mem16_to_r32zx y d x) (effect (MOVZX 32 16 x at_y)).
Proof using Hx Hy. by rm false [0x0f; 0xb7]. Qed.
Lemma x86_mov_mem8_to_r32zx_performs :
  performs s (asm_x86_mov_mem8_to_r32zx y d x) (effect (MOVZX 32 8 x at_y)).
Proof using Hx Hy. by rm false [0x0f; 0xb6]. Qed.
Lemma x86_lea_performs : performs s (asm_x86_lea_disp_to_r32 y d x) (effect (LEA 32 x at_y)).
Proof using Hx Hy. by rm false [0x8d]. Qed.
End Memory.
