(* ===== verification/AsmX86Frame.v ===== *)
(** * AsmX86Frame: function entry and exit of asmx86.c, arguments and locals

    The entry pushes EBP, EBX, ESI and EDI and makes room for the locals, as
    many as keep the stack aligned; the exit releases the room, pops the
    registers and returns.  They implement the frame of X86Stack.  Arguments
    are the words the caller pushed, above the frame and its return address. *)

From S2P Require Import Prelude AsmBase TwoPass Machine Emission X86Isa X86Encode X86Effect X86Stack.
From S2P Require Import AsmX86 AsmX86Instr.

Set Default Goal Selector "!".

#[local] Existing Instance SizeT_32.
#[local] Hint Extern 0 Isa => exact X86_32 : typeclass_instances.

(** The registers a function saves, in the order it pushes them. *)
Definition x86_saved : list Z :=
  [ASM_X86_REG_EBP; ASM_X86_REG_EBX; ASM_X86_REG_ESI; ASM_X86_REG_EDI].
Lemma x86_saved_gpr : Forall gpr x86_saved.
Proof. repeat (apply List.Forall_cons; [by split|]). apply List.Forall_nil. Qed.
Lemma x86_saved_sp : 4 ∉ x86_saved.
Proof. by apply (bool_decide_unpack _). Qed.
Lemma x86_saved_NoDup : NoDup x86_saved.
Proof. by apply (bool_decide_unpack _). Qed.
#[export] Hint Resolve x86_saved_gpr x86_saved_sp x86_saved_NoDup : core.

(** The locals there is room for: three more than a multiple of four. *)
Definition x86_locals (locals : Z) : Z := locals .| 3.
Lemma x86_locals_bounds locals : 0 <= locals < 2 ^ 28 ->
  locals <= x86_locals locals < 2 ^ 28 /\ x86_locals locals mod 4 = 3.
Proof.
  intros Hl. assert (x86_locals locals = 4 * (locals / 4) + 3) as ->; [|word_lia].
  assert (((locals >> 2) << 2) .& 3 = 0) as Hd by bitsolve.
  assert (4 * (locals / 4) = (locals >> 2) << 2) as ->.
  { rewrite Z.shiftl_mul_pow2, Z.shiftr_div_pow2 by done. apply Z.mul_comm. }
  rewrite Z.add_nocarry_lxor, Z.lxor_lor by done. unfold x86_locals. bitsolve.
Qed.

Section Frame.
Context (s : asm_x86_t) (locals : Z) (Hl : 0 <= locals < 2 ^ 28).
Abbreviation n := (4 * x86_locals locals).

Lemma x86_frame_fits : 0 <= n /\ n + wbytes false * Z.of_nat (length x86_saved) + wbytes false <= 2 ^ 32.
Proof using Hl. pose proof (x86_locals_bounds locals Hl). change (wbytes false) with 4. simpl. lia. Qed.

Lemma x86_pushes_perform : performs s
  (asm_x86_push_r32 ASM_X86_REG_EBP;; asm_x86_push_r32 ASM_X86_REG_EBX;;
   asm_x86_push_r32 ASM_X86_REG_ESI;; asm_x86_push_r32 ASM_X86_REG_EDI) (push_all false x86_saved).
Proof using.
  assert (forall t r, reg32 r -> performs t (asm_x86_push_r32 r) (push_reg false r)) as Hp
    by (intros t r; apply x86_push_r32_performs).
  apply (performs_seq s _ _ (push_reg false 5) (push_all false [3; 6; 7])); [by apply Hp|done|done|intros b1].
  apply (performs_seq _ _ _ (push_reg false 3) (push_all false [6; 7])); [by apply Hp|done|done|intros b2].
  apply (performs_seq _ _ _ (push_reg false 6) (push_all false [7])); [by apply Hp|done|done|intros b3].
  by apply Hp.
Qed.

Lemma x86_entry_implements : implements_to s (set_num_locals (x86_locals locals) s) (asm_x86_entry locals)
  (fun len m m1 => pc m1 = u32 (pc m + len) /\ frame_entered false x86_saved n m m1).
Proof using Hl.
  pose proof x86_frame_fits as [Hn Hfit]. pose proof (x86_locals_bounds locals Hl) as [Hb _].
  eapply (implements_to_intro s s _ _
    ((asm_x86_push_r32 ASM_X86_REG_EBP;; asm_x86_push_r32 ASM_X86_REG_EBX;;
      asm_x86_push_r32 ASM_X86_REG_ESI;; asm_x86_push_r32 ASM_X86_REG_EDI);;
     asm_x86_sub_r32_i32 ASM_X86_REG_ESP (s32 (x86_locals locals * WORD_SIZE)))
    (modify (set_num_locals (x86_locals locals)))); [done|done| |done|].
  - unfold asm_x86_entry. rewrite leb_true by lia. rewrite assert_true by done.
    symmetry. seq_assoc.
  - eapply implements_mono; [eapply (performs_seq _ _ _ _ (effect (ALUI SUB 32 (Reg 4) (s32 (s32 (x86_locals locals * WORD_SIZE))))));
      [apply x86_pushes_perform|done|by apply effect_blind|]|].
    + intros bs. by apply x86_sub_r32_i32_performs.
    + intros len m m1 ->. split; [done|].
      apply (enter_frame false x86_saved n); [done..|exact Hn|exact Hfit|].
      unfold WORD_SIZE. rewrite (sw_small 32 eq_refl (x86_locals locals * 4)), (sw_small 32 eq_refl) by (simpl in *; lia).
      apply moves_lowers, moves_sp_set_pc.
      replace (- n) with (- (x86_locals locals * 4)) by lia. apply (sub_moves_sp false).
Qed.

Lemma x86_pops_perform t : performs t
  (asm_x86_pop_r32 ASM_X86_REG_EDI;; asm_x86_pop_r32 ASM_X86_REG_ESI;;
   asm_x86_pop_r32 ASM_X86_REG_EBX;; asm_x86_pop_r32 ASM_X86_REG_EBP) (pop_all false (reverse x86_saved)).
Proof using.
  assert (forall t r, reg32 r -> performs t (asm_x86_pop_r32 r) (pop_reg false r)) as Hp
    by (intros t' r; apply x86_pop_r32_performs).
  apply (performs_seq _ _ _ (pop_reg false 7) (pop_all false [6; 3; 5])); [by apply Hp|done|done|intros b1].
  apply (performs_seq _ _ _ (pop_reg false 6) (pop_all false [3; 5])); [by apply Hp|done|done|intros b2].
  apply (performs_seq _ _ _ (pop_reg false 3) (pop_all false [5])); [by apply Hp|done|done|intros b3].
  by apply Hp.
Qed.

Lemma x86_ret_implements t : implements t asm_x86_ret
  (fun _ m m' => m' = set_pc (top false m) (popped false m)).
Proof using. eapply assembles_implements; [apply x86_ret_assembles|]. intros mc _. by eexists. Qed.

Lemma x86_exit_implements t : num_locals t = x86_locals locals ->
  implements t asm_x86_exit (fun _ => frame_left false x86_saved n).
Proof using Hl.
  intros Ht. pose proof (x86_locals_bounds locals Hl) as [Hb _].
  eapply (implements_ext t _ ((asm_x86_sub_r32_i32 ASM_X86_REG_ESP (s32 (s32 (- num_locals t) * WORD_SIZE));;
    asm_x86_pop_r32 ASM_X86_REG_EDI;; asm_x86_pop_r32 ASM_X86_REG_ESI;;
    asm_x86_pop_r32 ASM_X86_REG_EBX;; asm_x86_pop_r32 ASM_X86_REG_EBP);; asm_x86_ret)).
  { unfold asm_x86_exit. rewrite gets_bind. symmetry. seq_assoc. }
  eapply implements_mono; [eapply performs_then; [eapply (performs_seq _ _ _ (effect (ALUI SUB 32 (Reg 4) (s32 (s32 (s32 (- num_locals t) * WORD_SIZE))))) (pop_all false (reverse x86_saved)))|]|].
  - by apply x86_sub_r32_i32_performs.
  - by apply effect_blind.
  - done.
  - intros bs. apply x86_pops_perform.
  - intros bs. apply x86_ret_implements.
  - intros len mb m2 (n1 & n2 & _ & ->). rewrite Ht.
    unfold WORD_SIZE. rewrite (sw_small 32 eq_refl (- _)), (sw_small 32 eq_refl (_ * 4)), (sw_small 32 eq_refl) by (simpl in *; lia).
    destruct (sub_moves_sp false (- x86_locals locals * 4) mb) as (_ & Hs & Hm).
    eapply (leave_frame false x86_saved n x86_saved_sp x86_saved_NoDup mb); [exact Hm| |].
    + rewrite Hs, uw_uw by done. f_equal. lia.
    + reflexivity.
Qed.
End Frame.
