(* ===== verification/AsmX86Jump.v ===== *)
(** * AsmX86Jump: the jumps of asmx86.c reach their labels

    A jump's code transfers control by the distance between the label's offset
    and the offset the code is at, whichever of the two encodings is chosen. *)

From S2P Require Import Prelude AsmBase TwoPass Machine Emission X86Isa X86Encode X86Effect X86Stack X86Jump.
From S2P Require Import AsmX86 AsmX86Pass AsmX86Instr.

Set Default Goal Selector "!".

#[local] Existing Instance SizeT_32.
#[local] Hint Extern 0 Isa => exact X86_32 : typeclass_instances.

(** [label] is at [dest], and both it and the code, [room] bytes further on,
    are in reach. *)
Record label_at (room : Z) (s : asm_x86_t) (label dest : Z) : Prop := {
  label_at_max : label < max_num_labels (base s);
  label_at_dest : label_offsets (base s) !! Z.to_nat label = Some dest;
  label_at_range : 0 <= dest <= x86_limit /\ 0 <= code_offset (base s) <= x86_limit - room;
}.
Lemma x86_label_at_puts bs room s label dest : suppress (base s) = false -> Z.of_nat (length bs) <= room ->
  label_at room s label dest -> label_at (room - Z.of_nat (length bs)) (puts bs s) label dest.
Proof.
  intros Hs Hb [Hm Hd Hr]. constructor; change (base ?t) with (base_of t) in *; rewrite base_of_puts.
  - by rewrite put_bytes_max.
  - by rewrite put_bytes_labels.
  - rewrite put_bytes_offset, Hs. lia.
Qed.

Section Jumps.
Context (s : asm_x86_t) (label dest : Z) (Hlabel : label_at 8 s label dest).
Abbreviation disp := (dest - code_offset (base s)).

Lemma x86_get_label_dest_at {B} (k : Z -> M asm_x86_t B) : (d ← get_label_dest label; k d) s = k dest s.
Proof using Hlabel.
  apply bind_Ok. unfold get_label_dest. apply on_base_pure. by apply label_dest_ok; apply Hlabel.
Qed.
Lemma x86_disp_range : - 2 ^ 31 + 8 < disp < 2 ^ 31.
Proof using Hlabel. pose proof (label_at_range _ _ _ _ Hlabel). unfold x86_limit in *. lia. Qed.
Lemma x86_emits_short t b1 d : emits t (asm_x86_write_byte_2 b1 (d .& 0xff)) [u8 b1; u8 d].
Proof using.
  replace (u8 d) with (u8 (d .& 0xff)) by bitsolve. apply x86_emits_byte_2.
Qed.

(** The choice both jumps make. *)
Lemma x86_jump_choice {S} (m : S) (long : Z -> S) (short : Z -> S) :
  m = (if negb (dest =? u32 (-1)) && (s32 disp <? 0) then
         if SIGNED_FIT8 (s32 (s32 disp - 2)) then short (s32 (s32 disp - 2))
         else long (s32 (s32 (s32 disp - 2) + 2))
       else long (s32 disp)) ->
  (m = short (disp - 2) /\ - 128 <= disp - 2 < 128) \/ m = long disp.
Proof using Hlabel.
  intros ->. pose proof x86_disp_range. rewrite (sw_small 32 eq_refl disp), (sw_small 32 eq_refl (disp - 2)) by pow_lia.
  replace (disp - 2 + 2) with disp by lia. rewrite (sw_small 32 eq_refl disp) by pow_lia.
  destruct (_ && _); [|by right]. change (SIGNED_FIT8 (disp - 2)) with (fits8 (disp - 2)).
  destruct (fits8 (disp - 2)) eqn:E; [|by right]. left. split; [done|].
  rewrite fits8_s32, (sw_small 32 eq_refl) in E by pow_lia. lia.
Qed.

Lemma x86_jmp_label_implements :
  implements s (asm_x86_jmp_label label) (jumps_if false (fun _ => true) disp).
Proof using Hlabel.
  pose proof x86_disp_range.
  assert (exists m, asm_x86_jmp_label label s = m s /\ implements s m (jumps_if false (fun _ => true) disp))
    as (m & E & Hm); [|by eapply implements_ext].
  unfold asm_x86_jmp_label. rewrite x86_get_label_dest_at. cbv zeta. rewrite gets_bind.
  eexists. split; [reflexivity|].
  destruct (x86_jump_choice _ (fun rel => asm_x86_write_byte_1 OPCODE_JMP_REL32;; asm_x86_write_word32 (s32 (rel - 5)))
    (fun rel => asm_x86_write_byte_2 OPCODE_JMP_REL8 (rel .& 0xff)) eq_refl) as [[-> Hs]| ->].
  - by apply jmp8_implements; [apply x86_emits_short|].
  - rewrite (sw_small 32 eq_refl) by pow_lia.
    apply jmp32_implements; [|lia]. apply (emits_seq _ _ _ [_]); [apply x86_emits_byte_1|apply x86_emits_word32].
Qed.

Lemma x86_jcc_label_implements cc : 0 <= cc < 16 -> has_cc cc = true ->
  implements s (asm_x86_jcc_label cc label) (jumps_if false (cond cc) disp).
Proof using Hlabel.
  intros Hcc Hh. pose proof x86_disp_range.
  assert (exists m, asm_x86_jcc_label cc label s = m s /\ implements s m (jumps_if false (cond cc) disp))
    as (m & E & Hm); [|by eapply implements_ext].
  unfold asm_x86_jcc_label. rewrite x86_get_label_dest_at. cbv zeta. rewrite gets_bind.
  eexists. split; [reflexivity|].
  destruct (x86_jump_choice _ (fun rel => asm_x86_write_byte_2 OPCODE_JCC_REL32_A (OPCODE_JCC_REL32_B .| cc);;
      asm_x86_write_word32 (s32 (rel - 6)))
    (fun rel => asm_x86_write_byte_2 (OPCODE_JCC_REL8 .| cc) (rel .& 0xff)) eq_refl) as [[-> Hs]| ->].
  - by apply jcc8_implements; [apply x86_emits_short|..].
  - rewrite (sw_small 32 eq_refl) by pow_lia.
    apply jcc32_implements; [|done..|lia]. apply (emits_seq _ _ _ [_; _]); [apply x86_emits_byte_2|apply x86_emits_word32].
Qed.

End Jumps.

(** ** Conditional jumps *)

Section ConditionalJumps.
Context (s : asm_x86_t) (label dest : Z) (Hlabel : label_at 16 s label dest).
Hypothesis Hlive : suppress (base s) = false.
Abbreviation disp := (dest - code_offset (base s)).

Lemma x86_test_then_jump test i len cc (c : machine -> bool) :
  assembles s test [(i, len)] -> len = 2 \/ len = 3 -> straight_line false i = true ->
  0 <= cc < 16 -> has_cc cc = true -> (forall mc, same_except flags mc (effect i mc)) ->
  (forall mc, cond cc (effect i mc) = c mc) ->
  implements s (test;; asm_x86_jcc_label cc label) (branches_if false c disp).
Proof using Hlabel Hlive.
  intros Ht Hlen Hs Hcc Hh Hsame Hc. apply (test_then_jump false s test _ i len cc); [done..|].
  intros bs Hbs. replace (disp - len) with (dest - code_offset (base (puts bs s))).
  - apply x86_jcc_label_implements; [|done|done].
    pose proof (x86_label_at_puts bs 16 s label dest Hlive ltac:(lia) Hlabel) as [? ? ?].
    constructor; [done|done|]. lia.
  - change (base (puts bs s)) with (base_of (puts bs s)).
    rewrite base_of_puts, put_bytes_offset. cbn [base_of HasBase_x86]. rewrite Hlive. lia.
Qed.

Lemma x86_test_assembles r (bool_test : bool) : reg32 r -> (bool_test = true -> r < 4) ->
  exists i len, assembles s (if bool_test then asm_x86_test_r8_with_r8 r r else asm_x86_test_r32_with_r32 r r) [(i, len)]
    /\ (len = 2 \/ len = 3) /\ straight_line false i = true
    /\ (forall mc, same_except flags mc (effect i mc)) /\ forall mc, flag ZF (effect i mc) = is_zero false bool_test r mc.
Proof using.
  intros Hr H4. destruct bool_test.
  - assert (r < 4) as Hr4 by auto.
    eexists _, 2. split; [by apply x86_test_r8_with_r8_assembles|]. simpl. rewrite ltb_true by done.
    split; [by left|]. split; [done|].
    split; intros mc; [apply result_flags_same|].
    change (flag ZF (result_flags false false 8 (u8 (reg r mc) .& u8 (reg r mc)) mc) = is_zero false true r mc).
    by rewrite result_flags_zero, Z.land_diag, uw_uw.
  - eexists _, 2. split; [by apply x86_test_r32_with_r32_assembles|].
    split; [by left|]. split; [done|]. split; intros mc; [apply result_flags_same|].
    change (flag ZF (result_flags false false 32 (u32 (reg r mc) .& u32 (reg r mc)) mc) = is_zero false false r mc).
    by rewrite result_flags_zero, Z.land_diag, uw_uw.
Qed.

Lemma x86_jump_if_reg_zero_implements r (bool_test : bool) : reg32 r -> (bool_test = true -> r < 4) ->
  implements s (GenericApi.ASM_JUMP_IF_REG_ZERO r label bool_test) (branches_if false (is_zero false bool_test r) disp).
Proof using Hlabel Hlive.
  intros Hr H4. destruct (x86_test_assembles r bool_test Hr H4) as (i & len & Ha & Hl & Hs & Hsame & Hz).
  by apply (x86_test_then_jump _ _ _ _ _ Ha).
Qed.
Lemma x86_jump_if_reg_nonzero_implements r (bool_test : bool) : reg32 r -> (bool_test = true -> r < 4) ->
  implements s (GenericApi.ASM_JUMP_IF_REG_NONZERO r label bool_test)
    (branches_if false (fun mc => negb (is_zero false bool_test r mc)) disp).
Proof using Hlabel Hlive.
  intros Hr H4. destruct (x86_test_assembles r bool_test Hr H4) as (i & len & Ha & Hl & Hs & Hsame & Hz).
  apply (x86_test_then_jump _ _ _ _ _ Ha); try done. intros mc. by rewrite <- Hz.
Qed.
Lemma x86_jump_if_reg_eq_implements r1 r2 : reg32 r1 -> reg32 r2 ->
  implements s (GenericApi.ASM_JUMP_IF_REG_EQ r1 r2 label)
    (branches_if false (fun mc => u32 (reg r1 mc) =? u32 (reg r2 mc)) disp).
Proof using Hlabel Hlive.
  intros H1 H2. apply (x86_test_then_jump _ _ _ _ _ (x86_cmp_r32_with_r32_assembles s r2 r1 H2 H1)); try done; [by left|..].
  - intros mc. apply result_flags_same.
  - intros mc. change (flag ZF (result_flags (u32 (reg r2 mc) <? u32 (reg r1 mc))
      (negb (s32 (u32 (reg r2 mc)) - s32 (u32 (reg r1 mc)) =? s32 (u32 (u32 (reg r2 mc) - u32 (reg r1 mc)))))
      32 (u32 (u32 (reg r2 mc) - u32 (reg r1 mc))) mc) = (u32 (reg r1 mc) =? u32 (reg r2 mc))).
    by rewrite result_flags_zero, uw_uw, uw_sub_eqb by done.
Qed.
End ConditionalJumps.
