(* ===== verification/AsmX86Call.v ===== *)
(** * AsmX86Call: calls through the function table, and the address of a label

    The call pads the stack to a multiple of 16 bytes, pushes the arguments,
    jumps to the entry of the table and releases the room when the subroutine
    returns.  The address of a label is computed from the return address of a
    call to the next instruction. *)

From S2P Require Import Prelude AsmBase TwoPass Machine Emission X86Isa X86Encode X86Effect X86Stack X86Arith X86Jump.
From S2P Require Import AsmX86 AsmX86Pass AsmX86Instr AsmX86Jump.

Set Default Goal Selector "!".

#[local] Existing Instance SizeT_32.
#[local] Hint Extern 0 Isa => exact X86_32 : typeclass_instances.

(** ** Arguments *)

(** The registers pushed, the last argument first. *)
Definition arg_regs (n_args : Z) : list Z :=
  (if 3 <? n_args then [ASM_X86_REG_ARG_4] else []) ++ (if 2 <? n_args then [ASM_X86_REG_ARG_3] else [])
  ++ (if 1 <? n_args then [ASM_X86_REG_ARG_2] else []) ++ (if 0 <? n_args then [ASM_X86_REG_ARG_1] else []).
(** The bytes the arguments take, a multiple of 16. *)
Definition arg_room (n_args : Z) : Z := if 0 <? n_args then 16 else 0.

Section Arguments.
Context (n_args : Z) (Hn : 0 <= n_args <= 4).

Lemma x86_arg_regs_length : length (arg_regs n_args) = Z.to_nat n_args.
Proof using Hn. by enumerate 5%nat n_args. Qed.
Lemma x86_arg_regs_gpr : Forall gpr (arg_regs n_args).
Proof using Hn. enumerate 5%nat n_args; repeat (apply List.Forall_cons; [by split|]); apply List.Forall_nil. Qed.
Lemma x86_arg_regs_sp : 4 ∉ arg_regs n_args.
Proof using Hn. enumerate 5%nat n_args; by apply (bool_decide_unpack _). Qed.
Lemma x86_arg_regs_lookup i : 0 <= i < n_args ->
  arg_regs n_args !! Z.to_nat (n_args - 1 - i) = Some i.
Proof using Hn. intros Hi. enumerate 5%nat n_args; try lia; enumerate 4%nat i; try lia; done. Qed.
End Arguments.

(** The padding makes the arguments take their room. *)
Definition padding (n_args : Z) : Z := arg_room n_args - 4 * n_args.

Section Call.
Context (s : asm_x86_t) (fun_id n_args temp : Z).
Context (Hn : 0 <= n_args <= 4) (Ht : reg32 temp) (Hid : 0 <= fun_id < 2 ^ 28).

Definition pad (m : machine) : machine :=
  if 0 <? padding n_args then effect (ALUI SUB 32 (Reg 4) (padding n_args)) m else m.
Definition pushed_args (m : machine) : machine := push_all false (arg_regs n_args) (pad m).

Lemma pad_blind : pc_blind pad.
Proof using. intros a m. unfold pad. by destruct (0 <? _). Qed.
Lemma push_all_blind rs : pc_blind (push_all false rs).
Proof using.
  induction rs as [|r rs IH]; [done|]. intros a m. simpl. by rewrite <- IH.
Qed.

Lemma x86_push_if_performs t (c : bool) r : reg32 r ->
  performs t (if c then asm_x86_push_r32 r else mret tt) (push_all false (if c then [r] else [])).
Proof using.
  intros Hr. destruct c; [by apply x86_push_r32_performs|apply performs_ret].
Qed.

Abbreviation pad_code := (if 0 <? padding n_args then asm_x86_sub_r32_i32 ASM_X86_REG_ESP (padding n_args) else mret tt).
Abbreviation push_code :=
  ((if 3 <? n_args then asm_x86_push_r32 ASM_X86_REG_ARG_4 else mret tt);;
   (if 2 <? n_args then asm_x86_push_r32 ASM_X86_REG_ARG_3 else mret tt);;
   (if 1 <? n_args then asm_x86_push_r32 ASM_X86_REG_ARG_2 else mret tt);;
   (if 0 <? n_args then asm_x86_push_r32 ASM_X86_REG_ARG_1 else mret tt)).
Abbreviation load_code := (asm_x86_mov_mem32_to_r32 ASM_X86_REG_FUN_TABLE (4 * fun_id) temp).
Abbreviation call_code := (asm_x86_write_byte_2 OPCODE_CALL_RM32 (MODRM_R32 2 .| MODRM_RM_REG .| MODRM_RM_R32 temp)).
Abbreviation release_code := (if 0 <? n_args then asm_x86_add_i32_to_r32 (arg_room n_args) ASM_X86_REG_ESP else mret tt).

Lemma x86_call_ind_eq : asm_x86_call_ind fun_id n_args temp s
  = ((((pad_code;; push_code);; load_code);; call_code);; release_code) s.
Proof using Hn Hid.
  unfold asm_x86_call_ind. rewrite assert_true by (apply leb_true; lia).
  replace (s32 (u32 (fun_id * WORD_SIZE))) with (4 * fun_id).
  2: { unfold WORD_SIZE. rewrite uw_small, (sw_small 32 eq_refl) by pow_lia. lia. }
  symmetry. clear Hid. enumerate 5%nat n_args; seq_assoc.
Qed.

Lemma x86_pushes_perform_args t : performs t push_code (push_all false (arg_regs n_args)).
Proof using.
  eapply performs_ext; [|eapply performs_seq; [by apply x86_push_if_performs|apply push_all_blind| |intros b3;
    eapply performs_seq; [by apply x86_push_if_performs|apply push_all_blind| |intros b2;
    eapply performs_seq; [by apply x86_push_if_performs|apply push_all_blind|apply push_all_blind|intros b1;
      by apply x86_push_if_performs]]]].
  - intros mc. unfold arg_regs, push_all. by rewrite !foldl_app.
  - intros a m. by rewrite !push_all_blind.
  - intros a m. by rewrite !push_all_blind.
Qed.

Lemma x86_args_perform : performs s (pad_code;; push_code) pushed_args.
Proof using Hn.
  apply (performs_seq s _ _ pad (push_all false (arg_regs n_args))); [|apply pad_blind|apply push_all_blind|intros bs; apply x86_pushes_perform_args].
  apply (performs_if _ s _ (effect (ALUI SUB 32 (Reg 4) (padding n_args)))). intros _.
  replace (effect (ALUI SUB 32 (Reg 4) (padding n_args))) with (effect (ALUI SUB 32 (Reg 4) (s32 (padding n_args))))
    by (rewrite (sw_small 32 eq_refl); [done|]; unfold padding, arg_room; destruct (0 <? n_args); pow_lia).
  by apply x86_sub_r32_i32_performs.
Qed.

Lemma x86_pushed_lowers mc : lowers false (arg_room n_args) mc (pushed_args mc).
Proof using Hn.
  pose proof (push_all_lowers false (arg_regs n_args) (pad mc)) as Hp.
  rewrite x86_arg_regs_length, Z2Nat.id in Hp by lia. change (wbytes false) with 4 in Hp.
  replace (arg_room n_args) with (padding n_args + 4 * n_args) by (unfold padding; lia).
  assert (0 <= padding n_args) as Hpad by (clear Hp; by enumerate 5%nat n_args).
  eapply lowers_trans; [exact Hpad|lia| |exact Hp].
  unfold pad. destruct (Z.ltb_spec 0 (padding n_args)); [apply moves_lowers, (sub_moves_sp false)|].
  replace (padding n_args) with 0 by lia. apply lowers_refl.
Qed.

(** The [i]-th argument is the [i]-th word from the stack pointer. *)
Lemma x86_pushed_arg mc i : 0 <= i < n_args ->
  load 32 4 (mem (pushed_args mc)) (sp (pushed_args mc) + 4 * i) = u32 (reg i mc).
Proof using Hn.
  intros Hi. pose proof (push_all_lowers false (arg_regs n_args) (pad mc)) as Hp.
  pose proof (x86_arg_regs_lookup n_args Hn i Hi) as Hl.
  assert (u32 (reg i mc) = u32 (reg i (pad mc))) as ->.
  { unfold pad. destruct (0 <? _); [|done].
    destruct (sub_moves_sp false (padding n_args) mc) as (Hr & _ & _). f_equal. symmetry. apply Hr; [unfold gpr|]; lia. }
  pose proof (push_all_saved false (arg_regs n_args) (pad mc) _ i (x86_arg_regs_gpr _ Hn) (x86_arg_regs_sp _ Hn) Hl) as Hs.
  rewrite x86_arg_regs_length, Z2Nat.id in * by lia. change (wbytes false) with 4 in *. change (word_width false) with 32 in *.
  rewrite <- Hs by (simpl; lia). apply load_cong; [done|].
  change (pushed_args mc) with (push_all false (arg_regs n_args) (pad mc)).
  apply lowers_sp in Hp. change (word_width false) with 32 in Hp.
  rewrite <- uw_add_l, Hp, uw_add_l by done. f_equal. unfold slot.
  rewrite Z2Nat.id by lia. change (wbytes false) with 4. lia.
Qed.

(** ** Calling *)

(** The word at [4 * fun_id] of the function table. *)
Definition table_slot (mc : machine) : Z := u32 (reg ASM_X86_REG_FUN_TABLE mc + 4 * fun_id).
Definition table_entry (mc : machine) : Z := u32 (load 32 4 (mem mc) (table_slot mc)).
(** It is not in the [room] bytes below the stack pointer. *)
Definition table_clear (room : Z) (mc : machine) : Prop := u32 (table_slot mc - sp mc) + 4 <= 2 ^ 32 - room.

(** The subroutine is entered with the arguments above the return address,
    which is [n] bytes further on. *)
Record called (n : Z) (mc mc1 : machine) : Prop := {
  called_pc : table_clear (arg_room n_args) mc -> pc mc1 = table_entry mc;
  called_sp : u32 (sp mc1) = u32 (sp mc - (arg_room n_args + 4));
  called_return : load 32 4 (mem mc1) (sp mc1) = u32 (pc mc + n);
  called_arg i : 0 <= i < n_args -> load 32 4 (mem mc1) (sp mc1 + (4 + 4 * i)) = u32 (reg i mc);
  called_reg r : gpr r -> r <> ASM_X86_REG_ESP -> r <> temp -> reg r mc1 = reg r mc;
  called_mem o : 0 <= o < 2 ^ 32 - (arg_room n_args + 4) ->
    peek 32 (mem mc1) (sp mc + o) = peek 32 (mem mc) (sp mc + o);
}.

Lemma arg_room_bounds : 4 * n_args <= arg_room n_args <= 16.
Proof using Hn. clear Hid. by enumerate 5%nat n_args. Qed.

Lemma x86_pushed_entry mc : table_clear (arg_room n_args) mc ->
  table_entry (pushed_args mc) = table_entry mc.
Proof using Hn.
  intros Hc. pose proof (x86_pushed_lowers mc) as Hl. pose proof arg_room_bounds.
  assert (table_slot (pushed_args mc) = table_slot mc) as E
    by (unfold table_slot; rewrite (lowers_reg _ _ _ _ Hl) by (unfold gpr; done); done).
  unfold table_entry. rewrite E. f_equal.
  assert (forall h, load 32 4 h (table_slot mc) = load 32 4 h (sp mc + u32 (table_slot mc - sp mc))) as Ea.
  { intros h. apply load_cong; [done|]. rewrite uw_add_r by done. f_equal. lia. }
  rewrite !Ea. pose proof (uw_range 32 eq_refl (table_slot mc - sp mc)).
  apply (lowers_load false _ _ _ 4 _ Hl); [lia|lia|exact Hc].
Qed.

Lemma x86_called mc a n : temp <> ASM_X86_REG_ESP ->
  let e := table_entry (pushed_args mc) in
  called n mc (set_pc e (push false (u32 (pc mc + n)) (set_pc a (set_reg temp e (pushed_args mc))))).
Proof using Hn.
  intros Hne e. set (ret := u32 (pc mc + n)). pose proof (x86_pushed_lowers mc) as Hl. pose proof arg_room_bounds.
  set (mb := set_pc a (set_reg temp e (pushed_args mc))).
  pose proof (push_lowers false ret mb) as Hp. pose proof (push_top false ret mb) as Htop.
  assert (sp mb = sp (pushed_args mc)) as Esp by (unfold mb, sp; by autorewrite with machine).
  change (wbytes false) with 4 in *. change (word_width false) with 32 in *. change (Z.to_nat 4) with 4%nat in *.
  pose proof (lowers_sp _ _ _ _ Hl) as Hs. pose proof (lowers_sp _ _ _ _ Hp) as Hps. rewrite Esp in Hps.
  change (word_width false) with 32 in *.
  constructor.
  - intros Hc. by rewrite <- x86_pushed_entry.
  - change (u32 (sp (push false ret mb)) = u32 (sp mc - (arg_room n_args + 4))).
    rewrite Hps, <- uw_sub_l, Hs, uw_sub_l by done. f_equal. lia.
  - rewrite <- (uw_uw 32) by done. exact Htop.
  - intros i Hi. rewrite <- x86_pushed_arg by done.
    transitivity (load 32 4 (mem (push false ret mb)) (sp mb + 4 * i)).
    + apply load_cong; [done|].
      change (sp (set_pc e (push false ret mb))) with (sp (push false ret mb)).
      rewrite <- uw_add_l, Hps, Esp, uw_add_l by done. f_equal. lia.
    + rewrite <- Esp. apply (lowers_load false 4 _ _ 4 _ Hp); change (word_width false) with 32; lia.
  - intros r Hg H4 Hr. change (reg r (push false ret mb) = reg r mc).
    rewrite (lowers_reg _ _ _ _ Hp) by done. unfold mb. rewrite reg_set_pc, reg_set_ne by done.
    by apply (lowers_reg _ _ _ _ Hl).
  - intros o Ho. change (peek 32 (mem (push false ret mb)) (sp mc + o) = peek 32 (mem mc) (sp mc + o)).
    rewrite <- (lowers_mem _ _ _ _ Hl) by (change (word_width false) with 32; lia).
    assert (forall h, peek 32 h (sp mc + o) = peek 32 h (sp mb + (o + arg_room n_args))) as E.
    { intros h. apply peek_cong. rewrite <- (uw_add_l 32 eq_refl (sp mb)), Esp, Hs, uw_add_l by done. f_equal. lia. }
    rewrite !E. apply (lowers_mem _ _ _ _ Hp); change (word_width false) with 32. lia.
Qed.

(** After the return the room of the arguments is released. *)
Record released (n : Z) (mc mc' : machine) : Prop := {
  released_pc : pc mc' = u32 (pc mc + n);
  released_sp : u32 (sp mc') = u32 (sp mc + arg_room n_args);
  released_reg r : gpr r -> r <> ASM_X86_REG_ESP -> reg r mc' = reg r mc;
  released_mem : mem mc' = mem mc;
}.

Lemma x86_release_implements t : implements t release_code released.
Proof using.
  destruct (0 <? n_args) eqn:E.
  - eapply implements_mono; [by apply x86_add_i32_to_r32_performs|]. intros n mc mc' ->.
    destruct (add_moves_sp false (s32 (arg_room n_args)) mc) as (Hr & Hs & Hm).
    constructor; [done| |done|done]. etransitivity; [exact (f_equal _ Hs)|]. rewrite uw_uw by done.
    unfold arg_room. by rewrite E.
  - eapply implements_mono; [apply performs_ret|]. intros n mc mc' ->.
    constructor; [done| |done|done]. unfold arg_room. by rewrite E, Z.add_0_r.
Qed.

Lemma x86_call_ind_implements : temp <> ASM_X86_REG_ESP ->
  implements_around s (asm_x86_call_ind fun_id n_args temp) called released.
Proof using Hn Ht Hid.
  intros Hne. eapply implements_around_ext; [exact x86_call_ind_eq|].
  apply implements_around_intro; [|intros bs; apply x86_release_implements].
  eapply implements_mono; [eapply performs_then; [eapply (performs_seq _ _ _ pushed_args (effect (MOV 32 (Reg temp) (Mem (Some ASM_X86_REG_FUN_TABLE) (s32 (4 * fun_id))))))|]|].
  - apply x86_args_perform.
  - intros a mc. unfold pushed_args. by rewrite pad_blind, push_all_blind.
  - by apply effect_blind.
  - intros bs. by apply x86_mov_mem32_to_r32_performs.
  - intros bs. eapply (assembles_implements _ _ _ (fun n mc mc' => mc' = set_pc (u32 (reg temp mc)) (push false (u32 (pc mc + n)) mc)));
      [by apply x86_call_reg_assembles|]. intros mc _. by eexists.
  - intros n mc mc' (n1 & n2 & -> & ->). rewrite (sw_small 32 eq_refl (4 * fun_id)) by pow_lia.
    assert (effect (MOV 32 (Reg temp) (Mem (Some ASM_X86_REG_FUN_TABLE) (4 * fun_id))) (pushed_args mc)
      = set_reg temp (table_entry (pushed_args mc)) (pushed_args mc)) as -> by done.
    rewrite reg_set_pc, reg_set_eq, pc_set_pc. unfold table_entry at 1. rewrite uw_uw by done.
    change addr_width with 32. rewrite uw_add_l by done.
    replace (pc mc + n1 + n2) with (pc mc + (n1 + n2)) by lia.
    exact (x86_called mc _ _ Hne).
Qed.
End Call.

(** ** The address of a label *)

(** [v] in register [r]; the stack is as before, down to the stack pointer. *)
Record address_in (r v n : Z) (mc mc' : machine) : Prop := {
  address_in_pc : pc mc' = u32 (pc mc + n);
  address_in_value : u32 (reg r mc') = u32 v;
  address_in_sp : u32 (sp mc') = u32 (sp mc);
  address_in_reg q : gpr q -> q <> ASM_X86_REG_ESP -> q <> r -> reg q mc' = reg q mc;
  address_in_mem o : 0 <= o < 2 ^ 32 - 4 -> peek 32 (mem mc') (sp mc + o) = peek 32 (mem mc) (sp mc + o);
}.

Section PcRel.
Context (s : asm_x86_t) (label dest r : Z) (Hlabel : label_at 16 s label dest) (Hr : reg32 r).
Hypothesis Hlive : suppress (base s) = false.
Abbreviation disp := (dest - code_offset (base s)).

Lemma x86_call_next_assembles : assembles s (asm_x86_write_byte_1 OPCODE_CALL_REL32;; asm_x86_write_word32 0) [(CALL 0, 5)].
Proof using.
  apply (decoded_assembles false s _ ([0xe8] ++ le_bytes 4 0)); [|apply parses_call32|simpl; lia].
  apply emits_seq; [apply x86_emits_byte_1|intros; apply x86_emits_word32].
Qed.

Lemma x86_mov_reg_pcrel_assembles : assembles s (asm_x86_mov_reg_pcrel r label)
  [(CALL 0, 5); (POP r, 1); (ALUI ADD 32 (Reg r) (disp - 5), 6)].
Proof using Hlabel Hr Hlive.
  pose proof (label_at_range _ _ _ _ Hlabel) as Hrange. unfold x86_limit in Hrange.
  eapply (assembles_ext _ _ ((asm_x86_write_byte_1 OPCODE_CALL_REL32;; asm_x86_write_word32 0);; _));
    [unfold asm_x86_mov_reg_pcrel; by rewrite bind_assoc|].
  apply (assembles_seq (H0 := X86_32) s _ _ [_]); [apply x86_call_next_assembles|]. intros bs Hd.
  pose proof (disasm_length _ _ Hd) as Hlen. change (code_len _) with 5 in Hlen.
  pose proof (x86_label_at_puts bs 16 s label dest Hlive ltac:(lia) Hlabel) as Hl'.
  eapply assembles_ext.
  { rewrite (x86_get_label_dest_at _ label dest); [reflexivity|]. by destruct Hl'; constructor; [..|lia]. }
  apply assembles_gets. cbv zeta.
  assert (code_offset (base (puts bs s)) = code_offset (base s) + 5) as ->.
  { change (base (puts bs s)) with (base_of (puts bs s)). rewrite base_of_puts, put_bytes_offset. simpl. rewrite Hlive. lia. }
  replace (disp - 5) with (s32 (s32 (dest - (code_offset (base s) + 5))))
    by (rewrite (sw_small 32 eq_refl (dest - _)), (sw_small 32 eq_refl) by lia; lia).
  apply (assembles_seq (H0 := X86_32) _ _ _ [_]); [by apply x86_pop_r32_assembles|]. intros cs _.
  by apply (x86_imm32_assembles _ r Hr _ 0 ADD).
Qed.

(** The return address pushed, then popped into the register. *)
Abbreviation mp mc := (push false (u32 (pc mc + 5)) mc).
Abbreviation mr mc := (pop_reg false r (mp mc)).
Abbreviation added mc := (effect (ALUI ADD 32 (Reg r) (disp - 5)) (mr mc)).

Lemma x86_pcrel_runs mc :
  exec_straight [(CALL 0, 5); (POP r, 1); (ALUI ADD 32 (Reg r) (disp - 5), 6)] mc
  = Some (set_pc (u32 (pc mc + 12)) (added mc)).
Proof using.
  etransitivity; [apply (exec_straight_cons (H := X86_32) _ _ _ _ (set_pc (u32 (pc mc + 5)) (mp mc)))|].
  { transitivity (Some (set_pc (u32 (u32 (pc mc + 5) + 0)) (mp mc))); [done|]. by rewrite Z.add_0_r, uw_uw by done. }
  { done. }
  etransitivity; [apply (exec_straight_cons (H := X86_32) _ _ _ _ (set_pc (u32 (pc mc + 6)) (mr mc)))|].
  { transitivity (Some (set_pc (u32 (u32 (pc mc + 5) + 1)) (mr mc))); [done|]. rewrite uw_add_l by done. by rewrite <- Z.add_assoc. }
  { cbn [pc set_pc]. change addr_width with 32. rewrite uw_add_l by done. by rewrite <- Z.add_assoc. }
  cbn [exec_straight exec X86_32 X86_isa]. rewrite (effect_exec false) by done. simpl.
  rewrite (effect_blind false), set_pc_set_pc by done. rewrite uw_add_l by done. by rewrite <- Z.add_assoc.
Qed.

Lemma gpr_not_flag q : gpr q -> q <> r -> q ∉ r :: flags.
Proof using.
  unfold gpr. intros Hg Hne. apply not_elem_of_cons. split; [done|].
  unfold flags, CF, ZF, SF, OF. repeat (apply not_elem_of_cons; split; [lia|]). apply not_elem_of_nil.
Qed.
Lemma x86_popped_value mc : reg r (mr mc) = u32 (pc mc + 5).
Proof using.
  unfold pop_reg. rewrite reg_set_eq. exact (eq_trans (push_top false _ mc) (uw_uw 32 eq_refl _)).
Qed.
Lemma x86_popped_sp mc : r <> ASM_X86_REG_ESP -> u32 (sp (mr mc)) = u32 (sp mc).
Proof using.
  intros H4. pose proof (lowers_sp _ _ _ _ (push_lowers false (u32 (pc mc + 5)) mc)) as Hs.
  change (word_width false) with 32 in Hs. change (wbytes false) with 4 in Hs.
  unfold sp, pop_reg, popped in *. rewrite reg_set_ne, reg_set_eq by done.
  change (W false / 8) with 4. change (W false) with 32.
  rewrite uw_uw by done. rewrite <- uw_add_l, Hs, uw_add_l by done. f_equal. lia.
Qed.

Lemma x86_mov_reg_pcrel_implements : r <> ASM_X86_REG_ESP ->
  implements s (asm_x86_mov_reg_pcrel r label) (fun n mc => address_in r (pc mc + disp) n mc).
Proof using Hlabel Hr Hlive.
  intros H4. eapply assembles_implements; [exact x86_mov_reg_pcrel_assembles|]. intros mc _.
  exists (set_pc (u32 (pc mc + 12)) (added mc)). split; [apply x86_pcrel_runs|].
  destruct (add_imm_writes false r (disp - 5) (mr mc)) as [Ev [Hreg Hmem]].
  change (word_width false) with 32 in *. pose proof (push_lowers false (u32 (pc mc + 5)) mc) as Hl.
  constructor; change (reg ?q (set_pc _ ?m)) with (reg q m); change (sp (set_pc _ ?m)) with (sp m);
    change (mem (set_pc _ ?m)) with (mem m).
  - done.
  - rewrite Ev, x86_popped_value, uw_add_l by done. f_equal. lia.
  - unfold sp at 1. rewrite Hreg by (apply gpr_not_flag; [by split|done]). by apply x86_popped_sp.
  - intros q Hg ? ?. rewrite Hreg by (by apply gpr_not_flag). unfold pop_reg, popped.
    rewrite !reg_set_ne by done. by apply (lowers_reg _ _ _ _ Hl).
  - intros o Ho. rewrite Hmem. by apply (lowers_mem _ _ _ _ Hl).
Qed.
End PcRel.
