(* ===== verification/AsmX86Spec.v ===== *)
(** * AsmX86Spec: what asmx86.c promises the native emitter

    The theorems of the IA-32 back end: the frame of a function, jumps and the
    addresses of labels, memory and locals, arithmetic, calls and their
    arguments, with concrete instances. *)

From S2P Require Import Prelude AsmBase TwoPass AsmBaseSpec Machine Emission.
From S2P Require Import X86Isa X86Encode X86Effect X86Stack X86Arith X86Jump.
From S2P Require Import AsmX86 AsmX86Pass AsmX86Instr AsmX86Frame AsmX86Jump AsmX86Call.

Set Default Goal Selector "!".

#[local] Existing Instance SizeT_32.
#[local] Hint Extern 0 Isa => exact X86_32 : typeclass_instances.

(** ** Arithmetic *)

Section Arithmetic.
Context (s : asm_x86_t) (dest src : Z) (Hd : reg32 dest) (Hs : reg32 src).

Ltac by_binary H := eapply (binary_computes false dest src); [|exact H]; subst; by in_list.
Ltac by_unary H := eapply (unary_computes false dest); [|exact H]; subst; by in_list.

(** The two-operand instructions and what they compute. *)
Definition x86_binary : list ((Z -> Z -> M asm_x86_t unit) * (Z -> Z -> Z)) :=
  [(asm_x86_add_r32_r32, Z.add); (asm_x86_sub_r32_r32, Z.sub); (asm_x86_and_r32_r32, Z.land);
   (asm_x86_or_r32_r32, Z.lor); (asm_x86_xor_r32_r32, Z.lxor); (asm_x86_mul_r32_r32, Z.mul)].
Lemma x86_binary_computes op f : In (op, f) x86_binary ->
  implements s (op dest src) (computes false dest (fun mc => f (reg dest mc) (reg src mc))).
Proof using Hd Hs.
  intros Hin. repeat destruct Hin as [[= <- Ef] | Hin]; [..|done].
  - by_binary (x86_add_r32_r32_performs s dest src Hd Hs).
  - by_binary (x86_sub_r32_r32_performs s dest src Hd Hs).
  - by_binary (x86_and_r32_r32_performs s dest src Hd Hs).
  - by_binary (x86_or_r32_r32_performs s dest src Hd Hs).
  - by_binary (x86_xor_r32_r32_performs s dest src Hd Hs).
  - by_binary (x86_mul_r32_r32_performs s dest src Hd Hs).
Qed.

(** One operand; the shifts are by the low five bits of ECX. *)
Definition x86_unary : list ((Z -> M asm_x86_t unit) * (Z -> Z -> Z)) :=
  [(asm_x86_not_r32, fun a _ => Z.lnot a); (asm_x86_neg_r32, fun a _ => - a);
   (asm_x86_shl_r32_cl, fun a n => a << n); (asm_x86_shr_r32_cl, fun a n => u32 a >> n);
   (asm_x86_sar_r32_cl, fun a n => s32 a >> n)].
Lemma x86_unary_computes op f : In (op, f) x86_unary ->
  implements s (op dest) (computes false dest (fun mc => f (reg dest mc) (reg ASM_X86_REG_ECX mc .& 31))).
Proof using Hd.
  intros Hin. repeat destruct Hin as [[= <- Ef] | Hin]; [..|done].
  - by_unary (x86_not_r32_performs s dest Hd).
  - by_unary (x86_neg_r32_performs s dest Hd).
  - by_unary (x86_shl_r32_performs s dest Hd).
  - by_unary (x86_shr_r32_performs s dest Hd).
  - by_unary (x86_sar_r32_performs s dest Hd).
Qed.
End Arithmetic.

(** ** Memory *)

(** The accesses of [n] bytes. *)
Definition x86_load (n : nat) : Z -> Z -> Z -> M asm_x86_t unit :=
  match n with
  | 1%nat => asm_x86_mov_mem8_to_r32zx | 2%nat => asm_x86_mov_mem16_to_r32zx
  | _ => asm_x86_mov_mem32_to_r32
  end.
Definition x86_store (n : nat) : Z -> Z -> Z -> M asm_x86_t unit :=
  match n with
  | 1%nat => asm_x86_mov_r8_to_mem8 | 2%nat => asm_x86_mov_r16_to_mem16
  | _ => asm_x86_mov_r32_to_mem32
  end.
(** There is no byte register for ESP, EBP, ESI and EDI: the second byte of
    EAX, ECX, EDX or EBX is stored. *)
Definition stored_value (n : nat) (x : Z) (mc : machine) : Z :=
  if (n =? 1)%nat && (4 <=? x) then bits (reg (x - 4) mc) 8 8 else uw (8 * Z.of_nat n) (reg x mc).

Section Memory.
Context (s : asm_x86_t) (x y d : Z) (Hx : reg32 x) (Hy : reg32 y).
Definition at_disp (mc : machine) : Z := u32 (reg y mc + s32 d).

Lemma x86_load_performs n : In n [1; 2; 4]%nat ->
  performs s (x86_load n y d x)
    (fun mc => set_reg x (u32 (load 32 n (mem mc) (at_disp mc))) mc).
Proof using Hx Hy.
  intros Hn. repeat destruct Hn as [<- | Hn]; [..|done].
  - eapply performs_ext; [|by apply x86_mov_mem8_to_r32zx_performs]. done.
  - eapply performs_ext; [|by apply x86_mov_mem16_to_r32zx_performs]. done.
  - eapply performs_ext; [|by apply x86_mov_mem32_to_r32_performs]. done.
Qed.

Lemma x86_store_performs n : In n [1; 2; 4]%nat ->
  performs s (x86_store n x y d)
    (fun mc => set_mem (store 32 n (mem mc) (at_disp mc) (stored_value n x mc)) mc).
Proof using Hx Hy.
  intros Hn. repeat destruct Hn as [<- | Hn]; [..|done].
  - eapply performs_ext; [|by apply x86_mov_r8_to_mem8_performs]. intros mc.
    unfold stored_value. simpl ((1 =? 1)%nat).
    destruct (Z.leb_spec 4 x); simpl; rewrite ?ltb_true, ?ltb_false by lia; done.
  - eapply performs_ext; [|by apply x86_mov_r16_to_mem16_performs]. done.
  - eapply performs_ext; [|by apply x86_mov_r32_to_mem32_performs]. done.
Qed.

Lemma x86_lea_disp_performs :
  performs s (asm_x86_lea_disp_to_r32 y d x) (fun mc => set_reg x (at_disp mc) mc).
Proof using Hx Hy.
  eapply performs_ext; [|by apply x86_lea_performs]. intros mc. unfold effect. simpl.
  unfold set_pc, set_reg, at_disp. simpl. by rewrite uw_uw.
Qed.
End Memory.

(** ** Locals and arguments *)

Section Locals.
Context (s : asm_x86_t) (r local : Z) (Hr : reg32 r) (Hlocal : 0 <= local < 2 ^ 28).
Definition local_address (mc : machine) : Z := u32 (reg ASM_X86_REG_ESP mc + 4 * local).

Lemma x86_local_offset : s32 (asm_x86_local_offset_from_esp local) = 4 * local.
Proof using Hlocal.
  unfold asm_x86_local_offset_from_esp, WORD_SIZE. rewrite (Z.mul_comm local).
  by rewrite !(sw_small 32 eq_refl (4 * local)) by pow_lia.
Qed.
Lemma x86_at_local mc : at_disp ASM_X86_REG_ESP (asm_x86_local_offset_from_esp local) mc = local_address mc.
Proof using Hlocal. unfold at_disp. by rewrite x86_local_offset. Qed.

Lemma x86_mov_local_to_r32_performs : performs s (asm_x86_mov_local_to_r32 local r)
  (fun mc => set_reg r (u32 (load 32 4 (mem mc) (local_address mc))) mc).
Proof using Hr Hlocal.
  eapply performs_ext; [|apply (x86_load_performs s r ASM_X86_REG_ESP _ Hr ltac:(by split) 4); simpl; tauto].
  intros mc. cbn beta. by rewrite x86_at_local.
Qed.
Lemma x86_mov_r32_to_local_performs : performs s (asm_x86_mov_r32_to_local r local)
  (fun mc => set_mem (store 32 4 (mem mc) (local_address mc) (u32 (reg r mc))) mc).
Proof using Hr Hlocal.
  eapply performs_ext; [|apply (x86_store_performs s r ASM_X86_REG_ESP _ Hr ltac:(by split) 4); simpl; tauto].
  intros mc. cbn beta. by rewrite x86_at_local.
Qed.
Lemma x86_mov_local_addr_performs : performs s (asm_x86_mov_local_addr_to_r32 local r)
  (fun mc => set_reg r (local_address mc) mc).
Proof using Hr Hlocal.
  unfold asm_x86_mov_local_addr_to_r32. cbv zeta.
  destruct (Z.eqb_spec (asm_x86_local_offset_from_esp local) 0) as [E|_].
  - eapply performs_ext; [|by apply x86_mov_r32_r32_performs]. intros mc.
    pose proof x86_local_offset as El. rewrite E in El. change (s32 0) with 0 in El.
    unfold local_address. rewrite <- El, Z.add_0_r. unfold effect. simpl.
    unfold set_pc, set_reg. simpl. by rewrite uw_uw.
  - eapply performs_ext; [|by apply x86_lea_disp_performs]. intros mc. cbn beta. by rewrite x86_at_local.
Qed.

(** Storing a local keeps the frame. *)
Lemma x86_store_local_keeps_frame v mc n : local < n -> 0 <= n < 2 ^ 28 ->
  body_keeps_frame false x86_saved (4 * n) mc (set_mem (store 32 4 (mem mc) (local_address mc) v) mc).
Proof using Hlocal.
  intros Hl Hn. split; [done|]. intros o Ho. cbn [mem set_mem]. change (word_width false) with 32.
  rewrite peek_store by pow_lia. rewrite ltb_false; [done|].
  unfold local_address. rewrite uw_sub_r by done.
  change (wbytes false * Z.of_nat (length x86_saved)) with 16 in Ho. change (wbytes false) with 4 in Ho.
  replace (sp mc + o - (reg ASM_X86_REG_ESP mc + 4 * local)) with (o - 4 * local) by (unfold sp, ASM_X86_REG_ESP; lia).
  rewrite uw_small by pow_lia. lia.
Qed.
End Locals.

Section Arguments.
Context (s : asm_x86_t) (locals r arg : Z) (Hl : 0 <= locals < 2 ^ 28) (Hr : reg32 r) (Harg : 0 <= arg < 2 ^ 8).
Abbreviation room := (4 * x86_locals locals).

(** The word above the locals, the saved registers and the return address. *)
Definition argument (mc : machine) : Z :=
  u32 (load 32 4 (mem mc) (u32 (reg ASM_X86_REG_ESP mc + (room + 20 + 4 * arg)))).

Lemma x86_mov_arg_to_r32_performs : num_locals s = x86_locals locals ->
  performs s (asm_x86_mov_arg_to_r32 arg r) (fun mc => set_reg r (argument mc) mc).
Proof using Hl Hr Harg.
  intros Hn. pose proof (x86_locals_bounds locals Hl) as [Hb _].
  eapply (implements_ext _ _ (x86_load 4 ASM_X86_REG_ESP (s32 (u32 ((num_locals s + 4 + 1 + u32 arg) * WORD_SIZE))) r)); [done|].
  eapply performs_ext; [|apply (x86_load_performs s r ASM_X86_REG_ESP _ Hr ltac:(by split) 4); simpl; tauto].
  intros mc. cbn beta. unfold argument, at_disp. do 4 f_equal. rewrite Hn, (uw_small 32 arg) by pow_lia.
  unfold WORD_SIZE. rewrite (uw_small 32 ((x86_locals locals + 4 + 1 + arg) * 4)) by pow_lia.
  rewrite !(sw_small 32 eq_refl ((x86_locals locals + 4 + 1 + arg) * 4)) by pow_lia. lia.
Qed.

(** In the frame of a function it is the word the caller left above the return
    address. *)
Lemma x86_argument_entered mc m1 : frame_entered false x86_saved room mc m1 ->
  argument m1 = u32 (load 32 4 (mem mc) (reg ASM_X86_REG_ESP mc + (4 + 4 * arg))).
Proof using Hl Harg.
  intros [Hlow _]. pose proof (x86_locals_bounds locals Hl) as [Hb _].
  change (wbytes false * Z.of_nat (length x86_saved)) with 16 in Hlow.
  unfold argument. f_equal. rewrite <- (lowers_load false _ _ _ 4 _ Hlow) by (simpl; lia).
  apply load_cong; [done|]. rewrite uw_uw by done. apply lowers_sp in Hlow.
  change (word_width false) with 32 in Hlow. unfold sp in Hlow.
  change (reg ASM_X86_REG_ESP) with (reg 4). rewrite <- uw_add_l, Hlow, uw_add_l by done. f_equal. unfold sp. lia.
Qed.
End Arguments.

(** A multiple of 16 up to wrap-around. *)
Lemma u32_mod16 x : u32 x mod 16 = x mod 16.
Proof. unfold uw. apply Z.mod_mod_divide. by exists (2 ^ 28). Qed.

(** ** Concrete instances *)

(** Labels at 0, 100 and 2000, the code being at 40. *)
Definition example_x86 : asm_x86_t :=
  mk_asm_x86 (mk_asm_base MP_ASM_PASS_COMPUTE false 40 0 0 [] 3 [0; 100; 2000]) 3.
Lemma x86_example_label_at room : room <= 16 -> label_at room example_x86 2 2000.
Proof. intros. constructor; [done|done|]. unfold x86_limit. simpl. lia. Qed.

(** ** The theorems *)

(** C20: the frame of an IA-32 function.  Entry and exit implement the frame:
    EBP, EBX, ESI and EDI are saved above a number of locals that is three more
    than a multiple of four; for a body that restores the stack pointer and
    leaves the saved registers and the return address alone, the exit returns
    to the caller with the stack pointer above the return address and every
    saved register as it was.  A stack pointer that a call left 4 bytes below
    a 16-byte boundary is on one after the entry. *)
Theorem x86_function_frame s locals : 0 <= locals < 2 ^ 28 ->
  implements_to s (set_num_locals (x86_locals locals) s) (asm_x86_entry locals)
    (fun n mc m1 => pc m1 = u32 (pc mc + n) /\ frame_entered false x86_saved (4 * x86_locals locals) mc m1)
  /\ (forall t, num_locals t = x86_locals locals ->
        implements t asm_x86_exit (fun _ => frame_left false x86_saved (4 * x86_locals locals)))
  /\ (forall mc m1 mb m2, frame_entered false x86_saved (4 * x86_locals locals) mc m1 ->
        body_keeps_frame false x86_saved (4 * x86_locals locals) m1 mb ->
        frame_left false x86_saved (4 * x86_locals locals) mb m2 ->
        (forall r, r ∈ x86_saved -> reg r m2 = u32 (reg r mc))
        /\ u32 (reg ASM_X86_REG_ESP m2) = u32 (reg ASM_X86_REG_ESP mc + 4)
        /\ pc m2 = load 32 4 (mem mc) (reg ASM_X86_REG_ESP mc))
  /\ (forall mc m1, frame_entered false x86_saved (4 * x86_locals locals) mc m1 ->
        (reg ASM_X86_REG_ESP mc + 4) mod 16 = 0 -> u32 (reg ASM_X86_REG_ESP m1) mod 16 = 0).
Proof.
  intros Hl. pose proof (x86_frame_fits locals Hl) as [Hn Hfit].
  split; [by apply x86_entry_implements|]. split; [by apply x86_exit_implements|]. split.
  - intros mc m1 mb m2. by apply (x86_frame_roundtrip false x86_saved _ Hn Hfit).
  - intros mc m1 [Hlow _] Hm. change (uw (word_width false) (sp m1) mod 16 = 0).
    rewrite (lowers_sp _ _ _ _ Hlow). change (wbytes false * Z.of_nat (length x86_saved)) with 16.
    pose proof (x86_locals_bounds locals Hl) as [_ Ho]. change (word_width false) with 32.
    rewrite u32_mod16. unfold sp. change (reg ASM_X86_REG_ESP mc) with (reg 4 mc) in Hm.
    clear -Hm Ho. Z.to_euclidean_division_equations. lia.
Qed.

Lemma x86_function_frame_witness : exists P,
  implements_to example_x86 (set_num_locals 7 example_x86) (asm_x86_entry 4) P.
Proof. eexists. apply (x86_function_frame example_x86 4). lia. Defined.

(** C22: IA-32 jumps and addresses.  Running the code of a jump, in the short or
    the long encoding, transfers control by the distance between the label's
    offset and the code's; a conditional jump of the generic API does so
    exactly when the register is zero (in its low byte for a boolean), is not
    zero, or equals the other, falls through otherwise, and changes only the
    flags.  The address of a label, taken from the return address of a call to
    the next instruction, is that of the code plus the same distance. *)
Theorem x86_jumps s label dest : label_at 16 s label dest -> suppress (base s) = false ->
  let d := dest - code_offset (base s) in
  implements s (GenericApi.ASM_JUMP label) (fun n mc mc' => mc' = set_pc (u32 (pc mc + d)) mc)
  /\ (forall r bool_test, reg32 r -> (bool_test = true -> r < 4) ->
        implements s (GenericApi.ASM_JUMP_IF_REG_ZERO r label bool_test)
          (branches_if false (is_zero false bool_test r) d)
        /\ implements s (GenericApi.ASM_JUMP_IF_REG_NONZERO r label bool_test)
          (branches_if false (fun mc => negb (is_zero false bool_test r mc)) d))
  /\ (forall r1 r2, reg32 r1 -> reg32 r2 -> implements s (GenericApi.ASM_JUMP_IF_REG_EQ r1 r2 label)
        (branches_if false (fun mc => u32 (reg r1 mc) =? u32 (reg r2 mc)) d))
  /\ (forall r, reg32 r -> r <> ASM_X86_REG_ESP -> implements s (GenericApi.ASM_MOV_REG_PCREL r label)
        (fun n mc => address_in r (pc mc + d) n mc)).
Proof.
  intros Hl Hs d. split; [|split; [|split]].
  - apply x86_jmp_label_implements. destruct Hl as [? ? ?]. constructor; [done..|lia].
  - intros r bool_test Hr H4. split; [by apply x86_jump_if_reg_zero_implements|by apply x86_jump_if_reg_nonzero_implements].
  - intros r1 r2 H1 H2. by apply x86_jump_if_reg_eq_implements.
  - intros r Hr H4. by apply x86_mov_reg_pcrel_implements.
Qed.

Lemma x86_jumps_witness : implements example_x86 (GenericApi.ASM_MOV_REG_PCREL 3 2)
  (fun n mc => address_in 3 (pc mc + 1960) n mc).
Proof.
  destruct (x86_jumps example_x86 2 2000) as (_ & _ & _ & E); [by apply x86_example_label_at|done|].
  apply (E 3); [by split|done].
Defined.

(** C23: IA-32 memory.  An access of 1, 2 or 4 bytes reads or writes exactly the
    bytes at the base register plus the displacement, in each of the encodings
    of the displacement; a load clears the rest of the destination, and a byte
    store of ESP, EBP, ESI or EDI writes the second byte of EAX, ECX, EDX or
    EBX.  Local [i] is the word at ESP plus [4 * i]: it is loaded, stored and
    its address taken; storing one of the locals the entry made room for keeps
    the frame. *)
Theorem x86_loads_stores s x y d : reg32 x -> reg32 y ->
  (forall n, In n [1; 2; 4]%nat ->
     performs s (x86_load n y d x) (fun mc =>
       set_reg x (u32 (load 32 n (mem mc) (u32 (reg y mc + s32 d)))) mc)
     /\ performs s (x86_store n x y d) (fun mc =>
       set_mem (store 32 n (mem mc) (u32 (reg y mc + s32 d)) (stored_value n x mc)) mc))
  /\ (forall local n, 0 <= local < 2 ^ 28 ->
     performs s (asm_x86_mov_local_to_r32 local x)
       (fun mc => set_reg x (u32 (load 32 4 (mem mc) (local_address local mc))) mc)
     /\ performs s (asm_x86_mov_local_addr_to_r32 local x) (fun mc => set_reg x (local_address local mc) mc)
     /\ implements s (asm_x86_mov_r32_to_local x local) (fun len mc mc' =>
          mc' = set_pc (u32 (pc mc + len)) (set_mem (store 32 4 (mem mc) (local_address local mc) (u32 (reg x mc))) mc)
          /\ (local < n < 2 ^ 28 -> body_keeps_frame false x86_saved (4 * n) mc mc'))).
Proof.
  intros Hx Hy. split; [intros n Hn; split; [by apply x86_load_performs|by apply x86_store_performs]|].
  intros local n Hl. split; [by apply x86_mov_local_to_r32_performs|]. split; [by apply x86_mov_local_addr_performs|].
  eapply implements_mono; [by apply x86_mov_r32_to_local_performs|]. intros len mc mc' ->. split; [done|].
  intros Hn. apply (x86_store_local_keeps_frame local Hl (u32 (reg x mc)) mc n); lia.
Qed.

Lemma x86_loads_stores_witness : exists f, performs example_x86 (asm_x86_mov_r8_to_mem8 7 4 (-200)) f.
Proof.
  destruct (x86_loads_stores example_x86 7 4 (-200)) as [E _]; [by split|by split|].
  destruct (E 1%nat) as [_ Es]; [simpl; auto|]. eexists. exact Es.
Defined.

(** C24: IA-32 arithmetic.  Addition, subtraction, the bitwise operations, the
    product, complement, negation and the three shifts by CL leave the result
    of the operation on 32-bit words in the destination; the shifts take the
    low five bits of the count. *)
Theorem x86_arithmetic s dest src : reg32 dest -> reg32 src ->
  (forall op f, In (op, f) x86_binary ->
     implements s (op dest src) (computes false dest (fun mc => f (reg dest mc) (reg src mc))))
  /\ (forall op f, In (op, f) x86_unary ->
     implements s (op dest) (computes false dest (fun mc => f (reg dest mc) (reg ASM_X86_REG_ECX mc .& 31)))).
Proof. intros. split; intros; [by apply x86_binary_computes|by apply x86_unary_computes]. Qed.

Lemma x86_arithmetic_witness : exists P, implements example_x86 (asm_x86_mul_r32_r32 6 3) P.
Proof. eexists. apply (x86_arithmetic example_x86 6 3); [by split|by split|simpl; tauto]. Defined.

(** C21: IA-32 calls and arguments.  A call enters the subroutine of the
    function table with the return address on top of the stack and the
    arguments above it, the stack pointer as aligned as it was, and releases
    their room on return; in a function that this back end has entered,
    argument [i] is loaded from exactly the word where the caller put the
    [i]-th argument register. *)
Theorem x86_calls_pass_arguments s idx n_args : 0 <= idx < 2 ^ 28 -> 0 <= n_args <= 4 ->
  implements_around s (GenericApi.ASM_CALL_IND idx n_args) (called idx n_args ASM_X86_REG_EAX) (released n_args)
  /\ (forall n mc mc1, called idx n_args ASM_X86_REG_EAX n mc mc1 ->
        u32 (reg ASM_X86_REG_ESP mc) mod 16 = 0 -> (reg ASM_X86_REG_ESP mc1 + 4) mod 16 = 0)
  /\ (forall locals arg r t, 0 <= locals < 2 ^ 28 -> 0 <= arg < n_args -> reg32 r ->
        num_locals t = x86_locals locals -> exists value,
        performs t (asm_x86_mov_arg_to_r32 arg r) (fun mc => set_reg r (value mc) mc)
        /\ forall n mc mc1 m1, called idx n_args ASM_X86_REG_EAX n mc mc1 ->
             frame_entered false x86_saved (4 * x86_locals locals) mc1 m1 ->
             value m1 = u32 (reg (ASM_X86_REG_ARG_1 + arg) mc)).
Proof.
  intros Hi Hn. split; [by apply x86_call_ind_implements|]. split.
  - intros n mc mc1 Hc Hm. pose proof (called_sp _ _ _ _ _ _ Hc) as Hs.
    pose proof (u32_mod16 (sp mc1)) as E1. pose proof (u32_mod16 (sp mc - (arg_room n_args + 4))) as E2.
    rewrite Hs in E1. rewrite u32_mod16 in Hm.
    change (reg ASM_X86_REG_ESP) with sp in *. unfold arg_room in *.
    clear -E1 E2 Hm. destruct (0 <? n_args); Z.to_euclidean_division_equations; lia.
  - intros locals arg r t Hl Ha Hr Ht. exists (argument locals arg). split.
    { apply x86_mov_arg_to_r32_performs; [done|done|lia|done]. }
    intros n mc mc1 m1 Hc Hf. rewrite (x86_argument_entered locals arg Hl ltac:(lia) mc1 m1 Hf).
    change (reg ASM_X86_REG_ESP) with sp. rewrite (called_arg _ _ _ _ _ _ Hc arg Ha). by rewrite uw_uw.
Qed.

Lemma x86_calls_pass_arguments_witness : exists P Q,
  implements_around example_x86 (GenericApi.ASM_CALL_IND 30 3) P Q.
Proof. eexists _, _. apply (x86_calls_pass_arguments example_x86 30 3); lia. Defined.
