(* ===== verification/ArmIsa.v ===== *)
(** * ArmIsa: the instruction sets asmarm and asmthumb target

    The operations of A32 and Thumb that the back ends emit, and decoders for
    both.  The encodings follow a32.decode, t16.decode and t32.decode in
    bank/QEMU-Targets/arm/tcg, the effects translate.c (from ARMv5 on, where a
    load to PC selects the instruction set); what the back ends do not emit is
    not decoded ([None]).  Memory is flat, and the alignment checks of loads
    and stores are left out. *)

From S2P Require Import Prelude Machine.

Set Default Goal Selector "!".

Inductive shift := LSL | LSR | ASR.
(** A constant, a register shifted left by a constant, or one shifted by the
    low byte of another. *)
Inductive operand :=
| Imm (v : Z)
| Shifted (rm n : Z)
| ShiftedBy (sh : shift) (rm rs : Z).
Inductive offset := OffImm (v : Z) | OffReg (rm n : Z).
(** The width of an access, in bytes. *)
Inductive size := Byte | Half | Word.
#[export] Instance size_eq_decision : EqDecision size.
Proof. solve_decision. Defined.
Inductive dp := AND | EOR | SUB | RSB | ADD | ORR.
(** [s]: the flags are set. *)
Inductive arm_op :=
| DP (s : bool) (op : dp) (rd rn : Z) (o : operand)
| MOV (s : bool) (rd : Z) (o : operand)
| MVN (s : bool) (rd : Z) (o : operand)
| CMP (rn : Z) (o : operand)
| MUL (s : bool) (rd rn rm : Z)
| MOVT (rd imm : Z)
| SXTH (rd rm : Z)
| LDR (sz : size) (rt rn : Z) (off : offset)
| STR (sz : size) (rt rn : Z) (off : offset)
| PUSH (list : Z)
| POP (list : Z)
| B (off : Z)
| BX (rm : Z)
| BLX (rm : Z)
| NOP.
(** Every instruction has a condition. *)
Definition arm_instr : Type := Z * arm_op.

(** ** A32 *)

Definition dp_of (opcode : Z) : option dp :=
  match opcode with
  | 0 => Some AND | 1 => Some EOR | 2 => Some SUB | 3 => Some RSB | 4 => Some ADD | 12 => Some ORR
  | _ => None
  end.
Definition shift_of (ty : Z) : option shift :=
  match ty with 0 => Some LSL | 1 => Some LSR | 2 => Some ASR | _ => None end.
Definition ror32 (v n : Z) : Z := u32 ((v >> n) .| (v << (32 - n))).

Section Decode.
Context (w : Z).
Abbreviation rd := (bits w 12 4).
Abbreviation rn := (bits w 16 4).
Abbreviation rm := (bits w 0 4).

(** Data processing; the flags are set by comparisons only. *)
Definition decode_dp (o : operand) : option arm_op :=
  let opcode := bits w 21 4 in
  if bits w 20 1 =? 0 then
    if opcode =? 13 then if rn =? 0 then Some (MOV false rd o) else None
    else if opcode =? 15 then if rn =? 0 then Some (MVN false rd o) else None
    else (fun op => DP false op rd rn o) <$> dp_of opcode
  else if opcode =? 10 then if rd =? 0 then Some (CMP rn o) else None
  else None.

(** Pre-indexed, without write-back. *)
Definition decode_ldst (sz : size) (off : offset) : option arm_op :=
  if (bits w 24 1 =? 1) && (bits w 21 1 =? 0) then
    if bits w 20 1 =? 0 then Some (STR sz rd rn off) else Some (LDR sz rd rn off)
  else None.
Definition signed (v : Z) : Z := if bits w 23 1 =? 0 then - v else v.
Definition decode_half : option arm_op :=
  if bits w 22 1 =? 0 then
    if (bits w 23 1 =? 1) && (bits w 8 4 =? 0) then decode_ldst Half (OffReg rm 0) else None
  else decode_ldst Half (OffImm (signed ((bits w 8 4 << 4) .| bits w 0 4))).

Definition decode_register : option arm_op :=
  if bits w 4 4 =? 9 then
    if (bits w 20 5 =? 0) && (rd =? 0) then Some (MUL false rn rm (bits w 8 4)) else None
  else if bits w 4 4 =? 11 then decode_half
  else if bits w 4 1 =? 0 then
    if bits w 5 2 =? 0 then decode_dp (Shifted rm (bits w 7 5)) else None
  else if bits w 7 1 =? 0 then
    if (bits w 20 8 =? 0x12) && (bits w 4 16 =? 0xfff1) then Some (BX rm)
    else if (bits w 20 8 =? 0x12) && (bits w 4 16 =? 0xfff3) then Some (BLX rm)
    else sh ← shift_of (bits w 5 2); decode_dp (ShiftedBy sh rm (bits w 8 4))
  else None.

Definition decode_ldst_wb (off : offset) : option arm_op :=
  if bits w 22 1 =? 0 then decode_ldst Word off else decode_ldst Byte off.
Definition decode_op : option arm_op :=
  let group := bits w 25 3 in
  if group =? 0 then decode_register
  else if group =? 1 then decode_dp (Imm (ror32 (bits w 0 8) (2 * bits w 8 4)))
  else if group =? 2 then decode_ldst_wb (OffImm (signed (bits w 0 12)))
  else if group =? 3 then
    if (bits w 4 3 =? 0) && (bits w 23 1 =? 1) then decode_ldst_wb (OffReg rm (bits w 7 5)) else None
  else if group =? 4 then
    if bits w 16 12 =? 0x92d then Some (PUSH (bits w 0 16))
    else if bits w 16 12 =? 0x8bd then Some (POP (bits w 0 16))
    else None
  else if group =? 5 then
    if bits w 24 1 =? 0 then Some (B (sw 26 (bits w 0 24 << 2))) else None
  else None.

(** The condition 15 is another instruction space. *)
Definition decode_word : option arm_instr :=
  let cc := bits w 28 4 in
  if cc =? 15 then None else (fun op => (cc, op)) <$> decode_op.
End Decode.

Definition arm_decode (bs : list Z) : option (arm_instr * Z) :=
  match bs with
  | b0 :: b1 :: b2 :: b3 :: _ => (fun i => (i, 4)) <$> decode_word (le_word [b0; b1; b2; b3])
  | _ => None
  end.

Lemma arm_decode_app bs rest i n : arm_decode bs = Some (i, n) -> arm_decode (bs ++ rest) = Some (i, n).
Proof. destruct bs as [|b0 [|b1 [|b2 [|b3 bs]]]]; done. Qed.

(** ** Thumb *)

Section DecodeThumb.
Context (h : Z).
Abbreviation rd := (bits h 0 3).
Abbreviation rn := (bits h 3 3).
Abbreviation rm := (bits h 6 3).
Abbreviation rd8 := (bits h 8 3).
Abbreviation imm8 := (bits h 0 8).

Definition access_op (l : Z) : size -> Z -> Z -> offset -> arm_op := if l =? 0 then STR else LDR.

(** Two low registers. *)
Definition decode_alu : option arm_op :=
  match bits h 6 4 with
  | 0 => Some (DP true AND rd rd (Shifted rn 0))
  | 1 => Some (DP true EOR rd rd (Shifted rn 0))
  | 2 => Some (MOV true rd (ShiftedBy LSL rd rn))
  | 3 => Some (MOV true rd (ShiftedBy LSR rd rn))
  | 4 => Some (MOV true rd (ShiftedBy ASR rd rn))
  | 9 => Some (DP true RSB rd rn (Imm 0))
  | 10 => Some (CMP rd (Shifted rn 0))
  | 12 => Some (DP true ORR rd rd (Shifted rn 0))
  | 13 => Some (MUL true rd rn rd)
  | 15 => Some (MVN true rd (Shifted rn 0))
  | _ => None
  end.
(** High registers. *)
Definition decode_high : option arm_op :=
  let rdh := (bits h 7 1 << 3) .| rd in
  let rmh := bits h 3 4 in
  match bits h 8 2 with
  | 0 => Some (DP false ADD rdh rdh (Shifted rmh 0))
  | 2 => Some (MOV false rdh (Shifted rmh 0))
  | 3 => if rd =? 0 then Some (if bits h 7 1 =? 0 then BX rmh else BLX rmh) else None
  | _ => None
  end.
Definition decode_register_offset : option arm_op :=
  match bits h 9 3 with
  | 0 => Some (STR Word rd rn (OffReg rm 0)) | 1 => Some (STR Half rd rn (OffReg rm 0))
  | 2 => Some (STR Byte rd rn (OffReg rm 0)) | 4 => Some (LDR Word rd rn (OffReg rm 0))
  | 5 => Some (LDR Half rd rn (OffReg rm 0)) | 6 => Some (LDR Byte rd rn (OffReg rm 0))
  | _ => None
  end.
Definition decode_misc : option arm_op :=
  if bits h 8 4 =? 0 then
    Some (DP false (if bits h 7 1 =? 0 then ADD else SUB) 13 13 (Imm (4 * bits h 0 7)))
  else if bits h 6 6 =? 8 then Some (SXTH rd rn)
  else if bits h 9 3 =? 2 then Some (PUSH (bits h 0 8 .| (bits h 8 1 << 14)))
  else if bits h 9 3 =? 6 then Some (POP (bits h 0 8 .| (bits h 8 1 << 15)))
  else if bits h 0 12 =? 0xf00 then Some NOP
  else None.
(** By the upper five bits. *)
Definition decode_t16 : option arm_op :=
  let l := bits h 11 1 in
  match bits h 11 5 with
  | 0 => Some (MOV true rd (Shifted rn (bits h 6 5)))
  | 3 => Some (DP true (if bits h 9 1 =? 0 then ADD else SUB) rd rn
      (if bits h 10 1 =? 0 then Shifted rm 0 else Imm rm))
  | 4 => Some (MOV true rd8 (Imm imm8))
  | 5 => Some (CMP rd8 (Imm imm8))
  | 6 => Some (DP true ADD rd8 rd8 (Imm imm8))
  | 7 => Some (DP true SUB rd8 rd8 (Imm imm8))
  | 8 => if bits h 10 1 =? 0 then decode_alu else decode_high
  | 9 => Some (LDR Word rd8 15 (OffImm (4 * imm8)))
  | 10 | 11 => decode_register_offset
  | 12 | 13 => Some (access_op l Word rd rn (OffImm (4 * bits h 6 5)))
  | 14 | 15 => Some (access_op l Byte rd rn (OffImm (bits h 6 5)))
  | 16 | 17 => Some (access_op l Half rd rn (OffImm (2 * bits h 6 5)))
  | 18 | 19 => Some (access_op l Word rd8 13 (OffImm (4 * imm8)))
  | 21 => Some (DP false ADD rd8 13 (Imm (4 * imm8)))
  | 22 | 23 => decode_misc
  | 28 => Some (B (sw 12 (bits h 0 11 << 1)))
  | _ => None
  end.
(** Only branches have a condition. *)
Definition decode_thumb16 : option arm_instr :=
  if bits h 12 4 =? 13 then
    let cc := bits h 8 4 in
    if cc <? 14 then Some (cc, B (sw 9 (imm8 << 1))) else None
  else pair 14 <$> decode_t16.
End DecodeThumb.

Section DecodeThumb32.
Context (h1 h2 : Z).
Abbreviation rd := (bits h2 8 4).
Abbreviation imm12 := ((bits h1 10 1 << 11) .| (bits h2 12 3 << 8) .| bits h2 0 8).
Abbreviation imm16 := ((bits h1 0 4 << 12) .| imm12).

(** Immediates of 12 and 16 bits. *)
Definition decode_plain : option arm_op :=
  match bits h1 4 6 with
  | 32 => Some (DP false ADD rd (bits h1 0 4) (Imm imm12))
  | 36 => Some (MOV false rd (Imm imm16))
  | 42 => Some (DP false SUB rd (bits h1 0 4) (Imm imm12))
  | 44 => Some (MOVT rd imm16)
  | _ => None
  end.
Definition decode_branch32 : option arm_instr :=
  let s := bits h1 10 1 in
  let j1 := bits h2 13 1 in
  let j2 := bits h2 11 1 in
  let imm11 := bits h2 0 11 << 1 in
  if bits h2 12 1 =? 0 then
    let cc := bits h1 6 4 in
    if cc <? 14 then
      Some (cc, B (sw 21 (s << 20 .| j2 << 19 .| j1 << 18 .| bits h1 0 6 << 12 .| imm11)))
    else None
  else
    Some (14, B (sw 25 (s << 24 .| (1 .^ j1 .^ s) << 23 .| (1 .^ j2 .^ s) << 22
      .| bits h1 0 10 << 12 .| imm11))).
Definition size_of (sz : Z) : option size :=
  match sz with 0 => Some Byte | 1 => Some Half | 2 => Some Word | _ => None end.
Definition decode_thumb32 : option arm_instr :=
  if bits h1 11 5 =? 30 then
    if bits h2 15 1 =? 0 then pair 14 <$> decode_plain
    else if bits h2 14 1 =? 0 then decode_branch32
    else None
  else if bits h1 7 9 =? 0x1f1 then
    sz ← size_of (bits h1 5 2);
    Some (14, access_op (bits h1 4 1) sz (bits h2 12 4) (bits h1 0 4) (OffImm (bits h2 0 12)))
  else None.
End DecodeThumb32.

(** The first halfword tells the length. *)
Definition thumb_decode (bs : list Z) : option (arm_instr * Z) :=
  match bs with
  | b0 :: b1 :: bs =>
      let h := le_word [b0; b1] in
      if bits h 11 5 <? 29 then (fun i => (i, 2)) <$> decode_thumb16 h
      else
        match bs with
        | b2 :: b3 :: _ => (fun i => (i, 4)) <$> decode_thumb32 h (le_word [b2; b3])
        | _ => None
        end
  | _ => None
  end.

Lemma thumb_decode_app bs rest i n : thumb_decode bs = Some (i, n) -> thumb_decode (bs ++ rest) = Some (i, n).
Proof.
  destruct bs as [|b0 [|b1 bs]]; [done..|]. simpl. destruct (_ <? 29); [done|].
  by destruct bs as [|b2 [|b3 bs]].
Qed.

(** ** Execution *)

(** The flags, and the bit that selects the instruction set, are kept beside
    the registers. *)
Definition NF : Z := 64.
Definition ZF : Z := 65.
Definition CF : Z := 66.
Definition VF : Z := 67.
Definition TF : Z := 68.
Definition flags : list Z := [NF; ZF; CF; VF].
Definition flag (f : Z) (m : machine) : bool := negb (reg f m =? 0).
Definition set_flags (n z c v : bool) (m : machine) : machine :=
  set_reg VF (Z.b2z v) (set_reg CF (Z.b2z c) (set_reg ZF (Z.b2z z) (set_reg NF (Z.b2z n) m))).

Definition cond (cc : Z) (m : machine) : bool :=
  let holds :=
    match cc >> 1 with
    | 0 => flag ZF m
    | 1 => flag CF m
    | 2 => flag NF m
    | 3 => flag VF m
    | 4 => flag CF m && negb (flag ZF m)
    | 5 => Bool.eqb (flag NF m) (flag VF m)
    | 6 => Bool.eqb (flag NF m) (flag VF m) && negb (flag ZF m)
    | _ => true
    end in
  if Z.odd cc then negb holds else holds.

Section Exec.
Context (thumb : bool).

(** The program counter reads as the instruction's address plus 8, or 4 in
    Thumb. *)
Definition ahead : Z := if thumb then 4 else 8.
Definition read (r : Z) (m : machine) : Z :=
  if r =? 15 then u32 (pc m + ahead) else u32 (reg r m).
Definition shifted (sh : shift) (v n : Z) : Z :=
  match sh with LSL => v << n | LSR => u32 v >> n | ASR => s32 v >> n end.
Definition value (o : operand) (m : machine) : Z :=
  match o with
  | Imm v => v
  | Shifted rm n => u32 (read rm m << n)
  | ShiftedBy sh rm rs => u32 (shifted sh (read rm m) (u8 (read rs m)))
  end.
(** The last bit shifted out; without a shift, the flag. *)
Definition carry (o : operand) (m : machine) : bool :=
  match o with
  | Imm _ => flag CF m
  | Shifted rm n => if n =? 0 then flag CF m else Z.testbit (read rm m << n) 32
  | ShiftedBy sh rm rs =>
      let v := read rm m in
      let n := u8 (read rs m) in
      if n =? 0 then flag CF m
      else match sh with
           | LSL => Z.testbit (v << n) 32
           | LSR => Z.testbit v (n - 1)
           | ASR => Z.testbit (s32 v) (n - 1)
           end
  end.
(** A load relative to the program counter is relative to its word. *)
Definition base_address (rn : Z) (m : machine) : Z :=
  if rn =? 15 then Z.ldiff (read rn m) 3 else read rn m.
Definition address (rn : Z) (off : offset) (m : machine) : Z :=
  u32 (base_address rn m + match off with OffImm v => v | OffReg rm n => u32 (read rm m << n) end).
Definition bytes (sz : size) : nat := match sz with Byte => 1 | Half => 2 | Word => 4 end.
Definition dp_exec (op : dp) (a b : Z) : Z :=
  match op with
  | AND => a .& b | EOR => a .^ b | SUB => a - b | RSB => b - a | ADD => a + b | ORR => a .| b
  end.

(** The flags of a result, of a difference and of a data-processing
    instruction. *)
Definition result_flags (v : Z) (c o : bool) (m : machine) : machine :=
  set_flags (s32 v <? 0) (v =? 0) c o m.
Definition sub_flags (a b : Z) : machine -> machine :=
  let v := u32 (a - b) in
  result_flags v (b <=? a) (negb (s32 a - s32 b =? s32 v)).
Definition dp_flags (op : dp) (a b : Z) (c : bool) (m : machine) : machine :=
  match op with
  | SUB => sub_flags a b m
  | RSB => sub_flags b a m
  | ADD => let v := u32 (a + b) in result_flags v (2 ^ 32 <=? a + b) (negb (s32 a + s32 b =? s32 v)) m
  | AND | EOR | ORR => result_flags (dp_exec op a b) c (flag VF m) m
  end.

(** To an address whose lowest bit selects Thumb. *)
Definition branch_exchange (v : Z) (m : machine) : machine :=
  set_pc (Z.ldiff (u32 v) 1) (set_reg TF (v .& 1) m).
Definition load_reg (r v : Z) (m : machine) : machine :=
  if r =? 15 then branch_exchange v m else set_reg r v m.

(** The registers of a list, the lowest at the lowest address. *)
Definition reg_list (l : Z) : list Z := List.filter (Z.testbit l) (seqZ 0 16).
Fixpoint load_words (rs : list Z) (a : Z) (m : machine) : machine :=
  match rs with
  | [] => m
  | r :: rs => load_words rs (a + 4) (load_reg r (load 32 4 (mem m) a) m)
  end.

(** Of the program counter as a destination, only the Thumb branch to an even
    address is emitted. *)
Definition write (rd v next : Z) (m : machine) : option machine :=
  if rd =? 15 then (if thumb then Some (set_pc (Z.ldiff v 1) m) else None)
  else Some (set_pc next (set_reg rd v m)).
(** A return address selects the instruction set it is in. *)
Definition link (next : Z) : Z := if thumb then next .| 1 else next.

(** The effect of an instruction whose condition holds; [next] follows it. *)
Definition exec_op (op : arm_op) (next : Z) (m : machine) : option machine :=
  match op with
  | DP s op rd rn o =>
      let a := read rn m in
      let b := value o m in
      write rd (u32 (dp_exec op a b)) next (if s then dp_flags op a b (carry o m) m else m)
  | MOV s rd o =>
      let v := value o m in
      write rd v next (if s then result_flags v (carry o m) (flag VF m) m else m)
  | MVN s rd o =>
      let v := u32 (Z.lnot (value o m)) in
      write rd v next (if s then result_flags v (carry o m) (flag VF m) m else m)
  | CMP rn o => Some (set_pc next (sub_flags (read rn m) (value o m) m))
  | MUL s rd rn rm =>
      let v := u32 (read rn m * read rm m) in
      write rd v next (if s then result_flags v (flag CF m) (flag VF m) m else m)
  | MOVT rd imm => write rd (u16 (read rd m) .| (imm << 16)) next m
  | SXTH rd rm => write rd (u32 (s16 (read rm m))) next m
  | LDR sz rt rn off =>
      Some (load_reg rt (load 32 (bytes sz) (mem m) (address rn off m)) (set_pc next m))
  | STR sz rt rn off =>
      Some (set_pc next (set_mem (store 32 (bytes sz) (mem m) (address rn off m) (read rt m)) m))
  | PUSH l =>
      let rs := reg_list l in
      if (l =? 0) || Z.testbit l 13 then None
      else
        let sp := u32 (reg 13 m - 4 * Z.of_nat (length rs)) in
        Some (set_pc next (set_reg 13 sp
          (set_mem (store_words sp ((fun r => read r m) <$> rs) (mem m)) m)))
  | POP l =>
      let rs := reg_list l in
      if (l =? 0) || Z.testbit l 13 then None
      else
        let sp := u32 (reg 13 m) in
        Some (load_words rs sp (set_pc next
          (set_reg 13 (u32 (sp + 4 * Z.of_nat (length rs))) m)))
  | B off => Some (set_pc (u32 (pc m + ahead + off)) m)
  | BX rm => Some (branch_exchange (read rm m) m)
  | BLX rm => Some (branch_exchange (read rm m) (set_reg 14 (link next) m))
  | NOP => Some (set_pc next m)
  end.

Definition arm_exec (i : arm_instr) (len : Z) (m : machine) : option machine :=
  let next := u32 (pc m + len) in
  if cond i.1 m then exec_op i.2 next m else Some (set_pc next m).
End Exec.

Definition Arm : Isa := {|
  insn := arm_instr;
  addr_width := 32;
  addr_width_pos := eq_refl;
  max_len := 4;
  decode := arm_decode;
  exec := arm_exec false;
  decode_app := arm_decode_app;
|}.
Definition Thumb : Isa := {|
  insn := arm_instr;
  addr_width := 32;
  addr_width_pos := eq_refl;
  max_len := 4;
  decode := thumb_decode;
  exec := arm_exec true;
  decode_app := thumb_decode_app;
|}.
