(* ===== verification/ArmEffect.v ===== *)
(** * ArmEffect: what the instructions of A32 and Thumb do

    Lemmas about the machine of ArmIsa that asmarm and asmthumb share:
    operands and addresses, loads and stores, comparisons and conditions, and
    the registers pushed and popped. *)

From S2P Require Import Prelude Machine Emission ArmIsa.

Set Default Goal Selector "!".

(** The general registers, the program counter aside. *)
Definition gpr (r : Z) : Prop := 0 <= r < 15.
(** Conditions. *)
Definition cc4 (cc : Z) : Prop := 0 <= cc < 15.

(** ** Operands *)

Section Operands.
Context (thumb : bool).

Lemma read_gpr r m : gpr r -> read thumb r m = u32 (reg r m).
Proof using. unfold gpr, read. intros Hr. by destruct (Z.eqb_spec r 15); [lia|]. Qed.
Lemma gpr_not_pc r : gpr r -> (r =? 15) = false.
Proof using. unfold gpr. intros Hr. apply Z.eqb_neq. lia. Qed.
Lemma write_gpr r v next m : gpr r -> write thumb r v next m = Some (set_pc next (set_reg r v m)).
Proof using. intros Hr. unfold write. by rewrite gpr_not_pc. Qed.
Lemma value_reg r m : gpr r -> value thumb (Shifted r 0) m = u32 (reg r m).
Proof using. intros Hr. unfold value. by rewrite read_gpr, Z.shiftl_0_r, uw_uw. Qed.
End Operands.

(** ** Memory *)

(** A load into register [r], or a store of it. *)
Definition access (l : bool) (sz : size) (r a : Z) (mc : machine) : machine :=
  if l then set_reg r (load 32 (bytes sz) (mem mc) a) mc
  else set_mem (store 32 (bytes sz) (mem mc) a (u32 (reg r mc))) mc.
Definition ldst (l : bool) : size -> Z -> Z -> offset -> arm_op := if l then LDR else STR.

Section Addresses.
Context (thumb : bool) (rn : Z) (Hn : gpr rn).

Lemma address_imm v m : address thumb rn (OffImm v) m = u32 (reg rn m + v).
Proof using Hn. unfold address, base_address. rewrite gpr_not_pc, read_gpr by done. by rewrite uw_add_l. Qed.
Lemma address_reg rm n m : gpr rm -> 0 <= n -> address thumb rn (OffReg rm n) m = u32 (reg rn m + (reg rm m << n)).
Proof using Hn.
  intros Hm Hnn. unfold address, base_address. rewrite gpr_not_pc, !read_gpr by done.
  rewrite !Z.shiftl_mul_pow2 by done. by rewrite uw_mul_l, uw_add_l, uw_add_r.
Qed.
End Addresses.
Lemma ldiff_word x : x mod 4 = 0 -> Z.ldiff (u32 x) 3 = u32 x.
Proof.
  intros Hx. rewrite Z.ldiff_land. change 3 with (Z.ones 2). rewrite <- Z.ldiff_land, Z.ldiff_ones_r by done.
  rewrite Z.shiftr_div_pow2, Z.shiftl_mul_pow2 by done. change (2 ^ 2) with 4.
  assert (u32 x mod 4 = 0) as E by (unfold uw; rewrite Z.mod_mod_divide; [done|by exists (2 ^ 30)]).
  clear -E. Z.to_euclidean_division_equations. lia.
Qed.

Lemma ldiff_even x : x mod 2 = 0 -> Z.ldiff (u32 x) 1 = u32 x.
Proof.
  intros Hx. change 1 with (Z.ones 1). rewrite Z.ldiff_ones_r, Z.shiftr_div_pow2, Z.shiftl_mul_pow2 by done.
  change (2 ^ 1) with 2. assert (u32 x mod 2 = 0) as E by (unfold uw; rewrite Z.mod_mod_divide; [done|by exists (2 ^ 31)]).
  clear -E. Z.to_euclidean_division_equations. lia.
Qed.

(** ** Comparisons *)

(** The flags of a comparison. *)
Definition compared (a b : Z) : machine -> machine := sub_flags (u32 a) (u32 b).
Lemma compared_same a b mc : same_except flags mc (compared a b mc).
Proof.
  split; [|done]. intros r Hr. unfold compared, sub_flags, result_flags, set_flags. unfold flags in Hr.
  repeat (apply not_elem_of_cons in Hr as [? Hr]). by rewrite !reg_set_ne by done.
Qed.
Lemma compared_equal a b mc : flag ZF (compared a b mc) = (u32 a =? u32 b).
Proof.
  unfold flag, compared, sub_flags, result_flags, set_flags. rewrite !reg_set_ne, reg_set_eq by done. cbv zeta.
  rewrite (uw_sub_eqb 32 eq_refl), (Z.eqb_sym (u32 b)). by destruct (u32 a =? u32 b).
Qed.

(** The conditions after a comparison, as relations of the operands. *)
Definition comparisons : list (Z * (Z -> Z -> bool)) :=
  [(0, fun a b => u32 a =? u32 b); (1, fun a b => negb (u32 a =? u32 b));
   (2, fun a b => u32 b <=? u32 a); (3, fun a b => u32 a <? u32 b);
   (8, fun a b => u32 b <? u32 a); (9, fun a b => u32 a <=? u32 b);
   (10, fun a b => s32 b <=? s32 a); (11, fun a b => s32 a <? s32 b);
   (12, fun a b => s32 b <? s32 a); (13, fun a b => s32 a <=? s32 b)].
Lemma b2z_flag c : negb (Z.b2z c =? 0) = c.
Proof. by destruct c. Qed.
Lemma compared_flags a b mc :
  flag CF (compared a b mc) = (u32 b <=? u32 a)
  /\ Bool.eqb (flag NF (compared a b mc)) (flag VF (compared a b mc)) = (s32 b <=? s32 a).
Proof.
  unfold flag, compared, sub_flags, result_flags, set_flags. cbv zeta. rewrite !(reg_set_ne CF), !(reg_set_ne NF), !reg_set_eq, !b2z_flag by done.
  split; [done|].
  assert (u32 (u32 a - u32 b) = u32 (s32 a - s32 b)) as -> by (clear; word_lia). rewrite !(sw_uw 32 eq_refl).
  pose proof (sw_range 32 eq_refl a) as Ha. pose proof (sw_range 32 eq_refl b) as Hb.
  set (x := s32 a) in *. set (y := s32 b) in *. clearbody x y. clear -Ha Hb.
  assert (s32 (x - y) = x - y \/ s32 (x - y) = x - y - 2 ^ 32 /\ 2 ^ 31 <= x - y \/ s32 (x - y) = x - y + 2 ^ 32 /\ x - y < - 2 ^ 31)
    as Hc by word_lia.
  pose proof (sw_range 32 eq_refl (x - y)) as Hr. simpl in *.
  destruct (Z.eqb_spec (x - y) (s32 (x - y))), (Z.ltb_spec (s32 (x - y)) 0), (Z.leb_spec y x); simpl; lia || done.
Qed.
Lemma u32_s32_eqb a b : (u32 a =? u32 b) = (s32 a =? s32 b).
Proof. apply eq_bool_prop_intro. rewrite !Is_true_true, !Z.eqb_eq. clear. word_lia. Qed.
Lemma compared_cond cc f a b mc : In (cc, f) comparisons -> cond cc (compared a b mc) = f a b.
Proof.
  destruct (compared_flags a b mc) as [Hcf Hge]. pose proof (compared_equal a b mc) as Hzf.
  pose proof (u32_s32_eqb a b) as Hs. intros Hin. unfold comparisons in Hin.
  repeat destruct Hin as [[= <- <-] | Hin]; [..|done]; unfold cond;
    match goal with |- context [?c >> 1] => let v := eval vm_compute in (c >> 1) in change (c >> 1) with v end;
    cbn [Z.odd]; rewrite ?Hge, ?Hcf, ?Hzf; try done; revert Hs; clear; generalize (u32 a), (u32 b), (s32 a), (s32 b); intros x y z t;
    destruct (Z.eqb_spec x y), (Z.eqb_spec z t); intros E; try discriminate E; lia.
Qed.

(** The opposite condition differs in the lowest bit. *)
Lemma cond_opposite cc mc : 0 <= cc < 14 -> cond (cc .^ 1) mc = negb (cond cc mc).
Proof. intros Hcc. enumerate 14%nat cc; unfold cond; simpl; by rewrite ?negb_involutive. Qed.
Lemma cond_set_reg cc r v mc : 0 <= cc < 14 -> gpr r -> cond cc (set_reg r v mc) = cond cc mc.
Proof.
  unfold gpr. intros Hcc Hr. unfold cond, flag.
  by rewrite !(reg_set_ne ZF), !(reg_set_ne CF), !(reg_set_ne NF), !(reg_set_ne VF) by (unfold ZF, CF, NF, VF; lia).
Qed.

(** ** Loading words *)

Section Words.
Implicit Types (rs : list Z) (m : machine).

(** Loading the registers [rs], the program counter not among them. *)
Lemma load_words_spec rs : 15 ∉ rs -> NoDup rs -> forall a m,
  (forall i r, rs !! i = Some r -> reg r (load_words rs a m) = load 32 4 (mem m) (a + 4 * Z.of_nat i))
  /\ (forall r, r ∉ rs -> reg r (load_words rs a m) = reg r m)
  /\ mem (load_words rs a m) = mem m /\ pc (load_words rs a m) = pc m.
Proof using.
  induction rs as [|q rs IH]; intros H15 Hnd a m; [done|]. cbn [load_words].
  apply not_elem_of_cons in H15 as [Hq H15]. apply NoDup_cons in Hnd as [Hnq Hnd].
  unfold load_reg at 1 2 3 4. destruct (Z.eqb_spec q 15); [congruence|].
  destruct (IH H15 Hnd (a + 4) (set_reg q (load 32 4 (mem m) a) m)) as (Hr & Ho & Hm & Hp).
  split; [|split; [|done]].
  - intros [|i] r Hi; simpl in Hi.
    + injection Hi as ->. rewrite Ho, reg_set_eq by done. by rewrite Z.add_0_r.
    + rewrite (Hr i r Hi). cbn [mem set_reg]. f_equal. lia.
  - intros r [? ?]%not_elem_of_cons. rewrite Ho by done. by rewrite reg_set_ne.
Qed.
Lemma load_words_app rs : forall qs a m,
  load_words (rs ++ qs) a m = load_words qs (a + 4 * Z.of_nat (length rs)) (load_words rs a m).
Proof using.
  induction rs as [|r rs IH]; intros qs a m; cbn [load_words app length]; [by rewrite Z.add_0_r|].
  rewrite IH. f_equal. lia.
Qed.
End Words.

(** ** Words in the code *)

(** The code is in memory, at an address that is a multiple of 4. *)
Definition readable (bs : list Z) (mc : machine) : Prop :=
  pc mc mod 4 = 0 /\ code_at 32 (peek 32 (mem mc)) (pc mc) bs.

Lemma readable_word bs1 w bs2 mc : readable (bs1 ++ le_bytes 4 w ++ bs2) mc ->
  load 32 4 (mem mc) (pc mc + Z.of_nat (length bs1)) = u32 w.
Proof.
  intros [_ [_ [Hc _]%code_at_app]%code_at_app].
  rewrite <- (le_word_le_bytes 4 w : _ = u32 w). exact (load_code 32 eq_refl _ (le_bytes 4 w) _ Hc).
Qed.

Lemma address_literal thumb m : pc m mod 4 = 0 ->
  u32 (address thumb 15 (OffImm 0) m) = u32 (pc m + ahead thumb).
Proof.
  intros Hp. unfold address, base_address, read. change (15 =? 15) with true. cbv iota.
  rewrite ldiff_word by (rewrite <- Z.add_mod_idemp_l, Hp by done; by destruct thumb). by rewrite Z.add_0_r, !uw_uw.
Qed.
Lemma readable_app bs cs mc : readable (bs ++ cs) mc -> readable bs mc.
Proof. by intros [Hp [Hc _]%code_at_app]. Qed.
