(* ===== verification/AsmArm.v ===== *)
(** * AsmArm: bank/uPython-ASM/asmarm.{h,c}

    The ARM (A32) code generator: condition codes, the back end's state, the
    instruction words, one definition per function of asmarm.c and the generic
    assembler API of asmarm.h.  [uint] is 32 bits wide; [emit] keeps the low
    32 bits of the word it is given, and stores it little endian, as the
    machines that run the code do. *)

From S2P Require Import Prelude AsmBase PyMisc.

Set Default Goal Selector "!".

#[local] Existing Instance SizeT_32.

(** ** Registers and condition codes *)

Definition ASM_ARM_REG_R0 : Z := 0.
Definition ASM_ARM_REG_R1 : Z := 1.
Definition ASM_ARM_REG_R2 : Z := 2.
Definition ASM_ARM_REG_R3 : Z := 3.
Definition ASM_ARM_REG_R4 : Z := 4.
Definition ASM_ARM_REG_R5 : Z := 5.
Definition ASM_ARM_REG_R6 : Z := 6.
Definition ASM_ARM_REG_R7 : Z := 7.
Definition ASM_ARM_REG_R8 : Z := 8.
Definition ASM_ARM_REG_R9 : Z := 9.
Definition ASM_ARM_REG_R10 : Z := 10.
Definition ASM_ARM_REG_R11 : Z := 11.
Definition ASM_ARM_REG_R12 : Z := 12.
Definition ASM_ARM_REG_R13 : Z := 13.
Definition ASM_ARM_REG_R14 : Z := 14.
Definition ASM_ARM_REG_R15 : Z := 15.
Definition ASM_ARM_REG_SP : Z := ASM_ARM_REG_R13.
Definition ASM_ARM_REG_LR : Z := ASM_ARM_REG_R14.
Definition ASM_ARM_REG_PC : Z := ASM_ARM_REG_R15.
Definition ASM_ARM_CC_EQ : Z := 0x0 << 28.
Definition ASM_ARM_CC_NE : Z := 0x1 << 28.
Definition ASM_ARM_CC_CS : Z := 0x2 << 28.
Definition ASM_ARM_CC_CC : Z := 0x3 << 28.
Definition ASM_ARM_CC_MI : Z := 0x4 << 28.
Definition ASM_ARM_CC_PL : Z := 0x5 << 28.
Definition ASM_ARM_CC_VS : Z := 0x6 << 28.
Definition ASM_ARM_CC_VC : Z := 0x7 << 28.
Definition ASM_ARM_CC_HI : Z := 0x8 << 28.
Definition ASM_ARM_CC_LS : Z := 0x9 << 28.
Definition ASM_ARM_CC_GE : Z := 0xa << 28.
Definition ASM_ARM_CC_LT : Z := 0xb << 28.
Definition ASM_ARM_CC_GT : Z := 0xc << 28.
Definition ASM_ARM_CC_LE : Z := 0xd << 28.
Definition ASM_ARM_CC_AL : Z := 0xe << 28.
Definition ASM_ARM_REG_FUN_TABLE : Z := ASM_ARM_REG_R7.

(** ** The back end's state *)

Record asm_arm_t := mk_asm_arm {
  base : mp_asm_base_t;
  push_reglist : Z;
  stack_adjust : Z;
}.

#[export, refine] Instance HasBase_arm : HasBase asm_arm_t :=
  {| base_of := base; with_base b s := mk_asm_arm b (push_reglist s) (stack_adjust s) |}.
Proof. all: by intros; try destruct s. Defined.

Definition set_push_reglist (x : Z) (s : asm_arm_t) : asm_arm_t :=
  mk_asm_arm (base s) x (stack_adjust s).
Definition set_stack_adjust (x : Z) (s : asm_arm_t) : asm_arm_t :=
  mk_asm_arm (base s) (push_reglist s) x.

Definition asm_arm_end_pass : M asm_arm_t unit := mret tt.

(** ** Instruction words *)

Definition REG_TEMP : Z := ASM_ARM_REG_R8.

(** [*(uint32_t * )c = op]. *)
Definition emit (op : Z) : M asm_arm_t unit := put_array cur_to_write_bytes (le_bytes 4 op).

Definition emit_al (op : Z) : M asm_arm_t unit :=
  emit (op .| ASM_ARM_CC_AL).

Definition asm_arm_op_push (reglist : Z) : Z :=
  0x92d0000 .| reglist .& 0xFFFF.

Definition asm_arm_op_pop (reglist : Z) : Z :=
  0x8bd0000 .| reglist .& 0xFFFF.

Definition asm_arm_op_mov_reg (rd rn : Z) : Z :=
  0x1a00000 .| rd << 12 .| rn.

Definition asm_arm_op_mov_imm (rd imm : Z) : Z :=
  0x3a00000 .| rd << 12 .| imm.

Definition asm_arm_op_mvn_imm (rd imm : Z) : Z :=
  0x3e00000 .| rd << 12 .| imm.

Definition asm_arm_op_mvn_reg (rd rm : Z) : Z :=
  0x1e00000 .| rd << 12 .| rm.

Definition asm_arm_op_add_imm (rd rn imm : Z) : Z :=
  0x2800000 .| rn << 16 .| rd << 12 .| imm .& 0xFF.

Definition asm_arm_op_add_reg (rd rn rm : Z) : Z :=
  0x0800000 .| rn << 16 .| rd << 12 .| rm.

Definition asm_arm_op_sub_imm (rd rn imm : Z) : Z :=
  0x2400000 .| rn << 16 .| rd << 12 .| imm .& 0xFF.

Definition asm_arm_op_sub_reg (rd rn rm : Z) : Z :=
  0x0400000 .| rn << 16 .| rd << 12 .| rm.

Definition asm_arm_op_rsb_imm (rd rn imm : Z) : Z :=
  0x2600000 .| rn << 16 .| rd << 12 .| imm .& 0xFF.

Definition asm_arm_op_mul_reg (rd rm rs : Z) : M asm_arm_t Z :=
  assert_ (negb (rd =? rm)) "rd!=rm";;
  mret (0x0000090 .| rd << 16 .| rs << 8 .| rm).

Definition asm_arm_op_and_reg (rd rn rm : Z) : Z :=
  0x0000000 .| rn << 16 .| rd << 12 .| rm.

Definition asm_arm_op_eor_reg (rd rn rm : Z) : Z :=
  0x0200000 .| rn << 16 .| rd << 12 .| rm.

Definition asm_arm_op_orr_reg (rd rn rm : Z) : Z :=
  0x1800000 .| rn << 16 .| rd << 12 .| rm.

(** ** Constants *)

Definition asm_arm_mov_reg_i32 (rd imm : Z) : M asm_arm_t Z :=
  emit_al (0x59f0000 .| rd << 12);;
  emit_al 0xa000000;;
  loc ← on_base mp_asm_base_get_code_pos;
  emit imm;;
  mret loc.

Definition asm_arm_mov_reg_i32_optimised (rd imm : Z) : M asm_arm_t unit :=
  if imm .& 0xFF =? imm then
    emit_al (asm_arm_op_mov_imm rd imm)
  else
    if (imm <? 0) && (- 256 <=? imm) then
      emit_al (asm_arm_op_mvn_imm rd (Z.lnot imm))
    else
      asm_arm_mov_reg_i32 rd imm;; mret tt.

(** ** Functions, moves and arithmetic *)

Definition asm_arm_bkpt : M asm_arm_t unit :=
  emit_al 0x1200070.

Definition asm_arm_entry (num_locals : Z) : M asm_arm_t unit :=
  assert_ (0 <=? num_locals) "num_locals >= 0";;
  modify (set_stack_adjust 0);;
  modify (set_push_reglist
    (1 << ASM_ARM_REG_R1
     .| 1 << ASM_ARM_REG_R2
     .| 1 << ASM_ARM_REG_R3
     .| 1 << ASM_ARM_REG_R4
     .| 1 << ASM_ARM_REG_R5
     .| 1 << ASM_ARM_REG_R6
     .| 1 << ASM_ARM_REG_R7
     .| 1 << ASM_ARM_REG_R8));;
  (if 3 <? num_locals then
     modify (set_stack_adjust (u32 (num_locals * 4)));;
     if negb (num_locals .& 1 =? 0) then
       modify (fun s => set_stack_adjust (u32 (stack_adjust s + 4)) s)
     else mret tt
   else mret tt);;
  push_reglist ← gets push_reglist;
  emit_al (asm_arm_op_push (push_reglist .| 1 << ASM_ARM_REG_LR));;
  stack_adjust ← gets stack_adjust;
  if 0 <? stack_adjust then
    if stack_adjust <? 0x100 then
      emit_al (asm_arm_op_sub_imm ASM_ARM_REG_SP ASM_ARM_REG_SP stack_adjust)
    else
      asm_arm_mov_reg_i32_optimised REG_TEMP (s32 stack_adjust);;
      emit_al (asm_arm_op_sub_reg ASM_ARM_REG_SP ASM_ARM_REG_SP REG_TEMP)
  else mret tt.

Definition asm_arm_exit : M asm_arm_t unit :=
  stack_adjust ← gets stack_adjust;
  (if 0 <? stack_adjust then
     if stack_adjust <? 0x100 then
       emit_al (asm_arm_op_add_imm ASM_ARM_REG_SP ASM_ARM_REG_SP stack_adjust)
     else
       asm_arm_mov_reg_i32_optimised REG_TEMP (s32 stack_adjust);;
       emit_al (asm_arm_op_add_reg ASM_ARM_REG_SP ASM_ARM_REG_SP REG_TEMP)
   else mret tt);;
  push_reglist ← gets push_reglist;
  emit_al (asm_arm_op_pop (push_reglist .| 1 << ASM_ARM_REG_PC)).

Definition asm_arm_push (reglist : Z) : M asm_arm_t unit :=
  emit_al (asm_arm_op_push reglist).

Definition asm_arm_pop (reglist : Z) : M asm_arm_t unit :=
  emit_al (asm_arm_op_pop reglist).

Definition asm_arm_mov_reg_reg (reg_dest reg_src : Z) : M asm_arm_t unit :=
  emit_al (asm_arm_op_mov_reg reg_dest reg_src).

Definition asm_arm_mov_local_reg (local_num rd : Z) : M asm_arm_t unit :=
  emit_al (0x58d0000 .| rd << 12 .| local_num << 2).

Definition asm_arm_mov_reg_local (rd local_num : Z) : M asm_arm_t unit :=
  emit_al (0x59d0000 .| rd << 12 .| local_num << 2).

Definition asm_arm_cmp_reg_i8 (rd imm : Z) : M asm_arm_t unit :=
  emit_al (0x3500000 .| rd << 16 .| imm .& 0xFF).

Definition asm_arm_cmp_reg_reg (rd rn : Z) : M asm_arm_t unit :=
  emit_al (0x1500000 .| rd << 16 .| rn).

Definition asm_arm_setcc_reg (rd cond : Z) : M asm_arm_t unit :=
  emit (asm_arm_op_mov_imm rd 1 .| cond);;
  emit (asm_arm_op_mov_imm rd 0 .| cond .^ 1 << 28).

Definition asm_arm_mvn_reg_reg (rd rm : Z) : M asm_arm_t unit :=
  emit_al (asm_arm_op_mvn_reg rd rm).

Definition asm_arm_add_reg_reg_reg (rd rn rm : Z) : M asm_arm_t unit :=
  emit_al (asm_arm_op_add_reg rd rn rm).

Definition asm_arm_rsb_reg_reg_imm (rd rn imm : Z) : M asm_arm_t unit :=
  emit_al (asm_arm_op_rsb_imm rd rn imm).

Definition asm_arm_sub_reg_reg_reg (rd rn rm : Z) : M asm_arm_t unit :=
  emit_al (asm_arm_op_sub_reg rd rn rm).

Definition asm_arm_mul_reg_reg_reg (rd rs rm : Z) : M asm_arm_t unit :=
  op ← asm_arm_op_mul_reg rd rm rs;
  emit_al op.

Definition asm_arm_and_reg_reg_reg (rd rn rm : Z) : M asm_arm_t unit :=
  emit_al (asm_arm_op_and_reg rd rn rm).

Definition asm_arm_eor_reg_reg_reg (rd rn rm : Z) : M asm_arm_t unit :=
  emit_al (asm_arm_op_eor_reg rd rn rm).

Definition asm_arm_orr_reg_reg_reg (rd rn rm : Z) : M asm_arm_t unit :=
  emit_al (asm_arm_op_orr_reg rd rn rm).

Definition asm_arm_mov_reg_local_addr (rd local_num : Z) : M asm_arm_t unit :=
  if 0x40 <=? local_num then
    asm_arm_mov_reg_i32_optimised REG_TEMP (s32 (local_num << 2));;
    emit_al (asm_arm_op_add_reg rd ASM_ARM_REG_SP REG_TEMP)
  else
    emit_al (asm_arm_op_add_imm rd ASM_ARM_REG_SP (u32 (local_num << 2))).

Definition asm_arm_mov_reg_pcrel (reg_dest label : Z) : M asm_arm_t unit :=
  dest ← on_base (label_dest label);
  code_offset ← gets (fun s => code_offset (base s));
  let rel := s32 (dest - code_offset) in
  let rel := s32 (rel - (12 + 8)) in
  emit_al (0x59f0000 .| reg_dest << 12);;
  emit_al 0xa000000;;
  emit rel;;
  asm_arm_add_reg_reg_reg reg_dest reg_dest ASM_ARM_REG_PC.

Definition asm_arm_lsl_reg_reg (rd rs : Z) : M asm_arm_t unit :=
  emit_al (0x1a00010 .| rd << 12 .| rs << 8 .| rd).

Definition asm_arm_lsr_reg_reg (rd rs : Z) : M asm_arm_t unit :=
  emit_al (0x1a00030 .| rd << 12 .| rs << 8 .| rd).

Definition asm_arm_asr_reg_reg (rd rs : Z) : M asm_arm_t unit :=
  emit_al (0x1a00050 .| rd << 12 .| rs << 8 .| rd).

(** ** Memory *)

Definition asm_arm_ldr_reg_reg_offset (rd rn byte_offset : Z) : M asm_arm_t unit :=
  if byte_offset <? 0x1000 then
    emit_al (0x5900000 .| rn << 16 .| rd << 12 .| byte_offset)
  else
    asm_arm_mov_reg_i32_optimised REG_TEMP (s32 byte_offset);;
    emit_al (0x7900000 .| rn << 16 .| rd << 12 .| REG_TEMP).

Definition asm_arm_ldrh_reg_reg_reg (rd rm rn : Z) : M asm_arm_t unit :=
  emit_al (0x1a00080 .| REG_TEMP << 12 .| rn);;
  emit_al (0x19000b0 .| rm << 16 .| rd << 12 .| REG_TEMP).

Definition asm_arm_ldrh_reg_reg_offset (rd rn byte_offset : Z) : M asm_arm_t unit :=
  if byte_offset <? 0x100 then
    emit_al (0x1d000b0 .| rn << 16 .| rd << 12 .| (byte_offset .& 0xf0) << 4 .| byte_offset .&
      0xf)
  else
    asm_arm_mov_reg_i32_optimised REG_TEMP (s32 byte_offset);;
    emit_al (0x19000b0 .| rn << 16 .| rd << 12 .| REG_TEMP).

Definition asm_arm_ldrb_reg_reg_reg (rd rm rn : Z) : M asm_arm_t unit :=
  emit_al (0x7d00000 .| rm << 16 .| rd << 12 .| rn).

Definition asm_arm_ldrb_reg_reg_offset (rd rn byte_offset : Z) : M asm_arm_t unit :=
  if byte_offset <? 0x1000 then
    emit_al (0x5d00000 .| rn << 16 .| rd << 12 .| byte_offset)
  else
    asm_arm_mov_reg_i32_optimised REG_TEMP (s32 byte_offset);;
    emit_al (0x7d00000 .| rn << 16 .| rd << 12 .| REG_TEMP).

Definition asm_arm_ldr_reg_reg_reg (rd rm rn : Z) : M asm_arm_t unit :=
  emit_al (0x7900100 .| rm << 16 .| rd << 12 .| rn).

Definition asm_arm_str_reg_reg_offset (rd rm byte_offset : Z) : M asm_arm_t unit :=
  if byte_offset <? 0x1000 then
    emit_al (0x5800000 .| rm << 16 .| rd << 12 .| byte_offset)
  else
    asm_arm_mov_reg_i32_optimised REG_TEMP (s32 byte_offset);;
    emit_al (0x7800000 .| rm << 16 .| rd << 12 .| REG_TEMP).

Definition asm_arm_strh_reg_reg_offset (rd rn byte_offset : Z) : M asm_arm_t unit :=
  if byte_offset <? 0x100 then
    emit_al (0x1c000b0 .| rn << 16 .| rd << 12 .| (byte_offset .& 0xf0) << 4 .| byte_offset .&
      0xf)
  else
    asm_arm_mov_reg_i32_optimised REG_TEMP (s32 byte_offset);;
    emit_al (0x18000b0 .| rn << 16 .| rd << 12 .| REG_TEMP).

Definition asm_arm_strb_reg_reg_offset (rd rm byte_offset : Z) : M asm_arm_t unit :=
  if byte_offset <? 0x1000 then
    emit_al (0x5c00000 .| rm << 16 .| rd << 12 .| byte_offset)
  else
    asm_arm_mov_reg_i32_optimised REG_TEMP (s32 byte_offset);;
    emit_al (0x7c00000 .| rm << 16 .| rd << 12 .| REG_TEMP).

Definition asm_arm_str_reg_reg_reg (rd rm rn : Z) : M asm_arm_t unit :=
  emit_al (0x7800100 .| rm << 16 .| rd << 12 .| rn).

Definition asm_arm_strh_reg_reg_reg (rd rm rn : Z) : M asm_arm_t unit :=
  emit_al (0x1a00080 .| REG_TEMP << 12 .| rn);;
  emit_al (0x18000b0 .| rm << 16 .| rd << 12 .| REG_TEMP).

Definition asm_arm_strb_reg_reg_reg (rd rm rn : Z) : M asm_arm_t unit :=
  emit_al (0x7c00000 .| rm << 16 .| rd << 12 .| rn).

(** ** Branches and calls *)

Section Branches.
Context `{PyMisc}.

Definition asm_arm_bcc_label (cond label : Z) : M asm_arm_t unit :=
  dest ← on_base (label_dest label);
  code_offset ← gets (fun s => code_offset (base s));
  let rel := s32 (dest - code_offset) in
  let rel := s32 (rel - 8) in
  let rel := rel >> 2 in
  if MP_FIT_SIGNED 24 rel then
    emit (cond .| 0xa000000 .| rel .& 0xffffff)
  else printf "asm_arm_bcc: branch does not fit in 24 bits".

Definition asm_arm_b_label (label : Z) : M asm_arm_t unit :=
  asm_arm_bcc_label ASM_ARM_CC_AL label.
End Branches.

Definition asm_arm_bl_ind (fun_id reg_temp : Z) : M asm_arm_t unit :=
  assert_ (fun_id <? 0x1000 / 4) "fun_id < (0x1000/4)";;
  emit_al (asm_arm_op_mov_reg ASM_ARM_REG_LR ASM_ARM_REG_PC);;
  emit_al (0x597f000 .| fun_id << 2).

Definition asm_arm_bx_reg (reg_src : Z) : M asm_arm_t unit :=
  emit_al (0x012fff10 .| reg_src).

(** ** The generic assembler API *)

Module GenericApi.
Section Api.
Context `{PyMisc}.

Definition ASM_WORD_SIZE : Z := 4.
Definition REG_RET : Z := ASM_ARM_REG_R0.
Definition REG_ARG_1 : Z := ASM_ARM_REG_R0.
Definition REG_ARG_2 : Z := ASM_ARM_REG_R1.
Definition REG_ARG_3 : Z := ASM_ARM_REG_R2.
Definition REG_ARG_4 : Z := ASM_ARM_REG_R3.
Definition REG_TEMP0 : Z := ASM_ARM_REG_R0.
Definition REG_TEMP1 : Z := ASM_ARM_REG_R1.
Definition REG_TEMP2 : Z := ASM_ARM_REG_R2.
Definition REG_LOCAL_1 : Z := ASM_ARM_REG_R4.
Definition REG_LOCAL_2 : Z := ASM_ARM_REG_R5.
Definition REG_LOCAL_3 : Z := ASM_ARM_REG_R6.
Definition REG_LOCAL_NUM : Z := 3.
Definition REG_FUN_TABLE : Z := ASM_ARM_REG_FUN_TABLE.
Definition ASM_END_PASS : M asm_arm_t unit := asm_arm_end_pass.
Definition ASM_ENTRY (num_locals : Z) : M asm_arm_t unit := asm_arm_entry num_locals.
Definition ASM_EXIT : M asm_arm_t unit := asm_arm_exit.
Definition ASM_JUMP (label : Z) : M asm_arm_t unit := asm_arm_b_label label.
Definition ASM_JUMP_IF_REG_ZERO (reg label : Z) (bool_test : bool) : M asm_arm_t unit :=
  asm_arm_cmp_reg_i8 reg 0;;
  asm_arm_bcc_label ASM_ARM_CC_EQ label.
Definition ASM_JUMP_IF_REG_NONZERO (reg label : Z) (bool_test : bool) : M asm_arm_t unit :=
  asm_arm_cmp_reg_i8 reg 0;;
  asm_arm_bcc_label ASM_ARM_CC_NE label.
Definition ASM_JUMP_IF_REG_EQ (reg1 reg2 label : Z) : M asm_arm_t unit :=
  asm_arm_cmp_reg_reg reg1 reg2;;
  asm_arm_bcc_label ASM_ARM_CC_EQ label.
Definition ASM_JUMP_REG (reg : Z) : M asm_arm_t unit := asm_arm_bx_reg reg.
Definition ASM_CALL_IND (idx : Z) : M asm_arm_t unit := asm_arm_bl_ind idx ASM_ARM_REG_R3.
Definition ASM_MOV_LOCAL_REG (local_num reg_src : Z) : M asm_arm_t unit :=
  asm_arm_mov_local_reg local_num reg_src.
Definition ASM_MOV_REG_IMM (reg_dest imm : Z) : M asm_arm_t unit :=
  asm_arm_mov_reg_i32_optimised reg_dest imm.
Definition ASM_MOV_REG_LOCAL (reg_dest local_num : Z) : M asm_arm_t unit :=
  asm_arm_mov_reg_local reg_dest local_num.
Definition ASM_MOV_REG_REG (reg_dest reg_src : Z) : M asm_arm_t unit :=
  asm_arm_mov_reg_reg reg_dest reg_src.
Definition ASM_MOV_REG_LOCAL_ADDR (reg_dest local_num : Z) : M asm_arm_t unit :=
  asm_arm_mov_reg_local_addr reg_dest local_num.
Definition ASM_MOV_REG_PCREL (reg_dest label : Z) : M asm_arm_t unit :=
  asm_arm_mov_reg_pcrel reg_dest label.
Definition ASM_NOT_REG (reg_dest : Z) : M asm_arm_t unit :=
  asm_arm_mvn_reg_reg reg_dest reg_dest.
Definition ASM_NEG_REG (reg_dest : Z) : M asm_arm_t unit :=
  asm_arm_rsb_reg_reg_imm reg_dest reg_dest 0.
Definition ASM_LSL_REG_REG (reg_dest reg_shift : Z) : M asm_arm_t unit :=
  asm_arm_lsl_reg_reg reg_dest reg_shift.
Definition ASM_LSR_REG_REG (reg_dest reg_shift : Z) : M asm_arm_t unit :=
  asm_arm_lsr_reg_reg reg_dest reg_shift.
Definition ASM_ASR_REG_REG (reg_dest reg_shift : Z) : M asm_arm_t unit :=
  asm_arm_asr_reg_reg reg_dest reg_shift.
Definition ASM_OR_REG_REG (reg_dest reg_src : Z) : M asm_arm_t unit :=
  asm_arm_orr_reg_reg_reg reg_dest reg_dest reg_src.
Definition ASM_XOR_REG_REG (reg_dest reg_src : Z) : M asm_arm_t unit :=
  asm_arm_eor_reg_reg_reg reg_dest reg_dest reg_src.
Definition ASM_AND_REG_REG (reg_dest reg_src : Z) : M asm_arm_t unit :=
  asm_arm_and_reg_reg_reg reg_dest reg_dest reg_src.
Definition ASM_ADD_REG_REG (reg_dest reg_src : Z) : M asm_arm_t unit :=
  asm_arm_add_reg_reg_reg reg_dest reg_dest reg_src.
Definition ASM_SUB_REG_REG (reg_dest reg_src : Z) : M asm_arm_t unit :=
  asm_arm_sub_reg_reg_reg reg_dest reg_dest reg_src.
Definition ASM_MUL_REG_REG (reg_dest reg_src : Z) : M asm_arm_t unit :=
  asm_arm_mul_reg_reg_reg reg_dest reg_dest reg_src.
Definition ASM_LOAD32_REG_REG_OFFSET (reg_dest reg_base word_offset : Z) : M asm_arm_t unit :=
  asm_arm_ldr_reg_reg_offset reg_dest reg_base (u32 (4 * word_offset)).
Definition ASM_LOAD_REG_REG_OFFSET (reg_dest reg_base word_offset : Z) : M asm_arm_t unit :=
  ASM_LOAD32_REG_REG_OFFSET reg_dest reg_base word_offset.
Definition ASM_LOAD8_REG_REG_OFFSET (reg_dest reg_base byte_offset : Z) : M asm_arm_t unit :=
  asm_arm_ldrb_reg_reg_offset reg_dest reg_base byte_offset.
Definition ASM_LOAD8_REG_REG (reg_dest reg_base : Z) : M asm_arm_t unit :=
  ASM_LOAD8_REG_REG_OFFSET reg_dest reg_base 0.
Definition ASM_LOAD16_REG_REG_OFFSET (reg_dest reg_base halfword_offset : Z) : M asm_arm_t
  unit :=
  asm_arm_ldrh_reg_reg_offset reg_dest reg_base (u32 (2 * halfword_offset)).
Definition ASM_LOAD16_REG_REG (reg_dest reg_base : Z) : M asm_arm_t unit :=
  ASM_LOAD16_REG_REG_OFFSET reg_dest reg_base 0.
Definition ASM_LOAD32_REG_REG (reg_dest reg_base : Z) : M asm_arm_t unit :=
  ASM_LOAD32_REG_REG_OFFSET reg_dest reg_base 0.
Definition ASM_STORE32_REG_REG_OFFSET (reg_value reg_base word_offset : Z) : M asm_arm_t unit :=
  asm_arm_str_reg_reg_offset reg_value reg_base (u32 (4 * word_offset)).
Definition ASM_STORE_REG_REG_OFFSET (reg_value reg_base word_offset : Z) : M asm_arm_t unit :=
  ASM_STORE32_REG_REG_OFFSET reg_value reg_base word_offset.
Definition ASM_STORE8_REG_REG_OFFSET (reg_value reg_base byte_offset : Z) : M asm_arm_t unit :=
  asm_arm_strb_reg_reg_offset reg_value reg_base byte_offset.
Definition ASM_STORE8_REG_REG (reg_value reg_base : Z) : M asm_arm_t unit :=
  ASM_STORE8_REG_REG_OFFSET reg_value reg_base 0.
Definition ASM_STORE16_REG_REG_OFFSET (reg_value reg_base halfword_offset : Z) : M asm_arm_t
  unit :=
  asm_arm_strh_reg_reg_offset reg_value reg_base (u32 (2 * halfword_offset)).
Definition ASM_STORE16_REG_REG (reg_value reg_base : Z) : M asm_arm_t unit :=
  ASM_STORE16_REG_REG_OFFSET reg_value reg_base 0.
Definition ASM_STORE32_REG_REG (reg_value reg_base : Z) : M asm_arm_t unit :=
  ASM_STORE32_REG_REG_OFFSET reg_value reg_base 0.
Definition ASM_LOAD8_REG_REG_REG (reg_dest reg_base reg_index : Z) : M asm_arm_t unit :=
  asm_arm_ldrb_reg_reg_reg reg_dest reg_base reg_index.
Definition ASM_LOAD16_REG_REG_REG (reg_dest reg_base reg_index : Z) : M asm_arm_t unit :=
  asm_arm_ldrh_reg_reg_reg reg_dest reg_base reg_index.
Definition ASM_LOAD32_REG_REG_REG (reg_dest reg_base reg_index : Z) : M asm_arm_t unit :=
  asm_arm_ldr_reg_reg_reg reg_dest reg_base reg_index.
Definition ASM_STORE8_REG_REG_REG (reg_val reg_base reg_index : Z) : M asm_arm_t unit :=
  asm_arm_strb_reg_reg_reg reg_val reg_base reg_index.
Definition ASM_STORE16_REG_REG_REG (reg_val reg_base reg_index : Z) : M asm_arm_t unit :=
  asm_arm_strh_reg_reg_reg reg_val reg_base reg_index.
Definition ASM_STORE32_REG_REG_REG (reg_val reg_base reg_index : Z) : M asm_arm_t unit :=
  asm_arm_str_reg_reg_reg reg_val reg_base reg_index.
Definition ASM_CLR_REG (reg_dest : Z) : M asm_arm_t unit :=
  asm_arm_eor_reg_reg_reg reg_dest reg_dest reg_dest.
End Api.
End GenericApi.
