(* ===== verification/AsmArmInstr.v ===== *)
(** * AsmArmInstr: the instructions of asmarm.c

    Every word that a function of asmarm.c writes is the instruction meant:
    the decoder reads it back, and its code performs the instruction's
    effect. *)

From S2P Require Import Prelude AsmBase TwoPass PyMisc Machine Emission ArmIsa ArmEffect AsmArm.

Set Default Goal Selector "!".

#[local] Existing Instance SizeT_32.
#[local] Hint Extern 0 Isa => exact Arm : typeclass_instances.

(** ** Emission *)

Lemma arm_emits_word w s : emits s (emit w) (le_bytes 4 w).
Proof. apply emits_put_array. bytes_tac. Qed.

Lemma assembles_emit w i s : decode_word (u32 w) = Some i -> assembles s (emit w) [(i, 4)].
Proof.
  intros Hd. apply (assembles_one (H0 := Arm) _ _ _ i 4 (arm_emits_word w s)); [|done|simpl; lia].
  cbn [decode Arm]. unfold arm_decode.
  change (le_bytes 4 w) with [u8 w; u8 (w >> 8); u8 (w >> 8 >> 8); u8 (w >> 8 >> 8 >> 8)].
  cbv beta iota.
  replace (le_word _) with (u32 w); [by rewrite Hd|].
  symmetry. apply (le_word_le_bytes 4 w).
Qed.

(** The condition is in the upper four bits, the rest says what to do. *)
Lemma decode_cc w cc op : cc4 cc -> bits w 28 4 = cc -> decode_op w = Some op ->
  decode_word w = Some (cc, op).
Proof.
  unfold decode_word, cc4. cbv zeta. intros Hcc -> ->. by destruct (Z.eqb_spec cc 15); [lia|].
Qed.

(** The decoder's fields, one after the other: those that are constant select
    its branch, the others are the operands. *)
Ltac decode_fields :=
  repeat (fold_field; cbv beta iota zeta delta [Z.eqb Pos.eqb andb dp_of shift_of decode_register decode_half
    decode_ldst decode_ldst_wb decode_dp signed mbind option_bind]).
Ltac arm_word cc :=
  apply assembles_emit, (decode_cc _ cc);
  [ done | bitsolve | unfold decode_op; cbv zeta; decode_fields; cbn [fmap option_fmap option_map]; repeat f_equal; bitsolve ].

(** ** The effect of an instruction *)

Lemma arm_performs s m op f : assembles s m [((14, op), 4)] ->
  (forall next mc, exec_op false op next mc = Some (set_pc next (f mc))) -> performs s m f.
Proof.
  intros Ha Hx. eapply assembles_performs; [exact Ha|]. intros mc _.
  transitivity (m' ← exec_op false op (u32 (pc mc + 4)) mc; Some m'); [done|]. by rewrite Hx.
Qed.

(** ** Registers *)

Create HintDb arm_ops.
#[export] Hint Unfold emit_al ASM_ARM_CC_AL asm_arm_op_mov_reg asm_arm_op_mov_imm asm_arm_op_mvn_imm
  asm_arm_op_mvn_reg asm_arm_op_add_imm asm_arm_op_add_reg asm_arm_op_sub_imm asm_arm_op_sub_reg
  asm_arm_op_rsb_imm asm_arm_op_and_reg asm_arm_op_eor_reg asm_arm_op_orr_reg asm_arm_op_push asm_arm_op_pop
  asm_arm_mov_reg_reg asm_arm_mov_local_reg asm_arm_mov_reg_local asm_arm_cmp_reg_i8 asm_arm_cmp_reg_reg
  asm_arm_mvn_reg_reg asm_arm_add_reg_reg_reg asm_arm_rsb_reg_reg_imm asm_arm_sub_reg_reg_reg
  asm_arm_and_reg_reg_reg asm_arm_eor_reg_reg_reg asm_arm_orr_reg_reg_reg asm_arm_lsl_reg_reg
  asm_arm_lsr_reg_reg asm_arm_asr_reg_reg asm_arm_ldrb_reg_reg_reg asm_arm_ldr_reg_reg_reg
  asm_arm_str_reg_reg_reg asm_arm_strb_reg_reg_reg asm_arm_bx_reg
  REG_TEMP ASM_ARM_REG_R8 ASM_ARM_REG_SP ASM_ARM_REG_R13 ASM_ARM_REG_PC ASM_ARM_REG_R15 ASM_ARM_REG_LR
  ASM_ARM_REG_R14 : arm_ops.

Ltac arm_exec_tac :=
  intros next mc; cbn [exec_op]; rewrite ?gpr_not_pc, ?write_gpr, ?value_reg, ?read_gpr by done; cbv iota beta.
Ltac arm_op o := apply (arm_performs _ _ o); [autounfold with arm_ops; arm_word 14|arm_exec_tac].

(** The bounds of a register, for [bitsolve]. *)
Ltac range H := let H' := fresh in pose proof H as H'; unfold gpr in H'.

(** An immediate of eight bits, not rotated. *)
Lemma ror32_byte v : 0 <= v < 256 -> ror32 v (2 * 0) = v.
Proof. intros Hv. unfold ror32. change (2 * 0) with 0. change (32 - 0) with 32. bitsolve. Qed.
Ltac arm_imm := autounfold with arm_ops; apply assembles_emit, (decode_cc _ 14); [done|bitsolve|];
  unfold decode_op; cbv zeta; decode_fields; cbn [fmap option_fmap option_map];
  match goal with |- context [ror32 (bits ?w 0 8) _] =>
    let v := fresh "v" in set (v := bits w 0 8); assert (0 <= v < 256) by (apply (uw_range 8); done);
    rewrite (ror32_byte v) by done; subst v end; repeat f_equal; bitsolve.

Section Registers.
Context (s : asm_arm_t) (rd rn rm : Z) (Hd : gpr rd) (Hn : gpr rn) (Hm : gpr rm).

(** The three-register instructions and what they compute. *)
Definition arm_binary : list ((Z -> Z -> Z -> M asm_arm_t unit) * (Z -> Z -> Z)) :=
  [(asm_arm_add_reg_reg_reg, Z.add); (asm_arm_sub_reg_reg_reg, Z.sub); (asm_arm_and_reg_reg_reg, Z.land);
   (asm_arm_eor_reg_reg_reg, Z.lxor); (asm_arm_orr_reg_reg_reg, Z.lor)].
Lemma arm_binary_performs op f : In (op, f) arm_binary ->
  performs s (op rd rn rm) (fun mc => set_reg rd (u32 (f (reg rn mc) (reg rm mc))) mc).
Proof using Hd Hn Hm.
  range Hd. range Hn. range Hm. intros Hin. repeat destruct Hin as [[= <- <-] | Hin]; [..|done].
  - arm_op (DP false ADD rd rn (Shifted rm 0)). cbn [dp_exec]. by rewrite uw_add_l, uw_add_r by done.
  - arm_op (DP false SUB rd rn (Shifted rm 0)). cbn [dp_exec]. by rewrite uw_sub_l, uw_sub_r by done.
  - arm_op (DP false AND rd rn (Shifted rm 0)). cbn [dp_exec]. do 3 f_equal. bitsolve.
  - arm_op (DP false EOR rd rn (Shifted rm 0)). cbn [dp_exec]. do 3 f_equal. bitsolve.
  - arm_op (DP false ORR rd rn (Shifted rm 0)). cbn [dp_exec]. do 3 f_equal. bitsolve.
Qed.

Lemma arm_mul_performs : rd <> rm ->
  performs s (asm_arm_mul_reg_reg_reg rd rn rm) (fun mc => set_reg rd (u32 (reg rn mc * reg rm mc)) mc).
Proof using Hd Hn Hm.
  range Hd. range Hn. range Hm. intros Hne. eapply (implements_ext _ _ (emit_al (0x0000090 .| rd << 16 .| rn << 8 .| rm))).
  { unfold asm_arm_mul_reg_reg_reg, asm_arm_op_mul_reg. by destruct (Z.eqb_spec rd rm). }
  arm_op (MUL false rd rm rn). by rewrite uw_mul_l, uw_mul_r, Z.mul_comm by done.
Qed.
(** The instruction does not allow the same register twice. *)
Lemma arm_mul_fault : asm_arm_mul_reg_reg_reg rd rn rd s = Fault (Assertion "rd!=rm").
Proof using. unfold asm_arm_mul_reg_reg_reg, asm_arm_op_mul_reg. by rewrite Z.eqb_refl. Qed.

Lemma arm_mov_reg_performs : performs s (asm_arm_mov_reg_reg rd rn) (fun mc => set_reg rd (u32 (reg rn mc)) mc).
Proof using Hd Hn. range Hd. range Hn. by arm_op (MOV false rd (Shifted rn 0)). Qed.
Lemma arm_mvn_performs :
  performs s (asm_arm_mvn_reg_reg rd rn) (fun mc => set_reg rd (u32 (Z.lnot (reg rn mc))) mc).
Proof using Hd Hn.
  range Hd. range Hn. arm_op (MVN false rd (Shifted rn 0)). do 3 f_equal.
  assert (forall x, Z.lnot x = -1 - x) as E by (unfold Z.lnot; lia). by rewrite !E, uw_sub_r.
Qed.

Lemma arm_rsb_imm_performs imm :
  performs s (asm_arm_rsb_reg_reg_imm rd rn imm) (fun mc => set_reg rd (u32 (u8 imm - reg rn mc)) mc).
Proof using Hd Hn.
  range Hd. range Hn. apply (arm_performs _ _ (DP false RSB rd rn (Imm (u8 imm)))); [arm_imm|arm_exec_tac].
  cbn [dp_exec value]. by rewrite uw_sub_r by done.
Qed.
Lemma arm_add_imm_performs imm :
  performs s (emit_al (asm_arm_op_add_imm rd rn imm)) (fun mc => set_reg rd (u32 (reg rn mc + u8 imm)) mc).
Proof using Hd Hn.
  range Hd. range Hn. apply (arm_performs _ _ (DP false ADD rd rn (Imm (u8 imm)))); [arm_imm|arm_exec_tac].
  cbn [dp_exec value]. by rewrite uw_add_l by done.
Qed.
Lemma arm_sub_imm_performs imm :
  performs s (emit_al (asm_arm_op_sub_imm rd rn imm)) (fun mc => set_reg rd (u32 (reg rn mc - u8 imm)) mc).
Proof using Hd Hn.
  range Hd. range Hn. apply (arm_performs _ _ (DP false SUB rd rn (Imm (u8 imm)))); [arm_imm|arm_exec_tac].
  cbn [dp_exec value]. by rewrite uw_sub_l by done.
Qed.
Lemma arm_mov_imm_assembles cc imm : cc4 cc -> 0 <= imm < 256 ->
  assembles s (emit (asm_arm_op_mov_imm rd imm .| cc << 28)) [((cc, MOV false rd (Imm imm)), 4)].
Proof using Hd.
  range Hd. unfold cc4. intros Hcc Hi. apply assembles_emit, (decode_cc _ cc); [done|unfold asm_arm_op_mov_imm; bitsolve|].
  unfold asm_arm_op_mov_imm. unfold decode_op; cbv zeta; decode_fields. cbn [fmap option_fmap option_map].
  replace (bits _ 0 8) with imm by (symmetry; bitsolve). rewrite ror32_byte by done. repeat f_equal; bitsolve.
Qed.
Lemma arm_mvn_imm_performs imm : 0 <= imm < 256 ->
  performs s (emit_al (asm_arm_op_mvn_imm rd imm)) (set_reg rd (u32 (Z.lnot imm))).
Proof using Hd.
  range Hd. intros Hi. apply (arm_performs _ _ (MVN false rd (Imm imm))); [|arm_exec_tac; done].
  autounfold with arm_ops; apply assembles_emit, (decode_cc _ 14); [done|bitsolve|];
  unfold decode_op; cbv zeta; decode_fields; cbn [fmap option_fmap option_map].
  replace (bits _ 0 8) with imm by (symmetry; bitsolve). rewrite ror32_byte by done. repeat f_equal; bitsolve.
Qed.

(** The shifts take the low byte of the count. *)
Definition arm_shifts : list ((Z -> Z -> M asm_arm_t unit) * (Z -> Z -> Z)) :=
  [(asm_arm_lsl_reg_reg, fun a n => a << n); (asm_arm_lsr_reg_reg, fun a n => u32 a >> n);
   (asm_arm_asr_reg_reg, fun a n => s32 a >> n)].
Lemma arm_shift_performs op f : In (op, f) arm_shifts ->
  performs s (op rd rn) (fun mc => set_reg rd (u32 (f (reg rd mc) (u8 (reg rn mc)))) mc).
Proof using Hd Hn.
  range Hd. range Hn. assert (forall x, u8 (u32 x) = u8 x) as Eu by (intros x; bitsolve).
  intros Hin. repeat destruct Hin as [[= <- <-] | Hin]; [..|done].
  - arm_op (MOV false rd (ShiftedBy LSL rd rn)). cbn [value shifted]. rewrite !read_gpr, Eu by done.
    pose proof (uw_range 8 eq_refl (reg rn mc)). rewrite !Z.shiftl_mul_pow2 by lia. by rewrite uw_mul_l.
  - arm_op (MOV false rd (ShiftedBy LSR rd rn)). cbn [value shifted]. by rewrite !read_gpr, Eu, uw_uw.
  - arm_op (MOV false rd (ShiftedBy ASR rd rn)). cbn [value shifted]. by rewrite !read_gpr, Eu, sw_uw.
Qed.
End Registers.

(** ** Memory *)

(** The words of the immediate and of the register forms. *)
Definition imm_word (l : bool) (sz : size) : Z :=
  match sz, l with
  | Word, true => 0x5900000 | Word, false => 0x5800000
  | Byte, true => 0x5d00000 | Byte, false => 0x5c00000
  | Half, true => 0x1d000b0 | Half, false => 0x1c000b0
  end.
Definition reg_word (l : bool) (sz : size) : Z :=
  match sz, l with
  | Word, true => 0x7900000 | Word, false => 0x7800000
  | Byte, true => 0x7d00000 | Byte, false => 0x7c00000
  | Half, true => 0x19000b0 | Half, false => 0x18000b0
  end.
Definition offset_field (sz : size) (off : Z) : Z :=
  match sz with Half => (off .& 0xf0) << 4 .| off .& 0xf | _ => off end.
Definition offset_limit (sz : size) : Z := match sz with Half => 0x100 | _ => 0x1000 end.

Section Memory.
Context (s : asm_arm_t) (l : bool) (sz : size) (rd rn : Z) (Hd : gpr rd) (Hn : gpr rn).

Lemma arm_access_performs op off (a : machine -> Z) : assembles s op [((14, ldst l sz rd rn off), 4)] ->
  (forall m, address false rn off m = a m) -> performs s op (fun mc => access l sz rd (a mc) mc).
Proof using Hd.
  intros Ha He. apply (arm_performs _ _ _ _ Ha). intros next mc. destruct l; cbn [ldst exec_op access]; rewrite He.
  - unfold load_reg. by rewrite gpr_not_pc.
  - by rewrite read_gpr.
Qed.

Lemma arm_access_imm_performs off : 0 <= off < offset_limit sz ->
  performs s (emit_al (imm_word l sz .| rn << 16 .| rd << 12 .| offset_field sz off))
    (fun mc => access l sz rd (u32 (reg rn mc + off)) mc).
Proof using Hd Hn.
  range Hd. range Hn. intros Ho. eapply arm_access_performs; [|by apply (address_imm false rn Hn off)].
  destruct sz, l; simpl in Ho |- *; autounfold with arm_ops; arm_word 14.
Qed.
Lemma arm_access_reg_performs rm : gpr rm ->
  performs s (emit_al (reg_word l sz .| rn << 16 .| rd << 12 .| rm))
    (fun mc => access l sz rd (u32 (reg rn mc + reg rm mc)) mc).
Proof using Hd Hn.
  range Hd. range Hn. intros Hm. range Hm.
  eapply arm_access_performs; [|intros m; rewrite (address_reg false rn Hn rm 0 m Hm) by done; by rewrite Z.shiftl_0_r].
  destruct sz, l; simpl; autounfold with arm_ops; arm_word 14.
Qed.
End Memory.

(** A word whose index is scaled. *)
Lemma arm_access_scaled_performs s (l : bool) rd rn rm : gpr rd -> gpr rn -> gpr rm ->
  performs s (emit_al (reg_word l Word .| 0x100 .| rn << 16 .| rd << 12 .| rm))
    (fun mc => access l Word rd (u32 (reg rn mc + 4 * reg rm mc)) mc).
Proof.
  intros Hd Hn Hm. range Hd. range Hn. range Hm.
  eapply (arm_access_performs s l Word rd rn Hd); [|intros m; rewrite (address_reg false rn Hn rm 2 m Hm) by done;
    rewrite Z.shiftl_mul_pow2 by done; by replace (reg rm m * 2 ^ 2) with (4 * reg rm m) by lia].
  destruct l; simpl; autounfold with arm_ops; arm_word 14.
Qed.
(** An index shifted left by one, in the temporary. *)
Lemma arm_double_performs s rd rn : gpr rd -> gpr rn ->
  performs s (emit_al (0x1a00080 .| rd << 12 .| rn)) (fun mc => set_reg rd (u32 (2 * reg rn mc)) mc).
Proof.
  intros Hd Hn. range Hd. range Hn. arm_op (MOV false rd (Shifted rn 1)). cbn [value]. rewrite read_gpr by done.
  rewrite Z.shiftl_mul_pow2, Z.mul_comm, uw_mul_r by done. done.
Qed.

(** ** Words in the code *)

(** The word of a literal is loaded over the branch around it. *)
Lemma arm_literal_implements s rd imm : gpr rd ->
  implements_when readable s s (emit_al (0x59f0000 .| rd << 12);; emit_al 0xa000000;; emit imm)
    (fun n mc mc' => n = 12 /\ mc' = set_pc (u32 (pc mc + n)) (set_reg rd (u32 imm) mc)).
Proof.
  intros Hd. range Hd.
  assert (assembles s (emit_al (0x59f0000 .| rd << 12)) [((14, LDR Word rd 15 (OffImm 0)), 4)]) as A1
    by (autounfold with arm_ops; arm_word 14).
  assert (forall t, assembles t (emit_al 0xa000000) [((14, B 0), 4)]) as A2
    by (intros t; apply assembles_emit; done).
  destruct A1 as (bs1 & E1 & D1). destruct (A2 (puts bs1 s)) as (bs2 & E2 & D2).
  pose proof (disasm_length _ _ D1) as L1. pose proof (disasm_length _ _ D2) as L2.
  change (code_len [_]) with 4 in L1, L2.
  split; [done|]. exists (bs1 ++ bs2 ++ le_bytes 4 imm). split.
  { apply emits_seq; [exact E1|]. apply emits_seq; [exact E2|apply arm_emits_word]. }
  intros code mc Hw Hc Hr. rewrite app_assoc in Hc, Hr. apply code_at_app in Hc as [Hc _].
  pose proof (readable_word (bs1 ++ bs2) imm [] mc) as Hl. rewrite app_nil_r in Hl. specialize (Hl Hr).
  rewrite length_app, Nat2Z.inj_add, L1, L2 in Hl.
  exists (set_pc (u32 (pc mc + 12)) (set_reg rd (u32 imm) mc)). split.
  - eapply runs_straight; [exact (disasm_app _ _ _ _ D1 D2)|exact Hc|].
    etransitivity; [apply (exec_straight_cons (H := Arm) _ _ _ _ (set_pc (u32 (pc mc + 4)) (set_reg rd (u32 imm) mc)))|].
    + transitivity (Some (load_reg rd (load 32 4 (mem mc) (address false 15 (OffImm 0) mc)) (set_pc (u32 (pc mc + 4)) mc))); [done|].
      unfold load_reg. rewrite gpr_not_pc by done. rewrite (load_cong 32 eq_refl 4 _ _ (pc mc + (4 + 4))); [by rewrite Hl|].
      apply (address_literal false), Hr.
    + done.
    + transitivity (Some (set_pc (u32 (u32 (pc mc + 4) + 8 + 0)) (set_reg rd (u32 imm) mc))); [done|].
      rewrite Z.add_0_r, uw_add_l by done. by rewrite <- Z.add_assoc.
  - assert (Z.of_nat (length (bs1 ++ bs2 ++ le_bytes 4 imm)) = 12) as ->; [|done].
    rewrite !length_app, length_le_bytes. lia.
Qed.
Lemma arm_literal_performs s rd imm : gpr rd ->
  performs_when readable s (emit_al (0x59f0000 .| rd << 12);; emit_al 0xa000000;; emit imm) (set_reg rd (u32 imm)).
Proof. intros Hd. eapply when_mono; [by apply arm_literal_implements|done|]. by intros n mc mc' [_ ->]. Qed.


(** ** Constants *)

Lemma arm_mov_imm_performs s rd imm : gpr rd -> 0 <= imm < 256 ->
  performs s (emit_al (asm_arm_op_mov_imm rd imm)) (set_reg rd (u32 imm)).
Proof.
  intros Hd Hi. apply (arm_performs _ _ (MOV false rd (Imm imm))); [by apply (arm_mov_imm_assembles s rd Hd 14)|arm_exec_tac].
  by rewrite (uw_small 32 imm) by pow_lia.
Qed.
Lemma arm_mov_reg_i32_performs s rd imm : gpr rd ->
  performs_when readable s (asm_arm_mov_reg_i32 rd imm;; mret tt) (set_reg rd (u32 imm)).
Proof.
  intros Hd. eapply when_ext; [done| |by apply arm_literal_performs].
  unfold asm_arm_mov_reg_i32. rewrite bind_assoc. apply bind_ext. intros _ t. rewrite bind_assoc.
  apply bind_ext. intros _ u. rewrite bind_assoc.
  unfold mbind at 1, M_bind. unfold on_base, mp_asm_base_get_code_pos, gets. rewrite with_base_of.
  unfold mbind, M_bind. by destruct (emit imm u) as [[[] ?]|].
Qed.
(** A constant, in the shortest of three ways. *)
Lemma arm_mov_i32_optimised_performs s rd imm : gpr rd ->
  performs_when readable s (asm_arm_mov_reg_i32_optimised rd imm) (set_reg rd (u32 imm)).
Proof.
  intros Hd. unfold asm_arm_mov_reg_i32_optimised.
  destruct (Z.eqb_spec (imm .& 0xFF) imm) as [E|_].
  { apply when_implements, arm_mov_imm_performs; [done|]. rewrite <- E.
    change 0xFF with (Z.ones 8). rewrite Z.land_ones by done. by apply Z.mod_pos_bound. }
  destruct ((imm <? 0) && (- 256 <=? imm)) eqn:E; [|by apply arm_mov_reg_i32_performs].
  apply andb_prop in E as [?%Z.ltb_lt ?%Z.leb_le].
  apply when_implements. eapply performs_ext; [|apply arm_mvn_imm_performs; [done|unfold Z.lnot; lia]].
  intros mc. by rewrite Z.lnot_involutive.
Qed.

(** ** Comparisons *)

Lemma arm_cmp_exec rn o a b mc : read false rn mc = u32 a -> value false o mc = u32 b ->
  exec_straight (H := Arm) [((14, CMP rn o), 4)] mc = Some (set_pc (u32 (pc mc + 4)) (compared a b mc)).
Proof.
  intros Ha Hb. transitivity (m' ← exec_op false (CMP rn o) (u32 (pc mc + 4)) mc; Some m'); [done|].
  cbn [exec_op]. rewrite Ha, Hb. done.
Qed.
Lemma arm_cmp_reg_assembles s rd rn : gpr rd -> gpr rn ->
  assembles s (asm_arm_cmp_reg_reg rd rn) [((14, CMP rd (Shifted rn 0)), 4)].
Proof. intros Hd Hn. range Hd. range Hn. autounfold with arm_ops. arm_word 14. Qed.
Lemma arm_cmp_i8_assembles s rd imm : gpr rd ->
  assembles s (asm_arm_cmp_reg_i8 rd imm) [((14, CMP rd (Imm (u8 imm))), 4)].
Proof. intros Hd. range Hd. arm_imm. Qed.
(** One of two moves under opposite conditions is done. *)
Lemma arm_setcc_performs s rd cc : gpr rd -> 0 <= cc < 14 ->
  performs s (asm_arm_setcc_reg rd (cc << 28)) (fun mc => set_reg rd (Z.b2z (cond cc mc)) mc).
Proof.
  intros Hd Hcc. eapply assembles_performs.
  - eapply (assembles_ext _ _ (emit (asm_arm_op_mov_imm rd 1 .| cc << 28);; emit (asm_arm_op_mov_imm rd 0 .| (cc .^ 1) << 28))).
    { unfold asm_arm_setcc_reg. by replace (cc << 28 .^ 1 << 28) with ((cc .^ 1) << 28) by bitsolve. }
    apply (assembles_seq (H0 := Arm) s _ _ [((cc, MOV false rd (Imm 1)), 4)] [((cc .^ 1, MOV false rd (Imm 0)), 4)]); [by apply (arm_mov_imm_assembles s rd Hd cc 1); unfold cc4; lia|].
    intros bs _. apply (arm_mov_imm_assembles _ rd Hd (cc .^ 1) 0); [|done]. by enumerate 14%nat cc.
  - intros mc _. change (code_len _) with 8.
    set (m1 := set_pc (u32 (pc mc + 4)) (if cond cc mc then set_reg rd 1 mc else mc)).
    etransitivity; [apply (exec_straight_cons (H := Arm) _ _ _ _ m1)|].
    + transitivity (arm_exec false (cc, MOV false rd (Imm 1)) 4 mc); [done|]. unfold arm_exec, m1. cbn [fst snd exec_op].
      rewrite write_gpr by done. by destruct (cond cc mc).
    + done.
    + transitivity (m' ← arm_exec false (cc .^ 1, MOV false rd (Imm 0)) 4 m1; Some m'); [done|]. unfold arm_exec. cbn [fst snd exec_op].
      rewrite cond_opposite by done.
      assert (cond cc m1 = cond cc mc) as ->.
      { transitivity (cond cc (if cond cc mc then set_reg rd 1 mc else mc)); [done|].
        destruct (cond cc mc) eqn:E; [by rewrite cond_set_reg|done]. }
      assert (u32 (pc m1 + 4) = u32 (pc mc + 8)) as -> by (unfold m1; rewrite pc_set_pc, uw_add_l, <- Z.add_assoc by done; done).
      rewrite write_gpr by done. unfold m1. by destruct (cond cc mc).
Qed.
