(* ===== verification/AsmArmPass.v ===== *)
(** * AsmArmPass: the passes over ARM programs agree

    Every operation of the ARM back end writes as many bytes in both passes.
    A branch is one word wherever its label is, as long as the label is in
    reach; a branch out of reach would emit nothing, so the code is bounded by
    the reach of a branch. *)

From S2P Require Import Prelude AsmBase TwoPass AsmBaseSpec PyMisc AsmArm.

Set Default Goal Selector "!".

#[local] Existing Instance SizeT_32.
Import AsmArm.GenericApi.

(** Branches reach 32 MB: within so much code every one of them fits. *)
Definition arm_limit : Z := 2 ^ 25 - 16.
Lemma arm_limit_ok : 0 < arm_limit < 2 ^ size_bits - 1.
Proof. done. Qed.
#[export] Hint Resolve arm_limit_ok : steady.

(** ** Writing words *)

Section Words.
Context (agree : asm_arm_t -> asm_arm_t -> Prop).
Context (agree_base : forall b b' s s', agree s s' -> agree (with_base b s) (with_base b' s')).
Abbreviation arm_steady := (steady arm_limit agree).
Ltac arm_op := steady_op_tac ltac:(done).

Lemma arm_paired_emit w w' : paired arm_limit agree 4 (emit w) (emit w').
Proof using agree_base. apply paired_put_array; [apply arm_limit_ok|done|bytes_tac..|done|done]. Qed.
Lemma arm_steady_emit w : arm_steady 4 (emit w).
Proof using agree_base. apply arm_paired_emit. Qed.
Hint Resolve arm_steady_emit : steady.
Lemma arm_steady_emit_al w : arm_steady 4 (emit_al w).
Proof using agree_base. apply arm_steady_emit. Qed.
Hint Resolve arm_steady_emit_al : steady.
Lemma arm_steady_i32 rd imm : arm_steady 12 (asm_arm_mov_reg_i32 rd imm).
Proof using agree_base.
  unfold asm_arm_mov_reg_i32. do 2 (eapply steady_then; [by apply arm_steady_emit_al|lia|intros _]).
  apply steady_code_pos; [|done]. intros o _. arm_op.
Qed.
Hint Resolve arm_steady_i32 : steady.
Lemma arm_steady_i32_optimised rd imm : arm_steady 12 (asm_arm_mov_reg_i32_optimised rd imm).
Proof using agree_base. unfold asm_arm_mov_reg_i32_optimised. arm_op. Qed.
Lemma arm_steady_mul_word rd rm rs : arm_steady 0 (asm_arm_op_mul_reg rd rm rs).
Proof using agree_base. unfold asm_arm_op_mul_reg. arm_op. Qed.
End Words.
#[export] Hint Resolve arm_paired_emit arm_steady_emit arm_steady_emit_al arm_steady_mul_word arm_steady_i32
  arm_steady_i32_optimised : steady.

(** ** The list of saved registers and the size of the frame *)

Definition arm_agree (s s' : asm_arm_t) : Prop :=
  stack_adjust s' = stack_adjust s /\ push_reglist s' = push_reglist s.
Lemma arm_agree_base b b' s s' : arm_agree s s' -> arm_agree (with_base b s) (with_base b' s').
Proof. done. Qed.
#[export] Hint Resolve arm_agree_base : steady.

Abbreviation arm_steady := (steady arm_limit arm_agree).
Ltac arm_fields :=
  intros ? ? [E1 E2]; unfold arm_agree, set_push_reglist, set_stack_adjust in *; simpl in *;
  rewrite ?E1, ?E2; done.
Ltac arm_op := steady_op_tac arm_fields.

Lemma arm_steady_exit : arm_steady 20 asm_arm_exit.
Proof.
  unfold asm_arm_exit. apply steady_gets; [arm_fields|intros s].
  eapply (steady_then _ _ 16); [arm_op|lia|intros _; arm_op].
Qed.
#[export] Hint Resolve arm_steady_exit : steady.

Definition arm_start (s s' : asm_arm_t) : Prop := True.
Definition arm_start_adjust (s s' : asm_arm_t) : Prop := stack_adjust s' = stack_adjust s.

Lemma arm_enters_entry n : enters arm_limit arm_start arm_agree 20 (asm_arm_entry n).
Proof.
  unfold asm_arm_entry.
  eapply (enters_then _ _ arm_start _ 0); [|lia|intros _].
  { apply steady_enters. eapply steady_assert; try done; apply arm_limit_ok. }
  eapply (enters_then _ _ arm_start_adjust _ 0); [|lia|intros _].
  { by apply enters_modify; [apply off_table_none|]. }
  eapply (enters_then _ _ arm_agree _ 0); [|lia|intros _].
  { by apply enters_modify; [apply off_table_none|]. }
  apply steady_enters. eapply (steady_then _ _ 0); [arm_op|lia|intros _].
  eapply steady_gets; [arm_fields|intros s]. arm_op.
Qed.

(** ** Labels *)

Section Labels.
Context `{PyMisc}.

(** Within the limit a branch fits, be its label known or not. *)
Lemma arm_branch_fits d o : 0 <= o <= arm_limit -> d = unassigned \/ 0 <= d <= arm_limit ->
  MP_FIT_SIGNED 24 (s32 (s32 (d - o) - 8) >> 2) = true.
Proof.
  unfold arm_limit. intros Ho Hd.
  assert (s32 (d - o) = if decide (d = unassigned) then - 1 - o else d - o) as ->.
  { destruct (decide _) as [->|]; [|destruct Hd as [|Hd]; [done|]; apply (sw_small 32 eq_refl); simpl; lia].
    rewrite <- (Z.add_0_r (unassigned - o)), s32_unassigned by lia. lia. }
  set (x := if decide _ then _ else _).
  assert (- 2 ^ 25 <= x - 8 < 2 ^ 25 - 8) as Hx by (subst x; destruct (decide _), Hd; lia).
  rewrite (sw_small 32 eq_refl) by (simpl; lia).
  assert (- 2 ^ 23 <= (x - 8) >> 2 < 2 ^ 23) as Hs.
  { rewrite Z.shiftr_div_pow2 by done. split.
    - apply Z.div_le_lower_bound; lia.
    - apply Z.div_lt_upper_bound; lia. }
  apply MP_FIT_SIGNED_spec; simpl; lia.
Qed.

Lemma arm_steady_bcc cond l : arm_steady 4 (asm_arm_bcc_label cond l).
Proof.
  unfold asm_arm_bcc_label. cbv zeta. label_tac.
  - intros d o. destruct (MP_FIT_SIGNED _ _); [arm_op|]. eapply steady_le; [|apply steady_ret]; lia.
  - intros o y Ho Hy. rewrite !arm_branch_fits by (lia || auto with lia). paired_op_tac arm_fields.
Qed.
Lemma arm_steady_pcrel rd l : arm_steady 16 (asm_arm_mov_reg_pcrel rd l).
Proof.
  unfold asm_arm_mov_reg_pcrel, asm_arm_add_reg_reg_reg. cbv zeta. label_tac.
  - intros d o. arm_op.
  - intros o y Ho Hy. paired_op_tac arm_fields.
Qed.
End Labels.
#[export] Hint Resolve arm_steady_bcc arm_steady_pcrel : steady.

(** ** Programs *)

(** The functions that only emit or call another one. *)
Create HintDb arm_calls.
#[export] Hint Unfold
  ASM_END_PASS ASM_ENTRY ASM_EXIT ASM_JUMP ASM_JUMP_IF_REG_ZERO ASM_JUMP_IF_REG_NONZERO
  ASM_JUMP_IF_REG_EQ ASM_JUMP_REG ASM_CALL_IND ASM_MOV_LOCAL_REG ASM_MOV_REG_IMM
  ASM_MOV_REG_LOCAL ASM_MOV_REG_REG ASM_MOV_REG_LOCAL_ADDR ASM_MOV_REG_PCREL ASM_NOT_REG
  ASM_NEG_REG ASM_LSL_REG_REG ASM_LSR_REG_REG ASM_ASR_REG_REG ASM_OR_REG_REG ASM_XOR_REG_REG
  ASM_AND_REG_REG ASM_ADD_REG_REG ASM_SUB_REG_REG ASM_MUL_REG_REG ASM_LOAD32_REG_REG_OFFSET
  ASM_LOAD_REG_REG_OFFSET ASM_LOAD8_REG_REG_OFFSET ASM_LOAD8_REG_REG ASM_LOAD16_REG_REG_OFFSET
  ASM_LOAD16_REG_REG ASM_LOAD32_REG_REG ASM_STORE32_REG_REG_OFFSET ASM_STORE_REG_REG_OFFSET
  ASM_STORE8_REG_REG_OFFSET ASM_STORE8_REG_REG ASM_STORE16_REG_REG_OFFSET ASM_STORE16_REG_REG
  ASM_STORE32_REG_REG ASM_LOAD8_REG_REG_REG ASM_LOAD16_REG_REG_REG ASM_LOAD32_REG_REG_REG
  ASM_STORE8_REG_REG_REG ASM_STORE16_REG_REG_REG ASM_STORE32_REG_REG_REG ASM_CLR_REG
  asm_arm_end_pass asm_arm_bkpt asm_arm_push asm_arm_pop asm_arm_mov_reg_reg
  asm_arm_mov_local_reg asm_arm_mov_reg_local asm_arm_cmp_reg_i8 asm_arm_cmp_reg_reg
  asm_arm_setcc_reg asm_arm_mvn_reg_reg asm_arm_add_reg_reg_reg asm_arm_rsb_reg_reg_imm
  asm_arm_sub_reg_reg_reg asm_arm_mul_reg_reg_reg asm_arm_and_reg_reg_reg
  asm_arm_eor_reg_reg_reg asm_arm_orr_reg_reg_reg asm_arm_mov_reg_local_addr
  asm_arm_lsl_reg_reg asm_arm_lsr_reg_reg asm_arm_asr_reg_reg asm_arm_ldr_reg_reg_offset
  asm_arm_ldrh_reg_reg_reg asm_arm_ldrh_reg_reg_offset asm_arm_ldrb_reg_reg_reg
  asm_arm_ldrb_reg_reg_offset asm_arm_ldr_reg_reg_reg asm_arm_str_reg_reg_offset
  asm_arm_strh_reg_reg_offset asm_arm_strb_reg_reg_offset asm_arm_str_reg_reg_reg
  asm_arm_strh_reg_reg_reg asm_arm_strb_reg_reg_reg asm_arm_b_label asm_arm_bl_ind
  asm_arm_bx_reg : arm_calls.

Section Programs.
Context `{PyMisc}.


Inductive arm_op :=
| Shared (op : base_op)
| EndPass | Exit | Jump (label : Z) | JumpIfRegZero (reg label : Z) (bool_test : bool)
| JumpIfRegNonzero (reg label : Z) (bool_test : bool) | JumpIfRegEq (reg1 reg2 label : Z)
| JumpReg (reg : Z) | CallInd (idx : Z) | MovLocalReg (local_num reg_src : Z)
| MovRegImm (reg_dest imm : Z) | MovRegLocal (reg_dest local_num : Z)
| MovRegReg (reg_dest reg_src : Z) | MovRegLocalAddr (reg_dest local_num : Z)
| MovRegPcrel (reg_dest label : Z) | NotReg (reg_dest : Z) | NegReg (reg_dest : Z)
| LslRegReg (reg_dest reg_shift : Z) | LsrRegReg (reg_dest reg_shift : Z)
| AsrRegReg (reg_dest reg_shift : Z) | OrRegReg (reg_dest reg_src : Z)
| XorRegReg (reg_dest reg_src : Z) | AndRegReg (reg_dest reg_src : Z)
| AddRegReg (reg_dest reg_src : Z) | SubRegReg (reg_dest reg_src : Z)
| MulRegReg (reg_dest reg_src : Z) | Load32RegRegOffset (reg_dest reg_base word_offset : Z)
| LoadRegRegOffset (reg_dest reg_base word_offset : Z)
| Load8RegRegOffset (reg_dest reg_base byte_offset : Z) | Load8RegReg (reg_dest reg_base : Z)
| Load16RegRegOffset (reg_dest reg_base halfword_offset : Z)
| Load16RegReg (reg_dest reg_base : Z) | Load32RegReg (reg_dest reg_base : Z)
| Store32RegRegOffset (reg_value reg_base word_offset : Z)
| StoreRegRegOffset (reg_value reg_base word_offset : Z)
| Store8RegRegOffset (reg_value reg_base byte_offset : Z)
| Store8RegReg (reg_value reg_base : Z)
| Store16RegRegOffset (reg_value reg_base halfword_offset : Z)
| Store16RegReg (reg_value reg_base : Z) | Store32RegReg (reg_value reg_base : Z)
| Load8RegRegReg (reg_dest reg_base reg_index : Z)
| Load16RegRegReg (reg_dest reg_base reg_index : Z)
| Load32RegRegReg (reg_dest reg_base reg_index : Z)
| Store8RegRegReg (reg_val reg_base reg_index : Z)
| Store16RegRegReg (reg_val reg_base reg_index : Z)
| Store32RegRegReg (reg_val reg_base reg_index : Z) | ClrReg (reg_dest : Z) | Bkpt
| PushList (reglist : Z) | PopList (reglist : Z) | SetccReg (rd cond : Z)
| BccLabel (cond label : Z) | CmpRegReg (rd rn : Z) | MovRegI32 (rd imm : Z).

Definition arm_exec (op : arm_op) : M asm_arm_t unit :=
  match op with
  | Shared op => on_base (base_exec op)
  | EndPass => ASM_END_PASS
  | Exit => ASM_EXIT
  | Jump label => ASM_JUMP label
  | JumpIfRegZero reg label bool_test => ASM_JUMP_IF_REG_ZERO reg label bool_test
  | JumpIfRegNonzero reg label bool_test => ASM_JUMP_IF_REG_NONZERO reg label bool_test
  | JumpIfRegEq reg1 reg2 label => ASM_JUMP_IF_REG_EQ reg1 reg2 label
  | JumpReg reg => ASM_JUMP_REG reg
  | CallInd idx => ASM_CALL_IND idx
  | MovLocalReg local_num reg_src => ASM_MOV_LOCAL_REG local_num reg_src
  | MovRegImm reg_dest imm => ASM_MOV_REG_IMM reg_dest imm
  | MovRegLocal reg_dest local_num => ASM_MOV_REG_LOCAL reg_dest local_num
  | MovRegReg reg_dest reg_src => ASM_MOV_REG_REG reg_dest reg_src
  | MovRegLocalAddr reg_dest local_num => ASM_MOV_REG_LOCAL_ADDR reg_dest local_num
  | MovRegPcrel reg_dest label => ASM_MOV_REG_PCREL reg_dest label
  | NotReg reg_dest => ASM_NOT_REG reg_dest
  | NegReg reg_dest => ASM_NEG_REG reg_dest
  | LslRegReg reg_dest reg_shift => ASM_LSL_REG_REG reg_dest reg_shift
  | LsrRegReg reg_dest reg_shift => ASM_LSR_REG_REG reg_dest reg_shift
  | AsrRegReg reg_dest reg_shift => ASM_ASR_REG_REG reg_dest reg_shift
  | OrRegReg reg_dest reg_src => ASM_OR_REG_REG reg_dest reg_src
  | XorRegReg reg_dest reg_src => ASM_XOR_REG_REG reg_dest reg_src
  | AndRegReg reg_dest reg_src => ASM_AND_REG_REG reg_dest reg_src
  | AddRegReg reg_dest reg_src => ASM_ADD_REG_REG reg_dest reg_src
  | SubRegReg reg_dest reg_src => ASM_SUB_REG_REG reg_dest reg_src
  | MulRegReg reg_dest reg_src => ASM_MUL_REG_REG reg_dest reg_src
  | Load32RegRegOffset reg_dest reg_base word_offset => ASM_LOAD32_REG_REG_OFFSET reg_dest reg_base word_offset
  | LoadRegRegOffset reg_dest reg_base word_offset => ASM_LOAD_REG_REG_OFFSET reg_dest reg_base word_offset
  | Load8RegRegOffset reg_dest reg_base byte_offset => ASM_LOAD8_REG_REG_OFFSET reg_dest reg_base byte_offset
  | Load8RegReg reg_dest reg_base => ASM_LOAD8_REG_REG reg_dest reg_base
  | Load16RegRegOffset reg_dest reg_base halfword_offset => ASM_LOAD16_REG_REG_OFFSET reg_dest reg_base halfword_offset
  | Load16RegReg reg_dest reg_base => ASM_LOAD16_REG_REG reg_dest reg_base
  | Load32RegReg reg_dest reg_base => ASM_LOAD32_REG_REG reg_dest reg_base
  | Store32RegRegOffset reg_value reg_base word_offset => ASM_STORE32_REG_REG_OFFSET reg_value reg_base word_offset
  | StoreRegRegOffset reg_value reg_base word_offset => ASM_STORE_REG_REG_OFFSET reg_value reg_base word_offset
  | Store8RegRegOffset reg_value reg_base byte_offset => ASM_STORE8_REG_REG_OFFSET reg_value reg_base byte_offset
  | Store8RegReg reg_value reg_base => ASM_STORE8_REG_REG reg_value reg_base
  | Store16RegRegOffset reg_value reg_base halfword_offset => ASM_STORE16_REG_REG_OFFSET reg_value reg_base halfword_offset
  | Store16RegReg reg_value reg_base => ASM_STORE16_REG_REG reg_value reg_base
  | Store32RegReg reg_value reg_base => ASM_STORE32_REG_REG reg_value reg_base
  | Load8RegRegReg reg_dest reg_base reg_index => ASM_LOAD8_REG_REG_REG reg_dest reg_base reg_index
  | Load16RegRegReg reg_dest reg_base reg_index => ASM_LOAD16_REG_REG_REG reg_dest reg_base reg_index
  | Load32RegRegReg reg_dest reg_base reg_index => ASM_LOAD32_REG_REG_REG reg_dest reg_base reg_index
  | Store8RegRegReg reg_val reg_base reg_index => ASM_STORE8_REG_REG_REG reg_val reg_base reg_index
  | Store16RegRegReg reg_val reg_base reg_index => ASM_STORE16_REG_REG_REG reg_val reg_base reg_index
  | Store32RegRegReg reg_val reg_base reg_index => ASM_STORE32_REG_REG_REG reg_val reg_base reg_index
  | ClrReg reg_dest => ASM_CLR_REG reg_dest
  | Bkpt => asm_arm_bkpt
  | PushList reglist => asm_arm_push reglist
  | PopList reglist => asm_arm_pop reglist
  | SetccReg rd cond => asm_arm_setcc_reg rd cond
  | BccLabel cond label => asm_arm_bcc_label cond label
  | CmpRegReg rd rn => asm_arm_cmp_reg_reg rd rn
  | MovRegI32 rd imm => asm_arm_mov_reg_i32 rd imm;; mret tt
  end.

(** At most so many bytes. *)
Definition arm_size (op : arm_op) : Z :=
  match op with
  | Shared op => base_size op
  | EndPass => 0
  | MovRegImm _ _ | MovRegI32 _ _ => 12
  | MovRegLocalAddr _ _ | MovRegPcrel _ _ | Load32RegRegOffset _ _ _ | LoadRegRegOffset _ _ _
  | Load8RegRegOffset _ _ _ | Load8RegReg _ _ | Load16RegRegOffset _ _ _ | Load16RegReg _ _
  | Load32RegReg _ _ | Store32RegRegOffset _ _ _ | StoreRegRegOffset _ _ _
  | Store8RegRegOffset _ _ _ | Store8RegReg _ _ | Store16RegRegOffset _ _ _ | Store16RegReg _ _
  | Store32RegReg _ _ => 16
  | Exit => 20
  | Jump _ | JumpReg _ | MovLocalReg _ _ | MovRegLocal _ _ | MovRegReg _ _ | NotReg _
  | NegReg _ | LslRegReg _ _ | LsrRegReg _ _ | AsrRegReg _ _ | OrRegReg _ _ | XorRegReg _ _
  | AndRegReg _ _ | AddRegReg _ _ | SubRegReg _ _ | MulRegReg _ _ | ClrReg _ | Bkpt
  | PushList _ | PopList _ | BccLabel _ _ | CmpRegReg _ _ => 4
  | JumpIfRegZero _ _ _ | JumpIfRegNonzero _ _ _ | JumpIfRegEq _ _ _ | CallInd _
  | Load8RegRegReg _ _ _ | Load16RegRegReg _ _ _ | Load32RegRegReg _ _ _
  | Store8RegRegReg _ _ _ | Store16RegRegReg _ _ _ | Store32RegRegReg _ _ _ | SetccReg _ _ => 8
  end.

Definition arm_op_ok (op : arm_op) : Prop :=
  match op with Shared op => base_op_ok op | _ => True end.

Lemma arm_steady_op op : arm_op_ok op -> steady_op arm_limit arm_agree arm_exec arm_size op.
Proof.
  intros Hok. destruct op; [by apply steady_shared; [apply arm_limit_ok|apply arm_agree_base|]|..];
    (split; [done|]); cbn [arm_exec arm_size]; autounfold with arm_calls; arm_op.
Qed.

(** A function: its entry, then its operations, the exits among them. *)
Definition arm_function (locals : Z) (ops : list arm_op) : M asm_arm_t unit :=
  ASM_ENTRY locals;; seq_ops arm_exec ops.
Definition arm_function_ok (ops : list arm_op) : Prop :=
  Forall arm_op_ok ops /\ 20 + total arm_size ops <= arm_limit.
End Programs.

(** C11: the ARM passes agree.  A function that a compute pass measured is
    emitted by the pass that follows without a failing assertion, at the
    measured size and with every label at its recorded offset, for code up to
    the 32 MB a branch reaches. *)
Theorem arm_passes_agree `{PyMisc} `{!PlatAllocExec} locals ops s0 s1 :
  arm_function_ok ops -> base_wf (base s0) ->
  run_pass MP_ASM_PASS_COMPUTE (arm_function locals ops) s0 = Ok (tt, s1) ->
  exists s2, run_pass MP_ASM_PASS_EMIT (arm_function locals ops) s1 = Ok (tt, s2)
    /\ code_offset (base s2) = code_offset (base s1)
    /\ label_offsets (base s2) = label_offsets (base s1)
    /\ arm_agree s1 s2 /\ code_offset (base s2) <= code_size (base s2).
Proof.
  intros [Hops Hsz] Hwf Hrun.
  destruct (program_agrees arm_limit arm_agree arm_exec arm_size arm_start 20
    (asm_arm_entry locals) ops s0 s1 s1) as (s2 & E2 & Ho & Hl & Ha & Hcs & _); try done.
  - apply arm_enters_entry.
  - apply arm_enters_entry.
  - eapply Forall_impl; [exact Hops|]. apply arm_steady_op.
  - by exists s2.
Qed.

Definition arm_example : list arm_op :=
  [Jump 1; Shared (Label 0); MovRegImm REG_ARG_2 0x12345678; CallInd 3; Shared (Label 1);
   JumpIfRegNonzero REG_RET 0 true; MovRegPcrel REG_RET 2; Exit; Shared (Label 2); Shared (Data 4 42)].

Lemma arm_passes_agree_witness : exists s1 s2,
  run_pass (H0 := example_alloc_32) MP_ASM_PASS_EMIT (arm_function (H := py_misc) 5 arm_example) s1 = Ok (tt, s2)
  /\ code_offset (base s2) = 68 /\ stack_adjust s2 = 24.
Proof.
  destruct (arm_passes_agree (H := py_misc) (H0 := example_alloc_32) 5 arm_example (mk_asm_arm (fresh 3) 0 0)
    (mk_asm_arm (mk_asm_base MP_ASM_PASS_COMPUTE false 68 0 0 [] 3 [12; 32; 64]) 510 24)) as (s2 & E & Ho & _ & [Hn _] & _).
  - split; [repeat (apply List.Forall_cons; [simpl; first [done|lia]|]); apply List.Forall_nil|by vm_compute].
  - apply fresh_wf.
  - vm_compute. reflexivity.
  - eexists _, s2. split; [exact E|]. split; [exact Ho|exact Hn].
Defined.
