(* ===== verification/AsmArmJump.v ===== *)
(** * AsmArmJump: branches, calls and the address of a label of asmarm.c

    A branch reaches its label, a call the function the table names; the
    address of a label is computed from the place the code is run at. *)

From S2P Require Import Prelude AsmBase TwoPass PyMisc Machine Emission AsmArm AsmArmPass ArmIsa ArmEffect AsmArmInstr.

Set Default Goal Selector "!".

#[local] Existing Instance SizeT_32.
#[local] Hint Extern 0 Isa => exact Arm : typeclass_instances.

(** [label] is at [dest]; it and the code, [room] bytes further on, are in
    reach, and at words. *)
Record label_at (room : Z) (s : asm_arm_t) (label dest : Z) : Prop := {
  label_at_max : label < max_num_labels (base s);
  label_at_dest : label_offsets (base s) !! Z.to_nat label = Some dest;
  label_at_range : 0 <= dest <= arm_limit /\ 0 <= code_offset (base s) <= arm_limit - room;
  label_at_words : dest mod 4 = 0 /\ code_offset (base s) mod 4 = 0;
}.
Lemma arm_label_at_puts bs room s label dest : suppress (base s) = false ->
  Z.of_nat (length bs) <= room -> Z.of_nat (length bs) mod 4 = 0 ->
  label_at room s label dest -> label_at (room - Z.of_nat (length bs)) (puts bs s) label dest.
Proof.
  intros Hs Hb H4 [Hm Hd Hr Hw].
  constructor; change (base ?t) with (base_of t) in *; rewrite base_of_puts;
    rewrite ?put_bytes_max, ?put_bytes_labels, ?put_bytes_offset, ?Hs; [done|done|lia|].
  split; [apply Hw|]. rewrite Z.add_mod, (proj2 Hw), H4 by done. done.
Qed.

(** Control goes [d] bytes from the start of the code, or past it; only the
    flags may change. *)
Definition jumps_if (c : machine -> bool) (d n : Z) (mc mc' : machine) : Prop :=
  mc' = set_pc (u32 (pc mc + (if c mc then d else n))) mc.
Definition branches_if (c : machine -> bool) (d n : Z) (mc mc' : machine) : Prop :=
  same_except flags mc mc' /\ pc mc' = u32 (pc mc + (if c mc then d else n)).

Section Jumps.
Context `{PyMisc} (s : asm_arm_t) (label dest : Z).
Abbreviation disp := (dest - code_offset (base s)).

Lemma arm_label_dest_at {B} (k : Z -> M asm_arm_t B) room : label_at room s label dest ->
  (d ← on_base (label_dest label); k d) s = k dest s.
Proof using. intros Hl. apply bind_Ok, on_base_pure, label_dest_ok; apply Hl. Qed.

Lemma decode_b_offset w : bits w 25 3 = 5 -> bits w 24 1 = 0 ->
  decode_op w = Some (B (sw 26 (bits w 0 24 << 2))).
Proof using. intros H5 H24. unfold decode_op. cbv zeta. by rewrite H5, H24. Qed.

Lemma arm_bcc_assembles cc : cc4 cc -> label_at 4 s label dest ->
  assembles s (asm_arm_bcc_label (cc << 28) label) [((cc, B (disp - 8)), 4)].
Proof using.
  unfold cc4. intros Hcc Hl. destruct (label_at_range _ _ _ _ Hl) as [Hd Ho]. destruct (label_at_words _ _ _ _ Hl) as [Hdw How].
  eapply assembles_ext; [unfold asm_arm_bcc_label; by rewrite (arm_label_dest_at _ 4 Hl)|].
  apply assembles_gets. cbv zeta. rewrite arm_branch_fits by (tauto || lia). unfold arm_limit in *.
  rewrite (sw_small 32 eq_refl disp), (sw_small 32 eq_refl) by pow_lia.
  apply assembles_emit, (decode_cc _ cc); [done|bitsolve|].
  rewrite decode_b_offset by bitsolve. do 2 f_equal. set (rel := (disp - 8) >> 2).
  transitivity (sw 26 (rel << 2)).
  - rewrite <- (sw_uw 26 eq_refl (rel << 2)), <- (sw_uw 26 eq_refl (bits _ 0 24 << 2)). f_equal. clearbody rel. bitsolve.
  - replace (rel << 2) with (disp - 8); [by apply sw_small; pow_lia|].
    subst rel. rewrite Z.shiftl_mul_pow2, Z.shiftr_div_pow2 by done. word_lia.
Qed.
Lemma arm_bcc_implements cc : cc4 cc -> label_at 4 s label dest ->
  implements s (asm_arm_bcc_label (cc << 28) label) (jumps_if (cond cc) disp).
Proof using.
  intros Hcc Hl. eapply assembles_implements; [by apply arm_bcc_assembles|]. intros mc _.
  exists (set_pc (u32 (pc mc + (if cond cc mc then disp else 4))) mc). split; [|done].
  transitivity (m' ← arm_exec false (cc, B (disp - 8)) 4 mc; Some m'); [done|].
  unfold arm_exec. cbn [fst snd exec_op]. destruct (cond cc mc); [|done].
  transitivity (Some (set_pc (u32 (pc mc + 8 + (disp - 8))) mc)); [done|]. do 3 f_equal. lia.
Qed.
End Jumps.

(** ** Conditional branches *)

Section ConditionalJumps.
Context `{PyMisc} (s : asm_arm_t) (label dest : Z) (Hlabel : label_at 8 s label dest).
Hypothesis Hlive : suppress (base s) = false.
Abbreviation disp := (dest - code_offset (base s)).

Lemma arm_b_label_implements : implements s (asm_arm_b_label label) (jumps_if (fun _ => true) disp).
Proof using Hlabel.
  eapply implements_mono; [apply (arm_bcc_implements s label dest 14); [done|]|done].
  destruct Hlabel. constructor; [done..| |done]. lia.
Qed.

(** A comparison, then a branch on [cc]. *)
Lemma arm_compare_branch test rn o (a b : machine -> Z) cc (c : machine -> bool) :
  assembles s test [((14, CMP rn o), 4)] -> cc4 cc ->
  (forall mc, read false rn mc = u32 (a mc) /\ value false o mc = u32 (b mc)) ->
  (forall mc, cond cc (compared (a mc) (b mc) mc) = c mc) ->
  implements s (test;; asm_arm_bcc_label (cc << 28) label) (branches_if c disp).
Proof using Hlabel Hlive.
  intros Ht Hcc Hab Hc. eapply implements_mono.
  - eapply (assembles_then (H0 := Arm) s test _ _ (fun mc => compared (a mc) (b mc) mc) (jumps_if (cond cc) (disp - 4)) Ht).
    + intros mc. destruct (Hab mc). by apply arm_cmp_exec.
    + intros bs Hl. change (code_len _) with 4 in Hl.
      pose proof (arm_label_at_puts bs 8 s label dest Hlive ltac:(lia) ltac:(by rewrite Hl) Hlabel) as Hl'.
      rewrite Hl in Hl'. replace (disp - 4) with (dest - code_offset (base (puts bs s))); [by apply arm_bcc_implements|].
      change (base (puts bs s)) with (base_of (puts bs s)). rewrite base_of_puts, put_bytes_offset.
      cbn [base_of HasBase_arm]. rewrite Hlive. lia.
  - intros n mc mc' (n2 & -> & ->). split; [apply compared_same|].
    change (cond cc (set_pc _ ?m)) with (cond cc m). rewrite Hc. change (code_len _) with 4.
    rewrite !pc_set_pc. change addr_width with 32. rewrite uw_add_l by done. f_equal. destruct (c mc); lia.
Qed.

Lemma arm_jump_if_reg_zero_implements r t : gpr r ->
  implements s (GenericApi.ASM_JUMP_IF_REG_ZERO r label t) (branches_if (fun mc => u32 (reg r mc) =? 0) disp).
Proof using Hlabel Hlive.
  intros Hr. apply (arm_compare_branch _ r (Imm (u8 0)) (reg r) (fun _ => 0) 0); [by apply arm_cmp_i8_assembles|done| |].
  - intros mc. by rewrite read_gpr.
  - intros mc. exact (compared_equal (reg r mc) 0 mc).
Qed.
Lemma arm_jump_if_reg_nonzero_implements r t : gpr r ->
  implements s (GenericApi.ASM_JUMP_IF_REG_NONZERO r label t)
    (branches_if (fun mc => negb (u32 (reg r mc) =? 0)) disp).
Proof using Hlabel Hlive.
  intros Hr. apply (arm_compare_branch _ r (Imm (u8 0)) (reg r) (fun _ => 0) 1); [by apply arm_cmp_i8_assembles|done| |].
  - intros mc. by rewrite read_gpr.
  - intros mc. exact (f_equal negb (compared_equal (reg r mc) 0 mc)).
Qed.
Lemma arm_jump_if_reg_eq_implements r1 r2 : gpr r1 -> gpr r2 ->
  implements s (GenericApi.ASM_JUMP_IF_REG_EQ r1 r2 label)
    (branches_if (fun mc => u32 (reg r1 mc) =? u32 (reg r2 mc)) disp).
Proof using Hlabel Hlive.
  intros H1 H2. apply (arm_compare_branch _ r1 (Shifted r2 0) (reg r1) (reg r2) 0); [by apply arm_cmp_reg_assembles|done| |].
  - intros mc. by rewrite read_gpr, value_reg.
  - intros mc. exact (compared_equal (reg r1 mc) (reg r2 mc) mc).
Qed.
End ConditionalJumps.

(** ** Calls *)

(** To the address in a register, whose lowest bit selects Thumb. *)
Lemma arm_bx_implements s r : gpr r ->
  implements s (asm_arm_bx_reg r) (fun _ mc mc' => mc' = branch_exchange (u32 (reg r mc)) mc).
Proof.
  intros Hr. range Hr. eapply assembles_implements.
  - eapply (assembles_emit _ (14, BX r)), (decode_cc _ 14); autounfold with arm_ops; [done|bitsolve|].
    unfold decode_op. cbv zeta. decode_fields. repeat f_equal. bitsolve.
  - intros mc _. eexists. split; [|reflexivity].
    transitivity (Some (branch_exchange (read false r mc) mc)); [done|]. by rewrite read_gpr.
Qed.

Section Call.
Context (s : asm_arm_t) (fun_id temp : Z) (Hid : 0 <= fun_id < 0x400).

(** The word at [4 * fun_id] of the function table. *)
Definition table_entry (mc : machine) : Z :=
  load 32 4 (mem mc) (u32 (reg ASM_ARM_REG_FUN_TABLE mc + 4 * fun_id)).

(** The program counter, 8 ahead, is the return address of the load. *)
Lemma arm_bl_ind_implements : implements s (asm_arm_bl_ind fun_id temp)
  (fun n mc mc' => mc' = branch_exchange (table_entry mc) (set_reg ASM_ARM_REG_LR (u32 (pc mc + n)) mc)).
Proof using Hid.
  eapply implements_ext; [unfold asm_arm_bl_ind; by rewrite ltb_true by (change (4096 / 4) with 1024; lia)|].
  eapply (implements_ext _ _ (emit_al (asm_arm_op_mov_reg 14 15);; emit_al (0x597f000 .| fun_id << 2))); [done|].
  eapply assembles_implements.
  - apply (assembles_seq (H0 := Arm) _ _ _ [((14, MOV false 14 (Shifted 15 0)), 4)] [((14, LDR Word 15 7 (OffImm (4 * fun_id))), 4)]).
    + autounfold with arm_ops. arm_word 14.
    + intros bs _. replace (4 * fun_id) with (fun_id << 2) by (rewrite Z.shiftl_mul_pow2 by done; lia).
      autounfold with arm_ops. arm_word 14.
  - intros mc _. eexists. split; [|reflexivity]. change (code_len _) with 8.
    etransitivity; [apply (exec_straight_cons (H := Arm) _ _ _ _ (set_pc (u32 (pc mc + 4)) (set_reg 14 (u32 (pc mc + 8)) mc)))|].
    + transitivity (Some (set_pc (u32 (pc mc + 4)) (set_reg 14 (u32 (u32 (pc mc + 8) << 0)) mc))); [done|].
      by rewrite Z.shiftl_0_r, uw_uw.
    + done.
    + set (m1 := set_pc _ _).
      transitivity (Some (load_reg 15 (load 32 4 (mem mc) (address false 7 (OffImm (4 * fun_id)) m1)) (set_pc (u32 (pc m1 + 4)) m1))); [done|].
      rewrite (address_imm false 7) by by split. subst m1. by rewrite reg_set_pc, reg_set_ne.
Qed.
End Call.

(** ** The address of a label *)

Section PcRel.
Context (s : asm_arm_t) (label dest rd : Z) (Hlabel : label_at 16 s label dest) (Hd : gpr rd).
Abbreviation disp := (dest - code_offset (base s)).

Lemma arm_add_pc_performs t : performs t (asm_arm_add_reg_reg_reg rd rd ASM_ARM_REG_PC)
  (fun mc => set_reg rd (u32 (reg rd mc + (pc mc + 8))) mc).
Proof using Hd.
  range Hd. arm_op (DP false ADD rd rd (Shifted 15 0)). cbn [dp_exec value].
  change (read false 15 mc) with (u32 (pc mc + 8)). by rewrite Z.shiftl_0_r, uw_uw, uw_add_l, uw_add_r by done.
Qed.

(** The distance, loaded over a branch, and the program counter, 8 ahead. *)
Lemma arm_mov_reg_pcrel_performs :
  performs_when readable s (asm_arm_mov_reg_pcrel rd label) (fun mc => set_reg rd (u32 (pc mc + disp)) mc).
Proof using Hlabel Hd.
  range Hd. destruct (label_at_range _ _ _ _ Hlabel) as [Hr Ho]. unfold arm_limit in *.
  eapply (when_ext _ s s _ _ ((emit_al (0x59f0000 .| rd << 12);; emit_al 0xa000000;; emit (disp - 20));;
    asm_arm_add_reg_reg_reg rd rd ASM_ARM_REG_PC)); [done| |].
  { unfold asm_arm_mov_reg_pcrel. rewrite (arm_label_dest_at s label dest _ 16 Hlabel), gets_bind. cbv beta zeta.
    rewrite (sw_small 32 eq_refl disp), (sw_small 32 eq_refl) by pow_lia.
    replace (disp - (12 + 8)) with (disp - 20) by lia. symmetry. seq_assoc. }
  set (P := fun n mc mc' => n = 12 /\ mc' = set_pc (u32 (pc mc + 12)) (set_reg rd (u32 (disp - 20)) mc)).
  eapply when_mono; [eapply (when_then readable readable (fun _ _ => True) _ _ _ P);
    [eapply when_mono; [by apply arm_literal_implements|done|]| |]|done|].
  - by intros n mc mc' [-> ->].
  - intros bs. apply when_implements, arm_add_pc_performs.
  - by intros bs cs mc [Hp [Hc _]%code_at_app].
  - intros n mc mc' (n1 & n2 & mc1 & -> & _ & [-> ->] & ->). change addr_width with 32.
    rewrite reg_set_pc, reg_set_eq, pc_set_pc.
    replace (u32 (u32 (disp - 20) + (u32 (pc mc + 12) + 8))) with (u32 (pc mc + disp)).
    + rewrite uw_add_l, Z.add_assoc by done. unfold set_pc, set_reg. simpl. f_equal. by rewrite insert_insert_eq.
    + symmetry. clear. word_lia.
Qed.
End PcRel.
