(* ===== verification/AsmArmFrame.v ===== *)
(** * AsmArmFrame: function entry and exit of asmarm.c

    The entry pushes R1 to R8 and LR and makes room for the locals below them,
    in the words of R1 to R3 if that is enough; the exit releases the room,
    pops the registers, and returns by popping PC. *)

From S2P Require Import Prelude AsmBase TwoPass Machine Emission ArmIsa ArmEffect AsmArm AsmArmInstr.

Set Default Goal Selector "!".

#[local] Existing Instance SizeT_32.
#[local] Hint Extern 0 Isa => exact Arm : typeclass_instances.

Definition sp (m : machine) : Z := reg ASM_ARM_REG_SP m.

(** ** Pushes and pops *)

Lemma arm_push_assembles s l : assembles s (asm_arm_push l) [((14, PUSH (uw 16 l)), 4)].
Proof.
  autounfold with arm_ops. unfold asm_arm_push. autounfold with arm_ops.
  pose proof (uw_range 16 eq_refl l). replace (l .& 0xFFFF) with (uw 16 l) by bitsolve.
  set (v := uw 16 l) in *. clearbody v. arm_word 14.
Qed.
Lemma arm_pop_assembles s l : assembles s (asm_arm_pop l) [((14, POP (uw 16 l)), 4)].
Proof.
  unfold asm_arm_pop. autounfold with arm_ops.
  pose proof (uw_range 16 eq_refl l). replace (l .& 0xFFFF) with (uw 16 l) by bitsolve.
  set (v := uw 16 l) in *. clearbody v. arm_word 14.
Qed.

(** ** The frame *)

(** The registers in the order of their words; the locals are below R4. *)
Definition arm_pushed : list Z := [1; 2; 3; 4; 5; 6; 7; 8; 14].
Definition arm_popped : list Z := [1; 2; 3; 4; 5; 6; 7; 8].
(** The room below the pushed registers. *)
Definition arm_room (locals : Z) : Z := if 3 <? locals then 4 * (locals + (locals .& 1)) else 0.

Lemma arm_room_bounds locals : 0 <= locals < 2 ^ 28 ->
  0 <= arm_room locals < 2 ^ 31 /\ 4 * locals <= arm_room locals + 12 /\ arm_room locals mod 8 = 0.
Proof.
  intros Hl. unfold arm_room. destruct (Z.ltb_spec 3 locals); [|split; [lia|split; [lia|done]]].
  pose proof (Z.land_ones locals 1 ltac:(done)) as E. change (Z.ones 1) with 1 in E. change (2 ^ 1) with 2 in E. word_lia.
Qed.

(** Entering: the registers are below the stack pointer, the room below them. *)
Record frame_entered (n : Z) (m m1 : machine) : Prop := {
  entered_sp : u32 (sp m1) = u32 (sp m - (36 + n));
  entered_reg r : gpr r -> r <> ASM_ARM_REG_SP -> r <> REG_TEMP -> reg r m1 = reg r m;
  entered_saved i r : arm_pushed !! i = Some r ->
    load 32 4 (mem m1) (sp m - 36 + 4 * Z.of_nat i) = u32 (reg r m);
  entered_mem o : 0 <= o < 2 ^ 32 - 36 -> peek 32 (mem m1) (sp m + o) = peek 32 (mem m) (sp m + o);
}.
(** The body may write the room and the words of R1 to R3. *)
Definition body_keeps_frame (n : Z) (m1 mb : machine) : Prop :=
  u32 (sp mb) = u32 (sp m1)
  /\ forall o, n + 12 <= o < n + 36 -> peek 32 (mem mb) (sp m1 + o) = peek 32 (mem m1) (sp m1 + o).
Record frame_left (n : Z) (mb m2 : machine) : Prop := {
  left_reg i r : arm_popped !! i = Some r -> reg r m2 = load 32 4 (mem mb) (sp mb + n + 4 * Z.of_nat i);
  left_sp : u32 (sp m2) = u32 (sp mb + n + 36);
  left_pc : pc m2 = Z.ldiff (u32 (load 32 4 (mem mb) (sp mb + n + 32))) 1;
  left_state : reg TF m2 = load 32 4 (mem mb) (sp mb + n + 32) .& 1;
  left_mem : mem m2 = mem mb;
}.

(** For such a body the function returns: to the address that was in LR, and
    to the instruction set its lowest bit selects. *)
Lemma arm_frame_roundtrip n m m1 mb m2 : 0 <= n < 2 ^ 31 ->
  frame_entered n m m1 -> body_keeps_frame n m1 mb -> frame_left n mb m2 ->
  (forall r, 4 <= r <= 8 -> reg r m2 = u32 (reg r m))
  /\ u32 (sp m2) = u32 (sp m)
  /\ pc m2 = Z.ldiff (u32 (reg ASM_ARM_REG_LR m)) 1 /\ reg TF m2 = u32 (reg ASM_ARM_REG_LR m) .& 1.
Proof.
  intros Hn [Hs Hr Hsv Hm] [Hsb Hk] [Lr Ls Lp Lt Lm].
  assert (forall i r, (3 <= i)%nat -> arm_pushed !! i = Some r ->
    load 32 4 (mem mb) (sp mb + n + 4 * Z.of_nat i) = u32 (reg r m)) as Hload.
  { intros i r Hi Hri. rewrite <- (Hsv i r Hri). apply lookup_lt_Some in Hri. simpl in Hri.
    transitivity (load 32 4 (mem m1) (sp m1 + (n + 4 * Z.of_nat i))).
    - rewrite (load_cong 32 eq_refl 4 _ _ (sp m1 + (n + 4 * Z.of_nat i)))
        by (rewrite <- Z.add_assoc, <- uw_add_l, Hsb, uw_add_l by done; done).
      apply load_ext. intros k Hk'. rewrite <- Z.add_assoc. apply Hk. lia.
    - apply load_cong; [done|]. rewrite <- uw_add_l, Hs, uw_add_l by done. f_equal. lia. }
  assert (load 32 4 (mem mb) (sp mb + n + 32) = u32 (reg 14 m)) as Elr by (apply (Hload 8%nat); [lia|done]).
  split; [|split; [|split]].
  - intros r Hr'. assert (arm_popped !! Z.to_nat (r - 1) = Some r /\ arm_pushed !! Z.to_nat (r - 1) = Some r) as [E1 E2].
    { assert (r = 4 \/ r = 5 \/ r = 6 \/ r = 7 \/ r = 8) as Hc by lia. by destruct Hc as [->|[->|[->|[->| ->]]]]. }
    rewrite (Lr _ _ E1). apply Hload; [lia|done].
  - rewrite Ls, <- Z.add_assoc, <- uw_add_l, Hsb, uw_add_l, <- uw_add_l, Hs, uw_add_l by done. f_equal. lia.
  - by rewrite Lp, Elr, uw_uw.
  - by rewrite Lt, Elr.
Qed.

(** ** Making and releasing room *)

(** The stack pointer is moved by [d]; R8 may be lost. *)
Record moves_sp (d : Z) (m m' : machine) : Prop := {
  moves_sp_sp : u32 (sp m') = u32 (sp m + d);
  moves_sp_reg r : r <> ASM_ARM_REG_SP -> r <> REG_TEMP -> reg r m' = reg r m;
  moves_sp_mem : mem m' = mem m;
}.

(** By an immediate, or by R8. *)
Definition adjust (n small large : Z) : M asm_arm_t unit :=
  if 0 <? n then
    if n <? 0x100 then emit_al small
    else asm_arm_mov_reg_i32_optimised REG_TEMP (s32 n);; emit_al large
  else mret tt.
(** R8 may be loaded from the code. *)
Definition readable_if (n : Z) (bs : list Z) (mc : machine) : Prop := 0x100 <= n -> readable bs mc.

Definition adjusted (sgn n : Z) (mc : machine) : machine :=
  if 0 <? n then
    if n <? 0x100 then set_reg 13 (u32 (sp mc + sgn * n)) mc
    else set_reg 13 (u32 (sp mc + sgn * n)) (set_reg 8 n mc)
  else mc.
Lemma adjusted_moves sgn n mc : 0 <= n -> moves_sp (sgn * n) mc (adjusted sgn n mc).
Proof.
  intros Hn. unfold adjusted. destruct (Z.ltb_spec 0 n); [destruct (n <? 0x100)|].
  - constructor; [unfold sp at 1; by rewrite reg_set_eq, uw_uw| |done]. intros r ? ?. by rewrite reg_set_ne.
  - constructor; [unfold sp at 1; by rewrite reg_set_eq, uw_uw| |done]. intros r ? ?. by rewrite !reg_set_ne.
  - replace n with 0 by lia. constructor; [by rewrite Z.mul_0_r, Z.add_0_r|done|done].
Qed.
Lemma adjusted_blind sgn n : pc_blind (adjusted sgn n).
Proof. intros a mc. unfold adjusted. by destruct (0 <? n), (n <? 0x100). Qed.

Lemma adjust_performs s n small large sgn : 0 <= n < 2 ^ 31 ->
  (n < 0x100 -> performs s (emit_al small) (fun mc => set_reg 13 (u32 (sp mc + sgn * n)) mc)) ->
  (forall t, performs t (emit_al large) (fun mc => set_reg 13 (u32 (sp mc + sgn * reg 8 mc)) mc)) ->
  performs_when (readable_if n) s (adjust n small large) (adjusted sgn n).
Proof.
  intros Hn Hsmall Hlarge. unfold adjust, adjusted. destruct (0 <? n); [|apply when_implements, performs_ret].
  destruct (Z.ltb_spec n 0x100); [by apply when_implements, Hsmall|].
  eapply when_mono; [eapply (performs_when_seq readable readable (fun _ _ => True) _ _ _ _
    (fun mc => set_reg 13 (u32 (sp mc + sgn * reg 8 mc)) mc)); [by apply arm_mov_i32_optimised_performs| | |]| |].
  - by intros a mc.
  - intros bs. by apply when_implements, Hlarge.
  - intros bs cs mc Hr. split; [by eapply readable_app|done].
  - intros bs mc Hr. by apply Hr.
  - intros k mc mc' ->. rewrite (sw_small 32 eq_refl n), (uw_small 32 n) by pow_lia. cbv beta.
    unfold sp. by rewrite reg_set_ne, reg_set_eq.
Qed.

(** ** Entry *)

Section Frame.
Context (s : asm_arm_t) (locals : Z) (Hl : 0 <= locals < 2 ^ 28).
Abbreviation n := (arm_room locals).

Definition entered : asm_arm_t := set_push_reglist 0x1fe (set_stack_adjust n s).
Definition make_room (k : Z) : M asm_arm_t unit :=
  adjust k (asm_arm_op_sub_imm ASM_ARM_REG_SP ASM_ARM_REG_SP k)
    (asm_arm_op_sub_reg ASM_ARM_REG_SP ASM_ARM_REG_SP REG_TEMP).
Lemma arm_entry_eq :
  asm_arm_entry locals s = (asm_arm_push 0x41fe;; k ← gets stack_adjust; make_room k) entered.
Proof using Hl.
  pose proof (arm_room_bounds locals Hl) as [Hn _]. unfold asm_arm_entry, entered.
  rewrite leb_true, assert_true by (done || lia). rewrite !modify_bind. unfold arm_room in *.
  destruct (3 <? locals) eqn:E3; [|done].
  assert (locals .& 1 = 0 \/ locals .& 1 = 1) as Hodd.
  { pose proof (Z.land_ones locals 1 ltac:(done)) as E. change (Z.ones 1) with 1 in E. change (2 ^ 1) with 2 in E.
    pose proof (Z.mod_pos_bound locals 2 ltac:(done)). lia. }
  rewrite bind_assoc, modify_bind.
  assert (u32 (locals * 4) = locals * 4) as E4 by (apply uw_small; pow_lia). rewrite E4.
  destruct Hodd as [E|E]; rewrite E in *; cbn [Z.eqb negb].
  - replace (4 * (locals + 0)) with (locals * 4) by lia. done.
  - rewrite modify_bind. cbn [stack_adjust set_stack_adjust set_push_reglist].
    replace (4 * (locals + 1)) with (u32 (locals * 4 + 4)) by (rewrite uw_small by pow_lia; lia). done.
Qed.

Lemma make_room_performs t : performs_when (readable_if n) t (make_room n) (adjusted (-1) n).
Proof using Hl.
  pose proof (arm_room_bounds locals Hl) as [Hn _]. apply adjust_performs; [done|..].
  - intros Hs. eapply performs_ext; [|by apply (arm_sub_imm_performs t 13 13)]. intros mc.
    rewrite (uw_small 8 n) by lia. by rewrite <- Z.add_opp_r, Z.opp_eq_mul_m1, Z.mul_comm.
  - intros u. eapply performs_ext; [|by apply (arm_binary_performs u 13 13 8 ltac:(by split) ltac:(by split) ltac:(by split)
      asm_arm_sub_reg_reg_reg Z.sub); simpl; tauto].
    intros mc. cbv beta. by rewrite <- Z.add_opp_r, Z.opp_eq_mul_m1, Z.mul_comm.
Qed.

(** The registers pushed. *)
Definition pushed (mc : machine) : machine :=
  set_reg 13 (u32 (sp mc - 36)) (set_mem (store_words (u32 (sp mc - 36)) ((fun r => read false r mc) <$> arm_pushed) (mem mc)) mc).
Lemma arm_push_implements t : implements t (asm_arm_push 0x41fe)
  (fun k mc mc' => k = 4 /\ mc' = set_pc (u32 (pc mc + 4)) (pushed mc)).
Proof using.
  eapply assembles_implements; [apply arm_push_assembles|]. intros mc _.
  exists (set_pc (u32 (pc mc + 4)) (pushed mc)). by split.
Qed.

Lemma pushed_mem_other mc x : 36 <= u32 (x - (sp mc - 36)) -> peek 32 (mem (pushed mc)) x = peek 32 (mem mc) x.
Proof using. intros Hx. apply store_words_other. by rewrite uw_sub_r. Qed.
Lemma arm_pushed_gpr r : r ∈ arm_pushed -> gpr r.
Proof using. revert r. apply (Forall_forall gpr arm_pushed). repeat (apply List.Forall_cons; [by split|]). apply List.Forall_nil. Qed.
Lemma pushed_entered mc : frame_entered 0 mc (pushed mc).
Proof using.
  constructor.
  - unfold sp at 1, pushed. by rewrite reg_set_eq, uw_uw.
  - intros r _ Hr _. unfold pushed. by rewrite reg_set_ne.
  - intros i r Hi. rewrite (load_cong 32 eq_refl 4 _ _ (u32 (sp mc - 36) + 4 * Z.of_nat i)) by by rewrite uw_add_l.
    rewrite <- (uw_uw 32 eq_refl (reg r mc)). apply store_words_load; [simpl; lia|].
    rewrite list_lookup_fmap, Hi. cbn [fmap option_fmap option_map]. rewrite read_gpr; [done|].
    by eapply arm_pushed_gpr, list_elem_of_lookup_2.
  - intros o Ho. apply pushed_mem_other. replace (sp mc + o - (sp mc - 36)) with (o + 36) by lia.
    rewrite uw_small by lia. lia.
Qed.
Lemma lower_entered k mc m1 m2 : 0 <= k -> frame_entered 0 mc m1 -> moves_sp (- k) m1 m2 -> frame_entered k mc m2.
Proof using.
  intros Hk [Es Er Esv Em] [Ms Mr Mm]. constructor.
  - rewrite Ms, <- uw_add_l, Es, uw_add_l by done. f_equal. lia.
  - intros r Hg H13 H8. by rewrite Mr, Er.
  - intros i r Hi. rewrite Mm. by apply Esv.
  - intros o Ho. rewrite Mm. by apply Em.
Qed.

(** The code is not where the registers are pushed, should it be read. *)
Definition entry_readable (bs : list Z) (mc : machine) : Prop :=
  0x100 <= n -> readable bs mc
    /\ forall i, (i < length bs)%nat -> 36 <= u32 (pc mc + Z.of_nat i - (sp mc - 36)).

Lemma entry_readable_rest bs cs mc : entry_readable (bs ++ cs) mc -> Z.of_nat (length bs) = 4 ->
  readable_if n cs (set_pc (u32 (pc mc + 4)) (pushed mc)).
Proof using.
  intros Hr Hb Hn. destruct (Hr Hn) as [[Hp [_ Hc]%code_at_app] Ho]. rewrite Hb in Hc. split; cbn [pc set_pc].
  - unfold uw. rewrite Z.mod_mod_divide by (by exists (2 ^ 30)). rewrite <- Z.add_mod_idemp_l, Hp by done. done.
  - intros i x Hi. rewrite <- (Hc i x Hi). apply lookup_lt_Some in Hi as Hlt. rewrite uw_add_l by done.
    change (mem (set_pc _ ?m)) with (mem m). apply pushed_mem_other.
    rewrite uw_sub_l by done. specialize (Ho (length bs + i)%nat). rewrite length_app, Nat2Z.inj_add, Hb in Ho.
    replace (pc mc + 4 + Z.of_nat i) with (pc mc + (4 + Z.of_nat i)) by lia. apply Ho. lia.
Qed.

Lemma arm_entry_implements : implements_when entry_readable s entered (asm_arm_entry locals)
  (fun k mc m1 => pc m1 = u32 (pc mc + k) /\ frame_entered n mc m1).
Proof using Hl.
  pose proof (arm_room_bounds locals Hl) as [Hn _].
  eapply (when_ext _ s entered); [done|exact arm_entry_eq|].
  eapply when_mono; [eapply (when_then entry_readable (fun _ _ => True) (readable_if n) _ _ _
    (fun k mc mc' => k = 4 /\ mc' = set_pc (u32 (pc mc + 4)) (pushed mc)))|done|].
  - apply when_implements. eapply implements_mono; [apply arm_push_implements|]. by intros k mc mc' [-> ->].
  - intros bs. eapply when_ext; [done|apply gets_bind|]. apply make_room_performs.
  - intros bs cs mc Hr. split; [done|]. intros mc1 _ [Hb ->]. by eapply entry_readable_rest.
  - intros k mc m1 (k1 & k2 & mc1 & -> & _ & [-> ->] & ->). change addr_width with 32.
    rewrite !pc_set_pc, uw_add_l, <- Z.add_assoc by done. split; [done|].
    rewrite adjusted_blind. eapply (lower_entered n _ (pushed mc)); [lia|apply pushed_entered|].
    replace (- n) with (-1 * n) by lia. pose proof (adjusted_moves (-1) n (pushed mc) ltac:(lia)) as [? ? ?]. by constructor.
Qed.

(** ** Exit *)

Lemma release_room_performs t : performs_when (readable_if n) t
  (adjust n (asm_arm_op_add_imm ASM_ARM_REG_SP ASM_ARM_REG_SP n)
    (asm_arm_op_add_reg ASM_ARM_REG_SP ASM_ARM_REG_SP REG_TEMP)) (adjusted 1 n).
Proof using Hl.
  pose proof (arm_room_bounds locals Hl) as [Hn _]. apply adjust_performs; [done|..].
  - intros Hs. eapply performs_ext; [|by apply (arm_add_imm_performs t 13 13)]. intros mc.
    by rewrite (uw_small 8 n), Z.mul_1_l by lia.
  - intros u. eapply performs_ext; [|by apply (arm_binary_performs u 13 13 8 ltac:(by split) ltac:(by split) ltac:(by split)
      asm_arm_add_reg_reg_reg Z.add); simpl; tauto].
    intros mc. cbv beta. by rewrite Z.mul_1_l.
Qed.

(** The registers popped, the program counter with them. *)
Definition popped (mc : machine) : machine :=
  load_words (arm_popped ++ [15]) (u32 (sp mc)) (set_reg 13 (u32 (u32 (sp mc) + 36)) mc).
Lemma popped_left n' mb mc : moves_sp n' mb mc -> frame_left n' mb (popped mc).
Proof using.
  intros [Ms _ Mm]. unfold popped. rewrite load_words_app. set (m1 := set_reg 13 _ mc).
  assert (forall o, load 32 4 (mem mc) (u32 (sp mc) + o) = load 32 4 (mem mb) (sp mb + n' + o)) as E.
  { intros o. rewrite Mm. apply load_cong; [done|]. by rewrite uw_add_l, <- uw_add_l, Ms, uw_add_l. }
  destruct (load_words_spec arm_popped) with (a := u32 (sp mc)) (m := m1) as (Hr & Ho & Hm & Hp);
    [by apply (bool_decide_unpack _)..|].
  set (m2 := load_words arm_popped _ m1) in *. cbn [load_words]. unfold load_reg. simpl (15 =? 15). cbv iota.
  change (4 * Z.of_nat (length arm_popped)) with 32. rewrite Hm. change (mem m1) with (mem mc). rewrite E.
  constructor.
  - intros i r Hi. unfold branch_exchange. rewrite reg_set_pc, reg_set_ne.
    + rewrite (Hr i r Hi). apply E.
    + apply list_elem_of_lookup_2 in Hi. intros ->. revert Hi. by apply (bool_decide_unpack _).
  - unfold sp at 1, branch_exchange, ASM_ARM_REG_SP, ASM_ARM_REG_R13. rewrite reg_set_pc, reg_set_ne by done.
    rewrite Ho by by apply (bool_decide_unpack _). unfold m1. rewrite reg_set_eq, uw_uw, uw_add_l, <- uw_add_l, Ms, uw_add_l by done. done.
  - done.
  - unfold branch_exchange. by rewrite reg_set_pc, reg_set_eq.
  - by change (mem (branch_exchange _ m2)) with (mem m2).
Qed.

Lemma arm_pop_implements t : implements t (asm_arm_pop 0x81fe) (fun _ mc mc' => exists a, mc' = popped (set_pc a mc)).
Proof using.
  eapply assembles_implements; [apply arm_pop_assembles|]. intros mc _.
  exists (popped (set_pc (u32 (pc mc + 4)) mc)). by split; [|eexists].
Qed.

Lemma arm_exit_implements t : stack_adjust t = n -> push_reglist t = 0x1fe ->
  implements_when (readable_if n) t t asm_arm_exit (fun _ => frame_left n).
Proof using Hl.
  intros Ha Hp. pose proof (arm_room_bounds locals Hl) as [Hn _].
  eapply (when_ext _ t t); [done|unfold asm_arm_exit; rewrite gets_bind, Ha; reflexivity|].
  eapply when_mono; [eapply (when_seq (readable_if n) (readable_if n) (fun _ _ => True)); [apply release_room_performs| |]|done|].
  - intros bs. eapply when_ext; [done|apply gets_bind|]. change (push_reglist (puts bs t)) with (push_reglist t). rewrite Hp.
    apply when_implements, arm_pop_implements.
  - intros bs cs mc Hr. split; [|done]. intros Hn'. by eapply readable_app, Hr.
  - intros k mb m2 (k1 & k2 & _ & a & ->). apply popped_left.
    pose proof (adjusted_moves 1 n mb ltac:(lia)) as [? ? ?]. rewrite Z.mul_1_l in *. by constructor.
Qed.
End Frame.
