(* ===== verification/AsmArmMem.v ===== *)
(** * AsmArmMem: loads, stores and locals of asmarm.c

    An offset that an instruction cannot hold goes through R8, as a constant
    from the code; halfword indices are shifted in R8. *)

From S2P Require Import Prelude AsmBase TwoPass Machine Emission ArmIsa ArmEffect AsmArm AsmArmInstr AsmArmFrame.

Set Default Goal Selector "!".

#[local] Existing Instance SizeT_32.
#[local] Hint Extern 0 Isa => exact Arm : typeclass_instances.

(** ** Base and offset *)

(** The operations, by direction and size. *)
Definition arm_offset_access (l : bool) (sz : size) : Z -> Z -> Z -> M asm_arm_t unit :=
  match sz, l with
  | Byte, true => asm_arm_ldrb_reg_reg_offset | Byte, false => asm_arm_strb_reg_reg_offset
  | Half, true => asm_arm_ldrh_reg_reg_offset | Half, false => asm_arm_strh_reg_reg_offset
  | Word, true => asm_arm_ldr_reg_reg_offset | Word, false => asm_arm_str_reg_reg_offset
  end.

Lemma arm_offset_access_eq l sz rd rn off :
  arm_offset_access l sz rd rn off
  = if off <? offset_limit sz then emit_al (imm_word l sz .| rn << 16 .| rd << 12 .| offset_field sz off)
    else asm_arm_mov_reg_i32_optimised REG_TEMP (s32 off);; emit_al (reg_word l sz .| rn << 16 .| rd << 12 .| REG_TEMP).
Proof.
  destruct sz, l; try done; cbn [arm_offset_access offset_limit offset_field imm_word reg_word];
    unfold asm_arm_ldrh_reg_reg_offset, asm_arm_strh_reg_reg_offset; by rewrite Z.lor_assoc.
Qed.

(** A large offset is left in R8. *)
Definition with_offset (sz : size) (off : Z) (mc : machine) : machine :=
  if off <? offset_limit sz then mc else set_reg REG_TEMP (u32 off) mc.
(** The constants of the code are read for a large offset only. *)
Definition readable_beyond (limit off : Z) (bs : list Z) (mc : machine) : Prop := limit <= off -> readable bs mc.

Lemma access_blind l sz r (a : machine -> Z) : (forall p mc, a (set_pc p mc) = a mc) ->
  pc_blind (fun mc => access l sz r (a mc) mc).
Proof. intros Ha p mc. rewrite Ha. by destruct l. Qed.

Section Offset.
Context (s : asm_arm_t) (l : bool) (sz : size) (rd rn off : Z) (Hd : gpr rd) (Hn : gpr rn) (Ho : 0 <= off).

Lemma arm_offset_access_performs : performs_when (readable_beyond (offset_limit sz) off) s
  (arm_offset_access l sz rd rn off)
  (fun mc => access l sz rd (u32 (reg rn (with_offset sz off mc) + off)) (with_offset sz off mc)).
Proof using Hd Hn Ho.
  rewrite arm_offset_access_eq. unfold with_offset. destruct (Z.ltb_spec off (offset_limit sz)) as [Hlt|Hge].
  - apply when_implements. by apply arm_access_imm_performs.
  - eapply when_mono; [eapply (performs_when_seq readable readable (fun _ _ => True) _ _ _ _
      (fun mc => access l sz rd (u32 (reg rn mc + reg REG_TEMP mc)) mc)); [by apply arm_mov_i32_optimised_performs| | |]| |].
    + by apply access_blind.
    + intros bs. apply when_implements. by apply (arm_access_reg_performs (puts bs s) l sz rd rn Hd Hn REG_TEMP).
    + intros bs cs mc Hr. split; [by eapply readable_app|done].
    + intros bs mc Hr. by apply Hr.
    + intros k mc mc' ->. cbv beta. by rewrite reg_set_eq, (uw_sw 32 eq_refl off), uw_add_r by done.
Qed.
(** Of other registers, R8 makes no difference. *)
Lemma arm_offset_access_other : rn <> REG_TEMP -> performs_when (readable_beyond (offset_limit sz) off) s
  (arm_offset_access l sz rd rn off) (fun mc => access l sz rd (u32 (reg rn mc + off)) (with_offset sz off mc)).
Proof using Hd Hn Ho.
  intros H8. eapply when_mono; [apply arm_offset_access_performs|done|]. intros k mc mc' ->.
  do 2 f_equal. unfold with_offset. destruct (off <? _); [done|]. by rewrite reg_set_ne.
Qed.
End Offset.

(** ** Base and index *)

Definition arm_index_access (l : bool) (sz : size) : Z -> Z -> Z -> M asm_arm_t unit :=
  match sz, l with
  | Byte, true => asm_arm_ldrb_reg_reg_reg | Byte, false => asm_arm_strb_reg_reg_reg
  | Half, true => asm_arm_ldrh_reg_reg_reg | Half, false => asm_arm_strh_reg_reg_reg
  | Word, true => asm_arm_ldr_reg_reg_reg | Word, false => asm_arm_str_reg_reg_reg
  end.
(** The index counts elements; that of halfwords is left doubled in R8. *)
Definition scale (sz : size) : Z := Z.of_nat (bytes sz).
Definition with_index (sz : size) (ri : Z) (mc : machine) : machine :=
  match sz with Half => set_reg REG_TEMP (u32 (2 * reg ri mc)) mc | _ => mc end.

Section Index.
Context (s : asm_arm_t) (l : bool) (sz : size) (rd rb ri : Z) (Hd : gpr rd) (Hb : gpr rb) (Hi : gpr ri).

Lemma arm_index_access_performs : (sz = Half -> rb <> REG_TEMP) -> performs s (arm_index_access l sz rd rb ri)
  (fun mc => access l sz rd (u32 (reg rb mc + scale sz * reg ri mc)) (with_index sz ri mc)).
Proof using Hd Hb Hi.
  intros H8. destruct sz.
  - eapply performs_ext; [|eapply (implements_ext _ _ (emit_al (reg_word l Byte .| rb << 16 .| rd << 12 .| ri)));
      [by destruct l|by apply arm_access_reg_performs]]. intros mc. cbv beta. change (scale Byte) with 1. by rewrite Z.mul_1_l.
  - eapply performs_ext; [|eapply (implements_ext _ _ (emit_al (0x1a00080 .| REG_TEMP << 12 .| ri);;
      emit_al (reg_word l Half .| rb << 16 .| rd << 12 .| REG_TEMP))); [by destruct l|]].
    2: { eapply (performs_seq _ _ _ _ (fun mc => access l Half rd (u32 (reg rb mc + reg REG_TEMP mc)) mc));
           [by apply arm_double_performs|done|by apply access_blind|]. intros bs.
         by apply (arm_access_reg_performs (puts bs s) l Half rd rb Hd Hb REG_TEMP). }
    intros mc. cbv beta. rewrite reg_set_eq, uw_add_r, reg_set_ne by (done || by intros ->; apply H8). done.
  - eapply performs_ext; [|eapply (implements_ext _ _ (emit_al (reg_word l Word .| 0x100 .| rb << 16 .| rd << 12 .| ri)));
      [by destruct l|by apply arm_access_scaled_performs]]. done.
Qed.
End Index.

(** ** Locals *)

Definition local_address (local : Z) (mc : machine) : Z := u32 (sp mc + 4 * local).

Section Locals.
Context (s : asm_arm_t) (r local : Z) (Hr : gpr r).

(** A local from 1024 on does not fit the offset field: the register field
    takes the rest of its number. *)
Lemma arm_local_access_performs (l : bool) high : 0 <= local < 0x400 -> 0 <= high < 16 -> gpr (r .| high) ->
  performs s ((if l then fun r local => asm_arm_mov_reg_local r local else fun r local => asm_arm_mov_local_reg local r)
      r (0x400 * high + local))
    (fun mc => access l Word (r .| high) (local_address local mc) mc).
Proof using Hr.
  intros Hl Hh Hg. eapply performs_ext; [|eapply (implements_ext _ _ (emit_al (imm_word l Word .| 13 << 16 .| (r .| high) << 12 .| (local << 2))))].
  3: { eapply (arm_access_imm_performs s l Word (r .| high) 13 Hg ltac:(by split) (local << 2)).
       rewrite Z.shiftl_mul_pow2 by done. simpl. lia. }
  - intros mc. cbv beta. rewrite Z.shiftl_mul_pow2, Z.mul_comm by done. done.
  - assert ((0x400 * high + local) << 2 = high << 12 .| local << 2) as E.
    { replace (0x400 * high + local) with (high << 10 .| local); [bitsolve|].
      rewrite <- Z.lxor_lor, <- Z.add_nocarry_lxor by bitsolve. rewrite Z.shiftl_mul_pow2 by done. lia. }
    destruct l; unfold asm_arm_mov_reg_local, asm_arm_mov_local_reg; rewrite E; cbn [imm_word];
      apply (f_equal (fun w => emit_al w s)); range Hr; bitsolve.
Qed.
Lemma arm_mov_local_reg_performs : 0 <= local < 0x400 -> performs s (asm_arm_mov_local_reg local r)
  (fun mc => set_mem (store 32 4 (mem mc) (local_address local mc) (u32 (reg r mc))) mc).
Proof using Hr.
  intros Hl. pose proof (arm_local_access_performs false 0 Hl) as Hp. rewrite Z.lor_0_r in Hp. by apply Hp.
Qed.
Lemma arm_mov_reg_local_performs : 0 <= local < 0x400 -> performs s (asm_arm_mov_reg_local r local)
  (fun mc => set_reg r (load 32 4 (mem mc) (local_address local mc)) mc).
Proof using Hr.
  intros Hl. pose proof (arm_local_access_performs true 0 Hl) as Hp. rewrite Z.lor_0_r in Hp. by apply Hp.
Qed.

(** The address of a local beyond the first 64 is computed with R8. *)
Lemma arm_mov_reg_local_addr_performs : 0 <= local < 2 ^ 28 ->
  performs_when (readable_beyond 0x40 local) s (asm_arm_mov_reg_local_addr r local)
    (fun mc => set_reg r (local_address local mc) (if local <? 0x40 then mc else set_reg REG_TEMP (4 * local) mc)).
Proof using Hr.
  intros Hl. unfold asm_arm_mov_reg_local_addr.
  assert (local << 2 = 4 * local) as -> by (rewrite Z.shiftl_mul_pow2 by done; lia).
  destruct (Z.leb_spec 0x40 local); [rewrite ltb_false by lia|rewrite ltb_true by lia].
  - eapply when_mono; [eapply (performs_when_seq readable readable (fun _ _ => True) _ _ _ _
      (fun mc => set_reg r (u32 (sp mc + reg REG_TEMP mc)) mc)); [by apply arm_mov_i32_optimised_performs|done| |]| |].
    + intros bs. apply when_implements.
      by apply (arm_binary_performs (puts bs s) r 13 8 Hr ltac:(by split) ltac:(by split) asm_arm_add_reg_reg_reg Z.add); left.
    + intros bs cs mc Hrd. split; [by eapply readable_app|done].
    + intros bs mc Hrd. by apply Hrd.
    + intros k mc mc' ->. cbv beta. rewrite (sw_small 32 eq_refl (4 * local)), (uw_small 32 (4 * local)) by pow_lia.
      rewrite reg_set_eq. unfold sp. by rewrite reg_set_ne.
  - apply when_implements. eapply performs_ext; [|by apply (arm_add_imm_performs s r 13 Hr)]. intros mc.
    cbv beta. rewrite (uw_small 32 (4 * local)), (uw_small 8 (4 * local)) by pow_lia. done.
Qed.

(** Storing a local keeps the frame. *)
Lemma arm_store_local_keeps_frame v mc locals : 0 <= local < locals -> 0 <= locals < 2 ^ 28 ->
  body_keeps_frame (arm_room locals) mc (set_mem (store 32 4 (mem mc) (local_address local mc) v) mc).
Proof using.
  intros Hl Hls. destruct (arm_room_bounds locals Hls) as (Hb & Hfit & _). split; [done|]. intros o Ho.
  cbn [mem set_mem]. rewrite peek_store by (done || pow_lia). rewrite ltb_false; [done|].
  unfold local_address. rewrite uw_sub_r by done. replace (sp mc + o - (sp mc + 4 * local)) with (o - 4 * local) by lia.
  rewrite uw_small by pow_lia. lia.
Qed.
End Locals.
