(* ===== verification/AsmArmSpec.v ===== *)
(** * AsmArmSpec: what asmarm.c promises the native emitter

    The theorems of the ARM back end: the frame of a function, branches, calls
    and the addresses of labels, memory and locals, arithmetic and constants,
    comparisons, with concrete instances. *)

From S2P Require Import Prelude AsmBase TwoPass PyMisc Machine Emission AsmArm AsmArmPass ArmIsa ArmEffect AsmArmInstr AsmArmJump AsmArmFrame AsmArmMem.

Set Default Goal Selector "!".

#[local] Existing Instance SizeT_32.
#[local] Hint Extern 0 Isa => exact Arm : typeclass_instances.

(** ** Concrete instances *)

(** Labels at 0, 100 and 2000, the code being at 40, in a frame with room for
    300 locals. *)
Definition example_arm : asm_arm_t :=
  mk_asm_arm (mk_asm_base MP_ASM_PASS_COMPUTE false 40 0 0 [] 3 [0; 100; 2000]) 0x1fe 1200.
Lemma arm_example_label_at room : room <= 32 -> label_at room example_arm 2 2000.
Proof. intros. constructor; [done|done| |done]. unfold arm_limit. simpl. lia. Qed.

(** ** Stack alignment *)

Lemma u32_mod8 x : u32 x mod 8 = x mod 8.
Proof. unfold uw. apply Z.mod_mod_divide. by exists (2 ^ 29). Qed.
Lemma arm_entered_alignment locals mc m1 : 0 <= locals < 2 ^ 28 -> frame_entered (arm_room locals) mc m1 ->
  sp mc mod 8 = 0 -> u32 (sp m1) mod 8 = 4.
Proof.
  intros Hl He H8. rewrite (entered_sp _ _ _ He), u32_mod8. pose proof (arm_room_bounds locals Hl) as (_ & _ & Hr).
  clear -H8 Hr. word_lia.
Qed.

(** ** Comparisons *)

(** The truth value of a relation of two registers. *)
Lemma arm_setcc_comparison s rd rn rm cc f : gpr rd -> gpr rn -> gpr rm -> In (cc, f) comparisons ->
  implements s (asm_arm_cmp_reg_reg rn rm;; asm_arm_setcc_reg rd (cc << 28)) (fun n mc mc' =>
    pc mc' = u32 (pc mc + n) /\ reg rd mc' = Z.b2z (f (reg rn mc) (reg rm mc)) /\ same_except (rd :: flags) mc mc').
Proof.
  intros Hd Hn Hm Hf. assert (0 <= cc < 14) as Hcc.
  { unfold comparisons in Hf. repeat destruct Hf as [[= <- _] | Hf]; done || lia. }
  eapply implements_mono; [eapply (performs_then s _ _ (fun mc => compared (reg rn mc) (reg rm mc) mc)); [|intros bs; by apply arm_setcc_performs]|].
  - eapply assembles_performs; [by apply arm_cmp_reg_assembles|]. intros mc _.
    apply arm_cmp_exec; [by apply (read_gpr false)|by apply (value_reg false)].
  - intros n mc mc' (n1 & n2 & -> & ->). rewrite !pc_set_pc. change addr_width with 32. rewrite uw_add_l, Z.add_assoc by done.
    split; [done|]. rewrite reg_set_pc, reg_set_eq. split.
    + f_equal. exact (compared_cond cc f (reg rn mc) (reg rm mc) mc Hf).
    + destruct (compared_same (reg rn mc) (reg rm mc) mc) as [Hr ?]. split; [|done].
      intros r [? ?]%not_elem_of_cons. rewrite reg_set_pc, reg_set_ne by done. by apply Hr.
Qed.

(** ** Where the code does not do what it means to *)

(** From local 1024 on another register is stored or loaded, and another
    local: those whose number and register field add up to the same bits. *)
Lemma arm_local_overflow s r local high : gpr r -> gpr (r .| high) -> 0 <= local < 0x400 -> 0 <= high < 16 ->
  performs s (asm_arm_mov_local_reg (0x400 * high + local) r)
    (fun mc => set_mem (store 32 4 (mem mc) (local_address local mc) (u32 (reg (r .| high) mc))) mc)
  /\ performs s (asm_arm_mov_reg_local r (0x400 * high + local))
    (fun mc => set_reg (r .| high) (load 32 4 (mem mc) (local_address local mc)) mc).
Proof.
  intros Hr Hg Hl Hh.
  split; [exact (arm_local_access_performs s r local Hr false high Hl Hh Hg)|exact (arm_local_access_performs s r local Hr true high Hl Hh Hg)].
Qed.

(** ** The theorems *)

(** C25: the frame of an ARM function.  Entry and exit implement the frame: R1
    to R8 and LR are pushed and room for the locals is made below them; for a
    body that restores the stack pointer and leaves the words of R4 to R8 and
    LR alone, the exit returns to the caller, in the instruction set the return
    address selects, with the stack pointer and R4 to R8 as they were.  A room
    of 256 bytes or more is a constant read from the code, which must be
    readable and not where the registers are pushed.  A stack pointer at a
    multiple of 8 is not at one after the entry. *)
Theorem arm_function_frame s locals : 0 <= locals < 2 ^ 28 ->
  implements_when (entry_readable locals) s (entered s locals) (asm_arm_entry locals)
    (fun n mc m1 => pc m1 = u32 (pc mc + n) /\ frame_entered (arm_room locals) mc m1)
  /\ (forall t, stack_adjust t = arm_room locals -> push_reglist t = 0x1fe ->
        implements_when (readable_if (arm_room locals)) t t asm_arm_exit (fun _ => frame_left (arm_room locals)))
  /\ (forall mc m1 mb m2, frame_entered (arm_room locals) mc m1 -> body_keeps_frame (arm_room locals) m1 mb ->
        frame_left (arm_room locals) mb m2 ->
        (forall r, 4 <= r <= 8 -> reg r m2 = u32 (reg r mc))
        /\ u32 (sp m2) = u32 (sp mc)
        /\ pc m2 = Z.ldiff (u32 (reg ASM_ARM_REG_LR mc)) 1
        /\ reg TF m2 = u32 (reg ASM_ARM_REG_LR mc) .& 1)
  /\ (forall mc m1, frame_entered (arm_room locals) mc m1 -> sp mc mod 8 = 0 -> u32 (sp m1) mod 8 = 4).
Proof.
  intros Hl. pose proof (arm_room_bounds locals Hl) as [Hn _]. split; [by apply arm_entry_implements|].
  split; [intros; by apply (arm_exit_implements locals Hl)|].
  split; [intros mc m1 mb m2; by apply arm_frame_roundtrip|]. intros mc m1. by apply arm_entered_alignment.
Qed.

Lemma arm_function_frame_witness :
  (exists P, implements_when (entry_readable 300) example_arm (entered example_arm 300) (asm_arm_entry 300) P)
  /\ implements_when (readable_if 1200) example_arm example_arm asm_arm_exit (fun _ => frame_left 1200).
Proof. destruct (arm_function_frame example_arm 300) as (He & Hx & _); [lia|]. split; [eexists; exact He|by apply Hx]. Defined.

(** C26: branches, calls and the addresses of labels.  A branch goes to the
    label exactly when its condition holds and changes only flags; a branch to
    a register and a call go to its value or to the entry of the function
    table, in the instruction set its lowest bit selects, the call with the
    address of the code after it in LR; the address of a label is that of the
    code, which must be readable, plus the distance of their offsets. *)
Theorem arm_jumps `{PyMisc} s label dest : label_at 16 s label dest -> suppress (base s) = false ->
  let d := dest - code_offset (base s) in
  implements s (GenericApi.ASM_JUMP label) (jumps_if (fun _ => true) d)
  /\ (forall r t, gpr r ->
        implements s (GenericApi.ASM_JUMP_IF_REG_ZERO r label t) (branches_if (fun mc => u32 (reg r mc) =? 0) d)
        /\ implements s (GenericApi.ASM_JUMP_IF_REG_NONZERO r label t)
             (branches_if (fun mc => negb (u32 (reg r mc) =? 0)) d))
  /\ (forall r1 r2, gpr r1 -> gpr r2 -> implements s (GenericApi.ASM_JUMP_IF_REG_EQ r1 r2 label)
        (branches_if (fun mc => u32 (reg r1 mc) =? u32 (reg r2 mc)) d))
  /\ (forall r, gpr r -> implements s (GenericApi.ASM_JUMP_REG r)
        (fun _ mc mc' => mc' = branch_exchange (u32 (reg r mc)) mc))
  /\ (forall idx, 0 <= idx < 0x400 -> implements s (GenericApi.ASM_CALL_IND idx) (fun n mc mc' =>
        mc' = branch_exchange (table_entry idx mc) (set_reg ASM_ARM_REG_LR (u32 (pc mc + n)) mc)))
  /\ (forall r, gpr r -> performs_when readable s (GenericApi.ASM_MOV_REG_PCREL r label)
        (fun mc => set_reg r (u32 (pc mc + d)) mc)).
Proof.
  intros Hl Hs d. assert (label_at 8 s label dest) as Hl8 by (destruct Hl; constructor; done || lia).
  split; [by apply arm_b_label_implements|]. split; [intros; split|split; [intros|split; [intros|split; intros]]].
  - by apply arm_jump_if_reg_zero_implements.
  - by apply arm_jump_if_reg_nonzero_implements.
  - by apply arm_jump_if_reg_eq_implements.
  - by apply arm_bx_implements.
  - by apply arm_bl_ind_implements.
  - by apply arm_mov_reg_pcrel_performs.
Qed.

Lemma arm_jumps_witness :
  implements example_arm (GenericApi.ASM_JUMP_IF_REG_EQ (H := py_misc) 4 5 2)
    (branches_if (fun mc => u32 (reg 4 mc) =? u32 (reg 5 mc)) 1960)
  /\ performs_when readable example_arm (GenericApi.ASM_MOV_REG_PCREL 3 2) (fun mc => set_reg 3 (u32 (pc mc + 1960)) mc).
Proof.
  destruct (arm_jumps (H := py_misc) example_arm 2 2000) as (_ & _ & Heq & _ & _ & Hp);
    [by apply arm_example_label_at|done|]. split; [by apply Heq|by apply Hp].
Defined.

(** C27: loads and stores.  Bytes, halfwords and words are accessed at base plus
    offset, whether or not the offset fits the instruction: one that does not
    goes through R8, read from the code; at base plus scaled index; and locals
    at the stack pointer plus 4 times their number, where storing one keeps the
    frame.  A local from 1024 on is not: another register is stored or loaded. *)
Theorem arm_loads_stores s rd rn : gpr rd -> gpr rn ->
  (forall l sz off, 0 <= off -> rn <> REG_TEMP ->
     performs_when (readable_beyond (offset_limit sz) off) s (arm_offset_access l sz rd rn off)
       (fun mc => access l sz rd (u32 (reg rn mc + off)) (with_offset sz off mc)))
  /\ (forall l sz ri, gpr ri -> rn <> REG_TEMP -> performs s (arm_index_access l sz rd rn ri)
       (fun mc => access l sz rd (u32 (reg rn mc + scale sz * reg ri mc)) (with_index sz ri mc)))
  /\ (forall local, 0 <= local < 0x400 ->
       performs s (asm_arm_mov_reg_local rd local)
         (fun mc => set_reg rd (load 32 4 (mem mc) (local_address local mc)) mc)
       /\ implements s (asm_arm_mov_local_reg local rd) (fun n mc mc' =>
            mc' = set_pc (u32 (pc mc + n)) (set_mem (store 32 4 (mem mc) (local_address local mc) (u32 (reg rd mc))) mc)
            /\ forall locals, local < locals < 2 ^ 28 -> body_keeps_frame (arm_room locals) mc mc'))
  /\ (forall local, 0 <= local < 2 ^ 28 -> performs_when (readable_beyond 0x40 local) s (asm_arm_mov_reg_local_addr rd local)
       (fun mc => set_reg rd (local_address local mc) (if local <? 0x40 then mc else set_reg REG_TEMP (4 * local) mc)))
  /\ (forall local high, gpr (rd .| high) -> 0 <= local < 0x400 -> 0 <= high < 16 ->
       performs s (asm_arm_mov_local_reg (0x400 * high + local) rd)
         (fun mc => set_mem (store 32 4 (mem mc) (local_address local mc) (u32 (reg (rd .| high) mc))) mc)
       /\ performs s (asm_arm_mov_reg_local rd (0x400 * high + local))
         (fun mc => set_reg (rd .| high) (load 32 4 (mem mc) (local_address local mc)) mc)).
Proof.
  intros Hd Hn. split; [|split; [|split; [|split]]].
  - intros. by apply arm_offset_access_other.
  - intros. by apply arm_index_access_performs.
  - intros local Hl. split; [by apply arm_mov_reg_local_performs|].
    eapply implements_mono; [by apply arm_mov_local_reg_performs|]. intros n mc mc' ->. split; [done|].
    intros locals Hls. apply (arm_store_local_keeps_frame local (u32 (reg rd mc)) mc locals); lia.
  - intros. by apply arm_mov_reg_local_addr_performs.
  - intros. by apply arm_local_overflow.
Qed.

Lemma arm_loads_stores_witness :
  (exists f, performs_when (readable_beyond 0x100 1000) example_arm (asm_arm_strh_reg_reg_offset 2 4 1000) f)
  /\ exists f, performs example_arm (asm_arm_ldrh_reg_reg_reg 2 4 5) f.
Proof.
  destruct (arm_loads_stores example_arm 2 4) as (Ho & Hi & _); [by split..|].
  split; eexists; [by apply (Ho false Half 1000)|by apply (Hi true Half 5)].
Defined.

(** C28: arithmetic and constants.  The three-register instructions, products,
    complements, negations, moves and shifts leave the 32-bit result in the
    destination and change nothing else, not even flags; a product with both
    operands the destination is refused.  A constant is loaded from eight bits
    of the instruction, from their complement, or from the code.  After a
    comparison of two registers each of the ten conditions holds exactly when
    the relation it stands for, signed or unsigned, does: the truth value is
    left in the destination. *)
Theorem arm_arithmetic s rd rn rm : gpr rd -> gpr rn -> gpr rm ->
  (forall op f, In (op, f) arm_binary ->
     performs s (op rd rn rm) (fun mc => set_reg rd (u32 (f (reg rn mc) (reg rm mc))) mc))
  /\ (forall op f, In (op, f) arm_shifts ->
     performs s (op rd rn) (fun mc => set_reg rd (u32 (f (reg rd mc) (u8 (reg rn mc)))) mc))
  /\ (if rd =? rm then asm_arm_mul_reg_reg_reg rd rn rm s = Fault (Assertion "rd!=rm")
      else performs s (asm_arm_mul_reg_reg_reg rd rn rm) (fun mc => set_reg rd (u32 (reg rn mc * reg rm mc)) mc))
  /\ performs s (GenericApi.ASM_MOV_REG_REG rd rn) (fun mc => set_reg rd (u32 (reg rn mc)) mc)
  /\ performs s (GenericApi.ASM_NOT_REG rd) (fun mc => set_reg rd (u32 (Z.lnot (reg rd mc))) mc)
  /\ performs s (GenericApi.ASM_NEG_REG rd) (fun mc => set_reg rd (u32 (- reg rd mc)) mc)
  /\ performs s (GenericApi.ASM_CLR_REG rd) (set_reg rd 0)
  /\ (forall imm, performs_when readable s (GenericApi.ASM_MOV_REG_IMM rd imm) (set_reg rd (u32 imm)))
  /\ (forall cc f, In (cc, f) comparisons -> implements s (asm_arm_cmp_reg_reg rn rm;; asm_arm_setcc_reg rd (cc << 28)) (fun n mc mc' =>
     pc mc' = u32 (pc mc + n) /\ reg rd mc' = Z.b2z (f (reg rn mc) (reg rm mc)) /\ same_except (rd :: flags) mc mc')).
Proof.
  intros Hd Hn Hm. split; [intros; by apply arm_binary_performs|]. split; [intros; by apply arm_shift_performs|].
  split; [destruct (Z.eqb_spec rd rm) as [<-|]; [by apply arm_mul_fault|by apply arm_mul_performs]|].
  split; [exact (arm_mov_reg_performs s rd rn Hd Hn)|]. split; [exact (arm_mvn_performs s rd rd Hd Hd)|].
  split; [eapply performs_ext; [|exact (arm_rsb_imm_performs s rd rd Hd Hd 0)]; intros mc; change (u8 0) with 0; by rewrite Z.sub_0_l|].
  split; [|split; [intros imm; by apply arm_mov_i32_optimised_performs|intros cc f; by apply arm_setcc_comparison]].
  eapply performs_ext; [|by apply (arm_binary_performs s rd rd rd Hd Hd Hd asm_arm_eor_reg_reg_reg Z.lxor); simpl; tauto].
  intros mc. cbv beta. by rewrite Z.lxor_nilpotent.
Qed.

Lemma arm_arithmetic_witness :
  performs example_arm (asm_arm_asr_reg_reg 2 4) (fun mc => set_reg 2 (u32 (s32 (reg 2 mc) >> u8 (reg 4 mc))) mc)
  /\ asm_arm_mul_reg_reg_reg 2 4 2 example_arm = Fault (Assertion "rd!=rm")
  /\ exists P, implements example_arm (asm_arm_cmp_reg_reg 4 2;; asm_arm_setcc_reg 2 ASM_ARM_CC_LT) P.
Proof.
  destruct (arm_arithmetic example_arm 2 4 2) as (_ & Hs & Hm & _ & _ & _ & _ & _ & Hc); [by split..|].
  split; [|split; [exact Hm|eexists; apply (Hc 11 (fun a b => s32 a <? s32 b)); simpl; tauto]].
  apply (Hs asm_arm_asr_reg_reg (fun a n => s32 a >> n)). simpl. tauto.
Defined.

