(* ===== verification/AsmThumb.v ===== *)
(** * AsmThumb: bank/uPython-ASM/asmthumb.{h,c}

    The Thumb code generator, for ARMv6-M and ARMv7-M: instruction formats,
    the back end's state, one definition per function of asmthumb.{h,c} and
    the generic assembler API.  [uint] and [mp_uint_t] are 32 bits wide. *)

From S2P Require Import Prelude AsmBase PyMisc.

Set Default Goal Selector "!".

#[local] Existing Instance SizeT_32.

(** ** Registers, condition codes and formats *)

Definition ASM_THUMB_REG_R0 : Z := 0.
Definition ASM_THUMB_REG_R1 : Z := 1.
Definition ASM_THUMB_REG_R2 : Z := 2.
Definition ASM_THUMB_REG_R3 : Z := 3.
Definition ASM_THUMB_REG_R4 : Z := 4.
Definition ASM_THUMB_REG_R5 : Z := 5.
Definition ASM_THUMB_REG_R6 : Z := 6.
Definition ASM_THUMB_REG_R7 : Z := 7.
Definition ASM_THUMB_REG_R8 : Z := 8.
Definition ASM_THUMB_REG_R9 : Z := 9.
Definition ASM_THUMB_REG_R10 : Z := 10.
Definition ASM_THUMB_REG_R11 : Z := 11.
Definition ASM_THUMB_REG_R12 : Z := 12.
Definition ASM_THUMB_REG_R13 : Z := 13.
Definition ASM_THUMB_REG_R14 : Z := 14.
Definition ASM_THUMB_REG_R15 : Z := 15.
Definition ASM_THUMB_REG_SP : Z := ASM_THUMB_REG_R13.
Definition ASM_THUMB_REG_LR : Z := ASM_THUMB_REG_R14.
Definition ASM_THUMB_CC_EQ : Z := 0x0.
Definition ASM_THUMB_CC_NE : Z := 0x1.
Definition ASM_THUMB_CC_CS : Z := 0x2.
Definition ASM_THUMB_CC_CC : Z := 0x3.
Definition ASM_THUMB_CC_MI : Z := 0x4.
Definition ASM_THUMB_CC_PL : Z := 0x5.
Definition ASM_THUMB_CC_VS : Z := 0x6.
Definition ASM_THUMB_CC_VC : Z := 0x7.
Definition ASM_THUMB_CC_HI : Z := 0x8.
Definition ASM_THUMB_CC_LS : Z := 0x9.
Definition ASM_THUMB_CC_GE : Z := 0xa.
Definition ASM_THUMB_CC_LT : Z := 0xb.
Definition ASM_THUMB_CC_GT : Z := 0xc.
Definition ASM_THUMB_CC_LE : Z := 0xd.
Definition ASM_THUMB_OP_IT : Z := 0xbf00.
Definition ASM_THUMB_OP_ITE_EQ : Z := 0xbf0c.
Definition ASM_THUMB_OP_ITE_NE : Z := 0xbf14.
Definition ASM_THUMB_OP_ITE_CS : Z := 0xbf2c.
Definition ASM_THUMB_OP_ITE_CC : Z := 0xbf34.
Definition ASM_THUMB_OP_ITE_MI : Z := 0xbf4c.
Definition ASM_THUMB_OP_ITE_PL : Z := 0xbf54.
Definition ASM_THUMB_OP_ITE_VS : Z := 0xbf6c.
Definition ASM_THUMB_OP_ITE_VC : Z := 0xbf74.
Definition ASM_THUMB_OP_ITE_HI : Z := 0xbf8c.
Definition ASM_THUMB_OP_ITE_LS : Z := 0xbf94.
Definition ASM_THUMB_OP_ITE_GE : Z := 0xbfac.
Definition ASM_THUMB_OP_ITE_LT : Z := 0xbfb4.
Definition ASM_THUMB_OP_ITE_GT : Z := 0xbfcc.
Definition ASM_THUMB_OP_ITE_LE : Z := 0xbfd4.
Definition ASM_THUMB_OP_NOP : Z := 0xbf00.
Definition ASM_THUMB_OP_WFI : Z := 0xbf30.
Definition ASM_THUMB_OP_CPSID_I : Z := 0xb672.
Definition ASM_THUMB_OP_CPSIE_I : Z := 0xb662.
Definition ASM_THUMB_FORMAT_1_LSL : Z := 0x0000.
Definition ASM_THUMB_FORMAT_1_LSR : Z := 0x0800.
Definition ASM_THUMB_FORMAT_1_ASR : Z := 0x1000.
Definition ASM_THUMB_FORMAT_1_ENCODE (op rlo_dest rlo_src offset : Z) : Z :=
  op .| offset << 6 .| rlo_src << 3 .| rlo_dest.
Definition ASM_THUMB_FORMAT_2_ADD : Z := 0x1800.
Definition ASM_THUMB_FORMAT_2_SUB : Z := 0x1a00.
Definition ASM_THUMB_FORMAT_2_REG_OPERAND : Z := 0x0000.
Definition ASM_THUMB_FORMAT_2_IMM_OPERAND : Z := 0x0400.
Definition ASM_THUMB_FORMAT_2_ENCODE (op rlo_dest rlo_src src_b : Z) : Z :=
  op .| src_b << 6 .| rlo_src << 3 .| rlo_dest.
Definition ASM_THUMB_FORMAT_3_MOV : Z := 0x2000.
Definition ASM_THUMB_FORMAT_3_CMP : Z := 0x2800.
Definition ASM_THUMB_FORMAT_3_ADD : Z := 0x3000.
Definition ASM_THUMB_FORMAT_3_SUB : Z := 0x3800.
Definition ASM_THUMB_FORMAT_3_LDR : Z := 0x4800.
Definition ASM_THUMB_FORMAT_3_ENCODE (op rlo i8 : Z) : Z := op .| rlo << 8 .| i8.
Definition ASM_THUMB_FORMAT_4_AND : Z := 0x4000.
Definition ASM_THUMB_FORMAT_4_EOR : Z := 0x4040.
Definition ASM_THUMB_FORMAT_4_LSL : Z := 0x4080.
Definition ASM_THUMB_FORMAT_4_LSR : Z := 0x40c0.
Definition ASM_THUMB_FORMAT_4_ASR : Z := 0x4100.
Definition ASM_THUMB_FORMAT_4_ADC : Z := 0x4140.
Definition ASM_THUMB_FORMAT_4_SBC : Z := 0x4180.
Definition ASM_THUMB_FORMAT_4_ROR : Z := 0x41c0.
Definition ASM_THUMB_FORMAT_4_TST : Z := 0x4200.
Definition ASM_THUMB_FORMAT_4_NEG : Z := 0x4240.
Definition ASM_THUMB_FORMAT_4_CMP : Z := 0x4280.
Definition ASM_THUMB_FORMAT_4_CMN : Z := 0x42c0.
Definition ASM_THUMB_FORMAT_4_ORR : Z := 0x4300.
Definition ASM_THUMB_FORMAT_4_MUL : Z := 0x4340.
Definition ASM_THUMB_FORMAT_4_BIC : Z := 0x4380.
Definition ASM_THUMB_FORMAT_4_MVN : Z := 0x43c0.
Definition ASM_THUMB_FORMAT_5_ADD : Z := 0x4400.
Definition ASM_THUMB_FORMAT_5_BX : Z := 0x4700.
Definition ASM_THUMB_FORMAT_5_ENCODE (op r_dest r_src : Z) : Z :=
  op .| r_dest << 4 .& 0x0080 .| r_src << 3 .| r_dest .& 0x0007.
Definition ASM_THUMB_FORMAT_7_LDR : Z := 0x5800.
Definition ASM_THUMB_FORMAT_7_STR : Z := 0x5000.
Definition ASM_THUMB_FORMAT_7_WORD_TRANSFER : Z := 0x0000.
Definition ASM_THUMB_FORMAT_7_BYTE_TRANSFER : Z := 0x0400.
Definition ASM_THUMB_FORMAT_8_LDRH : Z := 0x5A00.
Definition ASM_THUMB_FORMAT_8_STRH : Z := 0x5200.
Definition ASM_THUMB_FORMAT_7_8_ENCODE (op rlo_dest rlo_base rlo_index : Z) : Z :=
  op .| rlo_index << 6 .| rlo_base << 3 .| rlo_dest.
Definition ASM_THUMB_FORMAT_9_STR : Z := 0x6000.
Definition ASM_THUMB_FORMAT_9_LDR : Z := 0x6800.
Definition ASM_THUMB_FORMAT_9_WORD_TRANSFER : Z := 0x0000.
Definition ASM_THUMB_FORMAT_9_BYTE_TRANSFER : Z := 0x1000.
Definition ASM_THUMB_FORMAT_10_STRH : Z := 0x8000.
Definition ASM_THUMB_FORMAT_10_LDRH : Z := 0x8800.
Definition ASM_THUMB_FORMAT_9_10_ENCODE (op rlo_dest rlo_base offset : Z) : Z :=
  op .| offset << 6 .& 0x07c0 .| rlo_base << 3 .| rlo_dest.
Definition ASM_THUMB_FORMAT_11_ENCODE (op rlo_dest rlo_src : Z) : Z :=
  op .| rlo_src << 3 .| rlo_dest.
Definition ASM_THUMB_FORMAT_11_SXTH : Z := 0xb200.
Definition ASM_THUMB_FORMAT_11_SXTB : Z := 0xb240.
Definition ASM_THUMB_FORMAT_11_UXTH : Z := 0xb280.
Definition ASM_THUMB_FORMAT_11_UXTB : Z := 0xb2c0.
Definition ASM_THUMB_OP_MOVW : Z := 0xf240.
Definition ASM_THUMB_OP_MOVT : Z := 0xf2c0.
Definition ASM_THUMB_REG_FUN_TABLE : Z := ASM_THUMB_REG_R7.

(** ** The back end's state *)

Record asm_thumb_t := mk_asm_thumb {
  base : mp_asm_base_t;
  push_reglist : Z;
  stack_adjust : Z;
}.

#[export, refine] Instance HasBase_thumb : HasBase asm_thumb_t :=
  {| base_of := base; with_base b s := mk_asm_thumb b (push_reglist s) (stack_adjust s) |}.
Proof. all: by intros; try destruct s. Defined.

Definition set_push_reglist (x : Z) (s : asm_thumb_t) : asm_thumb_t :=
  mk_asm_thumb (base s) x (stack_adjust s).
Definition set_stack_adjust (x : Z) (s : asm_thumb_t) : asm_thumb_t :=
  mk_asm_thumb (base s) (push_reglist s) x.

(** The configuration: the preprocessor's symbols, the dynamic compiler's
    target, and the architecture numbers of py/persistentcode.h, which is not
    part of the repository. *)
Class ThumbConfig := {
  MICROPY_DYNAMIC_COMPILER : bool;
  MICROPY_EMIT_THUMB_ARMV7M : bool;
  (** [MICROPY_EMIT_ARM], or the host compiler targets ARM state. *)
  called_from_arm_state : bool;
  native_arch : Z;
  MP_NATIVE_ARCH_ARMV6 : Z;
  MP_NATIVE_ARCH_ARMV7M : Z;
  MP_NATIVE_ARCH_ARMV7EMDP : Z;
}.

Definition asm_thumb_allow_armv7m `{ThumbConfig} : bool :=
  if MICROPY_DYNAMIC_COMPILER then
    (MP_NATIVE_ARCH_ARMV7M <=? native_arch) && (native_arch <=? MP_NATIVE_ARCH_ARMV7EMDP)
  else MICROPY_EMIT_THUMB_ARMV7M.

Definition asm_thumb_end_pass : M asm_thumb_t unit := mret tt.

(** ** Tests and instruction words *)

Definition UNSIGNED_FIT7 (x : Z) : bool := u32 x <? 128.
Definition UNSIGNED_FIT8 (x : Z) : bool := x .& 0xffffff00 =? 0.
Definition UNSIGNED_FIT16 (x : Z) : bool := x .& 0xffff0000 =? 0.
Definition SIGNED_FIT8 (x : Z) : bool :=
  (x .& 0xffffff80 =? 0) || (x .& 0xffffff80 =? 0xffffff80).
Definition SIGNED_FIT9 (x : Z) : bool :=
  (x .& 0xffffff00 =? 0) || (x .& 0xffffff00 =? 0xffffff00).
Definition SIGNED_FIT12 (x : Z) : bool :=
  (x .& 0xfffff800 =? 0) || (x .& 0xfffff800 =? 0xfffff800).
Definition SIGNED_FIT23 (x : Z) : bool :=
  (x .& 0xffc00000 =? 0) || (x .& 0xffc00000 =? 0xffc00000).
Definition OP_ADD_W_RRI_HI (reg_src : Z) : Z := 0xf200 .| reg_src.
Definition OP_ADD_W_RRI_LO (reg_dest imm11 : Z) : Z :=
  imm11 << 4 .& 0x7000 .| reg_dest << 8 .| imm11 .& 0xff.
Definition OP_SUB_W_RRI_HI (reg_src : Z) : Z := 0xf2a0 .| reg_src.
Definition OP_SUB_W_RRI_LO (reg_dest imm11 : Z) : Z :=
  imm11 << 4 .& 0x7000 .| reg_dest << 8 .| imm11 .& 0xff.
Definition OP_PUSH_RLIST (rlolist : Z) : Z := 0xb400 .| rlolist.
Definition OP_PUSH_RLIST_LR (rlolist : Z) : Z := 0xb400 .| 0x0100 .| rlolist.
Definition OP_POP_RLIST (rlolist : Z) : Z := 0xbc00 .| rlolist.
Definition OP_POP_RLIST_PC (rlolist : Z) : Z := 0xbc00 .| 0x0100 .| rlolist.
Definition OP_ADD_SP (num_words : Z) : Z := 0xb000 .| num_words.
Definition OP_SUB_SP (num_words : Z) : Z := 0xb080 .| num_words.
Definition OP_FORMAT_4 (op rlo_dest rlo_src : Z) : Z := op .| rlo_src << 3 .| rlo_dest.
Definition OP_B_N (byte_offset : Z) : Z := 0xe000 .| byte_offset >> 1 .& 0x07ff.
Definition OP_BCC_N (cond byte_offset : Z) : Z :=
  0xd000 .| cond << 8 .| byte_offset >> 1 .& 0x00ff.
Definition OP_BCC_W_HI (cond byte_offset : Z) : Z :=
  0xf000 .| cond << 6 .| byte_offset >> 10 .& 0x0400 .| byte_offset >> 12 .& 0x003f.
Definition OP_BCC_W_LO (byte_offset : Z) : Z :=
  0x8000 .| byte_offset >> 5 .& 0x2000 .| byte_offset >> 8 .& 0x0800 .| byte_offset >> 1 .&
    0x07ff.
Definition OP_BL_HI (byte_offset : Z) : Z := 0xf000 .| byte_offset >> 12 .& 0x07ff.
Definition OP_BL_LO (byte_offset : Z) : Z := 0xf800 .| byte_offset >> 1 .& 0x07ff.
Definition OP_STR_TO_SP_OFFSET (rlo_dest word_offset : Z) : Z :=
  0x9000 .| rlo_dest << 8 .| word_offset .& 0x00ff.
Definition OP_LDR_FROM_SP_OFFSET (rlo_dest word_offset : Z) : Z :=
  0x9800 .| rlo_dest << 8 .| word_offset .& 0x00ff.
Definition OP_ADD_REG_SP_OFFSET (rlo_dest word_offset : Z) : Z :=
  0xa800 .| rlo_dest << 8 .| word_offset .& 0x00ff.
Definition OP_LDR_STR_W_HI (operation_size reg : Z) : Z :=
  0xf880 .| operation_size << 5 .| reg.
Definition OP_LDR_STR_W_LO (reg imm12 : Z) : Z := reg << 12 .| imm12.
Definition OP_LDR : Z := 0x01.
Definition OP_STR : Z := 0x00.
Definition OP_LDR_W : Z := 0x10.
Definition OP_STR_W : Z := 0x00.
Definition OP_BW_HI (byte_offset : Z) : Z := 0xf000 .| byte_offset >> 12 .& 0x07ff.
Definition OP_BW_LO (byte_offset : Z) : Z := 0xb800 .| byte_offset >> 1 .& 0x07ff.
Definition OP_BLX (reg : Z) : Z := 0x4780 .| reg << 3.
Definition OP_SVC (arg : Z) : Z := 0xdf00 .| arg.

Definition OP_LDR_STR_TABLE : list Z := [0x0E; 0x10; 0x0C].
Definition op_ldr_str (operation_size : Z) : Z := nth (Z.to_nat operation_size) OP_LDR_STR_TABLE 0.

(** ** Writing instructions *)

Definition asm_thumb_get_cur_to_write_bytes (n : Z) : M asm_thumb_t (option Z) :=
  cur_to_write_bytes n.

Definition asm_thumb_op16 (op : Z) : M asm_thumb_t unit :=
  put_array asm_thumb_get_cur_to_write_bytes [u8 op; u8 (op >> 8)].

Definition asm_thumb_op32 (op1 op2 : Z) : M asm_thumb_t unit :=
  put_array asm_thumb_get_cur_to_write_bytes [u8 op1; u8 (op1 >> 8); u8 op2; u8 (op2 >> 8)].

Definition asm_thumb_format_4 (op rlo_dest rlo_src : Z) : M asm_thumb_t unit :=
  assert_ (rlo_dest <? ASM_THUMB_REG_R8) "rlo_dest < ASM_THUMB_REG_R8";;
  assert_ (rlo_src <? ASM_THUMB_REG_R8) "rlo_src < ASM_THUMB_REG_R8";;
  asm_thumb_op16 (OP_FORMAT_4 op rlo_dest rlo_src).

Definition asm_thumb_it_cc (cc mask : Z) : M asm_thumb_t unit :=
  asm_thumb_op16 (ASM_THUMB_OP_IT .| cc << 4 .| mask).

Definition asm_thumb_format_1 (op rlo_dest rlo_src offset : Z) : M asm_thumb_t unit :=
  assert_ (rlo_dest <? ASM_THUMB_REG_R8) "rlo_dest < ASM_THUMB_REG_R8";;
  assert_ (rlo_src <? ASM_THUMB_REG_R8) "rlo_src < ASM_THUMB_REG_R8";;
  asm_thumb_op16 (ASM_THUMB_FORMAT_1_ENCODE op rlo_dest rlo_src offset).

Definition asm_thumb_format_2 (op rlo_dest rlo_src src_b : Z) : M asm_thumb_t unit :=
  assert_ (rlo_dest <? ASM_THUMB_REG_R8) "rlo_dest < ASM_THUMB_REG_R8";;
  assert_ (rlo_src <? ASM_THUMB_REG_R8) "rlo_src < ASM_THUMB_REG_R8";;
  asm_thumb_op16 (ASM_THUMB_FORMAT_2_ENCODE op rlo_dest rlo_src src_b).

Definition asm_thumb_add_rlo_rlo_rlo (rlo_dest rlo_src_a rlo_src_b : Z) : M asm_thumb_t unit :=
  asm_thumb_format_2 (ASM_THUMB_FORMAT_2_ADD .| ASM_THUMB_FORMAT_2_REG_OPERAND) rlo_dest
    rlo_src_a rlo_src_b.

Definition asm_thumb_add_rlo_rlo_i3 (rlo_dest rlo_src_a i3_src : Z) : M asm_thumb_t unit :=
  asm_thumb_format_2 (ASM_THUMB_FORMAT_2_ADD .| ASM_THUMB_FORMAT_2_IMM_OPERAND) rlo_dest
    rlo_src_a i3_src.

Definition asm_thumb_sub_rlo_rlo_rlo (rlo_dest rlo_src_a rlo_src_b : Z) : M asm_thumb_t unit :=
  asm_thumb_format_2 (ASM_THUMB_FORMAT_2_SUB .| ASM_THUMB_FORMAT_2_REG_OPERAND) rlo_dest
    rlo_src_a rlo_src_b.

Definition asm_thumb_sub_rlo_rlo_i3 (rlo_dest rlo_src_a i3_src : Z) : M asm_thumb_t unit :=
  asm_thumb_format_2 (ASM_THUMB_FORMAT_2_SUB .| ASM_THUMB_FORMAT_2_IMM_OPERAND) rlo_dest
    rlo_src_a i3_src.

Definition asm_thumb_format_3 (op rlo i8 : Z) : M asm_thumb_t unit :=
  assert_ (rlo <? ASM_THUMB_REG_R8) "rlo < ASM_THUMB_REG_R8";;
  asm_thumb_op16 (ASM_THUMB_FORMAT_3_ENCODE op rlo i8).

Definition asm_thumb_mov_rlo_i8 (rlo i8 : Z) : M asm_thumb_t unit :=
  asm_thumb_format_3 ASM_THUMB_FORMAT_3_MOV rlo i8.

Definition asm_thumb_cmp_rlo_i8 (rlo i8 : Z) : M asm_thumb_t unit :=
  asm_thumb_format_3 ASM_THUMB_FORMAT_3_CMP rlo i8.

Definition asm_thumb_add_rlo_i8 (rlo i8 : Z) : M asm_thumb_t unit :=
  asm_thumb_format_3 ASM_THUMB_FORMAT_3_ADD rlo i8.

Definition asm_thumb_sub_rlo_i8 (rlo i8 : Z) : M asm_thumb_t unit :=
  asm_thumb_format_3 ASM_THUMB_FORMAT_3_SUB rlo i8.

Definition asm_thumb_ldr_rlo_pcrel_i8 (rlo i8 : Z) : M asm_thumb_t unit :=
  asm_thumb_format_3 ASM_THUMB_FORMAT_3_LDR rlo i8.

Definition asm_thumb_cmp_rlo_rlo (rlo_dest rlo_src : Z) : M asm_thumb_t unit :=
  asm_thumb_format_4 ASM_THUMB_FORMAT_4_CMP rlo_dest rlo_src.

Definition asm_thumb_mvn_rlo_rlo (rlo_dest rlo_src : Z) : M asm_thumb_t unit :=
  asm_thumb_format_4 ASM_THUMB_FORMAT_4_MVN rlo_dest rlo_src.

Definition asm_thumb_neg_rlo_rlo (rlo_dest rlo_src : Z) : M asm_thumb_t unit :=
  asm_thumb_format_4 ASM_THUMB_FORMAT_4_NEG rlo_dest rlo_src.

Definition asm_thumb_format_5 (op r_dest r_src : Z) : M asm_thumb_t unit :=
  asm_thumb_op16 (ASM_THUMB_FORMAT_5_ENCODE op r_dest r_src).

Definition asm_thumb_add_reg_reg (r_dest r_src : Z) : M asm_thumb_t unit :=
  asm_thumb_format_5 ASM_THUMB_FORMAT_5_ADD r_dest r_src.

Definition asm_thumb_bx_reg (r_src : Z) : M asm_thumb_t unit :=
  asm_thumb_format_5 ASM_THUMB_FORMAT_5_BX 0 r_src.

Definition asm_thumb_format_7_8 (op rlo_dest rlo_base rlo_index : Z) : M asm_thumb_t unit :=
  assert_ (rlo_dest <? ASM_THUMB_REG_R8) "rlo_dest < ASM_THUMB_REG_R8";;
  assert_ (rlo_base <? ASM_THUMB_REG_R8) "rlo_base < ASM_THUMB_REG_R8";;
  assert_ (rlo_index <? ASM_THUMB_REG_R8) "rlo_index < ASM_THUMB_REG_R8";;
  asm_thumb_op16 (ASM_THUMB_FORMAT_7_8_ENCODE op rlo_dest rlo_base rlo_index).

Definition asm_thumb_ldrb_rlo_rlo_rlo (rlo_dest rlo_base rlo_index : Z) : M asm_thumb_t unit :=
  asm_thumb_format_7_8 (ASM_THUMB_FORMAT_7_LDR .| ASM_THUMB_FORMAT_7_BYTE_TRANSFER) rlo_dest
    rlo_base rlo_index.

Definition asm_thumb_ldrh_rlo_rlo_rlo (rlo_dest rlo_base rlo_index : Z) : M asm_thumb_t unit :=
  asm_thumb_format_7_8 ASM_THUMB_FORMAT_8_LDRH rlo_dest rlo_base rlo_index.

Definition asm_thumb_ldr_rlo_rlo_rlo (rlo_dest rlo_base rlo_index : Z) : M asm_thumb_t unit :=
  asm_thumb_format_7_8 (ASM_THUMB_FORMAT_7_LDR .| ASM_THUMB_FORMAT_7_WORD_TRANSFER) rlo_dest
    rlo_base rlo_index.

Definition asm_thumb_strb_rlo_rlo_rlo (rlo_src rlo_base rlo_index : Z) : M asm_thumb_t unit :=
  asm_thumb_format_7_8 (ASM_THUMB_FORMAT_7_STR .| ASM_THUMB_FORMAT_7_BYTE_TRANSFER) rlo_src
    rlo_base rlo_index.

Definition asm_thumb_strh_rlo_rlo_rlo (rlo_dest rlo_base rlo_index : Z) : M asm_thumb_t unit :=
  asm_thumb_format_7_8 ASM_THUMB_FORMAT_8_STRH rlo_dest rlo_base rlo_index.

Definition asm_thumb_str_rlo_rlo_rlo (rlo_src rlo_base rlo_index : Z) : M asm_thumb_t unit :=
  asm_thumb_format_7_8 (ASM_THUMB_FORMAT_7_STR .| ASM_THUMB_FORMAT_7_WORD_TRANSFER) rlo_src
    rlo_base rlo_index.

Definition asm_thumb_format_9_10 (op rlo_dest rlo_base offset : Z) : M asm_thumb_t unit :=
  asm_thumb_op16 (ASM_THUMB_FORMAT_9_10_ENCODE op rlo_dest rlo_base offset).

Definition asm_thumb_lsl_rlo_rlo_i5 (rlo_dest rlo_src shift : Z) : M asm_thumb_t unit :=
  asm_thumb_format_1 ASM_THUMB_FORMAT_1_LSL rlo_dest rlo_src shift.

Definition asm_thumb_asr_rlo_rlo_i5 (rlo_dest rlo_src shift : Z) : M asm_thumb_t unit :=
  asm_thumb_format_1 ASM_THUMB_FORMAT_1_ASR rlo_dest rlo_src shift.

Definition asm_thumb_format_11 (op rlo_dest rlo_src : Z) : M asm_thumb_t unit :=
  assert_ (rlo_dest <? ASM_THUMB_REG_R8) "rlo_dest < ASM_THUMB_REG_R8";;
  assert_ (rlo_src <? ASM_THUMB_REG_R8) "rlo_src < ASM_THUMB_REG_R8";;
  asm_thumb_op16 (ASM_THUMB_FORMAT_11_ENCODE op rlo_dest rlo_src).

Definition asm_thumb_sxth_rlo_rlo (rlo_dest rlo_src : Z) : M asm_thumb_t unit :=
  asm_thumb_format_11 ASM_THUMB_FORMAT_11_SXTH rlo_dest rlo_src.

Definition asm_thumb_mov_reg_reg (reg_dest reg_src : Z) : M asm_thumb_t unit :=
  let op_lo := if reg_src <? 8 then reg_src << 3 else 0x40 .| (reg_src - 8) << 3 in
  let op_lo := if reg_dest <? 8 then op_lo .| reg_dest else op_lo .| (0x80 .| (reg_dest - 8)) in
  asm_thumb_op16 (0x4600 .| op_lo).

Definition asm_thumb_mov_reg_i16 (mov_op reg_dest i16_src : Z) : M asm_thumb_t unit :=
  assert_ (reg_dest <? ASM_THUMB_REG_R15) "reg_dest < ASM_THUMB_REG_R15";;
  asm_thumb_op32 (mov_op .| i16_src >> 1 .& 0x0400 .| i16_src >> 12 .& 0xf)
    (i16_src << 4 .& 0x7000 .| reg_dest << 8 .| i16_src .& 0xff).

Definition asm_thumb_mov_rlo_i16 (rlo_dest i16_src : Z) : M asm_thumb_t unit :=
  asm_thumb_mov_rlo_i8 rlo_dest (i16_src >> 8 .& 0xff);;
  asm_thumb_lsl_rlo_rlo_i5 rlo_dest rlo_dest 8;;
  asm_thumb_add_rlo_i8 rlo_dest (i16_src .& 0xff).

Definition get_label_dest (label : Z) : M asm_thumb_t Z := on_base (label_dest label).

(** [dest], [as->base.code_offset] and [rel], the distance between them less
    the prefetch of 4 bytes. *)
Definition label_rel (label : Z) : M asm_thumb_t (Z * Z * Z) :=
  dest ← get_label_dest label;
  code_offset ← gets (fun s => code_offset (base s));
  mret (dest, code_offset, s32 (s32 (dest - code_offset) - 4)).

(** ** Branches of a fixed size, for the inline assembler *)

Definition asm_thumb_b_n_label (label : Z) : M asm_thumb_t bool :=
  '(_, _, rel) ← label_rel label;
  asm_thumb_op16 (OP_B_N rel);;
  pass ← gets (fun s => pass (base s));
  mret (negb (pass =? MP_ASM_PASS_EMIT) || SIGNED_FIT12 rel).

Definition asm_thumb_bl_label (label : Z) : M asm_thumb_t bool :=
  '(_, _, rel) ← label_rel label;
  asm_thumb_op32 (OP_BL_HI rel) (OP_BL_LO rel);;
  pass ← gets (fun s => pass (base s));
  mret (negb (pass =? MP_ASM_PASS_EMIT) || SIGNED_FIT23 rel).

Definition asm_thumb_bcc_rel9 (cond rel : Z) : M asm_thumb_t unit :=
  let rel := s32 (rel - 4) in
  assert_ (SIGNED_FIT9 rel) "SIGNED_FIT9(rel)";;
  asm_thumb_op16 (OP_BCC_N cond rel).

Definition asm_thumb_b_rel12 (rel : Z) : M asm_thumb_t unit :=
  let rel := s32 (rel - 4) in
  assert_ (SIGNED_FIT12 rel) "SIGNED_FIT12(rel)";;
  asm_thumb_op16 (OP_B_N rel).

(** ** Locals *)

Definition asm_thumb_mov_local_check (word_offset : Z) : M asm_thumb_t unit :=
  pass ← gets (fun s => pass (base s));
  if MP_ASM_PASS_EMIT <=? pass then
    assert_ (0 <=? word_offset) "word_offset >= 0";;
    if negb (UNSIGNED_FIT8 word_offset) then raise "too many locals for native method"
    else mret tt
  else mret tt.

Definition asm_thumb_mov_local_reg (local_num rlo_src : Z) : M asm_thumb_t unit :=
  assert_ (rlo_src <? ASM_THUMB_REG_R8) "rlo_src < ASM_THUMB_REG_R8";;
  let word_offset := local_num in
  asm_thumb_mov_local_check word_offset;;
  asm_thumb_op16 (OP_STR_TO_SP_OFFSET rlo_src word_offset).

Definition asm_thumb_mov_reg_local (rlo_dest local_num : Z) : M asm_thumb_t unit :=
  assert_ (rlo_dest <? ASM_THUMB_REG_R8) "rlo_dest < ASM_THUMB_REG_R8";;
  let word_offset := local_num in
  asm_thumb_mov_local_check word_offset;;
  asm_thumb_op16 (OP_LDR_FROM_SP_OFFSET rlo_dest word_offset).

Definition asm_thumb_mov_reg_local_addr (rlo_dest local_num : Z) : M asm_thumb_t unit :=
  assert_ (rlo_dest <? ASM_THUMB_REG_R8) "rlo_dest < ASM_THUMB_REG_R8";;
  let word_offset := local_num in
  pass ← gets (fun s => pass (base s));
  assert_ ((pass <? MP_ASM_PASS_EMIT) || (0 <=? word_offset))
    "as->base.pass < MP_ASM_PASS_EMIT || word_offset >= 0";;
  asm_thumb_op16 (OP_ADD_REG_SP_OFFSET rlo_dest word_offset).

(** ** Function entry and exit *)

(** [while (!UNSIGNED_FIT7(adj)) { op16(op(127)); adj -= 127; }], and what is
    left of [adj]. *)
Fixpoint adjust_sp_loop (fuel : nat) (op : Z -> Z) (adj : Z) : M asm_thumb_t Z :=
  if UNSIGNED_FIT7 adj then mret adj
  else
    match fuel with
    | O => raise "no fuel"
    | S fuel =>
        asm_thumb_op16 (op 127);;
        adjust_sp_loop fuel op (s32 (adj - 127))
    end.

Section Config.
Context `{ThumbConfig} `{PyMisc}.

(** The code that switches from ARM to Thumb state. *)
Definition arm_state_prelude : M asm_thumb_t unit :=
  asm_thumb_op32 0x4010 0xe92d;;
  asm_thumb_op32 0xe009 0xe28f;;
  asm_thumb_op32 0xff3e 0xe12f;;
  asm_thumb_op32 0x4010 0xe8bd;;
  asm_thumb_op32 0xff1e 0xe12f.

(** The [switch] on the number of locals. *)
Definition entry_frame (num_locals : Z) : Z * Z :=
  match num_locals with
  | 0 => (0xf2, 0)
  | 1 => (0xf2, 0)
  | 2 => (0xfe, 0)
  | 3 => (0xfe, 0)
  | _ => (0xfe, u32 (s32 ((num_locals - 3) + 1) .& Z.lnot 1))
  end.

Definition asm_thumb_entry (num_locals : Z) : M asm_thumb_t unit :=
  assert_ (0 <=? num_locals) "num_locals >= 0";;
  (if (if MICROPY_DYNAMIC_COMPILER then native_arch =? MP_NATIVE_ARCH_ARMV6
       else called_from_arm_state)
   then arm_state_prelude else mret tt);;
  let '(reglist, stack_adjust) := entry_frame num_locals in
  asm_thumb_op16 (OP_PUSH_RLIST_LR reglist);;
  (if 0 <? stack_adjust then
     if asm_thumb_allow_armv7m then
       if UNSIGNED_FIT7 stack_adjust then asm_thumb_op16 (OP_SUB_SP stack_adjust)
       else
         asm_thumb_op32 (OP_SUB_W_RRI_HI ASM_THUMB_REG_SP)
           (OP_SUB_W_RRI_LO ASM_THUMB_REG_SP (u32 (stack_adjust * 4)))
     else
       adj ← adjust_sp_loop (Z.to_nat stack_adjust) OP_SUB_SP (s32 stack_adjust);
       asm_thumb_op16 (OP_SUB_SP adj)
   else mret tt);;
  modify (set_push_reglist reglist);;
  modify (set_stack_adjust stack_adjust).

Definition asm_thumb_exit : M asm_thumb_t unit :=
  stack_adjust ← gets stack_adjust;
  (if 0 <? stack_adjust then
     if asm_thumb_allow_armv7m then
       if UNSIGNED_FIT7 stack_adjust then asm_thumb_op16 (OP_ADD_SP stack_adjust)
       else
         asm_thumb_op32 (OP_ADD_W_RRI_HI ASM_THUMB_REG_SP)
           (OP_ADD_W_RRI_LO ASM_THUMB_REG_SP (u32 (stack_adjust * 4)))
     else
       adj ← adjust_sp_loop (Z.to_nat stack_adjust) OP_ADD_SP (s32 stack_adjust);
       asm_thumb_op16 (OP_ADD_SP adj)
   else mret tt);;
  push_reglist ← gets push_reglist;
  asm_thumb_op16 (OP_POP_RLIST_PC push_reglist).

Definition asm_thumb_bcc_nw_label (cond label : Z) (wide : bool) : M asm_thumb_t bool :=
  '(_, _, rel) ← label_rel label;
  if negb wide then
    asm_thumb_op16 (OP_BCC_N cond rel);;
    pass ← gets (fun s => pass (base s));
    mret (negb (pass =? MP_ASM_PASS_EMIT) || SIGNED_FIT9 rel)
  else if asm_thumb_allow_armv7m then
    asm_thumb_op32 (OP_BCC_W_HI cond rel) (OP_BCC_W_LO rel);;
    mret true
  else mret false.

(** ** Constants *)

Definition asm_thumb_mov_reg_i32 (reg_dest i32 : Z) : M asm_thumb_t Z :=
  loc ← on_base mp_asm_base_get_code_pos;
  (if asm_thumb_allow_armv7m then
     asm_thumb_mov_reg_i16 ASM_THUMB_OP_MOVW reg_dest (s32 i32);;
     asm_thumb_mov_reg_i16 ASM_THUMB_OP_MOVT reg_dest (i32 >> 16)
   else
     assert_ (reg_dest <? ASM_THUMB_REG_R8) "reg_dest < ASM_THUMB_REG_R8";;
     b ← gets base;
     assert_ ((code_base b =? 0) || (3 .& code_base b =? 0))
       "!as->base.code_base || !(3u & (uintptr_t)as->base.code_base)";;
     (if negb (code_offset b .& 2 =? 0) then asm_thumb_op16 ASM_THUMB_OP_NOP else mret tt);;
     asm_thumb_ldr_rlo_pcrel_i8 reg_dest 0;;
     asm_thumb_op16 (OP_B_N 2);;
     asm_thumb_op16 (i32 .& 0xffff);;
     asm_thumb_op16 (i32 >> 16));;
  mret loc.

Definition asm_thumb_mov_reg_i32_optimised (reg_dest i32 : Z) : M asm_thumb_t unit :=
  if (reg_dest <? 8) && UNSIGNED_FIT8 i32 then asm_thumb_mov_rlo_i8 reg_dest i32
  else if asm_thumb_allow_armv7m then
    if UNSIGNED_FIT16 i32 then asm_thumb_mov_reg_i16 ASM_THUMB_OP_MOVW reg_dest i32
    else asm_thumb_mov_reg_i32 reg_dest (u32 i32);; mret tt
  else
    let rlo_dest := reg_dest in
    assert_ (rlo_dest <? ASM_THUMB_REG_R8) "rlo_dest < ASM_THUMB_REG_R8";;
    let negate := (i32 <? 0) && negb (u32 (i32 + i32) .& 0xffffffff =? 0) in
    let i32 := if negate then s32 (- i32) else i32 in
    let clz := mp_clz (u32 i32) in
    let ctz := if negb (i32 =? 0) then mp_ctz (u32 i32) else 0 in
    assert_ (clz + ctz <=? 32) "clz + ctz <= 32";;
    negate ←
      (if 24 <=? clz + ctz then
         asm_thumb_mov_rlo_i8 rlo_dest (i32 >> ctz .& 0xff);;
         asm_thumb_lsl_rlo_rlo_i5 rlo_dest rlo_dest ctz;;
         mret negate
       else if UNSIGNED_FIT16 i32 then
         asm_thumb_mov_rlo_i16 rlo_dest i32;;
         mret negate
       else
         let '(negate, i32) := if negate then (false, s32 (- i32)) else (negate, i32) in
         asm_thumb_mov_reg_i32 rlo_dest (u32 i32);;
         mret negate);
    match negate with
    | true => asm_thumb_neg_rlo_rlo rlo_dest rlo_dest
    | false => mret tt
    end.

Definition asm_thumb_mov_reg_pcrel (rlo_dest label : Z) : M asm_thumb_t unit :=
  dest ← get_label_dest label;
  code_offset ← gets (fun s => code_offset (base s));
  let rel := s32 (dest - code_offset) in
  let rel := rel .| 1 in
  (if asm_thumb_allow_armv7m then
     let rel := s32 (rel - (6 + 4)) in
     asm_thumb_mov_reg_i16 ASM_THUMB_OP_MOVW rlo_dest rel;;
     asm_thumb_sxth_rlo_rlo rlo_dest rlo_dest
   else
     let rel := s32 (rel - (8 + 4)) in
     asm_thumb_mov_rlo_i16 rlo_dest rel;;
     asm_thumb_sxth_rlo_rlo rlo_dest rlo_dest);;
  asm_thumb_add_reg_reg rlo_dest ASM_THUMB_REG_R15.

(** ** Memory *)

Definition asm_thumb_add_reg_reg_offset (reg_dest reg_base offset offset_shift : Z)
  : M asm_thumb_t unit :=
  if (reg_dest <? ASM_THUMB_REG_R8) && (reg_base <? ASM_THUMB_REG_R8) then
    if u32 (offset << offset_shift) <? 256 then
      (if negb (reg_dest =? reg_base) then asm_thumb_mov_reg_reg reg_dest reg_base
       else mret tt);;
      asm_thumb_add_rlo_i8 reg_dest (s32 (offset << offset_shift))
    else if UNSIGNED_FIT8 offset && negb (reg_dest =? reg_base) then
      asm_thumb_mov_rlo_i8 reg_dest (s32 offset);;
      asm_thumb_lsl_rlo_rlo_i5 reg_dest reg_dest offset_shift;;
      asm_thumb_add_rlo_rlo_rlo reg_dest reg_dest reg_base
    else if negb (reg_dest =? reg_base) then
      asm_thumb_mov_reg_i32_optimised reg_dest (s32 (offset << offset_shift));;
      asm_thumb_add_rlo_rlo_rlo reg_dest reg_dest reg_base
    else
      let reg_other := reg_dest .^ 7 in
      asm_thumb_op16 (OP_PUSH_RLIST (1 << reg_other));;
      asm_thumb_mov_reg_i32_optimised reg_other (s32 (offset << offset_shift));;
      asm_thumb_add_rlo_rlo_rlo reg_dest reg_dest reg_other;;
      asm_thumb_op16 (OP_POP_RLIST (1 << reg_other))
  else assert_ false "0".

Definition asm_thumb_load_reg_reg_offset (reg_dest reg_base offset operation_size : Z)
  : M asm_thumb_t unit :=
  assert_ (operation_size <=? 2) "Operation size out of range.";;
  if MP_FIT_UNSIGNED 5 offset && (reg_dest <? ASM_THUMB_REG_R8) && (reg_base <? ASM_THUMB_REG_R8)
  then
    asm_thumb_op16 ((op_ldr_str operation_size .| OP_LDR) << 11 .| offset << 6 .| reg_base << 3
                    .| reg_dest)
  else if asm_thumb_allow_armv7m && MP_FIT_UNSIGNED 12 (u32 (offset << operation_size)) then
    asm_thumb_op32 (OP_LDR_STR_W_HI operation_size reg_base .| OP_LDR_W)
      (OP_LDR_STR_W_LO reg_dest (u32 (offset << operation_size)))
  else
    asm_thumb_add_reg_reg_offset reg_dest reg_base (u32 (offset - 31)) operation_size;;
    asm_thumb_op16 ((op_ldr_str operation_size .| OP_LDR) << 11 .| 31 << 6 .| reg_dest << 3
                    .| reg_dest).

Definition asm_thumb_store_reg_reg_offset (reg_src reg_base offset operation_size : Z)
  : M asm_thumb_t unit :=
  assert_ (operation_size <=? 2) "Operation size out of range.";;
  if MP_FIT_UNSIGNED 5 offset && (reg_src <? ASM_THUMB_REG_R8) && (reg_base <? ASM_THUMB_REG_R8)
  then
    asm_thumb_op16 ((op_ldr_str operation_size .| OP_STR) << 11 .| offset << 6 .| reg_base << 3
                    .| reg_src)
  else if asm_thumb_allow_armv7m && MP_FIT_UNSIGNED 12 (u32 (offset << operation_size)) then
    asm_thumb_op32 (OP_LDR_STR_W_HI operation_size reg_base .| OP_STR_W)
      (OP_LDR_STR_W_LO reg_src (u32 (offset << operation_size)))
  else
    asm_thumb_op16 (OP_PUSH_RLIST (1 << reg_base));;
    asm_thumb_add_reg_reg_offset reg_base reg_base (u32 (offset - 31)) operation_size;;
    asm_thumb_op16 ((op_ldr_str operation_size .| OP_STR) << 11 .| 31 << 6 .| reg_base << 3
                    .| reg_src);;
    asm_thumb_op16 (OP_POP_RLIST (1 << reg_base)).

(** ** Branches that pick their size *)

Definition asm_thumb_b_label (label : Z) : M asm_thumb_t unit :=
  '(dest, code_offset, rel) ← label_rel label;
  if negb (dest =? u32 (-1)) && (rel <=? -4) && SIGNED_FIT12 rel then
    asm_thumb_op16 (OP_B_N rel)
  else if asm_thumb_allow_armv7m then
    asm_thumb_op32 (OP_BW_HI rel) (OP_BW_LO rel)
  else
    let need_align := negb (code_offset .& 2 =? 0) in
    if SIGNED_FIT12 rel then
      asm_thumb_op16 (OP_B_N rel);;
      asm_thumb_op16 ASM_THUMB_OP_NOP;;
      asm_thumb_op16 ASM_THUMB_OP_NOP;;
      asm_thumb_op16 ASM_THUMB_OP_NOP;;
      if need_align then asm_thumb_op16 ASM_THUMB_OP_NOP else mret tt
    else
      let rel := s32 (rel - 2) in
      (if need_align then asm_thumb_op16 ASM_THUMB_OP_NOP else mret tt);;
      let rel := if need_align then s32 (rel - 2) else rel in
      asm_thumb_ldr_rlo_pcrel_i8 ASM_THUMB_REG_R1 0;;
      asm_thumb_add_reg_reg ASM_THUMB_REG_R15 ASM_THUMB_REG_R1;;
      asm_thumb_op16 (rel .& 0xffff);;
      asm_thumb_op16 (rel >> 16).

(** Without ARMv7-M, the halfword of the inverted branch is reserved first
    and filled in when the length of the branch it skips is known. *)
Definition asm_thumb_bcc_label (cond label : Z) : M asm_thumb_t unit :=
  '(dest, _, rel) ← label_rel label;
  if negb (dest =? u32 (-1)) && (rel <=? -4) && SIGNED_FIT9 rel then
    asm_thumb_op16 (OP_BCC_N cond rel)
  else if asm_thumb_allow_armv7m then
    asm_thumb_op32 (OP_BCC_W_HI cond rel) (OP_BCC_W_LO rel)
  else
    code_offset_start ← gets (fun s => code_offset (base s));
    c ← asm_thumb_get_cur_to_write_bytes 2;
    asm_thumb_b_label label;;
    code_offset ← gets (fun s => code_offset (base s));
    let bytes_to_skip := u32 (code_offset - code_offset_start) in
    let op := u16 (OP_BCC_N (cond .^ 1) (u32 (bytes_to_skip - 4))) in
    match c with
    | None => mret tt
    | Some c => on_base (store_bytes c [u8 op; u8 (op >> 8)])
    end.

Definition asm_thumb_bl_ind (fun_id reg_temp : Z) : M asm_thumb_t unit :=
  asm_thumb_load_reg_reg_offset reg_temp ASM_THUMB_REG_FUN_TABLE fun_id 2;;
  asm_thumb_op16 (OP_BLX reg_temp).
End Config.

(** ** The generic assembler API *)

Module GenericApi.
Section Api.
Context `{ThumbConfig} `{PyMisc}.

Definition ASM_WORD_SIZE : Z := 4.
Definition REG_RET : Z := ASM_THUMB_REG_R0.
Definition REG_ARG_1 : Z := ASM_THUMB_REG_R0.
Definition REG_ARG_2 : Z := ASM_THUMB_REG_R1.
Definition REG_ARG_3 : Z := ASM_THUMB_REG_R2.
Definition REG_ARG_4 : Z := ASM_THUMB_REG_R3.
Definition REG_TEMP0 : Z := ASM_THUMB_REG_R0.
Definition REG_TEMP1 : Z := ASM_THUMB_REG_R1.
Definition REG_TEMP2 : Z := ASM_THUMB_REG_R2.
Definition REG_LOCAL_1 : Z := ASM_THUMB_REG_R4.
Definition REG_LOCAL_2 : Z := ASM_THUMB_REG_R5.
Definition REG_LOCAL_3 : Z := ASM_THUMB_REG_R6.
Definition REG_LOCAL_NUM : Z := 3.
Definition REG_FUN_TABLE : Z := ASM_THUMB_REG_FUN_TABLE.
Definition ASM_END_PASS : M asm_thumb_t unit := asm_thumb_end_pass.
Definition ASM_ENTRY (num_locals : Z) : M asm_thumb_t unit := asm_thumb_entry num_locals.
Definition ASM_EXIT : M asm_thumb_t unit := asm_thumb_exit.
Definition ASM_JUMP (label : Z) : M asm_thumb_t unit := asm_thumb_b_label label.
Definition ASM_JUMP_IF_REG_ZERO (reg label : Z) (bool_test : bool) : M asm_thumb_t unit :=
  asm_thumb_cmp_rlo_i8 reg 0;;
  asm_thumb_bcc_label ASM_THUMB_CC_EQ label.
Definition ASM_JUMP_IF_REG_NONZERO (reg label : Z) (bool_test : bool) : M asm_thumb_t unit :=
  asm_thumb_cmp_rlo_i8 reg 0;;
  asm_thumb_bcc_label ASM_THUMB_CC_NE label.
Definition ASM_JUMP_IF_REG_EQ (reg1 reg2 label : Z) : M asm_thumb_t unit :=
  asm_thumb_cmp_rlo_rlo reg1 reg2;;
  asm_thumb_bcc_label ASM_THUMB_CC_EQ label.
Definition ASM_JUMP_REG (reg : Z) : M asm_thumb_t unit := asm_thumb_bx_reg reg.
Definition ASM_CALL_IND (idx : Z) : M asm_thumb_t unit :=
  asm_thumb_bl_ind idx ASM_THUMB_REG_R3.
Definition ASM_MOV_LOCAL_REG (local_num reg : Z) : M asm_thumb_t unit :=
  asm_thumb_mov_local_reg local_num reg.
Definition ASM_MOV_REG_IMM (reg_dest imm : Z) : M asm_thumb_t unit :=
  asm_thumb_mov_reg_i32_optimised reg_dest imm.
Definition ASM_MOV_REG_LOCAL (reg_dest local_num : Z) : M asm_thumb_t unit :=
  asm_thumb_mov_reg_local reg_dest local_num.
Definition ASM_MOV_REG_REG (reg_dest reg_src : Z) : M asm_thumb_t unit :=
  asm_thumb_mov_reg_reg reg_dest reg_src.
Definition ASM_MOV_REG_LOCAL_ADDR (reg_dest local_num : Z) : M asm_thumb_t unit :=
  asm_thumb_mov_reg_local_addr reg_dest local_num.
Definition ASM_MOV_REG_PCREL (rlo_dest label : Z) : M asm_thumb_t unit :=
  asm_thumb_mov_reg_pcrel rlo_dest label.
Definition ASM_NOT_REG (reg_dest : Z) : M asm_thumb_t unit :=
  asm_thumb_mvn_rlo_rlo reg_dest reg_dest.
Definition ASM_NEG_REG (reg_dest : Z) : M asm_thumb_t unit :=
  asm_thumb_neg_rlo_rlo reg_dest reg_dest.
Definition ASM_LSL_REG_REG (reg_dest reg_shift : Z) : M asm_thumb_t unit :=
  asm_thumb_format_4 ASM_THUMB_FORMAT_4_LSL reg_dest reg_shift.
Definition ASM_LSR_REG_REG (reg_dest reg_shift : Z) : M asm_thumb_t unit :=
  asm_thumb_format_4 ASM_THUMB_FORMAT_4_LSR reg_dest reg_shift.
Definition ASM_ASR_REG_REG (reg_dest reg_shift : Z) : M asm_thumb_t unit :=
  asm_thumb_format_4 ASM_THUMB_FORMAT_4_ASR reg_dest reg_shift.
Definition ASM_OR_REG_REG (reg_dest reg_src : Z) : M asm_thumb_t unit :=
  asm_thumb_format_4 ASM_THUMB_FORMAT_4_ORR reg_dest reg_src.
Definition ASM_XOR_REG_REG (reg_dest reg_src : Z) : M asm_thumb_t unit :=
  asm_thumb_format_4 ASM_THUMB_FORMAT_4_EOR reg_dest reg_src.
Definition ASM_AND_REG_REG (reg_dest reg_src : Z) : M asm_thumb_t unit :=
  asm_thumb_format_4 ASM_THUMB_FORMAT_4_AND reg_dest reg_src.
Definition ASM_ADD_REG_REG (reg_dest reg_src : Z) : M asm_thumb_t unit :=
  asm_thumb_add_rlo_rlo_rlo reg_dest reg_dest reg_src.
Definition ASM_SUB_REG_REG (reg_dest reg_src : Z) : M asm_thumb_t unit :=
  asm_thumb_sub_rlo_rlo_rlo reg_dest reg_dest reg_src.
Definition ASM_MUL_REG_REG (reg_dest reg_src : Z) : M asm_thumb_t unit :=
  asm_thumb_format_4 ASM_THUMB_FORMAT_4_MUL reg_dest reg_src.
Definition ASM_LOAD32_REG_REG_OFFSET (reg_dest reg_base word_offset : Z) : M asm_thumb_t unit :=
  asm_thumb_load_reg_reg_offset reg_dest reg_base word_offset 2.
Definition ASM_LOAD_REG_REG_OFFSET (reg_dest reg_base word_offset : Z) : M asm_thumb_t unit :=
  ASM_LOAD32_REG_REG_OFFSET reg_dest reg_base word_offset.
Definition ASM_LOAD8_REG_REG_OFFSET (reg_dest reg_base byte_offset : Z) : M asm_thumb_t unit :=
  asm_thumb_load_reg_reg_offset reg_dest reg_base byte_offset 0.
Definition ASM_LOAD8_REG_REG (reg_dest reg_base : Z) : M asm_thumb_t unit :=
  ASM_LOAD8_REG_REG_OFFSET reg_dest reg_base 0.
Definition ASM_LOAD16_REG_REG_OFFSET (reg_dest reg_base halfword_offset : Z) : M asm_thumb_t
  unit :=
  asm_thumb_load_reg_reg_offset reg_dest reg_base halfword_offset 1.
Definition ASM_LOAD16_REG_REG (reg_dest reg_base : Z) : M asm_thumb_t unit :=
  ASM_LOAD16_REG_REG_OFFSET reg_dest reg_base 0.
Definition ASM_LOAD32_REG_REG (reg_dest reg_base : Z) : M asm_thumb_t unit :=
  ASM_LOAD32_REG_REG_OFFSET reg_dest reg_base 0.
Definition ASM_STORE32_REG_REG_OFFSET (reg_src reg_base word_offset : Z) : M asm_thumb_t unit :=
  asm_thumb_store_reg_reg_offset reg_src reg_base word_offset 2.
Definition ASM_STORE_REG_REG_OFFSET (reg_src reg_base word_offset : Z) : M asm_thumb_t unit :=
  ASM_STORE32_REG_REG_OFFSET reg_src reg_base word_offset.
Definition ASM_STORE8_REG_REG_OFFSET (reg_src reg_base byte_offset : Z) : M asm_thumb_t unit :=
  asm_thumb_store_reg_reg_offset reg_src reg_base byte_offset 0.
Definition ASM_STORE8_REG_REG (reg_src reg_base : Z) : M asm_thumb_t unit :=
  ASM_STORE8_REG_REG_OFFSET reg_src reg_base 0.
Definition ASM_STORE16_REG_REG_OFFSET (reg_src reg_base halfword_offset : Z) : M asm_thumb_t
  unit :=
  asm_thumb_store_reg_reg_offset reg_src reg_base halfword_offset 1.
Definition ASM_STORE16_REG_REG (reg_src reg_base : Z) : M asm_thumb_t unit :=
  ASM_STORE16_REG_REG_OFFSET reg_src reg_base 0.
Definition ASM_STORE32_REG_REG (reg_src reg_base : Z) : M asm_thumb_t unit :=
  ASM_STORE32_REG_REG_OFFSET reg_src reg_base 0.
Definition ASM_LOAD8_REG_REG_REG (reg_dest reg_base reg_index : Z) : M asm_thumb_t unit :=
  asm_thumb_ldrb_rlo_rlo_rlo reg_dest reg_base reg_index.
Definition ASM_LOAD16_REG_REG_REG (reg_dest reg_base reg_index : Z) : M asm_thumb_t unit :=
  asm_thumb_lsl_rlo_rlo_i5 REG_TEMP2 reg_index 1;;
  asm_thumb_ldrh_rlo_rlo_rlo reg_dest reg_base REG_TEMP2.
Definition ASM_LOAD32_REG_REG_REG (reg_dest reg_base reg_index : Z) : M asm_thumb_t unit :=
  asm_thumb_lsl_rlo_rlo_i5 REG_TEMP2 reg_index 2;;
  asm_thumb_ldr_rlo_rlo_rlo reg_dest reg_base REG_TEMP2.
Definition ASM_STORE8_REG_REG_REG (reg_val reg_base reg_index : Z) : M asm_thumb_t unit :=
  asm_thumb_strb_rlo_rlo_rlo reg_val reg_base reg_index.
Definition ASM_STORE16_REG_REG_REG (reg_val reg_base reg_index : Z) : M asm_thumb_t unit :=
  asm_thumb_op16 (0xB400 .| 1 << reg_index);;
  asm_thumb_lsl_rlo_rlo_i5 reg_index reg_index 1;;
  asm_thumb_strh_rlo_rlo_rlo reg_val reg_base reg_index;;
  asm_thumb_op16 (0xBC00 .| 1 << reg_index).
Definition ASM_STORE32_REG_REG_REG (reg_val reg_base reg_index : Z) : M asm_thumb_t unit :=
  asm_thumb_op16 (0xB400 .| 1 << reg_index);;
  asm_thumb_lsl_rlo_rlo_i5 reg_index reg_index 2;;
  asm_thumb_str_rlo_rlo_rlo reg_val reg_base reg_index;;
  asm_thumb_op16 (0xBC00 .| 1 << reg_index).
Definition ASM_CLR_REG (reg_dest : Z) : M asm_thumb_t unit := asm_thumb_mov_rlo_i8 reg_dest 0.
End Api.
End GenericApi.
