(* ===== verification/AsmThumbPass.v ===== *)
(** * AsmThumbPass: the passes over Thumb programs agree

    Every operation of the Thumb back end writes as many bytes in both passes:
    short branches are chosen backwards only, the long forms have one length
    whatever the distance, and the code that aligns a literal looks at the
    offset, which both passes share.  Without ARMv7-M the literals need a code
    region that starts on a word boundary. *)

From S2P Require Import Prelude AsmBase TwoPass AsmBaseSpec PyMisc AsmThumb.

Set Default Goal Selector "!".

#[local] Existing Instance SizeT_32.
Import AsmThumb.GenericApi.

Definition thumb_limit : Z := 2 ^ 31 - 16.
Lemma thumb_limit_ok : 0 < thumb_limit < 2 ^ size_bits - 1.
Proof. done. Qed.
#[export] Hint Resolve thumb_limit_ok : steady.

(** What the emit pass relies on: the assertion of asm_thumb_mov_reg_i32. *)
#[export, refine] Instance thumb_table `{ThumbConfig} : PassTable asm_thumb_t :=
  {| count _ := 0; capacity _ := 0; in_table _ _ := False;
     emit_ok s := asm_thumb_allow_armv7m = false -> 3 .& code_base (base s) = 0 |}.
Proof. all: try done. intros b s _ E Hs Hv. simpl in *. rewrite E. by apply Hs. Defined.

(** ** Programs *)

Inductive thumb_op :=
| Shared (op : base_op)
| EndPass | Exit | Jump (label : Z) | JumpIfRegZero (reg label : Z) (bool_test : bool)
| JumpIfRegNonzero (reg label : Z) (bool_test : bool) | JumpIfRegEq (reg1 reg2 label : Z)
| JumpReg (reg : Z) | CallInd (idx : Z) | MovLocalReg (local_num reg : Z)
| MovRegImm (reg_dest imm : Z) | MovRegLocal (reg_dest local_num : Z)
| MovRegReg (reg_dest reg_src : Z) | MovRegLocalAddr (reg_dest local_num : Z)
| MovRegPcrel (rlo_dest label : Z) | NotReg (reg_dest : Z) | NegReg (reg_dest : Z)
| LslRegReg (reg_dest reg_shift : Z) | LsrRegReg (reg_dest reg_shift : Z)
| AsrRegReg (reg_dest reg_shift : Z) | OrRegReg (reg_dest reg_src : Z)
| XorRegReg (reg_dest reg_src : Z) | AndRegReg (reg_dest reg_src : Z)
| AddRegReg (reg_dest reg_src : Z) | SubRegReg (reg_dest reg_src : Z)
| MulRegReg (reg_dest reg_src : Z) | Load32RegRegOffset (reg_dest reg_base word_offset : Z)
| LoadRegRegOffset (reg_dest reg_base word_offset : Z)
| Load8RegRegOffset (reg_dest reg_base byte_offset : Z) | Load8RegReg (reg_dest reg_base : Z)
| Load16RegRegOffset (reg_dest reg_base halfword_offset : Z)
| Load16RegReg (reg_dest reg_base : Z) | Load32RegReg (reg_dest reg_base : Z)
| Store32RegRegOffset (reg_src reg_base word_offset : Z)
| StoreRegRegOffset (reg_src reg_base word_offset : Z)
| Store8RegRegOffset (reg_src reg_base byte_offset : Z) | Store8RegReg (reg_src reg_base : Z)
| Store16RegRegOffset (reg_src reg_base halfword_offset : Z)
| Store16RegReg (reg_src reg_base : Z) | Store32RegReg (reg_src reg_base : Z)
| Load8RegRegReg (reg_dest reg_base reg_index : Z)
| Load16RegRegReg (reg_dest reg_base reg_index : Z)
| Load32RegRegReg (reg_dest reg_base reg_index : Z)
| Store8RegRegReg (reg_val reg_base reg_index : Z)
| Store16RegRegReg (reg_val reg_base reg_index : Z)
| Store32RegRegReg (reg_val reg_base reg_index : Z) | ClrReg (reg_dest : Z) | Op16 (op : Z)
| Op32 (op1 op2 : Z) | ItCc (cc mask : Z) | Format1 (op rlo_dest rlo_src offset : Z)
| Format2 (op rlo_dest rlo_src src_b : Z) | Format3 (op rlo i8 : Z)
| Format4 (op rlo_dest rlo_src : Z) | Format5 (op r_dest r_src : Z)
| Format78 (op rlo_dest rlo_base rlo_index : Z) | Format910 (op rlo_dest rlo_base offset : Z)
| Format11 (op rlo_dest rlo_src : Z) | SubRloI8 (rlo i8 : Z)
| AddRloRloI3 (rlo_dest rlo_src i3 : Z) | SubRloRloI3 (rlo_dest rlo_src i3 : Z)
| AsrRloRloI5 (rlo_dest rlo_src shift : Z) | MovRegI16 (mov_op r_dest i16 : Z)
| MovRegI32 (r_dest i32 : Z) | BNLabel (label : Z) | BlLabel (label : Z)
| BccNwLabel (cond label : Z) (wide : bool) | BccLabel (cond label : Z)
| BccRel9 (cond rel : Z) | BRel12 (rel : Z).

(** The functions that only emit or call another one. *)
Create HintDb thumb_calls.
#[export] Hint Unfold
  ASM_END_PASS ASM_ENTRY ASM_EXIT ASM_JUMP ASM_JUMP_IF_REG_ZERO ASM_JUMP_IF_REG_NONZERO
  ASM_JUMP_IF_REG_EQ ASM_JUMP_REG ASM_CALL_IND ASM_MOV_LOCAL_REG ASM_MOV_REG_IMM
  ASM_MOV_REG_LOCAL ASM_MOV_REG_REG ASM_MOV_REG_LOCAL_ADDR ASM_MOV_REG_PCREL ASM_NOT_REG
  ASM_NEG_REG ASM_LSL_REG_REG ASM_LSR_REG_REG ASM_ASR_REG_REG ASM_OR_REG_REG ASM_XOR_REG_REG
  ASM_AND_REG_REG ASM_ADD_REG_REG ASM_SUB_REG_REG ASM_MUL_REG_REG ASM_LOAD32_REG_REG_OFFSET
  ASM_LOAD_REG_REG_OFFSET ASM_LOAD8_REG_REG_OFFSET ASM_LOAD8_REG_REG ASM_LOAD16_REG_REG_OFFSET
  ASM_LOAD16_REG_REG ASM_LOAD32_REG_REG ASM_STORE32_REG_REG_OFFSET ASM_STORE_REG_REG_OFFSET
  ASM_STORE8_REG_REG_OFFSET ASM_STORE8_REG_REG ASM_STORE16_REG_REG_OFFSET ASM_STORE16_REG_REG
  ASM_STORE32_REG_REG ASM_LOAD8_REG_REG_REG ASM_LOAD16_REG_REG_REG ASM_LOAD32_REG_REG_REG
  ASM_STORE8_REG_REG_REG ASM_STORE16_REG_REG_REG ASM_STORE32_REG_REG_REG ASM_CLR_REG
  asm_thumb_end_pass asm_thumb_format_4 asm_thumb_it_cc asm_thumb_format_1 asm_thumb_format_2
  asm_thumb_add_rlo_rlo_rlo asm_thumb_add_rlo_rlo_i3 asm_thumb_sub_rlo_rlo_rlo
  asm_thumb_sub_rlo_rlo_i3 asm_thumb_format_3 asm_thumb_mov_rlo_i8 asm_thumb_cmp_rlo_i8
  asm_thumb_add_rlo_i8 asm_thumb_sub_rlo_i8 asm_thumb_ldr_rlo_pcrel_i8 asm_thumb_cmp_rlo_rlo
  asm_thumb_mvn_rlo_rlo asm_thumb_neg_rlo_rlo asm_thumb_format_5 asm_thumb_add_reg_reg
  asm_thumb_bx_reg asm_thumb_format_7_8 asm_thumb_ldrb_rlo_rlo_rlo asm_thumb_ldrh_rlo_rlo_rlo
  asm_thumb_ldr_rlo_rlo_rlo asm_thumb_strb_rlo_rlo_rlo asm_thumb_strh_rlo_rlo_rlo
  asm_thumb_str_rlo_rlo_rlo asm_thumb_format_9_10 asm_thumb_lsl_rlo_rlo_i5
  asm_thumb_asr_rlo_rlo_i5 asm_thumb_format_11 asm_thumb_sxth_rlo_rlo asm_thumb_mov_reg_reg
  asm_thumb_bcc_rel9 asm_thumb_b_rel12 : thumb_calls.

Section Thumb.
Context `{ThumbConfig} `{PyMisc}.

(** ** Writing halfwords *)

Section Halfwords.
Context (agree : asm_thumb_t -> asm_thumb_t -> Prop).
Context (agree_base : forall b b' s s', agree s s' -> agree (with_base b s) (with_base b' s')).
Abbreviation thumb_steady := (steady thumb_limit agree).
Ltac thumb_op := steady_op_tac ltac:(done).

Lemma thumb_emits_op16 op s : emits s (asm_thumb_op16 op) [u8 op; u8 (op >> 8)].
Proof using. apply emits_put_array. bytes_tac. Qed.
Lemma thumb_emits_op32 op1 op2 s :
  emits s (asm_thumb_op32 op1 op2) [u8 op1; u8 (op1 >> 8); u8 op2; u8 (op2 >> 8)].
Proof using. apply emits_put_array. bytes_tac. Qed.
Lemma thumb_paired_op16 op op' : paired thumb_limit agree 2 (asm_thumb_op16 op) (asm_thumb_op16 op').
Proof using agree_base. eapply paired_puts; [apply thumb_limit_ok|done|apply thumb_emits_op16..|done|done]. Qed.
Lemma thumb_paired_op32 a b a' b' : paired thumb_limit agree 4 (asm_thumb_op32 a b) (asm_thumb_op32 a' b').
Proof using agree_base. eapply paired_puts; [apply thumb_limit_ok|done|apply thumb_emits_op32..|done|done]. Qed.
Lemma thumb_steady_op16 op : thumb_steady 2 (asm_thumb_op16 op).
Proof using agree_base. apply thumb_paired_op16. Qed.
Lemma thumb_steady_op32 a b : thumb_steady 4 (asm_thumb_op32 a b).
Proof using agree_base. apply thumb_paired_op32. Qed.
Hint Resolve thumb_steady_op16 thumb_steady_op32 : steady.

Lemma thumb_steady_format_1 op d s o : thumb_steady 2 (asm_thumb_format_1 op d s o).
Proof using agree_base. unfold asm_thumb_format_1. thumb_op. Qed.
Lemma thumb_steady_format_2 op d s o : thumb_steady 2 (asm_thumb_format_2 op d s o).
Proof using agree_base. unfold asm_thumb_format_2. thumb_op. Qed.
Lemma thumb_steady_format_3 op r i : thumb_steady 2 (asm_thumb_format_3 op r i).
Proof using agree_base. unfold asm_thumb_format_3. thumb_op. Qed.
Lemma thumb_steady_format_4 op d s : thumb_steady 2 (asm_thumb_format_4 op d s).
Proof using agree_base. unfold asm_thumb_format_4. thumb_op. Qed.
Lemma thumb_steady_format_7_8 op d b i : thumb_steady 2 (asm_thumb_format_7_8 op d b i).
Proof using agree_base. unfold asm_thumb_format_7_8. thumb_op. Qed.
Lemma thumb_steady_format_11 op d s : thumb_steady 2 (asm_thumb_format_11 op d s).
Proof using agree_base. unfold asm_thumb_format_11. thumb_op. Qed.
End Halfwords.
Hint Resolve thumb_paired_op16 thumb_paired_op32 thumb_steady_op16 thumb_steady_op32
  thumb_steady_format_1 thumb_steady_format_2 thumb_steady_format_3 thumb_steady_format_4
  thumb_steady_format_7_8 thumb_steady_format_11 : steady.
Hint Resolve thumb_emits_op16 thumb_emits_op32 : code.

(** ** The fields *)

Definition thumb_agree (s s' : asm_thumb_t) : Prop :=
  stack_adjust s' = stack_adjust s /\ push_reglist s' = push_reglist s.
Lemma thumb_agree_base b b' s s' : thumb_agree s s' -> thumb_agree (with_base b s) (with_base b' s').
Proof. done. Qed.
Hint Resolve thumb_agree_base : steady.

Abbreviation thumb_steady := (steady thumb_limit thumb_agree).
Ltac thumb_fields :=
  intros ? ? [E1 E2]; unfold thumb_agree, set_push_reglist, set_stack_adjust in *; simpl in *;
  rewrite ?E1, ?E2; done.
Ltac thumb_op := steady_op_tac thumb_fields.

(** The loop that moves the stack pointer by 127 words at a time. *)
Lemma thumb_loop_step adj : UNSIGNED_FIT7 adj = false ->
  u32 (s32 (adj - 127)) = u32 adj - 127 /\ 128 <= u32 adj < 2 ^ 32.
Proof.
  unfold UNSIGNED_FIT7. intros E%Z.ltb_ge. pose proof (uw_range 32 eq_refl adj).
  split; [|lia]. rewrite uw_sw by done. rewrite <- uw_sub_l by done. apply uw_small. simpl in *. lia.
Qed.
Lemma thumb_steady_loop agree op fuel : (forall b b' s s', agree s s' -> agree (with_base b s) (with_base b' s')) ->
  forall adj, steady thumb_limit agree (2 * (u32 adj / 127)) (adjust_sp_loop fuel op adj).
Proof.
  intros Ha. induction fuel as [|fuel IH]; intros adj; simpl;
    pose proof (uw_range 32 eq_refl adj); pose proof (Z.div_pos (u32 adj) 127);
    destruct (UNSIGNED_FIT7 adj) eqn:E.
  1, 3: eapply steady_le; [|apply steady_ret]; lia.
  - eapply steady_le; [|apply steady_fail]; lia.
  - destruct (thumb_loop_step adj E) as [Hu Hr].
    assert (u32 adj / 127 = u32 (s32 (adj - 127)) / 127 + 1) as Eq.
    { rewrite Hu, <- Z.div_add by done. f_equal. lia. }
    assert (0 <= u32 (s32 (adj - 127)) / 127) by (apply Z.div_pos; lia).
    eapply (steady_then _ _ 2); [by apply thumb_steady_op16|lia|intros _].
    eapply steady_le; [|apply IH]. lia.
Qed.
(** Whatever the frame, the loop stops within so many bytes. *)
Abbreviation thumb_loop_size := 67637280.
Definition thumb_frame_size : Z := thumb_loop_size + 4.
Lemma thumb_steady_loop_any agree op fuel adj : (forall b b' s s', agree s s' -> agree (with_base b s) (with_base b' s')) ->
  steady thumb_limit agree thumb_loop_size (adjust_sp_loop fuel op adj).
Proof.
  intros Ha. eapply steady_le; [|by apply thumb_steady_loop].
  pose proof (uw_range 32 eq_refl adj).
  pose proof (Z.div_le_mono (u32 adj) (2 ^ 32) 127 ltac:(lia) ltac:(lia)) as Hle.
  change (2 ^ 32 / 127) with 33818640 in Hle. lia.
Qed.
Hint Resolve thumb_steady_loop_any : steady.

Lemma thumb_steady_exit : thumb_steady thumb_frame_size asm_thumb_exit.
Proof.
  unfold asm_thumb_exit, thumb_frame_size. apply steady_gets; [thumb_fields|intros s].
  eapply (steady_then _ _ (thumb_loop_size + 2)); [|lia|intros _; thumb_op].
  apply steady_when; [thumb_op|lia].
Qed.
Hint Resolve thumb_steady_exit : steady.

Definition thumb_start (s s' : asm_thumb_t) : Prop := True.
Lemma thumb_start_base b b' s s' : thumb_start s s' -> thumb_start (with_base b s) (with_base b' s').
Proof. done. Qed.
Hint Resolve thumb_start_base : steady.
Definition thumb_start_list (s s' : asm_thumb_t) : Prop := push_reglist s' = push_reglist s.

Lemma thumb_enters_entry n : enters thumb_limit thumb_start thumb_agree (22 + thumb_frame_size) (asm_thumb_entry n).
Proof.
  unfold asm_thumb_entry, thumb_frame_size. enters_step.
  eapply (enters_then _ _ thumb_start _ 20); [|lia|intros _].
  { apply steady_enters. apply steady_when; [unfold arm_state_prelude; thumb_op|lia]. }
  destruct (entry_frame n) as [reglist adj]. enters_step.
  eapply (enters_then _ _ thumb_start _ (thumb_loop_size + 2)); [|lia|intros _].
  { apply steady_enters. apply steady_when; [thumb_op|lia]. }
  eapply (enters_then _ _ thumb_start_list _ 0); [|lia|intros _].
  { apply enters_modify; [|done]. by constructor. }
  eapply enters_le; [|apply enters_modify]; [lia|by constructor|]. intros s s' E. by split.
Qed.

(** ** Locals *)

Lemma thumb_fit8 x : 0 <= x < 256 -> UNSIGNED_FIT8 x = true.
Proof.
  intros Hx. unfold UNSIGNED_FIT8. change 0xffffff00 with (2 ^ 32 - 2 ^ 8).
  rewrite (fit_unsigned 32 8) by lia. rewrite uw_small by lia. apply ltb_true. lia.
Qed.

(** The check is for the emit pass only, which may raise an exception. *)
Lemma thumb_steady_local_check w : 0 <= w < 256 -> thumb_steady 0 (asm_thumb_mov_local_check w).
Proof.
  intros Hw. set (k := fun pass => (if MP_ASM_PASS_EMIT <=? pass then
    assert_ (0 <=? w) "word_offset >= 0";;
    if negb (UNSIGNED_FIT8 w) then raise "too many locals for native method" else mret tt
    else mret tt) : M asm_thumb_t unit).
  pose proof (paired_pass thumb_limit thumb_agree 0 k k) as R. apply R. clear R. subst k.
  cbv beta. change (MP_ASM_PASS_EMIT <=? MP_ASM_PASS_COMPUTE) with false.
  change (MP_ASM_PASS_EMIT <=? MP_ASM_PASS_EMIT) with true.
  rewrite leb_true, thumb_fit8 by lia. apply steady_ret.
Qed.
Hint Resolve thumb_steady_local_check : steady.
Lemma thumb_steady_mov_local n r : 0 <= n < 256 -> thumb_steady 2 (asm_thumb_mov_local_reg n r).
Proof. intros. unfold asm_thumb_mov_local_reg. cbv zeta. thumb_op. Qed.
Lemma thumb_steady_load_local r n : 0 <= n < 256 -> thumb_steady 2 (asm_thumb_mov_reg_local r n).
Proof. intros. unfold asm_thumb_mov_reg_local. cbv zeta. thumb_op. Qed.
Lemma thumb_steady_local_addr r n : 0 <= n -> thumb_steady 2 (asm_thumb_mov_reg_local_addr r n).
Proof.
  intros Hn. unfold asm_thumb_mov_reg_local_addr. cbv zeta.
  eapply (steady_then _ _ 0); [thumb_op|lia|intros _].
  set (k := fun pass => assert_ ((pass <? MP_ASM_PASS_EMIT) || (0 <=? n))
    "as->base.pass < MP_ASM_PASS_EMIT || word_offset >= 0";; asm_thumb_op16 (OP_ADD_REG_SP_OFFSET r n)).
  pose proof (paired_pass thumb_limit thumb_agree 2 k k) as R. apply R. clear R. subst k. cbv beta.
  rewrite (leb_true 0 n) by done. rewrite !orb_true_r. paired_op_tac thumb_fields.
Qed.
Hint Resolve thumb_steady_mov_local thumb_steady_load_local thumb_steady_local_addr : steady.

(** ** Constants *)

Lemma thumb_steady_i16 op r i : thumb_steady 4 (asm_thumb_mov_reg_i16 op r i).
Proof. unfold asm_thumb_mov_reg_i16. thumb_op. Qed.
Lemma thumb_paired_i16 op r i i' :
  paired thumb_limit thumb_agree 4 (asm_thumb_mov_reg_i16 op r i) (asm_thumb_mov_reg_i16 op r i').
Proof.
  unfold asm_thumb_mov_reg_i16. eapply (paired_then _ _ 0); [apply steady_paired, steady_assert|lia|intros _].
  paired_op_tac thumb_fields.
Qed.
Hint Resolve thumb_steady_i16 thumb_paired_i16 : steady.
Lemma thumb_steady_rlo_i16 r i : thumb_steady 6 (asm_thumb_mov_rlo_i16 r i).
Proof.
  unfold asm_thumb_mov_rlo_i16, asm_thumb_mov_rlo_i8, asm_thumb_lsl_rlo_rlo_i5, asm_thumb_add_rlo_i8.
  thumb_op.
Qed.
Hint Resolve thumb_steady_rlo_i16 : steady.

Lemma thumb_steady_literal r i (loc : Z) : asm_thumb_allow_armv7m = false -> thumb_steady 10 (
  assert_ (r <? ASM_THUMB_REG_R8) "reg_dest < ASM_THUMB_REG_R8";;
  b ← gets base;
  assert_ ((code_base b =? 0) || (3 .& code_base b =? 0))
    "!as->base.code_base || !(3u & (uintptr_t)as->base.code_base)";;
  (if negb (code_offset b .& 2 =? 0) then asm_thumb_op16 ASM_THUMB_OP_NOP else mret tt);;
  asm_thumb_ldr_rlo_pcrel_i8 r 0;;
  asm_thumb_op16 (OP_B_N 2);;
  asm_thumb_op16 (i .& 0xffff);;
  asm_thumb_op16 (i >> 16)).
Proof.
  intros Hv. eapply (steady_then _ _ 0); [apply steady_assert|lia|intros _].
  set (rest := fun o => (if negb (o .& 2 =? 0) then asm_thumb_op16 ASM_THUMB_OP_NOP else mret tt);;
    asm_thumb_ldr_rlo_pcrel_i8 r 0;; asm_thumb_op16 (OP_B_N 2);;
    asm_thumb_op16 (i .& 0xffff);; asm_thumb_op16 (i >> 16)).
  assert (forall o, thumb_steady 10 (rest o)) as Hrest.
  { intros o. unfold rest, asm_thumb_ldr_rlo_pcrel_i8. thumb_op. }
  set (k := fun b => assert_ ((code_base b =? 0) || (3 .& code_base b =? 0))
    "!as->base.code_base || !(3u & (uintptr_t)as->base.code_base)";; rest (code_offset b)).
  pose proof (paired_base thumb_limit thumb_agree (10 - 0) k k) as R. apply R; clear R; unfold k.
  - intros b b' s' <- Hok Eo. cbv beta. rewrite Eo. apply paired_assert; [done| |apply Hrest].
    change (base_of s') with (base s'). rewrite Hok by done. by rewrite orb_true_r.
  - intros b. eapply (steady_then _ _ 0 10); [apply steady_assert|lia|intros _; apply Hrest].
Qed.

Lemma thumb_steady_i32 r i : thumb_steady 10 (asm_thumb_mov_reg_i32 r i).
Proof.
  unfold asm_thumb_mov_reg_i32. apply steady_code_pos; [|done]. intros o _.
  eapply (steady_then _ _ 10); [|lia|intros _; apply steady_ret].
  destruct asm_thumb_allow_armv7m eqn:Hv; [thumb_op|]. by apply (thumb_steady_literal r i o).
Qed.
Hint Resolve thumb_steady_i32 : steady.

Ltac thumb_unfold :=
  unfold asm_thumb_mov_rlo_i8, asm_thumb_neg_rlo_rlo, asm_thumb_lsl_rlo_rlo_i5, asm_thumb_add_rlo_i8,
    asm_thumb_mov_reg_reg, asm_thumb_add_rlo_rlo_rlo, asm_thumb_add_reg_reg, asm_thumb_format_5,
    asm_thumb_sxth_rlo_rlo, asm_thumb_ldr_rlo_pcrel_i8; cbv zeta.

Lemma thumb_steady_i32_optimised r i : thumb_steady 12 (asm_thumb_mov_reg_i32_optimised r i).
Proof.
  unfold asm_thumb_mov_reg_i32_optimised. thumb_unfold. destruct (_ && _); [thumb_op|].
  destruct asm_thumb_allow_armv7m; [thumb_op|].
  do 2 (eapply (steady_then _ _ 0); [apply steady_assert|lia|intros _]).
  set (negate := (i <? 0) && _). set (i' := if negate then _ else i).
  eapply (steady_then _ _ 10); [|lia|intros [|]; thumb_op].
  destruct (24 <=? _); [thumb_op|]. destruct (UNSIGNED_FIT16 _); [thumb_op|].
  destruct (if negate then (_, _) else _) as [negate' i'']. thumb_op.
Qed.
Hint Resolve thumb_steady_i32_optimised : steady.

(** ** Memory *)

Lemma thumb_steady_add_offset d b o sh : thumb_steady 18 (asm_thumb_add_reg_reg_offset d b o sh).
Proof. unfold asm_thumb_add_reg_reg_offset. thumb_unfold. thumb_op. Qed.
Hint Resolve thumb_steady_add_offset : steady.
Lemma thumb_steady_load d b o z : thumb_steady 20 (asm_thumb_load_reg_reg_offset d b o z).
Proof. unfold asm_thumb_load_reg_reg_offset. thumb_op. Qed.
Lemma thumb_steady_store d b o z : thumb_steady 24 (asm_thumb_store_reg_reg_offset d b o z).
Proof. unfold asm_thumb_store_reg_reg_offset. thumb_op. Qed.
Hint Resolve thumb_steady_load thumb_steady_store : steady.
Lemma thumb_steady_bl_ind i r : thumb_steady 22 (asm_thumb_bl_ind i r).
Proof. unfold asm_thumb_bl_ind. thumb_op. Qed.

(** ** Branches *)

(** A lookup, and what goes on with its result. *)
Lemma thumb_label_rel_bind {A} l (k : Z * Z * Z -> M asm_thumb_t A) s :
  (label_rel l ≫= k) s =
  (d ← on_base (label_dest l); o ← gets (fun s => code_offset (base_of s));
   k (d, o, s32 (s32 (d - o) - 4))) s.
Proof.
  unfold label_rel, get_label_dest, mbind, M_bind. by destruct (on_base (label_dest l) s) as [[d s1]|].
Qed.

(** The displacement of a label ahead is not one of a short branch. *)
Lemma thumb_ahead_not_short y o c : 0 <= o -> o + 1 <= y <= thumb_limit ->
  negb (y =? u32 (-1)) && (s32 (s32 (y - o) - 4) <=? -4) && c = false.
Proof.
  unfold thumb_limit. intros Ho Hy. rewrite (sw_small 32 eq_refl (y - o)) by (simpl; lia).
  rewrite (sw_small 32 eq_refl) by (simpl; lia).
  destruct (Z.leb_spec (y - o - 4) (-4)); [lia|]. by rewrite andb_false_r.
Qed.

Definition thumb_b_short (d o : Z) : bool :=
  let rel := s32 (s32 (d - o) - 4) in negb (d =? u32 (-1)) && (rel <=? -4) && SIGNED_FIT12 rel.
Definition thumb_b_length (d o : Z) : nat :=
  if thumb_b_short d o then 2
  else if asm_thumb_allow_armv7m then 4 else if negb (o .& 2 =? 0) then 10 else 8.

(** An operation that looks a label up first. *)
Lemma thumb_label_rel_found {A} l (k : Z * Z * Z -> M asm_thumb_t A) s r : (label_rel l ≫= k) s = Ok r ->
  l < max_num_labels (base s) /\ is_Some (label_offsets (base s) !! Z.to_nat l).
Proof.
  rewrite thumb_label_rel_bind. destruct r.
  intros (d & s1 & (b & (_ & Hmax & Hd)%label_dest_inv & _)%on_base_ok & _)%bind_inv.
  split; [exact Hmax|]. by exists d.
Qed.
Lemma thumb_label_rel_ok {A} l (k : Z * Z * Z -> M asm_thumb_t A) s d : l < max_num_labels (base s) ->
  label_offsets (base s) !! Z.to_nat l = Some d ->
  (label_rel l ≫= k) s = k (d, code_offset (base s), s32 (s32 (d - code_offset (base s)) - 4)) s.
Proof.
  intros Hl Hd. rewrite thumb_label_rel_bind.
  assert (on_base (label_dest l) s = Ok (d, s)) as E by by apply on_base_pure, label_dest_ok.
  by rewrite (bind_Ok _ _ _ _ _ E).
Qed.
(** The label and the position that an operation finds. *)
Definition label_at (l d o : Z) (s : asm_thumb_t) : Prop :=
  l < max_num_labels (base s) /\ label_offsets (base s) !! Z.to_nat l = Some d /\ code_offset (base s) = o.
Definition writes_at (l d o : Z) (n : nat) (m : M asm_thumb_t unit) : Prop :=
  exists bs, length bs = n /\ Forall is_byte bs /\ forall s, label_at l d o s -> writes s m bs.

Lemma thumb_label_rel_writes l (k : Z * Z * Z -> M asm_thumb_t unit) (n : nat) d o :
  writes_at l d o n (k (d, o, s32 (s32 (d - o) - 4))) -> writes_at l d o n (label_rel l ≫= k).
Proof.
  intros (bs & El & Hbs & Hk). exists bs. split; [done|]. split; [done|]. intros s Hs.
  destruct (Hk s Hs) as [_ Em]. split; [done|]. intros Hr. destruct Hs as (Hl & Hd & Ho).
  rewrite (thumb_label_rel_ok l k s d Hl Hd), Ho. by apply Em.
Qed.
Lemma thumb_emits_at m bs (n : nat) l d o : length bs = n -> (forall s, emits s m bs) -> writes_at l d o n m.
Proof.
  intros El Hm. exists bs. split; [done|].
  split; [apply (Hm (mk_asm_thumb (mk_asm_base 0 false 0 0 0 [] 0 []) 0 0))|]. intros s _.
  destruct (Hm s) as (? & ? & _). done.
Qed.
Ltac thumb_code := eapply thumb_emits_at; [|intros ?; code_tac]; done.

Lemma thumb_b_writes l d o : writes_at l d o (thumb_b_length d o) (asm_thumb_b_label l).
Proof.
  apply thumb_label_rel_writes. cbv beta iota zeta.
  unfold thumb_b_length, thumb_b_short. cbv zeta.
  destruct (_ && _ && _); [thumb_code|]. destruct asm_thumb_allow_armv7m; [thumb_code|].
  unfold asm_thumb_ldr_rlo_pcrel_i8, asm_thumb_format_3, asm_thumb_add_reg_reg, asm_thumb_format_5.
  destruct (SIGNED_FIT12 _), (negb _); thumb_code.
Qed.

Lemma thumb_steady_b_label l : thumb_steady 10 (asm_thumb_b_label l).
Proof.
  apply (steady_label_writes _ thumb_limit_ok thumb_agree thumb_agree_base 1 10 l _ thumb_b_length); [done|..].
  - intros s r. apply thumb_label_rel_found.
  - intros s d _ Hl Hd _. destruct (thumb_b_writes l d (code_offset (base s))) as (bs & El & _ & Hw).
    exists bs. split; [done|]. by apply Hw.
  - intros d o. unfold thumb_b_length. by repeat case_match.
  - intros o. unfold thumb_b_length. by repeat case_match.
  - intros o y Ho Hy. unfold thumb_b_length, thumb_b_short. cbv zeta.
    by rewrite thumb_ahead_not_short.
Qed.
Hint Resolve thumb_steady_b_label : steady.

(** The conditional branch, over an unconditional one if it cannot reach. *)
Definition thumb_bcc_length (d o : Z) : nat :=
  let rel := s32 (s32 (d - o) - 4) in
  if negb (d =? u32 (-1)) && (rel <=? -4) && SIGNED_FIT9 rel then 2
  else if asm_thumb_allow_armv7m then 4 else 2 + thumb_b_length d (o + 2).

Lemma thumb_bcc_writes cond l d o : writes_at l d o (thumb_bcc_length d o) (asm_thumb_bcc_label cond l).
Proof.
  apply thumb_label_rel_writes. cbv beta iota zeta. unfold thumb_bcc_length. cbv zeta.
  destruct (_ && _ && _); [thumb_code|]. destruct asm_thumb_allow_armv7m; [thumb_code|].
  set (f := fun o o' => [u8 (u16 (OP_BCC_N (cond .^ 1) (u32 (u32 (o' - o) - 4))));
    u8 (u16 (OP_BCC_N (cond .^ 1) (u32 (u32 (o' - o) - 4))) >> 8)]).
  assert (forall x y, Forall is_byte (f x y) /\ Z.of_nat (length (f x y)) = 2) as Hf.
  { intros x y. split; [subst f; bytes_tac|done]. }
  destruct (thumb_b_writes l d (o + 2)) as (bs & El & Hbs & Hw).
  exists (f o (o + 2 + Z.of_nat (length bs)) ++ bs). split; [simpl; by rewrite El|].
  split; [apply Forall_app; split; [apply Hf|done]|]. intros s (Hl & Hd & Ho).
  pose proof (writes_patched s 2 (asm_thumb_b_label l) bs f Hf) as W.
  change (code_offset (base_of s)) with (code_offset (base s)) in W. rewrite Ho in W. apply W; clear W.
  intros junk Hj Hjb.
  assert (forall o', (if suppress (base s) then code_offset (base s)
    else code_offset (base s) + Z.of_nat (length junk)) = o' -> label_at l d o' (puts junk s)) as Hat.
  { intros o' <-. unfold label_at. change (base (puts junk s)) with (put_bytes junk (base s)).
    by rewrite put_bytes_labels, put_bytes_max, put_bytes_offset. }
  destruct (suppress (base s)) eqn:Es; [|apply Hw, Hat; lia].
  destruct (thumb_b_writes l d o) as (bs' & _ & _ & Hw').
  apply (writes_dead _ _ bs'); [|done|by apply Hw', Hat].
  change (base_of (puts junk s)) with (put_bytes junk (base s)). by rewrite put_bytes_suppress.
Qed.

Lemma thumb_steady_bcc_label cond l : thumb_steady 12 (asm_thumb_bcc_label cond l).
Proof.
  apply (steady_label_writes _ thumb_limit_ok thumb_agree thumb_agree_base 3 12 l _ thumb_bcc_length); [done|..].
  - intros s r. apply thumb_label_rel_found.
  - intros s d _ Hl Hd _. destruct (thumb_bcc_writes cond l d (code_offset (base s))) as (bs & El & _ & Hw).
    exists bs. split; [done|]. by apply Hw.
  - intros d o. unfold thumb_bcc_length, thumb_b_length. by repeat case_match.
  - intros o. unfold thumb_bcc_length, thumb_b_length. by repeat case_match.
  - intros o y Ho Hy. unfold thumb_bcc_length, thumb_b_length, thumb_b_short. cbv zeta.
    by rewrite !(thumb_ahead_not_short y) by lia.
Qed.
Hint Resolve thumb_steady_bcc_label : steady.

(** The branches of a fixed size; the inline assembler looks at their result. *)
Lemma thumb_steady_label_rel l n (k : Z * Z * Z -> M asm_thumb_t unit) :
  (forall d o, thumb_steady n (k (d, o, s32 (s32 (d - o) - 4)))) ->
  (forall o d d', paired thumb_limit thumb_agree n
     (k (d, o, s32 (s32 (d - o) - 4))) (k (d', o, s32 (s32 (d' - o) - 4)))) ->
  thumb_steady n (label_rel l ≫= k).
Proof.
  intros Hk Hk'. eapply steady_ext; [exact (thumb_label_rel_bind l _)|]. label_tac; [done|].
  intros o y _ _. apply Hk'.
Qed.
Ltac thumb_fixed l k :=
  eapply (steady_ext _ _ _ (label_rel l ≫= k));
  [intros s; unfold asm_thumb_b_n_label, asm_thumb_bl_label, asm_thumb_bcc_nw_label, mbind, M_bind, gets;
   destruct (label_rel l s) as [[[[d o] rel] s1]|]; cbn beta iota; [|done]|
   apply (thumb_steady_label_rel l _ k); intros; cbn beta iota; [thumb_op|paired_op_tac thumb_fields]].
Lemma thumb_steady_b_n_label l : thumb_steady 2 (asm_thumb_b_n_label l;; mret tt).
Proof.
  thumb_fixed l (fun r : Z * Z * Z => let '(_, _, rel) := r in asm_thumb_op16 (OP_B_N rel)).
  by destruct (asm_thumb_op16 _ s1) as [[[] ?]|].
Qed.
Lemma thumb_steady_bl_label l : thumb_steady 4 (asm_thumb_bl_label l;; mret tt).
Proof.
  thumb_fixed l (fun r : Z * Z * Z => let '(_, _, rel) := r in asm_thumb_op32 (OP_BL_HI rel) (OP_BL_LO rel)).
  by destruct (asm_thumb_op32 _ _ s1) as [[[] ?]|].
Qed.
Lemma thumb_steady_bcc_nw_label cond l wide : thumb_steady 4 (asm_thumb_bcc_nw_label cond l wide;; mret tt).
Proof.
  thumb_fixed l (fun r : Z * Z * Z => let '(_, _, rel) := r in
    if negb wide then asm_thumb_op16 (OP_BCC_N cond rel)
    else if asm_thumb_allow_armv7m then asm_thumb_op32 (OP_BCC_W_HI cond rel) (OP_BCC_W_LO rel)
    else mret tt).
  destruct wide, asm_thumb_allow_armv7m; cbn [negb]; [|done|..];
    [destruct (asm_thumb_op32 _ _ s1) as [[[] ?]|]|destruct (asm_thumb_op16 _ s1) as [[[] ?]|]..]; done.
Qed.
Lemma thumb_paired_format_3 op r i i' :
  paired thumb_limit thumb_agree 2 (asm_thumb_format_3 op r i) (asm_thumb_format_3 op r i').
Proof. unfold asm_thumb_format_3. paired_op_tac thumb_fields. Qed.
Hint Resolve thumb_paired_format_3 : steady.
Lemma thumb_paired_rlo_i16 r i i' :
  paired thumb_limit thumb_agree 6 (asm_thumb_mov_rlo_i16 r i) (asm_thumb_mov_rlo_i16 r i').
Proof.
  unfold asm_thumb_mov_rlo_i16, asm_thumb_mov_rlo_i8, asm_thumb_lsl_rlo_rlo_i5, asm_thumb_add_rlo_i8.
  paired_op_tac thumb_fields.
Qed.
Hint Resolve thumb_paired_rlo_i16 : steady.
Lemma thumb_steady_mov_reg_pcrel r l : thumb_steady 10 (asm_thumb_mov_reg_pcrel r l).
Proof.
  unfold asm_thumb_mov_reg_pcrel, get_label_dest. thumb_unfold. label_tac.
  - intros d o. eapply (steady_then _ _ 8); [|lia|intros _; thumb_op].
    destruct asm_thumb_allow_armv7m; thumb_op.
  - intros o y Ho Hy. eapply (paired_then _ _ 8); [|lia|intros _; paired_op_tac thumb_fields].
    destruct asm_thumb_allow_armv7m; paired_op_tac thumb_fields.
Qed.

(** ** Any operation *)

Definition thumb_exec (op : thumb_op) : M asm_thumb_t unit :=
  match op with
  | Shared op => on_base (base_exec op)
  | EndPass => ASM_END_PASS
  | Exit => ASM_EXIT
  | Jump label => ASM_JUMP label
  | JumpIfRegZero reg label bool_test => ASM_JUMP_IF_REG_ZERO reg label bool_test
  | JumpIfRegNonzero reg label bool_test => ASM_JUMP_IF_REG_NONZERO reg label bool_test
  | JumpIfRegEq reg1 reg2 label => ASM_JUMP_IF_REG_EQ reg1 reg2 label
  | JumpReg reg => ASM_JUMP_REG reg
  | CallInd idx => ASM_CALL_IND idx
  | MovLocalReg local_num reg => ASM_MOV_LOCAL_REG local_num reg
  | MovRegImm reg_dest imm => ASM_MOV_REG_IMM reg_dest imm
  | MovRegLocal reg_dest local_num => ASM_MOV_REG_LOCAL reg_dest local_num
  | MovRegReg reg_dest reg_src => ASM_MOV_REG_REG reg_dest reg_src
  | MovRegLocalAddr reg_dest local_num => ASM_MOV_REG_LOCAL_ADDR reg_dest local_num
  | MovRegPcrel rlo_dest label => ASM_MOV_REG_PCREL rlo_dest label
  | NotReg reg_dest => ASM_NOT_REG reg_dest
  | NegReg reg_dest => ASM_NEG_REG reg_dest
  | LslRegReg reg_dest reg_shift => ASM_LSL_REG_REG reg_dest reg_shift
  | LsrRegReg reg_dest reg_shift => ASM_LSR_REG_REG reg_dest reg_shift
  | AsrRegReg reg_dest reg_shift => ASM_ASR_REG_REG reg_dest reg_shift
  | OrRegReg reg_dest reg_src => ASM_OR_REG_REG reg_dest reg_src
  | XorRegReg reg_dest reg_src => ASM_XOR_REG_REG reg_dest reg_src
  | AndRegReg reg_dest reg_src => ASM_AND_REG_REG reg_dest reg_src
  | AddRegReg reg_dest reg_src => ASM_ADD_REG_REG reg_dest reg_src
  | SubRegReg reg_dest reg_src => ASM_SUB_REG_REG reg_dest reg_src
  | MulRegReg reg_dest reg_src => ASM_MUL_REG_REG reg_dest reg_src
  | Load32RegRegOffset reg_dest reg_base word_offset => ASM_LOAD32_REG_REG_OFFSET reg_dest reg_base word_offset
  | LoadRegRegOffset reg_dest reg_base word_offset => ASM_LOAD_REG_REG_OFFSET reg_dest reg_base word_offset
  | Load8RegRegOffset reg_dest reg_base byte_offset => ASM_LOAD8_REG_REG_OFFSET reg_dest reg_base byte_offset
  | Load8RegReg reg_dest reg_base => ASM_LOAD8_REG_REG reg_dest reg_base
  | Load16RegRegOffset reg_dest reg_base halfword_offset => ASM_LOAD16_REG_REG_OFFSET reg_dest reg_base halfword_offset
  | Load16RegReg reg_dest reg_base => ASM_LOAD16_REG_REG reg_dest reg_base
  | Load32RegReg reg_dest reg_base => ASM_LOAD32_REG_REG reg_dest reg_base
  | Store32RegRegOffset reg_src reg_base word_offset => ASM_STORE32_REG_REG_OFFSET reg_src reg_base word_offset
  | StoreRegRegOffset reg_src reg_base word_offset => ASM_STORE_REG_REG_OFFSET reg_src reg_base word_offset
  | Store8RegRegOffset reg_src reg_base byte_offset => ASM_STORE8_REG_REG_OFFSET reg_src reg_base byte_offset
  | Store8RegReg reg_src reg_base => ASM_STORE8_REG_REG reg_src reg_base
  | Store16RegRegOffset reg_src reg_base halfword_offset => ASM_STORE16_REG_REG_OFFSET reg_src reg_base halfword_offset
  | Store16RegReg reg_src reg_base => ASM_STORE16_REG_REG reg_src reg_base
  | Store32RegReg reg_src reg_base => ASM_STORE32_REG_REG reg_src reg_base
  | Load8RegRegReg reg_dest reg_base reg_index => ASM_LOAD8_REG_REG_REG reg_dest reg_base reg_index
  | Load16RegRegReg reg_dest reg_base reg_index => ASM_LOAD16_REG_REG_REG reg_dest reg_base reg_index
  | Load32RegRegReg reg_dest reg_base reg_index => ASM_LOAD32_REG_REG_REG reg_dest reg_base reg_index
  | Store8RegRegReg reg_val reg_base reg_index => ASM_STORE8_REG_REG_REG reg_val reg_base reg_index
  | Store16RegRegReg reg_val reg_base reg_index => ASM_STORE16_REG_REG_REG reg_val reg_base reg_index
  | Store32RegRegReg reg_val reg_base reg_index => ASM_STORE32_REG_REG_REG reg_val reg_base reg_index
  | ClrReg reg_dest => ASM_CLR_REG reg_dest
  | Op16 op => asm_thumb_op16 op
  | Op32 op1 op2 => asm_thumb_op32 op1 op2
  | ItCc cc mask => asm_thumb_it_cc cc mask
  | Format1 op rlo_dest rlo_src offset => asm_thumb_format_1 op rlo_dest rlo_src offset
  | Format2 op rlo_dest rlo_src src_b => asm_thumb_format_2 op rlo_dest rlo_src src_b
  | Format3 op rlo i8 => asm_thumb_format_3 op rlo i8
  | Format4 op rlo_dest rlo_src => asm_thumb_format_4 op rlo_dest rlo_src
  | Format5 op r_dest r_src => asm_thumb_format_5 op r_dest r_src
  | Format78 op rlo_dest rlo_base rlo_index => asm_thumb_format_7_8 op rlo_dest rlo_base rlo_index
  | Format910 op rlo_dest rlo_base offset => asm_thumb_format_9_10 op rlo_dest rlo_base offset
  | Format11 op rlo_dest rlo_src => asm_thumb_format_11 op rlo_dest rlo_src
  | SubRloI8 rlo i8 => asm_thumb_sub_rlo_i8 rlo i8
  | AddRloRloI3 rlo_dest rlo_src i3 => asm_thumb_add_rlo_rlo_i3 rlo_dest rlo_src i3
  | SubRloRloI3 rlo_dest rlo_src i3 => asm_thumb_sub_rlo_rlo_i3 rlo_dest rlo_src i3
  | AsrRloRloI5 rlo_dest rlo_src shift => asm_thumb_asr_rlo_rlo_i5 rlo_dest rlo_src shift
  | MovRegI16 mov_op r_dest i16 => asm_thumb_mov_reg_i16 mov_op r_dest i16
  | MovRegI32 r_dest i32 => asm_thumb_mov_reg_i32 r_dest i32;; mret tt
  | BNLabel label => asm_thumb_b_n_label label;; mret tt
  | BlLabel label => asm_thumb_bl_label label;; mret tt
  | BccNwLabel cond label wide => asm_thumb_bcc_nw_label cond label wide;; mret tt
  | BccLabel cond label => asm_thumb_bcc_label cond label
  | BccRel9 cond rel => asm_thumb_bcc_rel9 cond rel
  | BRel12 rel => asm_thumb_b_rel12 rel
  end.

(** At most so many bytes. *)
Definition thumb_size (op : thumb_op) : Z :=
  match op with
  | Shared op => base_size op
  | EndPass => 0
  | Jump _ | MovRegPcrel _ _ | MovRegI32 _ _ => 10
  | MovRegImm _ _ | BccLabel _ _ => 12
  | JumpIfRegZero _ _ _ | JumpIfRegNonzero _ _ _ | JumpIfRegEq _ _ _ => 14
  | JumpReg _ | MovLocalReg _ _ | MovRegLocal _ _ | MovRegReg _ _ | MovRegLocalAddr _ _
  | NotReg _ | NegReg _ | LslRegReg _ _ | LsrRegReg _ _ | AsrRegReg _ _ | OrRegReg _ _
  | XorRegReg _ _ | AndRegReg _ _ | AddRegReg _ _ | SubRegReg _ _ | MulRegReg _ _ | ClrReg _
  | Op16 _ | ItCc _ _ | Format1 _ _ _ _ | Format2 _ _ _ _ | Format3 _ _ _ | Format4 _ _ _
  | Format5 _ _ _ | Format78 _ _ _ _ | Format910 _ _ _ _ | Format11 _ _ _ | SubRloI8 _ _
  | AddRloRloI3 _ _ _ | SubRloRloI3 _ _ _ | AsrRloRloI5 _ _ _ | BNLabel _ | BccRel9 _ _
  | BRel12 _ => 2
  | Load32RegRegOffset _ _ _ | LoadRegRegOffset _ _ _ | Load8RegRegOffset _ _ _
  | Load8RegReg _ _ | Load16RegRegOffset _ _ _ | Load16RegReg _ _ | Load32RegReg _ _ => 20
  | CallInd _ => 22
  | Store32RegRegOffset _ _ _ | StoreRegRegOffset _ _ _ | Store8RegRegOffset _ _ _
  | Store8RegReg _ _ | Store16RegRegOffset _ _ _ | Store16RegReg _ _ | Store32RegReg _ _ => 24
  | Op32 _ _ | MovRegI16 _ _ _ | BlLabel _ | BccNwLabel _ _ _ => 4
  | Load8RegRegReg _ _ _ | Load16RegRegReg _ _ _ | Load32RegRegReg _ _ _
  | Store8RegRegReg _ _ _ | Store16RegRegReg _ _ _ | Store32RegRegReg _ _ _ => 8
  | Exit => thumb_frame_size
  end.


Definition thumb_op_ok (op : thumb_op) : Prop :=
  match op with
  | Shared op => base_op_ok op
  | MovLocalReg n _ | MovRegLocal _ n => 0 <= n < 256
  | MovRegLocalAddr _ n => 0 <= n
  | _ => True
  end.

Hint Resolve thumb_steady_bl_ind thumb_steady_mov_reg_pcrel thumb_steady_b_n_label
  thumb_steady_bl_label thumb_steady_bcc_nw_label : steady.
Lemma thumb_steady_op op : thumb_op_ok op -> steady_op thumb_limit thumb_agree thumb_exec thumb_size op.
Proof.
  intros Hok. destruct op; [by apply steady_shared; [apply thumb_limit_ok|apply thumb_agree_base|]|..];
    (split; [done|]); cbn [thumb_exec thumb_size]; simpl in Hok; autounfold with thumb_calls.
  all: first [solve [eauto with steady nocore] | thumb_op].
Qed.

(** A function: its entry, then its operations, the exits among them. *)
Definition thumb_function (locals : Z) (ops : list thumb_op) : M asm_thumb_t unit :=
  ASM_ENTRY locals;; seq_ops thumb_exec ops.
Definition thumb_function_ok (ops : list thumb_op) : Prop :=
  Forall thumb_op_ok ops /\ 22 + thumb_frame_size + total thumb_size ops <= thumb_limit.
End Thumb.

(** C7: the Thumb passes agree.  A function that a compute pass measured is
    emitted by the pass that follows without a failing assertion or an
    exception, at the measured size and with every label at its recorded
    offset: the branches that choose their length from the distance choose the
    same one twice.  The locals are fewer than 256, and without ARMv7-M, where
    literals sit in the code, the allocator returns aligned regions. *)
Theorem thumb_passes_agree `{ThumbConfig} `{PyMisc} `{!PlatAllocExec} locals ops s0 s1 :
  thumb_function_ok ops -> base_wf (base s0) ->
  (asm_thumb_allow_armv7m = false -> forall n, 3 .& (plat_alloc_exec n).1 = 0) ->
  run_pass MP_ASM_PASS_COMPUTE (thumb_function locals ops) s0 = Ok (tt, s1) ->
  exists s2, run_pass MP_ASM_PASS_EMIT (thumb_function locals ops) s1 = Ok (tt, s2)
    /\ code_offset (base s2) = code_offset (base s1)
    /\ label_offsets (base s2) = label_offsets (base s1)
    /\ thumb_agree s1 s2 /\ code_offset (base s2) <= code_size (base s2).
Proof.
  intros [Hops Hsz] Hwf Halign Hrun.
  destruct (program_agrees thumb_limit thumb_agree thumb_exec thumb_size thumb_start (22 + thumb_frame_size)
    (asm_thumb_entry locals) ops s0 s1 s1) as (s2 & E2 & Ho & Hl & Ha & Hcs & _); try done.
  - apply thumb_enters_entry.
  - apply thumb_enters_entry.
  - eapply Forall_impl; [exact Hops|]. apply thumb_steady_op.
  - constructor; try done. intros Hv. simpl. by apply Halign.
  - by exists s2.
Qed.

(** An ARMv6-M configuration, with the architecture numbers of MicroPython. *)
Definition thumb_v6m : ThumbConfig :=
  {| MICROPY_DYNAMIC_COMPILER := false; MICROPY_EMIT_THUMB_ARMV7M := false;
     called_from_arm_state := false; native_arch := 4; MP_NATIVE_ARCH_ARMV6 := 3;
     MP_NATIVE_ARCH_ARMV7M := 5; MP_NATIVE_ARCH_ARMV7EMDP := 8 |}.
Definition thumb_example : list thumb_op :=
  [Jump 1; Shared (Label 0); MovRegImm REG_ARG_2 0x12345678; CallInd 30; Shared (Label 1);
   JumpIfRegNonzero REG_RET 0 true; MovRegPcrel REG_RET 2; BccLabel ASM_THUMB_CC_EQ 2; Exit;
   Shared (Label 2); Shared (Data 4 42)].

Lemma thumb_passes_agree_witness : exists s1 s2,
  run_pass (H0 := example_alloc_32) MP_ASM_PASS_EMIT
    (thumb_function (H := thumb_v6m) (H0 := py_misc) 5 thumb_example) s1 = Ok (tt, s2)
  /\ code_offset (base s2) = 56 /\ stack_adjust s2 = 2.
Proof.
  destruct (thumb_passes_agree (H := thumb_v6m) (H0 := py_misc) (H1 := example_alloc_32) 5 thumb_example
    (mk_asm_thumb (fresh 3) 0 0)
    (mk_asm_thumb (mk_asm_base MP_ASM_PASS_COMPUTE false 56 0 0 [] 3 [12; 24; 52]) 254 2))
    as (s2 & E & Ho & _ & [Hn _] & _).
  - split; [repeat (apply List.Forall_cons; [simpl; first [done|lia]|]); apply List.Forall_nil|by vm_compute].
  - apply fresh_wf.
  - done.
  - vm_compute. reflexivity.
  - eexists _, s2. split; [exact E|]. split; [exact Ho|exact Hn].
Defined.

Lemma thumb_unsigned_fit7 x : 0 <= x < 2 ^ 32 -> UNSIGNED_FIT7 x = (x <? 128).
Proof. intros Hx. unfold UNSIGNED_FIT7. by rewrite uw_small. Qed.
Lemma thumb_adjust_sp_loop_stop fuel op adj s : 0 <= adj < 128 -> adjust_sp_loop fuel op adj s = Ok (adj, s).
Proof.
  intros Ha. destruct fuel; simpl; rewrite thumb_unsigned_fit7, ltb_true by (simpl; lia); done.
Qed.

(** C37: the loop of the entry and the exit that moves the stack pointer
    terminates.  With a non-negative adjustment of [adj] words and room for
    its instructions it ends within [adj] rounds; it has moved the pointer by
    127 words per instruction written, and what it returns is what is left to
    move and fits the field of one more. *)
Theorem thumb_adjust_sp_loop_ends op adj s : 0 <= adj < 2 ^ 31 -> ready (2 * (adj / 127)) s ->
  exists (q : nat) r, adj = 127 * Z.of_nat q + r /\ 0 <= r < 128
  /\ forall fuel, adj <= Z.of_nat fuel -> adjust_sp_loop fuel op adj s
     = Ok (r, puts (concat (replicate q [u8 (op 127); u8 (op 127 >> 8)])) s).
Proof.
  intros Ha. assert (exists n, adj <= Z.of_nat n) as [n Hn] by (exists (Z.to_nat adj); lia).
  revert adj s Ha Hn. induction n as [|n IH]; intros adj s Ha Hn Hs.
  1: exists 0%nat, adj; split; [lia|]; split; [lia|]; intros fuel _.
  1: rewrite thumb_adjust_sp_loop_stop by lia; by rewrite puts_nil.
  destruct (Z.ltb_spec adj 128) as [Hlt|Hge].
  { exists 0%nat, adj. split; [lia|]. split; [lia|]. intros fuel _.
    rewrite thumb_adjust_sp_loop_stop by lia. by rewrite puts_nil. }
  assert (adj / 127 = (adj - 127) / 127 + 1) as Eq.
  { rewrite <- Z.div_add by done. f_equal. lia. }
  assert (0 <= (adj - 127) / 127) by (apply Z.div_pos; lia).
  rewrite Eq, Z.mul_add_distr_l in Hs. rewrite Z.add_comm in Hs.
  destruct (thumb_emits_op16 (op 127) s) as (Hb & E1 & _).
  apply (ready_app [u8 (op 127); u8 (op 127 >> 8)]) in Hs as [Hs1 Hs2]; [|done|lia].
  destruct (IH (adj - 127) (puts [u8 (op 127); u8 (op 127 >> 8)] s)) as (q & r & Er & Hr & E2); [lia|lia|done|].
  exists (S q), r. split; [lia|]. split; [done|]. intros [|fuel] Hf; [lia|]. simpl.
  rewrite thumb_unsigned_fit7, (proj2 (Z.ltb_ge adj 128)) by (simpl; lia).
  rewrite (bind_Ok _ _ _ _ _ (E1 Hs1)), (sw_small 32) by (simpl; lia).
  rewrite E2 by lia. by rewrite puts_app by apply Hs1.
Qed.

Lemma thumb_adjust_sp_loop_ends_witness : exists s, adjust_sp_loop 300 OP_SUB_SP 300 s
  = Ok (46, puts [255; 176; 255; 176] s).
Proof.
  destruct (thumb_adjust_sp_loop_ends OP_SUB_SP 300 (mk_asm_thumb (fresh 0) 0 0)) as (q & r & Eq & Hr & E).
  - done.
  - split; [apply fresh_wf|]. right. by split.
  - exists (mk_asm_thumb (fresh 0) 0 0). assert (q = 2%nat /\ r = 46) as [-> ->] by lia.
    rewrite E by lia. reflexivity.
Defined.
