(* ===== verification/AsmThumbInstr.v ===== *)
(** * AsmThumbInstr: the instructions of asmthumb.c

    Every halfword or pair of halfwords that a function of asmthumb.{h,c}
    writes is the instruction meant: the decoder reads it back, and its code
    performs the instruction's effect. *)

From S2P Require Import Prelude AsmBase TwoPass PyMisc Machine Emission AsmThumb ArmIsa ArmEffect.

Set Default Goal Selector "!".

#[local] Existing Instance SizeT_32.
#[local] Hint Extern 0 Isa => exact Thumb : typeclass_instances.

(** ** Emission *)

Lemma thumb_op16_emits s op : emits s (asm_thumb_op16 op) [u8 op; u8 (op >> 8)].
Proof. apply emits_put_array. bytes_tac. Qed.
Lemma thumb_op32_emits s a b : emits s (asm_thumb_op32 a b) [u8 a; u8 (a >> 8); u8 b; u8 (b >> 8)].
Proof. apply emits_put_array. bytes_tac. Qed.
Lemma le_word_half x : le_word [u8 x; u8 (x >> 8)] = u16 x.
Proof. apply (le_word_le_bytes 2 x). Qed.

Lemma disasm_op16 op i : (bits (u16 op) 11 5 <? 29) = true -> decode_thumb16 (u16 op) = Some i ->
  disasm [u8 op; u8 (op >> 8)] [(i, 2)].
Proof.
  intros Hl Hd. apply (disasm_one (H := Thumb)); [|done|simpl; lia].
  cbn [decode Thumb]. unfold thumb_decode. rewrite le_word_half. cbv zeta. by rewrite Hl, Hd.
Qed.
Lemma disasm_op32 a b i : (bits (u16 a) 11 5 <? 29) = false -> decode_thumb32 (u16 a) (u16 b) = Some i ->
  disasm [u8 a; u8 (a >> 8); u8 b; u8 (b >> 8)] [(i, 4)].
Proof.
  intros Hl Hd. apply (disasm_one (H := Thumb)); [|done|simpl; lia].
  cbn [decode Thumb]. unfold thumb_decode. rewrite !le_word_half. cbv zeta. by rewrite Hl, Hd.
Qed.
Lemma assembles_op16 s op i : (bits (u16 op) 11 5 <? 29) = true -> decode_thumb16 (u16 op) = Some i ->
  assembles s (asm_thumb_op16 op) [(i, 2)].
Proof. intros Hl Hd. eexists. split; [apply thumb_op16_emits|by apply disasm_op16]. Qed.
Lemma assembles_op32 s a b i : (bits (u16 a) 11 5 <? 29) = false -> decode_thumb32 (u16 a) (u16 b) = Some i ->
  assembles s (asm_thumb_op32 a b) [(i, 4)].
Proof. intros Hl Hd. eexists. split; [apply thumb_op32_emits|by apply disasm_op32]. Qed.

(** ** Decoding

    The fields that select an instruction are folded in the decoder's order;
    the others are the operands. *)

Ltac operands := cbn [fmap option_fmap option_map]; repeat (f_equal; try reflexivity); bitsolve.
Ltac t16 sub :=
  apply assembles_op16; [field 11 5; reflexivity|];
  unfold decode_thumb16; field 12 4; unfold decode_t16; field 11 5; sub; operands.

(** ** The effect of an instruction *)

(** The code falls through with [v] in [r]; other registers and memory are
    kept, flags aside. *)
Definition computes (r : Z) (v : machine -> Z) (n : Z) (mc mc' : machine) : Prop :=
  pc mc' = u32 (pc mc + n) /\ reg r mc' = u32 (v mc) /\ same_except (r :: flags) mc mc'.

Lemma thumb_result_flags_same v c o mc : same_except flags mc (result_flags v c o mc).
Proof.
  split; [|done]. intros r Hr. unfold result_flags, set_flags. unfold flags in Hr.
  repeat (apply not_elem_of_cons in Hr as [? Hr]). by rewrite !reg_set_ne by done.
Qed.
Lemma thumb_dp_flags_same op a b c mc : same_except flags mc (dp_flags op a b c mc).
Proof. destruct op; unfold dp_flags, sub_flags; cbv zeta; apply thumb_result_flags_same. Qed.
Lemma thumb_if_same (b : bool) X mc mc' : same_except X mc mc' -> same_except X mc (if b then mc' else mc).
Proof. by destruct b. Qed.

(** The same of code of [k] bytes. *)
Definition takes (k : Z) (P : Z -> machine -> machine -> Prop) (n : Z) (mc mc' : machine) : Prop := n = k /\ P n mc mc'.
Lemma takes_any k s m (P : Z -> machine -> machine -> Prop) : implements s m (takes k P) -> implements s m P.
Proof. intros Hm. eapply implements_mono; [exact Hm|]. by intros n mc mc' [_ ?]. Qed.

Lemma thumb_takes s m op len r v : gpr r -> assembles s m [((14, op), len)] ->
  (forall next mc, exists fl, exec_op true op next mc = write true r (u32 (v mc)) next fl /\ same_except flags mc fl) ->
  implements s m (takes len (computes r v)).
Proof.
  intros Hr Ha Hx. eapply assembles_implements; [exact Ha|]. intros mc _.
  destruct (Hx (u32 (pc mc + len)) mc) as (fl & E & [Hk Hm]). rewrite write_gpr in E by done.
  exists (set_pc (u32 (pc mc + len)) (set_reg r (u32 (v mc)) fl)). split.
  - transitivity (m' ← exec_op true op (u32 (pc mc + len)) mc; Some m'); [done|]. by rewrite E.
  - cbn [code_len foldr snd]. rewrite Z.add_0_r. split; [done|]. split; [done|]. split; [by rewrite reg_set_pc, reg_set_eq|].
    split; [|done]. intros q [Hq Hf]%not_elem_of_cons. rewrite reg_set_pc, reg_set_ne by done. by apply Hk.
Qed.
Lemma write_eq r x y n mc : x = y -> write true r x n mc = write true r y n mc.
Proof. by intros ->. Qed.

(** A result computed in two steps. *)
Lemma computes_trans r v w x n1 n2 mc mc1 mc2 :
  computes r v n1 mc mc1 -> computes r w n2 mc1 mc2 ->
  (reg r mc1 = u32 (v mc) -> same_except (r :: flags) mc mc1 -> u32 (w mc1) = u32 (x mc)) ->
  computes r x (n1 + n2) mc mc2.
Proof.
  intros (Hp1 & Hr1 & Hk1 & Hm1) (Hp2 & Hr2 & Hk2 & Hm2) Hx. split; [|split].
  - by rewrite Hp2, Hp1, uw_add_l, Z.add_assoc.
  - rewrite Hr2. apply Hx; [done|by split].
  - split; [|congruence]. intros q Hq. by rewrite Hk2, Hk1.
Qed.
Lemma takes_seq k1 k2 s m k r v w x :
  implements s m (takes k1 (computes r v)) -> (forall bs, implements (puts bs s) k (takes k2 (computes r w))) ->
  (forall mc mc1, reg r mc1 = u32 (v mc) -> same_except (r :: flags) mc mc1 -> u32 (w mc1) = u32 (x mc)) ->
  implements s (m;; k) (takes (k1 + k2) (computes r x)).
Proof.
  intros Hm Hk Hx. eapply implements_mono; [eapply (implements_seq s m k (takes k1 (computes r v))); [|exact Hk]|].
  - eapply implements_mono; [exact Hm|]. intros n mc mc' Hc. split; [apply Hc|exact Hc].
  - intros n mc mc' (n1 & n2 & mc1 & -> & _ & [-> H1] & [-> H2]). split; [done|]. eapply computes_trans; [exact H1|exact H2|apply Hx].
Qed.
Lemma computes_seq s m k r v w x :
  implements s m (computes r v) -> (forall bs, implements (puts bs s) k (computes r w)) ->
  (forall mc mc1, reg r mc1 = u32 (v mc) -> same_except (r :: flags) mc mc1 -> u32 (w mc1) = u32 (x mc)) ->
  implements s (m;; k) (computes r x).
Proof.
  intros Hm Hk Hx. eapply implements_mono; [eapply (implements_seq s m k (computes r v)); [|exact Hk]|].
  - eapply implements_mono; [exact Hm|]. intros n mc mc' Hc. split; [apply Hc|exact Hc].
  - intros n mc mc' (n1 & n2 & mc1 & -> & _ & H1 & H2). eapply computes_trans; [exact H1|exact H2|apply Hx].
Qed.
Lemma computes_ext r v w n mc mc' : computes r v n mc mc' -> u32 (v mc) = u32 (w mc) -> computes r w n mc mc'.
Proof. intros (? & E & ?) Hv. split; [done|]. split; [|done]. by rewrite E. Qed.

(** ** Low registers *)

Definition low (r : Z) : Prop := 0 <= r < 8.
Lemma low_gpr r : low r -> gpr r.
Proof. unfold low, gpr. lia. Qed.
#[export] Hint Resolve low_gpr : core.
Lemma assembles_low r w s (k : M asm_thumb_t unit) ins : low r -> assembles s k ins ->
  assembles s (assert_ (r <? ASM_THUMB_REG_R8) w;; k) ins.
Proof. unfold low. intros Hr. apply assembles_assert, ltb_true, Hr. Qed.
(** The bounds of a register, for [bitsolve]. *)
Ltac low_range H := let H' := fresh in pose proof H as H'; unfold low in H'.

Create HintDb thumb_ops.
#[export] Hint Unfold ASM_THUMB_FORMAT_1_ENCODE ASM_THUMB_FORMAT_2_ENCODE ASM_THUMB_FORMAT_3_ENCODE
  ASM_THUMB_FORMAT_5_ENCODE ASM_THUMB_FORMAT_7_8_ENCODE ASM_THUMB_FORMAT_11_ENCODE OP_FORMAT_4
  ASM_THUMB_FORMAT_1_LSL ASM_THUMB_FORMAT_1_ASR ASM_THUMB_FORMAT_2_ADD ASM_THUMB_FORMAT_2_SUB ASM_THUMB_FORMAT_2_REG_OPERAND
  ASM_THUMB_FORMAT_2_IMM_OPERAND ASM_THUMB_FORMAT_3_MOV ASM_THUMB_FORMAT_3_CMP ASM_THUMB_FORMAT_3_ADD ASM_THUMB_FORMAT_3_SUB
  ASM_THUMB_FORMAT_3_LDR ASM_THUMB_FORMAT_4_AND ASM_THUMB_FORMAT_4_EOR ASM_THUMB_FORMAT_4_LSL ASM_THUMB_FORMAT_4_LSR
  ASM_THUMB_FORMAT_4_ASR ASM_THUMB_FORMAT_4_NEG ASM_THUMB_FORMAT_4_CMP ASM_THUMB_FORMAT_4_ORR ASM_THUMB_FORMAT_4_MUL
  ASM_THUMB_FORMAT_4_MVN ASM_THUMB_FORMAT_5_ADD ASM_THUMB_FORMAT_5_BX ASM_THUMB_FORMAT_7_LDR ASM_THUMB_FORMAT_7_STR
  ASM_THUMB_FORMAT_7_WORD_TRANSFER ASM_THUMB_FORMAT_7_BYTE_TRANSFER ASM_THUMB_FORMAT_8_LDRH ASM_THUMB_FORMAT_8_STRH
  ASM_THUMB_FORMAT_11_SXTH ASM_THUMB_OP_MOVW ASM_THUMB_OP_MOVT ASM_THUMB_OP_NOP OP_PUSH_RLIST OP_PUSH_RLIST_LR
  OP_POP_RLIST OP_POP_RLIST_PC OP_ADD_SP OP_SUB_SP OP_B_N OP_BCC_N OP_BLX OP_STR_TO_SP_OFFSET OP_LDR_FROM_SP_OFFSET
  OP_ADD_REG_SP_OFFSET ASM_THUMB_REG_R15 ASM_THUMB_REG_R1 ASM_THUMB_REG_SP ASM_THUMB_REG_R13
  asm_thumb_format_1 asm_thumb_format_2 asm_thumb_format_3 asm_thumb_format_4 asm_thumb_format_5 asm_thumb_format_7_8
  asm_thumb_format_11 asm_thumb_add_rlo_rlo_rlo asm_thumb_sub_rlo_rlo_rlo asm_thumb_mov_rlo_i8 asm_thumb_cmp_rlo_i8
  asm_thumb_add_rlo_i8 asm_thumb_ldr_rlo_pcrel_i8 asm_thumb_cmp_rlo_rlo asm_thumb_mvn_rlo_rlo asm_thumb_neg_rlo_rlo
  asm_thumb_add_reg_reg asm_thumb_bx_reg asm_thumb_ldrb_rlo_rlo_rlo asm_thumb_ldrh_rlo_rlo_rlo asm_thumb_ldr_rlo_rlo_rlo
  asm_thumb_strb_rlo_rlo_rlo asm_thumb_strh_rlo_rlo_rlo asm_thumb_str_rlo_rlo_rlo asm_thumb_lsl_rlo_rlo_i5
  asm_thumb_sxth_rlo_rlo : thumb_ops.
Ltac t16_op sub := autounfold with thumb_ops; repeat (apply assembles_low; [done|]); autounfold with thumb_ops; t16 sub.

(** An instruction that computes into [rd]. *)
Ltac low_ranges := repeat match goal with H : low ?r |- _ =>
  lazymatch goal with _ : 0 <= r < 8 |- _ => fail | _ => pose proof (H : 0 <= r < 8) end end.
Ltac computed i sub :=
  low_ranges; lazymatch goal with |- implements _ _ (takes _ _) => idtac | _ => apply (takes_any 2) end; apply (thumb_takes _ _ i 2); [by apply low_gpr|t16_op sub|];
  intros next mc; cbn [exec_op dp_exec value shifted]; rewrite ?read_gpr by (by apply low_gpr);
  eexists; split; [apply write_eq|first [apply thumb_dp_flags_same|apply thumb_result_flags_same|done]];
  rewrite ?Z.shiftl_0_r, ?uw_uw by done.
(** Of the fields of a format, those that select the instruction. *)
Ltac format_2 := field 9 1; field 10 1.
Ltac format_4 := field 10 1; unfold decode_alu; field 6 4.

Lemma thumb_add_computes s rd rn rm : low rd -> low rn -> low rm ->
  implements s (asm_thumb_add_rlo_rlo_rlo rd rn rm) (computes rd (fun mc => reg rn mc + reg rm mc)).
Proof. intros Hd Hn Hm. computed (DP true ADD rd rn (Shifted rm 0)) format_2. by rewrite uw_add_l, uw_add_r. Qed.
Lemma thumb_sub_computes s rd rn rm : low rd -> low rn -> low rm ->
  implements s (asm_thumb_sub_rlo_rlo_rlo rd rn rm) (computes rd (fun mc => reg rn mc - reg rm mc)).
Proof. intros Hd Hn Hm. computed (DP true SUB rd rn (Shifted rm 0)) format_2. by rewrite uw_sub_l, uw_sub_r. Qed.

Section Registers.
Context (s : asm_thumb_t) (rd rn : Z) (Hd : low rd) (Hn : low rn).

(** The two-operand instructions and what they compute. *)
Definition thumb_binary : list ((Z -> Z -> M asm_thumb_t unit) * (Z -> Z -> Z)) :=
  [(GenericApi.ASM_ADD_REG_REG, Z.add); (GenericApi.ASM_SUB_REG_REG, Z.sub); (GenericApi.ASM_MUL_REG_REG, Z.mul);
   (GenericApi.ASM_AND_REG_REG, Z.land); (GenericApi.ASM_XOR_REG_REG, Z.lxor); (GenericApi.ASM_OR_REG_REG, Z.lor)].
Lemma thumb_binary_computes op f : In (op, f) thumb_binary ->
  implements s (op rd rn) (computes rd (fun mc => f (reg rd mc) (reg rn mc))).
Proof using Hd Hn.
  intros Hin. repeat destruct Hin as [[= <- <-] | Hin]; [..|done].
  - exact (thumb_add_computes s rd rd rn Hd Hd Hn).
  - exact (thumb_sub_computes s rd rd rn Hd Hd Hn).
  - unfold GenericApi.ASM_MUL_REG_REG. computed (MUL true rd rn rd) format_4. by rewrite uw_mul_l, uw_mul_r, Z.mul_comm.
  - unfold GenericApi.ASM_AND_REG_REG. computed (DP true AND rd rd (Shifted rn 0)) format_4. bitsolve.
  - unfold GenericApi.ASM_XOR_REG_REG. computed (DP true EOR rd rd (Shifted rn 0)) format_4. bitsolve.
  - unfold GenericApi.ASM_OR_REG_REG. computed (DP true ORR rd rd (Shifted rn 0)) format_4. bitsolve.
Qed.

(** The shifts take the low byte of the count. *)
Definition thumb_shifts : list ((Z -> Z -> M asm_thumb_t unit) * (Z -> Z -> Z)) :=
  [(GenericApi.ASM_LSL_REG_REG, fun a n => a << n); (GenericApi.ASM_LSR_REG_REG, fun a n => u32 a >> n);
   (GenericApi.ASM_ASR_REG_REG, fun a n => s32 a >> n)].
Lemma thumb_shift_computes op f : In (op, f) thumb_shifts ->
  implements s (op rd rn) (computes rd (fun mc => f (reg rd mc) (u8 (reg rn mc)))).
Proof using Hd Hn.
  assert (forall x, u8 (u32 x) = u8 x) as Eu by (intros x; bitsolve).
  intros Hin. repeat destruct Hin as [[= <- <-] | Hin]; [..|done].
  - unfold GenericApi.ASM_LSL_REG_REG. computed (MOV true rd (ShiftedBy LSL rd rn)) format_4. rewrite Eu.
    pose proof (uw_range 8 eq_refl (reg rn mc)). rewrite !Z.shiftl_mul_pow2 by lia. by rewrite uw_mul_l.
  - unfold GenericApi.ASM_LSR_REG_REG. computed (MOV true rd (ShiftedBy LSR rd rn)) format_4. by rewrite Eu.
  - unfold GenericApi.ASM_ASR_REG_REG. computed (MOV true rd (ShiftedBy ASR rd rn)) format_4. by rewrite Eu, sw_uw.
Qed.

Lemma thumb_mvn_computes : implements s (asm_thumb_mvn_rlo_rlo rd rn) (computes rd (fun mc => Z.lnot (reg rn mc))).
Proof using Hd Hn.
  computed (MVN true rd (Shifted rn 0)) format_4. assert (forall x, Z.lnot x = -1 - x) as E by (unfold Z.lnot; lia).
  by rewrite !E, uw_sub_r.
Qed.
Lemma thumb_neg_computes : implements s (asm_thumb_neg_rlo_rlo rd rn) (computes rd (fun mc => - reg rn mc)).
Proof using Hd Hn. computed (DP true RSB rd rn (Imm 0)) format_4. by rewrite <- (Z.sub_0_l (reg rn mc)), uw_sub_r. Qed.
Lemma thumb_sxth_takes : implements s (asm_thumb_sxth_rlo_rlo rd rn) (takes 2 (computes rd (fun mc => s16 (reg rn mc)))).
Proof using Hd Hn.
  computed (SXTH rd rn) ltac:(unfold decode_misc; field 8 4; field 6 6). f_equal.
  rewrite <- (sw_uw 16 eq_refl (u32 _)), <- (sw_uw 16 eq_refl (reg rn mc)). f_equal. bitsolve.
Qed.
Lemma thumb_sxth_computes : implements s (asm_thumb_sxth_rlo_rlo rd rn) (computes rd (fun mc => s16 (reg rn mc))).
Proof using Hd Hn. by apply (takes_any 2), thumb_sxth_takes. Qed.
Lemma thumb_lsl_i5_takes i : 0 <= i < 32 ->
  implements s (asm_thumb_lsl_rlo_rlo_i5 rd rn i) (takes 2 (computes rd (fun mc => reg rn mc << i))).
Proof using Hd Hn.
  intros Hi. computed (MOV true rd (Shifted rn i)) idtac. rewrite !Z.shiftl_mul_pow2 by lia. by rewrite uw_mul_l.
Qed.
Lemma thumb_lsl_i5_computes i : 0 <= i < 32 ->
  implements s (asm_thumb_lsl_rlo_rlo_i5 rd rn i) (computes rd (fun mc => reg rn mc << i)).
Proof using Hd Hn. intros. by apply (takes_any 2), thumb_lsl_i5_takes. Qed.
Lemma thumb_mov_i8_takes i : 0 <= i < 256 -> implements s (asm_thumb_mov_rlo_i8 rd i) (takes 2 (computes rd (fun _ => i))).
Proof using Hd. intros Hi. clear Hn. computed (MOV true rd (Imm i)) idtac. by rewrite uw_small by pow_lia. Qed.
Lemma thumb_mov_i8_computes i : 0 <= i < 256 -> implements s (asm_thumb_mov_rlo_i8 rd i) (computes rd (fun _ => i)).
Proof using Hd. intros. by apply (takes_any 2), thumb_mov_i8_takes. Qed.
Lemma thumb_add_i8_takes i : 0 <= i < 256 ->
  implements s (asm_thumb_add_rlo_i8 rd i) (takes 2 (computes rd (fun mc => reg rd mc + i))).
Proof using Hd. intros Hi. clear Hn. computed (DP true ADD rd rd (Imm i)) idtac. by rewrite uw_add_l. Qed.
Lemma thumb_add_i8_computes i : 0 <= i < 256 ->
  implements s (asm_thumb_add_rlo_i8 rd i) (computes rd (fun mc => reg rd mc + i)).
Proof using Hd. intros. by apply (takes_any 2), thumb_add_i8_takes. Qed.
End Registers.

(** A 16-bit constant in three instructions. *)
Lemma thumb_mov_rlo_i16_takes s rd i : low rd ->
  implements s (asm_thumb_mov_rlo_i16 rd i) (takes 6 (computes rd (fun _ => u16 i))).
Proof.
  intros Hd. assert (i >> 8 .& 0xff = bits i 8 8 /\ i .& 0xff = u8 i) as [E1 E2] by (split; bitsolve).
  unfold asm_thumb_mov_rlo_i16. rewrite E1, E2.
  pose proof (uw_range 8 eq_refl (i >> 8) : 0 <= bits i 8 8 < 256) as H1. pose proof (uw_range 8 eq_refl i) as H2.
  apply (takes_seq 2 (2 + 2) _ _ _ _ (fun _ => bits i 8 8) (fun mc => (reg rd mc << 8) + u8 i)); [by apply thumb_mov_i8_takes|intros bs|].
  1: eapply takes_seq; [by apply (thumb_lsl_i5_takes _ rd rd)|intros; by apply thumb_add_i8_takes|].
  - cbv beta. intros mc mc1 -> _. by rewrite uw_add_l.
  - cbv beta. intros mc mc1 -> _. rewrite (uw_small 32 (bits i 8 8)) by (fold_pow2; lia). f_equal.
    unfold bits in *. rewrite Z.shiftl_mul_pow2 by done. unfold uw. rewrite Z.shiftr_div_pow2 by done. clear. word_lia.
Qed.
Lemma thumb_mov_rlo_i16_computes s rd i : low rd ->
  implements s (asm_thumb_mov_rlo_i16 rd i) (computes rd (fun _ => u16 i)).
Proof. intros Hd. by apply (takes_any 6), thumb_mov_rlo_i16_takes. Qed.
