(* ===== verification/AsmThumbImm.v ===== *)
(** * AsmThumbImm: constants of asmthumb.c

    A constant is eight bits of an instruction; with ARMv7-M one or two
    instructions of sixteen bits; without it, eight bits shifted, sixteen bits
    in three instructions, the negation of one of these, or a word in the
    code. *)

From S2P Require Import Prelude AsmBase TwoPass PyMisc Machine Emission AsmThumb ArmIsa ArmEffect AsmThumbInstr.

Set Default Goal Selector "!".

#[local] Existing Instance SizeT_32.
#[local] Hint Extern 0 Isa => exact Thumb : typeclass_instances.

(** ** Words in the code *)

(** A word is loaded over the branch around it. *)
Definition thumb_literal (rd imm : Z) : M asm_thumb_t unit :=
  asm_thumb_ldr_rlo_pcrel_i8 rd 0;;
  asm_thumb_op16 (OP_B_N 2);;
  asm_thumb_op16 (imm .& 0xffff);;
  asm_thumb_op16 (imm >> 16).

Lemma thumb_ldr_pcrel_assembles s rd i : low rd -> 0 <= i < 256 ->
  assembles s (asm_thumb_ldr_rlo_pcrel_i8 rd i) [((14, LDR Word rd 15 (OffImm (4 * i))), 2)].
Proof. intros Hd Hi. low_ranges. t16_op idtac. Qed.
Lemma thumb_nop_assembles s : assembles s (asm_thumb_op16 ASM_THUMB_OP_NOP) [((14, NOP), 2)].
Proof. by apply assembles_op16. Qed.

Lemma thumb_literal_implements s rd imm : low rd ->
  implements_when readable s s (thumb_literal rd imm)
    (fun n mc mc' => n = 8 /\ mc' = set_pc (u32 (pc mc + n)) (set_reg rd (u32 imm) mc)).
Proof.
  intros Hd.
  destruct (thumb_ldr_pcrel_assembles s rd 0 Hd ltac:(lia)) as (bs1 & E1 & D1).
  assert (assembles (puts bs1 s) (asm_thumb_op16 (OP_B_N 2)) [((14, B 2), 2)]) as (bs2 & E2 & D2)
    by by apply assembles_op16.
  pose proof (disasm_length _ _ D1) as L1. pose proof (disasm_length _ _ D2) as L2.
  change (code_len [_]) with 2 in L1, L2.
  split; [done|]. exists (bs1 ++ bs2 ++ le_bytes 4 imm). split.
  { apply emits_seq; [exact E1|]. apply emits_seq; [exact E2|].
    replace (le_bytes 4 imm) with ([u8 (imm .& 0xffff); u8 ((imm .& 0xffff) >> 8)] ++ [u8 (imm >> 16); u8 (imm >> 16 >> 8)])
      by (cbn [le_bytes app]; do 4 (apply f_equal2; [bitsolve|]); done).
    apply emits_seq; apply thumb_op16_emits. }
  intros code mc Hw Hc Hr. rewrite app_assoc in Hc, Hr. apply code_at_app in Hc as [Hc _].
  pose proof (readable_word (bs1 ++ bs2) imm [] mc) as Hl. rewrite app_nil_r in Hl. specialize (Hl Hr).
  rewrite length_app, Nat2Z.inj_add, L1, L2 in Hl.
  exists (set_pc (u32 (pc mc + 8)) (set_reg rd (u32 imm) mc)). split.
  - eapply runs_straight; [exact (disasm_app _ _ _ _ D1 D2)|exact Hc|].
    etransitivity; [apply (exec_straight_cons (H := Thumb) _ _ _ _ (set_pc (u32 (pc mc + 2)) (set_reg rd (u32 imm) mc)))|].
    + transitivity (Some (load_reg rd (load 32 4 (mem mc) (address true 15 (OffImm 0) mc)) (set_pc (u32 (pc mc + 2)) mc))); [done|].
      unfold load_reg. rewrite gpr_not_pc by by apply low_gpr.
      rewrite (load_cong 32 eq_refl 4 _ _ (pc mc + (2 + 2))); [by rewrite Hl|].
      apply (address_literal true), Hr.
    + done.
    + transitivity (Some (set_pc (u32 (u32 (pc mc + 2) + 4 + 2)) (set_reg rd (u32 imm) mc))); [done|].
      rewrite <- Z.add_assoc, uw_add_l by done. by rewrite <- Z.add_assoc.
  - assert (Z.of_nat (length (bs1 ++ bs2 ++ le_bytes 4 imm)) = 8) as ->; [|done].
    rewrite !length_app, length_le_bytes. lia.
Qed.

(** ** Where the code is read *)

(** What the assembler must look like for words in the code to be aligned. *)
Record thumb_live (s : asm_thumb_t) : Prop := {
  live_emits : suppress (base s) = false;
  live_even : code_offset (base s) mod 2 = 0;
  live_base : 3 .& code_base (base s) = 0;
}.
Lemma live_puts bs s : thumb_live s -> Z.of_nat (length bs) mod 2 = 0 -> thumb_live (puts bs s).
Proof.
  intros [Hs He Hb] Hl. constructor; change (base (puts bs s)) with (put_bytes bs (base s));
    rewrite ?put_bytes_suppress, ?put_bytes_base, ?put_bytes_offset, ?Hs; [done| |done].
  by rewrite Z.add_mod, He, Hl by done.
Qed.

Lemma even_mod4 x : x mod 2 = 0 -> x mod 4 = x .& 2.
Proof.
  intros He. pose proof (Z.land_ones x 1 ltac:(done)) as E1. pose proof (Z.land_ones x 2 ltac:(done)) as E2.
  change (Z.ones 1) with 1 in E1. change (Z.ones 2) with 3 in E2. change (2 ^ 1) with 2 in E1. change (2 ^ 2) with 4 in E2.
  rewrite <- E2. transitivity ((x .& 1) .| (x .& 2)); [bitsolve|]. by rewrite E1, He.
Qed.

Section Constants.
Context `{ThumbConfig} `{PyMisc}.

(** Without ARMv7-M the code at offset [o] must be readable, aligned as it was
    assembled, and not in the [n] bytes below the stack pointer, which it may
    use. *)
Definition reads (o n : Z) (bs : list Z) (mc : machine) : Prop :=
  asm_thumb_allow_armv7m = false ->
  pc mc mod 4 = o mod 4
  /\ code_at 32 (peek 32 (mem mc)) (pc mc) bs
  /\ forall i, (i < length bs)%nat -> n <= u32 (pc mc + Z.of_nat i - (reg 13 mc - n)).
Definition reads_code (s : asm_thumb_t) : Z -> list Z -> machine -> Prop := reads (code_offset (base s)).

Lemma u32_mod4 x : u32 x mod 4 = x mod 4.
Proof. unfold uw. apply Z.mod_mod_divide. by exists (2 ^ 30). Qed.
Lemma reads_rest o n n' bs cs mc mc1 : n' <= n ->
  pc mc1 = u32 (pc mc + Z.of_nat (length bs)) -> u32 (reg 13 mc1 - n') = u32 (reg 13 mc - n) ->
  (forall x, n <= u32 (x - (reg 13 mc - n)) -> peek 32 (mem mc1) x = peek 32 (mem mc) x) ->
  reads o n (bs ++ cs) mc -> reads (o + Z.of_nat (length bs)) n' cs mc1.
Proof.
  intros Hn Hpc Hsp Hm Hr Hv. destruct (Hr Hv) as (Hp & [_ Hc]%code_at_app & Ho). rewrite Hpc, u32_mod4.
  split; [|split].
  - by rewrite <- Z.add_mod_idemp_l, Hp, Z.add_mod_idemp_l by done.
  - intros i x Hi. rewrite <- (Hc i x Hi). apply lookup_lt_Some in Hi. rewrite uw_add_l by done.
    unfold peek at 1. rewrite uw_uw by done. rewrite <- Z.add_assoc, <- Nat2Z.inj_add.
    change (default 0 (mem mc1 !! u32 ?a)) with (peek 32 (mem mc1) a). rewrite Hm.
    + unfold peek at 2. by rewrite uw_uw.
    + apply Ho. rewrite length_app. lia.
  - intros i Hi. specialize (Ho (length bs + i)%nat). rewrite length_app, Nat2Z.inj_add in Ho.
    replace (u32 (u32 (pc mc + Z.of_nat (length bs)) + Z.of_nat i - (reg 13 mc1 - n')))
      with (u32 (pc mc + (Z.of_nat (length bs) + Z.of_nat i) - (reg 13 mc - n))); [lia|].
    rewrite <- (uw_sub_r 32 eq_refl _ (reg 13 mc - n)), <- Hsp, uw_sub_r by done.
    rewrite <- (uw_sub_l 32 eq_refl (u32 _ + _)), uw_add_l, uw_sub_l by done. f_equal. lia.
Qed.
Lemma reads_code_rest s n n' bs cs mc mc1 : thumb_live s -> n' <= n ->
  pc mc1 = u32 (pc mc + Z.of_nat (length bs)) -> u32 (reg 13 mc1 - n') = u32 (reg 13 mc - n) ->
  (forall x, n <= u32 (x - (reg 13 mc - n)) -> peek 32 (mem mc1) x = peek 32 (mem mc) x) ->
  reads_code s n (bs ++ cs) mc -> reads_code (puts bs s) n' cs mc1.
Proof.
  intros Hs. unfold reads_code. change (base (puts bs s)) with (put_bytes bs (base s)).
  rewrite put_bytes_offset, (live_emits s Hs). apply reads_rest.
Qed.
Lemma reads_app o n bs cs mc : reads o n (bs ++ cs) mc -> reads o n bs mc.
Proof.
  intros Hr Hv. destruct (Hr Hv) as (Hp & [Hc _]%code_at_app & Ho). split; [done|]. split; [done|].
  intros i Hi. apply Ho. rewrite length_app. lia.
Qed.

(** ** The pieces *)

Lemma thumb_i16_fields op rd i : op = ASM_THUMB_OP_MOVW \/ op = ASM_THUMB_OP_MOVT -> gpr rd ->
  decode_thumb32 (u16 (op .| i >> 1 .& 0x0400 .| i >> 12 .& 0xf)) (u16 (i << 4 .& 0x7000 .| rd << 8 .| i .& 0xff))
  = Some (14, if op =? ASM_THUMB_OP_MOVW then MOV false rd (Imm (u16 i)) else MOVT rd (u16 i)).
Proof.
  unfold gpr. intros [-> | ->] Hd; unfold ASM_THUMB_OP_MOVW, ASM_THUMB_OP_MOVT; cbn [Z.eqb Pos.eqb];
    unfold decode_thumb32; field 11 5; field 15 1; unfold decode_plain; field 4 6; operands.
Qed.
Lemma thumb_i16_assembles s op rd i : op = ASM_THUMB_OP_MOVW \/ op = ASM_THUMB_OP_MOVT -> gpr rd ->
  assembles s (asm_thumb_mov_reg_i16 op rd i)
    [((14, if op =? ASM_THUMB_OP_MOVW then MOV false rd (Imm (u16 i)) else MOVT rd (u16 i)), 4)].
Proof.
  intros Hop Hd. unfold asm_thumb_mov_reg_i16. apply assembles_assert; [apply ltb_true, Hd|].
  apply assembles_op32; [|by apply thumb_i16_fields].
  destruct Hop as [-> | ->]; unfold ASM_THUMB_OP_MOVW, ASM_THUMB_OP_MOVT; field 11 5; reflexivity.
Qed.
Lemma thumb_movw_takes s rd i : gpr rd ->
  implements s (asm_thumb_mov_reg_i16 ASM_THUMB_OP_MOVW rd i) (takes 4 (computes rd (fun _ => u16 i))).
Proof.
  intros Hd. eapply thumb_takes; [done|apply thumb_i16_assembles; [by left|done]|].
  intros next mc. exists mc. split; [|done]. apply write_eq. cbn [value].
  pose proof (uw_range 16 eq_refl i). by rewrite (uw_small 32 (u16 i)) by pow_lia.
Qed.
Lemma thumb_movw_computes s rd i : gpr rd ->
  implements s (asm_thumb_mov_reg_i16 ASM_THUMB_OP_MOVW rd i) (computes rd (fun _ => u16 i)).
Proof. intros Hd. by apply (takes_any 4), thumb_movw_takes. Qed.
Lemma thumb_movt_computes s rd i : gpr rd ->
  implements s (asm_thumb_mov_reg_i16 ASM_THUMB_OP_MOVT rd i) (computes rd (fun mc => u16 (reg rd mc) .| (u16 i << 16))).
Proof.
  intros Hd. eapply takes_any, thumb_takes; [done|apply thumb_i16_assembles; [by right|done]|].
  intros next mc. exists mc. split; [|done]. apply write_eq. rewrite read_gpr by done. bitsolve.
Qed.

Lemma u16_s32 x : u16 (s32 x) = u16 x.
Proof. transitivity (u16 (u32 (s32 x))); [bitsolve|]. rewrite uw_sw by done. bitsolve. Qed.
(** The function returns where the constant was put; no caller uses it. *)
Lemma code_pos_unused (m : M asm_thumb_t unit) s :
  ((loc ← on_base mp_asm_base_get_code_pos; m;; mret loc);; mret tt) s = m s.
Proof.
  assert (on_base mp_asm_base_get_code_pos s = Ok (code_offset (base s), s)) as E by by destruct s.
  rewrite !bind_assoc, (bind_Ok _ _ _ _ _ E), bind_assoc. rewrite <- (bind_ret_unit m s).
  by apply bind_ext.
Qed.

Lemma computes_ahead r v k n mc mc' : computes r (fun _ => v) n (set_pc (u32 (pc mc + k)) mc) mc' ->
  computes r (fun _ => v) (k + n) mc mc'.
Proof. intros (Hp & Hr & Hs). split; [|by split]. by rewrite Hp, pc_set_pc, uw_add_l, Z.add_assoc. Qed.

(** [asm_thumb_mov_reg_i32]: sixteen bits twice, or a literal. *)
Lemma thumb_mov_i32_computes s rd imm : gpr rd -> (asm_thumb_allow_armv7m = false -> low rd /\ thumb_live s) ->
  implements_when (reads_code s 0) s s (asm_thumb_mov_reg_i32 rd imm;; mret tt) (computes rd (fun _ => imm)).
Proof.
  intros Hd Hlow. destruct asm_thumb_allow_armv7m eqn:Hv.
  - apply when_implements. eapply (implements_ext _ _ (asm_thumb_mov_reg_i16 ASM_THUMB_OP_MOVW rd (s32 imm);;
      asm_thumb_mov_reg_i16 ASM_THUMB_OP_MOVT rd (imm >> 16))).
    { unfold asm_thumb_mov_reg_i32. rewrite Hv. apply code_pos_unused. }
    eapply computes_seq; [by apply thumb_movw_computes|intros bs; by apply thumb_movt_computes|].
    cbv beta. intros mc mc1 -> _. rewrite u16_s32. bitsolve.
  - destruct (Hlow eq_refl) as [Hl Hs].
    eapply (when_ext _ s s _ _ ((if negb (code_offset (base s) .& 2 =? 0) then asm_thumb_op16 ASM_THUMB_OP_NOP else mret tt);;
      thumb_literal rd imm)); [done| |].
    { unfold asm_thumb_mov_reg_i32. rewrite Hv, code_pos_unused. rewrite assert_true by apply ltb_true, Hl.
      rewrite gets_bind, assert_true by (rewrite (live_base s Hs); apply orb_true_r). done. }
    assert (forall (t : asm_thumb_t) bs mc, code_offset (base t) mod 4 = 0 -> reads_code t 0 bs mc -> readable bs mc) as Hread.
    { intros t bs mc Ht Hr. destruct (Hr Hv) as (Hp & Hc & _). split; [by rewrite Hp|done]. }
    pose proof (live_even s Hs) as He.
    assert (forall n mc mc', n = 8 /\ mc' = set_pc (u32 (pc mc + n)) (set_reg rd (u32 imm) mc) ->
      computes rd (fun _ => imm) n mc mc') as Hcomp.
    { intros n mc mc' [_ ->]. split; [done|]. split; [by rewrite reg_set_pc, reg_set_eq|]. split; [|done].
      intros q [Hq _]%not_elem_of_cons. by rewrite reg_set_pc, reg_set_ne. }
    destruct (Z.eqb_spec (code_offset (base s) .& 2) 0) as [E0|E2]; cbn [negb].
    + eapply (when_ext _ s s _ _ (thumb_literal rd imm)); [done|reflexivity|].
      eapply when_mono; [by apply thumb_literal_implements|intros bs mc; apply Hread|exact Hcomp].
      by rewrite even_mod4.
    + eapply when_mono; [apply (assembles_when (H0 := Thumb) (reads_code s 0) (fun bs => reads_code (puts bs s) 0) s _ _ _
        (fun mc mc1 => mc1 = set_pc (u32 (pc mc + 2)) mc) (computes rd (fun _ => imm)) (thumb_nop_assembles s))|done|].
      * intros mc _. by eexists.
      * intros bs Hl2. eapply when_mono; [by apply thumb_literal_implements|intros cs mc; apply Hread|exact Hcomp].
        change (base (puts bs s)) with (put_bytes bs (base s)). rewrite put_bytes_offset, (live_emits s Hs).
        change (code_len _) with 2 in Hl2. rewrite Hl2, <- Z.add_mod_idemp_l, (even_mod4 _ He) by done.
        assert (code_offset (base s) .& 2 = 2) as ->; [|done].
        pose proof (even_mod4 _ He) as E4. clear -E2 E4 He. Z.to_euclidean_division_equations. lia.
      * intros bs cs mc mc1 Hb Hr Hpc ->. apply (reads_code_rest s 0 0 bs cs mc); [done|done| |done|done|done]. by rewrite Hb.
      * intros n mc mc' (n2 & mc1 & -> & _ & -> & Hc2). change (code_len _) with 2.
        by eapply computes_ahead.
Qed.

(** ** The choice of a form *)

(** Leading and trailing zeros delimit the bits of a constant. *)
Lemma ctz_ok x : 0 < x < 2 ^ 32 -> 0 <= mp_ctz x < 32 /\ (x >> mp_ctz x) << mp_ctz x = x.
Proof.
  intros Hx. destruct x as [|p|]; try lia. destruct (ctz_pos_spec p) as (H0' & Ht & Hf).
  rewrite (mp_ctz_spec (Z.pos p) (ctz_pos p) Hx H0' Ht Hf). split.
  - split; [done|]. destruct (decide (ctz_pos p < 32)) as [|Hge]; [done|].
    rewrite Z.bits_above_log2 in Ht; [done|lia|]. pose proof (Z.log2_lt_pow2 (Z.pos p) 32 ltac:(lia)). lia.
  - apply Z.bits_inj'. intros k Hk. rewrite Z.shiftl_spec by done. destruct (decide (k < ctz_pos p)).
    + rewrite Z.testbit_neg_r by lia. symmetry. apply Hf. lia.
    + rewrite Z.shiftr_spec by lia. f_equal. lia.
Qed.
Lemma clz_ctz_byte x : 0 < x < 2 ^ 32 -> 24 <= mp_clz x + mp_ctz x -> 0 <= x >> mp_ctz x < 256.
Proof.
  intros Hx. rewrite mp_clz_spec by done. intros Hc. destruct (ctz_ok x Hx) as [Hk _]. set (k := mp_ctz x) in *.
  rewrite Z.shiftr_div_pow2 by lia. split; [apply Z.div_pos; [lia|by apply Z.pow_pos_nonneg; lia]|].
  apply Z.div_lt_upper_bound; [by apply Z.pow_pos_nonneg; lia|].
  change 256 with (2 ^ 8). rewrite <- Z.pow_add_r by lia. apply Z.log2_lt_pow2; lia.
Qed.
Lemma clz_ctz_le x : 0 < x < 2 ^ 32 -> mp_clz x + mp_ctz x <= 32.
Proof.
  intros Hx. rewrite mp_clz_spec by done. destruct (ctz_ok x Hx) as [Hk Hs].
  enough (mp_ctz x <= Z.log2 x) by lia. set (k := mp_ctz x) in *.
  apply Z.log2_le_pow2; [lia|]. rewrite Z.shiftl_mul_pow2 in Hs by lia.
  pose proof (Z.pow_pos_nonneg 2 k ltac:(lia) ltac:(lia)) as Hp. generalize (2 ^ k), (x >> k), Hp, Hs. clear -Hx.
  intros p q Hp <-. assert (0 < q) by nia. nia.
Qed.

Lemma unsigned_fit8 x : - 2 ^ 31 <= x < 2 ^ 32 -> UNSIGNED_FIT8 x = true -> 0 <= x < 256.
Proof.
  unfold UNSIGNED_FIT8. intros Hx. change 0xffffff00 with (2 ^ 32 - 2 ^ 8). rewrite fit_unsigned by done. change (2 ^ 8) with 256.
  rewrite Z.ltb_lt. clear -Hx. word_lia.
Qed.
Lemma unsigned_fit16 x : - 2 ^ 31 <= x < 2 ^ 32 -> UNSIGNED_FIT16 x = true -> 0 <= x < 2 ^ 16.
Proof.
  unfold UNSIGNED_FIT16. intros Hx. change 0xffff0000 with (2 ^ 32 - 2 ^ 16). rewrite fit_unsigned by done.
  rewrite Z.ltb_lt. clear -Hx. word_lia.
Qed.

(** Eight bits, shifted. *)
Lemma thumb_shifted_computes s rd imm : low rd -> 0 < imm < 2 ^ 32 -> 24 <= mp_clz imm + mp_ctz imm ->
  implements s (asm_thumb_mov_rlo_i8 rd (imm >> mp_ctz imm .& 0xff);; asm_thumb_lsl_rlo_rlo_i5 rd rd (mp_ctz imm))
    (computes rd (fun _ => imm)).
Proof.
  intros Hd Hi Hc. pose proof (clz_ctz_byte imm Hi Hc) as Hb. destruct (ctz_ok imm Hi) as [Hk Hs].
  assert (imm >> mp_ctz imm .& 0xff = imm >> mp_ctz imm) as ->.
  { set (v := imm >> mp_ctz imm) in *. clearbody v. bitsolve. }
  eapply computes_seq; [by apply thumb_mov_i8_computes|intros bs; by apply thumb_lsl_i5_computes|].
  cbv beta. intros mc mc1 -> _. by rewrite (uw_small 32 (imm >> _)), Hs by pow_lia.
Qed.
Lemma thumb_negated_computes s m rd imm : low rd -> implements s m (computes rd (fun _ => - imm)) ->
  implements s (m;; asm_thumb_neg_rlo_rlo rd rd) (computes rd (fun _ => imm)).
Proof.
  intros Hd Hm. eapply computes_seq; [exact Hm|intros bs; by apply thumb_neg_computes|].
  cbv beta. intros mc mc1 -> _. rewrite <- (Z.sub_0_l (u32 _)), uw_sub_r by done. f_equal. lia.
Qed.
(** Without ARMv7-M: the forms of a constant, negated afterwards or not. *)
Definition v6m_form (rd i32 : Z) (negate : bool) : M asm_thumb_t bool :=
  if 24 <=? mp_clz (u32 i32) + mp_ctz (u32 i32) then
    asm_thumb_mov_rlo_i8 rd (i32 >> mp_ctz (u32 i32) .& 0xff);;
    asm_thumb_lsl_rlo_rlo_i5 rd rd (mp_ctz (u32 i32));;
    mret negate
  else if UNSIGNED_FIT16 i32 then
    asm_thumb_mov_rlo_i16 rd i32;;
    mret negate
  else
    let '(negate, i32) := if negate then (false, s32 (- i32)) else (negate, i32) in
    asm_thumb_mov_reg_i32 rd (u32 i32);;
    mret negate.
Definition v6m_constant (rd i32 : Z) (negate : bool) : M asm_thumb_t unit :=
  negate ← v6m_form rd i32 negate;
  match negate with true => asm_thumb_neg_rlo_rlo rd rd | false => mret tt end.
Lemma bind_unit_ret {A} (m : M asm_thumb_t A) (c : bool) (k : bool -> M asm_thumb_t unit) s :
  ((m;; mret c) ≫= k) s = ((m;; mret tt);; k c) s.
Proof. rewrite !bind_assoc. by apply bind_ext. Qed.
Lemma thumb_maybe_negated s m rd imm (negate : bool) : low rd ->
  implements s m (computes rd (fun _ => if negate then - imm else imm)) ->
  implements s (m;; match negate with true => asm_thumb_neg_rlo_rlo rd rd | false => mret tt end)
    (computes rd (fun _ => imm)).
Proof.
  intros Hd Hm. destruct negate; [by apply thumb_negated_computes|].
  eapply implements_ext; [apply bind_ret_unit|]. exact Hm.
Qed.

Section Form.
Context (s : asm_thumb_t) (rd : Z) (Hv : asm_thumb_allow_armv7m = false) (Hd : low rd) (Hs : thumb_live s).

Lemma v6m_constant_computes imm (negate : bool) : - 2 ^ 31 <= imm < 2 ^ 31 ->
  0 < (if negate then - imm else imm) < 2 ^ 31 ->
  implements_when (reads_code s 0) s s (v6m_constant rd (if negate then - imm else imm) negate) (computes rd (fun _ => imm)).
Proof using Hv Hd Hs.
  intros Hi. set (i := if negate then - imm else imm). intros Hp. unfold v6m_constant, v6m_form.
  assert (u32 i = i) as Eu by (apply uw_small; pow_lia). rewrite Eu.
  destruct (Z.leb_spec 24 (mp_clz i + mp_ctz i)) as [H24|_]; [|destruct (UNSIGNED_FIT16 i) eqn:E16].
  - apply when_implements. eapply (implements_ext _ _ ((asm_thumb_mov_rlo_i8 rd (i >> mp_ctz i .& 0xff);;
      asm_thumb_lsl_rlo_rlo_i5 rd rd (mp_ctz i));; match negate with true => asm_thumb_neg_rlo_rlo rd rd | false => mret tt end));
      [seq_assoc|].
    apply thumb_maybe_negated; [done|]. apply thumb_shifted_computes; [done| |done]. split; [apply Hp|pow_lia].
  - apply when_implements. eapply (implements_ext _ _ (asm_thumb_mov_rlo_i16 rd i;;
      match negate with true => asm_thumb_neg_rlo_rlo rd rd | false => mret tt end)); [seq_assoc|].
    apply thumb_maybe_negated; [done|]. eapply implements_mono; [by apply thumb_mov_rlo_i16_computes|].
    intros n mc mc' Hc. eapply computes_ext; [exact Hc|]. cbv beta. apply unsigned_fit16 in E16; [|pow_lia].
    by rewrite (uw_small 16 i).
  - eapply (when_ext _ s s _ _ (asm_thumb_mov_reg_i32 rd (u32 imm);; mret tt)); [done| |].
    + assert ((if negate then (false, s32 (- i)) else (negate, i)) = (false, imm)) as ->; [|seq_assoc].
      subst i. destruct negate; [|done]. f_equal. rewrite Z.opp_involutive. by apply sw_small.
    + eapply when_mono; [apply (thumb_mov_i32_computes s rd (u32 imm)); auto|done|].
      intros n mc mc' Hc. eapply computes_ext; [exact Hc|]. cbv beta. by rewrite uw_uw.
Qed.
End Form.

(** The least integer has no magnitude: it is 1 shifted, of its own accord. *)
Lemma v6m_least_computes s rd : low rd ->
  implements s (v6m_constant rd (- 2 ^ 31) false) (computes rd (fun _ => - 2 ^ 31)).
Proof.
  intros Hd. unfold v6m_constant, v6m_form. change (u32 (- 2 ^ 31)) with (2 ^ 31).
  rewrite mp_clz_spec, (mp_ctz_spec (2 ^ 31) 31) by (done || (intros k Hk; apply Z.pow2_bits_false; lia)).
  eapply (implements_ext _ _ (asm_thumb_mov_rlo_i8 rd 255;; asm_thumb_lsl_rlo_rlo_i5 rd rd 31)).
  { change (24 <=? _) with true. cbv iota. change (- 2 ^ 31 >> 31 .& 0xff) with 255.
    rewrite !bind_assoc. apply bind_ext. intros [] t. etransitivity; [|apply bind_ret_unit]. seq_assoc. }
  eapply computes_seq; [by apply thumb_mov_i8_computes|intros bs; by apply thumb_lsl_i5_computes|].
  cbv beta. intros mc mc1 -> _. done.
Qed.

(** The constant that is negated, and that it is loaded by one of the forms. *)
Definition negated (imm : Z) : bool := (imm <? 0) && negb (u32 (imm + imm) .& 0xffffffff =? 0).
Lemma v6m_choice s rd imm : asm_thumb_allow_armv7m = false -> low rd -> thumb_live s ->
  - 2 ^ 31 <= imm < 2 ^ 31 -> 256 <= imm \/ imm < 0 ->
  let i := if negated imm then s32 (- imm) else imm in
  i <> 0 /\ mp_clz (u32 i) + mp_ctz (u32 i) <= 32
  /\ implements_when (reads_code s 0) s s (v6m_constant rd i (negated imm)) (computes rd (fun _ => imm)).
Proof.
  intros Hv Hl Hs Hi Hr. unfold negated.
  cbv zeta. set (negate := _ && _). destruct negate eqn:En; unfold negate in En.
  - apply andb_prop in En as [Hneg%Z.ltb_lt Hdbl]. assert (imm <> - 2 ^ 31) as Hleast by (intros ->; done).
    rewrite (sw_small 32 eq_refl) by lia. rewrite (uw_small 32) by pow_lia. split; [lia|]. split; [apply clz_ctz_le; pow_lia|].
    apply (v6m_constant_computes s rd Hv Hl Hs imm true Hi). lia.
  - destruct (decide (imm = - 2 ^ 31)) as [->|Hleast].
    + split; [done|]. split; [apply clz_ctz_le; done|]. by apply when_implements, v6m_least_computes.
    + assert (256 <= imm) as Hpos.
      { destruct Hr as [|Hneg]; [done|]. rewrite ltb_true in En by done. apply negb_false_iff, Z.eqb_eq in En.
        change 0xffffffff with (Z.ones 32) in En. rewrite Z.land_ones in En by done.
        exfalso. revert En Hleast Hi Hneg. clear. unfold uw. intros. rewrite Z.mod_mod in En by done. word_lia. }
      rewrite (uw_small 32) by pow_lia. split; [lia|]. split; [apply clz_ctz_le; pow_lia|].
      apply (v6m_constant_computes s rd Hv Hl Hs imm false Hi). lia.
Qed.

(** [asm_thumb_mov_reg_i32_optimised] loads every constant, by whatever form. *)
Lemma thumb_mov_i32_optimised_computes s rd imm : gpr rd -> - 2 ^ 31 <= imm < 2 ^ 31 ->
  (asm_thumb_allow_armv7m = false -> low rd /\ thumb_live s) ->
  implements_when (reads_code s 0) s s (asm_thumb_mov_reg_i32_optimised rd imm) (computes rd (fun _ => imm)).
Proof.
  intros Hd Hi Hlow. unfold asm_thumb_mov_reg_i32_optimised.
  destruct ((rd <? 8) && UNSIGNED_FIT8 imm) eqn:E8.
  { apply andb_prop in E8 as [Hr%Z.ltb_lt Hf]. apply unsigned_fit8 in Hf; [|lia].
    apply when_implements, thumb_mov_i8_computes; [|done]. unfold low, gpr in *. lia. }
  destruct asm_thumb_allow_armv7m eqn:Hv.
  - destruct (UNSIGNED_FIT16 imm) eqn:E16.
    + apply unsigned_fit16 in E16; [|lia]. apply when_implements. eapply implements_mono; [by apply thumb_movw_computes|].
      intros n mc mc' Hc. eapply computes_ext; [exact Hc|]. cbv beta. by rewrite (uw_small 16 imm).
    + eapply when_mono; [apply (thumb_mov_i32_computes s rd (u32 imm) Hd); by rewrite Hv|done|].
      intros n mc mc' Hc. eapply computes_ext; [exact Hc|]. cbv beta. by rewrite uw_uw.
  - destruct (Hlow eq_refl) as [Hl Hs]. cbv zeta.
    assert (256 <= imm \/ imm < 0) as Hr.
    { rewrite ltb_true in E8 by apply Hl. destruct (Z.ltb_spec imm 256); [|by left]. destruct (Z.ltb_spec imm 0); [by right|].
      exfalso. revert E8. unfold UNSIGNED_FIT8. change 0xffffff00 with (2 ^ 32 - 2 ^ 8). rewrite fit_unsigned by done.
      rewrite uw_small, ltb_true by pow_lia. done. }
    set (negate := (imm <? 0) && negb (u32 (imm + imm) .& 0xffffffff =? 0)).
    set (i := if negate then s32 (- imm) else imm).
    assert (i <> 0 /\ mp_clz (u32 i) + mp_ctz (u32 i) <= 32 /\
      implements_when (reads_code s 0) s s (v6m_constant rd i negate) (computes rd (fun _ => imm))) as (Hne & Hle & Hc).
    { by apply v6m_choice. }
    eapply (when_ext _ s s _ _ (v6m_constant rd i negate)); [done| |exact Hc].
    rewrite assert_true by apply ltb_true, Hl. destruct (Z.eqb_spec i 0); [done|]. cbn [negb].
    rewrite assert_true by by apply leb_true. done.
Qed.
End Constants.
