(* ===== verification/AsmThumbMem.v ===== *)
(** * AsmThumbMem: moves, loads, stores and locals of asmthumb.c

    An access is one instruction where its offset and its registers allow; if
    not, the address is computed first, in the register to be loaded or, for
    a store, in the base, which is saved on the stack meanwhile. *)

From S2P Require Import Prelude AsmBase TwoPass PyMisc Machine Emission AsmThumb ArmIsa ArmEffect AsmThumbInstr AsmThumbImm.

Set Default Goal Selector "!".

#[local] Existing Instance SizeT_32.
#[local] Hint Extern 0 Isa => exact Thumb : typeclass_instances.

(** ** One instruction *)

Lemma thumb_performs s m op len f : assembles s m [((14, op), len)] ->
  (forall next mc, exec_op true op next mc = Some (set_pc next (f mc))) -> performs s m f.
Proof.
  intros Ha Hx. eapply assembles_performs; [exact Ha|]. intros mc _. cbn [code_len foldr snd]. rewrite Z.add_0_r.
  transitivity (m' ← exec_op true op (u32 (pc mc + len)) mc; Some m'); [done|]. by rewrite Hx.
Qed.

(** A high register is one of eight, and a bit. *)
Lemma high_register r : gpr r -> (r <? 8) = false -> exists x, 0 <= x < 8 /\ r = 8 .| x /\ r - 8 = x.
Proof.
  unfold gpr. intros Hr H8%Z.ltb_ge. exists (r - 8). split; [lia|]. split; [|done].
  assert (r = 8 \/ r = 9 \/ r = 10 \/ r = 11 \/ r = 12 \/ r = 13 \/ r = 14) as Hc by lia.
  by repeat destruct Hc as [->|Hc]; [..|subst].
Qed.
Lemma thumb_mov_reg_performs s rd rn : gpr rd -> gpr rn ->
  performs s (asm_thumb_mov_reg_reg rd rn) (fun mc => set_reg rd (u32 (reg rn mc)) mc).
Proof.
  intros Hd Hn. apply (thumb_performs _ _ (MOV false rd (Shifted rn 0)) 2).
  2: { intros next mc. cbn [exec_op]. by rewrite value_reg, write_gpr. }
  unfold asm_thumb_mov_reg_reg. cbv zeta.
  destruct (rd <? 8) eqn:Ed, (rn <? 8) eqn:En;
    repeat match goal with
    | E : (?r <? 8) = false, Hr : gpr ?r |- _ => destruct (high_register r Hr E) as (? & ? & -> & ->); clear Hr E
    | E : (?r <? 8) = true, Hr : gpr ?r |- _ => apply Z.ltb_lt in E; assert (0 <= r < 8) by (split; [apply Hr|done]); clear Hr E
    end; t16 ltac:(field 10 1; unfold decode_high; field 8 2; cbv zeta).
Qed.

(** ** Loads and stores of one instruction *)

(** The third argument of the generic functions. *)
Definition size_number (sz : size) : Z := match sz with Byte => 0 | Half => 1 | Word => 2 end.
Definition scale_of (sz : size) : Z := Z.of_nat (bytes sz).

Definition access_code (sz : size) : Z := match sz with Byte => 14 | Half => 16 | Word => 12 end.
Lemma op_ldr_str_value sz : op_ldr_str (size_number sz) = access_code sz.
Proof. by destruct sz. Qed.

Section Access.
Context (s : asm_thumb_t) (l : bool) (sz : size) (rd rn : Z) (Hd : gpr rd) (Hn : gpr rn).

Lemma thumb_access_performs op off (a : machine -> Z) len : assembles s op [((14, ldst l sz rd rn off), len)] ->
  (forall m, address true rn off m = a m) -> performs s op (fun mc => access l sz rd (a mc) mc).
Proof using Hd.
  intros Ha He. apply (thumb_performs _ _ _ _ _ Ha). intros next mc. destruct l; cbn [ldst exec_op access]; rewrite He.
  - unfold load_reg. by rewrite gpr_not_pc.
  - by rewrite read_gpr.
Qed.

(** The operations that a load or a store chooses from. *)
Definition narrow_access (off : Z) : M asm_thumb_t unit :=
  asm_thumb_op16 ((op_ldr_str (size_number sz) .| (if l then OP_LDR else OP_STR)) << 11 .| off << 6 .| rn << 3 .| rd).
Definition wide_access (off : Z) : M asm_thumb_t unit :=
  asm_thumb_op32 (OP_LDR_STR_W_HI (size_number sz) rn .| (if l then OP_LDR_W else OP_STR_W)) (OP_LDR_STR_W_LO rd off).

Lemma narrow_access_performs off : low rd -> low rn -> 0 <= off < 32 ->
  performs s (narrow_access off) (fun mc => access l sz rd (u32 (reg rn mc + scale_of sz * off)) mc).
Proof using Hd Hn.
  intros Ld Ln Ho. low_ranges. eapply (thumb_access_performs _ (OffImm (match sz with Byte => off | Half => 2 * off | Word => 4 * off end)) _ 2).
  - unfold narrow_access, OP_LDR, OP_STR. rewrite op_ldr_str_value. destruct sz, l; simpl access_code;
      t16 ltac:(try (field 11 1; cbv beta iota zeta delta [access_op Z.eqb])).
  - intros m. rewrite address_imm by done. destruct sz; [change (scale_of Byte) with 1; by rewrite Z.mul_1_l|done|done].
Qed.
Lemma wide_access_performs off : 0 <= off < 4096 ->
  performs s (wide_access off) (fun mc => access l sz rd (u32 (reg rn mc + off)) mc).
Proof using Hd Hn.
  intros Ho. assert (0 <= rd < 16) by (unfold gpr in *; lia). assert (0 <= rn < 16) by (unfold gpr in *; lia).
  eapply (thumb_access_performs _ (OffImm off) _ 4); [|intros m; by apply address_imm].
  unfold wide_access, OP_LDR_STR_W_HI, OP_LDR_STR_W_LO, OP_LDR_W, OP_STR_W.
  destruct sz, l; cbn [size_number]; (apply assembles_op32; [field 11 5; reflexivity|]);
    unfold decode_thumb32; field 11 5; field 7 9; field 5 2; cbv beta iota delta [size_of mbind option_bind];
    field 4 1; cbv beta iota zeta delta [access_op Z.eqb ldst]; operands.
Qed.
(** Base plus index. *)
Definition index_word : Z :=
  match sz, l with
  | Word, true => ASM_THUMB_FORMAT_7_LDR .| ASM_THUMB_FORMAT_7_WORD_TRANSFER
  | Word, false => ASM_THUMB_FORMAT_7_STR .| ASM_THUMB_FORMAT_7_WORD_TRANSFER
  | Half, true => ASM_THUMB_FORMAT_8_LDRH | Half, false => ASM_THUMB_FORMAT_8_STRH
  | Byte, true => ASM_THUMB_FORMAT_7_LDR .| ASM_THUMB_FORMAT_7_BYTE_TRANSFER
  | Byte, false => ASM_THUMB_FORMAT_7_STR .| ASM_THUMB_FORMAT_7_BYTE_TRANSFER
  end.
Lemma index_access_performs ri : low rd -> low rn -> low ri ->
  performs s (asm_thumb_format_7_8 index_word rd rn ri) (fun mc => access l sz rd (u32 (reg rn mc + reg ri mc)) mc).
Proof using Hd Hn.
  intros Ld Ln Li. low_ranges. eapply (thumb_access_performs _ (OffReg ri 0) _ 2).
  - unfold index_word. destruct sz, l; t16_op ltac:(unfold decode_register_offset; field 9 3).
  - intros m. rewrite address_reg by (done || by apply low_gpr). by rewrite Z.shiftl_0_r.
Qed.
End Access.

(** ** A register saved on the stack *)

Definition pushed_reg (r : Z) (mc : machine) : machine :=
  set_reg 13 (u32 (reg 13 mc - 4)) (set_mem (store 32 4 (mem mc) (u32 (reg 13 mc - 4)) (u32 (reg r mc))) mc).
Definition popped_reg (r : Z) (mc : machine) : machine :=
  set_reg r (load 32 4 (mem mc) (u32 (reg 13 mc))) (set_reg 13 (u32 (u32 (reg 13 mc) + 4)) mc).

Section Saved.
Context (r : Z) (Hr : low r).

Lemma push_assembles s : assembles s (asm_thumb_op16 (OP_PUSH_RLIST (1 << r))) [((14, PUSH (1 << r)), 2)].
Proof using Hr. unfold low in Hr. enumerate 8%nat r; by apply assembles_op16. Qed.
Lemma pop_assembles s : assembles s (asm_thumb_op16 (OP_POP_RLIST (1 << r))) [((14, POP (1 << r)), 2)].
Proof using Hr. unfold low in Hr. enumerate 8%nat r; by apply assembles_op16. Qed.
Lemma push_exec mc : exec_straight (H := Thumb) [((14, PUSH (1 << r)), 2)] mc
  = Some (set_pc (u32 (pc mc + 2)) (pushed_reg r mc)).
Proof using Hr.
  assert (forall next, exec_op true (PUSH (1 << r)) next mc = Some (set_pc next (pushed_reg r mc))) as E.
  { intros next. transitivity (Some (set_pc next (set_reg 13 (u32 (reg 13 mc - 4)) (set_mem (store_words (u32 (reg 13 mc - 4)) [read true r mc] (mem mc)) mc)))).
    - unfold low in Hr. by enumerate 8%nat r.
    - cbn [store_words]. by rewrite read_gpr by by apply low_gpr. }
  transitivity (m' ← exec_op true (PUSH (1 << r)) (u32 (pc mc + 2)) mc; Some m'); [done|]. by rewrite E.
Qed.
Lemma pop_exec mc : exec_straight (H := Thumb) [((14, POP (1 << r)), 2)] mc
  = Some (set_pc (u32 (pc mc + 2)) (popped_reg r mc)).
Proof using Hr.
  transitivity (m' ← exec_op true (POP (1 << r)) (u32 (pc mc + 2)) mc; Some m'); [done|].
  unfold low in Hr. by enumerate 8%nat r.
Qed.
End Saved.

(** The [k] bytes below the stack pointer may be lost, other registers than
    those of [X] keep their words. *)
Definition keeps_above (k : Z) (h : gmap Z Z) (mc mc' : machine) : Prop :=
  forall x, k <= u32 (x - (reg 13 mc - k)) -> peek 32 (mem mc') x = peek 32 h x.
Definition keeps_words (X : list Z) (mc mc' : machine) : Prop :=
  forall q, q ∉ X -> u32 (reg q mc') = u32 (reg q mc).

Section Bracket.
Context `{ThumbConfig} `{PyMisc} (s : asm_thumb_t) (r : Z) (Hr : low r).
Definition saving (m : M asm_thumb_t unit) : M asm_thumb_t unit :=
  asm_thumb_op16 (OP_PUSH_RLIST (1 << r));; m;; asm_thumb_op16 (OP_POP_RLIST (1 << r)).

(** What [m] does from [pushed_reg], and the register is there again. *)
Lemma saving_when (C D : list Z -> machine -> Prop) m Q :
  (forall bs, Z.of_nat (length bs) = 2 -> implements_when D (puts bs s) (puts bs s) m
     (fun n mc mc' => pc mc' = u32 (pc mc + n) /\ Q mc mc')) ->
  (forall bs cs mc, Z.of_nat (length bs) = 2 -> C (bs ++ cs) mc -> D cs (set_pc (u32 (pc mc + 2)) (pushed_reg r mc))) ->
  (forall bs cs mc, D (bs ++ cs) mc -> D bs mc) ->
  implements_when C s s (saving m) (fun n mc mc' => exists mc1,
    pc mc' = u32 (pc mc + n) /\ Q (set_pc (u32 (pc mc + 2)) (pushed_reg r mc)) mc1 /\ mc' = set_pc (pc mc') (popped_reg r mc1)).
Proof using Hr.
  intros Hm HCD Hpre. eapply when_mono; [apply (assembles_when (H0 := Thumb) C (fun _ => D) s _ _ _
    (fun mc mc1 => mc1 = set_pc (u32 (pc mc + 2)) (pushed_reg r mc))
    (fun n mc mc' => exists mc1, pc mc' = u32 (pc mc + n) /\ Q mc mc1 /\ mc' = set_pc (pc mc') (popped_reg r mc1)) (push_assembles r Hr s))|done|].
  - intros mc _. rewrite (push_exec r Hr). by eexists.
  - intros bs Hl. change (code_len _) with 2 in Hl. eapply when_mono; [eapply (when_then _ D (fun _ _ => True) _ _ _
      (fun _ => Q)); [by apply Hm|intros cs; apply when_implements; eapply (assembles_performs (H0 := Thumb) _ _ _ (popped_reg r));
        [by apply pop_assembles|intros mc _; by apply pop_exec]|]|done|].
    + intros cs ds mc Hr'. split; [by eapply Hpre|done].
    + intros n mc mc' (n1 & n2 & mc1 & -> & Hp & HQ & ->). exists mc1. change addr_width with 32 in *.
      rewrite !pc_set_pc, Hp, uw_add_l, <- Z.add_assoc by done. done.
  - intros bs cs mc mc1 Hl Hrd _ ->. change (code_len _) with 2 in Hl. by eapply HCD.
  - intros n mc mc' (n2 & m1 & -> & _ & -> & mc1 & Hp & HQ & E). exists mc1. change (code_len _) with 2.
    split; [|by split]. by rewrite Hp, pc_set_pc, uw_add_l, Z.add_assoc.
Qed.

(** The code may read its words but for those below the stack pointer. *)
Lemma saving_implements k m Q : thumb_live s -> 0 <= k < 2 ^ 32 - 4 ->
  (forall bs, Z.of_nat (length bs) = 2 -> implements_when (reads_code (puts bs s) k) (puts bs s) (puts bs s) m
     (fun n mc mc' => pc mc' = u32 (pc mc + n) /\ Q mc mc')) ->
  implements_when (reads_code s (k + 4)) s s (saving m) (fun n mc mc' => exists mc1,
    pc mc' = u32 (pc mc + n) /\ Q (set_pc (u32 (pc mc + 2)) (pushed_reg r mc)) mc1 /\ mc' = set_pc (pc mc') (popped_reg r mc1)).
Proof using Hr.
  intros Hs Hk Hm. apply (saving_when _ (reads (code_offset (base s) + 2) k)); [| |intros bs cs mc; apply reads_app].
  - intros bs Hl. specialize (Hm bs Hl). unfold reads_code in Hm. change (base (puts bs s)) with (put_bytes bs (base s)) in Hm.
    by rewrite put_bytes_offset, (live_emits s Hs), Hl in Hm.
  - intros bs cs mc Hl. rewrite <- Hl. apply (reads_rest _ (k + 4) k bs cs mc); [lia|by rewrite Hl| |].
    + unfold pushed_reg. rewrite reg_set_pc, reg_set_eq, uw_sub_l by done. f_equal. lia.
    + intros x Hx. unfold pushed_reg. cbn [mem set_pc set_reg set_mem]. rewrite peek_store by (done || pow_lia).
      rewrite ltb_false; [done|]. rewrite uw_sub_r by done.
      replace (x - (reg 13 mc - 4)) with (x - (reg 13 mc - (k + 4)) - k) by lia. rewrite <- uw_sub_l by done.
      pose proof (uw_range 32 eq_refl (x - (reg 13 mc - (k + 4)))). rewrite uw_small by lia. lia.
Qed.
End Bracket.

(** ** Base plus a large offset *)

Lemma low_not_flag r : low r -> r ∉ flags.
Proof. unfold low, flags, NF, ZF, CF, VF. intros Hr. repeat (apply not_elem_of_cons; split; [lia|]). apply not_elem_of_nil. Qed.
Lemma thumb_mov_reg_computes s rd rn : gpr rd -> gpr rn ->
  implements s (asm_thumb_mov_reg_reg rd rn) (computes rd (fun mc => reg rn mc)).
Proof.
  intros Hd Hn. eapply implements_mono; [by apply thumb_mov_reg_performs|]. intros n mc mc' ->. split; [done|].
  split; [by rewrite reg_set_pc, reg_set_eq|]. split; [|done]. intros q [Hq _]%not_elem_of_cons. by rewrite reg_set_pc, reg_set_ne.
Qed.

Definition adds (rd rb v : Z) (mc mc' : machine) : Prop :=
  reg rd mc' = u32 (reg rb mc + v) /\ keeps_words (rd :: flags) mc mc' /\ keeps_above 4 (mem mc) mc mc'.
Lemma computes_adds rd rb v w n mc mc' : computes rd w n mc mc' -> u32 (w mc) = u32 (reg rb mc + v) ->
  pc mc' = u32 (pc mc + n) /\ adds rd rb v mc mc'.
Proof.
  intros (Hp & Hr & Hk & Hm) E. split; [done|]. split; [by rewrite Hr|]. split.
  - intros q Hq. by rewrite Hk.
  - intros x _. by rewrite Hm.
Qed.

Section AddOffset.
Context `{ThumbConfig} `{PyMisc} (s : asm_thumb_t) (rd rb off sh : Z) (Hd : low rd) (Hb : low rb) (Hs : thumb_live s).
Hypothesis Hsh : 0 <= sh <= 2.
Hypothesis Hoff : 0 <= off /\ 0 <= off << sh < 2 ^ 31.
Abbreviation v := (off << sh).

Lemma add_small_computes : v < 256 ->
  implements s ((if negb (rd =? rb) then asm_thumb_mov_reg_reg rd rb else mret tt);; asm_thumb_add_rlo_i8 rd (s32 v))
    (computes rd (fun mc => reg rb mc + v)).
Proof using Hd Hb Hoff.
  intros Hv. rewrite (sw_small 32 eq_refl v) by pow_lia. destruct (Z.eqb_spec rd rb) as [<-|Hne]; cbn [negb].
  - eapply implements_ext; [reflexivity|]. apply thumb_add_i8_computes; [done|lia].
  - eapply computes_seq; [apply thumb_mov_reg_computes; by apply low_gpr|intros bs; apply thumb_add_i8_computes; [done|lia]|].
    cbv beta. intros mc mc1 -> _. by rewrite uw_add_l.
Qed.
(** The offset in the destination, the base added to it. *)
Lemma add_base_computes m C : rd <> rb -> implements_when C s s m (computes rd (fun _ => v)) ->
  (forall bs cs mc, C (bs ++ cs) mc -> C bs mc) ->
  implements_when C s s (m;; asm_thumb_add_rlo_rlo_rlo rd rd rb) (computes rd (fun mc => reg rb mc + v)).
Proof using Hd Hb.
  intros Hne Hm HC. eapply when_mono; [eapply (when_then C C (fun _ _ => True) s m _ (computes rd (fun _ => v)))|done|].
  - eapply when_mono; [exact Hm|done|]. intros n mc mc' Hc. split; [apply Hc|exact Hc].
  - intros bs. apply when_implements. by apply thumb_add_computes.
  - intros bs cs mc Hr. split; [by eapply HC|done].
  - intros n mc mc' (n1 & n2 & mc1 & -> & _ & H1 & H2). eapply computes_trans; [exact H1|exact H2|].
    cbv beta. intros -> [Hk _]. rewrite uw_add_l, (Hk rb), Z.add_comm by (done || (apply not_elem_of_cons; split; [done|by apply low_not_flag])). done.
Qed.

(** With one register, another one holds the offset meanwhile. *)
Abbreviation other := (rd .^ 7).
Lemma other_register : low other /\ other <> rd.
Proof using Hd. unfold low in *. by enumerate 8%nat rd. Qed.

Definition added_with (o : Z) (mc mc' : machine) : Prop :=
  reg rd mc' = u32 (reg rd mc + v) /\ same_except (rd :: o :: flags) mc mc'.
Lemma add_other_implements t : thumb_live t -> implements_when (reads_code t 0) t t
  (asm_thumb_mov_reg_i32_optimised other (s32 v);; asm_thumb_add_rlo_rlo_rlo rd rd other)
  (fun n mc mc' => pc mc' = u32 (pc mc + n) /\ added_with other mc mc').
Proof using Hd Hoff.
  intros Ht. destruct other_register as [Ho Hne]. rewrite (sw_small 32 eq_refl v) by pow_lia.
  eapply when_mono; [eapply (when_then (reads_code t 0) (reads_code t 0) (fun _ _ => True) t _ _ (computes other (fun _ => v)))|done|].
  - eapply when_mono; [apply thumb_mov_i32_optimised_computes; [by apply low_gpr|pow_lia|done]|done|]. intros n mc mc' Hc. split; [apply Hc|exact Hc].
  - intros bs. apply when_implements. by apply thumb_add_computes.
  - intros bs cs mc Hr. split; [by eapply reads_app|done].
  - intros n mc mc' (n1 & n2 & mc1 & -> & Hp1 & (_ & Hr1 & Hk1 & Hm1) & (Hp2 & Hr2 & Hk2 & Hm2)).
    split; [by rewrite Hp2, Hp1, uw_add_l, Z.add_assoc|]. split.
    + rewrite Hr2, Hr1, uw_add_r by done. rewrite Hk1; [done|]. apply not_elem_of_cons. split; [done|by apply low_not_flag].
    + split; [|congruence]. intros q [Hq [Hq' Hf]%not_elem_of_cons]%not_elem_of_cons.
      rewrite Hk2 by by apply not_elem_of_cons. apply Hk1. by apply not_elem_of_cons.
Qed.

Lemma popped_adds mc mc1 p : added_with other (set_pc p (pushed_reg other mc)) mc1 ->
  adds rd rd v mc (set_pc p (popped_reg other mc1)).
Proof using Hd.
  intros [Hr [Hk Hm]]. destruct other_register as [Ho Hne].
  assert (forall q, q ∉ flags -> q <> rd -> q <> other -> reg q mc1 = reg q (pushed_reg other mc)) as Hq.
  { intros q Hf H1 H2. rewrite Hk; [done|]. apply not_elem_of_cons. split; [done|]. by apply not_elem_of_cons. }
  assert (low rd -> 13 <> rd) as H13 by (unfold low; lia). assert (13 <> other) as H13' by (unfold low in Ho; lia).
  assert (reg 13 mc1 = u32 (reg 13 mc - 4)) as Esp.
  { rewrite Hq; [unfold pushed_reg; by rewrite reg_set_eq| |by apply H13|done].
    unfold flags, NF, ZF, CF, VF. repeat (apply not_elem_of_cons; split; [done|]). apply not_elem_of_nil. }
  unfold popped_reg. split; [|split].
  - rewrite reg_set_pc, reg_set_ne, reg_set_ne, Hr by (done || by apply not_eq_sym, H13).
    rewrite reg_set_pc. unfold pushed_reg. by rewrite reg_set_ne by by apply not_eq_sym, H13.
  - intros q [Hqd Hqf]%not_elem_of_cons. rewrite reg_set_pc. destruct (decide (q = other)) as [->|Hqo]; [|rewrite reg_set_ne by done; destruct (decide (q = 13)) as [->|Hq13]].
    + rewrite reg_set_eq, Hm, Esp, uw_uw by done. cbn [mem set_pc pushed_reg set_reg set_mem].
      rewrite load_store_same by done. change (8 * Z.of_nat 4) with 32. by rewrite !uw_uw.
    + rewrite reg_set_eq, Esp, !uw_uw, uw_add_l by done. f_equal. lia.
    + rewrite reg_set_ne, Hq by done. unfold pushed_reg. by rewrite reg_set_ne.
  - intros x Hx. cbn [mem set_pc set_reg]. rewrite Hm. cbn [mem set_pc pushed_reg set_reg set_mem].
    rewrite peek_store by (done || pow_lia). rewrite uw_sub_r, ltb_false by done. done.
Qed.

Lemma add_offset_implements : implements_when (reads_code s 4) s s (asm_thumb_add_reg_reg_offset rd rb off sh)
  (fun n mc mc' => pc mc' = u32 (pc mc + n) /\ adds rd rb v mc mc').
Proof using Hd Hb Hs Hsh Hoff.
  assert (forall bs mc, reads_code s 4 bs mc -> reads_code s 0 bs mc) as H40.
  { intros bs mc Hr Hv. destruct (Hr Hv) as (? & ? & _). split; [done|]. split; [done|]. intros i _. by apply uw_range. }
  unfold asm_thumb_add_reg_reg_offset. rewrite !ltb_true by (apply Hd || apply Hb). cbn [andb].
  rewrite (uw_small 32 v) by pow_lia. destruct (Z.ltb_spec v 256) as [Hv|Hv].
  { eapply when_mono; [apply when_implements; by apply add_small_computes|done|].
    intros n mc mc' Hc. by eapply computes_adds. }
  assert (forall n mc mc', computes rd (fun mc => reg rb mc + v) n mc mc' -> pc mc' = u32 (pc mc + n) /\ adds rd rb v mc mc') as Hca.
  { intros n mc mc' Hc. by eapply computes_adds. }
  destruct (Z.eqb_spec rd rb) as [E|Hne]; cbn [negb]; rewrite ?andb_false_r, ?andb_true_r.
  - subst rb. destruct other_register as [Ho _].
    eapply (when_ext _ s s _ _ (saving other (asm_thumb_mov_reg_i32_optimised other (s32 v);; asm_thumb_add_rlo_rlo_rlo rd rd other)));
      [done|seq_assoc|].
    eapply when_mono; [apply (saving_implements s other Ho 0 _ (added_with other)); [done|done|]|done|].
    + intros bs Hl. apply add_other_implements. apply live_puts; [done|by rewrite Hl].
    + intros n mc mc' (mc1 & Hp & Ha & E). split; [done|]. rewrite E. eapply popped_adds, Ha.
  - destruct (UNSIGNED_FIT8 off) eqn:E8.
    + eapply (when_ext _ s s _ _ ((asm_thumb_mov_rlo_i8 rd (s32 off);; asm_thumb_lsl_rlo_rlo_i5 rd rd sh);; asm_thumb_add_rlo_rlo_rlo rd rd rb)); [done|seq_assoc|].
      eapply when_mono; [apply (add_base_computes _ (fun _ _ => True)); [done| |done]|done|exact Hca].
      assert (off <= v) by (rewrite Z.shiftl_mul_pow2 by lia; pose proof (Z.pow_pos_nonneg 2 sh ltac:(lia) ltac:(lia)); nia).
      apply unsigned_fit8 in E8; [|pow_lia]. rewrite (sw_small 32 eq_refl off) by pow_lia.
      apply when_implements. eapply computes_seq; [by apply thumb_mov_i8_computes|intros bs; apply thumb_lsl_i5_computes; [done|done|lia]|].
      cbv beta. intros mc mc1 -> _. by rewrite (uw_small 32 off) by pow_lia.
    + eapply when_mono; [apply (add_base_computes _ (reads_code s 0)); [done| |intros bs cs mc; apply reads_app]|exact H40|exact Hca].
      rewrite (sw_small 32 eq_refl v) by pow_lia. apply thumb_mov_i32_optimised_computes; [by apply low_gpr|pow_lia|done].
Qed.
End AddOffset.

(** ** Loads and stores with an offset *)

(** The accessed bytes are not among the [k] below the stack pointer. *)
Definition apart (k : Z) (sz : size) (a : Z) (mc : machine) : Prop :=
  forall i, (i < bytes sz)%nat -> k <= u32 (a + Z.of_nat i - (reg 13 mc - k)).
Definition loads (sz : size) (rd : Z) (a : machine -> Z) (mc mc' : machine) : Prop :=
  reg rd mc' = load 32 (bytes sz) (mem mc) (a mc) /\ keeps_words (rd :: flags) mc mc' /\ keeps_above 4 (mem mc) mc mc'.
Definition stores (sz : size) (rs : Z) (a : machine -> Z) (mc mc' : machine) : Prop :=
  keeps_words flags mc mc' /\ keeps_above 8 (store 32 (bytes sz) (mem mc) (a mc) (u32 (reg rs mc))) mc mc'.

Lemma not_flag_13 : 13 ∉ flags.
Proof. unfold flags, NF, ZF, CF, VF. repeat (apply not_elem_of_cons; split; [done|]). apply not_elem_of_nil. Qed.

(** The bytes of a store at [a] that is apart from those at [x]. *)
Lemma peek_store_apart k sz h a v mc x : apart k sz a mc -> u32 (x - (reg 13 mc - k)) < k ->
  peek 32 (store 32 (bytes sz) h a v) x = peek 32 h x.
Proof.
  intros Ha Hx. rewrite peek_store by (done || by destruct sz). destruct (Z.ltb_spec (u32 (x - a)) (Z.of_nat (bytes sz))) as [Hlt|]; [|done].
  pose proof (uw_range 32 eq_refl (x - a)) as Hr. specialize (Ha (Z.to_nat (u32 (x - a))) ltac:(lia)). rewrite Z2Nat.id in Ha by lia.
  replace (u32 (a + u32 (x - a) - (reg 13 mc - k))) with (u32 (x - (reg 13 mc - k))) in Ha; [lia|].
  rewrite <- (uw_sub_l 32 eq_refl (a + _)), uw_add_r, uw_sub_l by done. f_equal. lia.
Qed.

(** A store by code that saves register [r] and may change it. *)
Section SavedStore.
Context (r rs a p : Z) (sz : size) (mc mc1 : machine) (Hr : low r) (Hs : low rs) (Hne : rs <> r).
Abbreviation ma := (set_pc p (pushed_reg r mc)).
Hypothesis Hk : keeps_words (r :: flags) ma mc1.
Hypothesis Hm : keeps_above 4 (store 32 (bytes sz) (mem ma) a (u32 (reg rs ma))) ma mc1.
Hypothesis Ha : apart 8 sz a mc.

Lemma sp_not : 13 <> r.
Proof using Hr. unfold low in Hr. lia. Qed.
Lemma saved_sp : u32 (reg 13 mc1) = u32 (reg 13 mc - 4).
Proof using Hk Hr.
  rewrite Hk by (apply not_elem_of_cons; split; [by apply sp_not|apply not_flag_13]).
  unfold pushed_reg. by rewrite reg_set_pc, reg_set_eq, uw_uw.
Qed.
Lemma saved_reg : load 32 4 (mem mc1) (u32 (reg 13 mc1)) = u32 (reg r mc).
Proof using Hk Hm Ha Hr.
  rewrite saved_sp. transitivity (u32 (u32 (reg r mc))); [|by apply uw_uw].
  etransitivity; [|exact (load_store_same 32 eq_refl 4 (mem mc) (u32 (reg 13 mc - 4)) (u32 (reg r mc)) ltac:(done))].
  apply load_ext. intros i Hi.
  assert (u32 (u32 (reg 13 mc - 4) + Z.of_nat i - (reg 13 mc - 8)) = 4 + Z.of_nat i) as E.
  { rewrite <- uw_sub_l, uw_add_l, uw_sub_l by done. rewrite <- (uw_small 32 (4 + Z.of_nat i)) by pow_lia. f_equal. lia. }
  rewrite Hm.
  - eapply (peek_store_apart 8 sz _ a _ mc); [done|]. rewrite E. lia.
  - unfold pushed_reg. rewrite reg_set_pc, reg_set_eq, <- uw_sub_r, uw_sub_l, uw_sub_r by done.
    replace (reg 13 mc - 4 - 4) with (reg 13 mc - 8) by lia. rewrite E. lia.
Qed.
Lemma saved_stores n : stores sz rs (fun _ => a) mc (set_pc n (popped_reg r mc1)).
Proof using All.
  pose proof sp_not as H13. split.
  - intros q Hq. rewrite reg_set_pc. unfold popped_reg. destruct (decide (q = r)) as [->|Hqr]; [by rewrite reg_set_eq, saved_reg, uw_uw|].
    rewrite reg_set_ne by done. destruct (decide (q = 13)) as [->|Hq13].
    + rewrite reg_set_eq, saved_sp, !uw_uw, uw_add_l by done. f_equal. lia.
    + rewrite reg_set_ne, Hk by (done || by apply not_elem_of_cons). unfold pushed_reg. by rewrite reg_set_pc, reg_set_ne.
  - intros x Hx. cbn [mem set_pc popped_reg set_reg]. rewrite Hm.
    + assert (rs <> 13) by (unfold low in Hs; lia). rewrite !peek_store by (done || by destruct sz). unfold pushed_reg.
      rewrite reg_set_pc, reg_set_ne, reg_set_mem by done. destruct (_ <? _); [done|]. cbn [mem set_pc set_reg set_mem].
      rewrite peek_store by (done || pow_lia). rewrite uw_sub_r, ltb_false; [done| |done].
      replace (x - (reg 13 mc - 4)) with (x - (reg 13 mc - 8) - 4) by lia. rewrite <- uw_sub_l by done.
      pose proof (uw_range 32 eq_refl (x - (reg 13 mc - 8))). rewrite uw_small by lia. lia.
    + unfold pushed_reg. rewrite reg_set_pc, reg_set_eq.
      replace (u32 (x - (u32 (reg 13 mc - 4) - 4))) with (u32 (x - (reg 13 mc - 8))); [lia|].
      symmetry. rewrite <- uw_sub_r, uw_sub_l, uw_sub_r by done. f_equal. lia.
Qed.
End SavedStore.

Section OffsetAccess.
Context `{ThumbConfig} `{PyMisc} (s : asm_thumb_t) (sz : size) (rd rb off : Z) (Hd : low rd) (Hb : low rb) (Hs : thumb_live s).
Hypothesis Hoff : 0 <= off < 2 ^ 28.
Abbreviation address_of := (fun mc => u32 (reg rb mc + scale_of sz * off)).

Lemma shift_scale x : 0 <= x -> x << size_number sz = scale_of sz * x.
Proof using.
  intros Hx. destruct sz; unfold scale_of; cbn [size_number bytes]; rewrite Z.shiftl_mul_pow2 by done; lia.
Qed.
Lemma scale_bounds : 1 <= scale_of sz <= 4.
Proof using. by destruct sz. Qed.

Lemma far_offset : 32 <= off -> 0 <= off - 31 /\ 0 <= (off - 31) << size_number sz < 2 ^ 31.
Proof using Hoff. intros Hfar. rewrite shift_scale by lia. split; [lia|]. revert Hoff. unfold scale_of. destruct sz; cbn [bytes]; pow_lia. Qed.
Lemma far_address a mc : 32 <= off -> a = u32 (reg rb mc + ((off - 31) << size_number sz)) ->
  u32 (a + scale_of sz * 31) = address_of mc.
Proof using. intros Hfar ->. rewrite shift_scale, uw_add_l by (done || lia). f_equal. lia. Qed.

Lemma far_load_implements : 32 <= off ->
  implements_when (fun bs mc => reads_code s 4 bs mc /\ apart 4 sz (address_of mc) mc) s s
    (asm_thumb_add_reg_reg_offset rd rb (off - 31) (size_number sz);; narrow_access true sz rd rd 31)
    (fun n mc mc' => pc mc' = u32 (pc mc + n) /\ loads sz rd address_of mc mc').
Proof using Hd Hb Hs Hoff.
  intros Hfar. eapply when_given.
  - eapply (when_then (reads_code s 4) (reads_code s 4) (fun _ _ => True) s _ _ (fun _ => adds rd rb ((off - 31) << size_number sz))).
    + apply add_offset_implements; [done|done|done|by destruct sz|by apply far_offset].
    + intros bs. apply when_implements, narrow_access_performs; [by apply low_gpr|by apply low_gpr|done|done|done].
    + intros bs cs mc Hr. split; [by eapply reads_app|done].
  - intros n mc mc' Hap (n1 & n2 & mc1 & -> & Hp & (Hr & Hk & Hm) & ->). rewrite (far_address _ mc Hfar Hr).
    split; [by rewrite !pc_set_pc, Hp, uw_add_l, Z.add_assoc|]. split; [|split].
    + rewrite reg_set_pc. cbn [access]. rewrite reg_set_eq. apply load_ext. intros i Hi. by apply Hm, Hap.
    + intros q Hq. rewrite reg_set_pc. cbn [access]. rewrite reg_set_ne by by apply not_elem_of_cons in Hq as [? _]. by apply Hk.
    + exact Hm.
Qed.

(** Computing the address in the base, which is saved. *)
Lemma far_stored t : rd <> rb -> 32 <= off -> thumb_live t -> implements_when (reads_code t 4) t t
  (asm_thumb_add_reg_reg_offset rb rb (off - 31) (size_number sz);; narrow_access false sz rd rb 31)
  (fun n mc mc' => pc mc' = u32 (pc mc + n) /\ (keeps_words (rb :: flags) mc mc'
     /\ keeps_above 4 (store 32 (bytes sz) (mem mc) (address_of mc) (u32 (reg rd mc))) mc mc')).
Proof using Hd Hb Hoff.
  intros Hne Hfar Ht. eapply when_mono; [eapply (when_then (reads_code t 4) (reads_code t 4) (fun _ _ => True) t _ _
    (fun _ => adds rb rb ((off - 31) << size_number sz)))|done|].
  - apply add_offset_implements; [done|done|done|by destruct sz|by apply far_offset].
  - intros bs. apply when_implements, narrow_access_performs; [by apply low_gpr|by apply low_gpr|done|done|done].
  - intros bs cs mc Hr. split; [by eapply reads_app|done].
  - intros n mc mc' (n1 & n2 & mc1 & -> & Hp & (Hr & Hk & Hm) & ->). rewrite (far_address _ mc Hfar Hr).
    split; [by rewrite !pc_set_pc, Hp, uw_add_l, Z.add_assoc|]. split; [exact Hk|].
    intros x Hx. cbn [mem set_pc access set_mem]. rewrite !peek_store by (done || by destruct sz).
    rewrite Hk by (apply not_elem_of_cons; split; [done|by apply low_not_flag]). destruct (_ <? _); [done|by apply Hm].
Qed.
Lemma far_store_implements : rd <> rb -> 32 <= off ->
  implements_when (fun bs mc => reads_code s 8 bs mc /\ apart 8 sz (address_of mc) mc) s s
    (saving rb (asm_thumb_add_reg_reg_offset rb rb (off - 31) (size_number sz);; narrow_access false sz rd rb 31))
    (fun n mc mc' => pc mc' = u32 (pc mc + n) /\ stores sz rd address_of mc mc').
Proof using Hd Hb Hs Hoff.
  intros Hne Hfar. eapply when_given.
  - apply (saving_implements s rb Hb 4 _ (fun mc mc' => keeps_words (rb :: flags) mc mc'
      /\ keeps_above 4 (store 32 (bytes sz) (mem mc) (address_of mc) (u32 (reg rd mc))) mc mc') Hs); [done|].
    intros bs Hl. apply far_stored; [done|done|]. apply live_puts; [done|by rewrite Hl].
  - intros n mc mc' Hap (mc1 & Hp & [Hk Hm] & E). split; [done|]. rewrite E.
    eapply (saved_stores rb rd (address_of mc) _ sz mc mc1 Hb Hd Hne Hk); [|exact Hap].
    unfold pushed_reg in Hm at 2. rewrite reg_set_pc, reg_set_ne, reg_set_mem in Hm by (unfold low in Hb; lia). exact Hm.
Qed.
End OffsetAccess.

(** [asm_thumb_load_reg_reg_offset] and [asm_thumb_store_reg_reg_offset]. *)
Section AnyOffset.
Context `{ThumbConfig} `{PyMisc} (s : asm_thumb_t) (sz : size) (rd rb off : Z) (Hd : gpr rd) (Hb : gpr rb) (Hoff : 0 <= off < 2 ^ 28).
Abbreviation address_of := (fun mc => u32 (reg rb mc + scale_of sz * off)).
Definition offset_access (l : bool) : Z -> Z -> Z -> Z -> M asm_thumb_t unit :=
  if l then asm_thumb_load_reg_reg_offset else asm_thumb_store_reg_reg_offset.
(** One instruction is enough. *)
Definition near : bool :=
  (off <? 32) && (rd <? 8) && (rb <? 8) || asm_thumb_allow_armv7m && (scale_of sz * off <? 4096).

Lemma offset_shift : u32 (off << size_number sz) = scale_of sz * off.
Proof using Hoff. rewrite shift_scale by lia. apply uw_small. revert Hoff. unfold scale_of. destruct sz; cbn [bytes]; pow_lia. Qed.
Lemma fit_unsigned_ltb n x : 0 < n < 32 -> 0 <= x < 2 ^ 32 -> MP_FIT_UNSIGNED n x = (x <? 2 ^ n).
Proof using.
  intros Hn Hx. apply eq_bool_prop_intro. rewrite !Is_true_true, MP_FIT_UNSIGNED_spec by pow_lia. rewrite Z.ltb_lt. lia.
Qed.
(** The choice of [asm_thumb_load_reg_reg_offset] and of its counterpart. *)
Lemma offset_access_eq l : offset_access l rd rb off (size_number sz) s
  = (if (off <? 32) && (rd <? 8) && (rb <? 8) then narrow_access l sz rd rb off
     else if asm_thumb_allow_armv7m && (scale_of sz * off <? 4096) then wide_access l sz rd rb (scale_of sz * off)
     else if l then asm_thumb_add_reg_reg_offset rd rb (u32 (off - 31)) (size_number sz);; narrow_access true sz rd rd 31
     else saving rb (asm_thumb_add_reg_reg_offset rb rb (u32 (off - 31)) (size_number sz);; narrow_access false sz rd rb 31)) s.
Proof using Hoff.
  pose proof offset_shift as E. assert (0 <= scale_of sz * off < 2 ^ 32) as Hs by (rewrite <- E; by apply uw_range).
  assert ((size_number sz <=? 2) = true) as Es by by destruct sz.
  destruct l; cbn [offset_access]; [unfold asm_thumb_load_reg_reg_offset|unfold asm_thumb_store_reg_reg_offset];
    rewrite assert_true by exact Es; rewrite E, (fit_unsigned_ltb 5 off), (fit_unsigned_ltb 12 (scale_of sz * off)) by (done || pow_lia);
    change ASM_THUMB_REG_R8 with 8; change (2 ^ 5) with 32; change (2 ^ 12) with 4096;
    (destruct (_ && (rb <? _)); [done|]); (destruct (_ && _); [done|]); [done|].
  unfold saving. seq_assoc.
Qed.

Lemma near_access_performs l : near = true ->
  performs s (offset_access l rd rb off (size_number sz)) (fun mc => access l sz rd (address_of mc) mc).
Proof using Hd Hb Hoff.
  unfold near. intros Hn. eapply implements_ext; [apply offset_access_eq|].
  destruct ((off <? 32) && (rd <? 8) && (rb <? 8)) eqn:E8; cbn [orb] in Hn.
  - apply andb_prop in E8 as [[?%Z.ltb_lt ?%Z.ltb_lt]%andb_prop ?%Z.ltb_lt]. unfold gpr in *.
    apply narrow_access_performs; unfold low, gpr; lia.
  - rewrite Hn. apply andb_prop in Hn as [_ Hn%Z.ltb_lt]. apply wide_access_performs; [done|done|]. unfold scale_of in *. lia.
Qed.
Lemma access_loads a mc p : loads sz rd a mc (set_pc p (access true sz rd (a mc) mc)).
Proof using.
  split; [by rewrite reg_set_pc; cbn [access]; rewrite reg_set_eq|]. split; [|done].
  intros q [Hq _]%not_elem_of_cons. rewrite reg_set_pc. cbn [access]. by rewrite reg_set_ne.
Qed.
Lemma access_stores a mc p : stores sz rd a mc (set_pc p (access false sz rd (a mc) mc)).
Proof using. by split. Qed.
End AnyOffset.

(** Any offset: what is accessed, and what else may change. *)
Section FarOffset.
Context `{ThumbConfig} `{PyMisc} (s : asm_thumb_t) (sz : size) (rd rb off : Z) (Hd : low rd) (Hb : low rb) (Hs : thumb_live s).
Hypothesis Hoff : 0 <= off < 2 ^ 28.
Abbreviation address_of := (fun mc => u32 (reg rb mc + scale_of sz * off)).

Lemma not_near : near sz rd rb off = false -> 32 <= off
  /\ (asm_thumb_allow_armv7m && (scale_of sz * off <? 4096)) = false /\ ((off <? 32) && (rd <? 8) && (rb <? 8)) = false.
Proof using Hd Hb.
  unfold near. rewrite !(ltb_true _ 8) by (apply Hd || apply Hb). rewrite !andb_true_r.
  intros [Hn ->]%orb_false_elim. split; [by apply Z.ltb_ge|done].
Qed.
Lemma offset_loads : implements_when (fun bs mc => reads_code s 4 bs mc /\ apart 4 sz (address_of mc) mc) s s
  (asm_thumb_load_reg_reg_offset rd rb off (size_number sz))
  (fun n mc mc' => pc mc' = u32 (pc mc + n) /\ loads sz rd address_of mc mc').
Proof using Hd Hb Hs Hoff.
  pose proof (low_gpr rd Hd) as Gd. pose proof (low_gpr rb Hb) as Gb. destruct (near sz rd rb off) eqn:En.
  - apply when_implements. eapply implements_mono; [exact (near_access_performs s sz rd rb off Gd Gb Hoff true En)|].
    intros n mc mc' ->. split; [done|]. apply (access_loads sz rd address_of).
  - destruct (not_near En) as (Hfar & E2 & E1). eapply (when_ext _ s s _ _ _); [done| |by apply far_load_implements].
    pose proof (offset_access_eq s sz rd rb off Hoff true) as W. change (offset_access true) with asm_thumb_load_reg_reg_offset in W.
    rewrite W, E1, E2. cbv beta iota. by rewrite (uw_small 32 (off - 31)) by pow_lia.
Qed.
Lemma offset_stores : rd <> rb -> implements_when (fun bs mc => reads_code s 8 bs mc /\ apart 8 sz (address_of mc) mc) s s
  (asm_thumb_store_reg_reg_offset rd rb off (size_number sz))
  (fun n mc mc' => pc mc' = u32 (pc mc + n) /\ stores sz rd address_of mc mc').
Proof using Hd Hb Hs Hoff.
  intros Hne. pose proof (low_gpr rd Hd) as Gd. pose proof (low_gpr rb Hb) as Gb. destruct (near sz rd rb off) eqn:En.
  - apply when_implements. eapply implements_mono; [exact (near_access_performs s sz rd rb off Gd Gb Hoff false En)|].
    intros n mc mc' ->. split; [done|]. apply (access_stores sz rd address_of).
  - destruct (not_near En) as (Hfar & E2 & E1). eapply (when_ext _ s s _ _ _); [done| |by apply far_store_implements].
    pose proof (offset_access_eq s sz rd rb off Hoff false) as W. change (offset_access false) with asm_thumb_store_reg_reg_offset in W.
    rewrite W, E1, E2. cbv beta iota. by rewrite (uw_small 32 (off - 31)) by pow_lia.
Qed.
End FarOffset.
