(* ===== verification/AsmThumbIndex.v ===== *)
(** * AsmThumbIndex: indexed accesses and locals of asmthumb.h

    Loads scale the index in R2, stores in the index register itself, which
    they save; locals are relative to the stack pointer. *)

From S2P Require Import Prelude AsmBase TwoPass PyMisc Machine Emission AsmThumb AsmThumbPass ArmIsa ArmEffect AsmThumbInstr AsmThumbImm AsmThumbMem.

Set Default Goal Selector "!".

#[local] Existing Instance SizeT_32.
#[local] Hint Extern 0 Isa => exact Thumb : typeclass_instances.

(** ** Base and index *)

Section Index.
Context (s : asm_thumb_t) (sz : size) (rd rb ri : Z) (Hd : low rd) (Hb : low rb) (Hi : low ri).
Abbreviation address_of := (fun mc => u32 (reg rb mc + scale_of sz * reg ri mc)).

Definition thumb_index_load : M asm_thumb_t unit :=
  match sz with
  | Byte => GenericApi.ASM_LOAD8_REG_REG_REG rd rb ri
  | Half => GenericApi.ASM_LOAD16_REG_REG_REG rd rb ri
  | Word => GenericApi.ASM_LOAD32_REG_REG_REG rd rb ri
  end.
Definition thumb_index_store : M asm_thumb_t unit :=
  match sz with
  | Byte => GenericApi.ASM_STORE8_REG_REG_REG rd rb ri
  | Half => GenericApi.ASM_STORE16_REG_REG_REG rd rb ri
  | Word => GenericApi.ASM_STORE32_REG_REG_REG rd rb ri
  end.
(** R2 may hold the scaled index. *)
Definition index_loads (mc mc' : machine) : Prop :=
  reg rd mc' = load 32 (bytes sz) (mem mc) (address_of mc) /\ same_except (rd :: GenericApi.REG_TEMP2 :: flags) mc mc'.

Lemma scaled x : x << size_number sz = scale_of sz * x.
Proof using. destruct sz; unfold scale_of; cbn [size_number bytes]; rewrite Z.shiftl_mul_pow2 by done; lia. Qed.

(** The scaled index in a register, then the access. *)
Lemma scaled_index_implements t l rt : low rt -> rb <> rt -> (l = false -> rd <> rt) -> implements t
  (asm_thumb_lsl_rlo_rlo_i5 rt ri (size_number sz);; asm_thumb_format_7_8 (index_word l sz) rd rb rt)
  (fun n mc mc' => exists mc1, pc mc' = u32 (pc mc + n) /\ same_except (rt :: flags) mc mc1
     /\ mc' = set_pc (pc mc') (access l sz rd (address_of mc) mc1)).
Proof using Hd Hb Hi.
  intros Ht Hbt Hdt. eapply implements_mono; [eapply (implements_seq t _ _ (computes rt (fun mc => reg ri mc << size_number sz)));
    [|intros bs; by apply (index_access_performs (puts bs t) l sz rd rb (low_gpr _ Hd) (low_gpr _ Hb) rt)]|].
  - eapply implements_mono; [apply thumb_lsl_i5_computes; [done|done|by destruct sz]|]. intros n mc mc' Hc. split; [apply Hc|exact Hc].
  - intros n mc mc' (n1 & n2 & mc1 & -> & Hp & (_ & Hr & Hk) & ->). exists mc1. cbv beta.
    assert (u32 (reg rb mc1 + reg rt mc1) = address_of mc) as ->.
    { rewrite Hr, scaled, uw_add_r by done. f_equal. f_equal. apply Hk. apply not_elem_of_cons. split; [done|by apply low_not_flag]. }
    rewrite !pc_set_pc, Hp, uw_add_l, Z.add_assoc by done. done.
Qed.

Lemma thumb_index_loads : (sz = Byte \/ rb <> GenericApi.REG_TEMP2) ->
  implements s thumb_index_load (fun n mc mc' => pc mc' = u32 (pc mc + n) /\ index_loads mc mc').
Proof using Hd Hb Hi.
  intros Hne. destruct (decide (sz = Byte)) as [E|Hnb].
  - eapply implements_ext; [instantiate (1 := asm_thumb_format_7_8 (index_word true sz) rd rb ri); unfold thumb_index_load; by rewrite E|].
    eapply implements_mono; [by apply (index_access_performs s true sz rd rb (low_gpr _ Hd) (low_gpr _ Hb) ri)|].
    intros n mc mc' ->. split; [done|]. unfold index_loads. rewrite reg_set_pc. cbn [access]. rewrite reg_set_eq, E.
    change (scale_of Byte) with 1. rewrite Z.mul_1_l. split; [done|]. split; [|done].
    intros q [Hq _]%not_elem_of_cons. by rewrite reg_set_pc, reg_set_ne.
  - destruct Hne as [|Hne]; [done|].
    eapply (implements_ext _ _ (asm_thumb_lsl_rlo_rlo_i5 GenericApi.REG_TEMP2 ri (size_number sz);;
      asm_thumb_format_7_8 (index_word true sz) rd rb GenericApi.REG_TEMP2)); [unfold thumb_index_load; by destruct sz|].
    eapply implements_mono; [by apply scaled_index_implements|].
    intros n mc mc' (mc1 & Hp & [Hk Hm] & E). split; [done|]. rewrite E. split.
    + rewrite reg_set_pc. cbn [access]. by rewrite reg_set_eq, Hm.
    + split; [|done]. intros q [Hq Hq2]%not_elem_of_cons. rewrite reg_set_pc. cbn [access]. rewrite reg_set_ne by done. by apply Hk.
Qed.

Lemma thumb_index_stores : (sz = Byte \/ rb <> ri /\ rd <> ri) ->
  implements_when (fun _ mc => apart 8 sz (address_of mc) mc) s s thumb_index_store
    (fun n mc mc' => pc mc' = u32 (pc mc + n) /\ stores sz rd address_of mc mc').
Proof using Hd Hb Hi.
  intros Hne. destruct (decide (sz = Byte)) as [E|Hnb].
  - apply when_implements. eapply implements_ext; [instantiate (1 := asm_thumb_format_7_8 (index_word false sz) rd rb ri); unfold thumb_index_store; by rewrite E|].
    eapply implements_mono; [by apply (index_access_performs s false sz rd rb (low_gpr _ Hd) (low_gpr _ Hb) ri)|].
    intros n mc mc' ->. split; [done|]. split; [done|]. rewrite E. change (scale_of Byte) with 1. by rewrite Z.mul_1_l.
  - destruct Hne as [|[Hbi Hdi]]; [done|].
    eapply (when_ext _ s s _ _ (saving ri (asm_thumb_lsl_rlo_rlo_i5 ri ri (size_number sz);; asm_thumb_format_7_8 (index_word false sz) rd rb ri)));
      [done|unfold thumb_index_store, saving; destruct sz; [done|seq_assoc|seq_assoc]|].
    eapply when_mono; [eapply (when_given (fun _ _ => True) (fun mc => apart 8 sz (address_of mc) mc) s s)
      |intros bs mc Hap; split; [done|exact Hap]|intros n mc mc' HQ; exact HQ].
    + apply (saving_when s ri Hi _ (fun _ _ => True) _ (fun mc mc' => keeps_words (ri :: flags) mc mc'
        /\ keeps_above 4 (store 32 (bytes sz) (mem mc) (address_of mc) (u32 (reg rd mc))) mc mc')); [|done|done].
      intros bs _. apply when_implements. eapply implements_mono; [by apply scaled_index_implements|].
      intros n mc mc' (mc1 & Hp & [Hk Hm] & E). split; [done|]. rewrite E. split.
      * intros q Hq. rewrite reg_set_pc. cbn [access]. rewrite reg_set_mem. by rewrite Hk.
      * intros x _. cbn [mem set_pc access set_mem]. rewrite Hm, Hk; [done|]. apply not_elem_of_cons. split; [done|by apply low_not_flag].
    + cbv beta. intros n mc mc' Hap (mc1 & Hp & [Hk Hm] & E). split; [done|]. rewrite E.
      eapply (saved_stores ri rd (address_of mc) _ sz mc mc1 Hi Hd Hdi Hk); [|exact Hap].
      assert (address_of (set_pc (u32 (pc mc + 2)) (pushed_reg ri mc)) = address_of mc) as Ea; [|by rewrite Ea in Hm].
      unfold pushed_reg. rewrite !reg_set_pc, !(reg_set_ne _ 13), !reg_set_mem by (unfold low in Hi, Hb; lia). done.
Qed.
End Index.

(** ** Locals *)

Definition thumb_local (local : Z) (mc : machine) : Z := u32 (reg 13 mc + 4 * local).

Section Locals.
Context (s : asm_thumb_t) (r local : Z) (Hr : low r).

Lemma local_word lo : lo .| local .& 0xff = lo .| u8 local.
Proof using. assert (local .& 0xff = u8 local) as -> by bitsolve. done. Qed.
Lemma local_checked : 0 <= local < 256 -> asm_thumb_mov_local_check local s = Ok (tt, s).
Proof using.
  intros Hl. unfold asm_thumb_mov_local_check. rewrite gets_bind. destruct (_ <=? _); [|done].
  rewrite assert_true by (apply leb_true; lia). by rewrite thumb_fit8.
Qed.
Lemma thumb_local_performs (l : bool) : 0 <= local < 256 ->
  performs s (if l then asm_thumb_mov_reg_local r local else asm_thumb_mov_local_reg local r)
    (fun mc => access l Word r (thumb_local local mc) mc).
Proof using Hr.
  intros Hl. low_ranges.
  eapply (implements_ext _ _ (asm_thumb_op16 ((if l then 0x9800 else 0x9000) .| r << 8 .| u8 local))).
  { destruct l; [unfold asm_thumb_mov_reg_local|unfold asm_thumb_mov_local_reg]; rewrite assert_true by apply ltb_true, Hr;
      rewrite (bind_Ok _ _ _ _ _ (local_checked Hl)); unfold OP_STR_TO_SP_OFFSET, OP_LDR_FROM_SP_OFFSET; by rewrite local_word. }
  eapply (thumb_access_performs s l Word r 13 (low_gpr _ Hr) _ (OffImm (4 * local)) _ 2).
  - destruct l; t16 ltac:(field 11 1; cbv beta iota zeta delta [access_op Z.eqb ldst]).
  - intros m. by rewrite address_imm.
Qed.
(** The address of local 256 is that of local 0. *)
Lemma thumb_local_addr_computes : 0 <= local ->
  implements s (asm_thumb_mov_reg_local_addr r local) (computes r (fun mc => reg 13 mc + 4 * u8 local)).
Proof using Hr.
  intros Hl. low_ranges. eapply (implements_ext _ _ (asm_thumb_op16 (0xa800 .| r << 8 .| u8 local))).
  { unfold asm_thumb_mov_reg_local_addr. rewrite assert_true by apply ltb_true, Hr. cbv zeta. rewrite gets_bind.
    rewrite assert_true by (rewrite (leb_true 0 local) by done; by rewrite orb_true_r). unfold OP_ADD_REG_SP_OFFSET. by rewrite local_word. }
  pose proof (uw_range 8 eq_refl local). apply (takes_any 2), (thumb_takes _ _ (DP false ADD r 13 (Imm (4 * u8 local))) 2);
    [by apply low_gpr|set (x := u8 local) in *; t16 idtac|].
  intros next mc. cbn [exec_op dp_exec value]. rewrite !read_gpr by done. eexists. split; [apply write_eq|done].
  by rewrite uw_add_l.
Qed.
(** A local that the instruction cannot hold is rejected in the last pass. *)
Lemma thumb_local_rejected : 256 <= local < 2 ^ 31 -> pass (base s) = MP_ASM_PASS_EMIT ->
  asm_thumb_mov_local_reg local r s = raise "too many locals for native method" s
  /\ asm_thumb_mov_reg_local r local s = raise "too many locals for native method" s.
Proof using Hr.
  intros Hl Hp. assert (forall k : unit -> M asm_thumb_t unit, (asm_thumb_mov_local_check local ≫= k) s = raise "too many locals for native method" s) as Hc.
  { intros k. unfold asm_thumb_mov_local_check. rewrite bind_assoc, gets_bind, Hp. change (MP_ASM_PASS_EMIT <=? MP_ASM_PASS_EMIT) with true. cbv iota.
    rewrite bind_assoc, assert_true by (apply leb_true; lia). destruct (UNSIGNED_FIT8 local) eqn:E; [|done].
    apply unsigned_fit8 in E; pow_lia. }
  split; [unfold asm_thumb_mov_local_reg|unfold asm_thumb_mov_reg_local]; rewrite assert_true by apply ltb_true, Hr; cbv zeta; apply Hc.
Qed.
End Locals.
