(* ===== verification/AsmThumbJump.v ===== *)
(** * AsmThumbJump: branches, calls and the address of a label of asmthumb.c

    A branch to a label before it is short if that reaches; otherwise it has
    the long form, whatever the distance.  Without ARMv7-M the long form adds a
    word of the code to the program counter, and a conditional branch skips
    it under the opposite condition. *)

From S2P Require Import Prelude AsmBase TwoPass PyMisc Machine Emission AsmThumb AsmThumbPass ArmIsa ArmEffect AsmThumbInstr AsmThumbImm AsmThumbMem.

Set Default Goal Selector "!".

#[local] Existing Instance SizeT_32.
#[local] Hint Extern 0 Isa => exact Thumb : typeclass_instances.

(** ** Halfwords *)

Definition halves (ws : list Z) : list Z := concat ((fun w => [u8 w; u8 (w >> 8)]) <$> ws).
Lemma length_halves ws : Z.of_nat (length (halves ws)) = 2 * Z.of_nat (length ws).
Proof. unfold halves. induction ws as [|w ws IH]; [done|]. cbn [fmap list_fmap concat app length] in *. lia. Qed.
Lemma halves_app ws vs : halves (ws ++ vs) = halves ws ++ halves vs.
Proof. unfold halves. by rewrite fmap_app, concat_app. Qed.

(** ** Branch instructions *)

Lemma signed_fit12 x : - 2 ^ 31 <= x < 2 ^ 31 -> SIGNED_FIT12 x = (- 2 ^ 11 <=? x) && (x <? 2 ^ 11).
Proof.
  unfold SIGNED_FIT12. intros Hx. change 0xfffff800 with (2 ^ 32 - 2 ^ 11). rewrite fit_signed by done.
  by rewrite sw_small.
Qed.
Lemma signed_fit9 x : - 2 ^ 31 <= x < 2 ^ 31 -> SIGNED_FIT9 x = (- 2 ^ 8 <=? x) && (x <? 2 ^ 8).
Proof.
  unfold SIGNED_FIT9. intros Hx. change 0xffffff00 with (2 ^ 32 - 2 ^ 8). rewrite fit_signed by done.
  by rewrite sw_small.
Qed.

(** The offset of a branch is a number of halfwords. *)
Lemma even_half x : x mod 2 = 0 -> exists y, x = y << 1.
Proof. intros Hx. exists (x / 2). rewrite Z.shiftl_mul_pow2 by done. clear -Hx. Z.to_euclidean_division_equations. lia. Qed.
Lemma thumb_sw_field n x y : 0 < n -> uw n x = uw n y -> sw n x = sw n y.
Proof. intros Hn E. by rewrite <- (sw_uw n Hn x), E, sw_uw. Qed.

Lemma sign_extend_23 z : sw 25 (uw 23 z .| (bits z 22 1 << 23 .| bits z 22 1 << 24)) = sw 23 z.
Proof.
  rewrite <- (Z.lxor_lor (uw 23 z)), <- Z.add_nocarry_lxor by bitsolve.
  rewrite <- Z.lxor_lor, <- Z.add_nocarry_lxor by bitsolve.
  rewrite !Z.shiftl_mul_pow2 by done. unfold bits. rewrite Z.shiftr_div_pow2 by done. clear. word_lia.
Qed.

Section Fields.
Context (rel : Z) (Heven : rel mod 2 = 0).
Ltac even := let y := fresh "y" in destruct (even_half rel Heven) as [y ->].

Lemma b_n_decode : decode_thumb16 (u16 (OP_B_N rel)) = Some (14, B (sw 12 rel)).
Proof using Heven.
  even. unfold OP_B_N, decode_thumb16. field 12 4. unfold decode_t16. field 11 5.
  cbn [fmap option_fmap option_map]. do 3 f_equal. apply thumb_sw_field; [done|]. bitsolve.
Qed.
Lemma bcc_n_decode cc : 0 <= cc < 14 -> decode_thumb16 (u16 (OP_BCC_N cc rel)) = Some (cc, B (sw 9 rel)).
Proof using Heven.
  even. intros Hcc. unfold OP_BCC_N, decode_thumb16. field 12 4. cbv zeta.
  replace (bits _ 8 4) with cc by (symmetry; assert (0 <= cc < 16) by lia; bitsolve).
  rewrite ltb_true by lia. do 3 f_equal. apply thumb_sw_field; [done|]. assert (0 <= cc < 16) by lia. bitsolve.
Qed.
(** The wide branches repeat the sign in two fields: four megabytes either way. *)
Lemma bw_decode : decode_thumb32 (u16 (OP_BW_HI rel)) (u16 (OP_BW_LO rel)) = Some (14, B (sw 23 rel)).
Proof using Heven.
  even. unfold OP_BW_HI, OP_BW_LO, decode_thumb32. field 11 5. field 15 1. field 14 1. unfold decode_branch32. field 12 1.
  do 3 f_equal. rewrite <- sign_extend_23. apply thumb_sw_field; [done|]. bitsolve.
Qed.
Lemma bcc_w_decode cc : 0 <= cc < 14 ->
  decode_thumb32 (u16 (OP_BCC_W_HI cc rel)) (u16 (OP_BCC_W_LO rel)) = Some (cc, B (sw 21 rel)).
Proof using Heven.
  even. intros Hcc. assert (0 <= cc < 16) by lia. unfold OP_BCC_W_HI, OP_BCC_W_LO, decode_thumb32. field 11 5. field 15 1. field 14 1.
  unfold decode_branch32. field 12 1. cbv zeta.
  replace (bits _ 6 4) with cc by (symmetry; bitsolve).
  rewrite ltb_true by lia. do 3 f_equal. apply thumb_sw_field; [done|]. bitsolve.
Qed.
End Fields.

(** ** The code of a branch *)

Section Branches.
Context `{ThumbConfig} `{PyMisc}.

(** Without ARMv7-M the long branch uses R1. *)
Definition clobbers : list Z := if asm_thumb_allow_armv7m then [] else [1].

(** From the code [bs] at offset [o], the machines are related by [P]. *)
Definition does (o : Z) (bs : list Z) (P : machine -> machine -> Prop) : Prop :=
  forall code mc, 0 <= pc mc < 2 ^ 32 -> code_at 32 code (pc mc) bs -> reads o 0 bs mc ->
    exists mc', runs (step code) mc mc' /\ P mc mc'.
Definition goes_if (c : machine -> bool) (d n : Z) (mc mc' : machine) : Prop :=
  pc mc' = u32 (pc mc + (if c mc then d else n)) /\ same_except clobbers mc mc'.
Lemma goes_pc c d n mc : goes_if c d n mc (set_pc (u32 (pc mc + (if c mc then d else n))) mc).
Proof. by split. Qed.

Lemma does_branch o bs cc rel len : disasm bs [((cc, B rel), len)] ->
  does o bs (goes_if (cond cc) (4 + rel) len).
Proof.
  intros Hd code mc Hw Hc _. eexists. split; [|apply goes_pc].
  eapply runs_straight; [exact Hd|exact Hc|].
  transitivity (m' ← arm_exec true (cc, B rel) len mc; Some m'); [done|].
  unfold arm_exec. cbn [fst snd exec_op]. destruct (cond cc mc); [|done]. by rewrite Z.add_assoc.
Qed.
Lemma does_mono o bs (P Q : machine -> machine -> Prop) : does o bs P -> (forall mc mc', P mc mc' -> Q mc mc') -> does o bs Q.
Proof. intros HP HQ code mc Hw Hc Hr. destruct (HP code mc Hw Hc Hr) as (mc' & ? & ?). eauto. Qed.
Lemma does_prefix o bs cs P : does o bs P -> does o (bs ++ cs) P.
Proof.
  intros HP code mc Hw [Hc _]%code_at_app Hr. apply HP; [done|done|]. by eapply reads_app.
Qed.

Section Far.
Context (d o : Z) (Hd : d mod 2 = 0) (Ho : o mod 2 = 0).

(** The word after the two instructions is the distance. *)
Definition far_halves (d o : Z) : list Z :=
  [ASM_THUMB_FORMAT_3_ENCODE ASM_THUMB_FORMAT_3_LDR 1 0; ASM_THUMB_FORMAT_5_ENCODE ASM_THUMB_FORMAT_5_ADD 15 1;
   (d - o - 6) .& 0xffff; (d - o - 6) >> 16].
Lemma far_does : asm_thumb_allow_armv7m = false -> o mod 4 = 0 ->
  does o (halves (far_halves d o)) (goes_if (fun _ => true) (d - o) 0).
Proof using Hd Ho.
  intros Hv Ho4 code mc Hw Hc Hr. set (r := d - o - 6) in *.
  destruct (Hr Hv) as (Hp & Hm & _). rewrite Ho4 in Hp.
  assert (halves (far_halves d o) = halves (take 2 (far_halves d o)) ++ le_bytes 4 r) as E.
  { unfold far_halves. cbn [take]. rewrite <- (app_nil_r (le_bytes 4 r)). change [?a; ?b; ?c; ?e] with ([a; b] ++ [c; e]). rewrite halves_app. f_equal.
    unfold halves. cbn [fmap list_fmap concat app le_bytes]. do 4 (apply f_equal2; [subst r; bitsolve|]). done. }
  rewrite E in Hc, Hm. clear E. apply code_at_app in Hc as [Hc _].
  pose proof (readable_word (halves (take 2 (far_halves d o))) r [] mc) as Hl. rewrite app_nil_r in Hl.
  specialize (Hl (conj Hp Hm)). rewrite length_halves in Hl. change (2 * Z.of_nat _) with 4 in Hl.
  assert (disasm (halves (take 2 (far_halves d o)))
    [((14, LDR Word 1 15 (OffImm 0)), 2); ((14, DP false ADD 15 15 (Shifted 1 0)), 2)]) as Hdis.
  { apply (disasm_app (H := Thumb) [_; _] [_; _] [_] [_]); by apply disasm_op16. }
  exists (set_pc (u32 (pc mc + (d - o))) (set_reg 1 (u32 r) mc)). split.
  - eapply runs_straight; [exact Hdis|exact Hc|].
    etransitivity; [apply (exec_straight_cons (H := Thumb) _ _ _ _ (set_pc (u32 (pc mc + 2)) (set_reg 1 (u32 r) mc)))|].
    + transitivity (Some (load_reg 1 (load 32 4 (mem mc) (address true 15 (OffImm 0) mc)) (set_pc (u32 (pc mc + 2)) mc))); [done|].
      rewrite (load_cong 32 eq_refl 4 _ _ (pc mc + 4)); [by rewrite Hl|]. by apply (address_literal true).
    + done.
    + set (m1 := set_pc _ _).
      transitivity (Some (set_pc (Z.ldiff (u32 (u32 (pc m1 + 4) + u32 (u32 (reg 1 m1) << 0))) 1) m1)); [done|].
      subst m1. rewrite reg_set_pc, reg_set_eq, pc_set_pc, Z.shiftl_0_r, !uw_uw by done.
      replace (u32 (u32 (u32 (pc mc + 2) + 4) + u32 r)) with (u32 (pc mc + (d - o))).
      * rewrite ldiff_even; [done|]. clear -Hp Hd Ho. Z.to_euclidean_division_equations. lia.
      * subst r. rewrite uw_add_r, uw_add_l, <- Z.add_assoc, uw_add_l by done. f_equal. lia.
  - split; [done|]. unfold clobbers. rewrite Hv. split; [|done]. intros q [Hq _]%not_elem_of_cons. by rewrite reg_set_pc, reg_set_ne.
Qed.
End Far.

Section Code.
Context (d o : Z) (Hd : d mod 2 = 0) (Ho : o mod 2 = 0).
Abbreviation rel := (d - o - 4).
Lemma rel_even : rel mod 2 = 0.
Proof using Hd Ho. clear -Hd Ho. Z.to_euclidean_division_equations. lia. Qed.

(** The nop that aligns the word, if the code does not start at a word. *)
Definition padding (o : Z) : list Z := if negb (o .& 2 =? 0) then [ASM_THUMB_OP_NOP] else [].
Definition b_halves (d o : Z) : list Z :=
  let rel := d - o - 4 in
  if (rel <=? -4) && SIGNED_FIT12 rel then [OP_B_N rel]
  else if asm_thumb_allow_armv7m then [OP_BW_HI rel; OP_BW_LO rel]
  else if SIGNED_FIT12 rel then [OP_B_N rel; ASM_THUMB_OP_NOP; ASM_THUMB_OP_NOP; ASM_THUMB_OP_NOP] ++ padding o
  else padding o ++ far_halves d (o + 2 * Z.of_nat (length (padding o))).
Lemma length_b_halves d' o' : Z.of_nat (length (b_halves d' o')) <= 5.
Proof using.
  unfold b_halves, padding. destruct (_ && _); [done|]. destruct asm_thumb_allow_armv7m; [done|].
  by destruct (SIGNED_FIT12 _), (negb _).
Qed.

Definition b_reaches (d o : Z) : Prop := asm_thumb_allow_armv7m = true -> - 2 ^ 22 <= d - o - 4 < 2 ^ 22.

Lemma b_n_does : - 2 ^ 31 <= rel < 2 ^ 31 -> SIGNED_FIT12 rel = true ->
  does o (halves [OP_B_N rel]) (goes_if (fun _ => true) (d - o) 2).
Proof using Hd Ho.
  intros Hr Hf. rewrite signed_fit12 in Hf by done. apply andb_prop in Hf as [?%Z.leb_le ?%Z.ltb_lt].
  eapply does_mono; [apply (does_branch o _ 14 (sw 12 rel) 2), disasm_op16; [|apply b_n_decode, rel_even]|].
  - unfold OP_B_N. by field 11 5.
  - intros mc mc' Hg. rewrite (sw_small 12 eq_refl rel) in Hg by pow_lia. by replace (4 + rel) with (d - o) in Hg by lia.
Qed.
(** With ARMv7-M the distance is taken modulo 2^23. *)
Lemma bw_does : does o (halves [OP_BW_HI rel; OP_BW_LO rel]) (goes_if (fun _ => true) (4 + sw 23 rel) 4).
Proof using Hd Ho.
  apply (does_branch o _ 14 (sw 23 rel) 4), (disasm_op32 (OP_BW_HI rel)); [|apply bw_decode, rel_even].
  unfold OP_BW_HI. by field 11 5.
Qed.
Lemma nop_does o' bs n' P : does (o' + 2) bs (goes_if (fun _ => true) P n') ->
  does o' (halves [ASM_THUMB_OP_NOP] ++ bs) (goes_if (fun _ => true) (2 + P) n').
Proof using.
  intros HP code mc Hw [Hc1 Hc2]%code_at_app Hr. set (m1 := set_pc (u32 (pc mc + 2)) mc).
  destruct (HP code m1) as (mc' & Hruns & Hpc & Hs).
  - by apply uw_range.
  - by apply code_at_uw.
  - by apply (reads_rest o' 0 0 (halves [ASM_THUMB_OP_NOP]) bs mc).
  - exists mc'. split.
    + eapply runs_trans; [|exact Hruns]. eapply runs_straight; [by apply (disasm_op16 ASM_THUMB_OP_NOP (14, NOP))|exact Hc1|done].
    + split; [|done]. rewrite Hpc. cbv iota. subst m1. by rewrite pc_set_pc, uw_add_l, Z.add_assoc.
Qed.

Lemma b_does : - 2 ^ 31 <= rel < 2 ^ 31 -> b_reaches d o ->
  exists n, does o (halves (b_halves d o)) (goes_if (fun _ => true) (d - o) n).
Proof using Hd Ho.
  intros Hr Hreach. unfold b_halves. cbv zeta. destruct (SIGNED_FIT12 rel) eqn:E12.
  - pose proof (b_n_does Hr E12) as Hb. destruct ((rel <=? -4) && true); [by eexists|].
    destruct asm_thumb_allow_armv7m eqn:Hv.
    + exists 4. pose proof bw_does as Hw. rewrite (sw_small 23 eq_refl rel) in Hw by (apply Hreach, Hv).
      by replace (4 + rel) with (d - o) in Hw by lia.
    + exists 2. apply (does_prefix o (halves [OP_B_N rel]) (halves ([_; _; _] ++ padding o))). exact Hb.
  - rewrite andb_false_r. destruct asm_thumb_allow_armv7m eqn:Hv.
    + exists 4. pose proof bw_does as Hw. rewrite (sw_small 23 eq_refl rel) in Hw by (apply Hreach, Hv).
      by replace (4 + rel) with (d - o) in Hw by lia.
    + exists 0. unfold padding. pose proof (even_mod4 o Ho) as E4. destruct (Z.eqb_spec (o .& 2) 0) as [E0|E2]; cbn [negb app length].
      * rewrite Z.add_0_r. apply far_does; congruence || done.
      * replace (d - o) with (2 + (d - (o + 2))) by lia.
        apply (nop_does o (halves (far_halves d (o + 2)))), far_does; [done| |done|];
          clear -Ho E2 E4; Z.to_euclidean_division_equations; lia.
Qed.

(** The conditional branch. *)
Definition bcc_halves (cc d o : Z) : list Z :=
  let rel := d - o - 4 in
  if (rel <=? -4) && SIGNED_FIT9 rel then [OP_BCC_N cc rel]
  else if asm_thumb_allow_armv7m then [OP_BCC_W_HI cc rel; OP_BCC_W_LO rel]
  else let ws := b_halves d (o + 2) in OP_BCC_N (cc .^ 1) (2 * Z.of_nat (length ws) - 2) :: ws.
Definition bcc_reaches (d o : Z) : Prop := asm_thumb_allow_armv7m = true -> - 2 ^ 20 <= d - o - 4 < 2 ^ 20.
End Code.

Lemma bcc_n_does cc o r : 0 <= cc < 14 -> - 2 ^ 8 <= r < 2 ^ 8 -> r mod 2 = 0 ->
  does o (halves [OP_BCC_N cc r]) (goes_if (cond cc) (4 + r) 2).
Proof.
  intros Hcc Hr Heven.
  eapply does_mono; [apply (does_branch o _ cc (sw 9 r) 2), disasm_op16; [|by apply bcc_n_decode]|].
  - assert (0 <= cc < 16) by lia. unfold OP_BCC_N.
    replace (bits _ 11 5) with (26 .| bits cc 3 1) by (symmetry; bitsolve). by enumerate 14%nat cc.
  - intros mc mc' Hg. by rewrite (sw_small 9 eq_refl r) in Hg by pow_lia.
Qed.

Lemma same_except_trans X m m1 m2 : same_except X m m1 -> same_except X m1 m2 -> same_except X m m2.
Proof. intros [H1 M1] [H2 M2]. split; [|congruence]. intros r Hr. by rewrite H2, H1. Qed.
Lemma same_sp m m1 : same_except clobbers m m1 -> reg 13 m1 = reg 13 m.
Proof. intros [Hr _]. apply Hr. unfold clobbers. destruct asm_thumb_allow_armv7m; [apply not_elem_of_nil|by intros ?%list_elem_of_singleton]. Qed.
(** A jump over a branch under the opposite condition. *)
Lemma skip_does cc d o n ws : 0 <= cc < 14 -> (length ws <= 5)%nat ->
  does (o + 2) (halves ws) (goes_if (fun _ => true) (d - (o + 2)) n) ->
  does o (halves (OP_BCC_N (cc .^ 1) (2 * Z.of_nat (length ws) - 2) :: ws))
    (goes_if (cond cc) (d - o) (2 + 2 * Z.of_nat (length ws))).
Proof.
  intros Hcc Hl Hb code mc Hw Hc Hr. set (skip := 2 * Z.of_nat (length ws) - 2) in *.
  assert (0 <= cc .^ 1 < 14) as Hcc' by by enumerate 14%nat cc.
  pose proof (bcc_n_does (cc .^ 1) o skip Hcc' ltac:(pow_lia)) as Hn.
  change (OP_BCC_N (cc .^ 1) skip :: ws) with ([OP_BCC_N (cc .^ 1) skip] ++ ws) in Hc, Hr. rewrite halves_app in Hc, Hr.
  apply code_at_app in Hc as [Hc1 Hc2].
  destruct (Hn ltac:(subst skip; clear; Z.to_euclidean_division_equations; lia) code mc Hw Hc1 (reads_app _ _ _ _ _ Hr))
    as (m1 & Hr1 & Hp1 & Hs1). rewrite cond_opposite in Hp1 by done.
  destruct (cond cc mc) eqn:E; cbn [negb] in Hp1.
  - destruct (Hb code m1) as (mc' & Hr2 & Hp2 & Hs2).
    + rewrite Hp1. by apply uw_range.
    + rewrite Hp1. by apply code_at_uw.
    + apply (reads_rest o 0 0 (halves [OP_BCC_N (cc .^ 1) skip]) (halves ws) mc); [done|exact Hp1| | |exact Hr].
      * by rewrite (same_sp _ _ Hs1).
      * by rewrite (proj2 Hs1).
    + exists mc'. split; [by eapply runs_trans|]. split; [|by eapply same_except_trans].
      rewrite E, Hp2, Hp1, uw_add_l by done. f_equal. lia.
  - exists m1. split; [done|]. split; [|done]. rewrite E, Hp1. f_equal. subst skip. lia.
Qed.

Lemma bcc_does cc d o : 0 <= cc < 14 -> d mod 2 = 0 -> o mod 2 = 0 -> - 2 ^ 31 + 8 <= d - o < 2 ^ 31 -> bcc_reaches d o ->
  does o (halves (bcc_halves cc d o)) (goes_if (cond cc) (d - o) (2 * Z.of_nat (length (bcc_halves cc d o)))).
Proof.
  intros Hcc Hd Ho Hr Hreach. unfold bcc_halves. cbv zeta. pose proof (rel_even d o Hd Ho) as Hev.
  destruct ((d - o - 4 <=? -4) && SIGNED_FIT9 (d - o - 4)) eqn:E9.
  - apply andb_prop in E9 as [_ Hf]. rewrite signed_fit9 in Hf by pow_lia. apply andb_prop in Hf as [?%Z.leb_le ?%Z.ltb_lt].
    eapply does_mono; [apply (bcc_n_does cc o (d - o - 4)); done|]. intros mc mc'. by replace (4 + (d - o - 4)) with (d - o) by lia.
  - destruct asm_thumb_allow_armv7m eqn:Hv.
    + eapply does_mono; [apply (does_branch o _ cc (sw 21 (d - o - 4)) 4), (disasm_op32 (OP_BCC_W_HI cc (d - o - 4))); [|by apply bcc_w_decode]|].
      * assert (0 <= cc < 16) by lia. unfold OP_BCC_W_HI. by field 11 5.
      * intros mc mc'. rewrite (sw_small 21 eq_refl (d - o - 4)) by (apply Hreach, Hv).
        by replace (4 + (d - o - 4)) with (d - o) by lia.
    + destruct (b_does d (o + 2) Hd) as [n Hb]; [by rewrite Z.add_mod, Ho by done|pow_lia|intros Hv'; congruence|].
      pose proof (length_b_halves d (o + 2)). replace (2 * Z.of_nat (length (_ :: b_halves d (o + 2))))
        with (2 + 2 * Z.of_nat (length (b_halves d (o + 2)))) by (cbn [length]; lia).
      eapply skip_does; [done|lia|exact Hb].
Qed.

(** ** The functions write that code *)

(** [label] is at [dest], both it and the current offset at halfwords. *)
Record thumb_at (s : asm_thumb_t) (label dest : Z) : Prop := {
  at_max : label < max_num_labels (base s);
  at_dest : label_offsets (base s) !! Z.to_nat label = Some dest;
  at_even : dest mod 2 = 0 /\ code_offset (base s) mod 2 = 0;
  at_range : 0 <= dest <= thumb_limit /\ 0 <= code_offset (base s) <= thumb_limit;
}.

Ltac op16s := repeat (apply (emits_seq _ _ _ [_; _]); [apply thumb_op16_emits|]); first [apply thumb_op16_emits|apply emits_ret].
Lemma b_label_emits s label dest : thumb_at s label dest ->
  emits s (asm_thumb_b_label label) (halves (b_halves dest (code_offset (base s)))).
Proof.
  intros [Hm Hd He Hr]. unfold thumb_limit in Hr. set (o := code_offset (base s)) in *.
  eapply emits_to_ext; [done|unfold asm_thumb_b_label; by rewrite (thumb_label_rel_ok label _ s dest Hm Hd)|].
  cbv beta iota zeta. fold o. rewrite (sw_small 32 eq_refl (dest - o)), (sw_small 32 eq_refl (dest - o - 4)) by pow_lia.
  assert ((dest =? u32 (-1)) = false) as -> by (apply Z.eqb_neq; change (u32 (-1)) with (2 ^ 32 - 1); pow_lia). cbn [negb andb].
  unfold b_halves. cbv zeta. destruct ((dest - o - 4 <=? -4) && _); [apply thumb_op16_emits|].
  destruct asm_thumb_allow_armv7m; [apply thumb_op32_emits|]. unfold padding.
  destruct (SIGNED_FIT12 _).
  { destruct (negb _); op16s. }
  rewrite (sw_small 32 eq_refl (dest - o - 4 - 2)) by pow_lia. rewrite (sw_small 32 eq_refl (dest - o - 4 - 2 - 2)) by pow_lia.
  unfold asm_thumb_ldr_rlo_pcrel_i8, asm_thumb_format_3, asm_thumb_add_reg_reg, asm_thumb_format_5, far_halves.
  destruct (negb _); cbn [app length].
  - replace (dest - o - 4 - 2 - 2) with (dest - (o + 2 * Z.of_nat 1) - 6) by lia. op16s.
  - replace (dest - o - 4 - 2) with (dest - (o + 2 * Z.of_nat 0) - 6) by lia. apply (emits_seq _ _ _ []); [apply emits_ret|]. op16s.
Qed.

Lemma thumb_at_puts bs s label dest : thumb_at s label dest -> suppress (base s) = false ->
  Z.of_nat (length bs) mod 2 = 0 -> code_offset (base s) + Z.of_nat (length bs) <= thumb_limit ->
  thumb_at (puts bs s) label dest.
Proof.
  intros [Hm Hd [He Ho] [Hrd Hro]] Hs Hl Hr.
  constructor; change (base (puts bs s)) with (put_bytes bs (base s)); rewrite ?put_bytes_max, ?put_bytes_labels, ?put_bytes_offset, ?Hs;
    [done|done|split; [done|]|lia].
  by rewrite Z.add_mod, Ho, Hl by done.
Qed.

Lemma bcc_label_emits s cc label dest : thumb_at s label dest -> suppress (base s) = false ->
  code_offset (base s) + 2 <= thumb_limit -> 0 <= cc < 14 ->
  emits s (asm_thumb_bcc_label cc label) (halves (bcc_halves cc dest (code_offset (base s)))).
Proof.
  intros Hat Hs Hroom Hcc. pose proof Hat as [Hm Hd He Hr]. unfold thumb_limit in Hr. set (o := code_offset (base s)) in *.
  eapply emits_to_ext; [done|unfold asm_thumb_bcc_label; by rewrite (thumb_label_rel_ok label _ s dest Hm Hd)|].
  cbv beta iota zeta. fold o. rewrite (sw_small 32 eq_refl (dest - o)), (sw_small 32 eq_refl (dest - o - 4)) by pow_lia.
  assert ((dest =? u32 (-1)) = false) as -> by (apply Z.eqb_neq; change (u32 (-1)) with (2 ^ 32 - 1); pow_lia). cbn [negb andb].
  unfold bcc_halves. cbv zeta. destruct ((dest - o - 4 <=? -4) && _); [apply thumb_op16_emits|].
  destruct asm_thumb_allow_armv7m; [apply thumb_op32_emits|].
  set (f := fun o o' => [u8 (u16 (OP_BCC_N (cc .^ 1) (u32 (u32 (o' - o) - 4))));
    u8 (u16 (OP_BCC_N (cc .^ 1) (u32 (u32 (o' - o) - 4))) >> 8)]).
  set (ws := b_halves dest (o + 2)).
  assert (halves (OP_BCC_N (cc .^ 1) (2 * Z.of_nat (length ws) - 2) :: ws)
    = f o (o + 2 + Z.of_nat (length (halves ws))) ++ halves ws) as ->.
  { change (halves (?w :: ws)) with (halves [w] ++ halves ws). f_equal. subst f. cbv beta. rewrite length_halves.
    replace (u32 (u32 (o + 2 + 2 * Z.of_nat (length ws) - o) - 4)) with (u32 (2 * Z.of_nat (length ws) - 2)).
    - unfold halves, OP_BCC_N. cbn [fmap list_fmap concat app]. do 2 (apply f_equal2; [bitsolve|]). done.
    - rewrite uw_sub_l by done. f_equal. lia. }
  pose proof (emits_patched s 2 (asm_thumb_b_label label) (halves ws) f) as W.
  change (code_offset (base_of s)) with o in W. apply W; clear W.
  - unfold thumb_limit in Hroom. cbn [size_bits SizeT_32]. pow_lia.
  - intros x y. split; [subst f; bytes_tac|done].
  - intros junk Hj _. assert (thumb_at (puts junk s) label dest) as Hat' by (apply thumb_at_puts; [done..|by rewrite Hj|by rewrite Hj]).
    pose proof (b_label_emits _ _ _ Hat') as Hb. subst ws.
    change (base (puts junk s)) with (put_bytes junk (base s)) in Hb. by rewrite put_bytes_offset, Hs, Hj in Hb.
Qed.

(** A function that writes the code of a branch. *)
Lemma does_implements s m bs P : emits s m bs -> does (code_offset (base s)) bs P ->
  implements_when (reads_code s 0) s s m (fun n mc mc' => n = Z.of_nat (length bs) /\ P mc mc').
Proof.
  intros He HP. split; [done|]. exists bs. split; [done|]. intros code mc Hw Hc Hr.
  destruct (HP code mc Hw Hc Hr) as (mc' & Hruns & Hmc). by exists mc'.
Qed.

(** ** Jumps to a label *)

(** Where a function's code may jump to [label] from. *)
Record thumb_jump (room : Z) (s : asm_thumb_t) (label dest : Z) : Prop := {
  jump_at : thumb_at s label dest;
  jump_live : suppress (base s) = false;
  jump_room : code_offset (base s) + room <= thumb_limit;
}.
(** Control goes [d] bytes from the start of the code, or past it. *)
Definition thumb_branches (c : machine -> bool) (d n : Z) (mc mc' : machine) : Prop :=
  pc mc' = u32 (pc mc + (if c mc then d else n)) /\ same_except (flags ++ clobbers) mc mc'.

Section ToLabel.
Context (s : asm_thumb_t) (label dest : Z).
Abbreviation disp := (dest - code_offset (base s)).

Lemma thumb_b_implements : thumb_jump 0 s label dest -> b_reaches dest (code_offset (base s)) ->
  implements_when (reads_code s 0) s s (asm_thumb_b_label label)
    (fun _ mc mc' => pc mc' = u32 (pc mc + disp) /\ same_except clobbers mc mc').
Proof using.
  intros [Hat Hlive Hroom] Hreach. pose proof Hat as [Hm Hd [He Ho] [Hrd Hro]]. unfold thumb_limit in *.
  destruct (b_does dest (code_offset (base s)) He Ho ltac:(pow_lia) Hreach) as [n Hb].
  eapply when_mono; [eapply does_implements; [by apply b_label_emits|exact Hb]|done|]. by intros k mc mc' [_ Hg].
Qed.
(** With ARMv7-M nothing checks the distance of a jump. *)
Lemma thumb_b_wraps : thumb_jump 0 s label dest -> asm_thumb_allow_armv7m = true ->
  ~ (- 2 ^ 22 <= disp - 4 < 2 ^ 22) ->
  implements s (asm_thumb_b_label label) (fun _ mc mc' => pc mc' = u32 (pc mc + (4 + sw 23 (disp - 4))) /\ same_except [] mc mc').
Proof using.
  intros [Hat Hlive Hroom] Hv Hfar. pose proof Hat as [Hm Hd [He Ho] [Hrd Hro]]. unfold thumb_limit in *.
  exists (halves (b_halves dest (code_offset (base s)))). split; [by apply b_label_emits|]. intros code mc Hw Hc.
  assert (b_halves dest (code_offset (base s)) = [OP_BW_HI (disp - 4); OP_BW_LO (disp - 4)]) as E.
  { unfold b_halves. cbv zeta. rewrite Hv, signed_fit12 by pow_lia. destruct (Z.leb_spec (disp - 4) (-4)); [|done].
    destruct (Z.leb_spec (- 2 ^ 11) (disp - 4)); [|done]. exfalso. revert Hfar. pow_lia. }
  rewrite E in Hc. destruct (bw_does dest (code_offset (base s)) He Ho code mc Hw Hc) as (mc' & Hr & Hg);
    [intros Hv'; congruence|]. exists mc'. split; [done|]. unfold goes_if, clobbers in Hg. by rewrite Hv in Hg.
Qed.
Lemma thumb_bcc_implements cc : 0 <= cc < 14 -> thumb_jump 2 s label dest -> bcc_reaches dest (code_offset (base s)) ->
  implements_when (reads_code s 0) s s (asm_thumb_bcc_label cc label) (goes_if (cond cc) disp).
Proof using.
  intros Hcc [Hat Hlive Hroom] Hreach. pose proof Hat as [Hm Hd [He Ho] [Hrd Hro]].
  eapply when_mono; [eapply does_implements; [by apply bcc_label_emits|apply bcc_does; [done..| |done]]|done|].
  - unfold thumb_limit in *. pow_lia.
  - intros k mc mc' [-> Hg]. by rewrite length_halves.
Qed.
Lemma thumb_jump_puts bs room : thumb_jump room s label dest -> Z.of_nat (length bs) mod 2 = 0 -> Z.of_nat (length bs) <= room ->
  thumb_jump (room - Z.of_nat (length bs)) (puts bs s) label dest
  /\ code_offset (base (puts bs s)) = code_offset (base s) + Z.of_nat (length bs).
Proof using.
  intros [Hat Hlive Hroom] Hl Hr. assert (code_offset (base (puts bs s)) = code_offset (base s) + Z.of_nat (length bs)) as E.
  { change (base (puts bs s)) with (put_bytes bs (base s)). by rewrite put_bytes_offset, Hlive. }
  split; [|done]. constructor; [apply thumb_at_puts; [done..|lia]| |rewrite E; lia].
  change (base (puts bs s)) with (put_bytes bs (base s)). by rewrite put_bytes_suppress.
Qed.
End ToLabel.

(** ** Comparisons *)

Lemma thumb_cmp_exec rn o a b mc : read true rn mc = u32 a -> value true o mc = u32 b ->
  exec_straight (H := Thumb) [((14, CMP rn o), 2)] mc = Some (set_pc (u32 (pc mc + 2)) (compared a b mc)).
Proof.
  intros Ha Hb. transitivity (Some (set_pc (u32 (pc mc + 2)) (sub_flags (read true rn mc) (value true o mc) mc))); [done|].
  by rewrite Ha, Hb.
Qed.
Lemma same_flags X mc m1 m2 : same_except flags mc m1 -> same_except X m1 m2 -> same_except (flags ++ X) mc m2.
Proof. intros [H1 M1] [H2 M2]. split; [|congruence]. intros q [Hf Hx]%not_elem_of_app. by rewrite H2, H1. Qed.

Section Compare.
Context (s : asm_thumb_t) (label dest : Z) (Hjump : thumb_jump 4 s label dest) (Hreach : bcc_reaches dest (code_offset (base s) + 2)).
Abbreviation disp := (dest - code_offset (base s)).

Lemma thumb_compare_branch test rn o (a b : machine -> Z) cc (c : machine -> bool) :
  assembles s test [((14, CMP rn o), 2)] -> 0 <= cc < 14 ->
  (forall mc, read true rn mc = u32 (a mc) /\ value true o mc = u32 (b mc)) ->
  (forall mc, cond cc (compared (a mc) (b mc) mc) = c mc) ->
  implements_when (reads_code s 0) s s (test;; asm_thumb_bcc_label cc label) (thumb_branches c disp).
Proof using Hjump Hreach.
  intros Ht Hcc Hab Hc. pose proof (jump_at _ _ _ _ Hjump) as Hat. pose proof (jump_live _ _ _ _ Hjump) as Hlive.
  eapply when_mono; [apply (assembles_when (H0 := Thumb) (reads_code s 0) (fun bs => reads_code (puts bs s) 0) s _ _ _
    (fun mc mc1 => mc1 = set_pc (u32 (pc mc + 2)) (compared (a mc) (b mc) mc)) (goes_if (cond cc) (disp - 2)) Ht)|done|].
  - intros mc _. destruct (Hab mc) as [Ha Hb]. eexists. split; [by apply thumb_cmp_exec|done].
  - intros bs Hl. change (code_len _) with 2 in Hl.
    destruct (thumb_jump_puts s label dest bs 4 Hjump) as [Hj E]; [by rewrite Hl|lia|]. rewrite Hl in Hj, E.
    replace (disp - 2) with (dest - code_offset (base (puts bs s))) by lia.
    apply thumb_bcc_implements; [done|exact Hj|by rewrite E].
  - intros bs cs mc mc1 Hl Hr _ ->. change (code_len _) with 2 in Hl.
    pose proof (compared_same (a mc) (b mc) mc) as [Hk Hm]. unfold reads_code.
    destruct (thumb_jump_puts s label dest bs 4 Hjump) as [_ E]; [by rewrite Hl|lia|]. rewrite E.
    apply (reads_rest _ 0 0 bs cs mc); [done|by rewrite Hl| | |exact Hr].
    + rewrite reg_set_pc, Hk; [done|]. unfold flags, NF, ZF, CF, VF. repeat (apply not_elem_of_cons; split; [done|]). apply not_elem_of_nil.
    + intros x _. cbn [mem set_pc]. by rewrite Hm.
  - intros n mc mc' (n2 & m1 & -> & _ & -> & Hp & Hs). change (code_len _) with 2. split.
    + rewrite Hp. change (cond cc (set_pc _ ?m)) with (cond cc m). rewrite Hc, pc_set_pc, uw_add_l by done. f_equal. destruct (c mc); lia.
    + eapply same_flags; [apply compared_same|exact Hs].
Qed.

Lemma thumb_cmp_i8_assembles r i : low r -> 0 <= i < 256 ->
  assembles s (asm_thumb_cmp_rlo_i8 r i) [((14, CMP r (Imm i)), 2)].
Proof using. intros Hr Hi. low_ranges. t16_op idtac. Qed.
Lemma thumb_cmp_reg_assembles r1 r2 : low r1 -> low r2 ->
  assembles s (asm_thumb_cmp_rlo_rlo r1 r2) [((14, CMP r1 (Shifted r2 0)), 2)].
Proof using. intros H1 H2. low_ranges. t16_op format_4. Qed.

Lemma thumb_jump_if_reg_zero r t : low r -> implements_when (reads_code s 0) s s (GenericApi.ASM_JUMP_IF_REG_ZERO r label t)
  (thumb_branches (fun mc => u32 (reg r mc) =? 0) disp).
Proof using Hjump Hreach.
  intros Hr. apply (thumb_compare_branch _ r (Imm 0) (reg r) (fun _ => 0) 0); [by apply thumb_cmp_i8_assembles|done| |].
  - intros mc. by rewrite read_gpr by by apply low_gpr.
  - intros mc. exact (compared_equal (reg r mc) 0 mc).
Qed.
Lemma thumb_jump_if_reg_nonzero r t : low r -> implements_when (reads_code s 0) s s (GenericApi.ASM_JUMP_IF_REG_NONZERO r label t)
  (thumb_branches (fun mc => negb (u32 (reg r mc) =? 0)) disp).
Proof using Hjump Hreach.
  intros Hr. apply (thumb_compare_branch _ r (Imm 0) (reg r) (fun _ => 0) 1); [by apply thumb_cmp_i8_assembles|done| |].
  - intros mc. by rewrite read_gpr by by apply low_gpr.
  - intros mc. exact (f_equal negb (compared_equal (reg r mc) 0 mc)).
Qed.
Lemma thumb_jump_if_reg_eq r1 r2 : low r1 -> low r2 -> implements_when (reads_code s 0) s s (GenericApi.ASM_JUMP_IF_REG_EQ r1 r2 label)
  (thumb_branches (fun mc => u32 (reg r1 mc) =? u32 (reg r2 mc)) disp).
Proof using Hjump Hreach.
  intros H1 H2. apply (thumb_compare_branch _ r1 (Shifted r2 0) (reg r1) (reg r2) 0); [by apply thumb_cmp_reg_assembles|done| |].
  - intros mc. by rewrite read_gpr, value_reg by by apply low_gpr.
  - intros mc. exact (compared_equal (reg r1 mc) (reg r2 mc) mc).
Qed.
End Compare.
End Branches.

(** ** Calls *)

(** To the address in a register. *)
Lemma thumb_bx_implements s r : gpr r ->
  implements s (asm_thumb_bx_reg r) (fun _ mc mc' => mc' = branch_exchange (u32 (reg r mc)) mc).
Proof.
  intros Hr. assert (0 <= r < 16) by (unfold gpr in Hr; lia). eapply assembles_implements.
  - eapply (assembles_op16 s _ (14, BX r)); autounfold with thumb_ops; [field 11 5; reflexivity|].
    unfold decode_thumb16. field 12 4. unfold decode_t16. field 11 5. field 10 1. unfold decode_high. field 8 2. field 0 3. field 7 1. operands.
  - intros mc _. eexists. split; [|reflexivity].
    transitivity (Some (branch_exchange (read true r mc) mc)); [done|]. by rewrite read_gpr.
Qed.
Lemma thumb_blx_assembles s r : low r -> assembles s (asm_thumb_op16 (OP_BLX r)) [((14, BLX r), 2)].
Proof. intros Hr. unfold OP_BLX, low in *. enumerate 8%nat r; by apply assembles_op16. Qed.

Section Call.
Context `{ThumbConfig} `{PyMisc} (s : asm_thumb_t) (fun_id temp : Z) (Hid : 0 <= fun_id < 2 ^ 28) (Ht : low temp) (Hs : thumb_live s).
(** The address of the word [fun_id] of the function table. *)
Definition thumb_table_slot (mc : machine) : Z := u32 (reg ASM_THUMB_REG_FUN_TABLE mc + 4 * fun_id).

Lemma thumb_bl_ind_implements :
  implements_when (fun bs mc => reads_code s 4 bs mc /\ apart 4 Word (thumb_table_slot mc) mc) s s (asm_thumb_bl_ind fun_id temp)
    (fun n mc mc' => exists m1, loads Word temp thumb_table_slot mc m1
       /\ mc' = branch_exchange (u32 (reg temp m1)) (set_reg 14 (u32 (pc mc + n) .| 1) m1)).
Proof using Hid Ht Hs.
  assert (low ASM_THUMB_REG_FUN_TABLE) as H7 by done.
  pose proof (offset_loads s Word temp ASM_THUMB_REG_FUN_TABLE fun_id Ht H7 Hs Hid) as Hl.
  eapply when_mono; [eapply (when_then _ _ (fun _ _ => True) s _ _ (fun _ => loads Word temp thumb_table_slot)
    (fun n mc mc' => mc' = branch_exchange (u32 (reg temp mc)) (set_reg 14 (u32 (pc mc + n) .| 1) mc)) Hl)|intros bs mc HC; exact HC|].
  - intros bs. apply when_implements. eapply assembles_implements; [by apply thumb_blx_assembles|].
    intros mc _. eexists. split; [|reflexivity]. change (code_len _) with 2.
    transitivity (Some (branch_exchange (read true temp mc) (set_reg 14 (u32 (pc mc + 2) .| 1) mc))); [done|]. by rewrite read_gpr by by apply low_gpr.
  - intros bs cs mc [Hr Hap]. split; [|done]. split; [by eapply reads_app|done].
  - intros n mc mc' (n1 & n2 & m1 & -> & Hp & Hloads & ->). exists m1. split; [done|].
    change addr_width with 32 in *. by rewrite Hp, uw_add_l, Z.add_assoc.
Qed.
End Call.

(** ** The address of a label *)

Lemma thumb_add_pc_implements s r : low r -> implements s (asm_thumb_add_reg_reg r ASM_THUMB_REG_R15)
  (fun n mc mc' => mc' = set_pc (u32 (pc mc + n)) (set_reg r (u32 (reg r mc + (pc mc + 4))) mc)).
Proof.
  intros Hr. low_ranges. eapply assembles_implements.
  - eapply (assembles_op16 s _ (14, DP false ADD r r (Shifted 15 0))); autounfold with thumb_ops; [field 11 5; reflexivity|].
    unfold decode_thumb16. field 12 4. unfold decode_t16. field 11 5. field 10 1. unfold decode_high. field 8 2. operands.
  - intros mc _. eexists. split; [|reflexivity].
    transitivity (m' ← write true r (u32 (read true r mc + u32 (u32 (pc mc + 4) << 0))) (u32 (pc mc + 2)) mc; Some m'); [done|].
    rewrite read_gpr, write_gpr, Z.shiftl_0_r, uw_uw, uw_add_l, uw_add_r by (done || by apply low_gpr). done.
Qed.

Section PcRel.
Context `{ThumbConfig} `{PyMisc} (s : asm_thumb_t) (label dest rd : Z) (Hat : thumb_at s label dest) (Hd : low rd).
Abbreviation disp := (dest - code_offset (base s)).

(** The bytes before the addition, and what they leave in the register. *)
Definition pcrel_bytes : Z := if asm_thumb_allow_armv7m then 6 else 8.
Lemma odd_distance : disp .| 1 = disp + 1.
Proof using Hat.
  destruct (at_even _ _ _ Hat) as [He Ho]. assert (disp mod 2 = 0) as Hev by (clear -He Ho; Z.to_euclidean_division_equations; lia).
  rewrite Z.add_nocarry_lxor, Z.lxor_lor; [done|..]; destruct (even_half _ Hev) as [y ->]; bitsolve.
Qed.
Lemma pcrel_value_takes rel : implements s
  (if asm_thumb_allow_armv7m then asm_thumb_mov_reg_i16 ASM_THUMB_OP_MOVW rd rel;; asm_thumb_sxth_rlo_rlo rd rd
   else asm_thumb_mov_rlo_i16 rd rel;; asm_thumb_sxth_rlo_rlo rd rd)
  (takes pcrel_bytes (computes rd (fun _ => s16 rel))).
Proof using Hd.
  unfold pcrel_bytes. destruct asm_thumb_allow_armv7m.
  - eapply (takes_seq 4 2); [apply thumb_movw_takes; by apply low_gpr|intros bs; by apply thumb_sxth_takes|].
    cbv beta. intros mc mc1 -> _. f_equal. apply thumb_sw_field; [done|]. bitsolve.
  - eapply (takes_seq 6 2); [by apply thumb_mov_rlo_i16_takes|intros bs; by apply thumb_sxth_takes|].
    cbv beta. intros mc mc1 -> _. f_equal. apply thumb_sw_field; [done|]. bitsolve.
Qed.
(** The address has its lowest bit set, for a jump in Thumb state. *)
Lemma thumb_mov_reg_pcrel_computes : - 2 ^ 15 <= disp + 1 - (pcrel_bytes + 4) < 2 ^ 15 ->
  implements s (asm_thumb_mov_reg_pcrel rd label) (computes rd (fun mc => pc mc + disp + 1)).
Proof using Hat Hd.
  intros Hr. pose proof Hat as [Hm Hdest _ [Hrd Hro]]. unfold thumb_limit in *.
  set (rel := disp + 1 - (pcrel_bytes + 4)) in *.
  eapply (implements_ext _ _ ((if asm_thumb_allow_armv7m then asm_thumb_mov_reg_i16 ASM_THUMB_OP_MOVW rd rel;; asm_thumb_sxth_rlo_rlo rd rd
    else asm_thumb_mov_rlo_i16 rd rel;; asm_thumb_sxth_rlo_rlo rd rd);; asm_thumb_add_reg_reg rd ASM_THUMB_REG_R15)).
  { assert (get_label_dest label s = Ok (dest, s)) as E by by apply on_base_pure, label_dest_ok.
    unfold asm_thumb_mov_reg_pcrel. rewrite (bind_Ok _ _ _ _ _ E), gets_bind. cbv zeta.
    rewrite (sw_small 32 eq_refl disp), odd_distance by pow_lia. subst rel. unfold pcrel_bytes.
    destruct asm_thumb_allow_armv7m; by rewrite (sw_small 32 eq_refl) by pow_lia. }
  eapply implements_mono; [eapply (implements_seq s _ _ (takes pcrel_bytes (computes rd (fun _ => s16 rel))));
    [|intros bs; by apply thumb_add_pc_implements]|].
  - eapply implements_mono; [apply pcrel_value_takes|]. intros n mc mc' Hc. split; [apply Hc|exact Hc].
  - intros n mc mc' (n1 & n2 & mc1 & -> & Hp & [-> (_ & Hr1 & Hk & Hm1)] & ->). change addr_width with 32 in *. split; [|split].
    + by rewrite pc_set_pc, Hp, uw_add_l, Z.add_assoc.
    + rewrite reg_set_pc, reg_set_eq, Hr1, Hp, (sw_small 16 eq_refl rel) by done. subst rel. clear. word_lia.
    + split; [|done]. intros q Hq. rewrite reg_set_pc, reg_set_ne; [by apply Hk|]. by apply not_elem_of_cons in Hq as [? _].
Qed.
End PcRel.
