(* ===== verification/AsmThumbFrame.v ===== *)
(** * AsmThumbFrame: function entry and exit of asmthumb.c

    The entry pushes R4 to R7 and LR, with R1 or R1 to R3 to make room for the
    first locals, and moves the stack pointer for the others; the exit moves it
    back, pops the registers, and returns by popping PC. *)

From S2P Require Import Prelude AsmBase TwoPass PyMisc Machine Emission AsmThumb AsmThumbPass ArmIsa ArmEffect AsmThumbInstr AsmThumbImm AsmThumbMem AsmThumbJump.

Set Default Goal Selector "!".

#[local] Existing Instance SizeT_32.
#[local] Hint Extern 0 Isa => exact Thumb : typeclass_instances.

(** ** Moving the stack pointer *)

Definition moved_sp (d : Z) (mc : machine) : machine := set_reg 13 (u32 (reg 13 mc + d)) mc.
Lemma moved_twice a b mc : moved_sp b (moved_sp a mc) = moved_sp (a + b) mc.
Proof.
  unfold moved_sp. rewrite reg_set_eq, uw_add_l, Z.add_assoc by done. unfold set_reg. cbn [regs pc mem]. by rewrite insert_insert_eq.
Qed.
Lemma moved_blind d : pc_blind (moved_sp d).
Proof. done. Qed.

(** The two directions: the instruction of seven bits, and the sign. *)
Definition sp_ops : list ((Z -> Z) * Z) := [(OP_SUB_SP, -1); (OP_ADD_SP, 1)].

Section Adjust.
Context (op : Z -> Z) (sgn : Z) (Hop : In (op, sgn) sp_ops).

Lemma op_sp_performs s n : 0 <= n < 128 -> performs s (asm_thumb_op16 (op n)) (moved_sp (sgn * (4 * n))).
Proof using Hop.
  intros Hn. destruct Hop as [[= <- <-]|[[= <- <-]|[]]].
  - apply (thumb_performs _ _ (DP false SUB 13 13 (Imm (4 * n))) 2); [unfold OP_SUB_SP; t16 ltac:(unfold decode_misc; field 8 4; field 7 1)|].
    intros next mc. cbn [exec_op dp_exec value]. rewrite read_gpr, write_gpr by done. unfold moved_sp. do 3 f_equal.
    rewrite uw_sub_l by done. f_equal; lia.
  - apply (thumb_performs _ _ (DP false ADD 13 13 (Imm (4 * n))) 2); [unfold OP_ADD_SP; t16 ltac:(unfold decode_misc; field 8 4; field 7 1)|].
    intros next mc. cbn [exec_op dp_exec value]. rewrite read_gpr, write_gpr by done. unfold moved_sp. do 3 f_equal.
    rewrite uw_add_l by done. f_equal; lia.
Qed.

(** The loop moves it by 127 words at a time. *)
Lemma sp_loop_performs fuel : forall s adj, 0 <= adj < 2 ^ 31 -> adj <= Z.of_nat fuel ->
  performs s (adj ← adjust_sp_loop fuel op adj; asm_thumb_op16 (op adj)) (moved_sp (sgn * (4 * adj))).
Proof using Hop.
  induction fuel as [|fuel IH]; intros s adj Ha Hf; cbn [adjust_sp_loop]; rewrite thumb_unsigned_fit7 by pow_lia.
  - rewrite ltb_true by lia. apply op_sp_performs. lia.
  - destruct (Z.ltb_spec adj 128) as [Hlt|Hge]; [apply op_sp_performs; lia|].
    eapply (implements_ext _ _ (asm_thumb_op16 (op 127);; adj ← adjust_sp_loop fuel op (s32 (adj - 127)); asm_thumb_op16 (op adj)));
      [apply bind_assoc|].
    rewrite (sw_small 32 eq_refl (adj - 127)) by lia. eapply performs_ext; [|eapply (performs_seq s _ _ (moved_sp (sgn * (4 * 127)))
      (moved_sp (sgn * (4 * (adj - 127))))); [by apply op_sp_performs|done|done|intros bs; apply IH; lia]].
    intros mc. cbv beta. rewrite moved_twice. f_equal. lia.
Qed.
End Adjust.

Section Room.
Context `{ThumbConfig} `{PyMisc}.

(** The wide instruction takes eleven bits of the number of bytes. *)
Lemma sub_sp_wide_performs s n :
  performs s (asm_thumb_op32 (OP_SUB_W_RRI_HI ASM_THUMB_REG_SP) (OP_SUB_W_RRI_LO ASM_THUMB_REG_SP n)) (moved_sp (-1 * uw 11 n)).
Proof using.
  apply (thumb_performs _ _ (DP false SUB 13 13 (Imm (uw 11 n))) 4).
  - unfold OP_SUB_W_RRI_HI, OP_SUB_W_RRI_LO, ASM_THUMB_REG_SP, ASM_THUMB_REG_R13. apply assembles_op32; [field 11 5; reflexivity|].
    unfold decode_thumb32. field 11 5. field 15 1. unfold decode_plain. field 4 6. operands.
  - intros next mc. cbn [exec_op dp_exec value]. rewrite read_gpr, write_gpr by done. unfold moved_sp. do 3 f_equal.
    rewrite uw_sub_l by done. f_equal; lia.
Qed.
Lemma add_sp_wide_performs s n :
  performs s (asm_thumb_op32 (OP_ADD_W_RRI_HI ASM_THUMB_REG_SP) (OP_ADD_W_RRI_LO ASM_THUMB_REG_SP n)) (moved_sp (1 * uw 11 n)).
Proof using.
  apply (thumb_performs _ _ (DP false ADD 13 13 (Imm (uw 11 n))) 4).
  - unfold OP_ADD_W_RRI_HI, OP_ADD_W_RRI_LO, ASM_THUMB_REG_SP, ASM_THUMB_REG_R13. apply assembles_op32; [field 11 5; reflexivity|].
    unfold decode_thumb32. field 11 5. field 15 1. unfold decode_plain. field 4 6. operands.
  - intros next mc. cbn [exec_op dp_exec value]. rewrite read_gpr, write_gpr by done. unfold moved_sp. do 3 f_equal.
    rewrite uw_add_l by done. f_equal; lia.
Qed.

(** Room for [n] words is made, or released. *)
Definition thumb_adjust (op : Z -> Z) (hi lo : Z -> Z) (n : Z) : M asm_thumb_t unit :=
  if 0 <? n then
    if asm_thumb_allow_armv7m then
      if UNSIGNED_FIT7 n then asm_thumb_op16 (op n) else asm_thumb_op32 (hi ASM_THUMB_REG_SP) (lo (u32 (n * 4)))
    else
      adj ← adjust_sp_loop (Z.to_nat n) op (s32 n);
      asm_thumb_op16 (op adj)
  else mret tt.
(** With ARMv7-M there are 511 words at most. *)
Definition adjustable (n : Z) : Prop := 0 <= n < 2 ^ 28 /\ (asm_thumb_allow_armv7m = true -> n < 512).

Lemma thumb_adjust_performs s op hi lo sgn n : In (op, sgn) sp_ops -> adjustable n ->
  (forall t k, performs t (asm_thumb_op32 (hi ASM_THUMB_REG_SP) (lo k)) (moved_sp (sgn * uw 11 k))) ->
  performs s (thumb_adjust op hi lo n) (fun mc => if 0 <? n then moved_sp (sgn * (4 * n)) mc else mc).
Proof using.
  intros Hop [Hn Hwide] Hw. unfold thumb_adjust. apply (performs_if (0 <? n) s _ (moved_sp (sgn * (4 * n)))). intros Hpos%Z.ltb_lt.
  destruct asm_thumb_allow_armv7m eqn:Hv.
  - specialize (Hwide eq_refl). rewrite thumb_unsigned_fit7 by pow_lia. destruct (Z.ltb_spec n 128); [apply op_sp_performs; [done|lia]|].
    rewrite (uw_small 32 (n * 4)), Z.mul_comm by pow_lia. pose proof (Hw s (4 * n)) as W. by rewrite (uw_small 11 (4 * n)) in W by pow_lia.
  - rewrite (sw_small 32 eq_refl n) by pow_lia. apply sp_loop_performs; [done|pow_lia|lia].
Qed.
(** More words than that lose the upper bits of the number of bytes. *)
Lemma thumb_adjust_wraps s op hi lo sgn n : asm_thumb_allow_armv7m = true -> 512 <= n < 2 ^ 28 ->
  (forall t k, performs t (asm_thumb_op32 (hi ASM_THUMB_REG_SP) (lo k)) (moved_sp (sgn * uw 11 k))) ->
  performs s (thumb_adjust op hi lo n) (moved_sp (sgn * (4 * n mod 2 ^ 11))).
Proof using.
  intros Hv Hn Hw. unfold thumb_adjust. rewrite Hv, ltb_true, thumb_unsigned_fit7, ltb_false by pow_lia.
  rewrite (uw_small 32 (n * 4)), (Z.mul_comm n) by pow_lia. apply Hw.
Qed.
End Room.

(** ** The frame *)

(** The registers pushed before LR: R4 to R7, and those whose words are for
    locals; the room below them, in words. *)
Definition thumb_saved (locals : Z) : list Z := if 1 <? locals then [1; 2; 3; 4; 5; 6; 7] else [1; 4; 5; 6; 7].
Definition thumb_room (locals : Z) : Z := (entry_frame locals).2.
Definition saved_bytes (locals : Z) : Z := 4 * (Z.of_nat (length (thumb_saved locals)) + 1).

Lemma thumb_entry_frame locals : 0 <= locals < 2 ^ 28 ->
  entry_frame locals = (if 1 <? locals then 0xfe else 0xf2, thumb_room locals).
Proof.
  intros Hl. unfold thumb_room. assert (locals = 0 \/ locals = 1 \/ locals = 2 \/ locals = 3 \/ 3 < locals) as Hc by lia.
  destruct Hc as [->|[->|[->|[->|Hl3]]]]; [done..|]. rewrite ltb_true by lia.
  unfold entry_frame. destruct locals as [|[[|[]|]|[]|]|]; done || lia.
Qed.
(** There is a word for each local, and the frame is a multiple of 8 bytes. *)
Lemma thumb_room_bounds locals : 0 <= locals < 2 ^ 28 ->
  0 <= thumb_room locals <= locals
  /\ 4 * locals <= 4 * thumb_room locals + (saved_bytes locals - 20)
  /\ (4 * thumb_room locals + saved_bytes locals) mod 8 = 0.
Proof.
  intros Hl. assert (locals = 0 \/ locals = 1 \/ locals = 2 \/ locals = 3 \/ 3 < locals) as Hc by lia.
  destruct Hc as [->|[->|[->|[->|Hl3]]]]; [done..|].
  assert (thumb_room locals = (locals - 2) - (locals - 2) mod 2) as E.
  { unfold thumb_room. assert ((entry_frame locals).2 = u32 (s32 (locals - 3 + 1) .& Z.lnot 1)) as ->.
    { unfold entry_frame. destruct locals as [|[[|[]|]|[]|]|]; done || lia. }
    rewrite (sw_small 32 eq_refl) by pow_lia. rewrite <- Z.ldiff_land. change 1 with (Z.ones 1) at 2. rewrite Z.ldiff_ones_r by done.
    rewrite Z.shiftl_mul_pow2, Z.shiftr_div_pow2 by done. replace (locals - 3 + 1) with (locals - 2) by lia.
    change (2 ^ 1) with 2. rewrite (Z.mod_eq (locals - 2) 2) by done. rewrite uw_small; [lia|].
    fold_pow2. Z.to_euclidean_division_equations. lia. }
  unfold saved_bytes, thumb_saved. rewrite ltb_true by lia. rewrite E. cbn [length]. clear E. Z.to_euclidean_division_equations. lia.
Qed.

Section Frame.
Context (locals : Z).
Abbreviation rs := (thumb_saved locals).
Abbreviation k := (saved_bytes locals).
Abbreviation n := (4 * thumb_room locals).

(** Entering: the registers are below the stack pointer, the room below them. *)
Record thumb_entered (m m1 : machine) : Prop := {
  t_entered_sp : u32 (reg 13 m1) = u32 (reg 13 m - (k + n));
  t_entered_reg r : r <> 13 -> reg r m1 = reg r m;
  t_entered_saved i r : (rs ++ [14]) !! i = Some r ->
    load 32 4 (mem m1) (reg 13 m - k + 4 * Z.of_nat i) = u32 (reg r m);
  t_entered_mem : keeps_above k (mem m) m m1;
}.
(** The body may write all but the words of R4 to R7 and LR. *)
Definition thumb_body_keeps (m1 mb : machine) : Prop :=
  u32 (reg 13 mb) = u32 (reg 13 m1)
  /\ forall o, n + (k - 20) <= o < n + k -> peek 32 (mem mb) (reg 13 m1 + o) = peek 32 (mem m1) (reg 13 m1 + o).
Record thumb_left (mb m2 : machine) : Prop := {
  t_left_reg i r : rs !! i = Some r -> reg r m2 = load 32 4 (mem mb) (reg 13 mb + n + 4 * Z.of_nat i);
  t_left_sp : u32 (reg 13 m2) = u32 (reg 13 mb + n + k);
  t_left_pc : pc m2 = Z.ldiff (u32 (load 32 4 (mem mb) (reg 13 mb + n + (k - 4)))) 1;
  t_left_state : reg TF m2 = load 32 4 (mem mb) (reg 13 mb + n + (k - 4)) .& 1;
  t_left_mem : mem m2 = mem mb;
}.

(** The last of the pushed words. *)
Lemma thumb_saved_last r : 4 <= r <= 7 -> exists i, 4 * Z.of_nat i = k - 20 + 4 * (r - 4)
  /\ rs !! i = Some r /\ (rs ++ [14]) !! i = Some r.
Proof using.
  intros Hr. unfold saved_bytes, thumb_saved. assert (r = 4 \/ r = 5 \/ r = 6 \/ r = 7) as Hc by lia.
  destruct (1 <? locals).
  - exists (Z.to_nat (r - 1)). by destruct Hc as [->|[->|[->| ->]]].
  - exists (Z.to_nat (r - 3)). by destruct Hc as [->|[->|[->| ->]]].
Qed.
Lemma thumb_saved_lr : exists i, 4 * Z.of_nat i = k - 4 /\ (rs ++ [14]) !! i = Some 14.
Proof using. unfold saved_bytes, thumb_saved. destruct (1 <? locals); [by exists 7%nat|by exists 5%nat]. Qed.

Lemma thumb_frame_roundtrip m m1 mb m2 : thumb_entered m m1 -> thumb_body_keeps m1 mb -> thumb_left mb m2 ->
  (forall r, 4 <= r <= 7 -> reg r m2 = u32 (reg r m))
  /\ u32 (reg 13 m2) = u32 (reg 13 m)
  /\ pc m2 = Z.ldiff (u32 (reg 14 m)) 1 /\ reg TF m2 = u32 (reg 14 m) .& 1.
Proof using.
  intros [Hs Hr Hsv Hm] [Hsb Hk] [Lr Ls Lp Lt Lm].
  assert (forall i r, k - 20 <= 4 * Z.of_nat i < k - 3 -> (rs ++ [14]) !! i = Some r ->
    load 32 4 (mem mb) (reg 13 mb + n + 4 * Z.of_nat i) = u32 (reg r m)) as Hload.
  { intros i r Hi Hri. rewrite <- (Hsv i r Hri).
    transitivity (load 32 4 (mem m1) (reg 13 m1 + (n + 4 * Z.of_nat i))).
    - rewrite (load_cong 32 eq_refl 4 _ _ (reg 13 m1 + (n + 4 * Z.of_nat i)))
        by (rewrite <- Z.add_assoc, <- uw_add_l, Hsb, uw_add_l by done; done).
      apply load_ext. intros j Hj. rewrite <- Z.add_assoc. apply Hk. lia.
    - apply load_cong; [done|]. rewrite <- uw_add_l, Hs, uw_add_l by done. f_equal. lia. }
  destruct thumb_saved_lr as (ilr & Ei & Elr). assert (load 32 4 (mem mb) (reg 13 mb + n + (k - 4)) = u32 (reg 14 m)) as E14.
  { rewrite <- Ei. apply Hload; [lia|done]. }
  split; [|split; [|split]].
  - intros r Hr'. destruct (thumb_saved_last r Hr') as (i & Hi & E1 & E2). rewrite (Lr _ _ E1). apply Hload; [lia|done].
  - rewrite Ls, <- Z.add_assoc, <- uw_add_l, Hsb, uw_add_l, <- uw_add_l, Hs, uw_add_l by done. f_equal. lia.
  - by rewrite Lp, E14, uw_uw.
  - by rewrite Lt, E14.
Qed.

(** The registers pushed and popped. *)
Definition thumb_pushed (mc : machine) : machine :=
  set_reg 13 (u32 (reg 13 mc - k)) (set_mem (store_words (u32 (reg 13 mc - k)) ((fun r => read true r mc) <$> (rs ++ [14])) (mem mc)) mc).
Definition thumb_popped (mc : machine) : machine :=
  load_words (rs ++ [15]) (u32 (reg 13 mc)) (set_reg 13 (u32 (u32 (reg 13 mc) + k)) mc).
Definition thumb_reglist : Z := if 1 <? locals then 0xfe else 0xf2.

Lemma thumb_push_performs s : performs s (asm_thumb_op16 (OP_PUSH_RLIST_LR thumb_reglist)) thumb_pushed.
Proof using.
  unfold thumb_reglist, thumb_pushed, saved_bytes, thumb_saved.
  destruct (1 <? locals); (eapply thumb_performs; [by apply assembles_op16|]; by intros next mc).
Qed.
Lemma thumb_pushed_blind : pc_blind thumb_pushed.
Proof using. intros a mc. unfold thumb_pushed, thumb_saved, saved_bytes. by destruct (1 <? locals). Qed.
Lemma thumb_pop_implements s : implements s (asm_thumb_op16 (OP_POP_RLIST_PC thumb_reglist))
  (fun _ mc mc' => exists a, mc' = thumb_popped (set_pc a mc)).
Proof using.
  unfold thumb_reglist, thumb_popped, saved_bytes, thumb_saved.
  destruct (1 <? locals); (eapply assembles_implements; [by apply assembles_op16|]; intros mc _; eexists; split; [done|by eexists]).
Qed.

Lemma length_saved : 4 * Z.of_nat (length (rs ++ [14])) = k.
Proof using. unfold saved_bytes. rewrite length_app. cbn [length]. lia. Qed.
Lemma saved_bytes_bounds : 24 <= k <= 32.
Proof using. unfold saved_bytes, thumb_saved. by destruct (1 <? locals). Qed.
Lemma thumb_saved_gpr r : r ∈ (rs ++ [14]) -> gpr r /\ r <> 13.
Proof using.
  intros Hr. unfold thumb_saved in Hr. revert r Hr. destruct (1 <? locals);
    apply Forall_forall; repeat (apply List.Forall_cons; [by repeat split|]); apply List.Forall_nil.
Qed.
Lemma thumb_saved_nodup : NoDup rs /\ (15 ∉ rs) /\ (13 ∉ rs) /\ (TF ∉ rs).
Proof using. unfold thumb_saved. destruct (1 <? locals); repeat split; by apply (bool_decide_unpack _). Qed.

Lemma thumb_pushed_entered mc m1 : u32 (reg 13 m1) = u32 (reg 13 (thumb_pushed mc) - n) ->
  (forall r, r <> 13 -> reg r m1 = reg r mc) -> mem m1 = mem (thumb_pushed mc) -> thumb_entered mc m1.
Proof using.
  pose proof saved_bytes_bounds as Hk. intros Hs Hr Hm. constructor; [|done|rewrite Hm|].
  - rewrite Hs. unfold thumb_pushed. rewrite reg_set_eq, uw_sub_l by done. f_equal. lia.
  - intros i r Hi. cbn [mem thumb_pushed set_reg set_mem].
    rewrite (load_cong 32 eq_refl 4 _ _ (u32 (reg 13 mc - k) + 4 * Z.of_nat i)) by by rewrite uw_add_l.
    rewrite <- (uw_uw 32 eq_refl (reg r mc)). apply store_words_load; [rewrite length_fmap, length_saved; lia|].
    rewrite list_lookup_fmap, Hi. cbn [fmap option_fmap option_map]. rewrite read_gpr; [done|].
    by eapply thumb_saved_gpr, list_elem_of_lookup_2.
  - intros x Hx. rewrite Hm. cbn [mem thumb_pushed set_reg set_mem]. apply store_words_other.
    rewrite length_fmap, length_saved. by rewrite uw_sub_r.
Qed.
Lemma thumb_popped_left mb mc : u32 (reg 13 mc) = u32 (reg 13 mb + n) -> mem mc = mem mb -> thumb_left mb (thumb_popped mc).
Proof using.
  intros Ms Mm. unfold thumb_popped. rewrite load_words_app. set (m1 := set_reg 13 _ mc).
  assert (forall o, load 32 4 (mem mc) (u32 (reg 13 mc) + o) = load 32 4 (mem mb) (reg 13 mb + n + o)) as E.
  { intros o. rewrite Mm. apply load_cong; [done|]. by rewrite uw_add_l, <- uw_add_l, Ms, uw_add_l. }
  destruct thumb_saved_nodup as (Hnd & H15 & H13 & HTF).
  destruct (load_words_spec rs H15 Hnd (u32 (reg 13 mc)) m1) as (Hr & Ho & Hm & Hp).
  set (m2 := load_words rs _ m1) in *. cbn [load_words]. unfold load_reg. simpl (15 =? 15). cbv iota.
  replace (4 * Z.of_nat (length rs)) with (k - 4) by (unfold saved_bytes; lia). rewrite Hm. change (mem m1) with (mem mc). rewrite E.
  constructor.
  - intros i r Hi. unfold branch_exchange. rewrite reg_set_pc, reg_set_ne.
    + rewrite (Hr i r Hi). apply E.
    + apply list_elem_of_lookup_2 in Hi. intros ->. by apply HTF.
  - unfold branch_exchange. rewrite reg_set_pc, reg_set_ne, Ho by (done || exact H13). unfold m1.
    by rewrite reg_set_eq, uw_uw, uw_add_l, <- uw_add_l, Ms, uw_add_l.
  - done.
  - unfold branch_exchange. by rewrite reg_set_pc, reg_set_eq.
  - change (mem (branch_exchange _ m2)) with (mem m2). by rewrite Hm.
Qed.
End Frame.

(** ** Entry and exit *)

Section EntryExit.
Context `{ThumbConfig} `{PyMisc} (s : asm_thumb_t) (locals : Z) (Hl : 0 <= locals < 2 ^ 28).
(** The function is called in Thumb state. *)
Definition from_arm_state : bool := if MICROPY_DYNAMIC_COMPILER then native_arch =? MP_NATIVE_ARCH_ARMV6 else called_from_arm_state.
Hypothesis Hroom : asm_thumb_allow_armv7m = true -> thumb_room locals < 512.

Definition thumb_in_frame : asm_thumb_t := set_stack_adjust (thumb_room locals) (set_push_reglist (thumb_reglist locals) s).

Lemma room_adjustable : adjustable (thumb_room locals).
Proof using Hl Hroom. pose proof (thumb_room_bounds locals Hl) as [? _]. split; [lia|done]. Qed.
Lemma moved_sp_of sgn n mc : 0 <= n -> u32 (reg 13 (if 0 <? n then moved_sp (sgn * (4 * n)) mc else mc)) = u32 (reg 13 mc + sgn * (4 * n)).
Proof using.
  intros Hn. destruct (Z.ltb_spec 0 n); [unfold moved_sp; by rewrite reg_set_eq, uw_uw|].
  replace n with 0 by lia. by rewrite Z.mul_0_r, Z.add_0_r.
Qed.

(** The registers pushed and the room made, in Thumb state. *)
Definition thumb_enter : M asm_thumb_t unit :=
  asm_thumb_op16 (OP_PUSH_RLIST_LR (thumb_reglist locals));; thumb_adjust OP_SUB_SP OP_SUB_W_RRI_HI (OP_SUB_W_RRI_LO ASM_THUMB_REG_SP) (thumb_room locals).
Lemma thumb_enter_implements t : implements t thumb_enter (fun n mc m1 => pc m1 = u32 (pc mc + n) /\ thumb_entered locals mc m1).
Proof using Hl Hroom.
  pose proof (thumb_room_bounds locals Hl) as [Hn _]. set (f := fun mc => if 0 <? thumb_room locals then moved_sp (-1 * (4 * thumb_room locals)) mc else mc).
  eapply implements_mono; [eapply (performs_seq t _ _ (thumb_pushed locals) f); [apply thumb_push_performs|apply thumb_pushed_blind| |]|].
  - intros a mc. unfold f. by destruct (0 <? _).
  - intros bs. apply thumb_adjust_performs; [by left|apply room_adjustable|]. intros u k. by apply sub_sp_wide_performs.
  - intros n mc mc' ->. split; [done|]. apply thumb_pushed_entered.
    + rewrite reg_set_pc. subst f. cbv beta. rewrite moved_sp_of by lia. f_equal; lia.
    + intros r Hr. rewrite reg_set_pc. unfold f, moved_sp, thumb_pushed. destruct (0 <? _); by rewrite !reg_set_ne.
    + unfold f. by destruct (0 <? _).
Qed.

Lemma thumb_entry_eq : asm_thumb_entry locals s
  = ((if from_arm_state then arm_state_prelude else mret tt);; thumb_enter;;
     modify (set_push_reglist (thumb_reglist locals));; modify (set_stack_adjust (thumb_room locals))) s.
Proof using Hl.
  unfold asm_thumb_entry. rewrite assert_true by (apply leb_true; lia).
  fold from_arm_state. rewrite thumb_entry_frame by done. fold (thumb_reglist locals). unfold thumb_enter, thumb_adjust.
  seq_assoc.
Qed.
Lemma thumb_entry_implements : from_arm_state = false -> implements_to s thumb_in_frame (asm_thumb_entry locals)
  (fun n mc m1 => pc m1 = u32 (pc mc + n) /\ thumb_entered locals mc m1).
Proof using Hl Hroom.
  intros Hf. eapply (implements_to_intro s s _ _ thumb_enter (modify (set_push_reglist (thumb_reglist locals));; modify (set_stack_adjust (thumb_room locals))));
    [done|done| |done|apply thumb_enter_implements].
  rewrite thumb_entry_eq, Hf. reflexivity.
Qed.

Lemma thumb_exit_implements t : stack_adjust t = thumb_room locals -> push_reglist t = thumb_reglist locals ->
  implements t asm_thumb_exit (fun _ => thumb_left locals).
Proof using Hl Hroom.
  intros Ha Hp. pose proof (thumb_room_bounds locals Hl) as [Hn _].
  set (f := fun mc => if 0 <? thumb_room locals then moved_sp (1 * (4 * thumb_room locals)) mc else mc).
  eapply (implements_ext _ _ (thumb_adjust OP_ADD_SP OP_ADD_W_RRI_HI (OP_ADD_W_RRI_LO ASM_THUMB_REG_SP) (thumb_room locals);;
    l ← gets push_reglist; asm_thumb_op16 (OP_POP_RLIST_PC l))).
  { unfold asm_thumb_exit. rewrite gets_bind, Ha. reflexivity. }
  eapply implements_mono; [eapply (performs_then t _ _ f)|].
  - apply thumb_adjust_performs; [by right; left|apply room_adjustable|]. intros u k. by apply add_sp_wide_performs.
  - intros bs. apply implements_gets. change (push_reglist (puts bs t)) with (push_reglist t). rewrite Hp. apply thumb_pop_implements.
  - intros n mb m2 (n1 & n2 & -> & a & ->). apply thumb_popped_left.
    + rewrite !reg_set_pc. subst f. cbv beta. rewrite moved_sp_of, Z.mul_1_l by lia. done.
    + unfold f. by destruct (0 <? _).
Qed.
End EntryExit.

(** The frame is a multiple of 8 bytes. *)
Lemma thumb_entered_alignment locals mc m1 : 0 <= locals < 2 ^ 28 -> thumb_entered locals mc m1 ->
  reg 13 mc mod 8 = 0 -> u32 (reg 13 m1) mod 8 = 0.
Proof.
  intros Hl He H8. rewrite (t_entered_sp _ _ _ He). pose proof (thumb_room_bounds locals Hl) as (_ & _ & Hr).
  clear -H8 Hr. word_lia.
Qed.

(** Storing a local keeps the frame. *)
Lemma thumb_store_keeps_frame locals local v mc : 0 <= local < locals -> 0 <= locals < 2 ^ 28 ->
  thumb_body_keeps locals mc (set_mem (store 32 4 (mem mc) (u32 (reg 13 mc + 4 * local)) v) mc).
Proof.
  intros Hl Hls. pose proof (thumb_room_bounds locals Hls) as (Hn & Hfit & _). pose proof (saved_bytes_bounds locals).
  split; [done|]. intros o Ho. cbn [mem set_mem]. rewrite peek_store by (done || pow_lia). rewrite ltb_false; [done|].
  rewrite uw_sub_r by done. replace (reg 13 mc + o - (reg 13 mc + 4 * local)) with (o - 4 * local) by lia.
  rewrite uw_small by pow_lia. lia.
Qed.

(** ** The call from ARM state *)

Section ArmState.
Context (s : asm_thumb_t).

Definition arm_prelude_call : list (arm_instr * Z) :=
  [((14, PUSH 0x4010), 4); ((14, DP false ADD 14 15 (Imm 9)), 4); ((14, BLX 14), 4)].
Definition arm_prelude_return : list (arm_instr * Z) := [((14, POP 0x4010), 4); ((14, BX 14), 4)].
Definition arm_prelude_bytes : list Z := [0x10; 0x40; 0x2d; 0xe9; 9; 0xe0; 0x8f; 0xe2; 0x3e; 0xff; 0x2f; 0xe1].
Definition arm_return_bytes : list Z := [0x10; 0x40; 0xbd; 0xe8; 0x1e; 0xff; 0x2f; 0xe1].
Lemma arm_prelude_emits : emits s arm_state_prelude (arm_prelude_bytes ++ arm_return_bytes).
Proof using.
  unfold arm_state_prelude. do 4 (eapply (emits_seq _ _ _ [_; _; _; _]); [apply thumb_op32_emits|]). apply thumb_op32_emits.
Qed.
Ltac arm_insn := eapply (disasm_cons (H := Arm) [_; _; _; _]); [reflexivity|reflexivity|simpl; lia|].
Lemma arm_prelude_disasm : disasm (H := Arm) arm_prelude_bytes arm_prelude_call /\ disasm (H := Arm) arm_return_bytes arm_prelude_return.
Proof using. split; do 2 arm_insn; [arm_insn|]; apply (disasm_nil (H := Arm)). Qed.

(** The function is called in Thumb state, R4 and LR being on the stack. *)
Record arm_called (m m1 : machine) : Prop := {
  called_pc : pc m1 = Z.ldiff (u32 (pc m + 21)) 1;
  called_state : reg TF m1 = u32 (pc m + 21) .& 1;
  called_lr : reg 14 m1 = u32 (pc m + 12);
  called_sp : reg 13 m1 = u32 (reg 13 m - 8);
  called_saved : load 32 4 (mem m1) (reg 13 m - 8) = u32 (reg 4 m) /\ load 32 4 (mem m1) (reg 13 m - 4) = u32 (reg 14 m);
  called_reg r : r ∉ [13; 14; TF] -> reg r m1 = reg r m;
  called_mem : keeps_above 8 (mem m) m m1;
}.
(** It returns to the code after the call, which returns in turn. *)
Record arm_returned (m2 m3 : machine) : Prop := {
  returned_reg4 : reg 4 m3 = load 32 4 (mem m2) (u32 (reg 13 m2));
  returned_pc : pc m3 = Z.ldiff (u32 (reg 14 m3)) 1 /\ reg TF m3 = u32 (reg 14 m3) .& 1;
  returned_lr : reg 14 m3 = load 32 4 (mem m2) (u32 (reg 13 m2) + 4);
  returned_sp : reg 13 m3 = u32 (u32 (reg 13 m2) + 8);
  returned_reg r : r ∉ [4; 13; 14; TF] -> reg r m3 = reg r m2;
  returned_mem : mem m3 = mem m2;
}.
Ltac read_regs := repeat (rewrite reg_set_pc || rewrite reg_set_eq || rewrite reg_set_ne by done || rewrite reg_set_mem).
Definition arm_pushed_state (m : machine) : machine :=
  set_reg 13 (u32 (reg 13 m - 8)) (set_mem (store_words (u32 (reg 13 m - 8)) [u32 (reg 4 m); u32 (reg 14 m)] (mem m)) m).
Lemma arm_call_exec m : exists m1, exec_straight (H := Arm) arm_prelude_call m = Some m1 /\ arm_called m m1.
Proof using.
  set (mp := set_pc (u32 (pc m + 4)) (arm_pushed_state m)).
  set (ml := set_pc (u32 (pc mp + 4)) (set_reg 14 (u32 (u32 (pc mp + 8) + 9)) mp)).
  exists (branch_exchange (reg 14 ml) (set_reg 14 (u32 (pc ml + 4)) ml)). split.
  - etransitivity; [apply (exec_straight_cons (H := Arm) _ _ _ _ mp); done|].
    etransitivity; [apply (exec_straight_cons (H := Arm) _ _ _ _ ml); done|].
    transitivity (Some (branch_exchange (u32 (reg 14 ml)) (set_reg 14 (u32 (pc ml + 4)) ml))); [done|].
    do 2 f_equal. subst ml. rewrite reg_set_pc, reg_set_eq. by apply uw_uw.
  - assert (reg 14 ml = u32 (pc m + 21)) as E14.
    { subst ml mp. rewrite reg_set_pc, reg_set_eq, pc_set_pc. clear. word_lia. }
    constructor.
    + unfold branch_exchange. by rewrite pc_set_pc, E14, uw_uw.
    + unfold branch_exchange. by rewrite reg_set_pc, reg_set_eq, E14.
    + unfold branch_exchange. rewrite reg_set_pc, reg_set_ne, reg_set_eq by done. subst ml mp. rewrite !pc_set_pc. clear. word_lia.
    + subst ml mp. unfold branch_exchange, arm_pushed_state. by read_regs.
    + cbn [mem branch_exchange set_pc set_reg ml mp arm_pushed_state set_mem].
      pose proof (store_words_load [u32 (reg 4 m); u32 (reg 14 m)] (u32 (reg 13 m - 8)) (mem m)) as Hw.
      pose proof (Hw 0%nat _ ltac:(done) eq_refl) as H4. pose proof (Hw 1%nat _ ltac:(done) eq_refl) as H14. rewrite uw_uw in H4, H14 by done.
      split; [refine (eq_trans _ H4)|refine (eq_trans _ H14)]; (apply load_cong; [done|]); rewrite uw_add_l by done; f_equal; lia.
    + intros r [? [? [? _]%not_elem_of_cons]%not_elem_of_cons]%not_elem_of_cons. subst ml mp.
      unfold branch_exchange, arm_pushed_state. by read_regs.
    + intros x Hx. cbn [mem branch_exchange set_pc set_reg ml mp arm_pushed_state set_mem]. apply store_words_other.
      rewrite uw_sub_r by done. exact Hx.
Qed.
Lemma arm_return_exec m : exists m1, exec_straight (H := Arm) arm_prelude_return m = Some m1 /\ arm_returned m m1.
Proof using.
  set (mp := set_reg 14 (load 32 4 (mem m) (u32 (reg 13 m) + 4)) (set_reg 4 (load 32 4 (mem m) (u32 (reg 13 m)))
    (set_pc (u32 (pc m + 4)) (set_reg 13 (u32 (u32 (reg 13 m) + 8)) m)))).
  exists (branch_exchange (u32 (reg 14 mp)) mp). split.
  - etransitivity; [apply (exec_straight_cons (H := Arm) _ _ _ _ mp); done|]. done.
  - assert (forall r, r <> TF -> reg r (branch_exchange (u32 (reg 14 mp)) mp) = reg r mp) as Hr.
    { intros r Hr. unfold branch_exchange. by rewrite reg_set_pc, reg_set_ne. }
    constructor; rewrite ?Hr by done; try (subst mp; read_regs; done).
    + split; unfold branch_exchange; [by rewrite pc_set_pc, uw_uw|by rewrite reg_set_pc, reg_set_eq].
    + intros r [? [? [? [? _]%not_elem_of_cons]%not_elem_of_cons]%not_elem_of_cons]%not_elem_of_cons.
      rewrite Hr by done. subst mp. by rewrite !reg_set_ne, reg_set_pc, reg_set_ne.
Qed.

Lemma arm_prelude_around : implements_around (H0 := Arm) s arm_state_prelude
  (fun n mc m1 => n = 12 /\ arm_called mc m1) (fun _ => arm_returned).
Proof using.
  exists arm_prelude_bytes, arm_return_bytes. split; [apply arm_prelude_emits|].
  intros code mc Hw [Hc1 Hc2]%code_at_app. destruct arm_prelude_disasm as [Hd1 Hd2].
  destruct (arm_call_exec mc) as (m1 & He & Hm1). exists m1. split; [eapply (runs_straight (H := Arm)); [exact Hd1|exact Hc1|exact He]|]. split; [done|].
  intros m2 Hpc. destruct (arm_return_exec m2) as (m3 & He2 & Hm3). exists m3. split; [|done].
  eapply (runs_straight (H := Arm)); [exact Hd2| |exact He2]. rewrite Hpc. apply code_at_uw; done.
Qed.
End ArmState.
