(* ===== verification/AsmThumbSpec.v ===== *)
(** * AsmThumbSpec: what asmthumb.c promises the native emitter

    The theorems of the Thumb back end, with and without ARMv7-M: the frame of
    a function, branches, calls and the addresses of labels, memory and locals,
    arithmetic and constants, with concrete instances. *)

From S2P Require Import Prelude AsmBase TwoPass PyMisc Machine Emission AsmThumb AsmThumbPass ArmIsa ArmEffect AsmThumbInstr AsmThumbImm AsmThumbMem AsmThumbIndex AsmThumbJump AsmThumbFrame.

Set Default Goal Selector "!".

#[local] Existing Instance SizeT_32.
#[local] Hint Extern 0 Isa => exact Thumb : typeclass_instances.

(** ** Concrete instances *)

(** Labels at 0, 100 and 2000, the code being at 40, in ARMv6-M. *)
Definition example_thumb : asm_thumb_t :=
  mk_asm_thumb (mk_asm_base MP_ASM_PASS_COMPUTE false 40 0 0 [] 3 [0; 100; 2000]) 0xfe 4.
Lemma example_thumb_live : thumb_live example_thumb.
Proof. by constructor. Qed.
Lemma thumb_example_jump room : room <= 8 -> thumb_jump room example_thumb 2 2000.
Proof.
  intros Hr. constructor; [|done|unfold thumb_limit; simpl; lia].
  constructor; [done|done|done|]. unfold thumb_limit. simpl. lia.
Qed.

Section Spec.
Context `{ThumbConfig} `{PyMisc}.

(** C29: the frame of a Thumb function.  Entry and exit implement the frame: R4
    to R7 and LR are pushed, with R1 to R3 as room for locals, and room for the
    other locals is made below them; for a body that restores the stack
    pointer and leaves the words of R4 to R7 and LR alone, the exit returns to
    the caller, in the instruction set the return address selects, with the
    stack pointer and R4 to R7 as they were; the frame is a multiple of 8
    bytes.  With ARMv7-M the room is 511 words at most; of more, eleven bits
    of the number of bytes are kept.  Called in ARM state, a function first
    calls itself in Thumb state, with R4 and LR saved. *)
Theorem thumb_function_frame s locals : 0 <= locals < 2 ^ 28 -> (asm_thumb_allow_armv7m = true -> thumb_room locals < 512) ->
  (from_arm_state = false -> implements_to s (thumb_in_frame s locals) (asm_thumb_entry locals)
     (fun n mc m1 => pc m1 = u32 (pc mc + n) /\ thumb_entered locals mc m1))
  /\ (forall t, stack_adjust t = thumb_room locals -> push_reglist t = thumb_reglist locals ->
        implements t asm_thumb_exit (fun _ => thumb_left locals))
  /\ (forall mc m1 mb m2, thumb_entered locals mc m1 -> thumb_body_keeps locals m1 mb -> thumb_left locals mb m2 ->
        (forall r, 4 <= r <= 7 -> reg r m2 = u32 (reg r mc))
        /\ u32 (reg 13 m2) = u32 (reg 13 mc)
        /\ pc m2 = Z.ldiff (u32 (reg ASM_THUMB_REG_LR mc)) 1
        /\ reg TF m2 = u32 (reg ASM_THUMB_REG_LR mc) .& 1)
  /\ (forall mc m1, thumb_entered locals mc m1 -> reg 13 mc mod 8 = 0 -> u32 (reg 13 m1) mod 8 = 0)
  /\ (forall n t, asm_thumb_allow_armv7m = true -> 512 <= n < 2 ^ 28 ->
        performs t (thumb_adjust OP_SUB_SP OP_SUB_W_RRI_HI (OP_SUB_W_RRI_LO ASM_THUMB_REG_SP) n) (moved_sp (- 1 * (4 * n mod 2 ^ 11))))
  /\ (from_arm_state = true -> implements_around (H0 := Arm) s arm_state_prelude (fun n mc m1 => n = 12 /\ arm_called mc m1) (fun _ => arm_returned)
        /\ asm_thumb_entry locals s = (arm_state_prelude;; thumb_enter locals;;
             modify (set_push_reglist (thumb_reglist locals));; modify (set_stack_adjust (thumb_room locals))) s
        /\ forall t, implements t (thumb_enter locals) (fun n mc m1 => pc m1 = u32 (pc mc + n) /\ thumb_entered locals mc m1)).
Proof.
  intros Hl Hroom. split; [by apply thumb_entry_implements|].
  split; [intros t; by apply thumb_exit_implements|].
  split; [intros mc m1 mb m2; by apply thumb_frame_roundtrip|].
  split; [intros mc m1; by apply thumb_entered_alignment|].
  split; [intros n t Hv Hn; apply thumb_adjust_wraps; [done..|intros u k; apply sub_sp_wide_performs]|].
  intros Hf. split; [apply arm_prelude_around|]. split; [by rewrite thumb_entry_eq, Hf|intros t; by apply thumb_enter_implements].
Qed.

(** C30: branches, calls and the addresses of labels.  A jump goes to the label,
    a conditional one exactly when its condition holds; only flags change, and
    R1 without ARMv7-M, where the code must be readable.  With ARMv7-M the
    label must be in reach, four megabytes for a jump and one for a conditional
    one: the distance of one that is not is taken modulo 2^23.  A branch to a register and a
    call go to its value or to the entry of the function table, in the
    instruction set its lowest bit selects, the call with the address of the
    code after it in LR.  The address of a label within 16 bits is that of the
    code plus the distance of their offsets, its lowest bit set. *)
Theorem thumb_jumps s label dest : thumb_jump 4 s label dest -> thumb_live s ->
  let o := code_offset (base s) in let d := dest - o in
  (b_reaches dest o -> implements_when (reads_code s 0) s s (GenericApi.ASM_JUMP label)
     (fun _ mc mc' => pc mc' = u32 (pc mc + d) /\ same_except clobbers mc mc'))
  /\ (bcc_reaches dest (o + 2) ->
      (forall r t, low r ->
         implements_when (reads_code s 0) s s (GenericApi.ASM_JUMP_IF_REG_ZERO r label t)
           (thumb_branches (fun mc => u32 (reg r mc) =? 0) d)
         /\ implements_when (reads_code s 0) s s (GenericApi.ASM_JUMP_IF_REG_NONZERO r label t)
           (thumb_branches (fun mc => negb (u32 (reg r mc) =? 0)) d))
      /\ (forall r1 r2, low r1 -> low r2 -> implements_when (reads_code s 0) s s (GenericApi.ASM_JUMP_IF_REG_EQ r1 r2 label)
           (thumb_branches (fun mc => u32 (reg r1 mc) =? u32 (reg r2 mc)) d)))
  /\ (asm_thumb_allow_armv7m = true -> ~ (- 2 ^ 22 <= d - 4 < 2 ^ 22) -> implements s (GenericApi.ASM_JUMP label)
        (fun _ mc mc' => pc mc' = u32 (pc mc + (4 + sw 23 (d - 4))) /\ same_except [] mc mc'))
  /\ (forall r, gpr r -> implements s (GenericApi.ASM_JUMP_REG r)
        (fun _ mc mc' => mc' = branch_exchange (u32 (reg r mc)) mc))
  /\ (forall idx, 0 <= idx < 2 ^ 28 ->
        implements_when (fun bs mc => reads_code s 4 bs mc /\ apart 4 Word (thumb_table_slot idx mc) mc) s s (GenericApi.ASM_CALL_IND idx)
          (fun n mc mc' => exists m1, loads Word 3 (thumb_table_slot idx) mc m1
             /\ mc' = branch_exchange (u32 (reg 3 m1)) (set_reg ASM_THUMB_REG_LR (u32 (pc mc + n) .| 1) m1)))
  /\ (forall r, low r -> - 2 ^ 15 <= d + 1 - (pcrel_bytes + 4) < 2 ^ 15 ->
        implements s (GenericApi.ASM_MOV_REG_PCREL r label) (computes r (fun mc => pc mc + d + 1))).
Proof.
  intros Hj Hlive o d. assert (thumb_jump 0 s label dest) as Hj0 by (destruct Hj; constructor; done || lia).
  split; [intros; by apply thumb_b_implements|]. split; [intros Hr; split; [intros r t Hl; split|intros r1 r2 H1 H2]|split; [|split; [|split]]].
  - by apply thumb_jump_if_reg_zero.
  - by apply thumb_jump_if_reg_nonzero.
  - by apply thumb_jump_if_reg_eq.
  - intros Hv Hfar. by apply thumb_b_wraps.
  - intros r Hr. by apply thumb_bx_implements.
  - intros idx Hi. by apply thumb_bl_ind_implements.
  - intros r Hr Hd. by apply thumb_mov_reg_pcrel_computes; [apply Hj|..].
Qed.

(** C31: loads and stores.  Bytes, halfwords and words are accessed at base plus
    scaled offset: by one instruction if the offset is near; else through the
    destination, a stacked register or the base, which leave all other
    registers as they were but may change the words below the stack pointer,
    which must not be accessed; a base that is the stored register is not
    covered.  So are they at base plus scaled index.  Locals are at the stack
    pointer plus 4 times their number, and storing one keeps the frame; from
    256 on their accesses are rejected, but their addresses are those of the
    locals modulo 256. *)
Theorem thumb_loads_stores s rd rb : low rd -> low rb -> thumb_live s ->
  (forall sz off, 0 <= off < 2 ^ 28 -> let a := fun mc => u32 (reg rb mc + scale_of sz * off) in
     (near sz rd rb off = true -> forall l, performs s (offset_access l rd rb off (size_number sz)) (fun mc => access l sz rd (a mc) mc))
     /\ implements_when (fun bs mc => reads_code s 4 bs mc /\ apart 4 sz (a mc) mc) s s
          (asm_thumb_load_reg_reg_offset rd rb off (size_number sz)) (fun n mc mc' => pc mc' = u32 (pc mc + n) /\ loads sz rd a mc mc')
     /\ (rd <> rb -> implements_when (fun bs mc => reads_code s 8 bs mc /\ apart 8 sz (a mc) mc) s s
          (asm_thumb_store_reg_reg_offset rd rb off (size_number sz)) (fun n mc mc' => pc mc' = u32 (pc mc + n) /\ stores sz rd a mc mc')))
  /\ (forall sz ri, low ri -> let a := fun mc => u32 (reg rb mc + scale_of sz * reg ri mc) in
     (sz = Byte \/ rb <> 2 -> implements s (thumb_index_load sz rd rb ri)
        (fun n mc mc' => pc mc' = u32 (pc mc + n) /\ index_loads sz rd rb ri mc mc'))
     /\ (sz = Byte \/ rb <> ri /\ rd <> ri -> implements_when (fun _ mc => apart 8 sz (a mc) mc) s s (thumb_index_store sz rd rb ri)
        (fun n mc mc' => pc mc' = u32 (pc mc + n) /\ stores sz rd a mc mc')))
  /\ (forall local, 0 <= local < 256 ->
     performs s (GenericApi.ASM_MOV_REG_LOCAL rd local) (fun mc => access true Word rd (thumb_local local mc) mc)
     /\ implements s (GenericApi.ASM_MOV_LOCAL_REG local rd) (fun n mc mc' =>
          mc' = set_pc (u32 (pc mc + n)) (access false Word rd (thumb_local local mc) mc)
          /\ forall locals, local < locals < 2 ^ 28 -> thumb_body_keeps locals mc mc'))
  /\ (forall local, 256 <= local < 2 ^ 31 -> pass (base s) = MP_ASM_PASS_EMIT ->
     asm_thumb_mov_local_reg local rd s = raise "too many locals for native method" s
     /\ asm_thumb_mov_reg_local rd local s = raise "too many locals for native method" s)
  /\ (forall local, 0 <= local -> implements s (GenericApi.ASM_MOV_REG_LOCAL_ADDR rd local)
        (computes rd (fun mc => reg 13 mc + 4 * (local mod 256)))).
Proof.
  intros Hd Hb Hs. split; [|split; [|split; [|split]]].
  - intros sz off Ho a. split; [intros Hn l; apply near_access_performs; auto using low_gpr|].
    split; [by apply offset_loads|by apply offset_stores].
  - intros sz ri Hi a. split; [intros; by apply thumb_index_loads|intros; by apply thumb_index_stores].
  - intros local Hl. split; [exact (thumb_local_performs s rd local Hd true Hl)|].
    eapply implements_mono; [exact (thumb_local_performs s rd local Hd false Hl)|]. intros n mc mc' ->. split; [done|].
    intros locals Hls. apply (thumb_store_keeps_frame locals local (u32 (reg rd mc)) mc); lia.
  - intros local Hl Hp. by apply thumb_local_rejected.
  - intros local Hl. by apply thumb_local_addr_computes.
Qed.

(** C32: arithmetic and constants.  Sums, differences, bitwise operations,
    products, complements, negations, moves and shifts leave the 32-bit result
    in the destination and change no other register but flags.  So does the
    load of a constant, in every form: eight bits, shifted, negated or not,
    sixteen bits, or a literal, which is read from the code. *)
Theorem thumb_arithmetic s rd rn : low rd -> low rn ->
  (forall op f, In (op, f) thumb_binary -> implements s (op rd rn) (computes rd (fun mc => f (reg rd mc) (reg rn mc))))
  /\ (forall op f, In (op, f) thumb_shifts -> implements s (op rd rn) (computes rd (fun mc => f (reg rd mc) (u8 (reg rn mc)))))
  /\ implements s (GenericApi.ASM_NOT_REG rd) (computes rd (fun mc => Z.lnot (reg rd mc)))
  /\ implements s (GenericApi.ASM_NEG_REG rd) (computes rd (fun mc => - reg rd mc))
  /\ implements s (GenericApi.ASM_CLR_REG rd) (computes rd (fun _ => 0))
  /\ (forall r q, gpr r -> gpr q -> performs s (GenericApi.ASM_MOV_REG_REG r q) (fun mc => set_reg r (u32 (reg q mc)) mc))
  /\ (forall r imm, gpr r -> - 2 ^ 31 <= imm < 2 ^ 31 -> (asm_thumb_allow_armv7m = false -> low r /\ thumb_live s) ->
      implements_when (reads_code s 0) s s (GenericApi.ASM_MOV_REG_IMM r imm) (computes r (fun _ => imm))).
Proof.
  intros Hd Hn. split; [intros; by apply thumb_binary_computes|]. split; [intros; by apply thumb_shift_computes|].
  split; [exact (thumb_mvn_computes s rd rd Hd Hd)|]. split; [exact (thumb_neg_computes s rd rd Hd Hd)|].
  split; [by apply thumb_mov_i8_computes|]. split; [intros; by apply thumb_mov_reg_performs|intros; by apply thumb_mov_i32_optimised_computes].
Qed.
End Spec.

(** ** Witnesses *)

(** ARMv7-M, in ARM state at the call. *)
Definition thumb_v7m_arm : ThumbConfig :=
  {| MICROPY_DYNAMIC_COMPILER := false; MICROPY_EMIT_THUMB_ARMV7M := true;
     called_from_arm_state := true; native_arch := 4; MP_NATIVE_ARCH_ARMV6 := 3;
     MP_NATIVE_ARCH_ARMV7M := 5; MP_NATIVE_ARCH_ARMV7EMDP := 8 |}.

Lemma thumb_function_frame_witness :
  (exists P, implements_to example_thumb (thumb_in_frame example_thumb 300) (asm_thumb_entry (H := thumb_v6m) 300) P)
  /\ (exists P Q, implements_around (H0 := Arm) example_thumb arm_state_prelude P Q)
  /\ performs example_thumb (thumb_adjust (H := thumb_v7m_arm) OP_SUB_SP OP_SUB_W_RRI_HI (OP_SUB_W_RRI_LO ASM_THUMB_REG_SP) 514) (moved_sp (- 8)).
Proof.
  destruct (thumb_function_frame (H := thumb_v6m) example_thumb 300) as (He & _); [lia|done|].
  destruct (thumb_function_frame (H := thumb_v7m_arm) example_thumb 300) as (_ & _ & _ & _ & Hw & Ha); [lia|done|].
  split; [eexists; by apply He|]. split; [eexists _, _; by apply Ha|]. by apply (Hw 514).
Defined.

Lemma thumb_jumps_witness :
  (exists P, implements_when (reads_code (H := thumb_v6m) example_thumb 0) example_thumb example_thumb
    (GenericApi.ASM_JUMP_IF_REG_EQ (H := thumb_v6m) 4 5 2) P)
  /\ implements example_thumb (GenericApi.ASM_MOV_REG_PCREL (H := thumb_v6m) 3 2) (computes 3 (fun mc => pc mc + 1960 + 1)).
Proof.
  destruct (thumb_jumps (H := thumb_v6m) (H0 := py_misc) example_thumb 2 2000) as (_ & Hb & _ & _ & _ & Hp);
    [by apply thumb_example_jump|apply example_thumb_live|].
  destruct Hb as [_ Heq]; [done|]. split; [eexists; by apply (Heq 4 5)|]. by apply (Hp 3).
Defined.

Lemma thumb_loads_stores_witness :
  (exists C P, implements_when C example_thumb example_thumb (asm_thumb_load_reg_reg_offset (H := thumb_v6m) (H0 := py_misc) 2 4 1000 1) P)
  /\ (exists C P, implements_when C example_thumb example_thumb (GenericApi.ASM_STORE16_REG_REG_REG 2 4 5) P)
  /\ implements example_thumb (asm_thumb_mov_reg_local_addr 2 256) (computes 2 (fun mc => reg 13 mc + 4 * (256 mod 256))).
Proof.
  destruct (thumb_loads_stores (H := thumb_v6m) (H0 := py_misc) example_thumb 2 4) as (Ho & Hi & _ & _ & Ha);
    [by split|by split|apply example_thumb_live|].
  split; [eexists _, _; by apply (Ho Half 1000)|]. split; [|by apply (Ha 256)].
  eexists _, _. apply (Hi Half 5); [by split|]. by right.
Defined.

Lemma thumb_arithmetic_witness :
  implements example_thumb (GenericApi.ASM_ASR_REG_REG 2 4) (computes 2 (fun mc => s32 (reg 2 mc) >> u8 (reg 4 mc)))
  /\ implements_when (reads_code (H := thumb_v6m) example_thumb 0) example_thumb example_thumb
       (GenericApi.ASM_MOV_REG_IMM (H := thumb_v6m) (H0 := py_misc) 3 (-0x12345678)) (computes 3 (fun _ => -0x12345678)).
Proof.
  destruct (thumb_arithmetic (H := thumb_v6m) (H0 := py_misc) example_thumb 2 4) as (_ & Hs & _ & _ & _ & _ & Hc); [by split..|].
  split; [apply (Hs GenericApi.ASM_ASR_REG_REG (fun a n => s32 a >> n)); simpl; tauto|].
  apply (Hc 3); [by split|done|]. intros _. split; [by split|apply example_thumb_live].
Defined.
