(* ===== verification/AsmXtensa.v ===== *)
(** * AsmXtensa: bank/uPython-ASM/asmxtensa.{h,c}

    The Xtensa code generator, for the plain (CALL0) and the windowed
    convention: instruction formats, the back end's state with its constant
    table, one definition per function and the generic assembler API.  The
    constant table lies in the code region, so a pointer to it is an index of
    the region's bytes; [uint], [size_t] and pointers are 32 bits wide. *)

From S2P Require Import Prelude AsmBase PyMisc.

Set Default Goal Selector "!".

#[local] Existing Instance SizeT_32.

(** ** Registers, conditions and formats *)

Definition ASM_XTENSA_REG_A0 : Z := 0.
Definition ASM_XTENSA_REG_A1 : Z := 1.
Definition ASM_XTENSA_REG_A2 : Z := 2.
Definition ASM_XTENSA_REG_A3 : Z := 3.
Definition ASM_XTENSA_REG_A4 : Z := 4.
Definition ASM_XTENSA_REG_A5 : Z := 5.
Definition ASM_XTENSA_REG_A6 : Z := 6.
Definition ASM_XTENSA_REG_A7 : Z := 7.
Definition ASM_XTENSA_REG_A8 : Z := 8.
Definition ASM_XTENSA_REG_A9 : Z := 9.
Definition ASM_XTENSA_REG_A10 : Z := 10.
Definition ASM_XTENSA_REG_A11 : Z := 11.
Definition ASM_XTENSA_REG_A12 : Z := 12.
Definition ASM_XTENSA_REG_A13 : Z := 13.
Definition ASM_XTENSA_REG_A14 : Z := 14.
Definition ASM_XTENSA_REG_A15 : Z := 15.
Definition ASM_XTENSA_CCZ_EQ : Z := 0.
Definition ASM_XTENSA_CCZ_NE : Z := 1.
Definition ASM_XTENSA_CCZ_LT : Z := 2.
Definition ASM_XTENSA_CCZ_GE : Z := 3.
Definition ASM_XTENSA_CC_NONE : Z := 0.
Definition ASM_XTENSA_CC_EQ : Z := 1.
Definition ASM_XTENSA_CC_LT : Z := 2.
Definition ASM_XTENSA_CC_LTU : Z := 3.
Definition ASM_XTENSA_CC_ALL : Z := 4.
Definition ASM_XTENSA_CC_BC : Z := 5.
Definition ASM_XTENSA_CC_ANY : Z := 8.
Definition ASM_XTENSA_CC_NE : Z := 9.
Definition ASM_XTENSA_CC_GE : Z := 10.
Definition ASM_XTENSA_CC_GEU : Z := 11.
Definition ASM_XTENSA_CC_NALL : Z := 12.
Definition ASM_XTENSA_CC_BS : Z := 13.
Definition ASM_XTENSA_ENCODE_RRR (op0 op1 op2 r s t : Z) : Z :=
  u32 op2 << 20 .| u32 op1 << 16 .| r << 12 .| s << 8 .| t << 4 .| op0.
Definition ASM_XTENSA_ENCODE_RRI4 (op0 op1 r s t imm4 : Z) : Z :=
  imm4 << 20 .| op1 << 16 .| r << 12 .| s << 8 .| t << 4 .| op0.
Definition ASM_XTENSA_ENCODE_RRI8 (op0 r s t imm8 : Z) : Z :=
  u32 imm8 << 16 .| r << 12 .| s << 8 .| t << 4 .| op0.
Definition ASM_XTENSA_ENCODE_RI16 (op0 t imm16 : Z) : Z := imm16 << 8 .| t << 4 .| op0.
Definition ASM_XTENSA_ENCODE_RSR (op0 op1 op2 rs t : Z) : Z :=
  op2 << 20 .| op1 << 16 .| rs << 8 .| t << 4 .| op0.
Definition ASM_XTENSA_ENCODE_CALL (op0 n offset : Z) : Z := offset << 6 .| n << 4 .| op0.
Definition ASM_XTENSA_ENCODE_CALLX (op0 op1 op2 r s m n : Z) : Z :=
  u32 op2 << 20 .| u32 op1 << 16 .| r << 12 .| s << 8 .| m << 6 .| n << 4 .| op0.
Definition ASM_XTENSA_ENCODE_BRI8 (op0 r s m n imm8 : Z) : Z :=
  imm8 << 16 .| r << 12 .| s << 8 .| m << 6 .| n << 4 .| op0.
Definition ASM_XTENSA_ENCODE_BRI12 (op0 s m n imm12 : Z) : Z :=
  imm12 << 12 .| s << 8 .| m << 6 .| n << 4 .| op0.
Definition ASM_XTENSA_ENCODE_RRRN (op0 r s t : Z) : Z := r << 12 .| s << 8 .| t << 4 .| op0.
Definition ASM_XTENSA_ENCODE_RI7 (op0 s imm7 : Z) : Z :=
  (imm7 .& 0xf) << 12 .| s << 8 .| imm7 .& 0x70 .| op0.
Definition ASM_XTENSA_NUM_REGS_SAVED : Z := 5.
Definition ASM_XTENSA_NUM_REGS_SAVED_WIN : Z := 1.
Definition ASM_XTENSA_REG_FUN_TABLE : Z := ASM_XTENSA_REG_A15.
Definition ASM_XTENSA_REG_FUN_TABLE_WIN : Z := ASM_XTENSA_REG_A7.
Definition ASM_XTENSA_REG_TEMPORARY : Z := ASM_XTENSA_REG_A6.
Definition ASM_XTENSA_REG_TEMPORARY_WIN : Z := ASM_XTENSA_REG_A12.

(** ** The back end's state *)

Record asm_xtensa_t := mk_asm_xtensa {
  base : mp_asm_base_t;
  cur_const : Z;
  num_const : Z;
  const_table : option Z;
  stack_adjust : Z;
}.

#[export, refine] Instance HasBase_xtensa : HasBase asm_xtensa_t :=
  {| base_of := base; with_base b s :=
       mk_asm_xtensa b (cur_const s) (num_const s) (const_table s) (stack_adjust s) |}.
Proof. all: by intros; try destruct s. Defined.

Definition set_consts (cur num : Z) (s : asm_xtensa_t) : asm_xtensa_t :=
  mk_asm_xtensa (base s) cur num (const_table s) (stack_adjust s).
Definition set_const_table (p : option Z) (s : asm_xtensa_t) : asm_xtensa_t :=
  mk_asm_xtensa (base s) (cur_const s) (num_const s) p (stack_adjust s).
Definition set_stack_adjust (x : Z) (s : asm_xtensa_t) : asm_xtensa_t :=
  mk_asm_xtensa (base s) (cur_const s) (num_const s) (const_table s) x.

(** The preprocessor's choice of calling convention. *)
Class XtensaConfig := {
  N_XTENSAWIN : bool;
  GENERIC_ASM_API_WIN : bool;
}.

Definition REG_TEMP `{XtensaConfig} : Z :=
  if N_XTENSAWIN then ASM_XTENSA_REG_TEMPORARY_WIN else ASM_XTENSA_REG_TEMPORARY.

(** ** Tests *)

Definition SIGNED_FIT6 (x : Z) : bool :=
  (x .& 0xffffffe0 =? 0) || (x .& 0xffffffe0 =? 0xffffffe0).
Definition SIGNED_FIT8 (x : Z) : bool :=
  (x .& 0xffffff80 =? 0) || (x .& 0xffffff80 =? 0xffffff80).
Definition SIGNED_FIT12 (x : Z) : bool :=
  (x .& 0xfffff800 =? 0) || (x .& 0xfffff800 =? 0xfffff800).
Definition SIGNED_FIT18 (x : Z) : bool :=
  (x .& 0xfffe0000 =? 0) || (x .& 0xfffe0000 =? 0xfffe0000).
Definition WORD_SIZE : Z := 4.

(** ** Instructions *)

Definition asm_xtensa_op16 (op : Z) : M asm_xtensa_t unit :=
  put_array cur_to_write_bytes [u8 op; u8 (op >> 8)].

Definition asm_xtensa_op24 (op : Z) : M asm_xtensa_t unit :=
  put_array cur_to_write_bytes [u8 op; u8 (op >> 8); u8 (op >> 16)].

Definition asm_xtensa_op_entry (reg_src num_bytes : Z) : M asm_xtensa_t unit :=
  asm_xtensa_op24 (ASM_XTENSA_ENCODE_BRI12 6 reg_src 0 3 (Z.quot num_bytes 8 .& 0xfff)).

Definition asm_xtensa_op_add_n (reg_dest reg_src_a reg_src_b : Z) : M asm_xtensa_t unit :=
  asm_xtensa_op16 (ASM_XTENSA_ENCODE_RRRN 10 reg_dest reg_src_a reg_src_b).

Definition asm_xtensa_op_addi (reg_dest reg_src imm8 : Z) : M asm_xtensa_t unit :=
  asm_xtensa_op24 (ASM_XTENSA_ENCODE_RRI8 2 12 reg_src reg_dest (imm8 .& 0xff)).

Definition asm_xtensa_op_addx2 (reg_dest reg_src_a reg_src_b : Z) : M asm_xtensa_t unit :=
  asm_xtensa_op24 (ASM_XTENSA_ENCODE_RRR 0 0 9 reg_dest reg_src_a reg_src_b).

Definition asm_xtensa_op_addx4 (reg_dest reg_src_a reg_src_b : Z) : M asm_xtensa_t unit :=
  asm_xtensa_op24 (ASM_XTENSA_ENCODE_RRR 0 0 10 reg_dest reg_src_a reg_src_b).

Definition asm_xtensa_op_and (reg_dest reg_src_a reg_src_b : Z) : M asm_xtensa_t unit :=
  asm_xtensa_op24 (ASM_XTENSA_ENCODE_RRR 0 0 1 reg_dest reg_src_a reg_src_b).

Definition asm_xtensa_op_bcc (cond reg_src1 reg_src2 rel8 : Z) : M asm_xtensa_t unit :=
  asm_xtensa_op24 (ASM_XTENSA_ENCODE_RRI8 7 cond reg_src1 reg_src2 (rel8 .& 0xff)).

Definition asm_xtensa_op_bccz (cond reg_src rel12 : Z) : M asm_xtensa_t unit :=
  asm_xtensa_op24 (ASM_XTENSA_ENCODE_BRI12 6 reg_src cond 1 (rel12 .& 0xfff)).

Definition asm_xtensa_op_call0 (rel18 : Z) : M asm_xtensa_t unit :=
  asm_xtensa_op24 (ASM_XTENSA_ENCODE_CALL 5 0 (rel18 .& 0x3ffff)).

Definition asm_xtensa_op_callx0 (reg : Z) : M asm_xtensa_t unit :=
  asm_xtensa_op24 (ASM_XTENSA_ENCODE_CALLX 0 0 0 0 reg 3 0).

Definition asm_xtensa_op_callx8 (reg : Z) : M asm_xtensa_t unit :=
  asm_xtensa_op24 (ASM_XTENSA_ENCODE_CALLX 0 0 0 0 reg 3 2).

Definition asm_xtensa_op_j (rel18 : Z) : M asm_xtensa_t unit :=
  asm_xtensa_op24 (ASM_XTENSA_ENCODE_CALL 6 0 (rel18 .& 0x3ffff)).

Definition asm_xtensa_op_jx (reg : Z) : M asm_xtensa_t unit :=
  asm_xtensa_op24 (ASM_XTENSA_ENCODE_CALLX 0 0 0 0 reg 2 2).

Definition asm_xtensa_op_l8ui (reg_dest reg_base byte_offset : Z) : M asm_xtensa_t unit :=
  asm_xtensa_op24 (ASM_XTENSA_ENCODE_RRI8 2 0 reg_base reg_dest (byte_offset .& 0xff)).

Definition asm_xtensa_op_l16ui (reg_dest reg_base half_word_offset : Z) : M asm_xtensa_t unit :=
  asm_xtensa_op24 (ASM_XTENSA_ENCODE_RRI8 2 1 reg_base reg_dest (half_word_offset .& 0xff)).

Definition asm_xtensa_op_l32i (reg_dest reg_base word_offset : Z) : M asm_xtensa_t unit :=
  asm_xtensa_op24 (ASM_XTENSA_ENCODE_RRI8 2 2 reg_base reg_dest (word_offset .& 0xff)).

Definition asm_xtensa_op_l32i_n (reg_dest reg_base word_offset : Z) : M asm_xtensa_t unit :=
  asm_xtensa_op16 (ASM_XTENSA_ENCODE_RRRN 8 (word_offset .& 0xf) reg_base reg_dest).

Definition asm_xtensa_op_l32r (reg_dest op_off dest_off : Z) : M asm_xtensa_t unit :=
  asm_xtensa_op24 (ASM_XTENSA_ENCODE_RI16 1 reg_dest
    (u32 (dest_off - (u32 (op_off + 3) .& u32 (Z.lnot 3))) >> 2 .& 0xffff)).

Definition asm_xtensa_op_mov_n (reg_dest reg_src : Z) : M asm_xtensa_t unit :=
  asm_xtensa_op16 (ASM_XTENSA_ENCODE_RRRN 13 0 reg_src reg_dest).

Definition asm_xtensa_op_movi (reg_dest imm12 : Z) : M asm_xtensa_t unit :=
  asm_xtensa_op24 (ASM_XTENSA_ENCODE_RRI8 2 10 (imm12 >> 8 .& 0xf) reg_dest (imm12 .& 0xff)).

Definition asm_xtensa_op_movi_n (reg_dest imm7 : Z) : M asm_xtensa_t unit :=
  asm_xtensa_op16 (ASM_XTENSA_ENCODE_RI7 12 reg_dest imm7).

Definition asm_xtensa_op_mull (reg_dest reg_src_a reg_src_b : Z) : M asm_xtensa_t unit :=
  asm_xtensa_op24 (ASM_XTENSA_ENCODE_RRR 0 2 8 reg_dest reg_src_a reg_src_b).

Definition asm_xtensa_op_neg (reg_dest reg_src : Z) : M asm_xtensa_t unit :=
  asm_xtensa_op24 (ASM_XTENSA_ENCODE_RRR 0 0 6 reg_dest 0 reg_src).

Definition asm_xtensa_op_or (reg_dest reg_src_a reg_src_b : Z) : M asm_xtensa_t unit :=
  asm_xtensa_op24 (ASM_XTENSA_ENCODE_RRR 0 0 2 reg_dest reg_src_a reg_src_b).

Definition asm_xtensa_op_ret_n : M asm_xtensa_t unit :=
  asm_xtensa_op16 (ASM_XTENSA_ENCODE_RRRN 13 15 0 0).

Definition asm_xtensa_op_retw_n : M asm_xtensa_t unit :=
  asm_xtensa_op16 (ASM_XTENSA_ENCODE_RRRN 13 15 0 1).

Definition asm_xtensa_op_s8i (reg_src reg_base byte_offset : Z) : M asm_xtensa_t unit :=
  asm_xtensa_op24 (ASM_XTENSA_ENCODE_RRI8 2 4 reg_base reg_src (byte_offset .& 0xff)).

Definition asm_xtensa_op_s16i (reg_src reg_base half_word_offset : Z) : M asm_xtensa_t unit :=
  asm_xtensa_op24 (ASM_XTENSA_ENCODE_RRI8 2 5 reg_base reg_src (half_word_offset .& 0xff)).

Definition asm_xtensa_op_s32i (reg_src reg_base word_offset : Z) : M asm_xtensa_t unit :=
  asm_xtensa_op24 (ASM_XTENSA_ENCODE_RRI8 2 6 reg_base reg_src (word_offset .& 0xff)).

Definition asm_xtensa_op_s32i_n (reg_src reg_base word_offset : Z) : M asm_xtensa_t unit :=
  asm_xtensa_op16 (ASM_XTENSA_ENCODE_RRRN 9 (word_offset .& 0xf) reg_base reg_src).

Definition asm_xtensa_op_sll (reg_dest reg_src : Z) : M asm_xtensa_t unit :=
  asm_xtensa_op24 (ASM_XTENSA_ENCODE_RRR 0 1 10 reg_dest reg_src 0).

Definition asm_xtensa_op_srl (reg_dest reg_src : Z) : M asm_xtensa_t unit :=
  asm_xtensa_op24 (ASM_XTENSA_ENCODE_RRR 0 1 9 reg_dest 0 reg_src).

Definition asm_xtensa_op_sra (reg_dest reg_src : Z) : M asm_xtensa_t unit :=
  asm_xtensa_op24 (ASM_XTENSA_ENCODE_RRR 0 1 11 reg_dest 0 reg_src).

Definition asm_xtensa_op_ssl (reg_src : Z) : M asm_xtensa_t unit :=
  asm_xtensa_op24 (ASM_XTENSA_ENCODE_RRR 0 0 4 1 reg_src 0).

Definition asm_xtensa_op_ssr (reg_src : Z) : M asm_xtensa_t unit :=
  asm_xtensa_op24 (ASM_XTENSA_ENCODE_RRR 0 0 4 0 reg_src 0).

Definition asm_xtensa_op_sub (reg_dest reg_src_a reg_src_b : Z) : M asm_xtensa_t unit :=
  asm_xtensa_op24 (ASM_XTENSA_ENCODE_RRR 0 0 12 reg_dest reg_src_a reg_src_b).

Definition asm_xtensa_op_xor (reg_dest reg_src_a reg_src_b : Z) : M asm_xtensa_t unit :=
  asm_xtensa_op24 (ASM_XTENSA_ENCODE_RRR 0 0 3 reg_dest reg_src_a reg_src_b).

(** ** Passes, entry and exit *)

Definition asm_xtensa_end_pass : M asm_xtensa_t unit :=
  modify (fun s => set_consts 0 (cur_const s) s).

(** The block that opens both entry functions: a jump over the constants, a
    padding byte and the table. *)
Definition jump_over_constants : M asm_xtensa_t unit :=
  num_const ← gets num_const;
  if 0 <? num_const then
    asm_xtensa_op_j (s32 (u32 (num_const * WORD_SIZE + 4 - 4)));;
    cur_to_write_bytes 1;;
    p ← cur_to_write_bytes (s32 (u32 (num_const * 4)));
    modify (set_const_table p)
  else mret tt.

(** [for (int i = i0; i < i0 + n; ++i)], and downwards from [n] to 1. *)
Fixpoint save_loop (n : nat) (i : Z) : M asm_xtensa_t unit :=
  match n with
  | O => mret tt
  | S n =>
      asm_xtensa_op_s32i_n (ASM_XTENSA_REG_A11 + i) ASM_XTENSA_REG_A1 i;;
      save_loop n (i + 1)
  end.
Fixpoint restore_loop (n : nat) : M asm_xtensa_t unit :=
  match n with
  | O => mret tt
  | S n' =>
      asm_xtensa_op_l32i_n (ASM_XTENSA_REG_A11 + Z.of_nat n) ASM_XTENSA_REG_A1 (Z.of_nat n);;
      restore_loop n'
  end.

Definition asm_xtensa_entry (num_locals : Z) : M asm_xtensa_t unit :=
  jump_over_constants;;
  modify (set_stack_adjust
    (u32 (s32 (((ASM_XTENSA_NUM_REGS_SAVED + num_locals) * WORD_SIZE) + 15) .& Z.lnot 15)));;
  stack_adjust ← gets stack_adjust;
  (if SIGNED_FIT8 (u32 (- stack_adjust)) then
     asm_xtensa_op_addi ASM_XTENSA_REG_A1 ASM_XTENSA_REG_A1 (s32 (- stack_adjust))
   else
     asm_xtensa_op_movi ASM_XTENSA_REG_A9 (s32 stack_adjust);;
     asm_xtensa_op_sub ASM_XTENSA_REG_A1 ASM_XTENSA_REG_A1 ASM_XTENSA_REG_A9);;
  asm_xtensa_op_s32i_n ASM_XTENSA_REG_A0 ASM_XTENSA_REG_A1 0;;
  save_loop (Z.to_nat (ASM_XTENSA_NUM_REGS_SAVED - 1)) 1.

Definition asm_xtensa_exit : M asm_xtensa_t unit :=
  restore_loop (Z.to_nat (ASM_XTENSA_NUM_REGS_SAVED - 1));;
  asm_xtensa_op_l32i_n ASM_XTENSA_REG_A0 ASM_XTENSA_REG_A1 0;;
  stack_adjust ← gets stack_adjust;
  (if SIGNED_FIT8 stack_adjust then
     asm_xtensa_op_addi ASM_XTENSA_REG_A1 ASM_XTENSA_REG_A1 (s32 stack_adjust)
   else
     asm_xtensa_op_movi ASM_XTENSA_REG_A9 (s32 stack_adjust);;
     asm_xtensa_op_add_n ASM_XTENSA_REG_A1 ASM_XTENSA_REG_A1 ASM_XTENSA_REG_A9);;
  asm_xtensa_op_ret_n.

Definition asm_xtensa_entry_win (num_locals : Z) : M asm_xtensa_t unit :=
  jump_over_constants;;
  modify (set_stack_adjust
    (u32 (32 + (s32 (((ASM_XTENSA_NUM_REGS_SAVED_WIN + num_locals) * WORD_SIZE) + 15)
                .& Z.lnot 15))));;
  stack_adjust ← gets stack_adjust;
  asm_xtensa_op_entry ASM_XTENSA_REG_A1 (s32 stack_adjust);;
  asm_xtensa_op_s32i_n ASM_XTENSA_REG_A0 ASM_XTENSA_REG_A1 0.

Definition asm_xtensa_exit_win : M asm_xtensa_t unit :=
  asm_xtensa_op_l32i_n ASM_XTENSA_REG_A0 ASM_XTENSA_REG_A1 0;;
  asm_xtensa_op_retw_n.

(** ** Jumps and branches *)

Definition get_label_dest (label : Z) : M asm_xtensa_t Z := on_base (label_dest label).

Definition asm_xtensa_j_label (label : Z) : M asm_xtensa_t unit :=
  dest ← get_label_dest label;
  code_offset ← gets (fun s => code_offset (base s));
  let rel := s32 (dest - code_offset - 4) in
  asm_xtensa_op_j rel.

(** The result, and the displacement. *)
Definition calculate_branch_displacement (label : Z) : M asm_xtensa_t (bool * Z) :=
  label_offset ← get_label_dest label;
  code_offset ← gets (fun s => code_offset (base s));
  let displacement := s32 (label_offset - code_offset - 4) in
  mret (negb (label_offset =? u32 (-1)) && (displacement <? 0), displacement).

Definition asm_xtensa_bccz_reg_label (cond reg label : Z) : M asm_xtensa_t unit :=
  '(can_emit_short_jump, rel) ← calculate_branch_displacement label;
  if can_emit_short_jump && SIGNED_FIT12 rel then
    asm_xtensa_op_bccz cond reg rel
  else
    pass ← gets (fun s => pass (base s));
    (if (pass =? MP_ASM_PASS_EMIT) && negb (SIGNED_FIT18 (s32 (rel - 6))) then
       raise "ERROR: xtensa bccz out of range"
     else mret tt);;
    asm_xtensa_op_bccz (cond .^ 1) reg (6 - 4);;
    asm_xtensa_op_j (s32 (rel - 3)).

Definition asm_xtensa_bcc_reg_reg_label (cond reg1 reg2 label : Z) : M asm_xtensa_t unit :=
  '(can_emit_short_jump, rel) ← calculate_branch_displacement label;
  if can_emit_short_jump && SIGNED_FIT8 rel then
    asm_xtensa_op_bcc cond reg1 reg2 rel
  else
    pass ← gets (fun s => pass (base s));
    (if (pass =? MP_ASM_PASS_EMIT) && negb (SIGNED_FIT18 (s32 (rel - 6))) then
       raise "ERROR: xtensa bcc out of range"
     else mret tt);;
    asm_xtensa_op_bcc (cond .^ 8) reg1 reg2 (6 - 4);;
    asm_xtensa_op_j (s32 (rel - 3)).

Definition asm_xtensa_setcc_reg_reg_reg (cond reg_dest reg_src1 reg_src2 : Z) : M asm_xtensa_t
  unit :=
  asm_xtensa_op_movi_n reg_dest 1;;
  asm_xtensa_op_bcc cond reg_src1 reg_src2 1;;
  asm_xtensa_op_movi_n reg_dest 0.

(** ** Constants *)

(** [(uint8_t * )as->const_table - as->base.code_base]. *)
Definition const_table_offset (s : asm_xtensa_t) : Z :=
  match const_table s with
  | Some p => u32 p
  | None => u32 (- code_base (base s))
  end.

Definition asm_xtensa_mov_reg_i32 (reg_dest i32 : Z) : M asm_xtensa_t Z :=
  s ← gets id;
  let loc := u32 (const_table_offset s + cur_const s * WORD_SIZE) in
  asm_xtensa_op_l32r reg_dest (code_offset (base s)) loc;;
  (match const_table s with
   | Some p => on_base (store_bytes (p + cur_const s * 4) (le_bytes 4 i32))
   | None =>
       assert_ (negb (pass (base s) =? MP_ASM_PASS_EMIT)) "Constants table was not built."
   end);;
  modify (fun s => set_consts (u32 (cur_const s + 1)) (num_const s) s);;
  mret loc.

Definition asm_xtensa_mov_reg_i32_optimised (reg_dest i32 : Z) : M asm_xtensa_t unit :=
  if (-32 <=? s32 i32) && (s32 i32 <=? 95) then
    asm_xtensa_op_movi_n reg_dest (s32 i32)
  else if SIGNED_FIT12 i32 then
    asm_xtensa_op_movi reg_dest (s32 i32)
  else
    asm_xtensa_mov_reg_i32 reg_dest i32;; mret tt.

(** ** Locals and addresses *)

Definition asm_xtensa_mov_local_reg (local_num reg_src : Z) : M asm_xtensa_t unit :=
  asm_xtensa_op_s32i reg_src ASM_XTENSA_REG_A1 (u32 local_num).

Definition asm_xtensa_mov_reg_local (reg_dest local_num : Z) : M asm_xtensa_t unit :=
  asm_xtensa_op_l32i reg_dest ASM_XTENSA_REG_A1 (u32 local_num).

Definition asm_xtensa_mov_reg_local_addr (reg_dest local_num : Z) : M asm_xtensa_t unit :=
  let off := u32 (local_num * WORD_SIZE) in
  if SIGNED_FIT8 off then
    asm_xtensa_op_addi reg_dest ASM_XTENSA_REG_A1 (s32 off)
  else
    asm_xtensa_op_movi reg_dest (s32 off);;
    asm_xtensa_op_add_n reg_dest reg_dest ASM_XTENSA_REG_A1.

Definition asm_xtensa_mov_reg_pcrel (reg_dest label : Z) : M asm_xtensa_t unit :=
  dest ← get_label_dest label;
  code_offset0 ← gets (fun s => code_offset (base s));
  let rel := s32 (dest - code_offset0) in
  let rel := s32 (rel - (3 + 3)) in
  asm_xtensa_op_movi reg_dest rel;;
  code_offset ← gets (fun s => code_offset (base s));
  let off := code_offset >> 1 .& 1 in
  let pad := u32 (5 - code_offset) .& 3 in
  asm_xtensa_op_call0 off;;
  cur_to_write_bytes pad;;
  asm_xtensa_op_add_n reg_dest reg_dest ASM_XTENSA_REG_A0.

(** ** Memory *)

Section Config.
Context `{XtensaConfig} `{PyMisc}.

Definition asm_xtensa_l32i_optimised (reg_dest reg_base word_offset : Z) : M asm_xtensa_t unit :=
  if word_offset <? 16 then
    asm_xtensa_op_l32i_n reg_dest reg_base word_offset
  else if word_offset <? 256 then
    asm_xtensa_op_l32i reg_dest reg_base word_offset
  else
    asm_xtensa_mov_reg_i32_optimised reg_dest (u32 (word_offset * 4));;
    asm_xtensa_op_add_n reg_dest reg_base reg_dest;;
    asm_xtensa_op_l32i_n reg_dest reg_dest 0.

Definition asm_xtensa_load_reg_reg_offset (reg_dest reg_base offset operation_size : Z)
  : M asm_xtensa_t unit :=
  assert_ (operation_size <=? 2) "Operation size value out of range.";;
  if (operation_size =? 2) && MP_FIT_UNSIGNED 4 offset then
    asm_xtensa_op_l32i_n reg_dest reg_base offset
  else if MP_FIT_UNSIGNED 8 offset then
    asm_xtensa_op24 (ASM_XTENSA_ENCODE_RRI8 2 operation_size reg_base reg_dest offset)
  else
    asm_xtensa_mov_reg_i32_optimised reg_dest (u32 (offset << operation_size));;
    asm_xtensa_op_add_n reg_dest reg_base reg_dest;;
    if operation_size =? 2 then asm_xtensa_op_l32i_n reg_dest reg_dest 0
    else asm_xtensa_op24 (ASM_XTENSA_ENCODE_RRI8 2 operation_size reg_dest reg_dest 0).

Definition asm_xtensa_store_reg_reg_offset (reg_src reg_base offset operation_size : Z)
  : M asm_xtensa_t unit :=
  assert_ (operation_size <=? 2) "Operation size value out of range.";;
  if (operation_size =? 2) && MP_FIT_UNSIGNED 4 offset then
    asm_xtensa_op_s32i_n reg_src reg_base offset
  else if MP_FIT_UNSIGNED 8 offset then
    asm_xtensa_op24 (ASM_XTENSA_ENCODE_RRI8 2 (0x04 .| operation_size) reg_base reg_src offset)
  else
    asm_xtensa_mov_reg_i32_optimised REG_TEMP (u32 (offset << operation_size));;
    asm_xtensa_op_add_n REG_TEMP reg_base REG_TEMP;;
    if operation_size =? 2 then asm_xtensa_op_s32i_n reg_src REG_TEMP 0
    else asm_xtensa_op24 (ASM_XTENSA_ENCODE_RRI8 2 (0x04 .| operation_size) REG_TEMP reg_src 0).

(** ** Calls, and the inline assembler's branches *)

Definition asm_xtensa_call_ind (idx : Z) : M asm_xtensa_t unit :=
  asm_xtensa_l32i_optimised ASM_XTENSA_REG_A0 ASM_XTENSA_REG_FUN_TABLE idx;;
  asm_xtensa_op_callx0 ASM_XTENSA_REG_A0.

Definition asm_xtensa_call_ind_win (idx : Z) : M asm_xtensa_t unit :=
  asm_xtensa_l32i_optimised ASM_XTENSA_REG_A8 ASM_XTENSA_REG_FUN_TABLE_WIN idx;;
  asm_xtensa_op_callx8 ASM_XTENSA_REG_A8.
End Config.

Definition asm_xtensa_bit_branch (reg bit label condition : Z) : M asm_xtensa_t unit :=
  dest ← get_label_dest label;
  code_offset ← gets (fun s => code_offset (base s));
  let rel := s32 (dest - code_offset - 4) in
  pass ← gets (fun s => pass (base s));
  (if (pass =? MP_ASM_PASS_EMIT) && negb (SIGNED_FIT8 rel) then
     raise "ERROR: xtensa bit_branch out of range"
   else mret tt);;
  asm_xtensa_op24 (ASM_XTENSA_ENCODE_RRI8 7 (condition .| bit >> 4 .& 0x01) reg (bit .& 0x0F)
    (rel .& 0xFF)).

Definition asm_xtensa_call0 (label : Z) : M asm_xtensa_t unit :=
  dest ← get_label_dest label;
  code_offset ← gets (fun s => code_offset (base s));
  let rel := s32 (dest - code_offset - 3) in
  pass ← gets (fun s => pass (base s));
  (if pass =? MP_ASM_PASS_EMIT then
     (if negb (dest .& 0x03 =? 0) then raise "ERROR: call0 target not word-aligned" else mret tt);;
     (if negb (rel .& 0x03 =? 0) then raise "ERROR: call0 location not word-aligned" else mret tt);;
     (if negb (SIGNED_FIT18 rel) then raise "ERROR: xtensa call0 out of range" else mret tt)
   else mret tt);;
  asm_xtensa_op_call0 rel.

Definition asm_xtensa_l32r (reg label : Z) : M asm_xtensa_t unit :=
  dest ← get_label_dest label;
  code_offset ← gets (fun s => code_offset (base s));
  let rel := s32 (dest - code_offset) in
  pass ← gets (fun s => pass (base s));
  (if pass =? MP_ASM_PASS_EMIT then
     (if negb (dest .& 0x03 =? 0) then raise "ERROR: l32r target not word-aligned" else mret tt);;
     (if negb (rel .& 0x03 =? 0) then raise "ERROR: l32r location not word-aligned" else mret tt);;
     (if negb (SIGNED_FIT18 rel) || (0 <=? rel) then raise "ERROR: xtensa l32r out of range"
      else mret tt)
   else mret tt);;
  asm_xtensa_op_l32r reg code_offset dest.

(** ** The generic assembler API *)

Module GenericApi.
Section Api.
Context `{XtensaConfig} `{PyMisc}.

Definition ASM_WORD_SIZE : Z := 4.
Definition REG_RET : Z :=
  if GENERIC_ASM_API_WIN then ASM_XTENSA_REG_A10 else ASM_XTENSA_REG_A2.
Definition REG_ARG_1 : Z :=
  if GENERIC_ASM_API_WIN then ASM_XTENSA_REG_A10 else ASM_XTENSA_REG_A2.
Definition REG_ARG_2 : Z :=
  if GENERIC_ASM_API_WIN then ASM_XTENSA_REG_A11 else ASM_XTENSA_REG_A3.
Definition REG_ARG_3 : Z :=
  if GENERIC_ASM_API_WIN then ASM_XTENSA_REG_A12 else ASM_XTENSA_REG_A4.
Definition REG_ARG_4 : Z :=
  if GENERIC_ASM_API_WIN then ASM_XTENSA_REG_A13 else ASM_XTENSA_REG_A5.
Definition REG_ARG_5 : Z := ASM_XTENSA_REG_A6.
Definition REG_TEMP0 : Z :=
  if GENERIC_ASM_API_WIN then ASM_XTENSA_REG_A10 else ASM_XTENSA_REG_A2.
Definition REG_TEMP1 : Z :=
  if GENERIC_ASM_API_WIN then ASM_XTENSA_REG_A11 else ASM_XTENSA_REG_A3.
Definition REG_TEMP2 : Z :=
  if GENERIC_ASM_API_WIN then ASM_XTENSA_REG_A12 else ASM_XTENSA_REG_A4.
Definition REG_LOCAL_1 : Z :=
  if GENERIC_ASM_API_WIN then ASM_XTENSA_REG_A4 else ASM_XTENSA_REG_A12.
Definition REG_LOCAL_2 : Z :=
  if GENERIC_ASM_API_WIN then ASM_XTENSA_REG_A5 else ASM_XTENSA_REG_A13.
Definition REG_LOCAL_3 : Z :=
  if GENERIC_ASM_API_WIN then ASM_XTENSA_REG_A6 else ASM_XTENSA_REG_A14.
Definition REG_LOCAL_NUM : Z := 3.
Definition ASM_NUM_REGS_SAVED : Z :=
  if GENERIC_ASM_API_WIN then ASM_XTENSA_NUM_REGS_SAVED_WIN else ASM_XTENSA_NUM_REGS_SAVED.
Definition REG_FUN_TABLE : Z :=
  if GENERIC_ASM_API_WIN then ASM_XTENSA_REG_FUN_TABLE_WIN else ASM_XTENSA_REG_FUN_TABLE.
Definition REG_PARENT_RET : Z := ASM_XTENSA_REG_A2.
Definition REG_PARENT_ARG_1 : Z := ASM_XTENSA_REG_A2.
Definition REG_PARENT_ARG_2 : Z := ASM_XTENSA_REG_A3.
Definition REG_PARENT_ARG_3 : Z := ASM_XTENSA_REG_A4.
Definition REG_PARENT_ARG_4 : Z := ASM_XTENSA_REG_A5.
Definition ASM_ENTRY (nlocal : Z) : M asm_xtensa_t unit :=
  if GENERIC_ASM_API_WIN then asm_xtensa_entry_win nlocal else asm_xtensa_entry nlocal.
Definition ASM_EXIT : M asm_xtensa_t unit :=
  if GENERIC_ASM_API_WIN then asm_xtensa_exit_win else asm_xtensa_exit.
Definition ASM_CALL_IND (idx : Z) : M asm_xtensa_t unit :=
  if GENERIC_ASM_API_WIN then asm_xtensa_call_ind_win idx else asm_xtensa_call_ind idx.
Definition ASM_END_PASS : M asm_xtensa_t unit := asm_xtensa_end_pass.
Definition ASM_JUMP (label : Z) : M asm_xtensa_t unit := asm_xtensa_j_label label.
Definition ASM_JUMP_IF_REG_ZERO (reg label : Z) (bool_test : bool) : M asm_xtensa_t unit :=
  asm_xtensa_bccz_reg_label ASM_XTENSA_CCZ_EQ reg label.
Definition ASM_JUMP_IF_REG_NONZERO (reg label : Z) (bool_test : bool) : M asm_xtensa_t unit :=
  asm_xtensa_bccz_reg_label ASM_XTENSA_CCZ_NE reg label.
Definition ASM_JUMP_IF_REG_EQ (reg1 reg2 label : Z) : M asm_xtensa_t unit :=
  asm_xtensa_bcc_reg_reg_label ASM_XTENSA_CC_EQ reg1 reg2 label.
Definition ASM_JUMP_REG (reg : Z) : M asm_xtensa_t unit := asm_xtensa_op_jx reg.
Definition ASM_MOV_LOCAL_REG (local_num reg_src : Z) : M asm_xtensa_t unit :=
  asm_xtensa_mov_local_reg (s32 (ASM_NUM_REGS_SAVED + local_num)) reg_src.
Definition ASM_MOV_REG_IMM (reg_dest imm : Z) : M asm_xtensa_t unit :=
  asm_xtensa_mov_reg_i32_optimised reg_dest imm.
Definition ASM_MOV_REG_LOCAL (reg_dest local_num : Z) : M asm_xtensa_t unit :=
  asm_xtensa_mov_reg_local reg_dest (s32 (ASM_NUM_REGS_SAVED + local_num)).
Definition ASM_MOV_REG_REG (reg_dest reg_src : Z) : M asm_xtensa_t unit :=
  asm_xtensa_op_mov_n reg_dest reg_src.
Definition ASM_MOV_REG_LOCAL_ADDR (reg_dest local_num : Z) : M asm_xtensa_t unit :=
  asm_xtensa_mov_reg_local_addr reg_dest (s32 (ASM_NUM_REGS_SAVED + local_num)).
Definition ASM_MOV_REG_PCREL (reg_dest label : Z) : M asm_xtensa_t unit :=
  asm_xtensa_mov_reg_pcrel reg_dest label.
Definition ASM_NEG_REG (reg_dest : Z) : M asm_xtensa_t unit :=
  asm_xtensa_op_neg reg_dest reg_dest.
Definition ASM_LSL_REG_REG (reg_dest reg_shift : Z) : M asm_xtensa_t unit :=
  asm_xtensa_op_ssl reg_shift;;
  asm_xtensa_op_sll reg_dest reg_dest.
Definition ASM_LSR_REG_REG (reg_dest reg_shift : Z) : M asm_xtensa_t unit :=
  asm_xtensa_op_ssr reg_shift;;
  asm_xtensa_op_srl reg_dest reg_dest.
Definition ASM_ASR_REG_REG (reg_dest reg_shift : Z) : M asm_xtensa_t unit :=
  asm_xtensa_op_ssr reg_shift;;
  asm_xtensa_op_sra reg_dest reg_dest.
Definition ASM_OR_REG_REG (reg_dest reg_src : Z) : M asm_xtensa_t unit :=
  asm_xtensa_op_or reg_dest reg_dest reg_src.
Definition ASM_XOR_REG_REG (reg_dest reg_src : Z) : M asm_xtensa_t unit :=
  asm_xtensa_op_xor reg_dest reg_dest reg_src.
Definition ASM_AND_REG_REG (reg_dest reg_src : Z) : M asm_xtensa_t unit :=
  asm_xtensa_op_and reg_dest reg_dest reg_src.
Definition ASM_ADD_REG_REG (reg_dest reg_src : Z) : M asm_xtensa_t unit :=
  asm_xtensa_op_add_n reg_dest reg_dest reg_src.
Definition ASM_SUB_REG_REG (reg_dest reg_src : Z) : M asm_xtensa_t unit :=
  asm_xtensa_op_sub reg_dest reg_dest reg_src.
Definition ASM_MUL_REG_REG (reg_dest reg_src : Z) : M asm_xtensa_t unit :=
  asm_xtensa_op_mull reg_dest reg_dest reg_src.
Definition ASM_LOAD32_REG_REG_OFFSET (reg_dest reg_base word_offset : Z) : M asm_xtensa_t unit
  :=
  asm_xtensa_load_reg_reg_offset reg_dest reg_base word_offset 2.
Definition ASM_LOAD_REG_REG_OFFSET (reg_dest reg_base word_offset : Z) : M asm_xtensa_t unit :=
  ASM_LOAD32_REG_REG_OFFSET reg_dest reg_base word_offset.
Definition ASM_LOAD8_REG_REG_OFFSET (reg_dest reg_base byte_offset : Z) : M asm_xtensa_t unit :=
  asm_xtensa_load_reg_reg_offset reg_dest reg_base byte_offset 0.
Definition ASM_LOAD8_REG_REG (reg_dest reg_base : Z) : M asm_xtensa_t unit :=
  ASM_LOAD8_REG_REG_OFFSET reg_dest reg_base 0.
Definition ASM_LOAD8_REG_REG_REG (reg_dest reg_base reg_index : Z) : M asm_xtensa_t unit :=
  asm_xtensa_op_add_n reg_base reg_index reg_base;;
  asm_xtensa_op_l8ui reg_dest reg_base 0.
Definition ASM_LOAD16_REG_REG_OFFSET (reg_dest reg_base halfword_offset : Z) : M asm_xtensa_t
  unit :=
  asm_xtensa_load_reg_reg_offset reg_dest reg_base halfword_offset 1.
Definition ASM_LOAD16_REG_REG (reg_dest reg_base : Z) : M asm_xtensa_t unit :=
  ASM_LOAD16_REG_REG_OFFSET reg_dest reg_base 0.
Definition ASM_LOAD16_REG_REG_REG (reg_dest reg_base reg_index : Z) : M asm_xtensa_t unit :=
  asm_xtensa_op_addx2 reg_base reg_index reg_base;;
  asm_xtensa_op_l16ui reg_dest reg_base 0.
Definition ASM_LOAD32_REG_REG (reg_dest reg_base : Z) : M asm_xtensa_t unit :=
  ASM_LOAD32_REG_REG_OFFSET reg_dest reg_base 0.
Definition ASM_LOAD32_REG_REG_REG (reg_dest reg_base reg_index : Z) : M asm_xtensa_t unit :=
  asm_xtensa_op_addx4 reg_base reg_index reg_base;;
  asm_xtensa_op_l32i_n reg_dest reg_base 0.
Definition ASM_STORE32_REG_REG_OFFSET (reg_dest reg_base word_offset : Z) : M asm_xtensa_t
  unit :=
  asm_xtensa_store_reg_reg_offset reg_dest reg_base word_offset 2.
Definition ASM_STORE_REG_REG_OFFSET (reg_dest reg_base word_offset : Z) : M asm_xtensa_t unit :=
  ASM_STORE32_REG_REG_OFFSET reg_dest reg_base word_offset.
Definition ASM_STORE8_REG_REG_OFFSET (reg_src reg_base byte_offset : Z) : M asm_xtensa_t unit :=
  asm_xtensa_store_reg_reg_offset reg_src reg_base byte_offset 0.
Definition ASM_STORE8_REG_REG (reg_src reg_base : Z) : M asm_xtensa_t unit :=
  ASM_STORE8_REG_REG_OFFSET reg_src reg_base 0.
Definition ASM_STORE8_REG_REG_REG (reg_val reg_base reg_index : Z) : M asm_xtensa_t unit :=
  asm_xtensa_op_add_n reg_base reg_index reg_base;;
  asm_xtensa_op_s8i reg_val reg_base 0.
Definition ASM_STORE16_REG_REG_OFFSET (reg_src reg_base halfword_offset : Z) : M asm_xtensa_t
  unit :=
  asm_xtensa_store_reg_reg_offset reg_src reg_base halfword_offset 1.
Definition ASM_STORE16_REG_REG (reg_src reg_base : Z) : M asm_xtensa_t unit :=
  ASM_STORE16_REG_REG_OFFSET reg_src reg_base 0.
Definition ASM_STORE16_REG_REG_REG (reg_val reg_base reg_index : Z) : M asm_xtensa_t unit :=
  asm_xtensa_op_addx2 reg_base reg_index reg_base;;
  asm_xtensa_op_s16i reg_val reg_base 0.
Definition ASM_STORE32_REG_REG (reg_src reg_base : Z) : M asm_xtensa_t unit :=
  ASM_STORE32_REG_REG_OFFSET reg_src reg_base 0.
Definition ASM_STORE32_REG_REG_REG (reg_val reg_base reg_index : Z) : M asm_xtensa_t unit :=
  asm_xtensa_op_addx4 reg_base reg_index reg_base;;
  asm_xtensa_op_s32i_n reg_val reg_base 0.
Definition ASM_CLR_REG (reg_dest : Z) : M asm_xtensa_t unit :=
  asm_xtensa_op_movi_n reg_dest 0.
End Api.
End GenericApi.
