(* ===== verification/AsmXtensaPass.v ===== *)
(** * AsmXtensaPass: the passes over Xtensa programs agree

    Constants that no instruction holds go into a table in front of the code.
    A pass counts them; the next one's entry reserves the table, and the emit
    pass fills it in.  Branches are short only backwards, so every operation
    writes as many bytes in both passes. *)

From S2P Require Import Prelude AsmBase TwoPass AsmBaseSpec PyMisc AsmXtensa.

Set Default Goal Selector "!".

#[local] Existing Instance SizeT_32.
Import AsmXtensa.GenericApi.

(** As far as an 18-bit displacement reaches. *)
Definition xtensa_limit : Z := 2 ^ 17 - 16.
Lemma xtensa_limit_ok : 0 < xtensa_limit < 2 ^ size_bits - 1.
Proof. done. Qed.
#[export] Hint Resolve xtensa_limit_ok : steady.

(** The table's bytes are behind the entry; it lies within the region. *)
Definition in_const_table (s : asm_xtensa_t) (i : nat) : Prop :=
  exists p, const_table s = Some p /\ p <= Z.of_nat i < p + 4 * num_const s.
Definition const_table_fits (s : asm_xtensa_t) : Prop :=
  forall p, const_table s = Some p -> 0 <= p /\ p + 4 * num_const s <= code_size (base s).
#[export, refine] Instance xtensa_table : PassTable asm_xtensa_t :=
  {| count s := u32 (cur_const s); capacity := num_const; in_table := in_const_table;
     emit_ok := const_table_fits |}.
Proof. all: try done. intros b s Hs _ Hok p Hp. simpl in *. rewrite Hs. by apply Hok. Defined.

(** ** Writing instructions *)

Section Words.
Context (agree : asm_xtensa_t -> asm_xtensa_t -> Prop).
Context (agree_base : forall b b' s s', agree s s' -> agree (with_base b s) (with_base b' s')).

Lemma xtensa_emits_op16 op s : emits s (asm_xtensa_op16 op) [u8 op; u8 (op >> 8)].
Proof using. apply emits_put_array. bytes_tac. Qed.
Lemma xtensa_emits_op24 op s : emits s (asm_xtensa_op24 op) [u8 op; u8 (op >> 8); u8 (op >> 16)].
Proof using. apply emits_put_array. bytes_tac. Qed.
Lemma xtensa_paired_op16 op op' : paired xtensa_limit agree 2 (asm_xtensa_op16 op) (asm_xtensa_op16 op').
Proof using agree_base. eapply paired_puts; [apply xtensa_limit_ok|done|apply xtensa_emits_op16..|done|done]. Qed.
Lemma xtensa_paired_op24 op op' : paired xtensa_limit agree 3 (asm_xtensa_op24 op) (asm_xtensa_op24 op').
Proof using agree_base. eapply paired_puts; [apply xtensa_limit_ok|done|apply xtensa_emits_op24..|done|done]. Qed.
Lemma xtensa_steady_op16 op : steady xtensa_limit agree 2 (asm_xtensa_op16 op).
Proof using agree_base. apply xtensa_paired_op16. Qed.
Lemma xtensa_steady_op24 op : steady xtensa_limit agree 3 (asm_xtensa_op24 op).
Proof using agree_base. apply xtensa_paired_op24. Qed.
End Words.
#[export] Hint Resolve xtensa_paired_op16 xtensa_paired_op24 xtensa_steady_op16 xtensa_steady_op24 : steady.
#[export] Hint Resolve xtensa_emits_op16 xtensa_emits_op24 : code.

(** The instructions, as words. *)
Create HintDb xtensa_instrs.
#[export] Hint Unfold
  asm_xtensa_op_entry asm_xtensa_op_add_n asm_xtensa_op_addi asm_xtensa_op_addx2
  asm_xtensa_op_addx4 asm_xtensa_op_and asm_xtensa_op_bcc asm_xtensa_op_bccz asm_xtensa_op_call0
  asm_xtensa_op_callx0 asm_xtensa_op_callx8 asm_xtensa_op_j asm_xtensa_op_jx asm_xtensa_op_l8ui
  asm_xtensa_op_l16ui asm_xtensa_op_l32i asm_xtensa_op_l32i_n asm_xtensa_op_l32r
  asm_xtensa_op_mov_n asm_xtensa_op_movi asm_xtensa_op_movi_n asm_xtensa_op_mull
  asm_xtensa_op_neg asm_xtensa_op_or asm_xtensa_op_ret_n asm_xtensa_op_retw_n asm_xtensa_op_s8i
  asm_xtensa_op_s16i asm_xtensa_op_s32i asm_xtensa_op_s32i_n asm_xtensa_op_sll asm_xtensa_op_srl
  asm_xtensa_op_sra asm_xtensa_op_ssl asm_xtensa_op_ssr asm_xtensa_op_sub asm_xtensa_op_xor
  : xtensa_instrs.

(** ** Programs *)

(** The operations, but for the inline assembler's three that reject a label
    out of range or out of line only in the emit pass, and [ASM_END_PASS],
    which comes between the passes. *)
Inductive xtensa_op :=
| Shared (op : base_op)
| Exit | CallInd (idx : Z) | Jump (label : Z)
| JumpIfRegZero (reg label : Z) (bool_test : bool)
| JumpIfRegNonzero (reg label : Z) (bool_test : bool) | JumpIfRegEq (reg1 reg2 label : Z)
| JumpReg (reg : Z) | MovLocalReg (local_num reg_src : Z) | MovRegImm (reg_dest imm : Z)
| MovRegLocal (reg_dest local_num : Z) | MovRegReg (reg_dest reg_src : Z)
| MovRegLocalAddr (reg_dest local_num : Z) | MovRegPcrel (reg_dest label : Z)
| NegReg (reg_dest : Z) | LslRegReg (reg_dest reg_shift : Z)
| LsrRegReg (reg_dest reg_shift : Z) | AsrRegReg (reg_dest reg_shift : Z)
| OrRegReg (reg_dest reg_src : Z) | XorRegReg (reg_dest reg_src : Z)
| AndRegReg (reg_dest reg_src : Z) | AddRegReg (reg_dest reg_src : Z)
| SubRegReg (reg_dest reg_src : Z) | MulRegReg (reg_dest reg_src : Z)
| Load32RegRegOffset (reg_dest reg_base word_offset : Z)
| LoadRegRegOffset (reg_dest reg_base word_offset : Z)
| Load8RegRegOffset (reg_dest reg_base byte_offset : Z) | Load8RegReg (reg_dest reg_base : Z)
| Load8RegRegReg (reg_dest reg_base reg_index : Z)
| Load16RegRegOffset (reg_dest reg_base halfword_offset : Z)
| Load16RegReg (reg_dest reg_base : Z) | Load16RegRegReg (reg_dest reg_base reg_index : Z)
| Load32RegReg (reg_dest reg_base : Z) | Load32RegRegReg (reg_dest reg_base reg_index : Z)
| Store32RegRegOffset (reg_dest reg_base word_offset : Z)
| StoreRegRegOffset (reg_dest reg_base word_offset : Z)
| Store8RegRegOffset (reg_src reg_base byte_offset : Z) | Store8RegReg (reg_src reg_base : Z)
| Store8RegRegReg (reg_val reg_base reg_index : Z)
| Store16RegRegOffset (reg_src reg_base halfword_offset : Z)
| Store16RegReg (reg_src reg_base : Z) | Store16RegRegReg (reg_val reg_base reg_index : Z)
| Store32RegReg (reg_src reg_base : Z) | Store32RegRegReg (reg_val reg_base reg_index : Z)
| ClrReg (reg_dest : Z) | Op16 (op : Z) | Op24 (op : Z) | BccLabel (cond reg1 reg2 label : Z)
| BcczLabel (cond reg label : Z) | SetccReg (cond reg_dest reg_src1 reg_src2 : Z)
| MovRegI32 (reg_dest i32 : Z).

(** The functions that only call another one. *)
Create HintDb xtensa_calls.
#[export] Hint Unfold
  ASM_ENTRY ASM_EXIT ASM_CALL_IND ASM_END_PASS ASM_JUMP ASM_JUMP_IF_REG_ZERO
  ASM_JUMP_IF_REG_NONZERO ASM_JUMP_IF_REG_EQ ASM_JUMP_REG ASM_MOV_LOCAL_REG ASM_MOV_REG_IMM
  ASM_MOV_REG_LOCAL ASM_MOV_REG_REG ASM_MOV_REG_LOCAL_ADDR ASM_MOV_REG_PCREL ASM_NEG_REG
  ASM_LSL_REG_REG ASM_LSR_REG_REG ASM_ASR_REG_REG ASM_OR_REG_REG ASM_XOR_REG_REG
  ASM_AND_REG_REG ASM_ADD_REG_REG ASM_SUB_REG_REG ASM_MUL_REG_REG ASM_LOAD32_REG_REG_OFFSET
  ASM_LOAD_REG_REG_OFFSET ASM_LOAD8_REG_REG_OFFSET ASM_LOAD8_REG_REG ASM_LOAD8_REG_REG_REG
  ASM_LOAD16_REG_REG_OFFSET ASM_LOAD16_REG_REG ASM_LOAD16_REG_REG_REG ASM_LOAD32_REG_REG
  ASM_LOAD32_REG_REG_REG ASM_STORE32_REG_REG_OFFSET ASM_STORE_REG_REG_OFFSET
  ASM_STORE8_REG_REG_OFFSET ASM_STORE8_REG_REG ASM_STORE8_REG_REG_REG
  ASM_STORE16_REG_REG_OFFSET ASM_STORE16_REG_REG ASM_STORE16_REG_REG_REG ASM_STORE32_REG_REG
  ASM_STORE32_REG_REG_REG ASM_CLR_REG asm_xtensa_mov_local_reg asm_xtensa_mov_reg_local
  asm_xtensa_mov_reg_local_addr asm_xtensa_call_ind asm_xtensa_call_ind_win : xtensa_calls.

Section Operations.
Context `{XtensaConfig} `{PyMisc}.

Definition xtensa_exec (op : xtensa_op) : M asm_xtensa_t unit :=
  match op with
  | Shared op => on_base (base_exec op)
  | Exit => ASM_EXIT
  | CallInd idx => ASM_CALL_IND idx
  | Jump label => ASM_JUMP label
  | JumpIfRegZero reg label bool_test => ASM_JUMP_IF_REG_ZERO reg label bool_test
  | JumpIfRegNonzero reg label bool_test => ASM_JUMP_IF_REG_NONZERO reg label bool_test
  | JumpIfRegEq reg1 reg2 label => ASM_JUMP_IF_REG_EQ reg1 reg2 label
  | JumpReg reg => ASM_JUMP_REG reg
  | MovLocalReg local_num reg_src => ASM_MOV_LOCAL_REG local_num reg_src
  | MovRegImm reg_dest imm => ASM_MOV_REG_IMM reg_dest imm
  | MovRegLocal reg_dest local_num => ASM_MOV_REG_LOCAL reg_dest local_num
  | MovRegReg reg_dest reg_src => ASM_MOV_REG_REG reg_dest reg_src
  | MovRegLocalAddr reg_dest local_num => ASM_MOV_REG_LOCAL_ADDR reg_dest local_num
  | MovRegPcrel reg_dest label => ASM_MOV_REG_PCREL reg_dest label
  | NegReg reg_dest => ASM_NEG_REG reg_dest
  | LslRegReg reg_dest reg_shift => ASM_LSL_REG_REG reg_dest reg_shift
  | LsrRegReg reg_dest reg_shift => ASM_LSR_REG_REG reg_dest reg_shift
  | AsrRegReg reg_dest reg_shift => ASM_ASR_REG_REG reg_dest reg_shift
  | OrRegReg reg_dest reg_src => ASM_OR_REG_REG reg_dest reg_src
  | XorRegReg reg_dest reg_src => ASM_XOR_REG_REG reg_dest reg_src
  | AndRegReg reg_dest reg_src => ASM_AND_REG_REG reg_dest reg_src
  | AddRegReg reg_dest reg_src => ASM_ADD_REG_REG reg_dest reg_src
  | SubRegReg reg_dest reg_src => ASM_SUB_REG_REG reg_dest reg_src
  | MulRegReg reg_dest reg_src => ASM_MUL_REG_REG reg_dest reg_src
  | Load32RegRegOffset reg_dest reg_base word_offset => ASM_LOAD32_REG_REG_OFFSET reg_dest reg_base word_offset
  | LoadRegRegOffset reg_dest reg_base word_offset => ASM_LOAD_REG_REG_OFFSET reg_dest reg_base word_offset
  | Load8RegRegOffset reg_dest reg_base byte_offset => ASM_LOAD8_REG_REG_OFFSET reg_dest reg_base byte_offset
  | Load8RegReg reg_dest reg_base => ASM_LOAD8_REG_REG reg_dest reg_base
  | Load8RegRegReg reg_dest reg_base reg_index => ASM_LOAD8_REG_REG_REG reg_dest reg_base reg_index
  | Load16RegRegOffset reg_dest reg_base halfword_offset => ASM_LOAD16_REG_REG_OFFSET reg_dest reg_base halfword_offset
  | Load16RegReg reg_dest reg_base => ASM_LOAD16_REG_REG reg_dest reg_base
  | Load16RegRegReg reg_dest reg_base reg_index => ASM_LOAD16_REG_REG_REG reg_dest reg_base reg_index
  | Load32RegReg reg_dest reg_base => ASM_LOAD32_REG_REG reg_dest reg_base
  | Load32RegRegReg reg_dest reg_base reg_index => ASM_LOAD32_REG_REG_REG reg_dest reg_base reg_index
  | Store32RegRegOffset reg_dest reg_base word_offset => ASM_STORE32_REG_REG_OFFSET reg_dest reg_base word_offset
  | StoreRegRegOffset reg_dest reg_base word_offset => ASM_STORE_REG_REG_OFFSET reg_dest reg_base word_offset
  | Store8RegRegOffset reg_src reg_base byte_offset => ASM_STORE8_REG_REG_OFFSET reg_src reg_base byte_offset
  | Store8RegReg reg_src reg_base => ASM_STORE8_REG_REG reg_src reg_base
  | Store8RegRegReg reg_val reg_base reg_index => ASM_STORE8_REG_REG_REG reg_val reg_base reg_index
  | Store16RegRegOffset reg_src reg_base halfword_offset => ASM_STORE16_REG_REG_OFFSET reg_src reg_base halfword_offset
  | Store16RegReg reg_src reg_base => ASM_STORE16_REG_REG reg_src reg_base
  | Store16RegRegReg reg_val reg_base reg_index => ASM_STORE16_REG_REG_REG reg_val reg_base reg_index
  | Store32RegReg reg_src reg_base => ASM_STORE32_REG_REG reg_src reg_base
  | Store32RegRegReg reg_val reg_base reg_index => ASM_STORE32_REG_REG_REG reg_val reg_base reg_index
  | ClrReg reg_dest => ASM_CLR_REG reg_dest
  | Op16 op => asm_xtensa_op16 op
  | Op24 op => asm_xtensa_op24 op
  | BccLabel cond reg1 reg2 label => asm_xtensa_bcc_reg_reg_label cond reg1 reg2 label
  | BcczLabel cond reg label => asm_xtensa_bccz_reg_label cond reg label
  | SetccReg cond reg_dest reg_src1 reg_src2 => asm_xtensa_setcc_reg_reg_reg cond reg_dest reg_src1 reg_src2
  | MovRegI32 reg_dest i32 => asm_xtensa_mov_reg_i32 reg_dest i32;; mret tt
  end.

(** At most so many bytes. *)
Definition xtensa_size (op : xtensa_op) : Z :=
  match op with
  | Shared op => base_size op
  | CallInd _ => 10
  | MovRegPcrel _ _ => 11
  | Exit => 17
  | Jump _ | JumpReg _ | MovLocalReg _ _ | MovRegImm _ _ | MovRegLocal _ _ | MovRegReg _ _
  | NegReg _ | OrRegReg _ _ | XorRegReg _ _ | AndRegReg _ _ | AddRegReg _ _ | SubRegReg _ _
  | MulRegReg _ _ | ClrReg _ | Op16 _ | Op24 _ | MovRegI32 _ _ => 3
  | MovRegLocalAddr _ _ => 5
  | JumpIfRegZero _ _ _ | JumpIfRegNonzero _ _ _ | JumpIfRegEq _ _ _ | LslRegReg _ _
  | LsrRegReg _ _ | AsrRegReg _ _ | Load8RegRegReg _ _ _ | Load16RegRegReg _ _ _
  | Load32RegRegReg _ _ _ | Store8RegRegReg _ _ _ | Store16RegRegReg _ _ _
  | Store32RegRegReg _ _ _ | BccLabel _ _ _ _ | BcczLabel _ _ _ => 6
  | SetccReg _ _ _ _ => 7
  | Load32RegRegOffset _ _ _ | LoadRegRegOffset _ _ _ | Load8RegRegOffset _ _ _
  | Load8RegReg _ _ | Load16RegRegOffset _ _ _ | Load16RegReg _ _ | Load32RegReg _ _
  | Store32RegRegOffset _ _ _ | StoreRegRegOffset _ _ _ | Store8RegRegOffset _ _ _
  | Store8RegReg _ _ | Store16RegRegOffset _ _ _ | Store16RegReg _ _ | Store32RegReg _ _ => 8
  end.

Definition xtensa_op_ok (op : xtensa_op) : Prop :=
  match op with Shared op => base_op_ok op | _ => True end.

(** A function: its entry, then its operations, the exits among them. *)
Definition xtensa_function (locals : Z) (ops : list xtensa_op) : M asm_xtensa_t unit :=
  ASM_ENTRY locals;; seq_ops xtensa_exec ops.

(** The table entries that an operation takes. *)
Definition imm_consts (i32 : Z) : Z :=
  if (-32 <=? s32 i32) && (s32 i32 <=? 95) then 0 else if SIGNED_FIT12 i32 then 0 else 1.
Definition offset_consts (offset size : Z) : Z :=
  if (size =? 2) && MP_FIT_UNSIGNED 4 offset then 0
  else if MP_FIT_UNSIGNED 8 offset then 0 else imm_consts (u32 (offset << size)).
Definition index_consts (word_offset : Z) : Z :=
  if word_offset <? 16 then 0 else if word_offset <? 256 then 0 else imm_consts (u32 (word_offset * 4)).
Definition xtensa_consts (op : xtensa_op) : Z :=
  match op with
  | MovRegImm _ i => imm_consts i
  | MovRegI32 _ _ => 1
  | CallInd i => index_consts i
  | Load8RegRegOffset _ _ o | Store8RegRegOffset _ _ o => offset_consts o 0
  | Load16RegRegOffset _ _ o | Store16RegRegOffset _ _ o => offset_consts o 1
  | Load32RegRegOffset _ _ o | LoadRegRegOffset _ _ o
  | Store32RegRegOffset _ _ o | StoreRegRegOffset _ _ o => offset_consts o 2
  | Load8RegReg _ _ | Store8RegReg _ _ => offset_consts 0 0
  | Load16RegReg _ _ | Store16RegReg _ _ => offset_consts 0 1
  | Load32RegReg _ _ | Store32RegReg _ _ => offset_consts 0 2
  | _ => 0
  end.
Definition xtensa_function_ok (ops : list xtensa_op) : Prop :=
  Forall xtensa_op_ok ops /\ 20 + 4 * total xtensa_consts ops + total xtensa_size ops <= xtensa_limit.
End Operations.

(** ** The fields

    [N] constants were counted.  The compute pass has no table. *)
Section Xtensa.
Context (N : Z) (HN : 0 <= N /\ 4 * N <= xtensa_limit).

Record xtensa_agree (s s' : asm_xtensa_t) : Prop := {
  agree_cur : cur_const s' = cur_const s;
  agree_cur_range : 0 <= cur_const s < 2 ^ 32;
  agree_num : num_const s = N;
  agree_num' : num_const s' = N;
  agree_none : const_table s = None;
  agree_table : 0 < N -> is_Some (const_table s');
  agree_stack : stack_adjust s' = stack_adjust s;
}.
Lemma xtensa_agree_base b b' s s' : xtensa_agree s s' -> xtensa_agree (with_base b s) (with_base b' s').
Proof using. by intros []. Qed.
Hint Resolve xtensa_agree_base : steady.

Abbreviation xtensa_steady := (steady xtensa_limit xtensa_agree).
Ltac xtensa_fields := intros ? ? E; simpl; rewrite ?(agree_stack _ _ E); done.
Ltac xtensa_op := autounfold with xtensa_instrs; steady_op_tac xtensa_fields.

(** ** Constants *)

(** A store in the region. *)
Lemma xtensa_store_bytes_wf c vs b b' : base_wf b -> Forall is_byte vs -> store_bytes c vs b = Ok (tt, b') ->
  b' = set_code_mem (code_mem b') b /\ base_wf b'.
Proof using.
  intros Hwf Hvs E. destruct (store_bytes_inv vs c b _ E) as [-> | [H1 H2]].
  - injection E as <-. split; [by rewrite set_code_mem_id|done].
  - rewrite store_bytes_ok in E by done. injection E as <-. split; [done|].
    destruct Hwf. constructor; simpl; rewrite ?length_inserts; try done. by apply Forall_list_inserts.
Qed.

(** What [asm_xtensa_mov_reg_i32] does after its [l32r]. *)
Definition fill_const (s0 : asm_xtensa_t) (i32 : Z) : M asm_xtensa_t unit :=
  match const_table s0 with
  | Some p => on_base (store_bytes (p + cur_const s0 * 4) (le_bytes 4 i32))
  | None => assert_ (negb (pass (base s0) =? MP_ASM_PASS_EMIT)) "Constants table was not built."
  end.
Definition next_const (s : asm_xtensa_t) : asm_xtensa_t := set_consts (u32 (cur_const s + 1)) (num_const s) s.
Definition l32r_bytes (r : Z) (s : asm_xtensa_t) : list Z :=
  let op := ASM_XTENSA_ENCODE_RI16 1 r
    (u32 (u32 (const_table_offset s + cur_const s * WORD_SIZE)
      - (u32 (code_offset (base s) + 3) .& u32 (Z.lnot 3))) >> 2 .& 0xffff) in
  [u8 op; u8 (op >> 8); u8 (op >> 16)].

Lemma xtensa_mov_reg_i32_run r i s : ready 3 s -> (asm_xtensa_mov_reg_i32 r i;; mret tt) s
  = (fill_const s i;; modify next_const) (puts (l32r_bytes r s) s).
Proof using.
  intros Hr. unfold asm_xtensa_mov_reg_i32, asm_xtensa_op_l32r. rewrite !bind_assoc, gets_bind. cbv zeta.
  rewrite !bind_assoc, (bind_Ok _ _ _ _ _ (proj1 (proj2 (xtensa_emits_op24 _ _)) Hr)).
  unfold fill_const, mbind, M_bind, id. by destruct (_ (puts _ s)) as [[[] ?]|].
Qed.
Lemma xtensa_l32r_bytes_ok r s : Forall is_byte (l32r_bytes r s) /\ length (l32r_bytes r s) = 3%nat.
Proof using. split; [unfold l32r_bytes; cbv zeta; bytes_tac|done]. Qed.

Lemma xtensa_fill_const_inv s0 i s s' : base_wf (base s) -> fill_const s0 i s = Ok (tt, s') ->
  exists mem, s' = with_base (set_code_mem mem (base s)) s /\ base_wf (base s').
Proof using.
  intros Hwf. unfold fill_const. destruct (const_table s0) as [p|].
  - intros (b & E & ->)%on_base_ok. apply xtensa_store_bytes_wf in E as [-> Hb]; [|done|apply le_bytes_is_byte].
    by exists (code_mem b).
  - destruct (negb _); [|done]. intros [= <-]. exists (code_mem (base s)).
    rewrite set_code_mem_id. by destruct s.
Qed.

Lemma xtensa_grows_mov_reg_i32 r i : grows xtensa_limit 3 (asm_xtensa_mov_reg_i32 r i;; mret tt).
Proof using.
  intros s a s' Hwf Hp Hoff Hcnt. destruct (xtensa_l32r_bytes_ok r s) as [Hb Hl].
  rewrite xtensa_mov_reg_i32_run.
  2: { split; [done|right]. rewrite Hp. split; [unfold xtensa_limit in *; simpl in *; lia|done]. }
  pose proof (puts_progress xtensa_limit xtensa_limit_ok (l32r_bytes r s) s Hwf Hb Hp) as P.
  rewrite Hl in P. specialize (P Hoff). intros ([] & s1 & E1 & [= <- <-])%bind_inv.
  apply xtensa_fill_const_inv in E1 as (mem & -> & Hwf'); [|apply P].
  destruct P. constructor; simpl in *; try done.
  change (u32 (cur_const s) <= u32 (u32 (cur_const s + 1)) <= u32 (cur_const s) + 3).
  pose proof (uw_range 32 eq_refl (cur_const s)).
  rewrite uw_uw, <- uw_add_l, (uw_small 32 (_ + 1)) by (unfold xtensa_limit in *; simpl in *; lia). lia.
Qed.

(** In the emit pass the table is there, with room for the constant. *)
Lemma xtensa_fill_const_emit i s s1 b p : const_table s = Some p -> base_of s1 = b -> base_wf b ->
  0 <= p -> 0 <= cur_const s -> p + 4 * (cur_const s + 1) <= code_size b ->
  fill_const s i s1 = Ok (tt, with_base (set_code_mem
    (list_inserts (Z.to_nat (p + cur_const s * 4)) (le_bytes 4 i) (code_mem b)) b) s1).
Proof using.
  intros Hp <- Hwf H0 Hc Hsz. unfold fill_const. rewrite Hp. unfold on_base.
  pose proof (wf_code_size _ Hwf). rewrite store_bytes_ok; [done|lia| |apply le_bytes_is_byte].
  rewrite length_le_bytes. lia.
Qed.

Lemma xtensa_set_code_mem_wf mem b : base_wf b -> length mem = length (code_mem b) -> Forall is_byte mem ->
  base_wf (set_code_mem mem b).
Proof using. intros [] Hl Hm. constructor; simpl; try done. by rewrite Hl. Qed.

Lemma xtensa_next_const_agree s s' : xtensa_agree s s' -> 0 <= cur_const s + 1 < 2 ^ 32 ->
  xtensa_agree (next_const s) (next_const s').
Proof using.
  intros [] Hr. constructor; simpl; try done; [by rewrite agree_cur0|].
  rewrite uw_small by done. lia.
Qed.

Lemma xtensa_twin_mov_reg_i32 r i : twin xtensa_limit xtensa_agree xtensa_agree 3 eq
  (asm_xtensa_mov_reg_i32 r i;; mret tt) (asm_xtensa_mov_reg_i32 r i;; mret tt).
Proof using HN.
  intros T sc se [] sc' Hs Hoff Hcnt E Hf Hsz Hcap. pose proof Hs as []. pose proof sync_fields as [].
  simpl in Hcnt, Hcap. rewrite uw_small in Hcnt by done.
  rewrite xtensa_mov_reg_i32_run in E.
  2: { split; [done|right]. rewrite sync_compute. split; [unfold xtensa_limit in *; simpl in *; lia|done]. }
  destruct (xtensa_l32r_bytes_ok r sc) as [Hb Hl]. destruct (xtensa_l32r_bytes_ok r se) as [Hb' Hl'].
  unfold fill_const in E. rewrite agree_none0, (sync_compute : pass (base sc) = _) in E.
  injection E as <-.
  assert (u32 (cur_const sc + 1) = cur_const sc + 1) as Ecur.
  { apply uw_small. unfold xtensa_limit in *. simpl in *. lia. }
  simpl in Hcap. rewrite Ecur, uw_small, agree_num'0 in Hcap by (unfold xtensa_limit in *; simpl in *; lia).
  destruct agree_table0 as [p Hp]; [lia|]. destruct (sync_ok p Hp) as [Hp0 Hpsz]. rewrite agree_num'0 in Hpsz.
  destruct (puts_sync xtensa_limit xtensa_limit_ok xtensa_agree xtensa_agree_base T sc se
    (l32r_bytes r sc) (l32r_bytes r se) Hs Hb Hb') as (Hput & Hs1 & Hk); [by rewrite Hl|by rewrite Hl|done|done|].
  rewrite Hl' in Hput. pose proof (TwoPass.sync_wf_emit _ _ _ _ _ Hs1) as Hwf1.
  set (se1 := puts (l32r_bytes r se) se) in *.
  assert (code_size (base_of se1) = code_size (base se)) as Ecs by apply put_bytes_size.
  pose proof (xtensa_fill_const_emit i se se1 (base_of se1) p Hp eq_refl Hwf1 Hp0
    ltac:(lia) ltac:(lia)) as Efill.
  set (mem := list_inserts _ _ _) in Efill.
  assert (base_wf (set_code_mem mem (base_of se1))) as Hwf'.
  { apply xtensa_set_code_mem_wf; [done|apply length_inserts|].
    apply Forall_list_inserts; [apply le_bytes_is_byte|apply Hwf1]. }
  exists tt, (next_const (with_base (set_code_mem mem (base_of se1)) se1)).
  rewrite xtensa_mov_reg_i32_run by done. split; [by rewrite (bind_Ok _ _ _ _ _ Efill)|]. split; [done|]. split.
  - destruct Hs1; constructor; try done.
    + change (u32 (u32 (cur_const sc + 1)) <= xtensa_limit). rewrite uw_uw, Ecur by done. lia.
    + apply xtensa_next_const_agree; [|unfold xtensa_limit in *; simpl in *; lia]. by apply xtensa_agree_base.
  - destruct Hk. constructor; try done. intros j Hj Ht. simpl.
    rewrite <- kept_mem by done. subst mem. pose proof (wf_code_size _ Hwf1).
    assert (Z.of_nat j < p + cur_const se * 4 \/ p + cur_const se * 4 + 4 <= Z.of_nat j) as [Hlt|Hge].
    { destruct (Z.lt_ge_cases (Z.of_nat j) p); [left; lia|].
      destruct (Z.lt_ge_cases (Z.of_nat j) (p + 4 * N)); [|right; lia].
      destruct Ht. exists p. split; [done|]. rewrite agree_num'0. lia. }
    + apply list_lookup_inserts_lt. lia.
    + apply list_lookup_inserts_ge. rewrite length_le_bytes. lia.
Qed.
Lemma xtensa_steady_mov_reg_i32 r i : xtensa_steady 3 (asm_xtensa_mov_reg_i32 r i;; mret tt).
Proof using HN. split; [apply xtensa_grows_mov_reg_i32|apply xtensa_twin_mov_reg_i32]. Qed.
Hint Resolve xtensa_steady_mov_reg_i32 : steady.

Lemma xtensa_steady_i32_optimised r i : xtensa_steady 3 (asm_xtensa_mov_reg_i32_optimised r i).
Proof using HN. 
  unfold asm_xtensa_mov_reg_i32_optimised. destruct (_ && _); [xtensa_op|].
  destruct (SIGNED_FIT12 i); [xtensa_op|]. apply xtensa_steady_mov_reg_i32.
Qed.
Hint Resolve xtensa_steady_i32_optimised : steady.

(** ** Memory and calls *)

Section Memory.
Context `{XtensaConfig} `{PyMisc}.
Lemma xtensa_steady_l32i d b o : xtensa_steady 7 (asm_xtensa_l32i_optimised d b o).
Proof using HN. unfold asm_xtensa_l32i_optimised. xtensa_op. Qed.
Lemma xtensa_steady_load d b o z : xtensa_steady 8 (asm_xtensa_load_reg_reg_offset d b o z).
Proof using HN. unfold asm_xtensa_load_reg_reg_offset. xtensa_op. Qed.
Lemma xtensa_steady_store d b o z : xtensa_steady 8 (asm_xtensa_store_reg_reg_offset d b o z).
Proof using HN. unfold asm_xtensa_store_reg_reg_offset. xtensa_op. Qed.
End Memory.
Hint Resolve xtensa_steady_l32i xtensa_steady_load xtensa_steady_store : steady.

(** ** Jumps and branches *)

Lemma xtensa_steady_j_label l : xtensa_steady 3 (asm_xtensa_j_label l).
Proof using.
  unfold asm_xtensa_j_label, get_label_dest. cbv zeta. label_tac; [intros d o; xtensa_op|].
  intros o y Ho Hy. autounfold with xtensa_instrs. paired_op_tac xtensa_fields.
Qed.

(** The displacement of a label behind, or ahead by no less than the code. *)
Definition branch_rel (d o : Z) : Z := s32 (d - o - 4).
Definition branch_is_short (fits : Z -> bool) (d o : Z) : bool :=
  negb (d =? u32 (-1)) && (branch_rel d o <? 0) && fits (branch_rel d o).

(** Both branches: the word of the short one if it can be, else that of the
    inverted one, over a jump. *)
Definition branch_label (fits : Z -> bool) (w : string) (short : Z -> Z)
    (inverted l : Z) : M asm_xtensa_t unit :=
  '(can_emit_short_jump, rel) ← calculate_branch_displacement l;
  if can_emit_short_jump && fits rel then asm_xtensa_op24 (short rel)
  else
    pass ← gets (fun s => pass (base s));
    (if (pass =? MP_ASM_PASS_EMIT) && negb (SIGNED_FIT18 (s32 (rel - 6))) then raise w else mret tt);;
    asm_xtensa_op24 inverted;;
    asm_xtensa_op_j (s32 (rel - 3)).

Lemma xtensa_branch_label_eq {A} l (k : bool * Z -> M asm_xtensa_t A) s :
  (calculate_branch_displacement l ≫= k) s =
  (d ← on_base (label_dest l); o ← gets (fun s => code_offset (base_of s));
   k (negb (d =? u32 (-1)) && (branch_rel d o <? 0), branch_rel d o)) s.
Proof using.
  unfold calculate_branch_displacement, get_label_dest, mbind, M_bind.
  by destruct (on_base (label_dest l) s) as [[d s1]|].
Qed.

Lemma xtensa_signed_fit18 x : SIGNED_FIT18 x = (- 2 ^ 17 <=? s32 x) && (s32 x <? 2 ^ 17).
Proof using. apply (fit_signed 32 17); lia. Qed.
(** No label is out of the range of the jump. *)
Lemma xtensa_branch_in_range d o : 0 <= o <= xtensa_limit -> d = unassigned \/ 0 <= d <= xtensa_limit ->
  SIGNED_FIT18 (s32 (branch_rel d o - 6)) = true.
Proof using.
  unfold xtensa_limit, branch_rel. intros Ho Hd. rewrite xtensa_signed_fit18.
  assert (exists x, s32 (d - o - 4) = x /\ -131072 <= x - 6 < 131072) as (x & -> & Hx).
  { destruct Hd as [-> | Hd].
    - exists (-1 - o - 4). split; [|lia]. replace (unassigned - o - 4) with (unassigned - o + (-4)) by lia.
      apply s32_unassigned; simpl; lia.
    - exists (d - o - 4). split; [|lia]. apply sw_small; [done|]. simpl. lia. }
  rewrite !(sw_small 32 eq_refl (x - 6)) by (simpl; lia). apply andb_true_intro.
  split; [apply leb_true|apply ltb_true]; lia.
Qed.

Lemma xtensa_branch_code_writes fits w short inverted l s d :
  l < max_num_labels (base s) -> label_offsets (base s) !! Z.to_nat l = Some d ->
  (pass (base s) = MP_ASM_PASS_EMIT ->
    0 <= code_offset (base s) <= xtensa_limit /\ (d = unassigned \/ 0 <= d <= xtensa_limit)) ->
  exists bs, length bs = (if branch_is_short fits d (code_offset (base s)) then 3%nat else 6%nat)
    /\ writes s (branch_label fits w short inverted l) bs.
Proof using.
  intros Hl Hd Hemit. set (rel := branch_rel d (code_offset (base s))).
  assert (forall k : bool * Z -> M asm_xtensa_t unit, (calculate_branch_displacement l ≫= k) s
    = k (negb (d =? u32 (-1)) && (rel <? 0), rel) s) as Ek.
  { intros k. rewrite xtensa_branch_label_eq.
    assert (on_base (label_dest l) s = Ok (d, s)) as E by by apply on_base_pure, label_dest_ok.
    by rewrite (bind_Ok _ _ _ _ _ E). }
  unfold branch_is_short. fold rel. unfold writes, branch_label. rewrite Ek.
  destruct (_ && fits rel).
  { destruct (xtensa_emits_op24 (short rel) s) as (Hb & Em & _).
    eexists. split; [|split; [exact Hb|exact Em]]. done. }
  destruct (emits_seq s _ _ _ _ (xtensa_emits_op24 inverted s)
    (xtensa_emits_op24 (ASM_XTENSA_ENCODE_CALL 6 0 (s32 (rel - 3) .& 0x3ffff)) _)) as (Hb & Em & _).
  eexists. split; [|split; [exact Hb|]]; [done|]. intros Hr. rewrite gets_bind.
  destruct (Z.eqb_spec (pass (base s)) MP_ASM_PASS_EMIT) as [Hp|Hp]; cbn [andb]; [|by apply Em].
  destruct (Hemit Hp) as [Ho Hdr].
  assert (SIGNED_FIT18 (s32 (rel - 6)) = true) as -> by by apply xtensa_branch_in_range. by apply Em.
Qed.

Lemma xtensa_steady_branch fits w short inverted l : xtensa_steady 6 (branch_label fits w short inverted l).
Proof using.
  apply (steady_label_writes _ xtensa_limit_ok xtensa_agree xtensa_agree_base 6 6 l _
    (fun d o => if branch_is_short fits d o then 3%nat else 6%nat)); [done|..].
  - intros s [[] s'] E. unfold branch_label in E. rewrite xtensa_branch_label_eq in E.
    apply bind_inv in E as (d & s1 & (b & (_ & Hmax & Hd)%label_dest_inv & _)%on_base_ok & _). by rewrite Hd.
  - intros s d Hwf. apply xtensa_branch_code_writes.
  - intros d o. by destruct (branch_is_short _ _ _).
  - done.
  - intros o y Ho Hy. unfold branch_is_short, branch_rel, xtensa_limit in *.
    rewrite (sw_small 32 eq_refl (y - o - 4)) by (simpl; lia).
    rewrite (proj2 (Z.ltb_ge (y - o - 4) 0)) by lia. by rewrite andb_false_r.
Qed.
Lemma xtensa_steady_bccz c r l : xtensa_steady 6 (asm_xtensa_bccz_reg_label c r l).
Proof using.
  exact (xtensa_steady_branch SIGNED_FIT12 _
    (fun rel => ASM_XTENSA_ENCODE_BRI12 6 r c 1 (rel .& 0xfff))
    (ASM_XTENSA_ENCODE_BRI12 6 r (c .^ 1) 1 ((6 - 4) .& 0xfff)) l).
Qed.
Lemma xtensa_steady_bcc c r1 r2 l : xtensa_steady 6 (asm_xtensa_bcc_reg_reg_label c r1 r2 l).
Proof using.
  exact (xtensa_steady_branch SIGNED_FIT8 _
    (fun rel => ASM_XTENSA_ENCODE_RRI8 7 c r1 r2 (rel .& 0xff))
    (ASM_XTENSA_ENCODE_RRI8 7 (c .^ 8) r1 r2 ((6 - 4) .& 0xff)) l).
Qed.
Hint Resolve xtensa_steady_j_label xtensa_steady_bccz xtensa_steady_bcc : steady.

Lemma xtensa_steady_pcrel r l : xtensa_steady 11 (asm_xtensa_mov_reg_pcrel r l).
Proof using.
  unfold asm_xtensa_mov_reg_pcrel, get_label_dest. cbv zeta. autounfold with xtensa_instrs.
  set (rest := fun co => asm_xtensa_op24 (ASM_XTENSA_ENCODE_CALL 5 0 ((co >> 1 .& 1) .& 0x3ffff));;
    cur_to_write_bytes (u32 (5 - co) .& 3);;
    asm_xtensa_op16 (ASM_XTENSA_ENCODE_RRRN 10 r r ASM_XTENSA_REG_A0)).
  assert (forall co, xtensa_steady 8 (rest co)) as Hrest.
  { intros co. unfold rest. eapply (steady_then _ _ 3); [auto with steady nocore|lia|intros _].
    pose proof (Z.land_ones (u32 (5 - co)) 2 ltac:(done)) as Ep. change (Z.ones 2) with 3 in Ep.
    pose proof (Z.mod_pos_bound (u32 (5 - co)) (2 ^ 2) eq_refl).
    apply steady_skip; [done|apply xtensa_agree_base|lia|]. xtensa_op. }
  label_tac.
  - intros d o. eapply (steady_then _ _ 3); [auto with steady nocore|lia|intros _].
    pose proof (steady_offset xtensa_limit xtensa_agree 8 rest) as R. apply R; [intros co _; apply Hrest|done].
  - intros o y Ho Hy. eapply (paired_then _ _ 3); [auto with steady nocore|lia|intros _].
    pose proof (steady_offset xtensa_limit xtensa_agree 8 rest) as R. apply R; [intros co _; apply Hrest|done].
Qed.
Lemma xtensa_steady_setcc c d r1 r2 : xtensa_steady 7 (asm_xtensa_setcc_reg_reg_reg c d r1 r2).
Proof using. unfold asm_xtensa_setcc_reg_reg_reg. xtensa_op. Qed.
Hint Resolve xtensa_steady_pcrel xtensa_steady_setcc : steady.

(** ** Exit *)

Lemma xtensa_steady_restore n : xtensa_steady (2 * Z.of_nat n) (restore_loop n).
Proof using.
  induction n as [|n IH]; [apply steady_ret|]. cbn [restore_loop].
  eapply (steady_then _ _ 2); [autounfold with xtensa_instrs; auto with steady nocore|lia|intros _].
  by replace (2 * Z.of_nat (S n) - 2) with (2 * Z.of_nat n) by lia.
Qed.
Lemma xtensa_steady_save n : forall i, xtensa_steady (2 * Z.of_nat n) (save_loop n i).
Proof using.
  induction n as [|n IH]; intros i; [apply steady_ret|]. cbn [save_loop].
  eapply (steady_then _ _ 2); [autounfold with xtensa_instrs; auto with steady nocore|lia|intros _].
  by replace (2 * Z.of_nat (S n) - 2) with (2 * Z.of_nat n) by lia.
Qed.
Lemma xtensa_steady_exit : xtensa_steady 17 asm_xtensa_exit.
Proof using.
  unfold asm_xtensa_exit. eapply (steady_then _ _ 8); [apply (xtensa_steady_restore 4)|lia|intros _].
  autounfold with xtensa_instrs. eapply (steady_then _ _ 2); [auto with steady nocore|lia|intros _].
  apply steady_gets; [xtensa_fields|intros s].
  eapply (steady_then _ _ 5); [destruct (SIGNED_FIT8 _); xtensa_op|lia|intros _; xtensa_op].
Qed.
Lemma xtensa_steady_exit_win : xtensa_steady 4 asm_xtensa_exit_win.
Proof using. unfold asm_xtensa_exit_win. xtensa_op. Qed.
Hint Resolve xtensa_steady_exit xtensa_steady_exit_win : steady.

(** ** Entry *)

(** Where a pass starts: [N] constants are known, and no table. *)
Record xtensa_start (s s' : asm_xtensa_t) : Prop := {
  start_cur : cur_const s = 0;
  start_cur' : cur_const s' = 0;
  start_num : num_const s = N;
  start_num' : num_const s' = N;
  start_none : const_table s = None;
  start_none' : const_table s' = None;
  start_live : suppress (base s') = false;
}.
(** With the table, and before the frame is known. *)
Definition xtensa_jumped (s s' : asm_xtensa_t) : Prop :=
  xtensa_agree (set_stack_adjust 0 s) (set_stack_adjust 0 s').

Lemma xtensa_jump_run s : 0 < N -> num_const s = N -> ready (4 + 4 * N) s ->
  exists bs, Z.of_nat (length bs) = 4 + 4 * N /\ Forall is_byte bs
  /\ jump_over_constants s = Ok (tt, set_const_table
       (if suppress (base s) then None
        else if pass (base s) =? MP_ASM_PASS_EMIT then Some (code_offset (base s) + 4) else None)
       (puts bs s)).
Proof using HN.
  intros HN0 Hn Hr. unfold jump_over_constants. rewrite gets_bind, Hn, ltb_true by done.
  replace (s32 (u32 (N * 4))) with (4 * N).
  2: { rewrite uw_small, sw_small by (unfold xtensa_limit in *; simpl in *; lia). lia. }
  destruct (xtensa_emits_op24 (ASM_XTENSA_ENCODE_CALL 6 0 (s32 (u32 (N * WORD_SIZE + 4 - 4)) .& 0x3ffff)) s)
    as (Hb & E1 & _).
  set (b1 := [_; _; _]) in Hb, E1. pose proof Hr as Hr'.
  replace (4 + 4 * N) with (Z.of_nat (length b1) + (1 + 4 * N)) in Hr' by (subst b1; simpl; lia).
  apply ready_app in Hr' as [Hr1 Hr2]; [|done|lia].
  destruct (reserve_puts 1 (puts b1 s)) as (b2 & Hl2 & Hb2 & E2); [apply Hr2|done|eapply can_put_le; [|apply Hr2]; lia|].
  rewrite <- Hl2 in Hr2. apply ready_app in Hr2 as [_ Hr3]; [|done|lia].
  destruct (reserve_puts (4 * N) (puts b2 (puts b1 s))) as (b3 & Hl3 & Hb3 & E3); [apply Hr3|lia|apply Hr3|].
  exists (b1 ++ b2 ++ b3). rewrite !length_app, !Nat2Z.inj_add, Hl2, Hl3. split; [subst b1; simpl; lia|].
  split; [by apply Forall_app; split; [|apply Forall_app]|].
  unfold asm_xtensa_op_j. rewrite (bind_Ok _ _ _ _ _ (E1 Hr1)), (bind_Ok _ _ _ _ _ E2), (bind_Ok _ _ _ _ _ E3).
  rewrite !puts_app by (apply Hr || apply Hr3). rewrite <- !app_assoc.
  rewrite base_of_puts, put_bytes_suppress, put_bytes_pass, put_bytes_offset.
  change (base_of s) with (base s). destruct (suppress (base s)); [done|].
  rewrite length_app, Nat2Z.inj_add, Hl2. done.
Qed.

(** The entry, of a pass that starts with [N] constants known. *)
Definition guarded_jump : M asm_xtensa_t unit :=
  n ← gets num_const; assert_ (n =? N) "";; jump_over_constants.

Lemma xtensa_guarded_jump_inv s s' : guarded_jump s = Ok (tt, s') -> num_const s = N /\ jump_over_constants s = Ok (tt, s').
Proof using.
  unfold guarded_jump. rewrite gets_bind. destruct (Z.eqb_spec (num_const s) N); [done|].
  intros E. discriminate E.
Qed.
Lemma xtensa_guarded_jump_ok s : num_const s = N -> guarded_jump s = jump_over_constants s.
Proof using. intros Hn. unfold guarded_jump. by rewrite gets_bind, Hn, Z.eqb_refl. Qed.

Lemma xtensa_no_jump s : N = 0 -> num_const s = N -> jump_over_constants s = Ok (tt, s).
Proof using. intros HN0 Hn. unfold jump_over_constants. by rewrite gets_bind, Hn, HN0. Qed.

Lemma xtensa_ready_compute n s : base_wf (base s) -> pass (base s) = MP_ASM_PASS_COMPUTE -> 0 <= n ->
  code_offset (base s) + n <= xtensa_limit -> ready n s.
Proof using.
  intros Hwf Hp Hn Ho. split; [done|right]. change (base_of s) with (base s). rewrite Hp.
  split; [unfold xtensa_limit in *; simpl in *; lia|done].
Qed.

Lemma xtensa_grows_jump : grows xtensa_limit (4 + 4 * N) guarded_jump.
Proof using HN.
  intros s [] s' Hwf Hp Hoff Hcnt [Hn E]%xtensa_guarded_jump_inv. destruct (Z.eq_dec N 0) as [HN0|HN0].
  { rewrite xtensa_no_jump in E by done. injection E as <-. eapply progress_le; [|by apply progress_refl]. lia. }
  destruct (xtensa_jump_run s) as (bs & Hl & Hb & Er); [lia|done|apply xtensa_ready_compute; done || lia|].
  rewrite Er in E. injection E as <-.
  pose proof (puts_progress xtensa_limit xtensa_limit_ok bs s Hwf Hb Hp ltac:(rewrite Hl; done)) as P.
  rewrite Hl in P. by destruct P.
Qed.

Lemma xtensa_twin_jump : twin xtensa_limit xtensa_start xtensa_jumped (4 + 4 * N) eq guarded_jump guarded_jump.
Proof using HN.
  intros T sc se [] sc' Hs Hoff Hcnt [_ E]%xtensa_guarded_jump_inv Hf Hsz Hcap.
  pose proof Hs as []. pose proof sync_fields as [].
  exists tt. destruct (Z.eq_dec N 0) as [HN0|HN0].
  { rewrite xtensa_no_jump in E by done. injection E as <-. exists se. rewrite xtensa_guarded_jump_ok, xtensa_no_jump by done.
    split; [done|]. split; [done|]. split; [|apply kept_refl]. destruct Hs. constructor; try done.
    constructor; simpl; try done; lia. }
  destruct (xtensa_jump_run sc) as (bs & Hl & Hb & Er); [lia|done|apply xtensa_ready_compute; done || lia|].
  rewrite Er in E. injection E as <-.
  assert (Hs' : sync xtensa_limit (fun _ _ => True) T sc se) by by destruct Hs.
  pose proof (puts_sync xtensa_limit xtensa_limit_ok (fun _ _ => True) (fun _ _ _ _ _ => I) T sc se bs) as HP.
  destruct (HP bs Hs' Hb Hb) as (Hput & _); [done|by rewrite Hl|done|done|].
  destruct (xtensa_jump_run se) as (bs' & Hl' & Hb' & Er'); [lia|done|split; [done|by rewrite <- Hl]|].
  destruct (HP bs' Hs' Hb Hb') as (_ & Hs1 & Hk); [lia|by rewrite Hl|done|done|]. clear HP.
  rewrite start_live0, (sync_emit : pass (base se) = _) in Er'.
  replace (_ =? _) with true in Er' by done. cbn iota in Er'.
  eexists. rewrite xtensa_guarded_jump_ok by done. split; [exact Er'|]. split; [done|].
  change (base_of ?s) with (base s) in *.
  assert ((if suppress (base sc) then None else if pass (base sc) =? MP_ASM_PASS_EMIT
    then Some (code_offset (base sc) + 4) else None) = None) as ->.
  { rewrite sync_compute. by destruct (suppress _). }
  destruct Hput as [Hput|[_ Hput]]; [change (suppress (base se) = true) in Hput; congruence|].
  specialize (Hput sync_emit). change (base_of se) with (base se) in Hput. rewrite Hl in Hput.
  pose proof (wf_code_offset _ sync_wf_emit). split.
  - destruct Hs1. constructor; try done.
    + intros p [= <-]. simpl. rewrite start_num'0, put_bytes_size. lia.
    + constructor; simpl; try done; [by rewrite start_cur'0, start_cur0|by rewrite start_cur0].
  - destruct Hk. constructor; try done.
    intros i Hi (p & [= <-] & Hp). change (base_of se) with (base se) in Hi. lia.
Qed.

Lemma xtensa_jumped_modify x : enters xtensa_limit xtensa_jumped xtensa_agree 0 (modify (set_stack_adjust x)).
Proof using. apply enters_modify; [by constructor|]. by intros s s' []. Qed.

Definition guarded (entry : M asm_xtensa_t unit) : M asm_xtensa_t unit :=
  n ← gets num_const; assert_ (n =? N) "";; entry.
Lemma xtensa_guarded_ok entry s : num_const s = N -> guarded entry s = entry s.
Proof using. intros Hn. unfold guarded. by rewrite gets_bind, Hn, Z.eqb_refl. Qed.

Lemma xtensa_enters_guarded n (m entry : M asm_xtensa_t unit) : entry = (jump_over_constants;; m) -> 0 <= n ->
  enters xtensa_limit xtensa_jumped xtensa_agree n m ->
  enters xtensa_limit xtensa_start xtensa_agree (4 + 4 * N + n) (guarded entry).
Proof using HN.
  intros -> Hn Hm.
  assert (forall s, guarded (jump_over_constants;; m) s = (guarded_jump;; m) s) as E.
  { intros s. unfold guarded, guarded_jump. rewrite bind_assoc, !gets_bind, bind_assoc. done. }
  assert (enters xtensa_limit xtensa_start xtensa_agree (4 + 4 * N + n) (guarded_jump;; m)) as [G T].
  { eapply (enters_then _ _ xtensa_jumped _ (4 + 4 * N)); [split; [apply xtensa_grows_jump|apply xtensa_twin_jump]|lia|].
    intros _. by replace (4 + 4 * N + n - (4 + 4 * N)) with n by lia. }
  split; [by eapply grows_ext|by eapply twin_ext].
Qed.

Lemma xtensa_enters_entry n : enters xtensa_limit xtensa_start xtensa_agree (4 + 4 * N + 16) (guarded (asm_xtensa_entry n)).
Proof using HN.
  eapply xtensa_enters_guarded; [reflexivity|lia|].
  eapply (enters_then _ _ xtensa_agree _ 0); [apply xtensa_jumped_modify|lia|intros _]. apply steady_enters.
  autounfold with xtensa_instrs. apply steady_gets; [xtensa_fields|intros s].
  eapply (steady_then _ _ 6); [destruct (SIGNED_FIT8 _); xtensa_op|lia|intros _].
  eapply (steady_then _ _ 2); [auto with steady nocore|lia|intros _]. apply (xtensa_steady_save 4 1).
Qed.
Lemma xtensa_enters_entry_win n : enters xtensa_limit xtensa_start xtensa_agree (4 + 4 * N + 16) (guarded (asm_xtensa_entry_win n)).
Proof using HN.
  eapply xtensa_enters_guarded; [reflexivity|lia|].
  eapply (enters_then _ _ xtensa_agree _ 0); [apply xtensa_jumped_modify|lia|intros _]. apply steady_enters.
  xtensa_op.
Qed.

Section Steady.
Context `{XtensaConfig} `{PyMisc}.
Lemma xtensa_steady_op op : xtensa_op_ok op -> steady_op xtensa_limit xtensa_agree xtensa_exec xtensa_size op.
Proof using HN.
  intros Hok. destruct op; [by apply steady_shared; [apply xtensa_limit_ok|apply xtensa_agree_base|]|..];
    (split; [done|]); cbn [xtensa_exec xtensa_size]; autounfold with xtensa_calls; simpl in Hok.
  all: first [solve [eauto with steady nocore] | xtensa_op].
Qed.
End Steady.
End Xtensa.

(** ** Counting the constants *)

Section Keeps.
Context `{XtensaConfig} `{PyMisc}.
(** A field other than the shared ones. *)
Context {F : Type} (f : asm_xtensa_t -> F) (Hf : forall s b, f (with_base b s) = f s).
Abbreviation keeps := (stays f).

Lemma xtensa_keeps_op16 op : keeps (asm_xtensa_op16 op).
Proof using Hf. unfold asm_xtensa_op16, put_array, cur_to_write_bytes. stays_op. Qed.
Lemma xtensa_keeps_op24 op : keeps (asm_xtensa_op24 op).
Proof using Hf. unfold asm_xtensa_op24, put_array, cur_to_write_bytes. stays_op. Qed.
Hint Resolve xtensa_keeps_op16 xtensa_keeps_op24 : stays.
Ltac keeps_tac := autounfold with xtensa_instrs; stays_op.

Lemma xtensa_keeps_restore n : keeps (restore_loop n).
Proof using Hf. induction n as [|n IH]; cbn [restore_loop]; [apply stays_ret|]. apply stays_bind; [keeps_tac|done]. Qed.
Lemma xtensa_keeps_save n : forall i, keeps (save_loop n i).
Proof using Hf. induction n as [|n IH]; intros i; cbn [save_loop]; [apply stays_ret|]. apply stays_bind; [keeps_tac|done]. Qed.
Lemma xtensa_keeps_label l : keeps (get_label_dest l).
Proof using Hf. unfold get_label_dest. stays_op. Qed.
Hint Resolve xtensa_keeps_restore xtensa_keeps_save xtensa_keeps_label : stays.
Lemma xtensa_keeps_bccz c r l : keeps (asm_xtensa_bccz_reg_label c r l).
Proof using Hf. unfold asm_xtensa_bccz_reg_label, calculate_branch_displacement, raise. keeps_tac. Qed.
Lemma xtensa_keeps_bcc c r1 r2 l : keeps (asm_xtensa_bcc_reg_reg_label c r1 r2 l).
Proof using Hf. unfold asm_xtensa_bcc_reg_reg_label, calculate_branch_displacement, raise. keeps_tac. Qed.
Hint Resolve xtensa_keeps_bccz xtensa_keeps_bcc : stays.

(** The entry, but for its frame and its table. *)
Lemma xtensa_keeps_entry n : (forall s p, f (set_const_table p s) = f s) -> (forall s x, f (set_stack_adjust x s) = f s) ->
  keeps (ASM_ENTRY n).
Proof using Hf.
  intros. unfold ASM_ENTRY, asm_xtensa_entry, asm_xtensa_entry_win, jump_over_constants, cur_to_write_bytes. keeps_tac.
Qed.

(** Operations that take no constant. *)
Definition plain (op : xtensa_op) : bool :=
  match op with
  | MovRegImm _ _ | MovRegI32 _ _ | CallInd _
  | Load8RegRegOffset _ _ _ | Store8RegRegOffset _ _ _ | Load16RegRegOffset _ _ _
  | Store16RegRegOffset _ _ _ | Load32RegRegOffset _ _ _ | LoadRegRegOffset _ _ _
  | Store32RegRegOffset _ _ _ | StoreRegRegOffset _ _ _
  | Load8RegReg _ _ | Store8RegReg _ _ | Load16RegReg _ _ | Store16RegReg _ _
  | Load32RegReg _ _ | Store32RegReg _ _ => false
  | _ => true
  end.
Ltac keeps_op_tac :=
  cbn [xtensa_exec];
  autounfold with xtensa_calls;
  unfold asm_xtensa_exit, asm_xtensa_exit_win, asm_xtensa_j_label, asm_xtensa_mov_reg_pcrel,
    asm_xtensa_setcc_reg_reg_reg, cur_to_write_bytes; keeps_tac.
Lemma xtensa_keeps_plain op : plain op = true -> keeps (xtensa_exec op).
Proof using Hf. intros Hop. destruct op; try discriminate Hop; clear Hop; keeps_op_tac. Qed.

(** Any operation, if a constant does. *)
Lemma xtensa_keeps_op : (forall r i, keeps (asm_xtensa_mov_reg_i32 r i)) -> forall op, keeps (xtensa_exec op).
Proof using Hf.
  intros Hi op. destruct (plain op) eqn:Hop; [by apply xtensa_keeps_plain|].
  destruct op; try discriminate Hop; clear Hop; cbn [xtensa_exec]; autounfold with xtensa_calls;
    unfold asm_xtensa_load_reg_reg_offset, asm_xtensa_store_reg_reg_offset,
      asm_xtensa_l32i_optimised, asm_xtensa_mov_reg_i32_optimised; keeps_tac.
Qed.
End Keeps.

Section Counting.
Context `{XtensaConfig} `{PyMisc}.
Abbreviation keeps := (stays cur_const).
Lemma xtensa_keeps_op16' op : keeps (asm_xtensa_op16 op).
Proof using. by apply xtensa_keeps_op16. Qed.
Lemma xtensa_keeps_op24' op : keeps (asm_xtensa_op24 op).
Proof using. by apply xtensa_keeps_op24. Qed.
Hint Resolve xtensa_keeps_op16' xtensa_keeps_op24' : stays.
Ltac keeps_tac := autounfold with xtensa_instrs; stays_op.

(** From a count of [c], [n] more. *)
Definition counts {A} (n : Z) (m : M asm_xtensa_t A) : Prop := forall s a s',
  0 <= cur_const s < 2 ^ 32 -> m s = Ok (a, s') -> cur_const s' = u32 (cur_const s + n).
Lemma xtensa_counts_keeps {A} (m : M asm_xtensa_t A) : keeps m -> counts 0 m.
Proof using. intros Hm s a s' Hc E. rewrite (Hm _ _ _ E), Z.add_0_r. by rewrite uw_small. Qed.
Lemma xtensa_counts_bind {A B} n1 n2 (m : M asm_xtensa_t A) (k : A -> M asm_xtensa_t B) :
  counts n1 m -> (forall a, counts n2 (k a)) -> counts (n1 + n2) (m ≫= k).
Proof using.
  intros Hm Hk s b s' Hc (a & s1 & E1 & E2)%bind_inv. pose proof (Hm _ _ _ Hc E1) as Hc1.
  rewrite (Hk a _ _ _ ltac:(rewrite Hc1; by apply uw_range) E2), Hc1, uw_add_l by done. f_equal. lia.
Qed.
(** After the constant, if any, nothing more is counted. *)
Lemma xtensa_counts_then {A B} n (m : M asm_xtensa_t A) (k : A -> M asm_xtensa_t B) :
  counts n m -> (forall a, keeps (k a)) -> counts n (m ≫= k).
Proof using.
  intros Hm Hk. replace n with (n + 0) by lia. apply xtensa_counts_bind; [done|]. intros a. by apply xtensa_counts_keeps.
Qed.

Lemma xtensa_counts_i32 r i : counts 1 (asm_xtensa_mov_reg_i32 r i).
Proof using.
  unfold asm_xtensa_mov_reg_i32. intros s a s' Hc. rewrite gets_bind. cbv zeta.
  intros ([] & s1 & E1 & ([] & s2 & E2 & E3)%bind_inv)%bind_inv. injection E3 as _ <-. simpl.
  rewrite <- (xtensa_keeps_op24' _ _ _ _ E1). f_equal. f_equal.
  assert (forall (t : asm_xtensa_t) m, keeps m -> m s1 = Ok (tt, t) -> cur_const t = cur_const s1) as Hk by (intros ? ? Hm; apply Hm).
  eapply Hk; [|exact E2]. stays_op.
Qed.
Lemma xtensa_counts_imm r i : counts (imm_consts i) (asm_xtensa_mov_reg_i32_optimised r i).
Proof using.
  unfold asm_xtensa_mov_reg_i32_optimised, imm_consts. destruct (_ && _); [apply xtensa_counts_keeps; keeps_tac|].
  destruct (SIGNED_FIT12 i); [apply xtensa_counts_keeps; keeps_tac|]. apply xtensa_counts_then; [apply xtensa_counts_i32|intros; stays_op].
Qed.
Lemma xtensa_counts_load d b o z : counts (offset_consts o z) (asm_xtensa_load_reg_reg_offset d b o z).
Proof using.
  unfold asm_xtensa_load_reg_reg_offset, offset_consts. apply (xtensa_counts_bind 0); [apply xtensa_counts_keeps, stays_assert|intros _].
  destruct (_ && _); [apply xtensa_counts_keeps; keeps_tac|]. destruct (MP_FIT_UNSIGNED 8 o); [apply xtensa_counts_keeps; keeps_tac|].
  apply xtensa_counts_then; [apply xtensa_counts_imm|intros; keeps_tac].
Qed.
Lemma xtensa_counts_store d b o z : counts (offset_consts o z) (asm_xtensa_store_reg_reg_offset d b o z).
Proof using.
  unfold asm_xtensa_store_reg_reg_offset, offset_consts. apply (xtensa_counts_bind 0); [apply xtensa_counts_keeps, stays_assert|intros _].
  destruct (_ && _); [apply xtensa_counts_keeps; keeps_tac|]. destruct (MP_FIT_UNSIGNED 8 o); [apply xtensa_counts_keeps; keeps_tac|].
  apply xtensa_counts_then; [apply xtensa_counts_imm|intros; keeps_tac].
Qed.
Lemma xtensa_counts_index d b o : counts (index_consts o) (asm_xtensa_l32i_optimised d b o).
Proof using.
  unfold asm_xtensa_l32i_optimised, index_consts.
  destruct (o <? 16); [apply xtensa_counts_keeps; keeps_tac|]. destruct (o <? 256); [apply xtensa_counts_keeps; keeps_tac|].
  apply xtensa_counts_then; [apply xtensa_counts_imm|intros; keeps_tac].
Qed.

Lemma xtensa_counts_op op : counts (xtensa_consts op) (xtensa_exec op).
Proof using.
  destruct (plain op) eqn:Hop.
  { replace (xtensa_consts op) with 0 by (destruct op; done || discriminate Hop).
    by apply xtensa_counts_keeps, xtensa_keeps_plain. }
  destruct op; try discriminate Hop; clear Hop; cbn [xtensa_exec xtensa_consts]; autounfold with xtensa_calls.
  all: lazymatch goal with
    | |- counts _ (asm_xtensa_load_reg_reg_offset _ _ _ _) => apply xtensa_counts_load
    | |- counts _ (asm_xtensa_store_reg_reg_offset _ _ _ _) => apply xtensa_counts_store
    | |- counts _ (asm_xtensa_mov_reg_i32_optimised _ _) => apply xtensa_counts_imm
    | |- counts _ (asm_xtensa_mov_reg_i32 _ _ ≫= _) => apply xtensa_counts_then; [apply xtensa_counts_i32|intros; stays_op]
    | |- counts _ (if ?c then _ else _) =>
        destruct c; (apply xtensa_counts_then; [apply xtensa_counts_index|intros; keeps_tac])
    end.
Qed.
Lemma xtensa_counts_seq ops : counts (total xtensa_consts ops) (seq_ops xtensa_exec ops).
Proof using.
  induction ops as [|op ops IH]; cbn [seq_ops total]; [apply xtensa_counts_keeps, stays_ret|].
  apply xtensa_counts_bind; [apply xtensa_counts_op|done].
Qed.
Lemma xtensa_counts_function n ops : counts (total xtensa_consts ops) (xtensa_function n ops).
Proof using.
  apply (xtensa_counts_bind 0); [by apply xtensa_counts_keeps, xtensa_keeps_entry|]. intros _. apply xtensa_counts_seq.
Qed.
End Counting.

(** ** Before the emit pass there is no table *)

Section NoTable.
Context `{XtensaConfig} `{PyMisc}.

Lemma xtensa_reserve_compute n s c s' : pass (base s) = MP_ASM_PASS_COMPUTE ->
  cur_to_write_bytes n s = Ok (c, s') ->
  c = None /\ pass (base s') = MP_ASM_PASS_COMPUTE /\ const_table s' = const_table s.
Proof using.
  intros Hp (b & E & ->)%on_base_ok. revert E. unfold mp_asm_base_get_cur_to_write_bytes. run_cmd. unfold id.
  change (base_of s) with (base s). rewrite Hp. destruct (suppress (base s)); intros [= <- <-]; done.
Qed.
Lemma xtensa_op24_compute op s s' : pass (base s) = MP_ASM_PASS_COMPUTE -> asm_xtensa_op24 op s = Ok (tt, s') ->
  pass (base s') = MP_ASM_PASS_COMPUTE /\ const_table s' = const_table s.
Proof using.
  intros Hp (c & s1 & E1 & E2)%bind_inv. apply xtensa_reserve_compute in E1 as (-> & Hp1 & Ht); [|done].
  by injection E2 as <-.
Qed.
Lemma xtensa_jump_compute s s' : pass (base s) = MP_ASM_PASS_COMPUTE -> const_table s = None ->
  jump_over_constants s = Ok (tt, s') -> const_table s' = None.
Proof using.
  intros Hp Ht. unfold jump_over_constants. rewrite gets_bind. destruct (0 <? num_const s); [|by intros [= <-]].
  intros ([] & s1 & E1 & (c & s2 & E2 & (c' & s3 & E3 & [= <-])%bind_inv)%bind_inv)%bind_inv.
  apply xtensa_op24_compute in E1 as [Hp1 Ht1]; [|done]. apply xtensa_reserve_compute in E2 as (_ & Hp2 & _); [|done].
  by apply xtensa_reserve_compute in E3 as (-> & _ & _).
Qed.

Lemma xtensa_table_save n i : stays const_table (save_loop n i).
Proof using. by apply xtensa_keeps_save. Qed.
Hint Resolve xtensa_table_save : stays.
Lemma xtensa_function_compute `{!PlatAllocExec} n ops s s' : const_table s = None ->
  run_pass MP_ASM_PASS_COMPUTE (xtensa_function n ops) s = Ok (tt, s') -> const_table s' = None.
Proof using.
  intros Ht. rewrite run_pass_start by done. intros ([] & s1 & E1 & E2)%bind_inv.
  assert (keeps_ops : stays const_table (seq_ops xtensa_exec ops)).
  { clear. induction ops as [|op ops IH]; cbn [seq_ops]; [apply stays_ret|].
    apply stays_bind; [|done]. apply xtensa_keeps_op; [done|]. intros r i.
    unfold asm_xtensa_mov_reg_i32, asm_xtensa_op_l32r, asm_xtensa_op24, put_array, cur_to_write_bytes. stays_op. }
  rewrite (keeps_ops _ _ _ E2).
  assert (exists m : M asm_xtensa_t unit, ASM_ENTRY n = (jump_over_constants;; m) /\ stays const_table m) as (m & Em & Hm).
  { unfold ASM_ENTRY, asm_xtensa_entry, asm_xtensa_entry_win.
    destruct GENERIC_ASM_API_WIN; (eexists; split; [reflexivity|]);
      autounfold with xtensa_instrs; unfold asm_xtensa_op24, asm_xtensa_op16, put_array, cur_to_write_bytes; stays_op. }
  rewrite Em in E1. apply bind_inv in E1 as ([] & s2 & E3 & E4). rewrite (Hm _ _ _ E4).
  by eapply xtensa_jump_compute; [| |exact E3].
Qed.
End NoTable.

Section Passes.
Context `{XtensaConfig} `{PyMisc} `{!PlatAllocExec}.

(** A pass of the code generator: the function, then [ASM_END_PASS]. *)
Definition xtensa_pass (p locals : Z) (ops : list xtensa_op) : M asm_xtensa_t unit :=
  run_pass p (xtensa_function locals ops;; ASM_END_PASS).
Lemma xtensa_pass_eq p locals ops s s1 : run_pass p (xtensa_function locals ops) s = Ok (tt, s1) ->
  xtensa_pass p locals ops s = Ok (tt, set_consts 0 (cur_const s1) s1).
Proof using.
  unfold xtensa_pass, run_pass. rewrite <- bind_assoc. intros E. by rewrite (bind_Ok _ _ _ _ _ E).
Qed.
Lemma xtensa_pass_inv p locals ops s s' : xtensa_pass p locals ops s = Ok (tt, s') ->
  exists s1, run_pass p (xtensa_function locals ops) s = Ok (tt, s1) /\ s' = set_consts 0 (cur_const s1) s1.
Proof using.
  unfold xtensa_pass, run_pass. rewrite <- bind_assoc. intros ([] & s1 & E1 & [= <-])%bind_inv. by exists s1.
Qed.

(** The guard in front of the entry holds. *)
Definition guarded_function (N locals : Z) (ops : list xtensa_op) : M asm_xtensa_t unit :=
  guarded N (ASM_ENTRY locals);; seq_ops xtensa_exec ops.
Lemma xtensa_guarded_function_ok N p locals ops s : num_const s = N -> 0 <= p <= MP_ASM_PASS_EMIT ->
  run_pass p (guarded_function N locals ops) s = run_pass p (xtensa_function locals ops) s.
Proof using.
  intros Hn Hp. rewrite !run_pass_start by done. unfold guarded_function, xtensa_function, mbind at 1 2, M_bind.
  by rewrite xtensa_guarded_ok by done.
Qed.

Lemma xtensa_imm_consts_range i : 0 <= imm_consts i <= 1.
Proof using. unfold imm_consts. by repeat case_match. Qed.
Lemma xtensa_consts_nonneg ops : 0 <= total xtensa_consts ops.
Proof using.
  induction ops as [|op ops IH]; cbn [total]; [done|]. enough (0 <= xtensa_consts op) by lia.
  destruct op; cbn [xtensa_consts]; unfold offset_consts, index_consts; repeat case_match; try done;
    apply xtensa_imm_consts_range.
Qed.

Lemma xtensa_enters_ASM_ENTRY N locals : 0 <= N /\ 4 * N <= xtensa_limit ->
  enters xtensa_limit (xtensa_start N) (xtensa_agree N) (4 + 4 * N + 16) (guarded N (ASM_ENTRY locals)).
Proof using.
  intros HN. unfold ASM_ENTRY. destruct GENERIC_ASM_API_WIN; [by apply xtensa_enters_entry_win|by apply xtensa_enters_entry].
Qed.

Lemma xtensa_function_counts p locals ops s s' : 0 <= p <= MP_ASM_PASS_EMIT -> cur_const s = 0 ->
  4 * total xtensa_consts ops <= xtensa_limit ->
  run_pass p (xtensa_function locals ops) s = Ok (tt, s') -> cur_const s' = total xtensa_consts ops.
Proof using.
  intros Hp Hc HN E. rewrite run_pass_start in E by done. apply xtensa_counts_function in E; simpl in *; rewrite ?Hc in *; [|done].
  rewrite E, uw_small; [done|]. pose proof (xtensa_consts_nonneg ops). unfold xtensa_limit in *. simpl in *. lia.
Qed.

Lemma xtensa_function_wf locals ops s s' : xtensa_function_ok ops -> base_wf (base s) -> cur_const s = 0 ->
  num_const s = 0 -> run_pass MP_ASM_PASS_COMPUTE (xtensa_function locals ops) s = Ok (tt, s') ->
  base_wf (base s').
Proof using.
  intros [Hops Hsz] Hwf Hc Hn E. pose proof (xtensa_consts_nonneg ops).
  rewrite <- (xtensa_guarded_function_ok 0) in E by done.
  pose proof (program_wf xtensa_limit (xtensa_agree 0) xtensa_exec xtensa_size 20
    (guarded 0 (ASM_ENTRY locals)) ops s s') as R. apply R; try done.
  - by apply (xtensa_enters_ASM_ENTRY 0).
  - eapply Forall_impl; [exact Hops|]. by apply xtensa_steady_op.
  - lia.
  - simpl. by rewrite Hc.
Qed.
End Passes.

(** C8: the Xtensa passes agree.  The first pass counts the constants that go
    into the table, the second lays the code out behind a table of that size,
    and the emit pass then succeeds: no assertion fails, no branch is out of
    range, and every constant finds its entry.  It ends at the offset and with
    the labels of the second pass, and with as many constants.  The code is
    within the reach of a jump. *)
Theorem xtensa_passes_agree `{XtensaConfig} `{PyMisc} `{!PlatAllocExec} locals ops s s0 s1 :
  xtensa_function_ok ops -> base_wf (base s) ->
  cur_const s = 0 -> num_const s = 0 -> const_table s = None ->
  xtensa_pass MP_ASM_PASS_COMPUTE locals ops s = Ok (tt, s0) ->
  xtensa_pass MP_ASM_PASS_COMPUTE locals ops s0 = Ok (tt, s1) ->
  exists s2, xtensa_pass MP_ASM_PASS_EMIT locals ops s1 = Ok (tt, s2)
    /\ code_offset (base s2) = code_offset (base s1)
    /\ label_offsets (base s2) = label_offsets (base s1)
    /\ code_offset (base s2) <= code_size (base s2)
    /\ num_const s2 = num_const s1 /\ num_const s1 = total xtensa_consts ops.
Proof.
  intros Hok Hwf Hc Hn Ht E0 E1. pose proof Hok as [Hops Hsz]. pose proof (xtensa_consts_nonneg ops) as HN0.
  set (N := total xtensa_consts ops) in *.
  assert (HN : 0 <= N /\ 4 * N <= xtensa_limit).
  { pose proof (total_nonneg xtensa_limit (xtensa_agree 0) xtensa_exec xtensa_size ops) as Hnn.
    assert (0 <= total xtensa_size ops); [|lia]. apply Hnn.
    eapply Forall_impl; [exact Hops|]. by apply xtensa_steady_op. }
  apply xtensa_pass_inv in E0 as (t0 & E0 & ->). apply xtensa_pass_inv in E1 as (t1 & E1 & ->).
  pose proof (xtensa_function_counts MP_ASM_PASS_COMPUTE _ _ _ _ ltac:(done) Hc ltac:(apply HN) E0) as Hc0.
  pose proof (xtensa_function_counts MP_ASM_PASS_COMPUTE _ _ (set_consts 0 (cur_const t0) t0) _ ltac:(done) eq_refl
    ltac:(apply HN) E1) as Hc1.
  pose proof (xtensa_function_wf _ _ _ _ Hok Hwf Hc Hn E0) as Hw0.
  pose proof (xtensa_function_compute _ _ _ _ Ht E0) as Ht0.
  pose proof (xtensa_function_compute _ _ (set_consts 0 (cur_const t0) t0) _ Ht0 E1) as Ht1.
  rewrite <- (xtensa_guarded_function_ok N) in E1 by done.
  destruct (program_agrees xtensa_limit (xtensa_agree N) xtensa_exec xtensa_size (xtensa_start N) (4 + 4 * N + 16)
    (guarded N (ASM_ENTRY locals)) ops (set_consts 0 (cur_const t0) t0) t1 (set_consts 0 (cur_const t1) t1))
    as (s2 & E2 & Ho & Hl & Ha & Hcs & _); try done.
  - lia.
  - by apply xtensa_enters_ASM_ENTRY.
  - by apply xtensa_enters_ASM_ENTRY.
  - eapply Forall_impl; [exact Hops|]. by apply xtensa_steady_op.
  - lia.
  - constructor; simpl; try done.
    + change (u32 (cur_const t1) <= cur_const t1). rewrite Hc1.
      rewrite uw_small by (unfold xtensa_limit in *; simpl in *; lia). lia.
    + intros p Hp. simpl in Hp. congruence.
  - pose proof (xtensa_guarded_function_ok N MP_ASM_PASS_EMIT locals ops (set_consts 0 (cur_const t1) t1) Hc1 ltac:(done)) as Eg.
    unfold guarded_function in Eg. rewrite Eg in E2.
    exists (set_consts 0 (cur_const s2) s2). split; [by apply xtensa_pass_eq|].
    split; [done|]. split; [done|]. split; [done|]. simpl. split; [apply Ha|done].
Qed.

Definition xtensa_call0 : XtensaConfig := {| N_XTENSAWIN := false; GENERIC_ASM_API_WIN := false |}.
Definition xtensa_example : list xtensa_op :=
  [Jump 1; Shared (Label 0); MovRegImm ASM_XTENSA_REG_A3 0x12345678; CallInd 30; Shared (Label 1);
   JumpIfRegNonzero ASM_XTENSA_REG_A2 0 true; MovRegPcrel ASM_XTENSA_REG_A2 2;
   MovRegImm ASM_XTENSA_REG_A3 100000; Exit; Shared (Label 2); Shared (Data 4 42)].

Lemma xtensa_passes_agree_witness : exists s1 s2,
  xtensa_pass (H := xtensa_call0) (H0 := py_misc) (H1 := example_alloc_32)
    MP_ASM_PASS_EMIT 5 xtensa_example s1 = Ok (tt, s2)
  /\ code_offset (base s2) = 72 /\ num_const s2 = 2.
Proof.
  destruct (xtensa_passes_agree (H := xtensa_call0) (H0 := py_misc) (H1 := example_alloc_32) 5 xtensa_example
    (mk_asm_xtensa (fresh 3) 0 0 None 0)
    (mk_asm_xtensa (mk_asm_base MP_ASM_PASS_COMPUTE false 60 0 0 [] 3 [16; 25; 56]) 0 2 None 48)
    (mk_asm_xtensa (mk_asm_base MP_ASM_PASS_COMPUTE false 72 0 0 [] 3 [28; 37; 68]) 0 2 None 48))
    as (s2 & E & Ho & _ & _ & Hn & _).
  - split; [repeat (apply List.Forall_cons; [simpl; first [done|lia]|]); apply List.Forall_nil|by vm_compute].
  - apply fresh_wf.
  - done.
  - done.
  - done.
  - vm_compute. reflexivity.
  - vm_compute. reflexivity.
  - eexists _, s2. split; [exact E|]. split; [exact Ho|exact Hn].
Defined.
