(* ===== verification/XtensaIsa.v ===== *)
(** * XtensaIsa: the instruction set asmxtensa targets

    The Xtensa instructions that the back end emits, with their decoder.  The
    encodings and effects follow translate.c in bank/DECAF-QEMU/target-xtensa,
    whose decoder is in one place; what the back end does not emit is not
    decoded ([None]).  The register file is unbounded, so that a call never
    spills a window and a return never reloads one: what the overflow and
    underflow handlers do below the stack pointers of the callers is left out,
    and so are the alignment checks of loads and stores. *)

From S2P Require Import Prelude Machine.

Set Default Goal Selector "!".

Inductive binop := ADD | ADDX2 | ADDX4 | SUB | AND | OR | XOR | MULL.
(** The width of an access, in bytes. *)
Inductive size := Byte | Half | Word.
(** Comparisons of a register with zero and of two registers; [BC] takes a bit
    of the first, whose number is the second. *)
Inductive zero_test := EQZ | NEZ | LTZ | GEZ.
Inductive test := NONE | EQ | LT | LTU | ALL | BC.

(** Displacements are in bytes. *)
Inductive xtensa_instr :=
| RRR (op : binop) (r s t : Z)
| NEG (r t : Z)
| ADDI (t s imm : Z)
| MOV (t s : Z)
| MOVI (t imm : Z)
| SSL (s : Z)
| SSR (s : Z)
| SLL (r s : Z)
| SRL (r t : Z)
| SRA (r t : Z)
| L32R (t off : Z)
| LOAD (sz : size) (t s off : Z)
| STORE (sz : size) (t s off : Z)
| BZ (c : zero_test) (s off : Z)
| B (neg : bool) (c : test) (s t off : Z)
| BBI (neg : bool) (s bit off : Z)
| J (off : Z)
| JX (s : Z)
| CALL0 (off : Z)
| CALLX0 (s : Z)
| CALLX8 (s : Z)
| RET
| RETW
| ENTRY (s imm : Z).

(** ** Decoding *)

Section Decode.
Context (w : Z).
Abbreviation t := (bits w 4 4).
Abbreviation s := (bits w 8 4).
Abbreviation r := (bits w 12 4).
Abbreviation op1 := (bits w 16 4).
Abbreviation op2 := (bits w 20 4).
Abbreviation n := (bits w 4 2).
Abbreviation m := (bits w 6 2).
Abbreviation imm8 := (bits w 16 8).
Abbreviation imm12 := (bits w 12 12).
Abbreviation offset18 := (sw 18 (bits w 6 18)).

Definition decode_jump_register : option xtensa_instr :=
  if r =? 0 then
    match m, n with
    | 2, 2 => Some (JX s) | 3, 0 => Some (CALLX0 s) | 3, 2 => Some (CALLX8 s)
    | _, _ => None
    end
  else None.
Definition decode_rst0 : option xtensa_instr :=
  match op2 with
  | 0 => decode_jump_register
  | 1 => Some (RRR AND r s t) | 2 => Some (RRR OR r s t) | 3 => Some (RRR XOR r s t)
  | 4 =>
      if t =? 0 then match r with 0 => Some (SSR s) | 1 => Some (SSL s) | _ => None end
      else None
  | 6 => if s =? 0 then Some (NEG r t) else None
  | 8 => Some (RRR ADD r s t) | 9 => Some (RRR ADDX2 r s t) | 10 => Some (RRR ADDX4 r s t)
  | 12 => Some (RRR SUB r s t)
  | _ => None
  end.
Definition decode_rst1 : option xtensa_instr :=
  match op2 with
  | 9 => if s =? 0 then Some (SRL r t) else None
  | 10 => if t =? 0 then Some (SLL r s) else None
  | 11 => if s =? 0 then Some (SRA r t) else None
  | _ => None
  end.
Definition decode_qrst : option xtensa_instr :=
  match op1 with
  | 0 => decode_rst0
  | 1 => decode_rst1
  | 2 => if op2 =? 8 then Some (RRR MULL r s t) else None
  | _ => None
  end.
Definition decode_lsai : option xtensa_instr :=
  match r with
  | 0 => Some (LOAD Byte t s imm8) | 1 => Some (LOAD Half t s (2 * imm8))
  | 2 => Some (LOAD Word t s (4 * imm8))
  | 4 => Some (STORE Byte t s imm8) | 5 => Some (STORE Half t s (2 * imm8))
  | 6 => Some (STORE Word t s (4 * imm8))
  | 10 => Some (MOVI t (sw 12 (s << 8 .| imm8)))
  | 12 => Some (ADDI t s (sw 8 imm8))
  | _ => None
  end.
Definition zero_test_of (c : Z) : zero_test :=
  match c with 0 => EQZ | 1 => NEZ | 2 => LTZ | _ => GEZ end.
Definition decode_si : option xtensa_instr :=
  match n with
  | 0 => Some (J offset18)
  | 1 => Some (BZ (zero_test_of m) s (sw 12 imm12))
  | 3 => if m =? 0 then Some (ENTRY s (8 * imm12)) else None
  | _ => None
  end.
Definition test_of (c : Z) : option test :=
  match c with
  | 0 => Some NONE | 1 => Some EQ | 2 => Some LT | 3 => Some LTU | 4 => Some ALL | 5 => Some BC
  | _ => None
  end.
(** Bit 3 of [r] negates the condition. *)
Definition decode_b : xtensa_instr :=
  let neg := bits w 15 1 =? 1 in
  match test_of (bits w 12 3) with
  | Some c => B neg c s t (sw 8 imm8)
  | None => BBI neg s (bits w 12 1 << 4 .| t) (sw 8 imm8)
  end.
Definition decode24 : option xtensa_instr :=
  match bits w 0 4 with
  | 0 => decode_qrst
  | 1 => Some (L32R t (4 * (bits w 8 16 - 2 ^ 16)))
  | 2 => decode_lsai
  | 5 => if n =? 0 then Some (CALL0 (4 * offset18)) else None
  | 6 => decode_si
  | 7 => Some decode_b
  | _ => None
  end.

Definition decode_st3 : option xtensa_instr :=
  match r with
  | 0 => Some (MOV t s)
  | 15 => match t with 0 => Some RET | 1 => Some RETW | _ => None end
  | _ => None
  end.
Definition decode16 : option xtensa_instr :=
  match bits w 0 4 with
  | 8 => Some (LOAD Word t s (4 * r)) | 9 => Some (STORE Word t s (4 * r))
  | 10 => Some (RRR ADD r s t)
  | 12 =>
      if bits w 7 1 =? 0 then
        let imm7 := bits w 4 3 << 4 .| r in
        Some (MOVI s (if bits w 5 2 =? 3 then imm7 - 2 ^ 7 else imm7))
      else None
  | 13 => decode_st3
  | _ => None
  end.
End Decode.

(** Bit 3 of the first byte is set for instructions of two bytes. *)
Definition xtensa_decode (bs : list Z) : option (xtensa_instr * Z) :=
  match bs with
  | b0 :: b1 :: bs =>
      if bits b0 3 1 =? 1 then (fun i => (i, 2)) <$> decode16 (le_word [b0; b1])
      else
        match bs with
        | b2 :: _ => (fun i => (i, 3)) <$> decode24 (le_word [b0; b1; b2])
        | _ => None
        end
  | _ => None
  end.

Lemma xtensa_decode_app bs rest i n : xtensa_decode bs = Some (i, n) -> xtensa_decode (bs ++ rest) = Some (i, n).
Proof.
  destruct bs as [|b0 [|b1 bs]]; [done..|]. simpl. destruct (_ =? 1); [done|].
  by destruct bs as [|b2 bs].
Qed.

(** ** Execution *)

(** The shift amount, the window base, in steps of four registers, and the
    step of the last call, beside the registers of the file. *)
Definition SAR : Z := 1.
Definition WB : Z := 3.
Definition CALLINC : Z := 5.
(** The register of the file that is [r] in the current window. *)
Definition file (k : Z) : Z := 2 * k.
Definition at_window (wb r : Z) : Z := file (4 * wb + r).
Definition phys (r : Z) (m : machine) : Z := at_window (reg WB m) r.
Definition ar (r : Z) (m : machine) : Z := u32 (reg (phys r m) m).
Definition set_ar (r v : Z) (m : machine) : machine := set_reg (phys r m) (u32 v) m.

Definition bytes (sz : size) : nat := match sz with Byte => 1 | Half => 2 | Word => 4 end.
Definition binop_exec (op : binop) (a b : Z) : Z :=
  match op with
  | ADD => a + b | ADDX2 => 2 * a + b | ADDX4 => 4 * a + b | SUB => a - b
  | AND => a .& b | OR => a .| b | XOR => a .^ b | MULL => a * b
  end.
Definition zero_holds (c : zero_test) (a : Z) : bool :=
  match c with EQZ => a =? 0 | NEZ => negb (a =? 0) | LTZ => s32 a <? 0 | GEZ => 0 <=? s32 a end.
Definition holds (neg : bool) (c : test) (a b : Z) : bool :=
  xorb neg match c with
  | NONE => a .& b =? 0
  | EQ => a =? b
  | LT => s32 a <? s32 b
  | LTU => a <? b
  | ALL => a .& b =? b
  | BC => negb (Z.testbit a (b mod 32))
  end.

Definition branch (taken : bool) (off next : Z) (m : machine) : machine :=
  set_pc (if taken then u32 (pc m + 4 + off) else next) m.
(** The word-aligned address at or below, and at or above. *)
Definition word_down (a : Z) : Z := Z.ldiff (u32 a) 3.
Definition word_up (a : Z) : Z := Z.ldiff (u32 (a + 3)) 3.

(** A return address keeps the lower 30 bits; the upper two say how far the
    window is to move back. *)
Definition window_link (inc next : Z) : Z := inc << 30 .| bits next 0 30.

Definition xtensa_insn_exec (i : xtensa_instr) (len : Z) (m : machine) : option machine :=
  let next := u32 (pc m + len) in
  let done := fun m => Some (set_pc next m) in
  match i with
  | RRR op r s t => done (set_ar r (binop_exec op (ar s m) (ar t m)) m)
  | NEG r t => done (set_ar r (- ar t m) m)
  | ADDI t s imm => done (set_ar t (ar s m + imm) m)
  | MOV t s => done (set_ar t (ar s m) m)
  | MOVI t imm => done (set_ar t imm m)
  | SSL s => done (set_reg SAR (32 - ar s m mod 32) m)
  | SSR s => done (set_reg SAR (ar s m mod 32) m)
  | SLL r s => done (set_ar r (ar s m << (32 - reg SAR m)) m)
  | SRL r t => done (set_ar r (ar t m >> reg SAR m) m)
  | SRA r t => done (set_ar r (s32 (ar t m) >> reg SAR m) m)
  | L32R t off => done (set_ar t (load 32 4 (mem m) (u32 (word_up (pc m) + off))) m)
  | LOAD sz t s off => done (set_ar t (load 32 (bytes sz) (mem m) (u32 (ar s m + off))) m)
  | STORE sz t s off =>
      done (set_mem (store 32 (bytes sz) (mem m) (u32 (ar s m + off)) (ar t m)) m)
  | BZ c s off => Some (branch (zero_holds c (ar s m)) off next m)
  | B neg c s t off => Some (branch (holds neg c (ar s m) (ar t m)) off next m)
  | BBI neg s bit off => Some (branch (xorb neg (negb (Z.testbit (ar s m) bit))) off next m)
  | J off => Some (branch true off next m)
  | JX s => Some (set_pc (ar s m) m)
  | CALL0 off => Some (set_pc (u32 (word_down (pc m) + 4 + off)) (set_ar 0 next m))
  | CALLX0 s => Some (set_pc (ar s m) (set_ar 0 next m))
  | CALLX8 s =>
      Some (set_pc (ar s m) (set_reg CALLINC 2 (set_ar 8 (window_link 2 next) m)))
  | RET => Some (set_pc (ar 0 m) m)
  | RETW =>
      let inc := ar 0 m >> 30 in
      if inc =? 0 then None
      else Some (set_pc (bits (pc m) 30 2 << 30 .| bits (ar 0 m) 0 30)
             (set_reg WB (reg WB m - inc) m))
  | ENTRY s imm =>
      if s <? 4 then
        let sp := ar s m - imm in
        done (set_ar s sp (set_reg WB (reg WB m + reg CALLINC m) m))
      else None
  end.

Definition Xtensa : Isa := {|
  insn := xtensa_instr;
  addr_width := 32;
  addr_width_pos := eq_refl;
  max_len := 3;
  decode := xtensa_decode;
  exec := xtensa_insn_exec;
  decode_app := xtensa_decode_app;
|}.
