(* ===== verification/AsmXtensaInstr.v ===== *)
(** * AsmXtensaInstr: the instructions of asmxtensa.h

    Every word of two or three bytes that a function of asmxtensa.h writes is
    the instruction meant: the decoder reads it back, and its code performs the
    instruction's effect. *)

From S2P Require Import Prelude AsmBase TwoPass PyMisc Machine Emission AsmXtensa AsmXtensaPass XtensaIsa.

Set Default Goal Selector "!".

#[local] Existing Instance SizeT_32.
#[local] Hint Extern 0 Isa => exact Xtensa : typeclass_instances.

(** ** Decoding *)

Lemma xtensa_disasm_op24 op i : (bits (u8 op) 3 1 =? 1) = false -> decode24 (uw 24 op) = Some i ->
  disasm [u8 op; u8 (op >> 8); u8 (op >> 16)] [(i, 3)].
Proof.
  intros Hl Hd. apply (disasm_one (H := Xtensa)); [|done|simpl; lia].
  cbn [decode Xtensa xtensa_decode]. rewrite Hl.
  replace (le_word _) with (uw 24 op); [by rewrite Hd|]. symmetry.
  rewrite <- (le_word_le_bytes 3 op : _ = uw 24 op). cbn [le_bytes]. by rewrite Z.shiftr_shiftr.
Qed.
Lemma xtensa_disasm_op16 op i : (bits (u8 op) 3 1 =? 1) = true -> decode16 (u16 op) = Some i ->
  disasm [u8 op; u8 (op >> 8)] [(i, 2)].
Proof.
  intros Hl Hd. apply (disasm_one (H := Xtensa)); [|done|simpl; lia].
  cbn [decode Xtensa xtensa_decode]. rewrite Hl.
  replace (le_word _) with (u16 op); [by rewrite Hd|]. symmetry. apply (le_word_le_bytes 2 op).
Qed.
Lemma xtensa_assembles_op24 s op i : (bits (u8 op) 3 1 =? 1) = false -> decode24 (uw 24 op) = Some i ->
  assembles s (asm_xtensa_op24 op) [(i, 3)].
Proof. intros Hl Hd. eexists. split; [apply xtensa_emits_op24|by apply xtensa_disasm_op24]. Qed.
Lemma xtensa_assembles_op16 s op i : (bits (u8 op) 3 1 =? 1) = true -> decode16 (u16 op) = Some i ->
  assembles s (asm_xtensa_op16 op) [(i, 2)].
Proof. intros Hl Hd. eexists. split; [apply xtensa_emits_op16|by apply xtensa_disasm_op16]. Qed.

Create HintDb xtensa_words.
#[export] Hint Unfold ASM_XTENSA_ENCODE_RRR ASM_XTENSA_ENCODE_RRI8 ASM_XTENSA_ENCODE_RI16 ASM_XTENSA_ENCODE_CALL
  ASM_XTENSA_ENCODE_CALLX ASM_XTENSA_ENCODE_BRI12 ASM_XTENSA_ENCODE_RRRN ASM_XTENSA_ENCODE_RI7 : xtensa_words.

(** The operands are what is left once the fields that select an instruction
    are folded, in the decoder's order. *)
Ltac operands := cbn [fmap option_fmap option_map]; repeat (f_equal; try reflexivity); bitsolve.
Ltac x24 sub := autounfold with xtensa_instrs; apply xtensa_assembles_op24; autounfold with xtensa_words;
  [field 3 1; reflexivity|unfold decode24; field 0 4; sub; operands].
Ltac x16 sub := autounfold with xtensa_instrs; apply xtensa_assembles_op16; autounfold with xtensa_words;
  [field 3 1; reflexivity|unfold decode16; field 0 4; sub; operands].
Ltac qrst := unfold decode_qrst; field 16 4.
Ltac rst0 := qrst; unfold decode_rst0; field 20 4.
Ltac rst1 := qrst; unfold decode_rst1; field 20 4.
Ltac lsai := unfold decode_lsai; field 12 4.

(** Registers of the window. *)
Definition areg (r : Z) : Prop := 0 <= r < 16.
(** Their bounds, for [bitsolve]. *)
Ltac ranges := repeat match goal with H : areg ?r |- _ =>
  lazymatch goal with _ : 0 <= r < 16 |- _ => fail | _ => pose proof (H : 0 <= r < 16) end end.

(** ** The effect of an instruction *)

Lemma xtensa_performs s m i len f : assembles s m [(i, len)] ->
  (forall mc, xtensa_insn_exec i len mc = Some (set_pc (u32 (pc mc + len)) (f mc))) -> performs s m f.
Proof.
  intros Ha Hx. eapply assembles_performs; [exact Ha|]. intros mc _. cbn [code_len foldr snd]. rewrite Z.add_0_r.
  transitivity (m' ← xtensa_insn_exec i len mc; Some m'); [done|]. by rewrite Hx.
Qed.
Ltac performed i len := ranges; apply (xtensa_performs _ _ i len); [|intros mc; done].

Section Registers.
Context (s : asm_xtensa_t) (rd rs rt : Z) (Hd : areg rd) (Hs : areg rs) (Ht : areg rt).

(** The three-register instructions and what they compute. *)
Definition xtensa_binary : list ((Z -> Z -> Z -> M asm_xtensa_t unit) * binop) :=
  [(asm_xtensa_op_add_n, ADD); (asm_xtensa_op_addx2, ADDX2); (asm_xtensa_op_addx4, ADDX4); (asm_xtensa_op_sub, SUB);
   (asm_xtensa_op_and, AND); (asm_xtensa_op_or, OR); (asm_xtensa_op_xor, XOR); (asm_xtensa_op_mull, MULL)].
Lemma xtensa_binary_performs op f : In (op, f) xtensa_binary ->
  performs s (op rd rs rt) (fun mc => set_ar rd (binop_exec f (ar rs mc) (ar rt mc)) mc).
Proof using Hd Hs Ht.
  intros Hin. repeat destruct Hin as [[= <- <-] | Hin]; [..|done].
  - performed (RRR ADD rd rs rt) 2. x16 idtac.
  - performed (RRR ADDX2 rd rs rt) 3. x24 rst0.
  - performed (RRR ADDX4 rd rs rt) 3. x24 rst0.
  - performed (RRR SUB rd rs rt) 3. x24 rst0.
  - performed (RRR AND rd rs rt) 3. x24 rst0.
  - performed (RRR OR rd rs rt) 3. x24 rst0.
  - performed (RRR XOR rd rs rt) 3. x24 rst0.
  - performed (RRR MULL rd rs rt) 3. x24 ltac:(qrst; field 20 4).
Qed.
Lemma xtensa_mov_n_performs : performs s (asm_xtensa_op_mov_n rd rs) (fun mc => set_ar rd (ar rs mc) mc).
Proof using Hd Hs. clear rt Ht. performed (MOV rd rs) 2. x16 ltac:(unfold decode_st3; field 12 4). Qed.
Lemma xtensa_neg_performs : performs s (asm_xtensa_op_neg rd rs) (fun mc => set_ar rd (- ar rs mc) mc).
Proof using Hd Hs. clear rt Ht. performed (NEG rd rs) 3. x24 ltac:(rst0; field 8 4). Qed.
Lemma xtensa_addi_performs imm : - 2 ^ 7 <= imm < 2 ^ 7 ->
  performs s (asm_xtensa_op_addi rd rs imm) (fun mc => set_ar rd (ar rs mc + imm) mc).
Proof using Hd Hs.
  clear rt Ht. intros Hi. eapply (performs_ext _ _ (fun mc => set_ar rd (ar rs mc + sw 8 (u8 imm)) mc)).
  { intros mc. by rewrite sw_uw, sw_small. }
  performed (ADDI rd rs (sw 8 (u8 imm))) 3. x24 lsai.
Qed.
Lemma xtensa_movi_assembles imm : assembles s (asm_xtensa_op_movi rd imm) [(MOVI rd (sw 12 imm), 3)].
Proof using Hd. clear rs Hs rt Ht. ranges. rewrite <- (sw_uw 12 eq_refl imm). x24 lsai. Qed.
Lemma xtensa_movi_performs imm : performs s (asm_xtensa_op_movi rd imm) (set_ar rd (sw 12 imm)).
Proof using Hd. clear rs Hs rt Ht. performed (MOVI rd (sw 12 imm)) 3. by apply xtensa_movi_assembles. Qed.
Lemma xtensa_movi_n_assembles imm : -32 <= imm < 96 -> assembles s (asm_xtensa_op_movi_n rd imm) [(MOVI rd imm, 2)].
Proof using Hd.
  clear rs Hs rt Ht. intros Hi.
  assert ((if bits imm 5 2 =? 3 then uw 7 imm - 2 ^ 7 else uw 7 imm) = imm) as E.
  { unfold bits, uw. rewrite Z.shiftr_div_pow2 by done. clear -Hi.
    destruct (Z.eqb_spec ((imm / 2 ^ 5) mod 2 ^ 2) 3); word_lia. }
  rewrite <- E at 2. ranges.
  autounfold with xtensa_instrs. apply xtensa_assembles_op16; autounfold with xtensa_words; [field 3 1; reflexivity|].
  unfold decode16. set (w := u16 _).
  replace (bits w 4 3 << 4 .| bits w 12 4) with (uw 7 imm) by (unfold w; bitsolve).
  replace (bits w 5 2) with (bits imm 5 2) by (unfold w; bitsolve).
  replace (bits w 8 4) with rd by (unfold w; bitsolve).
  unfold w. field 0 4. field 7 1. done.
Qed.
Lemma xtensa_movi_n_performs imm : -32 <= imm < 96 -> performs s (asm_xtensa_op_movi_n rd imm) (set_ar rd imm).
Proof using Hd. intros Hi. clear rs Hs rt Ht. performed (MOVI rd imm) 2. by apply xtensa_movi_n_assembles. Qed.
End Registers.

(** ** Memory *)

(** A load into register [r], or a store of it. *)
Definition access (l : bool) (sz : size) (r a : Z) (mc : machine) : machine :=
  if l then set_ar r (load 32 (bytes sz) (mem mc) a) mc
  else set_mem (store 32 (bytes sz) (mem mc) a (ar r mc)) mc.
Definition size_number (sz : size) : Z := match sz with Byte => 0 | Half => 1 | Word => 2 end.
Definition scale (sz : size) : Z := match sz with Byte => 1 | Half => 2 | Word => 4 end.
(** The field that tells loads from stores. *)
Definition access_number (l : bool) (sz : size) : Z := if l then size_number sz else 0x04 .| size_number sz.

Section Memory.
Context (s : asm_xtensa_t) (l : bool) (rd rb : Z) (Hd : areg rd) (Hb : areg rb).

Definition ldst (sz : size) (off : Z) : xtensa_instr := if l then LOAD sz rd rb off else STORE sz rd rb off.
Lemma xtensa_access_performs m len sz off : assembles s m [(ldst sz off, len)] ->
  performs s m (fun mc => access l sz rd (u32 (ar rb mc + off)) mc).
Proof using. intros Ha. apply (xtensa_performs _ _ _ _ _ Ha). intros mc. clear. unfold ldst. by destruct l. Qed.

Lemma xtensa_rri8_performs sz off : 0 <= off < 256 ->
  performs s (asm_xtensa_op24 (ASM_XTENSA_ENCODE_RRI8 2 (access_number l sz) rb rd off))
    (fun mc => access l sz rd (u32 (ar rb mc + scale sz * off)) mc).
Proof using Hd Hb.
  intros Ho. ranges. apply (xtensa_access_performs _ 3). unfold ldst. destruct l, sz; unfold access_number, size_number, scale; x24 ltac:(lsai; rewrite ?Z.mul_1_l).
Qed.
Lemma xtensa_narrow_performs off : 0 <= off < 16 ->
  performs s ((if l then asm_xtensa_op_l32i_n else asm_xtensa_op_s32i_n) rd rb off)
    (fun mc => access l Word rd (u32 (ar rb mc + 4 * off)) mc).
Proof using Hd Hb. intros Ho. ranges. apply (xtensa_access_performs _ 2). unfold ldst. destruct l; x16 idtac. Qed.
End Memory.

(** ** Control *)

Section Control.
Context (s : asm_xtensa_t).

Lemma xtensa_j_assembles off : assembles s (asm_xtensa_op_j off) [(J (sw 18 off), 3)].
Proof using. rewrite <- (sw_uw 18 eq_refl off). x24 ltac:(unfold decode_si; field 4 2). Qed.
Lemma xtensa_call0_assembles off : assembles s (asm_xtensa_op_call0 off) [(CALL0 (4 * sw 18 off), 3)].
Proof using. rewrite <- (sw_uw 18 eq_refl off). x24 ltac:(field 4 2). Qed.
Lemma xtensa_bccz_assembles c r off : 0 <= c < 4 -> areg r ->
  assembles s (asm_xtensa_op_bccz c r off) [(BZ (zero_test_of c) r (sw 12 off), 3)].
Proof using.
  intros Hc Hr. ranges. rewrite <- (sw_uw 12 eq_refl off). x24 ltac:(unfold decode_si; field 4 2).
Qed.
Lemma xtensa_bcc_assembles c r1 r2 t off : 0 <= c < 16 -> test_of (c mod 8) = Some t -> areg r1 -> areg r2 ->
  assembles s (asm_xtensa_op_bcc c r1 r2 off) [(B (8 <=? c) t r1 r2 (sw 8 off), 3)].
Proof using.
  intros Hc Ht H1 H2. ranges. rewrite <- (sw_uw 8 eq_refl off). autounfold with xtensa_instrs.
  apply xtensa_assembles_op24; autounfold with xtensa_words; [field 3 1; reflexivity|].
  unfold decode24. set (w := uw 24 _). assert (bits w 0 4 = 7) as -> by (unfold w; bitsolve). unfold decode_b.
  replace (bits w 12 3) with (c mod 8) by (change (c mod 8) with (uw 3 c); unfold w; symmetry; bitsolve). rewrite Ht.
  replace (bits w 15 1) with (bits c 3 1) by (unfold w; symmetry; bitsolve).
  replace (bits w 16 8) with (u8 off) by (unfold w; symmetry; bitsolve).
  replace (bits w 8 4) with r1 by (unfold w; symmetry; bitsolve). replace (bits w 4 4) with r2 by (unfold w; symmetry; bitsolve).
  replace (bits c 3 1 =? 1) with (8 <=? c) by (clear -Hc; by enumerate 16%nat c). done.
Qed.
Lemma xtensa_jx_assembles r : areg r -> assembles s (asm_xtensa_op_jx r) [(JX r, 3)].
Proof using. intros Hr. ranges. x24 ltac:(rst0; unfold decode_jump_register; field 12 4; field 6 2; field 4 2). Qed.
Lemma xtensa_callx0_assembles r : areg r -> assembles s (asm_xtensa_op_callx0 r) [(CALLX0 r, 3)].
Proof using. intros Hr. ranges. x24 ltac:(rst0; unfold decode_jump_register; field 12 4; field 6 2; field 4 2). Qed.
Lemma xtensa_callx8_assembles r : areg r -> assembles s (asm_xtensa_op_callx8 r) [(CALLX8 r, 3)].
Proof using. intros Hr. ranges. x24 ltac:(rst0; unfold decode_jump_register; field 12 4; field 6 2; field 4 2). Qed.
Lemma xtensa_ret_assembles : assembles s asm_xtensa_op_ret_n [(RET, 2)].
Proof using. by apply xtensa_assembles_op16. Qed.
Lemma xtensa_retw_assembles : assembles s asm_xtensa_op_retw_n [(RETW, 2)].
Proof using. by apply xtensa_assembles_op16. Qed.
Lemma xtensa_entry_assembles r n : areg r ->
  assembles s (asm_xtensa_op_entry r n) [(ENTRY r (8 * uw 12 (Z.quot n 8)), 3)].
Proof using. intros Hr. ranges. x24 ltac:(unfold decode_si; field 4 2; field 6 2). Qed.
End Control.

(** ** Registers and the window *)

Lemma phys_inj q r mc : phys q mc = phys r mc <-> q = r.
Proof. unfold phys, at_window, file. lia. Qed.
Lemma phys_set_ar q r v mc : phys q (set_ar r v mc) = phys q mc.
Proof. unfold phys, set_ar. rewrite reg_set_ne; [done|]. unfold WB, phys, at_window, file. lia. Qed.
Lemma ar_set_eq r v mc : ar r (set_ar r v mc) = u32 v.
Proof. unfold ar. rewrite phys_set_ar. unfold set_ar. by rewrite reg_set_eq, uw_uw. Qed.
Lemma ar_set_ne q r v mc : q <> r -> ar q (set_ar r v mc) = ar q mc.
Proof. intros. unfold ar. rewrite phys_set_ar. unfold set_ar. rewrite reg_set_ne; [done|]. by rewrite phys_inj. Qed.
Lemma set_ar_set r v w mc : set_ar r v (set_ar r w mc) = set_ar r v mc.
Proof.
  unfold set_ar at 1. rewrite phys_set_ar. unfold set_ar, set_reg. simpl. by rewrite insert_insert_eq.
Qed.
Lemma set_ar_comm q r v w mc : q <> r -> set_ar q v (set_ar r w mc) = set_ar r w (set_ar q v mc).
Proof.
  intros Hne. unfold set_ar at 1 3. rewrite !phys_set_ar. unfold set_ar, set_reg. simpl. f_equal.
  apply insert_insert_ne. by rewrite phys_inj.
Qed.
Lemma set_ar_cong r v w mc : u32 v = u32 w -> set_ar r v mc = set_ar r w mc.
Proof. unfold set_ar. by intros ->. Qed.
Lemma u32_ar r mc : u32 (ar r mc) = ar r mc.
Proof. unfold ar. by rewrite uw_uw. Qed.
Lemma phys_odd q r mc : phys q mc <> 2 * r + 1.
Proof. unfold phys, at_window, file. lia. Qed.
Lemma ar_set_sar r v mc : ar r (set_reg SAR v mc) = ar r mc.
Proof.
  unfold ar, phys. rewrite (reg_set_ne WB SAR) by done. fold (phys r mc). rewrite reg_set_ne; [done|].
  exact (phys_odd r 0 mc).
Qed.

(** ** Shifts *)

(** A shift of [rd] by the register [rs], whose lower five bits count: the shift
    amount register is left changed. *)
Section Shifts.
Context (s : asm_xtensa_t) (rd rs : Z) (Hd : areg rd) (Hs : areg rs).

Lemma xtensa_ssl_performs : performs s (asm_xtensa_op_ssl rs) (fun mc => set_reg SAR (32 - ar rs mc mod 32) mc).
Proof using Hs. clear Hd. performed (SSL rs) 3. x24 ltac:(rst0; field 4 4; field 12 4). Qed.
Lemma xtensa_ssr_performs : performs s (asm_xtensa_op_ssr rs) (fun mc => set_reg SAR (ar rs mc mod 32) mc).
Proof using Hs. clear Hd. performed (SSR rs) 3. x24 ltac:(rst0; field 4 4; field 12 4). Qed.
Lemma xtensa_sll_performs : performs s (asm_xtensa_op_sll rd rs) (fun mc => set_ar rd (ar rs mc << (32 - reg SAR mc)) mc).
Proof using Hd Hs. performed (SLL rd rs) 3. x24 ltac:(rst1; field 4 4). Qed.
Lemma xtensa_srl_performs : performs s (asm_xtensa_op_srl rd rs) (fun mc => set_ar rd (ar rs mc >> reg SAR mc) mc).
Proof using Hd Hs. performed (SRL rd rs) 3. x24 ltac:(rst1; field 8 4). Qed.
Lemma xtensa_sra_performs : performs s (asm_xtensa_op_sra rd rs) (fun mc => set_ar rd (s32 (ar rs mc) >> reg SAR mc) mc).
Proof using Hd Hs. performed (SRA rd rs) 3. x24 ltac:(rst1; field 8 4). Qed.
End Shifts.

Section ShiftOps.
Context (s : asm_xtensa_t) (rd rs : Z) (Hd : areg rd) (Hs : areg rs).

Lemma shift_performs m k amount g : performs s m (fun mc => set_reg SAR (amount (ar rs mc mod 32)) mc) ->
  (forall u, performs u k (fun mc => set_ar rd (g (ar rd mc) (reg SAR mc)) mc)) ->
  performs s (m;; k) (fun mc => let n := ar rs mc mod 32 in set_ar rd (g (ar rd mc) (amount n)) (set_reg SAR (amount n) mc)).
Proof using.
  intros Hm Hk. eapply performs_ext; [|eapply (performs_seq s m k _ (fun mc => set_ar rd (g (ar rd mc) (reg SAR mc)) mc) Hm); [done..|intros bs; apply Hk]].
  intros mc. cbv beta zeta. by rewrite ar_set_sar, reg_set_eq.
Qed.

(** The operation, the shift amount it sets and the value it computes. *)
Definition xtensa_shifts : list ((Z -> Z -> M asm_xtensa_t unit) * (Z -> Z) * (Z -> Z -> Z)) :=
  [(GenericApi.ASM_LSL_REG_REG, fun n => 32 - n, fun a n => a << n);
   (GenericApi.ASM_LSR_REG_REG, fun n => n, fun a n => a >> n);
   (GenericApi.ASM_ASR_REG_REG, fun n => n, fun a n => s32 a >> n)].
Lemma xtensa_shift_performs op amount f : In (op, amount, f) xtensa_shifts ->
  performs s (op rd rs) (fun mc => let n := ar rs mc mod 32 in set_ar rd (f (ar rd mc) n) (set_reg SAR (amount n) mc)).
Proof using Hd Hs.
  intros Hin. repeat destruct Hin as [[= <- <- <-] | Hin]; [..|done].
  - eapply performs_ext; [|apply (shift_performs _ _ (fun n => 32 - n) (fun a n => a << (32 - n)) (xtensa_ssl_performs s rs Hs));
      intros u; exact (xtensa_sll_performs u rd rd Hd Hd)].
    intros mc. cbv beta zeta. by replace (32 - (32 - ar rs mc mod 32)) with (ar rs mc mod 32) by lia.
  - apply (shift_performs _ _ (fun n => n) (fun a n => a >> n) (xtensa_ssr_performs s rs Hs)); intros u; exact (xtensa_srl_performs u rd rd Hd Hd).
  - apply (shift_performs _ _ (fun n => n) (fun a n => s32 a >> n) (xtensa_ssr_performs s rs Hs)); intros u; exact (xtensa_sra_performs u rd rd Hd Hd).
Qed.
End ShiftOps.
