(* ===== verification/AsmXtensaImm.v ===== *)
(** * AsmXtensaImm: the constants of asmxtensa.c

    The load of a constant, in each of three ways: two instructions hold it
    themselves, the third reads it from the table in front of the code, where
    the emit pass writes it. *)

From S2P Require Import Prelude AsmBase TwoPass PyMisc Machine Emission AsmXtensa AsmXtensaPass XtensaIsa AsmXtensaInstr.

Set Default Goal Selector "!".

#[local] Existing Instance SizeT_32.
#[local] Hint Extern 0 Isa => exact Xtensa : typeclass_instances.

(** ** The table *)

(** The offset of the next entry. *)
Definition const_offset (s : asm_xtensa_t) : Z := default 0 (const_table s) + 4 * cur_const s.
(** There is an entry left, behind the code and within reach of L32R; in the
    compute pass there is no table. *)
Record table_open (s : asm_xtensa_t) : Prop := {
  open_table : pass (base s) = MP_ASM_PASS_EMIT -> is_Some (const_table s);
  open_cur : 0 <= cur_const s < 2 ^ 32 - 1;
  open_entry : forall p, const_table s = Some p ->
    0 <= p /\ p mod 4 = 0 /\ const_offset s + 4 <= code_offset (base s) < const_offset s + 2 ^ 17
    /\ const_offset s + 4 <= code_size (base s) /\ code_offset (base s) < 2 ^ 31;
}.

(** The state with [i] in the next entry. *)
Definition set_const (i : Z) (s : asm_xtensa_t) : asm_xtensa_t :=
  match const_table s with
  | Some p => with_base (set_code_mem (list_inserts (Z.to_nat (const_offset s)) (le_bytes 4 i) (code_mem (base s))) (base s)) s
  | None => s
  end.
Definition with_const (i : Z) (s : asm_xtensa_t) : asm_xtensa_t := next_const (set_const i s).

Lemma list_inserts_commute (i j : nat) (xs ys l : list Z) : (i + length xs <= j)%nat -> (i + length xs <= length l)%nat ->
  list_inserts i xs (list_inserts j ys l) = list_inserts j ys (list_inserts i xs l).
Proof.
  intros Hij Hl. apply list_eq. intros k.
  destruct (decide (k < i)%nat) as [Hki|Hki].
  { rewrite !(list_lookup_inserts_lt _ i), !(list_lookup_inserts_lt _ j) by lia. by rewrite list_lookup_inserts_lt by lia. }
  destruct (decide (k < i + length xs)%nat) as [Hkx|Hkx].
  - rewrite (list_lookup_inserts_lt _ j) by lia. by rewrite !list_lookup_inserts by (rewrite ?length_inserts; lia).
  - rewrite (list_lookup_inserts_ge _ i) by lia.
    destruct (decide (k < j)%nat) as [Hkj|Hkj]; [by rewrite !list_lookup_inserts_lt, list_lookup_inserts_ge by lia|].
    destruct (decide (k < j + length ys)%nat) as [Hky|Hky]; [|by rewrite !list_lookup_inserts_ge by lia].
    destruct (decide (k < length l)%nat) as [Hkl|Hkl].
    + by rewrite !list_lookup_inserts by (rewrite ?length_inserts; lia).
    + rewrite !lookup_ge_None_2 by (rewrite ?length_inserts; lia). done.
Qed.

(** Code is written behind the table. *)
Lemma put_bytes_set_mem bs i (xs : list Z) b : base_wf b -> Z.of_nat (i + length xs) <= code_offset b -> Z.of_nat (i + length xs) <= code_size b ->
  put_bytes bs (set_code_mem (list_inserts i xs (code_mem b)) b)
  = set_code_mem (list_inserts i xs (code_mem (put_bytes bs b))) (put_bytes bs b).
Proof.
  intros Hwf Ho Hs. pose proof (wf_code_size b Hwf). unfold put_bytes. simpl. destruct (suppress b); [done|].
  destruct (pass b =? MP_ASM_PASS_EMIT); [|done]. simpl. rewrite (list_inserts_commute i) by lia. done.
Qed.

Section Table.
Context (s : asm_xtensa_t) (i : Z) (Hopen : table_open s).

Lemma set_const_refilled : refilled (base s) (base (set_const i s)).
Proof using.
  unfold set_const. destruct (const_table s) as [p|]; [|done]. eexists. split; [done|].
  rewrite length_inserts. split; [done|]. intros Hb. apply Forall_list_inserts; [apply le_bytes_is_byte|done].
Qed.
Lemma fill_const_run bs : Forall is_byte bs -> ready (Z.of_nat (length bs)) s ->
  (fill_const s i;; modify next_const) (puts bs s) = Ok (tt, puts bs (with_const i s)).
Proof using Hopen.
  intros Hbs Hr. destruct (const_table s) as [p|] eqn:Hp.
  - destruct (open_entry s Hopen p Hp) as (H0 & _ & He & Hsz & _). pose proof (open_cur s Hopen).
    assert (const_offset s = p + 4 * cur_const s) as Eo by (unfold const_offset; by rewrite Hp).
    assert (base_wf (base_of (puts bs s))) as Hwf by (rewrite base_of_puts; by apply put_bytes_wf; [apply Hr|..|apply Hr]).
    erewrite bind_Ok by (apply (xtensa_fill_const_emit i s (puts bs s) _ p Hp eq_refl Hwf);
      rewrite ?base_of_puts, ?put_bytes_size; change (base_of s) with (base s); lia).
    change (modify next_const ?x) with (Ok (tt, next_const x)). do 2 f_equal.
    unfold with_const, set_const, puts. rewrite Hp.
    change (base_of (next_const (with_base ?b s))) with b.
    rewrite put_bytes_set_mem; [|apply Hr|rewrite length_le_bytes; lia..].
    replace (p + cur_const s * 4) with (const_offset s) by lia. done.
  - unfold fill_const, with_const, set_const. rewrite Hp.
    assert ((pass (base s) =? MP_ASM_PASS_EMIT) = false) as ->; [|done].
    apply Z.eqb_neq. intros E. destruct (open_table s Hopen E) as [? ?]. congruence.
Qed.

Lemma mov_reg_i32_emits r : emits_to s (with_const i s) (asm_xtensa_mov_reg_i32 r i;; mret tt) (l32r_bytes r s).
Proof using Hopen.
  destruct (xtensa_l32r_bytes_ok r s) as [Hb Hl]. split; [done|]. split.
  - intros Hr. rewrite xtensa_mov_reg_i32_run by by rewrite Hl in Hr. by apply fill_const_run.
  - intros Hr0 Hp [? ?]. unfold asm_xtensa_mov_reg_i32, asm_xtensa_op_l32r. rewrite !bind_assoc, gets_bind. cbv zeta.
    rewrite !bind_assoc. intros (? & ? & E & _)%bind_inv. rewrite Hl.
    by eapply (proj2 (proj2 (xtensa_emits_op24 _ _))).
Qed.
End Table.

(** ** Literals *)

Lemma ldiff_3 x : Z.ldiff x 3 = x - x mod 4.
Proof.
  change 3 with (Z.ones 2). rewrite Z.ldiff_ones_r, Z.shiftr_div_pow2, Z.shiftl_mul_pow2 by done.
  pose proof (Z.div_mod x (2 ^ 2)). change (2 ^ 2) with 4 in *. lia.
Qed.
Lemma word_up_eq a : word_up a = u32 (a + 3) - (a + 3) mod 4.
Proof. unfold word_up. rewrite ldiff_3. f_equal. unfold uw. rewrite Z.mod_mod_divide; [done|by exists (2 ^ 30)]. Qed.
Lemma word_up_placed a o off : (a - o) mod 4 = 0 -> u32 (word_up a + (off - word_up o)) = u32 (a + (off - o)).
Proof.
  intros Hp. rewrite !word_up_eq.
  assert ((a + 3) mod 4 = (o + 3) mod 4) as -> by (clear -Hp; Z.to_euclidean_division_equations; lia).
  replace (u32 (a + 3) - (o + 3) mod 4 + (off - (u32 (o + 3) - (o + 3) mod 4))) with (u32 (a + 3) + off - u32 (o + 3)) by lia.
  rewrite uw_sub_r by done. replace (u32 (a + 3) + off - (o + 3)) with (u32 (a + 3) + (off - (o + 3))) by lia.
  rewrite uw_add_l by done. f_equal. lia.
Qed.

(** The displacement L32R makes of the offsets of the instruction and of the
    word. *)
Definition l32r_offset (o d : Z) : Z := 4 * (bits (u32 (d - word_up o)) 2 16 - 2 ^ 16).
Lemma l32r_offset_eq o d : 0 <= o < 2 ^ 32 - 3 -> 0 <= d -> d mod 4 = 0 -> d < o < d + 2 ^ 18 - 3 ->
  l32r_offset o d = d - word_up o.
Proof.
  intros Ho Hd0 Hd Hr. unfold l32r_offset. rewrite word_up_eq, (uw_small 32 (o + 3)) by (simpl; lia).
  assert (exists j, d - (o + 3 - (o + 3) mod 4) = - 4 * j /\ 1 <= j <= 2 ^ 16) as (j & -> & Hj).
  { exists ((o + 3) / 4 - d / 4). pose proof (Z.div_mod (o + 3) 4 ltac:(done)). pose proof (Z.div_mod d 4 ltac:(done)).
    pose proof (Z.mod_pos_bound (o + 3) 4). simpl in *. lia. }
  unfold bits, uw. rewrite Z.shiftr_div_pow2 by done.
  rewrite <- (Z.mod_unique (- 4 * j) (2 ^ 32) (-1) (4 * (2 ^ 30 - j))) by (fold_pow2; lia).
  change (2 ^ 2) with 4. rewrite (Z.mul_comm 4 (2 ^ 30 - j)), Z.div_mul by done.
  rewrite <- (Z.mod_unique (2 ^ 30 - j) (2 ^ 16) (2 ^ 14 - 1) (2 ^ 16 - j)) by (fold_pow2; lia). lia.
Qed.
(** The word of L32R. *)
Definition l32r_word (r o d : Z) : Z :=
  ASM_XTENSA_ENCODE_RI16 1 r (u32 (d - (u32 (o + 3) .& u32 (Z.lnot 3))) >> 2 .& 0xffff).
Lemma xtensa_disasm_l32r r o d : areg r -> let op := l32r_word r o d in
  disasm [u8 op; u8 (op >> 8); u8 (op >> 16)] [(L32R r (l32r_offset o d), 3)].
Proof.
  intros Hr. ranges. cbv zeta. unfold l32r_word, l32r_offset, word_up.
  assert (u32 (o + 3) .& u32 (Z.lnot 3) = Z.ldiff (u32 (o + 3)) 3) as ->.
  { rewrite Z.ldiff_land. change (u32 (Z.lnot 3)) with (Z.land (Z.lnot 3) (Z.ones 32)).
    rewrite Z.land_assoc, (Z.land_ones _ 32), <- Z.ldiff_land by done. apply (Z.mod_small _ (2 ^ 32)).
    rewrite ldiff_3. pose proof (uw_range 32 eq_refl (o + 3)). pose proof (Z.mod_pos_bound (u32 (o + 3)) 4 eq_refl).
    pose proof (Z.mod_le (u32 (o + 3)) 4). lia. }
  generalize (u32 (d - Z.ldiff (u32 (o + 3)) 3)). intros k. apply xtensa_disasm_op24; autounfold with xtensa_words; [field 3 1; reflexivity|].
  unfold decode24. replace (bits _ 8 16) with (bits k 2 16) by (symmetry; bitsolve). field 0 4.
  replace (bits _ 4 4) with r by (symmetry; bitsolve). done.
Qed.
(** It loads the word at [d], in code that lies at a multiple of 4. *)
Lemma xtensa_l32r_exec r o d mc : 0 <= o < 2 ^ 32 - 3 -> 0 <= d -> d mod 4 = 0 -> d < o < d + 2 ^ 18 - 3 ->
  (pc mc - o) mod 4 = 0 -> exec_straight [(L32R r (l32r_offset o d), 3)] mc
    = Some (set_pc (u32 (pc mc + 3)) (set_ar r (load 32 4 (mem mc) (pc mc + (d - o))) mc)).
Proof.
  intros Ho Hd0 Hd Hr Hal. rewrite l32r_offset_eq by done.
  transitivity (Some (set_pc (u32 (pc mc + 3)) (set_ar r (load 32 4 (mem mc) (u32 (word_up (pc mc) + (d - word_up o)))) mc))); [done|].
  rewrite word_up_placed by done. by rewrite (load_cong 32 eq_refl 4 _ _ (pc mc + (d - o))) by by rewrite uw_uw.
Qed.

(** ** Constants *)

Lemma xtensa_signed_fit8 x : SIGNED_FIT8 x = (- 2 ^ 7 <=? s32 x) && (s32 x <? 2 ^ 7).
Proof. apply (fit_signed 32 7); lia. Qed.
Lemma xtensa_signed_fit12 x : SIGNED_FIT12 x = (- 2 ^ 11 <=? s32 x) && (s32 x <? 2 ^ 11).
Proof. apply (fit_signed 32 11); lia. Qed.

(** The word of the table that the next constant has, as the machine sees it
    from the code that is written next. *)
Definition const_in_memory (s : asm_xtensa_t) (i : Z) (mc : machine) : Prop :=
  (pc mc - code_offset (base s)) mod 4 = 0
  /\ load 32 4 (mem mc) (pc mc + (const_offset s - code_offset (base s))) = u32 i.

Section Constants.
Context (s : asm_xtensa_t) (r i : Z) (Hr : areg r).

Lemma xtensa_mov_reg_i32_implements : pass (base s) = MP_ASM_PASS_EMIT -> table_open s ->
  implements_when (fun _ => const_in_memory s i) s (with_const i s) (asm_xtensa_mov_reg_i32 r i;; mret tt)
    (fun n mc mc' => mc' = set_pc (u32 (pc mc + n)) (set_ar r i mc)).
Proof using Hr.
  intros Hemit Hopen. split; [by apply set_const_refilled|]. exists (l32r_bytes r s). split; [by apply mov_reg_i32_emits|].
  destruct (open_table s Hopen Hemit) as [p Hp]. destruct (open_entry s Hopen p Hp) as (H0 & Hp4 & Ho & _ & Hlt).
  pose proof (open_cur s Hopen) as Hc. unfold const_in_memory. assert (const_offset s = p + 4 * cur_const s) as Ed by (unfold const_offset; by rewrite Hp).
  rewrite Ed in *. set (o := code_offset (base s)) in *. set (d := p + 4 * cur_const s) in *.
  assert (l32r_bytes r s = [u8 (l32r_word r o d); u8 (l32r_word r o d >> 8); u8 (l32r_word r o d >> 16)]) as ->.
  { unfold l32r_bytes, const_table_offset, WORD_SIZE, l32r_word. cbv zeta. rewrite Hp. fold o.
    replace (u32 (u32 p + cur_const s * 4)) with d by (rewrite uw_add_l, Z.mul_comm, uw_small by pow_lia; done). done. }
  intros code mc Hw Hcode [Hal Hl]. exists (set_pc (u32 (pc mc + 3)) (set_ar r i mc)). split; [|done].
  eapply runs_straight; [by apply xtensa_disasm_l32r|done|].
  assert (d mod 4 = 0) by (unfold d; rewrite Z.mul_comm, Z.mod_add by done; done).
  rewrite xtensa_l32r_exec by (done || pow_lia). rewrite Hl. unfold set_ar. by rewrite uw_uw.
Qed.

(** What the load of [i], in the shortest of three ways, requires and leaves. *)
Definition imm_room : Prop := imm_consts i <> 0 -> pass (base s) = MP_ASM_PASS_EMIT /\ table_open s.
Definition after_imm : asm_xtensa_t := if imm_consts i =? 0 then s else with_const i s.
Definition imm_in_memory (mc : machine) : Prop := imm_consts i <> 0 -> const_in_memory s i mc.
Lemma after_imm_refilled : imm_room -> refilled (base s) (base after_imm).
Proof using.
  unfold after_imm, imm_room. intros Hroom. destruct (Z.eqb_spec (imm_consts i) 0); [done|].
  destruct Hroom as [_ Ho]; [done|]. by apply set_const_refilled.
Qed.
Lemma xtensa_imm_implements : imm_room ->
  implements_when (fun _ => imm_in_memory) s after_imm (asm_xtensa_mov_reg_i32_optimised r i)
    (fun n mc mc' => mc' = set_pc (u32 (pc mc + n)) (set_ar r i mc)).
Proof using Hr.
  unfold imm_room, after_imm, imm_in_memory, imm_consts, asm_xtensa_mov_reg_i32_optimised. intros Hroom.
  destruct ((-32 <=? s32 i) && (s32 i <=? 95)) eqn:Hn.
  { apply andb_prop in Hn as [?%Z.leb_le ?%Z.leb_le]. eapply when_mono; [apply (when_implements (fun _ _ => True)), (xtensa_movi_n_performs s r Hr (s32 i)); lia|done|].
    intros n mc mc' ->. unfold set_ar. by rewrite uw_sw. }
  destruct (SIGNED_FIT12 i) eqn:Hf.
  { rewrite xtensa_signed_fit12 in Hf. apply andb_prop in Hf as [?%Z.leb_le ?%Z.ltb_lt].
    eapply when_mono; [apply (when_implements (fun _ _ => True)), (xtensa_movi_performs s r Hr (s32 i))|done|].
    intros n mc mc' ->. unfold set_ar. by rewrite (sw_small 12), uw_sw. }
  destruct Hroom as [Hp Ho]; [done|]. eapply when_mono; [by apply xtensa_mov_reg_i32_implements| |done]. intros bs mc H. by apply H.
Qed.
End Constants.
