(* ===== verification/AsmXtensaTable.v ===== *)
(** * AsmXtensaTable: the constants of asmxtensa.c in the finished code

    A constant that is written to the table is still there when the code after
    it, and the constants that code loads, have been written: the memory of a
    machine that holds the finished code has what the loads require. *)

From S2P Require Import Prelude AsmBase TwoPass PyMisc Machine Emission AsmXtensa AsmXtensaPass XtensaIsa AsmXtensaInstr AsmXtensaImm.

Set Default Goal Selector "!".

#[local] Existing Instance SizeT_32.
#[local] Hint Extern 0 Isa => exact Xtensa : typeclass_instances.

(** The word at offset [o] of the code. *)
Definition word_written (o i : Z) (code : list Z) : Prop :=
  forall k b, le_bytes 4 i !! k = Some b -> code !! (Z.to_nat o + k)%nat = Some b.
Lemma word_written_self o i code : 0 <= o -> o + 4 <= Z.of_nat (length code) ->
  word_written o i (list_inserts (Z.to_nat o) (le_bytes 4 i) code).
Proof.
  intros Ho Hl k b Hk. pose proof (lookup_lt_Some _ _ _ Hk) as Hlt. rewrite length_le_bytes in Hlt.
  rewrite list_lookup_inserts by (rewrite ?length_le_bytes; lia). by replace (Z.to_nat o + k - Z.to_nat o)%nat with k by lia.
Qed.
Lemma word_written_other o i code j bs : 0 <= o -> o + 4 <= Z.of_nat j ->
  word_written o i code -> word_written o i (list_inserts j bs code).
Proof.
  intros Ho Hj Hw k b Hk. pose proof (lookup_lt_Some _ _ _ Hk) as Hlt. rewrite length_le_bytes in Hlt.
  rewrite list_lookup_inserts_lt by lia. by apply Hw.
Qed.

(** What may follow: code, and loads of further constants. *)
Inductive continued (s : asm_xtensa_t) : asm_xtensa_t -> Prop :=
| continued_refl : continued s s
| continued_puts t bs : continued s t -> Forall is_byte bs -> can_put (Z.of_nat (length bs)) (base t) -> continued s (puts bs t)
| continued_const t j : continued s t -> table_open t -> continued s (with_const j t).

(** The machine holds the code of [t]. *)
Definition code_in_memory (t : asm_xtensa_t) (mc : machine) : Prop :=
  code_at 32 (peek 32 (mem mc)) (code_base (base t)) (code_mem (base t)).

Section Written.
Context (s : asm_xtensa_t) (i : Z) (Hopen : table_open s) (Hemit : pass (base s) = MP_ASM_PASS_EMIT) (Hwf : base_wf (base s)).
Abbreviation o := (const_offset s).

Lemma const_offset_bounds : 0 <= o /\ o + 4 <= code_offset (base s) /\ o + 4 <= code_size (base s) /\ o mod 4 = 0.
Proof using Hopen Hemit.
  destruct (open_table s Hopen Hemit) as [p Hp]. destruct (open_entry s Hopen p Hp) as (H0 & H4 & Ho & Hs & _).
  pose proof (open_cur s Hopen). assert (o = p + 4 * cur_const s) as E by (unfold const_offset; by rewrite Hp).
  rewrite E in *. repeat split; try lia. clear -H4. Z.to_euclidean_division_equations. lia.
Qed.

Record holds_const (t : asm_xtensa_t) : Prop := {
  hc_word : word_written o i (code_mem (base t));
  hc_table : const_table t = const_table s;
  hc_cur : cur_const s < cur_const t;
  hc_behind : o + 4 <= code_offset (base t);
  hc_base : code_base (base t) = code_base (base s);
}.
Lemma with_const_holds : holds_const (with_const i s).
Proof using Hopen Hemit Hwf.
  destruct const_offset_bounds as (H0 & Ho & Hs & _). pose proof (open_cur s Hopen) as Hc. pose proof (wf_code_size _ Hwf).
  unfold with_const, set_const. destruct (open_table s Hopen Hemit) as [p Hp]. rewrite Hp. split; simpl; try done.
  - apply word_written_self; lia.
  - rewrite uw_small by (simpl in *; lia). lia.
Qed.
Lemma holds_const_continued t : continued (with_const i s) t -> holds_const t.
Proof using Hopen Hemit Hwf.
  destruct const_offset_bounds as (H0 & Ho & Hs & _).
  induction 1 as [|t bs _ [Hw Ht Hcur Hb Hbase] Hbs Hput|t j _ [Hw Ht Hcur Hb Hbase] Hopent]; [apply with_const_holds|..].
  - split; [|done..| |].
    + change (code_mem (base (puts bs t))) with (code_mem (base_of (puts bs t))). rewrite base_of_puts. unfold put_bytes.
      change (base_of t) with (base t). destruct (suppress (base t)), (pass (base t) =? MP_ASM_PASS_EMIT); simpl; try done.
      apply word_written_other; [done|lia|done].
    + change (code_offset (base (puts bs t))) with (code_offset (base_of (puts bs t))). rewrite base_of_puts, put_bytes_offset.
      change (base_of t) with (base t). destruct (suppress (base t)); lia.
    + change (code_base (base (puts bs t))) with (code_base (base_of (puts bs t))). by rewrite base_of_puts, put_bytes_base.
  - destruct (open_table s Hopen Hemit) as [p Hp]. pose proof (open_cur t Hopent) as Hct.
    assert (const_offset t = o + 4 * (cur_const t - cur_const s)) as E by (unfold const_offset; rewrite Ht; lia).
    unfold with_const, set_const. rewrite Ht, Hp. split; [|done| |done..].
    + apply (word_written_other _ _ _ (Z.to_nat (const_offset t))); [done|lia|done].
    + cbn. rewrite uw_small by (simpl in *; lia). lia.
Qed.

Lemma code_const_in_memory t mc : continued (with_const i s) t -> code_in_memory t mc -> code_base (base s) mod 4 = 0 ->
  pc mc = u32 (code_base (base s) + code_offset (base s)) -> const_in_memory s i mc.
Proof using Hopen Hemit Hwf.
  intros Ht Hmem H4 Hpc. destruct (holds_const_continued t Ht) as [Hw _ _ _ Hb]. destruct const_offset_bounds as (H0 & _ & _ & Ho4).
  split.
  - rewrite Hpc. clear -H4. unfold uw. Z.to_euclidean_division_equations. lia.
  - rewrite (load_cong 32 eq_refl 4 _ _ (code_base (base t) + o)).
    2: { rewrite Hpc, Hb, uw_add_l by done. f_equal. lia. }
    change 4%nat with (length (le_bytes 4 i)). rewrite (load_code 32 eq_refl); [by apply (le_word_le_bytes 4 i)|].
    intros k b Hk. rewrite <- (Hmem (Z.to_nat o + k)%nat b); [|by apply Hw]. f_equal. f_equal. lia.
Qed.
End Written.
