(* ===== verification/AsmXtensaMem.v ===== *)
(** * AsmXtensaMem: the loads and stores of asmxtensa.c

    A value at a base register plus an offset, in three forms chosen by the
    offset, at a base plus a scaled index, and in a local variable. *)

From S2P Require Import Prelude AsmBase TwoPass PyMisc Machine Emission AsmXtensa AsmXtensaPass XtensaIsa AsmXtensaInstr AsmXtensaImm.

Set Default Goal Selector "!".

#[local] Existing Instance SizeT_32.
#[local] Hint Extern 0 Isa => exact Xtensa : typeclass_instances.

(** ** Offsets *)

(** The constant that is loaded for an offset that no instruction holds. *)
Definition far_imm (sz : size) (off : Z) : Z := if off <? 256 then 0 else u32 (off << size_number sz).
(** The address, in a register of its own if it is far. *)
Definition in_temp (sz : size) (off r a : Z) (mc : machine) : machine := if off <? 256 then mc else set_ar r a mc.

Section Offsets.
Context `{XtensaConfig} `{PyMisc}.
Context (s : asm_xtensa_t) (sz : size) (rd rb off : Z) (Hd : areg rd) (Hb : areg rb) (Hoff : 0 <= off < 2 ^ 32).
Abbreviation K := (scale sz * off).

Lemma far_imm_eq : 256 <= off -> u32 (far_imm sz off) = u32 K.
Proof using.
  intros Ho. unfold far_imm. rewrite ltb_false by done. rewrite uw_uw by done. f_equal.
  destruct sz; unfold scale, size_number; rewrite Z.shiftl_mul_pow2 by done; lia.
Qed.

(** The far forms: the constant, the sum, and the access of its address. *)
Lemma far_access_implements l r t m : areg r -> areg t -> 256 <= off -> imm_room s (far_imm sz off) ->
  (forall u, performs u m (fun mc => access l sz r (ar t mc) mc)) ->
  implements_when (fun _ => imm_in_memory s (far_imm sz off)) s (after_imm s (far_imm sz off))
    (asm_xtensa_mov_reg_i32_optimised t (far_imm sz off);; asm_xtensa_op_add_n t rb t;; m)
    (fun n mc mc' => mc' = set_pc (u32 (pc mc + n))
       (let m1 := set_ar t ((if rb =? t then K else ar rb mc) + K) mc in access l sz r (ar t m1) m1)).
Proof using Hb.
  intros Hr Ht Ho Hroom Hm. eapply when_mono; [eapply (when_performs_to (fun _ => imm_in_memory s (far_imm sz off)) s (after_imm s (far_imm sz off))
    _ _ (set_ar t (far_imm sz off)) (fun mc => let m1 := set_ar t (ar rb mc + ar t mc) mc in access l sz r (ar t m1) m1))|done|].
  - by apply xtensa_imm_implements.
  - done.
  - intros a mc. by destruct l.
  - intros bs. eapply (performs_seq _ _ _ _ (fun mc => access l sz r (ar t mc) mc));
      [by apply (xtensa_binary_performs _ t rb t Ht Hb Ht _ ADD); left|done|intros a mc; by destruct l|done].
  - intros n mc mc' ->. cbv beta zeta. f_equal. rewrite set_ar_set.
    assert (forall v w m, u32 v = u32 w -> set_ar t v m = set_ar t w m) as Hc by (intros; by apply set_ar_cong).
    rewrite (Hc (ar rb (set_ar t (far_imm sz off) mc) + ar t (set_ar t (far_imm sz off) mc)) ((if rb =? t then K else ar rb mc) + K)); [done|].
    rewrite ar_set_eq, far_imm_eq by done. destruct (Z.eqb_spec rb t) as [->|Hne].
    + by rewrite ar_set_eq, far_imm_eq, uw_add_l, uw_add_r by done.
    + by rewrite ar_set_ne, uw_add_r by done.
Qed.

(** Of the address in a register, in either form. *)
Lemma at_register_performs l r t u : areg r -> areg t ->
  performs u (if size_number sz =? 2 then (if l : bool then asm_xtensa_op_l32i_n else asm_xtensa_op_s32i_n) r t 0
              else asm_xtensa_op24 (ASM_XTENSA_ENCODE_RRI8 2 (access_number l sz) t r 0))
    (fun mc => access l sz r (ar t mc) mc).
Proof using.
  intros Hr Ht. destruct (Z.eqb_spec (size_number sz) 2) as [E|_].
  - assert (sz = Word) as -> by by destruct sz.
    eapply performs_ext; [|by apply (xtensa_narrow_performs u l r t Hr Ht 0)].
    intros mc. cbv beta. by rewrite Z.add_0_r, u32_ar.
  - eapply performs_ext; [|by apply (xtensa_rri8_performs u l r t Hr Ht sz 0)].
    intros mc. cbv beta. by rewrite Z.mul_0_r, Z.add_0_r, u32_ar.
Qed.
Lemma narrow_near : (size_number sz =? 2) && MP_FIT_UNSIGNED 4 off = true -> sz = Word /\ 0 <= off < 16.
Proof using Hoff.
  intros [Hs%Z.eqb_eq Hf]%andb_prop. apply MP_FIT_UNSIGNED_spec in Hf; [|done|simpl in *; lia]. split; [by destruct sz|done].
Qed.
Lemma fit_near : MP_FIT_UNSIGNED 8 off = (off <? 256).
Proof using Hoff.
  apply eq_bool_prop_intro. rewrite !Is_true_true, Z.ltb_lt, (MP_FIT_UNSIGNED_spec 8 off) by (done || simpl in *; lia).
  change (2 ^ 8) with 256. lia.
Qed.
Lemma far_imm_near : off < 256 -> imm_consts (far_imm sz off) = 0.
Proof using. intros Ho. unfold far_imm. by rewrite ltb_true. Qed.
Lemma after_imm_near : off < 256 -> after_imm s (far_imm sz off) = s.
Proof using. intros Ho. unfold after_imm. by rewrite far_imm_near. Qed.

(** Loads and stores, through [t] if the offset is far. *)
Definition offset_access (l : bool) (r t : Z) : M asm_xtensa_t unit :=
  let narrow := if l then asm_xtensa_op_l32i_n else asm_xtensa_op_s32i_n in
  assert_ (size_number sz <=? 2) "Operation size value out of range.";;
  if (size_number sz =? 2) && MP_FIT_UNSIGNED 4 off then narrow r rb off
  else if MP_FIT_UNSIGNED 8 off then
    asm_xtensa_op24 (ASM_XTENSA_ENCODE_RRI8 2 (access_number l sz) rb r off)
  else
    asm_xtensa_mov_reg_i32_optimised t (u32 (off << size_number sz));;
    asm_xtensa_op_add_n t rb t;;
    if size_number sz =? 2 then narrow r t 0
    else asm_xtensa_op24 (ASM_XTENSA_ENCODE_RRI8 2 (access_number l sz) t r 0).
Lemma load_offset_access : asm_xtensa_load_reg_reg_offset rd rb off (size_number sz) = offset_access true rd rd.
Proof using. done. Qed.
Lemma store_offset_access : asm_xtensa_store_reg_reg_offset rd rb off (size_number sz) = offset_access false rd REG_TEMP.
Proof using. done. Qed.

Lemma offset_access_implements l r t : areg r -> areg t -> imm_room s (far_imm sz off) ->
  implements_when (fun _ => imm_in_memory s (far_imm sz off)) s (after_imm s (far_imm sz off)) (offset_access l r t)
    (fun n mc mc' => mc' = set_pc (u32 (pc mc + n))
       (let a := u32 ((if (256 <=? off) && (rb =? t) then K else ar rb mc) + K) in
        access l sz r a (in_temp sz off t a mc))).
Proof using Hb Hoff.
  intros Hr Ht Hroom. unfold offset_access. cbv zeta.
  apply when_assert; [by destruct sz|].
  destruct (_ && _) eqn:En.
  { destruct (narrow_near En) as [E Ho]. rewrite after_imm_near by lia. rewrite E. eapply when_mono;
      [apply (when_implements (fun _ _ => True)), (xtensa_narrow_performs s l r rb Hr Hb off Ho)|done|].
    intros n mc mc' ->. unfold in_temp. by rewrite (proj2 (Z.leb_gt 256 off)), ltb_true by lia. }
  rewrite fit_near. destruct (Z.ltb_spec off 256) as [Hn|Hf].
  { rewrite after_imm_near by lia. eapply when_mono;
      [apply (when_implements (fun _ _ => True)), (xtensa_rri8_performs s l r rb Hr Hb sz off); lia|done|].
    intros n mc mc' ->. unfold in_temp. by rewrite (proj2 (Z.leb_gt 256 off)), ltb_true by lia. }
  assert (u32 (off << size_number sz) = far_imm sz off) as -> by (unfold far_imm; by rewrite ltb_false).
  eapply when_mono; [apply (far_access_implements l r t _ Hr Ht Hf Hroom); intros u; by apply at_register_performs|done|].
  intros n mc mc' ->. cbv zeta. unfold in_temp. rewrite leb_true, ltb_false by lia. simpl. rewrite ar_set_eq. f_equal. f_equal.
  apply set_ar_cong. by rewrite uw_uw.
Qed.

(** A load goes through its destination: nothing else changes.  A store leaves
    the address in the temporary. *)
Lemma xtensa_offset_loads : imm_room s (far_imm sz off) ->
  implements_when (fun _ => imm_in_memory s (far_imm sz off)) s (after_imm s (far_imm sz off))
    (asm_xtensa_load_reg_reg_offset rd rb off (size_number sz))
    (fun n mc mc' => mc' = set_pc (u32 (pc mc + n))
       (access true sz rd (u32 ((if (256 <=? off) && (rb =? rd) then K else ar rb mc) + K)) mc)).
Proof using Hd Hb Hoff.
  intros Hroom. rewrite load_offset_access. eapply when_mono; [by apply offset_access_implements|done|].
  intros n mc mc' ->. f_equal. unfold in_temp. destruct (off <? 256); [done|]. unfold access. by rewrite set_ar_set.
Qed.
Lemma xtensa_offset_stores : imm_room s (far_imm sz off) -> off < 256 \/ rb <> REG_TEMP /\ rd <> REG_TEMP ->
  implements_when (fun _ => imm_in_memory s (far_imm sz off)) s (after_imm s (far_imm sz off))
    (asm_xtensa_store_reg_reg_offset rd rb off (size_number sz))
    (fun n mc mc' => mc' = set_pc (u32 (pc mc + n))
       (let a := u32 (ar rb mc + K) in in_temp sz off REG_TEMP a (access false sz rd a mc))).
Proof using Hd Hb Hoff.
  intros Hroom Hne. rewrite store_offset_access.
  assert (areg REG_TEMP) as Ht by (unfold REG_TEMP; by destruct N_XTENSAWIN).
  eapply when_mono; [by apply offset_access_implements|done|].
  intros n mc mc' ->. cbv zeta. f_equal. unfold in_temp. destruct (Z.ltb_spec off 256) as [Ho|Ho].
  { by rewrite (proj2 (Z.leb_gt 256 off)) by lia. }
  destruct Hne as [|[H1 H2]]; [lia|]. rewrite leb_true by lia. rewrite (proj2 (Z.eqb_neq _ _) H1). simpl.
  by rewrite ar_set_ne.
Qed.
End Offsets.

(** The word at an index of a table is loaded in the same way. *)
Lemma l32i_optimised_eq `{PyMisc} rd rb off : 0 <= off < 2 ^ 32 ->
  asm_xtensa_l32i_optimised rd rb off = asm_xtensa_load_reg_reg_offset rd rb off (size_number Word).
Proof.
  intros Ho. unfold asm_xtensa_l32i_optimised, asm_xtensa_load_reg_reg_offset. change (size_number Word) with 2.
  assert (MP_FIT_UNSIGNED 4 off = (off <? 16)) as E4.
  { apply eq_bool_prop_intro. rewrite !Is_true_true, Z.ltb_lt, (MP_FIT_UNSIGNED_spec 4 off) by (done || simpl in *; lia).
    change (2 ^ 4) with 16. lia. }
  rewrite E4, (fit_near off Ho). destruct (Z.ltb_spec off 16); [done|]. destruct (Z.ltb_spec off 256).
  - unfold asm_xtensa_op_l32i. change 0xff with (Z.ones 8). rewrite Z.land_ones, Z.mod_small by (done || simpl; lia). done.
  - change (2 =? 2) with true. cbn [andb]. by rewrite Z.shiftl_mul_pow2 by done.
Qed.

(** ** Indices *)

(** The address is left in the base register. *)
Definition index_access (l : bool) (sz : size) (r rb ri : Z) (mc : machine) : machine :=
  let a := u32 (ar rb mc + scale sz * ar ri mc) in access l sz r a (set_ar rb a mc).
Definition index_load (sz : size) : Z -> Z -> Z -> M asm_xtensa_t unit :=
  match sz with
  | Byte => GenericApi.ASM_LOAD8_REG_REG_REG | Half => GenericApi.ASM_LOAD16_REG_REG_REG | Word => GenericApi.ASM_LOAD32_REG_REG_REG
  end.
Definition index_store (sz : size) : Z -> Z -> Z -> M asm_xtensa_t unit :=
  match sz with
  | Byte => GenericApi.ASM_STORE8_REG_REG_REG | Half => GenericApi.ASM_STORE16_REG_REG_REG | Word => GenericApi.ASM_STORE32_REG_REG_REG
  end.

Section Indices.
Context (s : asm_xtensa_t) (r rb ri : Z) (Hr : areg r) (Hb : areg rb) (Hi : areg ri).

Lemma xtensa_index_access_performs (l : bool) sz add m op : In (add, op) xtensa_binary ->
  (forall a b, binop_exec op a b = b + scale sz * a) ->
  (forall u, performs u m (fun mc => access l sz r (ar rb mc) mc)) ->
  performs s (add rb ri rb;; m) (index_access l sz r rb ri).
Proof using Hb Hi.
  intros Hin Hop Hm. eapply performs_ext; [|eapply (performs_seq s (add rb ri rb) m _ (fun mc => access l sz r (ar rb mc) mc));
    [by apply (xtensa_binary_performs s rb ri rb Hb Hi Hb add op)|done|intros a mc; by destruct l|intros bs; apply Hm]].
  intros mc. cbv beta zeta. unfold index_access. rewrite ar_set_eq, Hop. f_equal. apply set_ar_cong. by rewrite uw_uw.
Qed.
Lemma index_performs sz : performs s (index_load sz r rb ri) (index_access true sz r rb ri)
  /\ performs s (index_store sz r rb ri) (index_access false sz r rb ri).
Proof using Hr Hb Hi.
  pose proof (fun l u => at_register_performs sz l r rb u Hr Hb) as Hm.
  destruct sz; split; [eapply (xtensa_index_access_performs true _ asm_xtensa_op_add_n _ ADD)|eapply (xtensa_index_access_performs false _ asm_xtensa_op_add_n _ ADD)
    |eapply (xtensa_index_access_performs true _ asm_xtensa_op_addx2 _ ADDX2)|eapply (xtensa_index_access_performs false _ asm_xtensa_op_addx2 _ ADDX2)
    |eapply (xtensa_index_access_performs true _ asm_xtensa_op_addx4 _ ADDX4)|eapply (xtensa_index_access_performs false _ asm_xtensa_op_addx4 _ ADDX4)];
    first [exact (Hm true)|exact (Hm false)|by (intros a b; unfold binop_exec, scale; lia)|simpl; tauto].
Qed.
End Indices.

(** ** Locals *)

Section Locals.
Context (s : asm_xtensa_t) (r : Z) (Hr : areg r).

(** The displacement of a local has eight bits, in words. *)
Lemma local_performs (l : bool) n : 0 <= n < 2 ^ 31 ->
  performs s ((if l then fun n r => asm_xtensa_mov_reg_local r n else asm_xtensa_mov_local_reg) n r)
    (fun mc => access l Word r (u32 (ar 1 mc + 4 * (n mod 256))) mc).
Proof using Hr.
  intros Hn. assert (areg 1) as H1 by done.
  assert ((u32 n .& 0xff) = n mod 256) as E by (rewrite uw_small by (simpl in *; lia); apply (Z.land_ones n 8); done).
  pose proof (Z.mod_pos_bound n 256 eq_refl).
  destruct l; unfold asm_xtensa_mov_reg_local, asm_xtensa_mov_local_reg, asm_xtensa_op_l32i, asm_xtensa_op_s32i; rewrite E.
  - by apply (xtensa_rri8_performs s true r 1 Hr H1 Word).
  - by apply (xtensa_rri8_performs s false r 1 Hr H1 Word).
Qed.

(** The distance of its address has twelve, signed. *)
Lemma local_addr_performs n : r <> 1 -> 0 <= n ->
  performs s (asm_xtensa_mov_reg_local_addr r n) (fun mc => set_ar r (ar 1 mc + sw 12 (4 * n)) mc).
Proof using Hr.
  intros Hne Hn. assert (areg 1) as H1 by done. unfold asm_xtensa_mov_reg_local_addr, WORD_SIZE.
  assert (sw 12 (s32 (u32 (n * 4))) = sw 12 (4 * n)) as Esw.
  { rewrite sw_uw by done. rewrite <- (sw_uw 12 eq_refl (s32 _)), <- (sw_uw 12 eq_refl (4 * n)). f_equal. clear. word_lia. }
  rewrite xtensa_signed_fit8. destruct (_ && _) eqn:E.
  - apply andb_prop in E as [?%Z.leb_le ?%Z.ltb_lt]. rewrite <- Esw, (sw_small 12) by (done || pow_lia).
    apply (xtensa_addi_performs s r 1); done || pow_lia.
  - eapply performs_ext; [|eapply (performs_seq _ _ _ _ (fun mc => set_ar r (ar r mc + ar 1 mc) mc));
      [by apply (xtensa_movi_performs s r Hr)|done|done|intros bs; by apply (xtensa_binary_performs _ r r 1 Hr Hr H1 _ ADD); left]].
    intros mc. cbv beta. rewrite set_ar_set, ar_set_eq, ar_set_ne, Esw by done.
    apply set_ar_cong. rewrite uw_add_l by done. f_equal. lia.
Qed.
End Locals.
