(* ===== verification/AsmXtensaJump.v ===== *)
(** * AsmXtensaJump: branches, calls and the addresses of labels of asmxtensa.c

    A branch to a label before it is short if that reaches; otherwise the
    inverted branch skips a jump.  The address of a label is the program
    counter, which a CALL0 leaves in A0, plus a distance. *)

From S2P Require Import Prelude AsmBase TwoPass PyMisc Machine Emission AsmXtensa AsmXtensaPass XtensaIsa AsmXtensaInstr AsmXtensaImm AsmXtensaMem.

Set Default Goal Selector "!".

#[local] Existing Instance SizeT_32.
#[local] Hint Extern 0 Isa => exact Xtensa : typeclass_instances.

(** ** Labels *)

(** The label is at [dest], and that and the code are within the reach of the
    18 bits of a jump. *)
Record xtensa_label (s : asm_xtensa_t) (label dest : Z) : Prop := {
  label_max : label < max_num_labels (base s);
  label_at : label_offsets (base s) !! Z.to_nat label = Some dest;
  label_dest_range : 0 <= dest <= xtensa_limit;
  label_offset_range : 0 <= code_offset (base s) <= xtensa_limit;
}.

Lemma get_label_dest_bind {A} s label dest (k : Z -> M asm_xtensa_t A) : xtensa_label s label dest ->
  (get_label_dest label ≫= k) s = k dest s.
Proof.
  intros [Hm Ha _ _]. unfold get_label_dest. eapply bind_Ok, on_base_pure. by apply label_dest_ok.
Qed.

(** Taken with the displacement [d], falling through behind [n] bytes. *)
Definition branches (c : machine -> bool) (d n : Z) (mc mc' : machine) : Prop :=
  mc' = set_pc (u32 (pc mc + (if c mc then d else n))) mc.
Definition jumps_to (d : Z) : Z -> machine -> machine -> Prop := fun _ mc mc' => mc' = set_pc (u32 (pc mc + d)) mc.

Section Labels.
Context (s : asm_xtensa_t) (label dest : Z) (Hl : xtensa_label s label dest).
Abbreviation o := (code_offset (base s)).
Abbreviation d := (dest - o).

Lemma xtensa_rel : s32 (d - 4) = d - 4.
Proof using Hl. destruct Hl. unfold xtensa_limit in *. apply sw_small; [done|]. simpl in *. lia. Qed.

Lemma xtensa_j_implements : implements s (asm_xtensa_j_label label) (jumps_to d).
Proof using Hl.
  eapply (implements_ext _ _ (asm_xtensa_op_j (d - 4))).
  { unfold asm_xtensa_j_label. rewrite (get_label_dest_bind s label dest) by done. rewrite gets_bind. by rewrite xtensa_rel. }
  eapply assembles_implements; [apply xtensa_j_assembles|]. intros mc _. eexists. split; [done|].
  unfold jumps_to, branch. destruct Hl. unfold xtensa_limit in *. rewrite sw_small by (done || simpl in *; lia). do 2 f_equal. lia.
Qed.

(** ** Conditional branches *)

Section Branch.
Context (fits : Z -> bool) (w : string) (short : Z -> Z) (inverted : Z) (c : machine -> bool).
Context (i_short : Z -> xtensa_instr) (i_inverted : xtensa_instr).
Hypothesis short_ok : forall rel, fits rel = true -> - 2 ^ 31 <= rel < 2 ^ 31 ->
  assembles s (asm_xtensa_op24 (short rel)) [(i_short rel, 3)]
  /\ forall mc, xtensa_insn_exec (i_short rel) 3 mc = Some (branch (c mc) rel (u32 (pc mc + 3)) mc).
Hypothesis inverted_ok : assembles s (asm_xtensa_op24 inverted) [(i_inverted, 3)]
  /\ forall mc, xtensa_insn_exec i_inverted 3 mc = Some (branch (negb (c mc)) 2 (u32 (pc mc + 3)) mc).

Lemma branch_label_implements : implements s (branch_label fits w short inverted label) (branches c d).
Proof using Hl short_ok inverted_ok.
  pose proof Hl as [_ _ Hd Ho].
  assert (branch_rel dest o = d - 4) as Erel by apply xtensa_rel.
  eapply (implements_ext _ _ (if negb (dest =? u32 (-1)) && (d - 4 <? 0) && fits (d - 4) then asm_xtensa_op24 (short (d - 4))
    else asm_xtensa_op24 inverted;; asm_xtensa_op_j (d - 4 - 3))).
  { unfold branch_label. rewrite xtensa_branch_label_eq. fold (get_label_dest label).
    rewrite (get_label_dest_bind s label dest) by done. rewrite gets_bind. change (base_of s) with (base s). rewrite Erel.
    destruct (_ && fits (d - 4)); [done|]. rewrite gets_bind.
    pose proof (xtensa_branch_in_range dest o Ho (or_intror Hd)) as Hf. rewrite Erel in Hf. rewrite Hf, andb_false_r.
    rewrite (sw_small 32 eq_refl (d - 4 - 3)) by (unfold xtensa_limit in *; simpl in *; lia). done. }
  unfold xtensa_limit in *. destruct (_ && fits (d - 4)) eqn:E.
  - apply andb_prop in E as [_ Hf]. destruct (short_ok (d - 4) Hf) as [Ha Hx]; [simpl in *; lia|].
    eapply assembles_implements; [exact Ha|]. intros mc _. eexists. split; [|done].
    cbn [exec_straight]. cbn [exec Xtensa]. rewrite Hx. cbn [mbind option_bind]. unfold branches, branch. do 2 f_equal.
    destruct (c mc); [f_equal; lia|done].
  - destruct inverted_ok as [Ha Hx].
    eapply assembles_implements_prefix; [apply (assembles_seq (H0 := Xtensa) s _ _ [(i_inverted, 3)] [(J (sw 18 (d - 4 - 3)), 3)] Ha); intros bs _; apply xtensa_j_assembles|].
    intros mc _. rewrite sw_small by (done || simpl in *; lia).
    assert (xtensa_insn_exec i_inverted 3 mc = Some (branch (negb (c mc)) 2 (u32 (pc mc + 3)) mc)) as Hx' by apply Hx.
    unfold branch in Hx'. destruct (c mc) eqn:Ec; simpl in Hx'.
    + exists 2%nat. eexists. split.
      * cbn [take app]. rewrite (exec_straight_cons (H := Xtensa) _ _ _ _ _ Hx') by done. reflexivity.
      * unfold branches, branch. rewrite Ec. unfold set_pc. simpl. f_equal. rewrite <- (Z.add_assoc (u32 (pc mc + 3)) 4), uw_add_l by done. f_equal. lia.
    + exists 1%nat. eexists. split; [transitivity (m' ← xtensa_insn_exec i_inverted 3 mc; Some m'); [done|by rewrite Hx']|].
      unfold branches. rewrite Ec. change (code_len _) with 6. do 2 f_equal. lia.
Qed.
End Branch.

Lemma bccz_implements c r : 0 <= c < 4 -> areg r ->
  implements s (asm_xtensa_bccz_reg_label c r label) (branches (fun mc => zero_holds (zero_test_of c) (ar r mc)) d).
Proof using Hl.
  intros Hc Hr. apply (branch_label_implements SIGNED_FIT12 _ (fun rel => ASM_XTENSA_ENCODE_BRI12 6 r c 1 (rel .& 0xfff))
    (ASM_XTENSA_ENCODE_BRI12 6 r (c .^ 1) 1 ((6 - 4) .& 0xfff)) _ (fun rel => BZ (zero_test_of c) r rel) (BZ (zero_test_of (c .^ 1)) r 2)).
  - intros rel Hf Hrel. split; [|done]. rewrite xtensa_signed_fit12, sw_small in Hf by done. apply andb_prop in Hf as [?%Z.leb_le ?%Z.ltb_lt].
    rewrite <- (sw_small 12 eq_refl rel) at 2 by (simpl in *; lia). by apply (xtensa_bccz_assembles s c r rel).
  - split; [apply (xtensa_bccz_assembles s (c .^ 1) r 2); [by enumerate 4%nat c|done]|]. intros mc. cbn [xtensa_insn_exec]. do 2 f_equal.
    enumerate 4%nat c; simpl; unfold zero_holds; by rewrite ?negb_involutive, ?Z.leb_antisym, ?negb_involutive.
Qed.
Lemma bcc_implements c r1 r2 t : 0 <= c < 16 -> test_of (c mod 8) = Some t -> areg r1 -> areg r2 ->
  implements s (asm_xtensa_bcc_reg_reg_label c r1 r2 label) (branches (fun mc => holds (8 <=? c) t (ar r1 mc) (ar r2 mc)) d).
Proof using Hl.
  intros Hc Ht H1 H2. apply (branch_label_implements SIGNED_FIT8 _ (fun rel => ASM_XTENSA_ENCODE_RRI8 7 c r1 r2 (rel .& 0xff))
    (ASM_XTENSA_ENCODE_RRI8 7 (c .^ 8) r1 r2 ((6 - 4) .& 0xff)) _ (fun rel => B (8 <=? c) t r1 r2 rel) (B (negb (8 <=? c)) t r1 r2 2)).
  - intros rel Hf Hrel. split; [|done]. rewrite xtensa_signed_fit8, sw_small in Hf by done. apply andb_prop in Hf as [?%Z.leb_le ?%Z.ltb_lt].
    rewrite <- (sw_small 8 eq_refl rel) at 2 by (simpl in *; lia). by apply (xtensa_bcc_assembles s c r1 r2 t rel).
  - replace (negb (8 <=? c)) with (8 <=? (c .^ 8)) by by enumerate 16%nat c.
    split; [apply (xtensa_bcc_assembles s (c .^ 8) r1 r2 t 2); [by enumerate 16%nat c|by revert Ht; enumerate 16%nat c|done|done]|].
    intros mc. cbn [xtensa_insn_exec]. do 2 f_equal. replace (8 <=? (c .^ 8)) with (negb (8 <=? c)) by by enumerate 16%nat c.
    unfold holds. by rewrite negb_xorb_l.
Qed.
End Labels.

(** ** Conditions as values, and calls *)

Lemma setcc_performs s c t rd r1 r2 : 0 <= c < 16 -> test_of (c mod 8) = Some t -> areg rd -> areg r1 -> areg r2 -> rd <> r1 -> rd <> r2 ->
  performs s (asm_xtensa_setcc_reg_reg_reg c rd r1 r2)
    (fun mc => set_ar rd (Z.b2z (holds (8 <=? c) t (ar r1 mc) (ar r2 mc))) mc).
Proof.
  intros Hc Ht Hd H1 H2 Hn1 Hn2. eapply assembles_implements_prefix.
  - apply (assembles_seq (H0 := Xtensa) s _ _ [(MOVI rd 1, 2)] [(B (8 <=? c) t r1 r2 (sw 8 1), 3); (MOVI rd 0, 2)]); [by apply xtensa_movi_n_assembles|].
    intros bs _. apply (assembles_seq (H0 := Xtensa) _ _ _ [(B (8 <=? c) t r1 r2 (sw 8 1), 3)] [(MOVI rd 0, 2)]); [by apply xtensa_bcc_assembles|].
    intros cs _. by apply xtensa_movi_n_assembles.
  - intros mc _. change (code_len _) with 7. set (m1 := set_pc (u32 (pc mc + 2)) (set_ar rd 1 mc)).
    assert (xtensa_insn_exec (MOVI rd 1) 2 mc = Some m1) as E1 by done.
    assert (xtensa_insn_exec (B (8 <=? c) t r1 r2 (sw 8 1)) 3 m1 = Some (branch (holds (8 <=? c) t (ar r1 mc) (ar r2 mc)) 1 (u32 (pc m1 + 3)) m1)) as E2.
    { cbn [xtensa_insn_exec]. unfold m1. change (ar ?r (set_pc _ ?m)) with (ar r m). by rewrite !ar_set_ne by done. }
    destruct (holds _ _ _ _).
    + exists 2%nat, (branch true 1 (u32 (pc m1 + 3)) m1). split; [cbn [take app]; rewrite (exec_straight_cons (H := Xtensa) _ _ _ _ _ E1) by done;
        transitivity (m' ← xtensa_insn_exec (B (8 <=? c) t r1 r2 (sw 8 1)) 3 m1; Some m'); [done|by rewrite E2]|].
      unfold branch, m1, set_pc. simpl. f_equal. rewrite <- (Z.add_assoc (u32 (pc mc + 2)) 4), uw_add_l by done. f_equal. lia.
    + set (m2 := set_pc (u32 (pc m1 + 3)) m1). exists 3%nat, (set_pc (u32 (pc m2 + 2)) (set_ar rd 0 m2)).
      split; [cbn [take app]; by rewrite (exec_straight_cons (H := Xtensa) _ _ _ _ _ E1), (exec_straight_cons (H := Xtensa) _ _ _ _ _ E2) by done|].
      transitivity (set_pc (u32 (u32 (u32 (pc mc + 2) + 3) + 2)) (set_ar rd 0 (set_ar rd 1 mc))); [done|].
      rewrite set_ar_set, uw_add_l, <- Z.add_assoc, uw_add_l by done. do 2 f_equal. lia.
Qed.

Lemma jx_implements s r : areg r -> implements s (asm_xtensa_op_jx r) (fun _ mc mc' => mc' = set_pc (ar r mc) mc).
Proof.
  intros Hr. eapply assembles_implements; [by apply xtensa_jx_assembles|]. intros mc _. by eexists.
Qed.

(** A call of entry [idx] of the function table: that entry is loaded, in both
    conventions into the register that the return address then takes. *)
Definition table_entry (r idx : Z) (mc : machine) : Z := load 32 4 (mem mc) (u32 (ar r mc + 4 * idx)).
Definition called (next : Z) (mc : machine) : machine := set_ar 0 next mc.
Definition called_win (next : Z) (mc : machine) : machine := set_reg CALLINC 2 (set_ar 8 (window_link 2 next) mc).

Section Calls.
Context `{Misc : PyMisc} (s : asm_xtensa_t) (idx : Z) (Hidx : 0 <= idx < 2 ^ 32) (Hroom : imm_room s (far_imm Word idx)).

Lemma call_implements r b (call : M asm_xtensa_t unit) i (f : Z -> machine -> machine) : areg r -> areg b -> b <> r ->
  (forall u, assembles u call [(i, 3)]) ->
  (forall mc, xtensa_insn_exec i 3 mc = Some (set_pc (ar r mc) (f (u32 (pc mc + 3)) mc))) ->
  (forall next v mc, f next (set_ar r v mc) = f next mc) -> (forall next, pc_blind (f next)) ->
  implements_when (fun _ => imm_in_memory s (far_imm Word idx)) s (after_imm s (far_imm Word idx))
    (asm_xtensa_l32i_optimised r b idx;; call)
    (fun n mc mc' => mc' = set_pc (u32 (table_entry b idx mc)) (f (u32 (pc mc + n)) mc)).
Proof using Misc Hidx Hroom.
  intros Hr Hb Hne Hcall Hx Hf Hpc. eapply when_mono; [eapply (when_then_to (fun _ => imm_in_memory s (far_imm Word idx))
    (fun _ => imm_in_memory s (far_imm Word idx)) (fun _ _ => True) s _ _ _ _
    (fun n mc mc1 => mc1 = set_pc (u32 (pc mc + n)) (access true Word r (u32 ((if (256 <=? idx) && (b =? r) then 4 * idx else ar b mc) + 4 * idx)) mc))
    (fun n mc1 mc2 => n = 3 /\ mc2 = set_pc (ar r mc1) (f (u32 (pc mc1 + 3)) mc1)))|done|].
  - rewrite (l32i_optimised_eq r b idx Hidx). eapply when_mono; [by apply (xtensa_offset_loads s Word r b idx)|done|]. by intros n mc mc' ->.
  - done.
  - intros bs. apply when_implements. eapply assembles_implements; [apply Hcall|]. intros mc _. exists (set_pc (ar r mc) (f (u32 (pc mc + 3)) mc)).
    split; [|done]. transitivity (m' ← xtensa_insn_exec i 3 mc; Some m'); [done|by rewrite Hx].
  - done.
  - intros n mc mc' (n1 & n2 & mc1 & -> & _ & -> & -> & ->). rewrite (proj2 (Z.eqb_neq _ _) Hne), andb_false_r.
    cbn [access bytes]. change (ar r (set_pc _ ?m)) with (ar r m). change (pc (set_pc ?a _)) with a. rewrite ar_set_eq, Hpc, Hf.
    rewrite uw_add_l, <- Z.add_assoc by done. done.
Qed.
Lemma xtensa_call_ind_implements :
  implements_when (fun _ => imm_in_memory s (far_imm Word idx)) s (after_imm s (far_imm Word idx)) (asm_xtensa_call_ind idx)
    (fun n mc mc' => mc' = set_pc (u32 (table_entry 15 idx mc)) (called (u32 (pc mc + n)) mc)).
Proof using Misc Hidx Hroom.
  apply (call_implements 0 15 _ (CALLX0 0)); try done; [intros u; by apply xtensa_callx0_assembles|].
  intros next v mc. apply set_ar_set.
Qed.
Lemma xtensa_call_ind_win_implements :
  implements_when (fun _ => imm_in_memory s (far_imm Word idx)) s (after_imm s (far_imm Word idx)) (asm_xtensa_call_ind_win idx)
    (fun n mc mc' => mc' = set_pc (u32 (table_entry 7 idx mc)) (called_win (u32 (pc mc + n)) mc)).
Proof using Misc Hidx Hroom.
  apply (call_implements 8 7 _ (CALLX8 8)); try done; [intros u; by apply xtensa_callx8_assembles|].
  intros next v mc. unfold called_win. by rewrite set_ar_set.
Qed.
End Calls.

(** ** The address of a label *)

(** The code lies at a multiple of 4. *)
Definition placed (s : asm_xtensa_t) (mc : machine) : Prop := (pc mc - code_offset (base s)) mod 4 = 0.
(** CALL0 goes to the next multiple of 4 behind the padding. *)
Lemma pcrel_target a o : (a - o) mod 4 = 0 -> let o1 := o + 3 in
  u32 (word_down (a + 3) + 4 + 4 * (o1 >> 1 .& 1)) = u32 (a + 6 + (5 - o1) mod 4).
Proof.
  intros Hp. cbv zeta. unfold word_down. rewrite ldiff_3.
  assert ((u32 (a + 3)) mod 4 = (o + 3) mod 4) as ->.
  { unfold uw. rewrite Z.mod_mod_divide by by exists (2 ^ 30). clear -Hp. Z.to_euclidean_division_equations. lia. }
  assert (o + 3 >> 1 .& 1 = (o + 3) / 2 mod 2) as ->.
  { rewrite Z.shiftr_div_pow2 by done. by apply (Z.land_ones _ 1). }
  replace (u32 (a + 3) - (o + 3) mod 4 + 4 + 4 * ((o + 3) / 2 mod 2)) with (u32 (a + 3) + (4 + 4 * ((o + 3) / 2 mod 2) - (o + 3) mod 4)) by lia.
  rewrite uw_add_l by done. f_equal. clear. Z.to_euclidean_division_equations. lia.
Qed.

Section Pcrel.
Context (s : asm_xtensa_t) (rd label dest : Z) (Hd : areg rd) (Hne : rd <> 0) (Hl : xtensa_label s label dest)
  (Hlive : suppress (base s) = false).
Abbreviation o := (code_offset (base s)).
(** The code behind the first instruction. *)
Definition pcrel_rest (o1 : Z) : M asm_xtensa_t unit :=
  asm_xtensa_op_call0 (o1 >> 1 .& 1);; cur_to_write_bytes (u32 (5 - o1) .& 3);; asm_xtensa_op_add_n rd rd ASM_XTENSA_REG_A0.

Lemma pcrel_eq : asm_xtensa_mov_reg_pcrel rd label s =
  (asm_xtensa_op_movi rd (dest - o - 6);; o1 ← gets (fun s => code_offset (base s)); pcrel_rest o1) s.
Proof using Hl.
  unfold asm_xtensa_mov_reg_pcrel. rewrite (get_label_dest_bind s label dest) by done. rewrite gets_bind. cbv zeta.
  destruct Hl as [_ _ Hd' Ho]. unfold xtensa_limit in *. rewrite !(sw_small 32) by (done || rewrite ?(sw_small 32) by (done || simpl in *; lia); simpl in *; lia).
  done.
Qed.
Lemma pcrel_pad x : u32 (5 - x) .& 3 = (5 - x) mod 4.
Proof using.
  change 3 with (Z.ones 2). rewrite Z.land_ones by done. unfold uw. rewrite Z.mod_mod_divide; [done|by exists (2 ^ 30)].
Qed.

(** The first two instructions: behind the padding, A0 is the address behind
    them. *)
Lemma pcrel_exec mc : placed s mc -> let rel := dest - o - 6 in
  exec_straight [(MOVI rd (sw 12 rel), 3); (CALL0 (4 * sw 18 (o + 3 >> 1 .& 1)), 3)] mc
  = Some (set_pc (u32 (pc mc + 6 + (5 - (o + 3)) mod 4)) (set_ar 0 (pc mc + 6) (set_ar rd (sw 12 rel) mc))).
Proof using.
  intros Hp rel. set (m1 := set_pc (u32 (pc mc + 3)) (set_ar rd (sw 12 rel) mc)).
  rewrite (exec_straight_cons (H := Xtensa) _ _ _ _ m1) by done.
  transitivity (Some (set_pc (u32 (word_down (pc m1) + 4 + 4 * sw 18 (o + 3 >> 1 .& 1))) (set_ar 0 (u32 (pc m1 + 3)) m1))); [done|].
  assert (sw 18 (o + 3 >> 1 .& 1) = o + 3 >> 1 .& 1) as ->.
  { pose proof (Z.land_ones (o + 3 >> 1) 1 ltac:(done)) as E. change (Z.ones 1) with 1 in E. rewrite E.
    pose proof (Z.mod_pos_bound (o + 3 >> 1) (2 ^ 1) eq_refl). apply sw_small; [done|]. simpl in *. lia. }
  f_equal. change (pc m1) with (u32 (pc mc + 3)). unfold word_down. rewrite uw_uw by done. fold (word_down (pc mc + 3)).
  rewrite (pcrel_target (pc mc) o Hp). unfold m1. set (pad := (5 - (o + 3)) mod 4).
  transitivity (set_pc (u32 (pc mc + 6 + pad)) (set_ar 0 (u32 (u32 (pc mc + 3) + 3)) (set_ar rd (sw 12 rel) mc))); [done|].
  f_equal. apply set_ar_cong. rewrite uw_uw, uw_add_l, <- Z.add_assoc by done. done.
Qed.

Lemma pcrel_implements : implements_when (fun _ => placed s) s s (asm_xtensa_mov_reg_pcrel rd label)
  (fun n mc mc' => let next := u32 (pc mc + 6) in
     mc' = set_pc (u32 (pc mc + n)) (set_ar rd (pc mc + 6 + sw 12 (dest - o - 6)) (set_ar 0 next mc))).
Proof using Hd Hne Hl Hlive.
  assert (areg 0) as H0 by done. set (rel := dest - o - 6).
  destruct (xtensa_movi_assembles s rd Hd rel) as (b1 & E1 & D1). pose proof (disasm_length _ _ D1) as L1. change (code_len _) with 3 in L1.
  destruct (xtensa_call0_assembles (puts b1 s) ((o + 3) >> 1 .& 1)) as (b2 & E2 & D2). pose proof (disasm_length _ _ D2) as L2. change (code_len _) with 3 in L2.
  set (pad := (5 - (o + 3)) mod 4). pose proof (Z.mod_pos_bound (5 - (o + 3)) 4 eq_refl : 0 <= pad < 4) as Hpad.
  set (b3 := reserved pad (puts b2 (puts b1 s))). pose proof (proj1 (reserved_bytes pad (puts b2 (puts b1 s)) (proj1 Hpad)) : Z.of_nat (length b3) = pad) as L3.
  destruct (xtensa_binary_performs (puts b3 (puts b2 (puts b1 s))) rd rd 0 Hd Hd H0 asm_xtensa_op_add_n ADD) as (b4 & E4 & R4); [by left|].
  assert (forall bs, code_offset (base (puts bs s)) = o + Z.of_nat (length bs)) as Hoff.
  { intros bs. change (base (puts bs s)) with (base_of (puts bs s)). rewrite base_of_puts, put_bytes_offset. change (base_of s) with (base s). by rewrite Hlive. }
  split; [done|]. exists (b1 ++ b2 ++ b3 ++ b4). split.
  { eapply emits_to_ext; [done|apply pcrel_eq|]. apply emits_seq; [exact E1|]. apply emits_gets. rewrite Hoff, L1. unfold pcrel_rest. rewrite pcrel_pad. fold pad.
    apply emits_seq; [exact E2|]. eapply (emits_ext _ _ ((cur_to_write_bytes pad;; mret tt);; asm_xtensa_op_add_n rd rd ASM_XTENSA_REG_A0)).
    { intros t. by rewrite bind_assoc. }
    apply emits_seq; [|exact E4]. apply emits_reserve; [lia|].
    rewrite !base_of_puts, !put_bytes_offset, put_bytes_suppress. change (base_of s) with (base s). rewrite Hlive, L1, L2.
    destruct Hl as [_ _ _ Ho]. unfold xtensa_limit in Ho. simpl in *. lia. }
  intros code mc Hw Hc Hp. change addr_width with 32 in Hc. rewrite app_assoc in Hc. apply code_at_app in Hc as [Hc1 Hc2].
  apply code_at_app in Hc2 as [_ Hc3]. rewrite length_app, Nat2Z.inj_add, L1, L2, L3 in Hc3.
  set (m2 := set_pc (u32 (pc mc + 6 + pad)) (set_ar 0 (pc mc + 6) (set_ar rd (sw 12 rel) mc))).
  pose proof (pcrel_exec mc Hp) as Hx.
  destruct (R4 code m2) as (m3 & Hr3 & ->).
  { apply uw_range; done. }
  { change (pc m2) with (u32 (pc mc + 6 + pad)). apply code_at_uw; [done|]. exact Hc3. }
  eexists. split; [eapply runs_trans; [eapply runs_straight; [exact (disasm_app _ _ _ _ D1 D2)|exact Hc1|exact Hx]|exact Hr3]|].
  rewrite !length_app, !Nat2Z.inj_add, L1, L2, L3. change (pc m2) with (u32 (pc mc + 6 + pad)).
  cbv zeta. change (binop_exec ADD) with Z.add. unfold m2. change (ar ?r (set_pc _ ?m)) with (ar r m).
  rewrite (ar_set_ne rd 0), !ar_set_eq, (set_ar_comm 0 rd) by done.
  transitivity (set_pc (u32 (u32 (pc mc + 6 + pad) + Z.of_nat (length b4)))
    (set_ar rd (u32 (sw 12 rel) + u32 (pc mc + 6)) (set_ar rd (sw 12 rel) (set_ar 0 (pc mc + 6) mc)))); [done|].
  rewrite set_ar_set, uw_add_l by done. f_equal; [f_equal; lia|].
  rewrite (set_ar_cong 0 (pc mc + 6) (u32 (pc mc + 6))) by by rewrite uw_uw.
  apply set_ar_cong. rewrite uw_add_l, uw_add_r by done. f_equal. lia.
Qed.
End Pcrel.

(** ** The inline assembler's operations on labels *)

Section Inline.
Context (s : asm_xtensa_t) (label dest : Z) (Hl : xtensa_label s label dest) (Hemit : pass (base s) = MP_ASM_PASS_EMIT).
Abbreviation o := (code_offset (base s)).
Abbreviation d := (dest - o).

Lemma xtensa_inline_rel x : -16 <= x <= 0 -> s32 (d + x) = d + x.
Proof using Hl. intros Hx. destruct Hl. unfold xtensa_limit in *. apply sw_small; [done|]. simpl in *. lia. Qed.

(** Bit [bit] of a register is set, or clear. *)
Lemma bit_branch_eq r bit c : asm_xtensa_bit_branch r bit label c s =
  if (- 2 ^ 7 <=? d - 4) && (d - 4 <? 2 ^ 7)
  then asm_xtensa_op24 (ASM_XTENSA_ENCODE_RRI8 7 (c .| bit >> 4 .& 0x01) r (bit .& 0x0F) ((d - 4) .& 0xFF)) s
  else raise "ERROR: xtensa bit_branch out of range" s.
Proof using Hl Hemit.
  unfold asm_xtensa_bit_branch. rewrite (get_label_dest_bind s label dest) by done. rewrite !gets_bind. cbv zeta.
  change (dest - o - 4) with (d + -4) at 1 2. rewrite xtensa_inline_rel by lia. rewrite Hemit, xtensa_signed_fit8, xtensa_inline_rel by lia.
  change (d + -4) with (d - 4). simpl (_ =? _). cbn [andb]. by destruct (_ && _).
Qed.
Lemma bit_branch_implements r bit (on : bool) : areg r -> 0 <= bit < 32 -> - 2 ^ 7 <= d - 4 < 2 ^ 7 ->
  implements s (asm_xtensa_bit_branch r bit label (if on then 14 else 6))
    (branches (fun mc => Bool.eqb on (Z.testbit (ar r mc) bit)) d).
Proof using Hl Hemit.
  intros Hr Hb Hd. eapply implements_ext; [rewrite bit_branch_eq, leb_true, ltb_true by lia; reflexivity|].
  eapply (assembles_implements (H0 := Xtensa) _ _ [(BBI on r bit (d - 4), 3)]).
  - ranges. rewrite <- (sw_small 8 eq_refl (d - 4) Hd) at 2. rewrite <- (sw_uw 8 eq_refl (d - 4)).
    apply xtensa_assembles_op24; autounfold with xtensa_words; [destruct on; field 3 1; reflexivity|].
    unfold decode24. set (w := uw 24 _). assert (bits w 0 4 = 7) as -> by (unfold w; destruct on; bitsolve). unfold decode_b.
    replace (bits w 16 8) with (u8 (d - 4)) by (unfold w; symmetry; destruct on; bitsolve).
    replace (bits w 8 4) with r by (unfold w; symmetry; destruct on; bitsolve).
    replace (bits w 4 4) with (bit .& 15) by (unfold w; symmetry; destruct on; bitsolve).
    replace (bits w 12 3) with (6 .| bits bit 4 1) by (unfold w; symmetry; destruct on; bitsolve).
    replace (bits w 12 1) with (bits bit 4 1) by (unfold w; symmetry; destruct on; bitsolve).
    replace (bits w 15 1) with (if on then 1 else 0) by (unfold w; symmetry; destruct on; bitsolve).
    replace (test_of _) with (@None test) by (clear -Hb; by enumerate 32%nat bit).
    replace (bits bit 4 1 << 4 .| bit .& 15) with bit by (symmetry; bitsolve). by destruct on.
  - intros mc _. eexists. split; [done|]. unfold branches, branch. change (code_len _) with 3. do 2 f_equal.
    destruct on, (Z.testbit (ar r mc) bit); simpl; try done; f_equal; lia.
Qed.

(** The label and the code behind the instruction must be multiples of 4, and
    then the displacement, in bytes, is encoded as one in words. *)
Lemma xtensa_land_3 x : (x .& 0x03) = x mod 4.
Proof using. by apply (Z.land_ones x 2). Qed.
Lemma call0_label_eq : asm_xtensa_call0 label s =
  if negb (dest mod 4 =? 0) then raise "ERROR: call0 target not word-aligned" s
  else if negb ((d - 3) mod 4 =? 0) then raise "ERROR: call0 location not word-aligned" s
  else asm_xtensa_op_call0 (d - 3) s.
Proof using Hl Hemit.
  unfold asm_xtensa_call0. rewrite (get_label_dest_bind s label dest) by done. rewrite !gets_bind. cbv zeta.
  pose proof (xtensa_inline_rel (-3) ltac:(lia)) as E. replace (d + -3) with (d - 3) in E by lia.
  rewrite E, Hemit, !xtensa_land_3, xtensa_signed_fit18, E.
  destruct Hl as [_ _ Hd Ho]. unfold xtensa_limit in *. rewrite (leb_true (- 2 ^ 17)), (ltb_true (d - 3)) by (simpl in *; lia).
  change (MP_ASM_PASS_EMIT =? MP_ASM_PASS_EMIT) with true. cbv iota.
  by destruct (negb (dest mod 4 =? 0)), (negb ((d - 3) mod 4 =? 0)).
Qed.
Lemma call0_label_implements : dest mod 4 = 0 -> (d - 3) mod 4 = 0 ->
  implements_when (fun _ => placed s) s s (asm_xtensa_call0 label)
    (fun n mc mc' => n = 3 /\ mc' = set_pc (u32 (pc mc + 3 + 4 * (d - 3))) (called (u32 (pc mc + 3)) mc)).
Proof using Hl Hemit.
  intros H4 H3. eapply when_ext; [done|rewrite call0_label_eq, H4, H3; reflexivity|].
  destruct (xtensa_call0_assembles s (d - 3)) as (bs & He & Hd). split; [done|]. exists bs. split; [done|].
  rewrite (disasm_length _ _ Hd). intros code mc Hw Hc Hp. eexists. split; [eapply runs_straight; [exact Hd|exact Hc|reflexivity]|].
  split; [done|]. unfold placed in Hp. unfold called. f_equal. destruct Hl as [_ _ Hdr Ho]. unfold xtensa_limit in *.
  rewrite sw_small by (done || simpl in *; lia). unfold word_down. rewrite ldiff_3.
  assert (u32 (pc mc) mod 4 = 1) as ->.
  { unfold uw. rewrite Z.mod_mod_divide by by exists (2 ^ 30). clear -Hp H3 H4. Z.to_euclidean_division_equations. lia. }
  replace (u32 (pc mc) - 1 + 4 + 4 * (d - 3)) with (u32 (pc mc) + (3 + 4 * (d - 3))) by lia. rewrite uw_add_l by done. f_equal. lia.
Qed.

(** A word of the code before the instruction. *)
Lemma l32r_label_eq r : asm_xtensa_l32r r label s =
  if negb (dest mod 4 =? 0) then raise "ERROR: l32r target not word-aligned" s
  else if negb (d mod 4 =? 0) then raise "ERROR: l32r location not word-aligned" s
  else if 0 <=? d then raise "ERROR: xtensa l32r out of range" s
  else asm_xtensa_op_l32r r o dest s.
Proof using Hl Hemit.
  unfold asm_xtensa_l32r. rewrite (get_label_dest_bind s label dest) by done. rewrite !gets_bind. cbv zeta.
  pose proof (xtensa_inline_rel 0 ltac:(lia)) as E. rewrite Z.add_0_r in E.
  rewrite E, Hemit, !xtensa_land_3, xtensa_signed_fit18, E.
  destruct Hl as [_ _ Hd Ho]. unfold xtensa_limit in *. rewrite (leb_true (- 2 ^ 17)), (ltb_true d) by (simpl in *; lia).
  change (MP_ASM_PASS_EMIT =? MP_ASM_PASS_EMIT) with true. cbv iota.
  by destruct (negb (dest mod 4 =? 0)), (negb (d mod 4 =? 0)), (0 <=? d).
Qed.
Lemma l32r_label_implements r : areg r -> dest mod 4 = 0 -> d mod 4 = 0 -> dest < o ->
  implements_when (fun _ => placed s) s s (asm_xtensa_l32r r label)
    (fun n mc mc' => mc' = set_pc (u32 (pc mc + n)) (set_ar r (load 32 4 (mem mc) (pc mc + d)) mc)).
Proof using Hl Hemit.
  intros Hr H4 Hd4 Hlt. eapply when_ext; [done|rewrite l32r_label_eq, H4, Hd4, (proj2 (Z.leb_gt 0 d)) by lia; reflexivity|].
  split; [done|]. eexists. split; [apply xtensa_emits_op24|].
  intros code mc Hw Hc Hp. eexists. split; [|reflexivity]. eapply runs_straight; [by apply (xtensa_disasm_l32r r o dest)|exact Hc|].
  destruct Hl as [_ _ Hdr Ho]. unfold xtensa_limit in *. apply xtensa_l32r_exec; try done; simpl in *; lia.
Qed.
End Inline.
