(* ===== verification/AsmXtensaFrame.v ===== *)
(** * AsmXtensaFrame: entry and exit of asmxtensa.c

    The table of constants that the code jumps over, the frame of a function
    that saves its registers (CALL0), and that of a function for which the
    register window is moved (CALL8). *)

From S2P Require Import Prelude AsmBase TwoPass PyMisc Machine Emission AsmXtensa AsmXtensaPass XtensaIsa AsmXtensaInstr AsmXtensaImm AsmXtensaMem.

Set Default Goal Selector "!".

#[local] Existing Instance SizeT_32.
#[local] Hint Extern 0 Isa => exact Xtensa : typeclass_instances.

(** ** Sequences of slots *)

Lemma u32_ar_add r x mc : u32 (ar r mc + x) = u32 (reg (phys r mc) mc + x).
Proof. unfold ar. by rewrite uw_add_l. Qed.

Section Slots.
Implicit Types (s : asm_xtensa_t).

(** The registers A12, ... from number [i] on, in as many slots. *)
Definition saved_from (i n : Z) (mc : machine) : list Z := (fun k => ar (11 + k) mc) <$> seqZ i n.
Lemma save_loop_performs n : forall i s, 0 < i -> i + Z.of_nat n <= 5 ->
  performs s (save_loop n i)
    (fun mc => set_mem (store_words (ar 1 mc + 4 * i) (saved_from i (Z.of_nat n) mc) (mem mc)) mc).
Proof using.
  induction n as [|n IH]; intros i s Hi Hn; cbn [save_loop].
  { eapply performs_ext; [|apply performs_ret]. by intros []. }
  eapply performs_ext; [|eapply performs_seq;
    [apply (xtensa_narrow_performs s false (11 + i) 1) with (off := i); unfold areg; lia|done| |intros bs; apply (IH (i + 1)); lia]].
  2: { done. }
  intros mc. cbv beta. unfold saved_from. rewrite Nat2Z.inj_succ, (seqZ_cons i) by lia.
  cbn [fmap list_fmap store_words access bytes].
  replace (Z.pred (Z.succ (Z.of_nat n))) with (Z.of_nat n) by lia. rewrite Z.add_1_r.
  change (ar ?r (set_mem _ mc)) with (ar r mc). change (mem (set_mem ?h _)) with h.
  change (set_mem ?h (set_mem _ mc)) with (set_mem h mc). f_equal.
  replace (ar 1 mc + 4 * Z.succ i) with (ar 1 mc + 4 * i + 4) by lia.
  rewrite (store_cong 32 eq_refl 4 _ _ (ar 1 mc + 4 * i)) by by rewrite uw_uw. done.
Qed.

Fixpoint restored (n : nat) (mc : machine) : machine :=
  match n with
  | O => mc
  | S n' => restored n' (access true Word (11 + Z.of_nat n) (u32 (ar 1 mc + 4 * Z.of_nat n)) mc)
  end.
Lemma pc_blind_restored n : pc_blind (restored n).
Proof using. induction n as [|n IH]; [done|]. intros a mc. cbn [restored]. by rewrite <- IH. Qed.
Lemma restore_loop_performs n : forall s, (n <= 4)%nat -> performs s (restore_loop n) (restored n).
Proof using.
  induction n as [|n IH]; intros s Hn; cbn [restore_loop]; [apply performs_ret|].
  apply (performs_seq _ _ _ (fun mc => access true Word (11 + Z.of_nat (S n)) (u32 (ar 1 mc + 4 * Z.of_nat (S n))) mc) (restored n));
    [apply (xtensa_narrow_performs s true (11 + Z.of_nat (S n)) 1); unfold areg; lia|done|apply pc_blind_restored|intros bs; apply IH; lia].
Qed.
Lemma restored_regs n : forall mc, (n <= 4)%nat ->
  (forall k, 1 <= k <= Z.of_nat n -> ar (11 + k) (restored n mc) = u32 (load 32 4 (mem mc) (u32 (ar 1 mc + 4 * k))))
  /\ (forall q, (forall k, 1 <= k <= Z.of_nat n -> q <> phys (11 + k) mc) -> reg q (restored n mc) = reg q mc)
  /\ mem (restored n mc) = mem mc /\ pc (restored n mc) = pc mc.
Proof using.
  induction n as [|n IH]; intros mc Hn; [cbn [restored]; split; [lia|done]|]. cbn [restored].
  set (m1 := access true Word (11 + Z.of_nat (S n)) (u32 (ar 1 mc + 4 * Z.of_nat (S n))) mc).
  assert (forall r, phys r m1 = phys r mc) as Hph by (intros r; apply phys_set_ar).
  assert (ar 1 m1 = ar 1 mc) as H1 by (apply ar_set_ne; lia).
  destruct (IH m1 ltac:(lia)) as (Hk & Ho & Hm & Hp). rewrite Hm, Hp. split; [|split; [|done]].
  - intros k Hk'. destruct (decide (k = Z.of_nat (S n))) as [->|Hne].
    + unfold ar at 1. assert (phys (11 + Z.of_nat (S n)) (restored n m1) = phys (11 + Z.of_nat (S n)) mc) as ->.
      { unfold phys. f_equal. rewrite Ho; [|intros j Hj; unfold WB, phys, at_window, file; lia].
        unfold m1. cbn [access]. unfold set_ar. rewrite reg_set_ne; [done|unfold WB, phys, at_window, file; lia]. }
      rewrite Ho by (intros j Hj; rewrite Hph, phys_inj; lia). unfold m1, set_ar. cbn [access]. unfold set_ar.
      by rewrite reg_set_eq, uw_uw.
    + rewrite Hk by lia. by rewrite H1.
  - intros q Hq. rewrite Ho by (intros k Hk'; rewrite Hph; apply Hq; lia). unfold m1. cbn [access]. unfold set_ar.
    apply reg_set_ne. apply Hq. lia.
Qed.
End Slots.

(** ** The stack pointer *)

(** The frame: five saved registers and the locals, in units of 16 bytes. *)
Definition frame_size (saved locals : Z) : Z := (saved + locals) * WORD_SIZE + 15 .& Z.lnot 15.
Lemma frame_size_range saved locals : 0 <= saved + locals < 2 ^ 28 ->
  4 * (saved + locals) <= frame_size saved locals < 4 * (saved + locals) + 16 /\ frame_size saved locals mod 16 = 0.
Proof.
  intros Hl. pose proof (align_up_least ((saved + locals) * 4) 4 ltac:(lia) ltac:(done)) as [Hd Hr].
  change (2 ^ 4) with 16 in *. replace ((saved + locals) * 4 + 16 - 1) with ((saved + locals) * 4 + 15) in * by lia.
  change (16 - 1) with 15 in *. unfold frame_size, WORD_SIZE. split; [lia|]. by apply Z.mod_divide in Hd.
Qed.
Lemma frame_size_word saved locals : 0 <= saved + locals < 2 ^ 28 ->
  s32 ((saved + locals) * WORD_SIZE + 15) .& Z.lnot 15 = frame_size saved locals.
Proof. intros Hl. unfold frame_size, WORD_SIZE. rewrite sw_small; [done..|]. simpl in *. lia. Qed.

(** Twelve bits of its size are kept, signed. *)
Definition sp_step (adj : Z) : Z := sw 12 adj.
Lemma sp_step_eq adj : 0 <= adj < 2 ^ 11 -> sp_step adj = adj.
Proof. intros. apply sw_small; [done|]. simpl in *. lia. Qed.
(** From 2048 bytes on, the stack pointer does not move down by the size. *)
Lemma sp_step_ne adj : 2 ^ 11 <= adj -> sp_step adj <> adj.
Proof. intros Ha E. pose proof (sw_range 12 eq_refl adj) as Hr. unfold sp_step in E. simpl in *. lia. Qed.

(** Of a frame that ADDI cannot hold, A9 has the size. *)
Definition with_a9 (direct : bool) (adj : Z) (mc : machine) : machine := if direct then mc else set_ar 9 (sp_step adj) mc.
Lemma ar_with_a9 b adj r mc : r <> 9 -> ar r (with_a9 b adj mc) = ar r mc.
Proof. intros. unfold with_a9. destruct b; [done|]. by apply ar_set_ne. Qed.

Section StackPointer.
Context (s : asm_xtensa_t) (adj : Z) (Hadj : 0 <= adj < 2 ^ 31).

Lemma sp_down_performs : adj mod 16 = 0 ->
  performs s (if SIGNED_FIT8 (u32 (- adj)) then asm_xtensa_op_addi ASM_XTENSA_REG_A1 ASM_XTENSA_REG_A1 (s32 (- adj))
    else asm_xtensa_op_movi ASM_XTENSA_REG_A9 (s32 adj);; asm_xtensa_op_sub ASM_XTENSA_REG_A1 ASM_XTENSA_REG_A1 ASM_XTENSA_REG_A9)
    (fun mc => set_ar 1 (ar 1 mc - sp_step adj) (with_a9 (adj <=? 128) adj mc)).
Proof using Hadj.
  intros H16. assert (areg 1 /\ areg 9) as [H1 H9] by done. rewrite xtensa_signed_fit8, sw_uw by done.
  rewrite (sw_small 32 eq_refl (- adj)), (sw_small 32 eq_refl adj) by (simpl in *; lia).
  rewrite (ltb_true (- adj)), andb_true_r by (simpl in *; lia).
  replace (- 2 ^ 7 <=? - adj) with (adj <=? 128) by (simpl; destruct (Z.leb_spec adj 128), (Z.leb_spec (-128) (- adj)); done || lia).
  unfold with_a9. destruct (Z.leb_spec adj 128).
  - eapply performs_ext; [|apply (xtensa_addi_performs s 1 1 H1 H1 (- adj)); simpl; lia].
    intros mc. cbv beta. rewrite sp_step_eq by (simpl; lia). f_equal.
  - eapply performs_ext; [|eapply (performs_seq _ _ _ _ (fun mc => set_ar 1 (ar 1 mc - ar 9 mc) mc));
      [by apply (xtensa_movi_performs s 9 H9)|done|done|intros bs; by apply (xtensa_binary_performs _ 1 1 9 H1 H1 H9 _ SUB); do 3 right; left]].
    intros mc. cbv beta. rewrite ar_set_eq, ar_set_ne by done. apply set_ar_cong. by rewrite uw_sub_r.
Qed.
Lemma sp_up_performs :
  performs s (if SIGNED_FIT8 adj then asm_xtensa_op_addi ASM_XTENSA_REG_A1 ASM_XTENSA_REG_A1 (s32 adj)
    else asm_xtensa_op_movi ASM_XTENSA_REG_A9 (s32 adj);; asm_xtensa_op_add_n ASM_XTENSA_REG_A1 ASM_XTENSA_REG_A1 ASM_XTENSA_REG_A9)
    (fun mc => set_ar 1 (ar 1 mc + sp_step adj) (with_a9 (adj <? 128) adj mc)).
Proof using Hadj.
  assert (areg 1 /\ areg 9) as [H1 H9] by done. rewrite xtensa_signed_fit8, (sw_small 32 eq_refl adj) by (simpl in *; lia).
  rewrite leb_true by lia. cbn [andb]. change (2 ^ 7) with 128. unfold with_a9. destruct (Z.ltb_spec adj 128).
  - eapply performs_ext; [|apply (xtensa_addi_performs s 1 1 H1 H1 adj); simpl; lia].
    intros mc. cbv beta. by rewrite sp_step_eq by (simpl; lia).
  - eapply performs_ext; [|eapply (performs_seq _ _ _ _ (fun mc => set_ar 1 (ar 1 mc + ar 9 mc) mc));
      [by apply (xtensa_movi_performs s 9 H9)|done|done|intros bs; by apply (xtensa_binary_performs _ 1 1 9 H1 H1 H9 _ ADD); left]].
    intros mc. cbv beta. rewrite ar_set_eq, ar_set_ne by done. apply set_ar_cong. by rewrite uw_add_r.
Qed.
End StackPointer.

(** ** The table of constants *)

(** The state behind the table. *)
Definition table_place (s : asm_xtensa_t) : option Z :=
  if suppress (base s) then None
  else if pass (base s) =? MP_ASM_PASS_EMIT then Some (code_offset (base s) + 4) else None.
Definition with_table (s : asm_xtensa_t) : asm_xtensa_t :=
  if 0 <? num_const s then set_const_table (table_place s) s else s.
Lemma with_table_base s : base (with_table s) = base s.
Proof. unfold with_table. by destruct (0 <? num_const s). Qed.

Lemma code_offset_puts s bs : code_offset (base (puts bs s))
  = if suppress (base s) then code_offset (base s) else code_offset (base s) + Z.of_nat (length bs).
Proof. change (base (puts bs s)) with (base_of (puts bs s)). by rewrite base_of_puts, put_bytes_offset. Qed.
Lemma suppress_puts s bs : suppress (base (puts bs s)) = suppress (base s).
Proof. change (base (puts bs s)) with (base_of (puts bs s)). by rewrite base_of_puts, put_bytes_suppress. Qed.
Lemma pass_puts s bs : pass (base (puts bs s)) = pass (base s).
Proof. change (base (puts bs s)) with (base_of (puts bs s)). by rewrite base_of_puts, put_bytes_pass. Qed.

Section Table.
Context (s : asm_xtensa_t) (Hn : 0 < num_const s) (HN : 4 * num_const s <= xtensa_limit)
  (Ho : 0 <= code_offset (base s) <= xtensa_limit).
Abbreviation N := (num_const s).
Definition table_code (n : Z) : M asm_xtensa_t unit :=
  asm_xtensa_op_j (4 * n);; (cur_to_write_bytes 1;; mret tt);; p ← cur_to_write_bytes (4 * n); modify (set_const_table p).
Lemma table_code_eq : jump_over_constants s = table_code N s.
Proof using Hn HN.
  unfold jump_over_constants, WORD_SIZE. rewrite gets_bind, ltb_true by done. unfold xtensa_limit in HN.
  replace (s32 (u32 (N * 4 + 4 - 4))) with (4 * N) by (rewrite sw_uw, sw_small by (done || simpl in *; lia); lia).
  replace (s32 (u32 (N * 4))) with (4 * N) by (rewrite sw_uw, sw_small by (done || simpl in *; lia); lia).
  unfold table_code, mbind, M_bind. destruct (asm_xtensa_op_j (4 * N) s) as [[[] s1]|]; [|done].
  by destruct (cur_to_write_bytes 1 s1) as [[c s2]|].
Qed.
Lemma table_code_emits : exists b1 bs, disasm b1 [(J (4 * N), 3)] /\ Z.of_nat (length bs) = 1 + 4 * N
  /\ emits_to s (set_const_table (table_place s) s) (table_code N) (b1 ++ bs).
Proof using Hn HN Ho.
  destruct (xtensa_j_assembles s (4 * N)) as (b1 & E1 & D1). unfold xtensa_limit in *.
  rewrite sw_small in D1 by (done || simpl in *; lia). pose proof (disasm_length _ _ D1) as L1. change (code_len _) with 3 in L1.
  set (s1 := puts b1 s). set (b2 := reserved 1 s1). set (s2 := puts b2 s1). set (b3 := reserved (4 * N) s2).
  pose proof (proj1 (reserved_bytes 1 s1 ltac:(done)) : Z.of_nat (length b2) = 1) as L2.
  pose proof (proj1 (reserved_bytes (4 * N) s2 ltac:(lia)) : Z.of_nat (length b3) = 4 * N) as L3.
  exists b1, (b2 ++ b3). split; [done|]. split; [rewrite length_app; lia|].
  assert (code_offset (base s1) <= code_offset (base s) + 3) as Ho1.
  { unfold s1. rewrite code_offset_puts. destruct (suppress (base s)); lia. }
  assert (code_offset (base s2) <= code_offset (base s) + 4) as Ho2.
  { unfold s2. rewrite code_offset_puts. destruct (suppress (base s1)); lia. }
  apply (emits_seq_to s s); [done|exact E1| |done].
  apply (emits_seq_to s1 s1); [done| | |done]; [apply emits_reserve; [done|]; change (base_of s1) with (base s1); simpl in *; lia|].
  apply (emits_reserve_then (4 * N) s2); [lia|change (base_of s2) with (base s2); simpl in *; lia|].
  intros bs. unfold modify. do 2 f_equal.
  replace (place s2) with (table_place s); [done|]. unfold table_place, place. change (base_of s2) with (base s2).
  unfold s2, s1. rewrite !suppress_puts, !pass_puts, !code_offset_puts, !suppress_puts. destruct (suppress (base s)); [done|].
  fold s1 b2. rewrite L1, L2. by rewrite <- Z.add_assoc.
Qed.
End Table.

(** The code falls through behind the table. *)
Lemma jump_over_constants_performs s : 0 <= num_const s -> 4 * num_const s <= xtensa_limit ->
  0 <= code_offset (base s) <= xtensa_limit ->
  implements_to s (with_table s) jump_over_constants (fun n mc mc' => mc' = set_pc (u32 (pc mc + n)) mc).
Proof.
  intros Hn HN Ho. unfold with_table. destruct (Z.ltb_spec 0 (num_const s)) as [Hp|Hp].
  - destruct (table_code_emits s Hp HN Ho) as (b1 & bs & Hd & Hl & He). pose proof (disasm_length _ _ Hd) as L1. change (code_len _) with 3 in L1.
    split; [done|]. exists (b1 ++ bs). split; [eapply emits_to_ext; [done|by apply table_code_eq|exact He]|].
    intros code mc Hw [Hc _]%code_at_app. eexists. split; [eapply runs_straight; [exact Hd|exact Hc|reflexivity]|].
    rewrite length_app, Nat2Z.inj_add, L1, Hl. unfold branch. f_equal. f_equal. lia.
  - apply implements_to_self. eapply implements_ext; [|apply (performs_ret (H0 := Xtensa) s)].
    unfold jump_over_constants. rewrite gets_bind. by rewrite ltb_false.
Qed.

(** ** Frames with saved registers *)

(** The registers that are saved, in the lowest words of the frame. *)
Definition saved_regs : list Z := [0; 12; 13; 14; 15].
Definition frame_entered (adj : Z) (mc : machine) : machine :=
  let m1 := set_ar 1 (ar 1 mc - sp_step adj) (with_a9 (adj <=? 128) adj mc) in
  set_mem (store_words (ar 1 m1) ((fun r => ar r m1) <$> saved_regs) (mem m1)) m1.
Definition frame_left (adj : Z) (mc : machine) : machine :=
  let m1 := access true Word 0 (u32 (ar 1 (restored 4 mc) + 4 * 0)) (restored 4 mc) in
  let m2 := set_ar 1 (ar 1 m1 + sp_step adj) (with_a9 (adj <? 128) adj m1) in
  set_pc (ar 0 m2) m2.
Definition in_frame (adj : Z) (s : asm_xtensa_t) : asm_xtensa_t := set_stack_adjust adj (with_table s).

Section Code.
Context (s : asm_xtensa_t) (adj : Z) (Hadj : 0 <= adj < 2 ^ 31).

Definition enter_code : M asm_xtensa_t unit :=
  (if SIGNED_FIT8 (u32 (- adj)) then asm_xtensa_op_addi ASM_XTENSA_REG_A1 ASM_XTENSA_REG_A1 (s32 (- adj))
   else asm_xtensa_op_movi ASM_XTENSA_REG_A9 (s32 adj);; asm_xtensa_op_sub ASM_XTENSA_REG_A1 ASM_XTENSA_REG_A1 ASM_XTENSA_REG_A9);;
  asm_xtensa_op_s32i_n ASM_XTENSA_REG_A0 ASM_XTENSA_REG_A1 0;; save_loop 4 1.
Lemma enter_code_performs : adj mod 16 = 0 -> performs s enter_code (frame_entered adj).
Proof using Hadj.
  intros H16. assert (areg 0 /\ areg 1) as [H0 H1] by done.
  eapply performs_ext; [|eapply (performs_seq _ _ _ _ (fun mc => set_mem (store_words (ar 1 mc) ((fun r => ar r mc) <$> saved_regs) (mem mc)) mc));
    [by apply sp_down_performs|unfold with_a9; intros a mc; by destruct (adj <=? 128)|done|intros bs]]; [done|].
  eapply performs_ext; [|eapply (performs_seq _ _ _ _ _);
    [exact (xtensa_narrow_performs _ false 0 1 H0 H1 0 ltac:(done))|done| |intros cs; by apply save_loop_performs]]; [|done].
  intros mc. cbv beta. cbn [access bytes]. change (ar ?r (set_mem _ mc)) with (ar r mc).
  change (mem (set_mem ?h _)) with h. change (set_mem ?h (set_mem _ mc)) with (set_mem h mc). f_equal.
  cbn [saved_regs fmap list_fmap store_words]. rewrite (store_cong 32 eq_refl 4 _ (u32 (ar 1 mc + 4 * 0)) (ar 1 mc)) by (rewrite uw_uw, Z.add_0_r; done).
  by replace (ar 1 mc + 4 * 1) with (ar 1 mc + 4) by lia.
Qed.

(** Code in front of code that ends in a jump which depends on registers. *)
Lemma returns_seq (t : asm_xtensa_t) m k f g : performs t m f -> pc_blind g ->
  (forall bs, implements (puts bs t) k (fun _ mc mc' => mc' = set_pc (ar 0 (g mc)) (g mc))) ->
  implements t (m;; k) (fun _ mc mc' => mc' = set_pc (ar 0 (g (f mc))) (g (f mc))).
Proof using.
  intros Hm Hg Hk. eapply implements_mono; [eapply (performs_then t m k f (fun _ mc mc' => mc' = set_pc (ar 0 (g mc)) (g mc))); [exact Hm|exact Hk]|].
  intros n mc mc' (n1 & n2 & _ & ->). by rewrite Hg.
Qed.
Lemma exit_performs : stack_adjust s = adj -> implements s asm_xtensa_exit (fun _ mc mc' => mc' = frame_left adj mc).
Proof using Hadj.
  intros Ha. assert (areg 0 /\ areg 1) as [H0 H1] by done. unfold asm_xtensa_exit.
  apply (returns_seq _ _ _ (restored 4) (fun mc => let m1 := access true Word 0 (u32 (ar 1 mc + 4 * 0)) mc in
    set_ar 1 (ar 1 m1 + sp_step adj) (with_a9 (adj <? 128) adj m1))); [by apply restore_loop_performs|unfold with_a9; intros a mc; by destruct (adj <? 128)|intros b1].
  apply (returns_seq _ _ _ _ (fun m1 => set_ar 1 (ar 1 m1 + sp_step adj) (with_a9 (adj <? 128) adj m1)));
    [exact (xtensa_narrow_performs _ true 0 1 H0 H1 0 ltac:(done))|unfold with_a9; intros a mc; by destruct (adj <? 128)|intros b2].
  apply implements_gets. change (stack_adjust (puts b2 (puts b1 s))) with (stack_adjust s). rewrite Ha.
  apply (returns_seq _ _ _ _ id); [by apply sp_up_performs|done|intros b3].
  eapply assembles_implements; [apply xtensa_ret_assembles|]. intros mc _. by eexists.
Qed.
End Code.

(** The entry: the table, then the frame. *)
Lemma when_to C s s' (m : M asm_xtensa_t unit) (P : Z -> machine -> machine -> Prop) : base_of s' = base_of s -> (forall bs mc, C bs mc) ->
  implements_when C s s' m P -> implements_to s s' m P.
Proof. intros Hb HC (_ & bs & He & HP). split; [done|]. exists bs. split; [done|]. auto. Qed.

Lemma enter_implements s adj (m k : M asm_xtensa_t unit) f : 0 <= num_const s -> 4 * num_const s <= xtensa_limit ->
  0 <= code_offset (base s) <= xtensa_limit ->
  (forall t, m t = (jump_over_constants;; modify (set_stack_adjust adj);; k) t) -> (forall t, stack_adjust t = adj -> performs t k f) -> pc_blind f ->
  implements_to s (in_frame adj s) m (fun n mc mc' => mc' = set_pc (u32 (pc mc + n)) (f mc)).
Proof.
  intros Hn HN Ho Hm Hk Hf. apply (when_to (fun _ _ => True)); [apply with_table_base|done|].
  eapply when_ext; [done|apply Hm|]. eapply when_mono; [eapply (when_then_to (fun _ _ => True) (fun _ _ => True) (fun _ _ => True) s (with_table s) (in_frame adj s)
    _ _ (fun n mc mc' => mc' = set_pc (u32 (pc mc + n)) mc) (fun n mc mc' => mc' = set_pc (u32 (pc mc + n)) (f mc)))|done|].
  - destruct (jump_over_constants_performs s Hn HN Ho) as (Hb & bs & He & HP). split; [by rewrite Hb|]. exists bs. split; [done|].
    intros code mc Hw Hc _. destruct (HP code mc Hw Hc) as (mc' & Hr & ->). by eexists.
  - done.
  - intros bs. eapply (when_ext _ _ (set_stack_adjust adj (puts bs (with_table s)))); [done|reflexivity|]. by apply when_implements, Hk.
  - done.
  - intros n mc mc' (n1 & n2 & mc1 & -> & _ & -> & ->). rewrite Hf. simpl. rewrite uw_add_l, <- Z.add_assoc by done. done.
Qed.

Lemma xtensa_entry_implements s locals : 0 <= locals < 2 ^ 27 -> 0 <= num_const s -> 4 * num_const s <= xtensa_limit ->
  0 <= code_offset (base s) <= xtensa_limit -> let adj := frame_size 5 locals in
  implements_to s (in_frame adj s) (asm_xtensa_entry locals) (fun n mc mc' => mc' = set_pc (u32 (pc mc + n)) (frame_entered adj mc)).
Proof.
  intros Hl Hn HN Ho adj. destruct (frame_size_range 5 locals ltac:(simpl in *; lia)) as [Hr H16]. fold adj in Hr, H16.
  apply (enter_implements s adj _ (enter_code adj)); [done..| | |unfold frame_entered, with_a9; intros a mc; by destruct (adj <=? 128)].
  - intros t. unfold asm_xtensa_entry. apply bind_ext. intros _ t'. unfold ASM_XTENSA_NUM_REGS_SAVED.
    rewrite frame_size_word by (simpl in *; lia). fold adj. rewrite uw_small by (simpl in *; lia).
    reflexivity.
  - intros t _. apply enter_code_performs; [simpl in *; lia|done].
Qed.

Ltac listed := by apply (bool_decide_unpack _).

(** Registers and window, but for the registers [X] of the window. *)
Definition same_but (X : list Z) (mc mc' : machine) : Prop :=
  forall q, q ∉ ((fun r => phys r mc) <$> X) -> reg q mc' = reg q mc.
Lemma same_but_wb X mc mc' : same_but X mc mc' -> reg WB mc' = reg WB mc.
Proof. intros Hs. apply Hs. intros (r & Hr & _)%list_elem_of_fmap. exact (phys_odd r 1 mc (eq_sym Hr)). Qed.
Lemma same_but_ar X mc mc' r : same_but X mc mc' -> r ∉ X -> ar r mc' = ar r mc.
Proof.
  intros Hs Hr. unfold ar, phys. rewrite (same_but_wb X mc mc' Hs). fold (phys r mc). rewrite Hs; [done|].
  intros (q & Hq & Hin)%list_elem_of_fmap. apply phys_inj in Hq. by subst.
Qed.
Lemma same_but_set X r v mc : r ∈ X -> same_but X mc (set_ar r v mc).
Proof. intros Hin q Hq. unfold set_ar. apply reg_set_ne. intros ->. apply Hq. apply list_elem_of_fmap. eauto. Qed.
Lemma same_but_trans X mc m1 m2 : same_but X mc m1 -> same_but X m1 m2 -> same_but X mc m2.
Proof.
  intros H1 H2 q Hq. rewrite H2; [by apply H1|]. intros Hin. apply Hq. revert Hin. rewrite !list_elem_of_fmap.
  intros (r & -> & Hr). exists r. split; [|done]. unfold phys. by rewrite (same_but_wb X mc m1 H1).
Qed.
Lemma same_but_refl X mc : same_but X mc mc.
Proof. by intros q _. Qed.
Lemma same_but_a9 X b adj mc : 9 ∈ X -> same_but X mc (with_a9 b adj mc).
Proof. intros Hin. unfold with_a9. destruct b; [apply same_but_refl|by apply same_but_set]. Qed.

(** The words of the saved registers. *)
Definition slot (i : nat) (mc : machine) : Z := load 32 4 (mem mc) (ar 1 mc + 4 * Z.of_nat i).

(** What the entry does to the registers and the stack. *)
Record xtensa_entered (adj : Z) (mc m1 : machine) : Prop := {
  entered_sp : ar 1 m1 = u32 (ar 1 mc - sp_step adj);
  entered_same : same_but [1; 9] mc m1;
  entered_saved : forall i r, saved_regs !! i = Some r -> slot i m1 = ar r mc;
  entered_other : forall x, 20 <= u32 (x - ar 1 m1) -> peek 32 (mem m1) x = peek 32 (mem mc) x;
}.
Lemma frame_entered_spec adj mc : xtensa_entered adj mc (frame_entered adj mc).
Proof.
  unfold frame_entered. set (m1 := set_ar 1 _ _).
  assert (same_but [1; 9] mc m1) as Hs.
  { eapply same_but_trans; [apply (same_but_a9 _ (adj <=? 128) adj mc)|apply same_but_set]; listed. }
  assert (mem m1 = mem mc) as Hm by (unfold m1, with_a9; by destruct (adj <=? 128)).
  split; [apply ar_set_eq|exact Hs| |].
  - intros i r Hi. unfold slot. change (ar 1 (set_mem _ m1)) with (ar 1 m1). change (mem (set_mem ?h _)) with h.
    rewrite (store_words_load _ _ _ i (ar r m1)); [|done|by rewrite list_lookup_fmap, Hi].
    unfold ar at 1. rewrite uw_uw by done. apply (same_but_ar [1; 9]); [exact Hs|].
    do 5 (destruct i as [|i]; [injection Hi as <-; listed|]). done.
  - intros x Hx. change (mem (set_mem ?h _)) with h. rewrite store_words_other by done. by rewrite Hm.
Qed.

(** After the registers are loaded, before the stack pointer moves. *)
Definition reloaded (mb : machine) : machine :=
  access true Word 0 (u32 (ar 1 (restored 4 mb) + 4 * 0)) (restored 4 mb).
Lemma reloaded_spec mb : let m1 := reloaded mb in
  same_but [0; 12; 13; 14; 15] mb m1 /\ (forall i r, saved_regs !! i = Some r -> ar r m1 = u32 (slot i mb))
  /\ mem m1 = mem mb /\ pc m1 = pc mb.
Proof.
  cbv zeta. unfold reloaded. destruct (restored_regs 4 mb ltac:(lia)) as (Hk & Ho & Hm & Hp). set (m0 := restored 4 mb) in *.
  assert (same_but [12; 13; 14; 15] mb m0) as Hs0.
  { intros q Hq. apply Ho. intros k Hk' ->. apply Hq. apply list_elem_of_fmap. exists (11 + k). split; [done|].
    assert (k = 1 \/ k = 2 \/ k = 3 \/ k = 4) as [-> | [-> | [-> | ->]]] by lia; listed. }
  assert (ar 1 m0 = ar 1 mb) as H1 by (apply (same_but_ar _ _ _ _ Hs0); listed).
  rewrite H1. split; [|split; [|by rewrite <- Hm, <- Hp]].
  - apply (same_but_trans _ _ m0); [|apply same_but_set; listed].
    intros q Hq. apply Hs0. intros Hin. apply Hq. revert Hin. cbn. rewrite !elem_of_cons. tauto.
  - intros i r Hi. unfold slot. destruct i as [|i].
    + injection Hi as <-. cbn [access bytes]. rewrite ar_set_eq, Hm. f_equal. apply (load_cong 32 eq_refl). by rewrite uw_uw by done.
    + cbn [access bytes]. rewrite ar_set_ne by (do 4 (destruct i as [|i]; [injection Hi as <-; lia|]); done).
      assert (r = 11 + Z.of_nat (S i)) as ->
        by (do 4 (destruct i as [|i]; [by injection Hi as <-|]); done).
      assert (i < 4)%nat as Hi4 by (apply lookup_lt_Some in Hi; cbn in Hi; lia).
      rewrite Hk by lia. f_equal. apply (load_cong 32 eq_refl). by rewrite uw_uw by done.
Qed.
(** What the exit does. *)
Record xtensa_left (adj : Z) (mb m2 : machine) : Prop := {
  left_pc : pc m2 = ar 0 m2;
  left_sp : ar 1 m2 = u32 (ar 1 mb + sp_step adj);
  left_same : same_but [0; 1; 9; 12; 13; 14; 15] mb m2;
  left_restored : forall i r, saved_regs !! i = Some r -> ar r m2 = u32 (slot i mb);
  left_mem : mem m2 = mem mb;
}.
Lemma frame_left_spec adj mb : xtensa_left adj mb (frame_left adj mb).
Proof.
  unfold frame_left. fold (reloaded mb). destruct (reloaded_spec mb) as (Hs & Hi & Hm & _). set (m1 := reloaded mb) in *.
  set (m2 := set_ar 1 _ _). change (ar ?r (set_pc _ m2)) with (ar r m2).
  assert (same_but [1; 9] m1 m2) as Hs2 by (apply (same_but_trans _ _ (with_a9 (adj <? 128) adj m1)); [apply same_but_a9|apply same_but_set]; listed).
  split; [done|..].
  - change (ar 1 (set_pc _ m2)) with (ar 1 m2). unfold m2. rewrite ar_set_eq. f_equal. f_equal. apply (same_but_ar _ _ _ _ Hs). listed.
  - apply (same_but_trans _ _ m1); [intros q Hq; apply Hs|intros q Hq; apply Hs2]; intros Hin; apply Hq; revert Hin; cbn; rewrite !elem_of_cons; tauto.
  - intros i r Hr. rewrite <- (Hi i r Hr). apply (same_but_ar _ _ _ _ Hs2).
    do 5 (destruct i as [|i]; [injection Hr as <-; listed|]). done.
  - cbn [mem set_pc]. rewrite <- Hm. unfold m2, with_a9. by destruct (adj <? 128).
Qed.

(** A body that keeps the window, the stack pointer and the saved registers. *)
Definition frame_kept (saved : nat) (m1 mb : machine) : Prop :=
  reg WB mb = reg WB m1 /\ ar 1 mb = ar 1 m1 /\ forall i, (i < saved)%nat -> slot i mb = slot i m1.
Lemma xtensa_frame_roundtrip adj mc m1 mb m2 : xtensa_entered adj mc m1 -> frame_kept 5 m1 mb -> xtensa_left adj mb m2 ->
  pc m2 = ar 0 mc /\ reg WB m2 = reg WB mc /\ forall r, r ∈ [0; 1; 12; 13; 14; 15] -> ar r m2 = ar r mc.
Proof.
  intros He (Hw & H1 & Hs) Hl.
  assert (forall i r, saved_regs !! i = Some r -> ar r m2 = ar r mc) as Hr.
  { intros i r Hi. rewrite (left_restored _ _ _ Hl i r Hi), Hs by by apply lookup_lt_Some in Hi.
    rewrite (entered_saved _ _ _ He i r Hi). apply u32_ar. }
  split; [rewrite (left_pc _ _ _ Hl); by apply (Hr 0%nat)|]. split.
  - rewrite (same_but_wb _ _ _ (left_same _ _ _ Hl)), Hw. apply (same_but_wb _ _ _ (entered_same _ _ _ He)).
  - intros r Hin. destruct (decide (r = 1)) as [->|Hne].
    + rewrite (left_sp _ _ _ Hl), H1, (entered_sp _ _ _ He), uw_add_l, Z.sub_add by done.
      apply u32_ar.
    + assert (r ∈ saved_regs) as [i Hi]%list_elem_of_lookup; [|by apply (Hr i)].
      unfold saved_regs. rewrite !elem_of_cons in *. tauto.
Qed.

(** Storing the word of the stack at [k] keeps a frame that is below it, and
    overwrites a saved register that is there. *)
Lemma slot_store k v i mc : 0 <= k < 256 -> (i < 256)%nat ->
  slot i (set_mem (store 32 4 (mem mc) (u32 (ar 1 mc + 4 * k)) v) mc) = if Z.of_nat i =? k then u32 v else slot i mc.
Proof.
  intros Hk Hi. unfold slot. change (ar 1 (set_mem _ mc)) with (ar 1 mc). change (mem (set_mem ?h _)) with h.
  rewrite (store_cong 32 eq_refl 4 _ _ (ar 1 mc + 4 * k)) by by rewrite uw_uw.
  destruct (Z.eqb_spec (Z.of_nat i) k) as [->|Hne]; [by rewrite load_store_same|].
  apply load_store_other; [done..|]. unfold disjoint_bytes.
  replace (ar 1 mc + 4 * Z.of_nat i - (ar 1 mc + 4 * k)) with (4 * (Z.of_nat i - k)) by lia. clear -Hk Hi Hne. split; word_lia.
Qed.
Lemma store_keeps_frame saved k r mc : Z.of_nat saved <= k < 256 ->
  frame_kept saved mc (access false Word r (u32 (ar 1 mc + 4 * k)) mc).
Proof.
  intros Hk. split; [done|]. split; [done|]. intros i Hi. cbn [access bytes]. rewrite slot_store by lia.
  by rewrite (proj2 (Z.eqb_neq _ _)) by lia.
Qed.
