(* ===== verification/AsmXtensaWin.v ===== *)
(** * AsmXtensaWin: entry and exit of asmxtensa.c for register windows

    A function that is called by CALL8 moves the window to the registers behind
    those its caller keeps, and moves it back when it returns. *)

From S2P Require Import Prelude AsmBase TwoPass PyMisc Machine Emission AsmXtensa AsmXtensaPass XtensaIsa AsmXtensaInstr AsmXtensaImm AsmXtensaMem AsmXtensaJump AsmXtensaFrame.

Set Default Goal Selector "!".

#[local] Existing Instance SizeT_32.
#[local] Hint Extern 0 Isa => exact Xtensa : typeclass_instances.

(** ** Entry *)

(** The frame: the return address, the locals and the 32 bytes that a window
    takes that is spilled. *)
Definition win_frame_size (locals : Z) : Z := 32 + frame_size 1 locals.
(** Twelve bits of its size, in units of 8 bytes, are kept. *)
Definition entry_step (adj : Z) : Z := 8 * uw 12 (Z.quot adj 8).
Lemma entry_step_eq adj : 0 <= adj -> entry_step adj = 8 * (adj / 8 mod 2 ^ 12).
Proof. intros Ha. unfold entry_step, uw. by rewrite Z.quot_div_nonneg by lia. Qed.
Lemma entry_step_fits adj : 0 <= adj < 2 ^ 15 -> adj mod 16 = 0 -> entry_step adj = adj.
Proof. intros Ha H16. rewrite entry_step_eq by lia. clear -Ha H16. word_lia. Qed.
Lemma win_frame_size_range locals : 0 <= locals < 2 ^ 27 ->
  4 * (1 + locals) + 32 <= win_frame_size locals < 4 * (1 + locals) + 48 /\ win_frame_size locals mod 16 = 0.
Proof.
  intros Hl. destruct (frame_size_range 1 locals ltac:(simpl in *; lia)) as [Hr H16]. unfold win_frame_size. split; [lia|].
  clear -H16. Z.to_euclidean_division_equations. lia.
Qed.

Definition window_moved (imm : Z) (mc : machine) : machine :=
  let m1 := set_reg WB (reg WB mc + reg CALLINC mc) mc in set_ar 1 (ar 1 mc - imm) m1.
Definition win_frame_entered (adj : Z) (mc : machine) : machine :=
  let m1 := window_moved (entry_step adj) mc in access false Word 0 (u32 (ar 1 m1 + 4 * 0)) m1.

Lemma xtensa_entry_win_implements s locals : 0 <= locals < 2 ^ 27 -> 0 <= num_const s -> 4 * num_const s <= xtensa_limit ->
  0 <= code_offset (base s) <= xtensa_limit -> let adj := win_frame_size locals in
  implements_to s (in_frame adj s) (asm_xtensa_entry_win locals) (fun n mc mc' => mc' = set_pc (u32 (pc mc + n)) (win_frame_entered adj mc)).
Proof.
  intros Hl Hn HN Ho adj. destruct (win_frame_size_range locals Hl) as [Hr _]. fold adj in Hr. assert (areg 0 /\ areg 1) as [H0 H1] by done.
  apply (enter_implements s adj _ (asm_xtensa_op_entry ASM_XTENSA_REG_A1 adj;; asm_xtensa_op_s32i_n ASM_XTENSA_REG_A0 ASM_XTENSA_REG_A1 0)); [done..| | |done].
  - intros t. unfold asm_xtensa_entry_win. apply bind_ext. intros _ t'. unfold ASM_XTENSA_NUM_REGS_SAVED_WIN.
    rewrite frame_size_word by (simpl in *; lia). fold (win_frame_size locals). fold adj. rewrite uw_small by (simpl in *; lia).
    transitivity ((modify (set_stack_adjust adj);; asm_xtensa_op_entry ASM_XTENSA_REG_A1 (s32 adj);;
      asm_xtensa_op_s32i_n ASM_XTENSA_REG_A0 ASM_XTENSA_REG_A1 0) t'); [reflexivity|].
    by rewrite (sw_small 32 eq_refl adj) by (simpl in *; lia).
  - intros t _. eapply (performs_seq _ _ _ _ (fun m1 => access false Word 0 (u32 (ar 1 m1 + 4 * 0)) m1)); [|done|done|intros bs; exact (xtensa_narrow_performs _ false 0 1 H0 H1 0 ltac:(done))].
    apply (xtensa_performs _ _ (ENTRY 1 (entry_step adj)) 3); [by apply xtensa_entry_assembles|done].
Qed.

(** The callee's registers are those of the caller from [4 * CALLINC] on. *)
Record win_entered (adj : Z) (mc m1 : machine) : Prop := {
  win_entered_window : reg WB m1 = reg WB mc + reg CALLINC mc;
  win_entered_sp : ar 1 m1 = u32 (ar 1 mc - entry_step adj);
  win_entered_return : slot 0 m1 = u32 (reg (at_window (reg WB m1) 0) mc);
  win_entered_same : forall q, q <> WB -> q <> phys 1 m1 -> reg q m1 = reg q mc;
  win_entered_other : forall x, 4 <= u32 (x - ar 1 m1) -> peek 32 (mem m1) x = peek 32 (mem mc) x;
}.
Lemma at_window_wb w r : at_window w r <> WB.
Proof. unfold at_window, file, WB. lia. Qed.
Lemma win_frame_entered_spec adj mc : win_entered adj mc (win_frame_entered adj mc).
Proof.
  unfold win_frame_entered. set (m1 := window_moved _ mc).
  set (m0 := set_reg WB (reg WB mc + reg CALLINC mc) mc).
  assert (reg WB m0 = reg WB mc + reg CALLINC mc) as Hw0 by apply reg_set_eq.
  assert (reg WB m1 = reg WB mc + reg CALLINC mc) as Hw.
  { rewrite <- Hw0. unfold m1, window_moved, set_ar. apply reg_set_ne. apply not_eq_sym, at_window_wb. }
  assert (phys 1 m1 = phys 1 m0) as Hp by (unfold phys; by rewrite Hw, Hw0).
  assert (forall q, q <> WB -> q <> phys 1 m1 -> reg q m1 = reg q mc) as Hsame.
  { intros q Hq Hq1. unfold m1, window_moved, set_ar. fold m0. rewrite reg_set_ne by by rewrite <- Hp. by apply reg_set_ne. }
  split; [exact Hw|apply ar_set_eq| |exact Hsame|].
  - cbn [access bytes]. rewrite (slot_store 0) by lia. cbn. unfold ar, phys at 1. rewrite uw_uw by done. f_equal. change (reg WB (set_mem _ m1)) with (reg WB m1).
    apply Hsame; [apply at_window_wb|]. unfold phys, at_window, file. lia.
  - intros x Hx. cbn [access bytes mem set_mem]. change (ar 1 (access _ _ _ _ m1)) with (ar 1 m1) in Hx.
    rewrite (store_cong 32 eq_refl 4 _ _ (ar 1 m1)) by by rewrite uw_uw, Z.add_0_r. rewrite peek_store by (done || pow_lia).
    rewrite ltb_false by done. done.
Qed.

(** ** Exit *)

(** The return at [p] moves the window back by the two upper bits of the return
    address, and goes to that address in the same gigabyte. *)
Record win_left (p : Z) (mb m2 : machine) : Prop := {
  win_left_pc : pc m2 = bits p 30 2 << 30 .| bits (u32 (slot 0 mb)) 0 30;
  win_left_window : reg WB m2 = reg WB mb - (u32 (slot 0 mb) >> 30);
  win_left_same : forall q, q <> WB -> q <> phys 0 mb -> reg q m2 = reg q mb;
  win_left_mem : mem m2 = mem mb;
}.
Lemma retw_when s : implements_when (fun _ mc => ar 0 mc >> 30 <> 0) s s asm_xtensa_op_retw_n
  (fun n mc m2 => n = 2 /\ m2 = set_pc (bits (pc mc) 30 2 << 30 .| bits (ar 0 mc) 0 30) (set_reg WB (reg WB mc - (ar 0 mc >> 30)) mc)).
Proof.
  destruct (xtensa_retw_assembles s) as (bs & He & Hd). split; [done|]. exists bs. split; [exact He|].
  rewrite (disasm_length _ _ Hd). intros code mc Hw Hc Hinc. eexists. split; [|done].
  eapply runs_straight; [exact Hd|exact Hc|]. transitivity (m' ← xtensa_insn_exec RETW 2 mc; Some m'); [done|].
  cbn [xtensa_insn_exec]. by rewrite (proj2 (Z.eqb_neq _ _) Hinc).
Qed.
Lemma exit_win_implements s : implements_when (fun _ mc => u32 (slot 0 mc) >> 30 <> 0) s s asm_xtensa_exit_win
  (fun n mc m2 => win_left (u32 (pc mc + 2)) mc m2).
Proof.
  assert (areg 0 /\ areg 1) as [H0 H1] by done.
  assert (assembles s (asm_xtensa_op_l32i_n 0 1 0) [(LOAD Word 0 1 0, 2)]) as Ha by by apply xtensa_assembles_op16.
  assert (forall mc, u32 (load 32 4 (mem mc) (u32 (ar 1 mc + 4 * 0))) = u32 (slot 0 mc)) as Hslot.
  { intros mc. f_equal. apply (load_cong 32 eq_refl). by rewrite uw_uw by done. }
  eapply when_mono; [eapply (assembles_when (H0 := Xtensa) (fun _ mc => u32 (slot 0 mc) >> 30 <> 0) (fun _ _ mc => ar 0 mc >> 30 <> 0) s _ _ [(LOAD Word 0 1 0, 2)]
    (fun mc m1 => m1 = set_pc (u32 (pc mc + 2)) (access true Word 0 (u32 (ar 1 mc + 4 * 0)) mc))); [exact Ha| |intros bs _; apply retw_when|]|done|].
  - intros mc _. eexists. split; [|split; [|reflexivity]]; done.
  - intros bs cs mc mc1 _ Hc _ ->. change (ar 0 (set_pc _ ?m)) with (ar 0 m). cbn [access bytes]. by rewrite ar_set_eq, Hslot.
  - intros n mc m2 (n2 & mc1 & _ & _ & -> & _ & ->). change (ar 0 (set_pc _ ?m)) with (ar 0 m). cbn [access bytes]. rewrite ar_set_eq, Hslot.
    change (pc (set_pc ?a _)) with a. split; [done| | |done].
    + change (reg ?q (set_pc _ ?m)) with (reg q m). rewrite reg_set_eq. f_equal. unfold set_ar. change (reg ?q (set_pc _ ?m)) with (reg q m).
      apply reg_set_ne, not_eq_sym, at_window_wb.
    + intros q Hq Hq0. change (reg ?q (set_pc _ ?m)) with (reg q m). rewrite reg_set_ne by done. by apply reg_set_ne.
Qed.

(** ** A call and its return *)

(** The registers of the callers are those below the window. *)
Definition callers_kept (m1 mb : machine) : Prop := forall r, r < 0 -> reg (phys r m1) mb = reg (phys r m1) m1.

Lemma window_link_spec next : 0 <= next < 2 ^ 32 -> let a := window_link 2 next in
  u32 a = a /\ a >> 30 = 2 /\ bits a 0 30 = bits next 0 30 /\ bits next 30 2 << 30 .| bits a 0 30 = next.
Proof.
  intros Hn a. unfold a, window_link. repeat split; bitsolve.
Qed.

(** CALL8 leaves the return address in A8 of the caller, which is A0 of the
    callee, and eight registers to the caller. *)
Section Roundtrip.
Context (adj next p : Z) (m0 m1 mb m2 : machine) (Hn : 0 <= next < 2 ^ 32).
Abbreviation mc := (called_win next m0).
Context (He : win_entered adj mc m1) (Hf : frame_kept 1 m1 mb) (Hk : callers_kept m1 mb) (Hl : win_left p mb m2).

Lemma called_win_wb : reg WB mc = reg WB m0.
Proof using. unfold called_win, set_ar. rewrite !reg_set_ne; [done|apply not_eq_sym, at_window_wb|done]. Qed.
Lemma callee_window : reg WB m1 = reg WB m0 + 2.
Proof using He. rewrite (win_entered_window _ _ _ He), called_win_wb. f_equal. apply reg_set_eq. Qed.
Lemma callee_return : slot 0 mb = window_link 2 next.
Proof using He Hf Hn.
  destruct Hf as (_ & _ & Hs). rewrite Hs by lia. rewrite (win_entered_return _ _ _ He), callee_window.
  replace (at_window (reg WB m0 + 2) 0) with (phys 8 m0) by (unfold phys, at_window; f_equal; lia).
  unfold called_win. rewrite reg_set_ne by exact (phys_odd 8 2 m0). unfold set_ar. rewrite reg_set_eq, uw_uw by done.
  by apply window_link_spec.
Qed.
Lemma win_roundtrip : bits p 30 2 = bits next 30 2 ->
  u32 (slot 0 mb) >> 30 <> 0 /\ pc m2 = next /\ reg WB m2 = reg WB m0 /\ forall r, 0 <= r < 8 -> ar r m2 = ar r m0.
Proof using All.
  intros Hp. destruct (window_link_spec next Hn) as (Eu & Ei & _ & Ep). rewrite callee_return, Eu, Ei. split; [done|].
  destruct Hf as (Hw & _ & _). pose proof callee_window as Hw1.
  assert (reg WB m2 = reg WB m0) as Hw2 by (rewrite (win_left_window _ _ _ Hl), callee_return, Eu, Ei, Hw, Hw1; lia).
  split; [rewrite (win_left_pc _ _ _ Hl), callee_return, Eu, Hp; exact Ep|]. split; [exact Hw2|].
  intros r Hr. unfold ar, phys. rewrite Hw2. f_equal.
  assert (at_window (reg WB m0) r = phys (r - 8) m1) as Eq by (unfold phys, at_window; rewrite Hw1; f_equal; lia).
  rewrite (win_left_same _ _ _ Hl); [|apply at_window_wb|rewrite Eq; unfold phys; rewrite Hw; unfold at_window, file; lia].
  rewrite Eq, Hk, <- Eq by lia. rewrite (win_entered_same _ _ _ He); [|apply at_window_wb|rewrite Eq, phys_inj; lia].
  unfold called_win, set_ar. rewrite reg_set_ne by exact (phys_odd r 2 m0). apply reg_set_ne. change (phys r m0 <> phys 8 m0). rewrite phys_inj. lia.
Qed.
End Roundtrip.
