(* ===== verification/AsmXtensaSpec.v ===== *)
(** * AsmXtensaSpec: what asmxtensa.c promises the native emitter

    The theorems of the Xtensa back end, for both calling conventions: the frame
    of a function, its bounds, branches, calls and the addresses of labels,
    memory, arithmetic and constants, with concrete instances. *)

From S2P Require Import Prelude AsmBase TwoPass PyMisc Machine Emission AsmXtensa AsmXtensaPass XtensaIsa AsmXtensaInstr AsmXtensaImm AsmXtensaTable AsmXtensaMem AsmXtensaJump AsmXtensaFrame AsmXtensaWin.

Set Default Goal Selector "!".

#[local] Existing Instance SizeT_32.
#[local] Hint Extern 0 Isa => exact Xtensa : typeclass_instances.

(** ** Bounds of the frame *)

(** Where twelve bits hold the size, the stack pointer moves by it, and else by
    another distance. *)
Lemma moved_by step adj a : 0 <= adj < 2 ^ 31 -> - 2 ^ 30 <= step < 2 ^ 31 -> step <> adj -> u32 (a - step) <> u32 (a - adj).
Proof. intros Ha Hs Hne E. apply Hne. revert E. clear -Ha Hs. unfold uw. Z.to_euclidean_division_equations. simpl in *. lia. Qed.
Lemma entered_bounds adj mc m1 : 0 <= adj < 2 ^ 31 -> xtensa_entered adj mc m1 ->
  (ar 1 m1 = u32 (ar 1 mc - adj)) <-> adj < 2 ^ 11.
Proof.
  intros Ha He. rewrite (entered_sp _ _ _ He). split; [|intros; by rewrite sp_step_eq by lia].
  intros E. destruct (Z.lt_ge_cases adj (2 ^ 11)) as [|Hge]; [done|]. exfalso. revert E.
  apply moved_by; [done| |by apply sp_step_ne]. pose proof (sw_range 12 eq_refl adj). unfold sp_step. simpl in *. lia.
Qed.
Lemma win_entered_bounds adj mc m1 : 0 <= adj < 2 ^ 31 -> adj mod 16 = 0 -> win_entered adj mc m1 ->
  (ar 1 m1 = u32 (ar 1 mc - adj)) <-> adj < 2 ^ 15.
Proof.
  intros Ha H16 He. rewrite (win_entered_sp _ _ _ He). split; [|intros; by rewrite entry_step_fits by lia].
  intros E. destruct (Z.lt_ge_cases adj (2 ^ 15)) as [|Hge]; [done|]. exfalso. revert E.
  rewrite entry_step_eq by lia. pose proof (Z.mod_pos_bound (adj / 8) (2 ^ 12) eq_refl).
  apply moved_by; [done|..]; simpl in *; lia.
Qed.

(** ** Locals and arithmetic of the generic interface *)

Section Api.
Context `{XtensaConfig} (s : asm_xtensa_t) (r : Z) (Hr : areg r).

Definition saved : Z := GenericApi.ASM_NUM_REGS_SAVED.
Lemma saved_cases : saved = 5 \/ saved = 1.
Proof using. unfold saved, GenericApi.ASM_NUM_REGS_SAVED. destruct GENERIC_ASM_API_WIN; [by right|by left]. Qed.
Definition local_word (local : Z) (mc : machine) : Z := u32 (ar 1 mc + 4 * ((saved + local) mod 256)).

Lemma api_local_performs local : 0 <= local < 2 ^ 30 ->
  performs s (GenericApi.ASM_MOV_REG_LOCAL r local) (fun mc => access true Word r (local_word local mc) mc)
  /\ performs s (GenericApi.ASM_MOV_LOCAL_REG local r) (fun mc => access false Word r (local_word local mc) mc).
Proof using Hr.
  intros Hl. pose proof saved_cases as Hs. unfold GenericApi.ASM_MOV_REG_LOCAL, GenericApi.ASM_MOV_LOCAL_REG. fold saved.
  rewrite sw_small by (done || simpl in *; lia).
  split; [apply (local_performs s r Hr true)|apply (local_performs s r Hr false)]; simpl in *; lia.
Qed.
Lemma api_local_store local : 0 <= local < 2 ^ 30 -> implements s (GenericApi.ASM_MOV_LOCAL_REG local r)
  (fun n mc mc' => mc' = set_pc (u32 (pc mc + n)) (access false Word r (local_word local mc) mc)
     /\ (saved + local < 256 -> frame_kept (Z.to_nat saved) mc mc')
     /\ (256 <= saved + local < 256 + saved -> slot (Z.to_nat (saved + local - 256)) mc' = ar r mc)).
Proof using Hr.
  intros Hl. pose proof saved_cases as Hs. eapply implements_mono; [by apply api_local_performs|].
  intros n mc mc' ->. split; [done|]. unfold local_word. split.
  - intros Hk. rewrite Z.mod_small by lia. exact (store_keeps_frame (Z.to_nat saved) (saved + local) r mc ltac:(lia)).
  - intros Hk. replace ((saved + local) mod 256) with (saved + local - 256) by (apply (Z.mod_unique _ _ 1); lia).
    set (k := saved + local - 256) in *. assert (0 <= k < 256) as Hk' by lia.
    transitivity (slot (Z.to_nat k) (set_mem (store 32 4 (mem mc) (u32 (ar 1 mc + 4 * k)) (ar r mc)) mc)); [done|].
    rewrite slot_store, Z2Nat.id, Z.eqb_refl by lia. apply u32_ar.
Qed.
Lemma api_local_addr local : r <> 1 -> 0 <= local < 2 ^ 30 -> performs s (GenericApi.ASM_MOV_REG_LOCAL_ADDR r local)
  (fun mc => set_ar r (ar 1 mc + sw 12 (4 * (saved + local))) mc).
Proof using Hr.
  intros Hne Hl. pose proof saved_cases as Hs. unfold GenericApi.ASM_MOV_REG_LOCAL_ADDR. fold saved.
  rewrite sw_small by (done || simpl in *; lia). apply local_addr_performs; [done..|lia].
Qed.
Lemma local_addr_bounds local : 0 <= local < 2 ^ 27 -> sw 12 (4 * (saved + local)) = 4 * (saved + local) <-> saved + local < 512.
Proof using.
  intros Hl. pose proof saved_cases as Hs. pose proof (sw_range 12 eq_refl (4 * (saved + local))) as Hw. simpl in Hw.
  split; [simpl in *; lia|]. intros Hk. apply sw_small; [done|]. simpl. lia.
Qed.

Lemma api_binary_performs op f q : areg q -> In (op, f)
    [(GenericApi.ASM_ADD_REG_REG, Z.add); (GenericApi.ASM_SUB_REG_REG, Z.sub); (GenericApi.ASM_MUL_REG_REG, Z.mul);
     (GenericApi.ASM_AND_REG_REG, Z.land); (GenericApi.ASM_OR_REG_REG, Z.lor); (GenericApi.ASM_XOR_REG_REG, Z.lxor)] ->
  performs s (op r q) (fun mc => set_ar r (f (ar r mc) (ar q mc)) mc).
Proof using Hr.
  intros Hq Hin. assert (forall m b, In (m, b) xtensa_binary -> performs s (m r r q) (fun mc => set_ar r (binop_exec b (ar r mc) (ar q mc)) mc)) as Hb
    by (intros; by apply xtensa_binary_performs).
  repeat destruct Hin as [[= <- <-] | Hin]; [..|done].
  - apply (Hb asm_xtensa_op_add_n ADD). simpl. tauto.
  - apply (Hb asm_xtensa_op_sub SUB). simpl. tauto.
  - apply (Hb asm_xtensa_op_mull MULL). simpl. tauto.
  - apply (Hb asm_xtensa_op_and AND). simpl. tauto.
  - apply (Hb asm_xtensa_op_or OR). simpl. tauto.
  - apply (Hb asm_xtensa_op_xor XOR). simpl. tauto.
Qed.
End Api.

(** ** Jumps of the generic interface *)

Lemma xtensa_jump_if_reg_zero s label dest r t : xtensa_label s label dest -> areg r -> let d := dest - code_offset (base s) in
  implements s (GenericApi.ASM_JUMP_IF_REG_ZERO r label t) (branches (fun mc => ar r mc =? 0) d)
  /\ implements s (GenericApi.ASM_JUMP_IF_REG_NONZERO r label t) (branches (fun mc => negb (ar r mc =? 0)) d).
Proof.
  intros Hl Hr d. unfold GenericApi.ASM_JUMP_IF_REG_ZERO, GenericApi.ASM_JUMP_IF_REG_NONZERO.
  split; [exact (bccz_implements s label dest Hl 0 r ltac:(done) Hr)|exact (bccz_implements s label dest Hl 1 r ltac:(done) Hr)].
Qed.
Lemma xtensa_jump_if_reg_eq s label dest r1 r2 : xtensa_label s label dest -> areg r1 -> areg r2 ->
  implements s (GenericApi.ASM_JUMP_IF_REG_EQ r1 r2 label) (branches (fun mc => ar r1 mc =? ar r2 mc) (dest - code_offset (base s))).
Proof.
  intros Hl H1 H2. unfold GenericApi.ASM_JUMP_IF_REG_EQ. eapply implements_mono; [by apply (bcc_implements s label dest Hl 1 r1 r2 EQ)|].
  intros n mc mc' ->. unfold branches, holds. by rewrite xorb_false_l.
Qed.

(** ** The theorems *)

Section Spec.
Context `{XtensaConfig} `{PyMisc}.

(** C33: the frame of an Xtensa function, behind the table of constants, which the
    code jumps over.  Without register windows, A0 and A12 to A15 are saved in
    the lowest words; for a body that keeps them, the window and the stack
    pointer, the exit returns to the caller with all of them as they were.
    With windows, the return address is saved; after a CALL8 from [m0], and a
    body that keeps it, the stack pointer, the window and the registers of the
    callers, the exit in the same gigabyte returns behind the call, with the
    window, the stack pointer and the first eight registers of the caller. *)
Theorem xtensa_function_frame s locals : 0 <= locals < 2 ^ 27 -> 0 <= num_const s -> 4 * num_const s <= xtensa_limit ->
  0 <= code_offset (base s) <= xtensa_limit -> let adj := frame_size 5 locals in let win := win_frame_size locals in
  implements_to s (in_frame adj s) (asm_xtensa_entry locals) (fun n mc m1 => pc m1 = u32 (pc mc + n) /\ xtensa_entered adj mc m1)
  /\ (forall t, stack_adjust t = adj -> implements t asm_xtensa_exit (fun _ => xtensa_left adj))
  /\ (forall mc m1 mb m2, xtensa_entered adj mc m1 -> frame_kept 5 m1 mb -> xtensa_left adj mb m2 ->
        pc m2 = ar 0 mc /\ reg WB m2 = reg WB mc /\ forall r, r ∈ [0; 1; 12; 13; 14; 15] -> ar r m2 = ar r mc)
  /\ implements_to s (in_frame win s) (asm_xtensa_entry_win locals) (fun n mc m1 => pc m1 = u32 (pc mc + n) /\ win_entered win mc m1)
  /\ (forall t, implements_when (fun _ mc => u32 (slot 0 mc) >> 30 <> 0) t t asm_xtensa_exit_win
        (fun _ mc m2 => win_left (u32 (pc mc + 2)) mc m2))
  /\ (forall next p m0 m1 mb m2, 0 <= next < 2 ^ 32 -> win_entered win (called_win next m0) m1 -> frame_kept 1 m1 mb ->
        callers_kept m1 mb -> win_left p mb m2 -> bits p 30 2 = bits next 30 2 ->
        u32 (slot 0 mb) >> 30 <> 0 /\ pc m2 = next /\ reg WB m2 = reg WB m0 /\ forall r, 0 <= r < 8 -> ar r m2 = ar r m0).
Proof.
  intros Hl Hn HN Ho adj win. destruct (frame_size_range 5 locals ltac:(simpl in *; lia)) as [Hr _].
  split; [|split; [|split; [|split; [|split]]]].
  - eapply implements_to_mono; [by apply xtensa_entry_implements|]. intros n mc m1 ->. split; [done|]. destruct (frame_entered_spec adj mc). by split.
  - intros t Ht. eapply implements_mono; [apply (exit_performs t adj); [subst adj; simpl in *; lia|done]|].
    intros n mc m2 ->. apply frame_left_spec.
  - intros mc m1 mb m2. apply xtensa_frame_roundtrip.
  - eapply implements_to_mono; [by apply xtensa_entry_win_implements|]. intros n mc m1 ->. split; [done|]. destruct (win_frame_entered_spec win mc). by split.
  - intros t. apply exit_win_implements.
  - intros next p m0 m1 mb m2 Hnx He Hf Hk Hleft. by apply (win_roundtrip win next p m0 m1 mb m2).
Qed.

(** C34: bounds of the frame and of what is in it.  The frame is the least multiple
    of 16 bytes that has the saved registers and the locals, and with windows 32
    bytes more.  The stack pointer moves by its size exactly if that is less
    than 2048 bytes, or with windows less than 32768.  A local is the word of
    the stack behind the saved registers with its number, modulo 256: storing
    one below keeps the frame, storing the next ones overwrites the saved
    registers.  Its address is that of the word exactly below word 512. *)
Theorem xtensa_frame_bounds s r local locals : areg r -> 0 <= local < 2 ^ 27 -> 0 <= locals < 2 ^ 27 ->
  let adj := frame_size 5 locals in let win := win_frame_size locals in
  (4 * (5 + locals) <= adj < 4 * (5 + locals) + 16 /\ adj mod 16 = 0)
  /\ (4 * (1 + locals) <= win - 32 < 4 * (1 + locals) + 16 /\ win mod 16 = 0)
  /\ (forall mc m1, xtensa_entered adj mc m1 -> ar 1 m1 = u32 (ar 1 mc - adj) <-> adj < 2 ^ 11)
  /\ (forall mc m1, win_entered win mc m1 -> ar 1 m1 = u32 (ar 1 mc - win) <-> win < 2 ^ 15)
  /\ performs s (GenericApi.ASM_MOV_REG_LOCAL r local) (fun mc => access true Word r (local_word local mc) mc)
  /\ implements s (GenericApi.ASM_MOV_LOCAL_REG local r) (fun n mc mc' =>
       mc' = set_pc (u32 (pc mc + n)) (access false Word r (local_word local mc) mc)
       /\ (saved + local < 256 -> frame_kept (Z.to_nat saved) mc mc')
       /\ (256 <= saved + local < 256 + saved -> slot (Z.to_nat (saved + local - 256)) mc' = ar r mc))
  /\ (r <> 1 -> exists d, performs s (GenericApi.ASM_MOV_REG_LOCAL_ADDR r local) (fun mc => set_ar r (ar 1 mc + d) mc)
       /\ (d = 4 * (saved + local) <-> saved + local < 512)).
Proof.
  intros Hr Hl Hls adj win. assert (0 <= local < 2 ^ 30) as Hl' by (simpl in *; lia).
  destruct (frame_size_range 5 locals ltac:(simpl in *; lia)) as [Hf Hf16]. destruct (win_frame_size_range locals Hls) as [Hw Hw16].
  fold adj in Hf, Hf16. fold win in Hw, Hw16.
  split; [done|]. split; [split; [lia|done]|]. split; [|split; [|split; [exact (proj1 (api_local_performs s r Hr local Hl'))|split; [by apply api_local_store|]]]].
  - intros mc m1. apply entered_bounds. simpl in *. lia.
  - intros mc m1. apply win_entered_bounds; [simpl in *; lia|done].
  - intros Hne. eexists. split; [by apply api_local_addr|by apply local_addr_bounds].
Qed.

(** C35: branches, calls and the addresses of labels.  A jump goes to the label, a
    conditional one exactly when its condition holds, a comparison leaves the
    truth value, a jump to a register goes to its value; nothing else changes.
    A call goes to the entry of the function table, with the address of the
    code after it in A0, or in A8 with windows.  The address of a label is that
    of the code plus the distance of their offsets, in twelve bits.  Of the
    inline assembler, a branch on a bit goes to a label in reach and is
    rejected otherwise, L32R loads the word at the label; CALL0 goes four times
    as far as the label behind it is. *)
Theorem xtensa_jumps s label dest : xtensa_label s label dest -> let d := dest - code_offset (base s) in
  implements s (GenericApi.ASM_JUMP label) (jumps_to d)
  /\ (forall r t, areg r ->
       implements s (GenericApi.ASM_JUMP_IF_REG_ZERO r label t) (branches (fun mc => ar r mc =? 0) d)
       /\ implements s (GenericApi.ASM_JUMP_IF_REG_NONZERO r label t) (branches (fun mc => negb (ar r mc =? 0)) d))
  /\ (forall r1 r2, areg r1 -> areg r2 -> implements s (GenericApi.ASM_JUMP_IF_REG_EQ r1 r2 label) (branches (fun mc => ar r1 mc =? ar r2 mc) d))
  /\ (forall c t rd r1 r2, 0 <= c < 16 -> test_of (c mod 8) = Some t -> areg rd -> areg r1 -> areg r2 ->
       implements s (asm_xtensa_bcc_reg_reg_label c r1 r2 label) (branches (fun mc => holds (8 <=? c) t (ar r1 mc) (ar r2 mc)) d)
       /\ (rd <> r1 -> rd <> r2 -> performs s (asm_xtensa_setcc_reg_reg_reg c rd r1 r2)
            (fun mc => set_ar rd (Z.b2z (holds (8 <=? c) t (ar r1 mc) (ar r2 mc))) mc)))
  /\ (forall r, areg r -> implements s (GenericApi.ASM_JUMP_REG r) (fun _ mc mc' => mc' = set_pc (ar r mc) mc))
  /\ (forall idx, 0 <= idx < 2 ^ 32 -> imm_room s (far_imm Word idx) ->
       implements_when (fun _ => imm_in_memory s (far_imm Word idx)) s (after_imm s (far_imm Word idx)) (GenericApi.ASM_CALL_IND idx)
         (fun n mc mc' => mc' = set_pc (u32 (table_entry GenericApi.REG_FUN_TABLE idx mc))
            ((if GENERIC_ASM_API_WIN then called_win else called) (u32 (pc mc + n)) mc)))
  /\ (forall r, areg r -> r <> 0 -> suppress (base s) = false -> implements_when (fun _ => placed s) s s (GenericApi.ASM_MOV_REG_PCREL r label)
       (fun n mc mc' => let next := u32 (pc mc + 6) in
          mc' = set_pc (u32 (pc mc + n)) (set_ar r (pc mc + 6 + sw 12 (d - 6)) (set_ar 0 next mc))))
  /\ (pass (base s) = MP_ASM_PASS_EMIT -> forall r, areg r ->
       (forall bit (on : bool), 0 <= bit < 32 ->
          (- 2 ^ 7 <= d - 4 < 2 ^ 7 -> implements s (asm_xtensa_bit_branch r bit label (if on then 14 else 6))
             (branches (fun mc => Bool.eqb on (Z.testbit (ar r mc) bit)) d))
          /\ (~ (- 2 ^ 7 <= d - 4 < 2 ^ 7) -> asm_xtensa_bit_branch r bit label (if on then 14 else 6) s = raise "ERROR: xtensa bit_branch out of range" s))
       /\ (dest mod 4 = 0 -> d mod 4 = 0 -> d < 0 -> implements_when (fun _ => placed s) s s (asm_xtensa_l32r r label)
             (fun n mc mc' => mc' = set_pc (u32 (pc mc + n)) (set_ar r (load 32 4 (mem mc) (pc mc + d)) mc)))
       /\ (dest mod 4 = 0 -> (d - 3) mod 4 = 0 -> implements_when (fun _ => placed s) s s (asm_xtensa_call0 label)
             (fun n mc mc' => n = 3 /\ mc' = set_pc (u32 (pc mc + 3 + 4 * (d - 3))) (called (u32 (pc mc + 3)) mc)))).
Proof.
  intros Hl d. split; [by apply xtensa_j_implements|]. split.
  { intros r t Hr. by apply xtensa_jump_if_reg_zero. }
  split; [intros r1 r2 H1 H2; by apply xtensa_jump_if_reg_eq|].
  split; [intros c t rd r1 r2 Hc Ht Hd H1 H2; split; [by apply bcc_implements|intros; by apply setcc_performs]|].
  split; [intros; by apply jx_implements|]. split.
  { intros idx Hi Hroom. unfold GenericApi.ASM_CALL_IND, GenericApi.REG_FUN_TABLE.
    destruct GENERIC_ASM_API_WIN; [by apply xtensa_call_ind_win_implements|by apply xtensa_call_ind_implements]. }
  split; [intros; by apply pcrel_implements|]. intros He r Hr. split; [|split].
  - intros bit on Hb. split; [intros; by apply bit_branch_implements|]. intros Hfar. rewrite (bit_branch_eq s label dest) by done.
    fold d. by destruct (Z.leb_spec (- 2 ^ 7) (d - 4)), (Z.ltb_spec (d - 4) (2 ^ 7)); try lia.
  - intros H4 Hd4 Hlt. apply l32r_label_implements; (done || lia).
  - intros H4 Hd3. by apply call0_label_implements.
Qed.

(** C36: memory, arithmetic and constants.  Loads and stores access base plus
    scaled offset, in one instruction if the offset is near, and else by an
    address computed in the destination or in the temporary register: a load
    whose destination is its base then loses the base.  They access base plus
    scaled index, and leave that sum in the base.  Sums, differences, products,
    bitwise operations, negations, moves and shifts leave the 32-bit result in
    the destination.  A constant is loaded exactly, in every form: a constant
    of the table is read from there, and the emit pass writes it there, to stay
    whatever code and constants follow. *)
Theorem xtensa_values s rd rb : areg rd -> areg rb ->
  (forall sz off, 0 <= off < 2 ^ 32 -> imm_room s (far_imm sz off) -> let far := 256 <=? off in let k := scale sz * off in
     implements_when (fun _ => imm_in_memory s (far_imm sz off)) s (after_imm s (far_imm sz off))
       (asm_xtensa_load_reg_reg_offset rd rb off (size_number sz))
       (fun n mc mc' => mc' = set_pc (u32 (pc mc + n)) (access true sz rd (u32 ((if far && (rb =? rd) then k else ar rb mc) + k)) mc))
     /\ (off < 256 \/ rb <> REG_TEMP /\ rd <> REG_TEMP ->
         implements_when (fun _ => imm_in_memory s (far_imm sz off)) s (after_imm s (far_imm sz off))
           (asm_xtensa_store_reg_reg_offset rd rb off (size_number sz))
           (fun n mc mc' => mc' = set_pc (u32 (pc mc + n)) (let a := u32 (ar rb mc + k) in in_temp sz off REG_TEMP a (access false sz rd a mc)))))
  /\ (forall sz ri, areg ri -> performs s (index_load sz rd rb ri) (index_access true sz rd rb ri)
       /\ performs s (index_store sz rd rb ri) (index_access false sz rd rb ri))
  /\ (forall op f, In (op, f)
        [(GenericApi.ASM_ADD_REG_REG, Z.add); (GenericApi.ASM_SUB_REG_REG, Z.sub); (GenericApi.ASM_MUL_REG_REG, Z.mul);
         (GenericApi.ASM_AND_REG_REG, Z.land); (GenericApi.ASM_OR_REG_REG, Z.lor); (GenericApi.ASM_XOR_REG_REG, Z.lxor)] ->
        performs s (op rd rb) (fun mc => set_ar rd (f (ar rd mc) (ar rb mc)) mc))
  /\ (forall op amount f, In (op, amount, f) xtensa_shifts ->
        performs s (op rd rb) (fun mc => let n := ar rb mc mod 32 in set_ar rd (f (ar rd mc) n) (set_reg SAR (amount n) mc)))
  /\ performs s (GenericApi.ASM_NEG_REG rd) (fun mc => set_ar rd (- ar rd mc) mc)
  /\ performs s (GenericApi.ASM_MOV_REG_REG rd rb) (fun mc => set_ar rd (ar rb mc) mc)
  /\ performs s (GenericApi.ASM_CLR_REG rd) (set_ar rd 0)
  /\ (forall imm, imm_room s imm -> implements_when (fun _ => imm_in_memory s imm) s (after_imm s imm) (GenericApi.ASM_MOV_REG_IMM rd imm)
        (fun n mc mc' => mc' = set_pc (u32 (pc mc + n)) (set_ar rd imm mc)))
  /\ (forall imm t mc, pass (base s) = MP_ASM_PASS_EMIT -> base_wf (base s) -> table_open s -> code_base (base s) mod 4 = 0 ->
        continued (with_const imm s) t -> code_in_memory t mc -> pc mc = u32 (code_base (base s) + code_offset (base s)) ->
        const_in_memory s imm mc).
Proof.
  intros Hd Hb. split.
  { intros sz off Ho Hroom far k. split; [by apply (xtensa_offset_loads s sz rd rb off)|intros; by apply (xtensa_offset_stores s sz rd rb off)]. }
  split; [intros sz ri Hi; by apply index_performs|]. split; [intros op f; by apply api_binary_performs|].
  split; [intros op amount f; by apply xtensa_shift_performs|]. split; [exact (xtensa_neg_performs s rd rd Hd Hd)|].
  split; [exact (xtensa_mov_n_performs s rd rb Hd Hb)|]. split; [exact (xtensa_movi_n_performs s rd Hd 0 ltac:(lia))|].
  split; [intros imm Hroom; by apply xtensa_imm_implements|].
  intros imm t mc He Hwf Hopen H4 Ht Hmem Hpc. by apply (code_const_in_memory s imm Hopen He Hwf t).
Qed.
End Spec.

(** ** Witnesses *)

Definition xtensa_call8 : XtensaConfig := {| N_XTENSAWIN := true; GENERIC_ASM_API_WIN := true |}.

(** The emit pass of 24 bytes of code at 0, of which 16 are written: a table of
    two constants at 4, and labels at 4 and 20. *)
Definition example_xtensa : asm_xtensa_t :=
  mk_asm_xtensa (mk_asm_base MP_ASM_PASS_EMIT false 16 24 0 (replicate 24 0) 2 [4; 20]) 0 2 (Some 4) 32.
Lemma example_xtensa_open : table_open example_xtensa.
Proof. split; [by eexists|done|]. intros p [= <-]. by repeat split. Qed.
Lemma example_xtensa_wf : base_wf (base example_xtensa).
Proof. constructor; simpl; try done; by repeat constructor. Qed.
Lemma example_xtensa_label : xtensa_label example_xtensa 1 20.
Proof. by constructor. Qed.

(** A machine that holds that code with a constant in the table. *)
Definition example_code : asm_xtensa_t := with_const 0x12345678 example_xtensa.
Definition example_machine : machine :=
  mk_machine ∅ 16 (list_to_map (zip (seqZ 0 24) (code_mem (base example_code)))).
Lemma example_machine_code : code_in_memory example_code example_machine.
Proof.
  intros i b Hi. pose proof (lookup_lt_Some _ _ _ Hi) as Hlt. change (length _) with 24%nat in Hlt.
  do 24 (destruct i as [|i]; [injection Hi as <-; vm_compute; reflexivity|]). lia.
Qed.

Lemma xtensa_function_frame_witness :
  (exists P, implements_to example_xtensa (in_frame 32 example_xtensa) (asm_xtensa_entry 3) P)
  /\ (exists P, implements_to example_xtensa (in_frame 48 example_xtensa) (asm_xtensa_entry_win 3) P)
  /\ (exists P, implements example_xtensa asm_xtensa_exit P).
Proof.
  destruct (xtensa_function_frame example_xtensa 3) as (He & Hx & _ & Hw & _); [done..|].
  split; [eexists; exact He|]. split; [eexists; exact Hw|]. eexists. by apply Hx.
Defined.

Lemma xtensa_frame_bounds_witness :
  implements example_xtensa (GenericApi.ASM_MOV_LOCAL_REG (H := xtensa_call0) 251 2) (fun n mc mc' => slot 0 mc' = ar 2 mc)
  /\ implements example_xtensa (GenericApi.ASM_MOV_LOCAL_REG (H := xtensa_call8) 254 2) (fun n mc mc' => frame_kept 1 mc mc').
Proof.
  destruct (xtensa_frame_bounds (H := xtensa_call0) example_xtensa 2 251 251) as (_ & _ & _ & _ & _ & H0 & _); [done..|].
  destruct (xtensa_frame_bounds (H := xtensa_call8) example_xtensa 2 254 254) as (_ & _ & _ & _ & _ & H8 & _); [done..|].
  split; (eapply implements_mono; [eassumption|]).
  - intros n mc mc' (_ & _ & Hs). by apply Hs.
  - intros n mc mc' (_ & Hk & _). by apply Hk.
Defined.

Lemma xtensa_jumps_witness :
  implements example_xtensa (GenericApi.ASM_JUMP_IF_REG_EQ 4 5 1) (branches (fun mc => ar 4 mc =? ar 5 mc) 4)
  /\ implements example_xtensa (asm_xtensa_bit_branch 3 31 1 6) (branches (fun mc => Bool.eqb false (Z.testbit (ar 3 mc) 31)) 4)
  /\ implements_when (fun _ => imm_in_memory example_xtensa 0) example_xtensa example_xtensa (GenericApi.ASM_CALL_IND (H := xtensa_call8) 20)
       (fun n mc mc' => mc' = set_pc (u32 (table_entry 7 20 mc)) (called_win (u32 (pc mc + n)) mc)).
Proof.
  destruct (xtensa_jumps (H := xtensa_call8) (H0 := py_misc) example_xtensa 1 20 example_xtensa_label) as (_ & _ & Hq & _ & _ & Hc & _ & Hb).
  split; [by apply Hq|]. split; [by apply (Hb eq_refl 3 ltac:(done)) with (on := false)|]. exact (Hc 20 ltac:(done) ltac:(intros Hne; by destruct Hne)).
Defined.

Lemma xtensa_values_witness :
  implements_when (fun _ => imm_in_memory example_xtensa 0x12345678) example_xtensa example_code
    (GenericApi.ASM_MOV_REG_IMM 2 0x12345678)
    (fun n mc mc' => mc' = set_pc (u32 (pc mc + n)) (set_ar 2 0x12345678 mc))
  /\ const_in_memory example_xtensa 0x12345678 example_machine.
Proof.
  destruct (xtensa_values (H := xtensa_call0) (H0 := py_misc) example_xtensa 2 3) as (_ & _ & _ & _ & _ & _ & _ & Hc & Ht); [done..|].
  split.
  - apply Hc. intros _. split; [done|apply example_xtensa_open].
  - apply (Ht _ example_code); [done|apply example_xtensa_wf|apply example_xtensa_open|done|apply continued_refl|apply example_machine_code|done].
Defined.
