(* ===== verification/Confinement.v ===== *)
(** * Confinement: what the operations of the back ends keep

    Every operation of five back ends keeps the shared state settled, under
    any layout its instruction sizes fit. *)

From S2P Require Import Prelude AsmBase TwoPass AsmBaseSpec Keeps PyMisc.
From S2P Require Import AsmX64 AsmX64Pass AsmX86 AsmX86Pass AsmArm AsmArmPass AsmThumb AsmThumbPass.
From S2P Require Import AsmRv32Opcodes AsmRv32 AsmRv32Decode AsmRv32Pass AsmRv32Program AsmRv32Spec.

Set Default Goal Selector "!".

Ltac op_tac HW := keeps_tac ltac:(done) ltac:(apply HW; simpl; lia).

(** A function's entry and operations keep what each of them does. *)
Lemma function_settled `{SizeT} {S Op : Type} `{!HasBase S} P (entry : M S unit) (exec : Op -> M S unit)
    (ok : Op -> Prop) ops :
  keeps (settled P) appends no_overrun entry ->
  (forall op, ok op -> keeps (settled P) appends no_overrun (exec op)) -> Forall ok ops ->
  keeps (settled P) appends no_overrun (entry;; seq_ops exec ops).
Proof.
  intros He Hop Hops. apply keeps_bind; [apply appends_preorder|done|]. intros _.
  by eapply keeps_seq_ops; [apply appends_preorder|..].
Qed.

(** ** x86-64 *)

(** The shared operations among them satisfy [ok]. *)
Definition x64_shared (ok : base_op -> Prop) (op : x64_op) : Prop :=
  match op with AsmX64Pass.Shared op => ok op | _ => True end.

Section X64.
Context (ok : base_op -> Prop).
#[local] Existing Instance SizeT_64.
Import AsmX64.GenericApi.
Context (P : Z -> list Z -> Prop) (W : Z -> Prop) `{!Layout P W}.
Context (HW : forall n, 0 <= n <= 8 -> W n) (Hok : forall op, ok op -> settled_op P W op).

Lemma x64_settled op : x64_shared ok op ->
  keeps (settled P) appends no_overrun (x64_exec op).
Proof using Type*.
  intros Hop. destruct op; [by apply keeps_on_base, (safe_shared P W), Hok|..]; cbn [x64_exec]; op_tac HW.
Qed.
Lemma x64_settled_entry locals :
  keeps (settled P) appends no_overrun (ASM_ENTRY locals).
Proof using Type*. op_tac HW. Qed.
Lemma x64_settled_function locals ops : Forall (x64_shared ok) ops ->
  keeps (settled P) appends no_overrun (x64_function locals ops).
Proof using Type*. apply function_settled; [apply x64_settled_entry|apply x64_settled]. Qed.
End X64.

(** ** x86 *)

(** The shared operations among them satisfy [ok]. *)
Definition x86_shared (ok : base_op -> Prop) (op : x86_op) : Prop :=
  match op with AsmX86Pass.Shared op => ok op | _ => True end.

Section X86.
Context (ok : base_op -> Prop).
#[local] Existing Instance SizeT_32.
Import AsmX86.GenericApi.
Context (P : Z -> list Z -> Prop) (W : Z -> Prop) `{!Layout P W}.
Context (HW : forall n, 0 <= n <= 8 -> W n) (Hok : forall op, ok op -> settled_op P W op).

Lemma x86_settled op : x86_shared ok op ->
  keeps (settled P) appends no_overrun (x86_exec op).
Proof using Type*.
  intros Hop. destruct op; [by apply keeps_on_base, (safe_shared P W), Hok|..]; cbn [x86_exec]; op_tac HW.
Qed.
Lemma x86_settled_entry locals :
  keeps (settled P) appends no_overrun (ASM_ENTRY locals).
Proof using Type*. op_tac HW. Qed.
Lemma x86_settled_function locals ops : Forall (x86_shared ok) ops ->
  keeps (settled P) appends no_overrun (x86_function locals ops).
Proof using Type*. apply function_settled; [apply x86_settled_entry|apply x86_settled]. Qed.
End X86.

(** ** ARM *)

(** The shared operations among them satisfy [ok]. *)
Definition arm_shared (ok : base_op -> Prop) (op : arm_op) : Prop :=
  match op with AsmArmPass.Shared op => ok op | _ => True end.

Section Arm.
Context (ok : base_op -> Prop).
#[local] Existing Instance SizeT_32.
Import AsmArm.GenericApi.
Context `{PyMisc} (P : Z -> list Z -> Prop) (W : Z -> Prop) `{!Layout P W} (HW : W 4) (Hok : forall op, ok op -> settled_op P W op).

Lemma arm_settled op : arm_shared ok op ->
  keeps (settled P) appends no_overrun (arm_exec op).
Proof using Type*.
  intros Hop. destruct op; [by apply keeps_on_base, (safe_shared P W), Hok|..]; cbn [arm_exec]; op_tac HW.
Qed.
Lemma arm_settled_entry locals :
  keeps (settled P) appends no_overrun (ASM_ENTRY locals).
Proof using Type*. op_tac HW. Qed.
Lemma arm_settled_function locals ops : Forall (arm_shared ok) ops ->
  keeps (settled P) appends no_overrun (arm_function locals ops).
Proof using Type*. apply function_settled; [apply arm_settled_entry|apply arm_settled]. Qed.
End Arm.

(** ** Thumb *)

(** The shared operations among them satisfy [ok]. *)
Definition thumb_shared (ok : base_op -> Prop) (op : thumb_op) : Prop :=
  match op with AsmThumbPass.Shared op => ok op | _ => True end.

Section Thumb.
Context (ok : base_op -> Prop).
#[local] Existing Instance SizeT_32.
Import AsmThumb.GenericApi.
Context `{ThumbConfig} `{PyMisc} (P : Z -> list Z -> Prop) (W : Z -> Prop) `{!Layout P W} (HW2 : W 2) (HW4 : W 4) (Hok : forall op, ok op -> settled_op P W op).

Ltac thumb_keeps := keeps_tac ltac:(done) ltac:(first [apply HW2|apply HW4]).

Lemma thumb_settled_adjust fuel op adj : keeps (settled P) appends no_overrun (adjust_sp_loop fuel op adj).
Proof using Type*.
  revert adj. induction fuel as [|fuel IH]; intros adj; cbn [adjust_sp_loop]; destruct (UNSIGNED_FIT7 adj).
  1, 2, 3: thumb_keeps.
  apply keeps_bind; [typeclasses eauto|thumb_keeps|intros _; apply IH].
Qed.
Hint Resolve thumb_settled_adjust : keeps.

Lemma thumb_settled_b_label l : keeps (settled P) appends no_overrun (asm_thumb_b_label l).
Proof using Type*. thumb_keeps. Qed.
Hint Resolve thumb_settled_b_label : keeps.

(** The reserved halfword is filled in inside the region. *)
Lemma thumb_settled_bcc_label cond l : keeps (settled P) appends no_overrun (asm_thumb_bcc_label cond l).
Proof using Type*.
  unfold asm_thumb_bcc_label. apply keeps_bind; [typeclasses eauto|thumb_keeps|intros [[dest o] rel]].
  destruct (_ && _ && _); [thumb_keeps|]. destruct asm_thumb_allow_armv7m; [thumb_keeps|].
  set (f := fun o o' => [u8 (u16 (OP_BCC_N (cond .^ 1) (u32 (u32 (o' - o) - 4))));
    u8 (u16 (OP_BCC_N (cond .^ 1) (u32 (u32 (o' - o) - 4))) >> 8)]).
  assert (forall x y, Forall is_byte (f x y) /\ Z.of_nat (length (f x y)) = 2) as Hf.
  { intros x y. split; [subst f; bytes_tac|done]. }
  pose proof (safe_patched P W 2 (asm_thumb_b_label l) f HW2 (thumb_settled_b_label l) Hf) as K.
  exact K.
Qed.
Hint Resolve thumb_settled_bcc_label : keeps.

Lemma thumb_settled op : thumb_shared ok op ->
  keeps (settled P) appends no_overrun (thumb_exec op).
Proof using Type*.
  intros Hop. destruct op; [by apply keeps_on_base, (safe_shared P W), Hok|..]; cbn [thumb_exec]; thumb_keeps.
Qed.
Lemma thumb_settled_entry locals :
  keeps (settled P) appends no_overrun (ASM_ENTRY locals).
Proof using Type*. thumb_keeps. Qed.
Lemma thumb_settled_function locals ops : Forall (thumb_shared ok) ops ->
  keeps (settled P) appends no_overrun (thumb_function locals ops).
Proof using Type*. apply function_settled; [apply thumb_settled_entry|apply thumb_settled]. Qed.
End Thumb.

(** ** RV32 *)

(** They do, and the labels looked up are among the first [n]. *)
Definition rv32_shared (n : nat) (ok : base_op -> Prop) (op : rv32_op) : Prop :=
  match op with
  | MovRegPcrel _ l | Jump l | JumpIfRegEq _ _ l | JumpIfRegNonzero _ l => (Z.to_nat l < n)%nat
  | Label l => ok (AsmBaseSpec.Label l)
  | Align k => ok (AsmBaseSpec.Align k)
  | Data size v => ok (AsmBaseSpec.Data size v)
  | _ => True
  end.

Section Rv32.
Context (ok : base_op -> Prop).
#[local] Existing Instance SizeT_32.
Context `{Rv32Config} `{PyMisc} `{!PlatAllocExec}.
Context (N : nat) (P : Z -> list Z -> Prop) (W : Z -> Prop) `{!Layout P W} (HW2 : W 2) (HW4 : W 4)
  (Hok : forall op, ok op -> settled_op P W op).
Abbreviation rv32_settles := (keeps (settled (has_labels N P)) appends no_overrun).

Lemma rv32_settled_word w : rv32_settles (asm_rv32_emit_word_opcode w).
Proof using Type*.
  apply (safe_put_array (has_labels N P) W [w .& 0xFF; (w >> 8) .& 0xFF; (w >> 16) .& 0xFF; (w >> 24) .& 0xFF]);
    [bytes_tac|done].
Qed.
Lemma rv32_settled_halfword w : rv32_settles (asm_rv32_emit_halfword_opcode w).
Proof using Type*.
  apply (safe_put_array (has_labels N P) W [w .& 0xFF; (w >> 8) .& 0xFF]); [bytes_tac|done].
Qed.
Hint Resolve rv32_settled_word rv32_settled_halfword : keeps.
Ltac rv32_keeps := keeps_tac ltac:(done) ltac:(idtac).

Lemma rv32_settled_store n : forall i mask offset, rv32_settles (registers_store_loop n i mask offset).
Proof using Type*.
  induction n as [|n IH]; intros i mask offset; cbn [registers_store_loop]; [rv32_keeps|].
  destruct (_ =? _); [apply IH|]. rv32_keeps; apply IH.
Qed.
Lemma rv32_settled_load n : forall i mask offset, rv32_settles (registers_load_loop n i mask offset).
Proof using Type*.
  induction n as [|n IH]; intros i mask offset; cbn [registers_load_loop]; [rv32_keeps|].
  destruct (_ =? _); [apply IH|]. rv32_keeps; apply IH.
Qed.
Hint Resolve rv32_settled_store rv32_settled_load : keeps.

(** The table is read without a check of the label. *)
Lemma rv32_settled_label_offset l : (Z.to_nat l < N)%nat -> rv32_settles (label_offset_at l).
Proof using Type*.
  intros Hl s Hs. unfold label_offset_at. rewrite gets_bind. unfold id.
  destruct (lookup_lt_is_Some_2 (label_offsets (base s)) (Z.to_nat l)) as [x ->];
    [destruct Hs as [_ [_ Hn]]; simpl in Hn; lia|].
  by apply keeps_ret; [apply appends_preorder|].
Qed.
Hint Resolve rv32_settled_label_offset : keeps.

Lemma rv32_settled op : rv32_shared N ok op -> rv32_settles (rv32_exec_op op).
Proof using Type*.
  intros Hop. destruct op; cbn [rv32_exec_op]; simpl in Hop; try solve [rv32_keeps].
  - destruct i as [op|op|op|op|op| | | | |[]| | | |]; try destruct op; rv32_keeps.
  - destruct c; rv32_keeps.
  - apply keeps_on_base, (safe_shared _ W (AsmBaseSpec.Label label)), labels_settled, Hok, Hop.
  - apply keeps_on_base, (safe_shared _ W (AsmBaseSpec.Align k)), labels_settled, Hok, Hop.
  - apply keeps_on_base, (safe_shared _ W (AsmBaseSpec.Data size v)), labels_settled, Hok, Hop.
  - apply keeps_on_base, safe_suppress.
Qed.
Lemma rv32_settled_entry locals : rv32_settles (asm_rv32_entry locals).
Proof using Type*. rv32_keeps. Qed.
Lemma rv32_settled_function locals ops : Forall (rv32_shared N ok) ops ->
  rv32_settles (rv32_function locals ops).
Proof using Type*. apply function_settled; [apply rv32_settled_entry|apply rv32_settled]. Qed.
End Rv32.

(** ** Memory safety *)

(** The outcome of code run on the shared state [b]: it stayed inside the code
    region and left what was written before, or stopped at an assertion or an
    exception. *)
Definition stays_inside `{SizeT} {S : Type} `{!HasBase S} (b : mp_asm_base_t) (r : outcome (unit * S)) : Prop :=
  match r with
  | Ok (_, s') => confined (base_of s') /\ appends b (base_of s')
  | Fault f => f <> OutOfBounds
  end.

Lemma settled_anywhere `{SizeT} b : confined b -> settled anywhere b.
Proof. by constructor. Qed.

Lemma settled_inside `{SizeT} {S : Type} `{!HasBase S} P (m : M S unit) s :
  keeps (settled P) appends no_overrun m -> settled P (base_of s) -> stays_inside (base_of s) (m s).
Proof.
  intros Hm Hs. specialize (Hm s Hs). destruct (m s) as [[u s']|]; [|done].
  destruct Hm as [[] ?]. by split.
Qed.

Lemma settled_result `{SizeT} {S : Type} `{!HasBase S} P (m : M S unit) s s' :
  keeps (settled P) appends no_overrun m -> settled P (base_of s) -> m s = Ok (tt, s') -> settled P (base_of s').
Proof. intros Hm Hs E. specialize (Hm s Hs). rewrite E in Hm. apply Hm. Qed.

Lemma any_size_small `{SizeT} n : 0 <= n <= 8 -> any_size n.
Proof.
  intros Hn. unfold any_size, half. pose proof size_bits_ge. split; [lia|].
  apply (Z.lt_le_trans _ (2 ^ 31)); [simpl; lia|]. apply Z.pow_le_mono_r; lia.
Qed.

Lemma aligned_small j n : 0 <= j -> 0 <= n <= 8 -> n mod 2 ^ j = 0 -> aligned_size (H := SizeT_32) j n.
Proof.
  intros Hj Hn Hd. split; [by apply any_size_small|].
  apply Z.mod_divide; [by apply Z.pow_nonzero|done].
Qed.

Section Safety.
Context `{ThumbConfig} `{Rv32Config} `{PyMisc}.

(** C12: no function of these back ends makes the assembler write outside the
    code region, whatever its operations, in either pass, and even where the
    region is too small or the passes do not match: an assertion stops it.
    What was written before stays, and the shared state is well formed at the
    end.  The region takes at most half the address space, so that offsets do
    not wrap; labels are unsigned, and RV32, which does not check them, is
    given labels of the table. *)
Theorem memory_safety :
  (forall locals ops s, Forall (x64_shared (inside_op (H := SizeT_64))) ops ->
     confined (H := SizeT_64) (AsmX64.base s) ->
     stays_inside (H := SizeT_64) (AsmX64.base s) (x64_function locals ops s))
  /\ (forall locals ops s, Forall (x86_shared (inside_op (H := SizeT_32))) ops ->
     confined (H := SizeT_32) (AsmX86.base s) ->
     stays_inside (H := SizeT_32) (AsmX86.base s) (x86_function locals ops s))
  /\ (forall locals ops s, Forall (arm_shared (inside_op (H := SizeT_32))) ops ->
     confined (H := SizeT_32) (AsmArm.base s) ->
     stays_inside (H := SizeT_32) (AsmArm.base s) (arm_function locals ops s))
  /\ (forall locals ops s, Forall (thumb_shared (inside_op (H := SizeT_32))) ops ->
     confined (H := SizeT_32) (AsmThumb.base s) ->
     stays_inside (H := SizeT_32) (AsmThumb.base s) (thumb_function locals ops s))
  /\ (forall locals ops s, Forall (rv32_shared (length (label_offsets (AsmRv32Opcodes.base s))) (inside_op (H := SizeT_32))) ops ->
     confined (H := SizeT_32) (AsmRv32Opcodes.base s) ->
     stays_inside (H := SizeT_32) (AsmRv32Opcodes.base s) (rv32_function locals ops s)).
Proof.
  split; [|split; [|split; [|split]]]; intros locals ops s Hops Hs.
  - change (stays_inside (H := SizeT_64) (base_of s) (x64_function locals ops s)).
    apply (settled_inside (H := SizeT_64) anywhere (x64_function locals ops) s); [|by apply settled_anywhere].
    apply (x64_settled_function (inside_op (H := SizeT_64)) anywhere (any_size (H := SizeT_64))); [exact any_size_small|apply inside_settled|exact Hops].
  - change (stays_inside (H := SizeT_32) (base_of s) (x86_function locals ops s)).
    apply (settled_inside (H := SizeT_32) anywhere (x86_function locals ops) s); [|by apply settled_anywhere].
    apply (x86_settled_function (inside_op (H := SizeT_32)) anywhere (any_size (H := SizeT_32))); [exact any_size_small|apply inside_settled|exact Hops].
  - change (stays_inside (H := SizeT_32) (base_of s) (arm_function locals ops s)).
    apply (settled_inside (H := SizeT_32) anywhere (arm_function locals ops) s); [|by apply settled_anywhere].
    apply (arm_settled_function (inside_op (H := SizeT_32)) anywhere (any_size (H := SizeT_32))); [by apply any_size_small|apply inside_settled|exact Hops].
  - change (stays_inside (H := SizeT_32) (base_of s) (thumb_function locals ops s)).
    apply (settled_inside (H := SizeT_32) anywhere (thumb_function locals ops) s); [|by apply settled_anywhere].
    apply (thumb_settled_function (inside_op (H := SizeT_32)) anywhere (any_size (H := SizeT_32))); [by apply any_size_small|by apply any_size_small|apply inside_settled|exact Hops].
  - change (stays_inside (H := SizeT_32) (base_of s) (rv32_function locals ops s)).
    apply (settled_inside (H := SizeT_32) (has_labels (length (label_offsets (AsmRv32Opcodes.base s))) anywhere) (rv32_function locals ops) s); [|by split; [|split]].
    apply (rv32_settled_function (inside_op (H := SizeT_32)) _ anywhere (any_size (H := SizeT_32))); [by apply any_size_small|by apply any_size_small|apply inside_settled|exact Hops].
Qed.

(** C13: instructions stay aligned.  ARM code keeps the current offset and every
    label it has recorded at multiples of 4, Thumb and RV32 code at multiples
    of 2, if the data and the alignments between the instructions do; the
    displacements of branches, which drop those bits, lose nothing. *)
Theorem instructions_aligned :
  (forall locals ops s s', Forall (arm_shared (aligned_op (H := SizeT_32) 2)) ops ->
     settled (H := SizeT_32) (aligned (H := SizeT_32) 2) (AsmArm.base s) ->
     arm_function locals ops s = Ok (tt, s') -> settled (H := SizeT_32) (aligned (H := SizeT_32) 2) (AsmArm.base s'))
  /\ (forall locals ops s s', Forall (thumb_shared (aligned_op (H := SizeT_32) 1)) ops ->
     settled (H := SizeT_32) (aligned (H := SizeT_32) 1) (AsmThumb.base s) ->
     thumb_function locals ops s = Ok (tt, s') -> settled (H := SizeT_32) (aligned (H := SizeT_32) 1) (AsmThumb.base s'))
  /\ (forall locals ops s s', Forall (rv32_shared (length (label_offsets (AsmRv32Opcodes.base s))) (aligned_op (H := SizeT_32) 1)) ops ->
     settled (H := SizeT_32) (aligned (H := SizeT_32) 1) (AsmRv32Opcodes.base s) ->
     rv32_function locals ops s = Ok (tt, s') -> settled (H := SizeT_32) (aligned (H := SizeT_32) 1) (AsmRv32Opcodes.base s')).
Proof.
  pose proof (layout_aligned (H := SizeT_32) 2 ltac:(done)) as L2.
  pose proof (layout_aligned (H := SizeT_32) 1 ltac:(done)) as L1.
  split; [|split]; intros locals ops s s' Hops Hs E.
  - refine (settled_result (H := SizeT_32) _ (arm_function locals ops) s s' _ Hs E).
    apply (arm_settled_function (aligned_op (H := SizeT_32) 2) _ (aligned_size (H := SizeT_32) 2));
      [by apply aligned_small|intros ?; by apply aligned_settled|done].
  - refine (settled_result (H := SizeT_32) _ (thumb_function locals ops) s s' _ Hs E).
    apply (thumb_settled_function (aligned_op (H := SizeT_32) 1) _ (aligned_size (H := SizeT_32) 1));
      [by apply aligned_small|by apply aligned_small|intros ?; by apply aligned_settled|done].
  - set (n := length (label_offsets (AsmRv32Opcodes.base s))) in *.
    assert (settled (H := SizeT_32) (has_labels n (aligned (H := SizeT_32) 1)) (base_of s')) as [Hc [HP _]]; [|done].
    refine (settled_result (H := SizeT_32) _ (rv32_function locals ops) s s' _ _ E);
      [|by split; [apply Hs|split; [apply Hs|]]].
    apply (rv32_settled_function (aligned_op (H := SizeT_32) 1) n _ (aligned_size (H := SizeT_32) 1));
      [by apply aligned_small|by apply aligned_small|intros ?; by apply aligned_settled|done].
Qed.
End Safety.

(** A region too small for the code: the pass stops, inside it. *)
Lemma memory_safety_witness :
  stays_inside (H := SizeT_64) (mk_asm_base MP_ASM_PASS_EMIT false 0 32 0x1000 (replicate 32 0) 3 [15; 31; 56])
    (x64_function 2 x64_example
      (mk_asm_x64 (mk_asm_base MP_ASM_PASS_EMIT false 0 32 0x1000 (replicate 32 0) 3 [15; 31; 56]) 0))
  /\ x64_function 2 x64_example
      (mk_asm_x64 (mk_asm_base MP_ASM_PASS_EMIT false 0 32 0x1000 (replicate 32 0) 3 [15; 31; 56]) 0)
     = Fault (Assertion "as->code_offset + num_bytes_to_write <= as->code_size").
Proof.
  destruct (memory_safety (H := thumb_v6m) (H0 := rv32_plain) (H1 := py_misc)) as (K & _). split.
  - apply (K 2 x64_example (mk_asm_x64 (mk_asm_base MP_ASM_PASS_EMIT false 0 32 0x1000 (replicate 32 0) 3 [15; 31; 56]) 0)).
    + repeat (apply List.Forall_cons; [simpl; first [done|lia|by split; [lia|]]|]); apply List.Forall_nil.
    + constructor; [|by split|done].
      constructor; simpl; try done; [by apply (Forall_replicate _ 32)|].
      repeat (apply List.Forall_cons; [by split|]); apply List.Forall_nil.
  - vm_compute. reflexivity.
Defined.

(** The state in which the compute pass over a program with three labels starts. *)
Definition measuring : mp_asm_base_t :=
  mk_asm_base MP_ASM_PASS_COMPUTE false 0 0 0 [] 3 (replicate 3 0xffffffff).
Lemma measuring_settled j : settled (H := SizeT_32) (aligned (H := SizeT_32) j) measuring.
Proof.
  constructor; [constructor; [|done|done]|].
  - constructor; try done. by apply (Forall_replicate _ 3).
  - split; [by apply Z.divide_0_r|]. apply (Forall_replicate _ 3). by left.
Qed.

Lemma instructions_aligned_witness :
  exists s', arm_function (H := py_misc) 5 arm_example (mk_asm_arm measuring 0 0) = Ok (tt, s')
  /\ settled (H := SizeT_32) (aligned (H := SizeT_32) 2) (AsmArm.base s').
Proof.
  destruct (instructions_aligned (H := thumb_v6m) (H0 := rv32_plain) (H1 := py_misc)) as (K & _).
  eexists. split; [vm_compute; reflexivity|].
  eapply (K 5 arm_example (mk_asm_arm measuring 0 0)); [| |vm_compute; reflexivity].
  - repeat (apply List.Forall_cons; [simpl; first [done|lia|by split; [split; [lia|]|exists 1]]|]); apply List.Forall_nil.
  - apply measuring_settled.
Defined.
